(* ===== verification/_CoqProject ===== *)
-Q . S2P
Prelude.v
LinkedList.v
Pid.v
Avl.v
Buddy.v
Timer.v
Calendar.v
CString.v
Vsprintf.v
Ext2Disk.v
Ext2Map.v
Ext2File.v
Ext2Mount.v
Ext2Dir.v
Sched.v
Paging.v
Checksum.v
Mbuf.v
Sockbuf.v
Socket.v
SockIo.v
SoSend.v
Tcp.v
Pcb.v
Fd.v
Vfs.v
