(* ===== verification/Prelude.v ===== *)
(** * ShaunOS: a verification library

    ShaunOS is a kernel for 32-bit x86 PCs: page allocators, threads and processes, an
    ext2 file system on an AHCI disk, a BSD-like network stack.  This library models parts
    of it, function by function, and proves what makes them correct.  This file has what
    the others share: machine words, outcomes, buffers, and the interface of the
    identifier allocator.

    ** How the model reads

    A C function is a Gallina function of the same name that takes the state it works on
    and returns an [outcome]: [Done] with the value returned and the new state, or [Fail]
    with what stops the machine there: a pointer that designates no object ([BadPtr]), a
    failed [assert], [panic] or [BUG] ([Panic]).  Error codes are values returned, as in
    the code.  Integers are [Z]; a value of a w-bit type is wrapped ([u32], [s32], ...)
    where the code computes in that type.  A loop of the source is a [Fixpoint] named
    after its function.  Where it is not structural it takes fuel; running out of it is
    [Fail Diverge], and the theorems conclude [Done], so they show that the fuel suffices.

    The amounts of fuel are: the number of cells of the heap for walks of intrusive lists
    ([LinkedList], [Sched], [Timer]); the size of memory for loops up to a NUL
    ([CString]); the number of bits, groups, blocks or entries of the table that is
    scanned ([Pid], [Ext2Disk], [Ext2Dir]); the bytes still to be moved for copy loops
    ([Ext2File], [Mbuf], [Checksum]); the digits of a 64-bit number ([Vsprintf]); the mbufs
    and sockets in store for walks of their chains ([Sockbuf], [Socket]); the 2^16 ports
    ([Pcb]).  Each is a bound on the iterations of the source's loop, not a limit of the model.

    The kernel turns interrupts off around the parts that change shared lists; such a part
    is one step here.  Where a thread gives the processor away within a function
    ([ksleep], [kwait_pid]), the function is cut there, and the two halves are steps.

    ** The parts and their files

    - [LinkedList]: the rings of [Include/list.h], on a heap of cells; [is_list] abstracts
      a ring to the list of its cells.  Used by [Buddy], [Timer], [Sched].
    - [Pid]: [Kernel/bitops.c] and the bit maps of [Kernel/pid.c]; an instance of the
      class [IdAlloc] below, against which [Timer] and [Sched] are proved.
    - [Avl]: [Kernel/avltree.c], the trees of processes and threads.
    - [Buddy]: [Kernel/mm.c], the allocators of physical pages.
    - [Timer], [Calendar]: [Kernel/timer.c], [Kernel/time.c]; ticks, the clock, timers,
      the date of the CMOS clock.
    - [CString], [Vsprintf]: [lib/string.c], [lib/vsprintf.c], on byte memory.
    - [Ext2Disk], [Ext2Map], [Ext2File], [Ext2Mount], [Ext2Dir]: [Kernel/ext2.c]; the
      device with inodes and bitmaps, the index blocks, files, mounting, directories.
      Each requires the ones before it.
    - [Sched]: queues, scheduling and sleeping of [Kernel/kthread.c].
    - [Paging]: [Kernel/page.c] and the user memory functions of [Kernel/kthread.c], which
      copy with [memcpy] of [CString], through the page tables.
    - [Fd]: the descriptor tables and open files of [Kernel/vfs.c] and [Kernel/kthread.c].
    - [Vfs]: paths and the calls on files of [Kernel/vfs.c], over the classes of what a
      file system and its files do.  Requires [Fd].
    - [Checksum], [Mbuf]: [Kernel/netinet/check_sum.c], [Kernel/mbuf.c].
    - [Sockbuf]: the socket buffers of [Kernel/net/uipc_socket2.c], chains of [Mbuf];
      [queue] abstracts a buffer to the bytes of its records.
    - [Socket]: states, accept queues, creation and closing of sockets, of
      [Kernel/net/uipc_socket.c], [uipc_socket2.c] and [uipc_domain.c], over the class of
      a protocol's requests.  [SockIo]: [soreceive] and [Kernel/uio.c].  [SoSend]: [sosend].
    - [Tcp]: reassembly and the round-trip estimate, of [Kernel/netinet/tcp_input.c] and
      the files beside it; gives its data to the buffers of [Socket].
    - [Pcb]: [Kernel/netinet/in_pcb.c], the control blocks with addresses and ports, over
      the class of what routes and interfaces answer.

    ** What is proved

    - Allocation.  Pages handed out are in range and disjoint, whatever the sequence of
      calls that can be served ([page_allocator_safe]; [page_allocator_double] is what
      happens otherwise), and freeing twice stops the kernel; identifiers are
      the least free ones and never handed out twice; blocks of a disk are taken and given
      back exactly.
    - Data structures.  List operations refine those on lists; the AVL tree refines a
      finite map and stays balanced under insertion; directories refine the sequence of
      their entries.
    - Round trips.  What is written to an inode, a block map, a directory, the time of day
      is read again; numbers printed parse back; a packet with its checksum sums to zero.
    - Time and scheduling.  A pass of the timer thread calls the expired timers, each
      once; the clock loses no tick; every queue holds each thread at most once, whatever
      the interleaving; threads of the top priority are all reached; a sleeper wakes up.
    - Memory.  An area that is mapped translates to fresh, distinct, zeroed frames, other
      addresses are not affected; a checked copy moves the bytes it is given and no
      others, within the user's mapped pages, or stops the kernel before the first.
    - Files.  The counter of every open file is the number of its descriptors, as long as
      [dup2] and sockets make none; a path without [..] leads along the directories of the
      mounted file systems; a file is read or written only as it was opened.
    - Network.  Socket buffers refine queues of records; a connection is accepted once and
      the backlog is bounded; a frame from a device becomes a packet of its bytes;
      [sosend], with room to spare, gives the protocol the caller's bytes, in order and,
      for a datagram, in one packet; [soreceive], into areas of the kernel's, hands out the
      bytes of the stream, or of one datagram, in order and once (into those of a process
      it fails after the first piece); the reassembly of TCP keeps the bytes of segments
      that come early, cut and overlapping, in order, and delivers the one that is next,
      but the loop that would deliver the kept ones goes through NULL; no two sockets own
      the same traffic, and the search for a port ends.
    - Equivalences.  [mktime] with the proleptic calendar, [in_cksum] with RFC 1071, the
      walk over index blocks with the one that also allocates.

    A lemma that shows a defect of the code is named in the manifest's findings.

    ** Not modelled

    Register programming of devices (AHCI, IDE, PCI, e1000, video, mouse), descriptor
    tables, assembly entry points and the boot sequence: effects on hardware without state
    of the kernel's.  The graphics library and its fonts: a demo.  [bget.c]: third-party.
    User programs.  The creation and end of processes with [elf.c], which lay out address
    spaces over the functions of [Paging], [Fd] and [Sched]; [syscall.c] and
    [net/uipc_syscall.c], which copy arguments for the functions modelled here; the keyboard.
    Of the network: the socket options, [tcp_input] around the reassembly,
    [tcp_output], UDP, IP, ARP, routing and interfaces: BSD code whose state (radix trees,
    interfaces, timers) is a class here where [Pcb] and [Socket] rely on it.  *)

From Stdlib Require Export ZArith Lia.
From stdpp Require Export base numbers option list gmap.
#[export] Set Default Goal Selector "!".
Open Scope Z_scope.

(** ** Machine integers

    The kernel is compiled for a 32-bit x86 ([gcc -m32]): [u32] is
    [unsigned long], [s32] is [int], a pointer has 32 bits.  A value of a w-bit
    type is a [Z]; the wrap-around functions below are applied where the C code
    stores into (or computes in) that type. *)

Definition u8 (z : Z) : Z := z mod 2 ^ 8.
Definition u16 (z : Z) : Z := z mod 2 ^ 16.
Definition u32 (z : Z) : Z := z mod 2 ^ 32.
Definition u64 (z : Z) : Z := z mod 2 ^ 64.
Definition s8 (z : Z) : Z := (z + 2 ^ 7) mod 2 ^ 8 - 2 ^ 7.
Definition s16 (z : Z) : Z := (z + 2 ^ 15) mod 2 ^ 16 - 2 ^ 15.
Definition s32 (z : Z) : Z := (z + 2 ^ 31) mod 2 ^ 32 - 2 ^ 31.

Definition s64 (z : Z) : Z := (z + 2 ^ 63) mod 2 ^ 64 - 2 ^ 63.

Create HintDb word.
Create Rewrite HintDb word.

Lemma u32_range z : 0 <= u32 z < 2 ^ 32.
Proof. unfold u32. apply Z.mod_pos_bound. lia. Qed.

Lemma u32_small z : 0 <= z < 2 ^ 32 → u32 z = z.
Proof. intros. unfold u32. by apply Z.mod_small. Qed.

Lemma u32_idem z : u32 (u32 z) = u32 z.
Proof. apply u32_small, u32_range. Qed.

Lemma s32_range z : - 2 ^ 31 <= s32 z < 2 ^ 31.
Proof. unfold s32. pose proof (Z.mod_pos_bound (z + 2 ^ 31) (2 ^ 32)). lia. Qed.

Lemma s32_small z : - 2 ^ 31 <= z < 2 ^ 31 → s32 z = z.
Proof. intros. unfold s32. rewrite Z.mod_small; lia. Qed.

Lemma s64_small z : - 2 ^ 63 <= z < 2 ^ 63 → s64 z = z.
Proof. intros. unfold s64. rewrite Z.mod_small; lia. Qed.

Lemma u64_range z : 0 <= u64 z < 2 ^ 64.
Proof. unfold u64. apply Z.mod_pos_bound. lia. Qed.

Lemma u64_small z : 0 <= z < 2 ^ 64 → u64 z = z.
Proof. intros. unfold u64. by apply Z.mod_small. Qed.

Lemma s64_u64 z : s64 (u64 z) = s64 z.
Proof. unfold s64, u64. by rewrite Zplus_mod_idemp_l. Qed.

Lemma u32_s32 z : u32 (s32 z) = u32 z.
Proof.
  unfold u32, s32. rewrite <- (Zminus_mod_idemp_l _ (2 ^ 31)), Z.mod_mod by lia.
  rewrite Zminus_mod_idemp_l. f_equal. lia.
Qed.

Lemma s32_u32 z : s32 (u32 z) = s32 z.
Proof. unfold s32, u32. by rewrite Zplus_mod_idemp_l. Qed.

#[export] Hint Resolve u32_range s32_range : word.
#[export] Hint Rewrite u32_idem u32_s32 s32_u32 : word.

(** [word_solve] rewrites wrap-arounds that cannot happen and calls [lia]. *)
Ltac word_solve :=
  repeat (rewrite u32_small in * by lia || rewrite s32_small in * by lia);
  autorewrite with word in *; lia.

(** ** Outcomes

    A C function either returns, or does something after which no return value
    exists: it dereferences a pointer that designates no object, it fails an
    [assert]/[panic]/[BUG] (all of them stop the machine), or it never
    returns. *)

Inductive fault : Set :=
| BadPtr      (** dereference of NULL or of a pointer to no live object *)
| Panic       (** [panic], a failed [assert], or [BUG] *)
| Diverge.    (** the loop bound of the model was reached *)

#[export] Instance fault_eq_dec : EqDecision fault.
Proof. solve_decision. Defined.

Inductive outcome (A : Type) : Type :=
| Done (a : A)
| Fail (f : fault).
Arguments Done {A} _.
Arguments Fail {A} _.

#[export] Instance outcome_ret : MRet outcome := λ A a, Done a.
#[export] Instance outcome_bind : MBind outcome := λ A B k m,
  match m with Done a => k a | Fail f => Fail f end.
#[export] Instance outcome_fmap : FMap outcome := λ A B g m,
  match m with Done a => Done (g a) | Fail f => Fail f end.

(** A lookup through a pointer. *)
Definition deref {A} (o : option A) : outcome A :=
  match o with Some a => Done a | None => Fail BadPtr end.

(** [assert(c)] of [kernel/assert.h]. *)
Definition assert_ (b : bool) : outcome unit :=
  if b then Done tt else Fail Panic.

Lemma bind_done {A B} (a : A) (k : A → outcome B) : mbind k (Done a) = k a.
Proof. reflexivity. Qed.

Lemma bind_assoc {A B C} (m : outcome A) (f : A → outcome B) (g : B → outcome C) :
  mbind (λ x, mbind g (f x)) m = mbind g (mbind f m).
Proof. by destruct m. Qed.

Lemma bind_Done_inv {A B} (m : outcome A) (k : A → outcome B) b :
  mbind k m = Done b → ∃ a, m = Done a ∧ k a = Done b.
Proof. destruct m; [eauto | discriminate]. Qed.

Lemma deref_Done {A} (o : option A) a : deref o = Done a ↔ o = Some a.
Proof. destruct o; simpl; split; congruence. Qed.

(** [run_inv H] splits the hypothesis "this monadic program returned" into the
    return values of its steps. *)
Ltac run_inv H :=
  repeat
    match type of H with
    | mbind _ _ = Done _ =>
        let a := fresh "r" in
        let E := fresh "E" in
        apply bind_Done_inv in H as (a & E & H);
        try (apply deref_Done in E)
    end.

(** [run] executes a monadic goal whose steps are known by hypotheses. *)
Ltac run :=
  repeat (rewrite bind_done || (match goal with H : ?m = Done _ |- context[?m] => rewrite H end)).

(** ** Error numbers ([Include/kernel/errno.h]) *)

Definition EPERM := 1.
Definition ENOENT := 2.
Definition ESRCH := 3.
Definition EIO := 5.
Definition EBADF := 9.
Definition ENOMEM := 12.
Definition EACCES := 13.
Definition EFAULT := 14.
Definition EEXIST := 17.
Definition ENODEV := 19.
Definition ENOTDIR := 20.
Definition EINVAL := 22.
Definition ENFILE := 23.
Definition EMFILE := 24.
Definition ENOTTY := 25.
Definition EFBIG := 27.
Definition ENOSPC := 28.
Definition ESPIPE := 29.
Definition ENAMETOOLONG := 36.
Definition ENOSYS := 38.
Definition ENOTEMPTY := 39.
Definition ENOBUFS := 105.

(** ** Booleans of C *)

Definition b2z (b : bool) : Z := if b then 1 else 0.

(** ** Bits *)

(** Testing a value against a one-bit mask. *)
Lemma land_pow2 x k : 0 <= k → Z.land x (2 ^ k) = if Z.testbit x k then 2 ^ k else 0.
Proof.
  intros Hk. apply Z.bits_inj'. intros n Hn. rewrite Z.land_spec, Z.pow2_bits_eqb by lia.
  destruct (Z.eqb_spec k n) as [<-|Hne].
  - rewrite andb_true_r. destruct (Z.testbit x k); [|by rewrite Z.bits_0]. by rewrite Z.pow2_bits_true by lia.
  - rewrite andb_false_r. destruct (Z.testbit x k); [|by rewrite Z.bits_0].
    rewrite Z.pow2_bits_eqb by lia. by rewrite (proj2 (Z.eqb_neq k n)).
Qed.

Lemma land_pow2_testbit x k : 0 <= k → negb (Z.land x (2 ^ k) =? 0) = Z.testbit x k.
Proof.
  intros Hk. rewrite land_pow2 by done. destruct (Z.testbit x k); [|done]. pose proof (Z.pow_pos_nonneg 2 k ltac:(lia) Hk).
  by rewrite (proj2 (Z.eqb_neq (2 ^ k) 0)) by lia.
Qed.

(** ** Reachability *)

(** An invariant of the steps holds in every reachable state. *)
Lemma rtc_inv {A} (R : relation A) (P : A → Prop) x y :
  (∀ a b, R a b → P a → P b) → rtc R x y → P x → P y.
Proof. intros Hs. induction 1; eauto. Qed.

(** ** Lists indexed by Z *)

Definition nthZ {A} (l : list A) (i : Z) : option A :=
  if decide (0 <= i) then l !! Z.to_nat i else None.
Definition updZ {A} (l : list A) (i : Z) (a : A) : list A :=
  if decide (0 <= i) then <[Z.to_nat i := a]> l else l.

Lemma nthZ_upd_eq {A} (l : list A) i a :
  0 <= i < Z.of_nat (length l) → nthZ (updZ l i a) i = Some a.
Proof.
  intros. unfold nthZ, updZ. rewrite !decide_True by lia.
  apply list_lookup_insert_eq. lia.
Qed.

Lemma nthZ_upd_ne {A} (l : list A) i j a :
  i ≠ j → nthZ (updZ l i a) j = nthZ l j.
Proof.
  intros. unfold nthZ, updZ. repeat case_decide; try done.
  apply list_lookup_insert_ne. lia.
Qed.

Lemma updZ_length {A} (l : list A) i a : length (updZ l i a) = length l.
Proof. unfold updZ. case_decide; [apply length_insert | done]. Qed.

Lemma updZ_twice {A} (l : list A) i a b : updZ (updZ l i a) i b = updZ l i b.
Proof. unfold updZ. case_decide; [|done]. apply list_insert_insert_eq. Qed.

Lemma updZ_id {A} (l : list A) i a : nthZ l i = Some a → updZ l i a = l.
Proof. unfold nthZ, updZ. case_decide; [|done]. apply list_insert_id. Qed.

Lemma nthZ_Some {A} (l : list A) i a :
  nthZ l i = Some a → 0 <= i < Z.of_nat (length l).
Proof.
  unfold nthZ. case_decide; [|done]. intros Hl.
  apply lookup_lt_Some in Hl. lia.
Qed.

Lemma nthZ_is_Some {A} (l : list A) i :
  0 <= i < Z.of_nat (length l) → ∃ a, nthZ l i = Some a.
Proof.
  intros. unfold nthZ. rewrite decide_True by lia.
  apply lookup_lt_is_Some_2. lia.
Qed.

(** ** Stretches of a buffer: [memcpy] between two; outside of one of them it faults *)

Definition sub_buf (b : list Z) (off n : Z) : outcome (list Z) :=
  if (0 <=? off) && (0 <=? n) && (off + n <=? Z.of_nat (length b)) then
    Done (take (Z.to_nat n) (drop (Z.to_nat off) b)) else Fail BadPtr.
Definition put_buf (b : list Z) (off : Z) (x : list Z) : outcome (list Z) :=
  if (0 <=? off) && (off + Z.of_nat (length x) <=? Z.of_nat (length b)) then
    Done (take (Z.to_nat off) b ++ x ++ drop (Z.to_nat off + length x) b) else Fail BadPtr.

Lemma in_bounds_true off n len : 0 <= off → off + n <= len → (0 <=? off) && (off + n <=? len) = true.
Proof. intros. by rewrite (proj2 (Z.leb_le _ _)), (proj2 (Z.leb_le _ _)). Qed.

Lemma sub_buf_ok (b : list Z) off n : 0 <= off → 0 <= n → off + n <= Z.of_nat (length b) →
  sub_buf b off n = Done (take (Z.to_nat n) (drop (Z.to_nat off) b)).
Proof. intros. unfold sub_buf. by rewrite (proj2 (Z.leb_le 0 n)), andb_true_r, in_bounds_true. Qed.

Lemma put_buf_ok (b : list Z) off x : 0 <= off → off + Z.of_nat (length x) <= Z.of_nat (length b) →
  put_buf b off x = Done (take (Z.to_nat off) b ++ x ++ drop (Z.to_nat off + length x) b).
Proof. intros. unfold put_buf. by rewrite in_bounds_true. Qed.

Lemma put_buf_app (off : Z) (pre a post x : list Z) : off = Z.of_nat (length pre) → length a = length x →
  put_buf (pre ++ a ++ post) off x = Done (pre ++ x ++ post).
Proof.
  intros -> Hl. unfold put_buf. rewrite in_bounds_true by (rewrite ?length_app; lia).
  rewrite Nat2Z.id, take_app_length. do 3 f_equal. rewrite drop_app_add. by rewrite drop_app_length'.
Qed.

(** ** The identifier allocator, as its clients see it

    A set of free identifiers; [ia_get] takes the least one out, [ia_put] gives
    one back.  [Pid.v] discharges the laws for [kid_object]; the timer list, the
    descriptor tables and the process table are proved against this class. *)
Class IdAlloc (S : Type) := {
  ia_wf : S → Prop;
  ia_cap : S → Z;
  ia_free : S → gset Z;
  ia_get : S → outcome (Z * S);
  ia_put : S → Z → outcome S;
  ia_free_range : ∀ s i, ia_wf s → i ∈ ia_free s → 0 <= i < ia_cap s;
  ia_get_law : ∀ s, ia_wf s → ia_free s ≠ ∅ →
    ∃ i s', ia_get s = Done (i, s') ∧ ia_wf s' ∧ ia_cap s' = ia_cap s ∧ i ∈ ia_free s ∧
      ia_free s' = ia_free s ∖ {[i]} ∧ ∀ j, j ∈ ia_free s → i <= j;
  ia_put_law : ∀ s i, ia_wf s → 0 <= i < ia_cap s →
    ∃ s', ia_put s i = Done s' ∧ ia_wf s' ∧ ia_cap s' = ia_cap s ∧
      ia_free s' = {[i]} ∪ ia_free s;
}.
