(* ===== verification/LinkedList.v ===== *)
(** * Intrusive doubly linked lists ([Include/list.h])

    Every queue of the kernel (run queues, wait queues, buddy free lists, timer
    list, process lists) is a ring of [struct linked_list] cells embedded in the
    queued objects, closed by a head cell.  The model keeps the cells in a finite
    map from addresses to [prev]/[next] pairs; each operation is the sequence of
    loads and stores of the C function, in the order of the source, and faults
    when it goes through a pointer to no cell.  [is_list h head xs] is the
    abstraction: the cells [xs], in order, hang on [head]. *)

From S2P Require Import Prelude.

Section linked_list.
Context {K : Type} `{Countable K}.

(** [struct linked_list] *)
Record linked_list : Type := mk_ll { prev : K; next : K }.

#[local] Abbreviation heap := (gmap K linked_list).
Implicit Types (h : heap) (p q head entry : K) (xs ys : list K).

(** Loads and stores of one field. *)
Definition get_next p h : outcome K := next <$> deref (h !! p).
Definition get_prev p h : outcome K := prev <$> deref (h !! p).
Definition set_next p (v : K) h : outcome heap :=
  n ← deref (h !! p); Done (<[p := mk_ll (prev n) v]> h).
Definition set_prev p (v : K) h : outcome heap :=
  n ← deref (h !! p); Done (<[p := mk_ll v (next n)]> h).

(** ** The operations of list.h *)

Definition list_init (head : option K) h : outcome heap :=
  match head with
  | None => Done h
  | Some hd =>
      h ← set_prev hd hd h;
      set_next hd hd h
  end.

Definition list_is_empty head h : outcome bool :=
  n ← get_next head h; Done (bool_decide (n = head)).

Definition list_add head entry h : outcome heap :=
  n ← get_next head h;
  h ← set_next entry n h;
  n ← get_next head h;
  h ← set_prev n entry h;
  h ← set_next head entry h;
  set_prev entry head h.

Definition list_add_tail head entry h : outcome heap :=
  p ← get_prev head h;
  h ← set_next p entry h;
  h ← set_next entry head h;
  p ← get_prev head h;
  h ← set_prev entry p h;
  set_prev head entry h.

Definition list_del entry h : outcome heap :=
  p ← get_prev entry h;
  n ← get_next entry h;
  h ← set_next p n h;
  n ← get_next entry h;
  p ← get_prev entry h;
  h ← set_prev n p h;
  h ← set_next entry entry h;
  set_prev entry entry h.

Definition list_move_head head entry h : outcome heap :=
  h ← list_del entry h; list_add head entry h.

Definition list_move_tail head entry h : outcome heap :=
  h ← list_del entry h; list_add_tail head entry h.

(** [None] is the C function's NULL. *)
Definition list_cut head (wher : K) h : outcome (option K * heap) :=
  e ← list_is_empty head h;
  if (e : bool) then Done (None, h) else
  sub_head ← get_next head h;
  if decide (sub_head = wher) then
    p ← get_prev head h;
    h ← set_next p sub_head h;
    p ← get_prev head h;
    h ← set_prev sub_head p h;
    h ← set_next head head h;
    h ← set_prev head head h;
    Done (Some sub_head, h)
  else
    h ← set_next head wher h;
    p ← get_prev wher h;
    h ← set_prev sub_head p h;
    p ← get_prev wher h;
    h ← set_next p sub_head h;
    h ← set_prev wher head h;
    Done (Some sub_head, h).

Definition list_splice head (sub_list : K) h : outcome heap :=
  last ← get_prev sub_list h;
  n ← get_next head h;
  h ← set_next last n h;
  n ← get_next head h;
  h ← set_prev n last h;
  h ← set_next head sub_list h;
  set_prev sub_list head h.

Definition list_splice_tail head (sub_list : K) h : outcome heap :=
  last ← get_prev sub_list h;
  p ← get_prev head h;
  h ← set_next p sub_list h;
  p ← get_prev head h;
  h ← set_prev sub_list p h;
  h ← set_next last head h;
  set_prev head last h.

(** The loop [for (pos = head->next; pos != head; pos = pos->next)], as the
    list of the cells it visits; [fuel] bounds the number of iterations. *)
Fixpoint walk (fuel : nat) head p h : outcome (list K) :=
  match fuel with
  | O => Fail Diverge
  | S fuel =>
      if decide (p = head) then Done [] else
      n ← get_next p h;
      r ← walk fuel head n h;
      Done (p :: r)
  end.
Definition list_for_each (fuel : nat) head h : outcome (list K) :=
  n ← get_next head h; walk fuel head n h.

(** ** The representation predicate *)

Definition nextf h p : option K := next <$> h !! p.
Definition prevf h p : option K := prev <$> h !! p.

(** [chain h a xs b]: following [next] from [a] one meets [xs] and then [b],
    and the [prev] pointers mirror it. *)
Fixpoint chain h (a : K) xs (b : K) : Prop :=
  match xs with
  | [] => nextf h a = Some b ∧ prevf h b = Some a
  | x :: xs => nextf h a = Some x ∧ prevf h x = Some a ∧ chain h x xs b
  end.

Definition is_list h head xs : Prop :=
  NoDup (head :: xs) ∧ chain h head xs head.

Lemma set_next_spec p v h :
  is_Some (h !! p) → ∃ h', set_next p v h = Done h' ∧
    (∀ q, nextf h' q = if decide (q = p) then Some v else nextf h q) ∧
    (∀ q, prevf h' q = prevf h q) ∧
    (∀ q, q ≠ p → h' !! q = h !! q) ∧ dom h' = dom h.
Proof.
  intros [n Hn]. unfold set_next, nextf, prevf. rewrite Hn.
  eexists. split; [reflexivity|]. split_and!.
  - intros q. case_decide as Hq.
    + subst q. by rewrite lookup_insert_eq.
    + by rewrite lookup_insert_ne.
  - intros q. destruct (decide (q = p)) as [->|].
    + by rewrite lookup_insert_eq, Hn.
    + by rewrite lookup_insert_ne.
  - intros q ?. by rewrite lookup_insert_ne.
  - apply dom_insert_lookup_L. eauto.
Qed.

Lemma set_prev_spec p v h :
  is_Some (h !! p) → ∃ h', set_prev p v h = Done h' ∧
    (∀ q, prevf h' q = if decide (q = p) then Some v else prevf h q) ∧
    (∀ q, nextf h' q = nextf h q) ∧
    (∀ q, q ≠ p → h' !! q = h !! q) ∧ dom h' = dom h.
Proof.
  intros [n Hn]. unfold set_prev, nextf, prevf. rewrite Hn.
  eexists. split; [reflexivity|]. split_and!.
  - intros q. case_decide as Hq.
    + subst q. by rewrite lookup_insert_eq.
    + by rewrite lookup_insert_ne.
  - intros q. destruct (decide (q = p)) as [->|].
    + by rewrite lookup_insert_eq, Hn.
    + by rewrite lookup_insert_ne.
  - intros q ?. by rewrite lookup_insert_ne.
  - apply dom_insert_lookup_L. eauto.
Qed.

Lemma get_next_spec p h n : nextf h p = Some n → get_next p h = Done n.
Proof. unfold nextf, get_next. by destruct (h !! p); simpl; intros [= ->]. Qed.
Lemma get_prev_spec p h n : prevf h p = Some n → get_prev p h = Done n.
Proof. unfold prevf, get_prev. by destruct (h !! p); simpl; intros [= ->]. Qed.
Lemma nextf_Some p h n : nextf h p = Some n → is_Some (h !! p).
Proof. unfold nextf. by destruct (h !! p); eauto. Qed.
Lemma prevf_Some p h n : prevf h p = Some n → is_Some (h !! p).
Proof. unfold prevf. by destruct (h !! p); eauto. Qed.
Lemma lookup_nextf p h : is_Some (h !! p) → is_Some (nextf h p).
Proof. unfold nextf. intros [? ->]. eauto. Qed.
Lemma lookup_prevf p h : is_Some (h !! p) → is_Some (prevf h p).
Proof. unfold prevf. intros [? ->]. eauto. Qed.

Lemma next_prev_None p h : nextf h p = None ↔ prevf h p = None.
Proof. unfold nextf, prevf. by destruct (h !! p). Qed.

(** ** Structure of chains *)

Lemma chain_app h a xs e ys b :
  chain h a (xs ++ e :: ys) b ↔ chain h a xs e ∧ chain h e ys b.
Proof.
  revert a. induction xs as [|x xs IH]; intros a; simpl; [tauto|].
  rewrite IH. tauto.
Qed.

Lemma chain_frame h h' a xs b :
  (∀ p, p ∈ a :: xs → nextf h' p = nextf h p) →
  (∀ p, p ∈ xs ++ [b] → prevf h' p = prevf h p) →
  chain h a xs b → chain h' a xs b.
Proof.
  revert a. induction xs as [|x xs IH]; intros a Hn Hp; simpl.
  - rewrite Hn, Hp by set_solver. done.
  - rewrite Hn, (Hp x) by set_solver. intros (? & ? & ?). split_and!; [done..|].
    apply IH; [| |done]; intros; [apply Hn | apply Hp]; set_solver.
Qed.

Definition first_or xs b : K := default b (hd_error xs).
Definition last_or a xs : K := default a (last xs).

Lemma first_or_cons x xs b : first_or (x :: xs) b = x.
Proof. done. Qed.
Lemma last_or_snoc a xs x : last_or a (xs ++ [x]) = x.
Proof. unfold last_or. by rewrite last_snoc. Qed.
Lemma last_or_cons a x xs : last_or a (x :: xs) = last_or x xs.
Proof. unfold last_or. rewrite last_cons. by destruct (last xs). Qed.
Lemma last_or_elem a xs : last_or a xs ∈ a :: xs.
Proof.
  revert a. induction xs as [|x xs IH]; intros a; [set_solver|].
  rewrite last_or_cons. specialize (IH x). set_solver.
Qed.
Lemma first_or_elem xs b : first_or xs b ∈ xs ++ [b].
Proof. destruct xs; unfold first_or; set_solver. Qed.

Lemma chain_next h a xs b : chain h a xs b → nextf h a = Some (first_or xs b).
Proof. destruct xs; simpl; naive_solver. Qed.

Lemma chain_prev h a xs b : chain h a xs b → prevf h b = Some (last_or a xs).
Proof.
  revert a. induction xs as [|x xs IH]; intros a; simpl; [naive_solver|].
  intros (_ & _ & Hc). by rewrite last_or_cons, (IH _ Hc).
Qed.

Lemma chain_elem h a xs b p :
  chain h a xs b → p ∈ xs → is_Some (h !! p).
Proof.
  revert a. induction xs as [|x xs IH]; intros a; simpl; [set_solver|].
  intros (_ & ? & ?) [->|?]%elem_of_cons; [by eapply prevf_Some | by eapply IH].
Qed.

Lemma is_list_elem h head xs p :
  is_list h head xs → p ∈ head :: xs → is_Some (h !! p).
Proof.
  intros [_ Hc] [->|?]%elem_of_cons.
  - apply chain_next in Hc. by eapply nextf_Some.
  - by eapply chain_elem.
Qed.

Lemma is_list_frame h h' head xs :
  (∀ p, p ∈ head :: xs → h' !! p = h !! p) → is_list h head xs → is_list h' head xs.
Proof.
  intros Hf [Hn Hc]. split; [done|]. eapply chain_frame, Hc; intros p Hp;
    unfold nextf, prevf; rewrite Hf; set_solver.
Qed.

(** Rewiring lemmas: the two field updates that unlink a segment, and the ones
    that link a segment in. *)
Lemma chain_unlink h h' a xs e ys b :
  NoDup (a :: xs ++ e :: ys) → b ∉ xs ++ e :: ys →
  chain h a (xs ++ e :: ys) b →
  (∀ q, q ≠ e → nextf h' q = if decide (q = last_or a xs) then Some (first_or ys b) else nextf h q) →
  (∀ q, q ≠ e → prevf h' q = if decide (q = first_or ys b) then Some (last_or a xs) else prevf h q) →
  chain h' a (xs ++ ys) b.
Proof.
  revert a. induction xs as [|x xs IH]; intros a; simpl.
  - intros Hnd Hb (_ & _ & Hc) Hn Hp.
    apply NoDup_cons in Hnd as [Ha Hnd]. apply NoDup_cons in Hnd as [He Hnd].
    destruct ys as [|y ys]; simpl in *.
    + rewrite Hn, decide_True, Hp, decide_True by set_solver. done.
    + rewrite Hn, decide_True, Hp, decide_True by set_solver.
      split_and!; [done..|]. apply NoDup_cons in Hnd as [Hy Hnd].
      eapply chain_frame, Hc; intros q Hq; [rewrite Hn | rewrite Hp];
        try case_decide; set_solver.
  - intros Hnd Hb (Hna & Hpx & Hc) Hn Hp.
    apply NoDup_cons in Hnd as [Ha Hnd].
    rewrite last_or_cons in *.
    pose proof (last_or_elem x xs) as Hl. pose proof (first_or_elem ys b) as Hf.
    assert (x ≠ e) by (apply NoDup_cons in Hnd; set_solver).
    assert (x ≠ first_or ys b).
    { apply NoDup_cons in Hnd. set_solver. }
    rewrite Hn, decide_False, (Hp x), decide_False by set_solver.
    split_and!; [done..|]. apply IH; [done | set_solver | done | done | done].
Qed.

Lemma chain_link h h' a xs e ys b :
  NoDup (a :: xs ++ ys) → b ∉ xs ++ ys → e ∉ a :: xs ++ ys ++ [b] →
  chain h a (xs ++ ys) b →
  (∀ q, nextf h' q = if decide (q = last_or a xs) then Some e else
                     if decide (q = e) then Some (first_or ys b) else nextf h q) →
  (∀ q, prevf h' q = if decide (q = first_or ys b) then Some e else
                     if decide (q = e) then Some (last_or a xs) else prevf h q) →
  chain h' a (xs ++ e :: ys) b.
Proof.
  revert a. induction xs as [|x xs IH]; intros a; simpl.
  - intros Hnd Hb He Hc Hn Hp. apply NoDup_cons in Hnd as [Ha Hnd].
    rewrite !Hn. unfold last_or at 1; simpl. rewrite decide_True by done.
    rewrite Hp, (decide_False (P := e = first_or ys b)), decide_True
      by (pose proof (first_or_elem ys b); set_solver).
    split_and!; [done..|].
    destruct ys as [|y ys]; simpl in *.
    + unfold first_or, last_or in *; simpl in *.
      rewrite Hn, decide_False, decide_True, Hp, decide_True by set_solver. done.
    + rewrite Hn, (decide_False (P := e = last_or a [])), decide_True, Hp, decide_True
        by (unfold last_or; set_solver).
      destruct Hc as (_ & _ & Hc). apply NoDup_cons in Hnd as [Hy Hnd].
      split_and!; [done..|]. unfold first_or, last_or in *; simpl in *.
      eapply chain_frame, Hc; intros q Hq; [rewrite Hn | rewrite Hp];
        repeat case_decide; set_solver.
  - intros Hnd Hb He (Hna & Hpx & Hc) Hn Hp. apply NoDup_cons in Hnd as [Ha Hnd].
    rewrite last_or_cons in *.
    pose proof (last_or_elem x xs) as Hl. pose proof (first_or_elem ys b) as Hf.
    assert (x ≠ first_or ys b).
    { apply NoDup_cons in Hnd. set_solver. }
    rewrite Hn, !decide_False, (Hp x), !decide_False by set_solver.
    split_and!; [done..|]. apply IH; [done | set_solver | set_solver | done | done | done].
Qed.

(** ** Execution of the operations

    [fields h h' fn fp S]: [h'] has the [next] fields [fn] and the [prev] fields
    [fp], the same cells as [h], and agrees with [h] outside [S]. *)
Definition fields h h' (fn fp : K → option K) (S : list K) : Prop :=
  (∀ q, nextf h' q = fn q) ∧ (∀ q, prevf h' q = fp q) ∧
  (∀ q, q ∉ S → h' !! q = h !! q) ∧ dom h' = dom h.

Ltac cells := apply elem_of_dom; repeat (match goal with H : dom _ = dom _ |- _ => rewrite H end);
  apply elem_of_dom; assumption.
Ltac do_set :=
  match goal with
  | |- context [set_next ?p ?v ?h] =>
      let h' := fresh "h" in let E := fresh "E" in
      destruct (set_next_spec p v h) as (h' & E & ? & ? & ? & ?);
        [cells | rewrite E, ?bind_done; clear E]
  | |- context [set_prev ?p ?v ?h] =>
      let h' := fresh "h" in let E := fresh "E" in
      destruct (set_prev_spec p v h) as (h' & E & ? & ? & ? & ?);
        [cells | rewrite E, ?bind_done; clear E]
  end.
Ltac field_eq :=
  repeat match goal with
  | H : ∀ q, nextf ?h q = _ |- context [nextf ?h _] => rewrite H
  | H : ∀ q, prevf ?h q = _ |- context [prevf ?h _] => rewrite H
  end;
  repeat case_decide; subst; congruence.
Ltac do_get v :=
  match goal with
  | |- context [mbind _ (get_next ?p ?h)] => rewrite (get_next_spec p h v), bind_done by field_eq
  | |- context [mbind _ (get_prev ?p ?h)] => rewrite (get_prev_spec p h v), bind_done by field_eq
  end.
Ltac fields_done :=
  eexists; split; [reflexivity|]; split_and!;
  [ intros q; field_eq
  | intros q; field_eq
  | intros q Hq; repeat match goal with H : ∀ q, q ≠ _ → ?h !! q = _ |- ?h !! _ = _ => rewrite H by set_solver end; done
  | congruence ].

Lemma list_add_fields hd e b h :
  nextf h hd = Some b → hd ≠ e → b ≠ e →
  is_Some (h !! hd) → is_Some (h !! b) → is_Some (h !! e) →
  ∃ h', list_add hd e h = Done h' ∧
    fields h h'
      (λ q, if decide (q = hd) then Some e else if decide (q = e) then Some b else nextf h q)
      (λ q, if decide (q = b) then Some e else if decide (q = e) then Some hd else prevf h q)
      [hd; e; b].
Proof.
  intros. unfold list_add. do_get b. do_set. do_get b. do 3 do_set. fields_done.
Qed.

Lemma list_add_tail_fields hd e a h :
  prevf h hd = Some a → hd ≠ e → a ≠ e →
  is_Some (h !! hd) → is_Some (h !! a) → is_Some (h !! e) →
  ∃ h', list_add_tail hd e h = Done h' ∧
    fields h h'
      (λ q, if decide (q = a) then Some e else if decide (q = e) then Some hd else nextf h q)
      (λ q, if decide (q = hd) then Some e else if decide (q = e) then Some a else prevf h q)
      [hd; e; a].
Proof.
  intros. unfold list_add_tail. do_get a. do 2 do_set. do_get a. do 2 do_set. fields_done.
Qed.

Lemma list_del_fields e a b h :
  nextf h e = Some b → prevf h e = Some a → a ≠ e → b ≠ e →
  is_Some (h !! a) → is_Some (h !! b) → is_Some (h !! e) →
  ∃ h', list_del e h = Done h' ∧
    fields h h'
      (λ q, if decide (q = e) then Some e else if decide (q = a) then Some b else nextf h q)
      (λ q, if decide (q = e) then Some e else if decide (q = b) then Some a else prevf h q)
      [e; a; b].
Proof.
  intros. unfold list_del. do_get a. do_get b. do_set. do_get b. do_get a. do 3 do_set.
  fields_done.
Qed.

Lemma list_init_spec hd h :
  is_Some (h !! hd) → ∃ h', list_init (Some hd) h = Done h' ∧ is_list h' hd [] ∧
    (∀ q, q ≠ hd → h' !! q = h !! q) ∧ dom h' = dom h.
Proof.
  intros. unfold list_init. do 2 do_set. eexists. split; [reflexivity|]. split; [split | split].
  - apply NoDup_singleton.
  - simpl. split; field_eq.
  - intros q Hq. repeat match goal with H : ∀ q, q ≠ _ → ?h !! q = _ |- ?h !! _ = _ => rewrite H by done end. done.
  - congruence.
Qed.

Lemma list_is_empty_spec h hd xs :
  is_list h hd xs → list_is_empty hd h = Done (bool_decide (xs = [])).
Proof.
  intros [Hnd Hc]. unfold list_is_empty.
  rewrite (get_next_spec _ _ _ (chain_next _ _ _ _ Hc)), bind_done. f_equal.
  apply bool_decide_ext. destruct xs as [|x xs]; [done|].
  rewrite first_or_cons. apply NoDup_cons in Hnd. split; [set_solver|done].
Qed.

Lemma list_add_spec h hd e xs :
  is_list h hd xs → e ∉ hd :: xs → is_Some (h !! e) →
  ∃ h', list_add hd e h = Done h' ∧ is_list h' hd (e :: xs) ∧
    (∀ q, q ∉ hd :: e :: xs → h' !! q = h !! q) ∧ dom h' = dom h.
Proof.
  intros [Hnd Hc] He Hs. pose proof (first_or_elem xs hd).
  destruct (list_add_fields hd e (first_or xs hd) h) as (h' & E & Hn & Hp & Hf & Hd).
  - by apply chain_next in Hc.
  - set_solver.
  - set_solver.
  - apply (is_list_elem h hd xs); [done | set_solver].
  - apply (is_list_elem h hd xs); [done | set_solver].
  - done.
  - exists h'. split; [done|]. split; [split | split; [|done]].
    + apply NoDup_cons in Hnd. apply NoDup_cons. split; [set_solver|].
      apply NoDup_cons. set_solver.
    + apply (chain_link h h' hd [] e xs hd); [done | apply NoDup_cons in Hnd; set_solver
        | set_solver | done | done | done].
    + intros q Hq. apply Hf. set_solver.
Qed.

Lemma list_add_tail_spec h hd e xs :
  is_list h hd xs → e ∉ hd :: xs → is_Some (h !! e) →
  ∃ h', list_add_tail hd e h = Done h' ∧ is_list h' hd (xs ++ [e]) ∧
    (∀ q, q ∉ hd :: e :: xs → h' !! q = h !! q) ∧ dom h' = dom h.
Proof.
  intros [Hnd Hc] He Hs. pose proof (last_or_elem hd xs).
  destruct (list_add_tail_fields hd e (last_or hd xs) h) as (h' & E & Hn & Hp & Hf & Hd).
  - by apply chain_prev in Hc.
  - set_solver.
  - set_solver.
  - apply (is_list_elem h hd xs); [done | set_solver].
  - apply (is_list_elem h hd xs); [done | set_solver].
  - done.
  - exists h'. split; [done|]. split; [split | split; [|done]].
    + apply NoDup_cons in Hnd. apply NoDup_cons. split; [set_solver|].
      apply NoDup_app. split_and!; [tauto | set_solver | apply NoDup_singleton].
    + apply (chain_link h h' hd xs e [] hd); rewrite ?app_nil_r;
        [done | apply NoDup_cons in Hnd; set_solver | set_solver | done | done | done].
    + intros q Hq. apply Hf. set_solver.
Qed.

Lemma list_del_spec h hd e xs ys :
  is_list h hd (xs ++ e :: ys) →
  ∃ h', list_del e h = Done h' ∧ is_list h' hd (xs ++ ys) ∧ is_list h' e [] ∧
    (∀ q, q ∉ hd :: xs ++ e :: ys → h' !! q = h !! q) ∧ dom h' = dom h.
Proof.
  intros [Hnd Hc].
  pose proof (last_or_elem hd xs). pose proof (first_or_elem ys hd).
  assert (Hnd' := Hnd). apply NoDup_cons in Hnd' as [Hhd Hnd'].
  apply NoDup_app in Hnd' as (Hx & Hxy & Hy). apply NoDup_cons in Hy as [Hey Hy].
  destruct (list_del_fields e (last_or hd xs) (first_or ys hd) h)
    as (h' & E & Hn & Hp & Hf & Hd).
  - apply chain_app in Hc as [_ Hc]. by apply chain_next in Hc.
  - apply chain_app in Hc as [Hc _]. by apply chain_prev in Hc.
  - set_solver.
  - set_solver.
  - apply (is_list_elem h hd (xs ++ e :: ys)); [done | set_solver].
  - apply (is_list_elem h hd (xs ++ e :: ys)); [done | set_solver].
  - apply (is_list_elem h hd (xs ++ e :: ys)); [done | set_solver].
  - exists h'. split; [done|]. split; [split | split; [split | split; [|done]]].
    + apply NoDup_cons. split; [set_solver|]. apply NoDup_app. set_solver.
    + apply (chain_unlink h h' hd xs e ys hd); [done..| |].
      * intros q Hq. by rewrite Hn, decide_False.
      * intros q Hq. by rewrite Hp, decide_False.
    + apply NoDup_singleton.
    + simpl. by rewrite Hn, Hp, !decide_True.
    + intros q Hq. apply Hf. set_solver.
Qed.

(** Deleting a cell that hangs on no list (its pointers point to itself)
    changes nothing. *)
Lemma list_del_self h e : is_list h e [] → ∃ h', list_del e h = Done h' ∧
  is_list h' e [] ∧ (∀ q, q ≠ e → h' !! q = h !! q) ∧ dom h' = dom h.
Proof.
  intros [Hnd [Hn Hp]]. assert (is_Some (h !! e)) by (by eapply nextf_Some).
  unfold list_del. do_get e. do_get e. do_set. do_get e. do_get e. do 3 do_set.
  eexists. split; [reflexivity|]. split; [split | split].
  - done.
  - simpl. split; field_eq.
  - intros q Hq. repeat match goal with H : ∀ q, q ≠ _ → ?h !! q = _ |- ?h !! _ = _ => rewrite H by done end. done.
  - congruence.
Qed.

(** ** Traversal *)

Lemma walk_spec h hd xs a fuel :
  chain h a xs hd → hd ∉ xs → (length xs < fuel)%nat →
  walk fuel hd (first_or xs hd) h = Done xs.
Proof.
  revert a fuel. induction xs as [|x xs IH]; intros a [|fuel] Hc Hhd Hf; simpl in *; try lia.
  - by rewrite decide_True.
  - rewrite first_or_cons, decide_False by set_solver. destruct Hc as (_ & _ & Hc).
    rewrite (get_next_spec _ _ _ (chain_next _ _ _ _ Hc)), bind_done.
    rewrite (IH x fuel Hc), bind_done; [done | set_solver | lia].
Qed.

Lemma list_for_each_spec h hd xs fuel :
  is_list h hd xs → (length xs < fuel)%nat → list_for_each fuel hd h = Done xs.
Proof.
  intros [Hnd Hc] Hf. unfold list_for_each.
  rewrite (get_next_spec _ _ _ (chain_next _ _ _ _ Hc)), bind_done.
  apply NoDup_cons in Hnd. eapply walk_spec; [done | tauto | done].
Qed.

(** A list is determined by its head. *)
Lemma is_list_inj h hd xs ys : is_list h hd xs → is_list h hd ys → xs = ys.
Proof.
  intros Hx Hy.
  pose proof (list_for_each_spec h hd xs (S (length xs + length ys)) Hx ltac:(lia)) as E1.
  pose proof (list_for_each_spec h hd ys (S (length xs + length ys)) Hy ltac:(lia)) as E2.
  congruence.
Qed.

(** ** Abstract specification: a family of lists

    [lists h σ]: the heap holds, disjointly, the list [σ !! hd] at every head
    [hd] of [σ].  A cell that hangs on no list has both its pointers on itself
    ([list_init], and what [list_del] leaves): it is the head of an empty list. *)

#[local] Abbreviation family := (gmap K (list K)).
Implicit Types σ : family.

Definition lists h σ : Prop :=
  (∀ hd xs, σ !! hd = Some xs → is_list h hd xs) ∧
  (∀ hd1 hd2 xs1 xs2, σ !! hd1 = Some xs1 → σ !! hd2 = Some xs2 → hd1 ≠ hd2 →
     (hd1 :: xs1) ## (hd2 :: xs2)).

(** What the operations do to the family. *)
Definition rm e xs : list K := filter (λ x, x ≠ e) xs.
Definition unlink e σ : family := <[e := []]> (rm e <$> σ).
Definition link_head hd e σ : family :=
  alter (λ xs, e :: xs) hd (delete e σ).
Definition link_tail hd e σ : family :=
  alter (λ xs, xs ++ [e]) hd (delete e σ).

(** [e] hangs on the list of [hd]; [e] hangs on some list or on none. *)
Definition on_list σ e hd : Prop := ∃ xs, σ !! hd = Some xs ∧ e ∈ xs.
Definition linked_or_loose σ e : Prop := (∃ hd, on_list σ e hd) ∨ σ !! e = Some [].

Lemma rm_notin e xs : e ∉ xs → rm e xs = xs.
Proof.
  induction xs as [|x xs IH]; intros He; [done|]. unfold rm. rewrite filter_cons_True by set_solver.
  f_equal. apply IH. set_solver.
Qed.

Lemma rm_mid e xs ys : NoDup (xs ++ e :: ys) → rm e (xs ++ e :: ys) = xs ++ ys.
Proof.
  intros (Hx & Hxy & Hy)%NoDup_app. apply NoDup_cons in Hy as [Hey Hy].
  unfold rm. rewrite filter_app, filter_cons_False by auto.
  fold (rm e xs) (rm e ys). rewrite !rm_notin; [done | done | set_solver].
Qed.

Lemma rm_sub e xs x : x ∈ rm e xs → x ∈ xs ∧ x ≠ e.
Proof. unfold rm. rewrite list_elem_of_filter. tauto. Qed.

Lemma lists_unique h σ e hd1 hd2 xs1 xs2 :
  lists h σ → σ !! hd1 = Some xs1 → σ !! hd2 = Some xs2 →
  e ∈ hd1 :: xs1 → e ∈ hd2 :: xs2 → hd1 = hd2.
Proof.
  intros [_ Hd] H1 H2 He1 He2. destruct (decide (hd1 = hd2)) as [|Hne]; [done|].
  specialize (Hd _ _ _ _ H1 H2 Hne). set_solver.
Qed.

Lemma unlink_loose h σ e : lists h σ → σ !! e = Some [] → unlink e σ = σ.
Proof.
  intros Hl He. apply map_eq. intros hd. unfold unlink.
  destruct (decide (hd = e)) as [->|Hne]; [by rewrite lookup_insert_eq|].
  rewrite lookup_insert_ne, lookup_fmap by done.
  destruct (σ !! hd) as [xs|] eqn:Ehd; simpl; [|done]. f_equal. apply rm_notin.
  intros ?. apply Hne. eapply (lists_unique h σ e); set_solver.
Qed.

Lemma unlink_lookup_on h σ e hd xs ys :
  lists h σ → σ !! hd = Some (xs ++ e :: ys) →
  e ≠ hd ∧ σ !! e = None ∧ unlink e σ = <[e := []]> (<[hd := xs ++ ys]> σ).
Proof.
  intros Hl Hhd.
  assert (e ≠ hd).
  { destruct Hl as [Hl _]. destruct (Hl _ _ Hhd) as [[? _]%NoDup_cons _]. set_solver. }
  assert (σ !! e = None).
  { destruct (σ !! e) as [zs|] eqn:Ee; [|done]. exfalso. apply (not_eq_sym H0).
    apply (lists_unique h σ e _ _ _ _ Hl Hhd Ee); set_solver. }
  split_and!; [done..|]. unfold unlink. f_equal. apply map_eq. intros k.
  rewrite lookup_fmap. destruct (decide (k = hd)) as [->|Hne].
  - rewrite Hhd, lookup_insert_eq. simpl. f_equal. apply rm_mid.
    destruct Hl as [Hl _]. by destruct (Hl _ _ Hhd) as [[_ ?]%NoDup_cons _].
  - rewrite lookup_insert_ne by done. destruct (σ !! k) as [zs|] eqn:Ek; [|done].
    simpl. f_equal. apply rm_notin. intros ?. apply Hne.
    apply (lists_unique h σ e _ _ _ _ Hl Ek Hhd); set_solver.
Qed.

Lemma lists_shrink h h' σ hd xs ys :
  lists h σ → σ !! hd = Some xs → is_list h' hd ys → (∀ x, x ∈ ys → x ∈ xs) →
  (∀ q, q ∉ hd :: xs → h' !! q = h !! q) → lists h' (<[hd := ys]> σ).
Proof.
  intros [Hl Hdj] Hhd Hl' Hys Hf. split.
  - intros k zs. rewrite lookup_insert_Some. intros [[<- <-]|[? Hk]]; [done|].
    eapply is_list_frame, Hl; [|done]. intros p Hp. apply Hf.
    specialize (Hdj _ _ _ _ Hk Hhd ltac:(done)). set_solver.
  - intros k1 k2 z1 z2. rewrite !lookup_insert_Some.
    intros [[<- <-]|[? Hk1]] [[<- <-]|[? Hk2]] Hk; [done| | |by eapply Hdj].
    + specialize (Hdj _ _ _ _ Hhd Hk2 Hk). set_solver.
    + specialize (Hdj _ _ _ _ Hk1 Hhd Hk). set_solver.
Qed.

Lemma lists_new h h' σ e :
  lists h σ → is_list h' e [] → (∀ hd xs, σ !! hd = Some xs → e ∉ hd :: xs) →
  (∀ q, q ≠ e → h' !! q = h !! q) → lists h' (<[e := []]> σ).
Proof.
  intros [Hl Hdj] Hl' He Hf. split.
  - intros k zs. rewrite lookup_insert_Some. intros [[<- <-]|[? Hk]]; [done|].
    eapply is_list_frame, Hl; [|done]. intros p Hp. apply Hf. specialize (He _ _ Hk). set_solver.
  - intros k1 k2 z1 z2. rewrite !lookup_insert_Some.
    intros [[<- <-]|(? & Hk1)] [[<- <-]|(? & Hk2)] Hk; [done| | |by eapply Hdj].
    + specialize (He _ _ Hk2). set_solver.
    + specialize (He _ _ Hk1). set_solver.
Qed.

Lemma lists_nodup h σ hd xs : lists h σ → σ !! hd = Some xs → NoDup (hd :: xs).
Proof. intros [Hl _] Hhd. by destruct (Hl _ _ Hhd). Qed.

Lemma lists_del h σ e :
  lists h σ → linked_or_loose σ e →
  ∃ h', list_del e h = Done h' ∧ lists h' (unlink e σ) ∧ dom h' = dom h ∧
    (∀ q, (∀ hd xs, σ !! hd = Some xs → q ∉ hd :: xs) → h' !! q = h !! q).
Proof.
  intros Hl [(hd & zs & Hhd & (xs & ys & ->)%list_elem_of_split)|He].
  - destruct (unlink_lookup_on _ _ _ _ _ _ Hl Hhd) as (Hne & Hn & ->).
    destruct (list_del_spec _ _ _ _ _ (proj1 Hl _ _ Hhd)) as (h' & E & Hl1 & Hl2 & Hf & Hd).
    exists h'. split_and!; [done| |done|].
    + apply (lists_new h' h'); [|done| |done].
      * eapply lists_shrink; [done|done|done|set_solver|done].
      * intros k zs. rewrite lookup_insert_Some. intros [[<- <-]|[? Hk]].
        -- apply (lists_nodup _ _ _ _ Hl), NoDup_cons in Hhd as [? Hnd].
           apply NoDup_app in Hnd as (? & ? & [? _]%NoDup_cons). set_solver.
        -- intros ?. apply (not_eq_sym H0).
           eapply (lists_unique h σ e _ _ _ _ Hl Hk Hhd); set_solver.
    + intros q Hq. apply Hf. by apply Hq.
  - rewrite (unlink_loose h) by done.
    destruct (list_del_self _ _ (proj1 Hl _ _ He)) as (h' & E & Hl1 & Hf & Hd).
    exists h'. split_and!; [done| |done|].
    + rewrite <- (insert_id σ e []) by done.
      eapply lists_shrink; [done|done|done|done|]. intros q Hq. apply Hf. set_solver.
    + intros q Hq. apply Hf. specialize (Hq _ _ He). set_solver.
Qed.

Lemma lists_del_dom h σ e hd xs : lists h σ → σ !! hd = Some xs → e ∈ hd :: xs → is_Some (h !! e).
Proof. intros [Hl _] Hhd He. eapply is_list_elem; [by apply Hl | done]. Qed.

Lemma disjoint_grow hd e xs ys (c : list K) :
  (∀ x, x ∈ ys → x = e ∨ x ∈ xs) → hd :: xs ## c → e ∉ c → hd :: ys ## c.
Proof.
  intros Hys Hd He x [->|Hx]%elem_of_cons Hc.
  - apply (Hd hd); [set_solver | done].
  - destruct (Hys _ Hx) as [->|]; [done|]. apply (Hd x); [set_solver | done].
Qed.

Lemma lists_insert h' h σ e hd xs ys :
  lists h σ → σ !! hd = Some xs → σ !! e = Some [] → e ≠ hd →
  is_list h' hd ys → (∀ x, x ∈ ys → x = e ∨ x ∈ xs) →
  (∀ q, q ∉ hd :: e :: xs → h' !! q = h !! q) →
  lists h' (<[hd := ys]> (delete e σ)).
Proof.
  intros [Hl Hdj] Hhd He Hne Hl' Hys Hf. split.
  - intros k zs. rewrite lookup_insert_Some, lookup_delete_Some.
    intros [[<- <-]|(? & ? & Hk)]; [done|]. eapply is_list_frame, Hl; [|done].
    intros p Hp. apply Hf.
    pose proof (Hdj _ _ _ _ Hk Hhd ltac:(done)). pose proof (Hdj _ _ _ _ Hk He ltac:(done)).
    set_solver.
  - intros k1 k2 z1 z2. rewrite !lookup_insert_Some, !lookup_delete_Some.
    intros [[<- <-]|(? & ? & Hk1)] [[<- <-]|(? & ? & Hk2)] Hk; [done| | |by eapply Hdj].
    + apply (disjoint_grow _ e xs); [done | by eapply Hdj|].
      pose proof (Hdj _ _ _ _ He Hk2 ltac:(done)) as Hx. intros ?. apply (Hx e); set_solver.
    + intros x Hx1 Hx2. revert x Hx2 Hx1. apply (disjoint_grow _ e xs); [done | by eapply Hdj|].
      pose proof (Hdj _ _ _ _ He Hk1 ltac:(done)) as Hx. intros ?. apply (Hx e); set_solver.
Qed.

Lemma lists_add h σ hd e xs :
  lists h σ → σ !! hd = Some xs → σ !! e = Some [] → e ≠ hd →
  ∃ h', list_add hd e h = Done h' ∧ lists h' (link_head hd e σ) ∧ dom h' = dom h ∧
    (∀ q, q ∉ hd :: e :: xs → h' !! q = h !! q).
Proof.
  intros Hl Hhd He Hne. pose proof Hl as [Hls Hdj].
  destruct (list_add_spec h hd e xs) as (h' & E & Hl' & Hf & Hd).
  - by apply Hls.
  - specialize (Hdj _ _ _ _ He Hhd Hne). set_solver.
  - eapply lists_del_dom; [done..|set_solver].
  - exists h'. split_and!; [done| |done|done].
    replace (link_head hd e σ) with (<[hd := e :: xs]> (delete e σ)).
    + eapply lists_insert; try done. set_solver.
    + unfold link_head. apply map_eq. intros k.
      destruct (decide (k = hd)) as [->|]; simplify_map_eq; try done.
Qed.

Lemma lists_add_tail h σ hd e xs :
  lists h σ → σ !! hd = Some xs → σ !! e = Some [] → e ≠ hd →
  ∃ h', list_add_tail hd e h = Done h' ∧ lists h' (link_tail hd e σ) ∧ dom h' = dom h ∧
    (∀ q, q ∉ hd :: e :: xs → h' !! q = h !! q).
Proof.
  intros Hl Hhd He Hne. pose proof Hl as [Hls Hdj].
  destruct (list_add_tail_spec h hd e xs) as (h' & E & Hl' & Hf & Hd).
  - by apply Hls.
  - specialize (Hdj _ _ _ _ He Hhd Hne). set_solver.
  - eapply lists_del_dom; [done..|set_solver].
  - exists h'. split_and!; [done| |done|done].
    replace (link_tail hd e σ) with (<[hd := xs ++ [e]]> (delete e σ)).
    + eapply lists_insert; try done. set_solver.
    + unfold link_tail. apply map_eq. intros k.
      destruct (decide (k = hd)) as [->|]; simplify_map_eq; try done.
Qed.

Lemma unlink_lookup_e e σ : unlink e σ !! e = Some [].
Proof. unfold unlink. by rewrite lookup_insert_eq. Qed.
Lemma unlink_lookup_ne e k σ : k ≠ e → unlink e σ !! k = rm e <$> σ !! k.
Proof. intros. unfold unlink. by rewrite lookup_insert_ne, lookup_fmap. Qed.

Lemma lists_move_head h σ hd e :
  lists h σ → linked_or_loose σ e → is_Some (σ !! hd) → e ≠ hd →
  ∃ h', list_move_head hd e h = Done h' ∧ lists h' (link_head hd e (unlink e σ)) ∧
    dom h' = dom h.
Proof.
  intros Hl He [xs Hhd] Hne.
  destruct (lists_del h σ e Hl He) as (h1 & E1 & Hl1 & Hd1 & _).
  destruct (lists_add h1 (unlink e σ) hd e (rm e xs)) as (h2 & E2 & Hl2 & Hd2 & _).
  - done.
  - by rewrite unlink_lookup_ne, Hhd.
  - apply unlink_lookup_e.
  - done.
  - exists h2. unfold list_move_head. rewrite E1, bind_done. split_and!; [done..|congruence].
Qed.

Lemma lists_move_tail h σ hd e :
  lists h σ → linked_or_loose σ e → is_Some (σ !! hd) → e ≠ hd →
  ∃ h', list_move_tail hd e h = Done h' ∧ lists h' (link_tail hd e (unlink e σ)) ∧
    dom h' = dom h.
Proof.
  intros Hl He [xs Hhd] Hne.
  destruct (lists_del h σ e Hl He) as (h1 & E1 & Hl1 & Hd1 & _).
  destruct (lists_add_tail h1 (unlink e σ) hd e (rm e xs)) as (h2 & E2 & Hl2 & Hd2 & _).
  - done.
  - by rewrite unlink_lookup_ne, Hhd.
  - apply unlink_lookup_e.
  - done.
  - exists h2. unfold list_move_tail. rewrite E1, bind_done. split_and!; [done..|congruence].
Qed.

(** Initialising a cell that belongs to no list of the family. *)
Lemma lists_init h σ e :
  lists h σ → is_Some (h !! e) → (∀ hd xs, σ !! hd = Some xs → e ∉ hd :: xs) →
  ∃ h', list_init (Some e) h = Done h' ∧ lists h' (<[e := []]> σ) ∧ dom h' = dom h ∧
    (∀ q, q ≠ e → h' !! q = h !! q).
Proof.
  intros Hl Hs He. destruct (list_init_spec e h Hs) as (h' & E & Hl' & Hf & Hd).
  exists h'. split_and!; [done| |done|done]. by eapply lists_new.
Qed.

Lemma lists_is_empty h σ hd xs :
  lists h σ → σ !! hd = Some xs → list_is_empty hd h = Done (bool_decide (xs = [])).
Proof. intros [Hl _] Hhd. apply list_is_empty_spec; auto. Qed.

Lemma lists_first h σ hd x xs :
  lists h σ → σ !! hd = Some (x :: xs) → get_next hd h = Done x.
Proof.
  intros [Hl _] Hhd. destruct (Hl _ _ Hhd) as [_ Hc].
  apply get_next_spec. by apply chain_next in Hc.
Qed.

(** Cells outside the family do not matter, and a loose cell can be forgotten. *)
Lemma lists_frame h h' σ : (∀ hd xs q, σ !! hd = Some xs → q ∈ hd :: xs → h' !! q = h !! q) →
  lists h σ → lists h' σ.
Proof.
  intros Hf [Hl Hd]. split; [|done]. intros hd xs Hx. eapply is_list_frame, Hl; eauto.
Qed.

Lemma lists_forget h σ e : lists h σ → lists h (delete e σ).
Proof.
  intros [Hl Hd]. split.
  - intros hd xs [_ Hx]%lookup_delete_Some. auto.
  - intros hd1 hd2 xs1 xs2 [_ H1]%lookup_delete_Some [_ H2]%lookup_delete_Some. eauto.
Qed.

(** ** Refinement

    A client is a sequence of commands; the abstract machine runs it on the
    family of lists. *)
Inductive list_op : Type :=
| OpInit (e : K) | OpAdd (hd e : K) | OpAddTail (hd e : K) | OpDel (e : K)
| OpMoveHead (hd e : K) | OpMoveTail (hd e : K).

Definition exec_op (o : list_op) h : outcome heap :=
  match o with
  | OpInit e => list_init (Some e) h
  | OpAdd hd e => list_add hd e h
  | OpAddTail hd e => list_add_tail hd e h
  | OpDel e => list_del e h
  | OpMoveHead hd e => list_move_head hd e h
  | OpMoveTail hd e => list_move_tail hd e h
  end.

Fixpoint exec (os : list list_op) h : outcome heap :=
  match os with [] => Done h | o :: os => h ← exec_op o h; exec os h end.

(** What the client owes: a cell is linked into a list only when it is loose,
    unlinked or moved when it is linked or loose, and a head is initialised only
    when it belongs to no list. *)
Definition op_ok (o : list_op) (D : gset K) σ : Prop :=
  match o with
  | OpInit e => e ∈ D ∧ ∀ hd xs, σ !! hd = Some xs → e ∉ hd :: xs
  | OpAdd hd e | OpAddTail hd e => is_Some (σ !! hd) ∧ σ !! e = Some [] ∧ e ≠ hd
  | OpDel e => linked_or_loose σ e
  | OpMoveHead hd e | OpMoveTail hd e => linked_or_loose σ e ∧ is_Some (σ !! hd) ∧ e ≠ hd
  end.

Definition op_abs (o : list_op) σ : family :=
  match o with
  | OpInit e => <[e := []]> σ
  | OpAdd hd e => link_head hd e σ
  | OpAddTail hd e => link_tail hd e σ
  | OpDel e => unlink e σ
  | OpMoveHead hd e => link_head hd e (unlink e σ)
  | OpMoveTail hd e => link_tail hd e (unlink e σ)
  end.

Fixpoint ops_ok (os : list list_op) (D : gset K) σ : Prop :=
  match os with [] => True | o :: os => op_ok o D σ ∧ ops_ok os D (op_abs o σ) end.

Lemma exec_op_spec o h σ : lists h σ → op_ok o (dom h) σ →
  ∃ h', exec_op o h = Done h' ∧ lists h' (op_abs o σ) ∧ dom h' = dom h.
Proof.
  intros Hl. destruct o as [e|hd e|hd e|e|hd e|hd e]; cbn [exec_op op_abs op_ok].
  - intros [Hs%elem_of_dom He]. destruct (lists_init h σ e Hl Hs He) as (h' & ? & ? & ? & _). eauto.
  - intros ([xs Hx] & He & Hn). destruct (lists_add h σ hd e xs Hl Hx He Hn) as (h' & ? & ? & ? & _).
    eauto.
  - intros ([xs Hx] & He & Hn).
    destruct (lists_add_tail h σ hd e xs Hl Hx He Hn) as (h' & ? & ? & ? & _). eauto.
  - intros He. destruct (lists_del h σ e Hl He) as (h' & ? & ? & ? & _). eauto.
  - intros (He & Hx & Hn). by apply lists_move_head.
  - intros (He & Hx & Hn). by apply lists_move_tail.
Qed.

(** C4: the intrusive lists refine a family of disjoint sequences.  Any sequence
    of [list_init], [list_add], [list_add_tail], [list_del], [list_move_head] and
    [list_move_tail] whose uses are legal in the abstract family runs without a
    bad pointer, ends in a heap that represents the abstract result, with the same
    cells, and a traversal of each list then visits exactly its abstract
    sequence, in order. *)
Theorem list_ops_refine os h σ :
  lists h σ → ops_ok os (dom h) σ →
  ∃ h', exec os h = Done h' ∧ lists h' (foldl (flip op_abs) σ os) ∧ dom h' = dom h ∧
    ∀ hd xs, foldl (flip op_abs) σ os !! hd = Some xs →
      list_for_each (S (length xs)) hd h' = Done xs.
Proof.
  revert h σ. induction os as [|o os IH]; intros h σ Hl Hok; cbn [exec foldl].
  - exists h. split_and!; [done..|]. intros hd xs Hx.
    apply list_for_each_spec; [by apply Hl | lia].
  - destruct Hok as [Ho Hok]. destruct (exec_op_spec o h σ Hl Ho) as (h1 & E & Hl1 & Hd).
    rewrite <- Hd in Hok. destruct (IH h1 _ Hl1 Hok) as (h' & E' & Hl' & Hd' & Hw).
    exists h'. rewrite E, bind_done. split_and!; [done..|congruence|done].
Qed.

End linked_list.

Arguments linked_list K : clear implicits.
Arguments mk_ll {K} _ _.
Create HintDb lists.
#[export] Hint Resolve lists_nodup unlink_lookup_e : lists.

(** A memory of self-linked cells, used to build concrete states. *)
Definition cells_init {K} `{Countable K} (ks : list K) : gmap K (linked_list K) :=
  list_to_map ((λ k, (k, mk_ll k k)) <$> ks).

Lemma cells_init_lookup {K} `{Countable K} (ks : list K) k : k ∈ ks → cells_init ks !! k = Some (mk_ll k k).
Proof.
  intros Hk. unfold cells_init. induction ks as [|x ks IH]; [by apply not_elem_of_nil in Hk|].
  rewrite fmap_cons. cbn [list_to_map foldr].
  destruct (decide (k = x)) as [->|Hne]; [by rewrite lookup_insert_eq|].
  rewrite lookup_insert_ne by done. apply IH. set_solver.
Qed.

Definition loose {K} `{Countable K} (ks : list K) : gmap K (list K) := list_to_map ((λ k, (k, [])) <$> ks).

Lemma loose_lookup {K} `{Countable K} (ks : list K) k xs : loose ks !! k = Some xs ↔ k ∈ ks ∧ xs = [].
Proof.
  unfold loose. induction ks as [|x ks IH]; [cbn; rewrite lookup_empty; set_solver|].
  rewrite fmap_cons. cbn [list_to_map foldr].
  destruct (decide (k = x)) as [->|Hne]; [rewrite lookup_insert_eq; set_solver|].
  rewrite lookup_insert_ne by done. rewrite IH. set_solver.
Qed.

Lemma lists_cells_init {K} `{Countable K} (ks : list K) : lists (cells_init ks) (loose ks).
Proof.
  split.
  - intros hd xs [Hk ->]%loose_lookup. split; [apply NoDup_singleton|].
    by split; unfold nextf, prevf; rewrite cells_init_lookup.
  - intros h1 h2 xs1 xs2 [_ ->]%loose_lookup [_ ->]%loose_lookup Hne. set_solver.
Qed.

Lemma lists_empty {K} `{Countable K} (h : gmap K (linked_list K)) : lists h ∅.
Proof. split; intros *; by rewrite lookup_empty. Qed.

Definition list_ops_example : list (list_op (K := Z)) :=
  [OpInit 1; OpInit 2; OpInit 3; OpAdd 1 2; OpAddTail 1 3; OpMoveHead 1 3].

Lemma list_ops_refine_witness :
  ∃ h', exec list_ops_example (cells_init [1; 2; 3]) = Done h' ∧
    list_for_each 3 1 h' = Done [3; 2].
Proof.
  destruct (list_ops_refine list_ops_example (cells_init [1; 2; 3]) ∅) as (h' & E & _ & _ & Hw).
  - apply lists_empty.
  - assert (Hd : ∀ e, e ∈ [1; 2; 3] → e ∈ dom (cells_init [1; 2; 3])).
    { intros e He. apply elem_of_dom. vm_compute in He |- *.
      repeat (apply elem_of_cons in He as [->|He]; [eexists; reflexivity|]). by apply not_elem_of_nil in He. }
    cbn [ops_ok list_ops_example op_ok op_abs].
    split_and!; try done; try (apply Hd; set_solver); try (eexists; vm_compute; reflexivity);
      try (vm_compute; reflexivity).
    + intros hd xs Hx. assert (Hy : (<[1 := []]> ∅ : gmap Z (list Z)) !! hd = Some xs) by done.
      apply lookup_insert_Some in Hy as [[<- <-]|[_ Hy]]; [set_solver|by rewrite lookup_empty in Hy].
    + intros hd xs Hx. apply lookup_insert_Some in Hx as [[<- <-]|[_ Hx]]; [set_solver|].
      apply lookup_insert_Some in Hx as [[<- <-]|[_ Hx]]; [set_solver|by rewrite lookup_empty in Hx].
    + left. exists 1, [2; 3]. split; [vm_compute; reflexivity|set_solver].
  - exists h'. split; [exact E|]. apply (Hw 1 [3; 2]). vm_compute. reflexivity.
Defined.
