(* ===== verification/Pid.v ===== *)
(** * Bit operations and the identifier allocator
      ([Kernel/bitops.c], [Kernel/pid.c])

    Identifiers (process, thread, file descriptor, timer, frame ids) are handed
    out from a bit map: a set bit is a free identifier.  The bit operations are
    the x86 instructions of the inline assembly, on an array of 32-bit words; a
    bit offset reaches the word [nr >> 5] away from the address, as [bts] with a
    register offset does.  The class [IdAlloc] is what the rest of the kernel
    relies on. *)

From S2P Require Import Prelude.

(** ** Bit operations on an array of 32-bit words

    An address is the array and a word index into it. *)

(** [btsl]/[btrl]/[btl] leave the old bit in CF, which [setc] stores. *)
Definition bit_word (nr addr : Z) : Z := addr + nr ≫ 5.
Definition bit_in_word (nr : Z) : Z := Z.land nr 31.

Definition set_bit (nr : Z) (m : list Z) (addr : Z) : outcome (Z * list Z) :=
  w ← deref (nthZ m (bit_word nr addr));
  Done (b2z (Z.testbit w (bit_in_word nr)),
        updZ m (bit_word nr addr) (Z.setbit w (bit_in_word nr))).

Definition get_bit (nr : Z) (m : list Z) (addr : Z) : outcome Z :=
  w ← deref (nthZ m (bit_word nr addr));
  Done (b2z (Z.testbit w (bit_in_word nr))).

Definition clear_bit (nr : Z) (m : list Z) (addr : Z) : outcome (Z * list Z) :=
  w ← deref (nthZ m (bit_word nr addr));
  Done (b2z (Z.testbit w (bit_in_word nr)),
        updZ m (bit_word nr addr) (Z.clearbit w (bit_in_word nr))).

(** The number of trailing zero bits of a positive number: the result of [bsf]
    on a word that is not 0. *)
Fixpoint ctz (p : positive) : Z :=
  match p with xO p => 1 + ctz p | _ => 0 end.

Lemma ctz_spec p :
  0 <= ctz p ∧ Z.testbit (Z.pos p) (ctz p) = true ∧
  ∀ j, 0 <= j < ctz p → Z.testbit (Z.pos p) j = false.
Proof.
  induction p as [p _|p (H0 & H1 & H2)|]; simpl ctz.
  - split_and!; [lia|done|lia].
  - rewrite Pos2Z.inj_xO. split_and!; [lia| |].
    + rewrite (Z.add_comm 1), Z.add_1_r, Z.testbit_even_succ by lia. done.
    + intros j Hj. destruct (decide (j = 0)) as [->|]; [apply Z.testbit_even_0|].
      replace j with (Z.succ (j - 1)) by lia. rewrite Z.testbit_even_succ by lia.
      apply H2. lia.
  - split_and!; [lia|done|lia].
Qed.

Section pid.
(** What [bsf] leaves in its destination when the source is 0.  The processor
    manuals leave it undefined; the C code expects the value it put there,
    [-1]. *)
Context (bsf0 : Z).

Definition bsfl (w : Z) : Z := match w with Z.pos p => ctz p | _ => bsf0 end.

(** The NULL test of [__find_first_bit]: [addr = None] is the NULL pointer. *)
Definition __find_first_bit (m : list Z) (addr : option Z) : outcome Z :=
  match addr with
  | None => Done (-1)
  | Some a => w ← deref (nthZ m a); Done (bsfl w)
  end.

Definition find_first_bit (m : list Z) (addr offset : Z) : outcome Z :=
  __find_first_bit m (Some (addr + offset)).

(** ** Identifier maps *)

(** [struct kid_object]; [kid_map] is the array the pointer designates. *)
Record kid_object : Type := mk_kid { kid_map : list Z; offset : Z; size : Z }.

Definition BITS_PER_LONG := 32.
Definition BITS_PER_LONG_SHIFT := 5.
Definition PAGE_SIZE := 4096.

(** [memset(map, 0xFF, size)] on a fresh area, seen as words. *)
Definition full_map (bytes : Z) : list Z :=
  replicate (Z.to_nat (bytes / 4)) (2 ^ 32 - 1).

Definition kernel_id_map_init (sz : Z) : kid_object :=
  if sz <? PAGE_SIZE then mk_kid (full_map sz) 0 sz
  else mk_kid (full_map PAGE_SIZE) 0 PAGE_SIZE.

(** The step "go to the next word, back to 0 after the last one". *)
Definition next_word (obj : kid_object) : Z :=
  let o := u32 (offset obj + 1) in
  if o =? size obj / 4 then 0 else o.

(** The [goto AGAIN] loop of [get_unused_id]. *)
Fixpoint get_unused_id_loop (fuel : nat) (obj : kid_object) : outcome (Z * kid_object) :=
  match fuel with
  | O => Fail Diverge
  | S fuel =>
      index ← find_first_bit (kid_map obj) 0 (offset obj);
      if index =? -1 then
        get_unused_id_loop fuel (mk_kid (kid_map obj) (next_word obj) (size obj))
      else
        '(_, m) ← clear_bit index (kid_map obj) (offset obj);
        let retval := s32 (offset obj * BITS_PER_LONG + index) in
        let o := if index =? 31 then next_word obj else offset obj in
        Done (retval, mk_kid m o (size obj))
  end.

(** The loop visits each word at most once before it comes back to its start,
    so one more iteration than there are words decides it. *)
Definition get_unused_id (obj : kid_object) : outcome (Z * kid_object) :=
  get_unused_id_loop (S (S (length (kid_map obj)))) obj.

Definition put_id (obj : kid_object) (pid : Z) : outcome kid_object :=
  let off := pid ≫ BITS_PER_LONG_SHIFT in
  let index := Z.rem pid BITS_PER_LONG in
  '(_, m) ← set_bit index (kid_map obj) off;
  Done (mk_kid m (if u32 off <? offset obj then u32 off else offset obj) (size obj)).

Definition resv_id (obj : kid_object) (id : Z) : outcome kid_object :=
  let off := id ≫ BITS_PER_LONG_SHIFT in
  let index := Z.rem id BITS_PER_LONG in
  '(_, m) ← clear_bit index (kid_map obj) off;
  Done (mk_kid m (offset obj) (size obj)).

(** [memcpy] of [size] bytes into the destination map, which keeps what lies
    beyond; it faults when a map is shorter than the copy. *)
Definition kid_dup (dobj sobj : option kid_object) : outcome (option kid_object) :=
  match dobj, sobj with
  | Some d, Some s =>
      let n := Z.to_nat (size s / 4) in
      if decide (n <= length (kid_map s) ∧ n <= length (kid_map d))%nat
      then Done (Some (mk_kid (take n (kid_map s) ++ drop n (kid_map d)) (offset s) (size s)))
      else Fail BadPtr
  | _, _ => Done dobj
  end.

End pid.

(** ** The set of free identifiers *)

Definition id_freeb (m : list Z) (i : Z) : bool :=
  match nthZ m (i / 32) with Some w => Z.testbit w (i mod 32) | None => false end.

Definition free_ids (m : list Z) : gset Z :=
  list_to_set (filter (λ i, id_freeb m i = true) (seqZ 0 (32 * Z.of_nat (length m)))).

Lemma elem_of_free_ids m i : i ∈ free_ids m ↔ id_freeb m i = true.
Proof.
  unfold free_ids. rewrite elem_of_list_to_set, list_elem_of_filter, elem_of_seqZ.
  split; [tauto|]. intros Hi. split; [done|].
  unfold id_freeb in Hi. destruct (nthZ m (i / 32)) eqn:E; [|done].
  apply nthZ_Some in E. pose proof (Z.div_mod i 32). pose proof (Z.mod_pos_bound i 32). lia.
Qed.

(** Well-formed maps: whole words, [offset] inside the map, and no free
    identifier below the word [offset] points to. *)
Record kid_wf (obj : kid_object) : Prop := mk_kid_wf {
  kw_size : size obj = 4 * Z.of_nat (length (kid_map obj));
  kw_small : Z.of_nat (length (kid_map obj)) <= 2 ^ 20;
  kw_off : 0 <= offset obj < Z.of_nat (length (kid_map obj));
  kw_words : Forall (λ w, 0 <= w < 2 ^ 32) (kid_map obj);
  kw_low : ∀ i, 0 <= i < offset obj → nthZ (kid_map obj) i = Some 0;
}.

Lemma nthZ_Forall {A} (P : A → Prop) l i a : Forall P l → nthZ l i = Some a → P a.
Proof. unfold nthZ. case_decide; [|done]. rewrite Forall_lookup. eauto. Qed.

Lemma updZ_Forall {A} (P : A → Prop) l i a : Forall P l → P a → Forall P (updZ l i a).
Proof. intros. unfold updZ. case_decide; [by apply Forall_insert | done]. Qed.

Lemma testbit_u32_high w i : 0 <= w < 2 ^ 32 → 32 <= i → Z.testbit w i = false.
Proof.
  intros Hw Hi. destruct (decide (w = 0)) as [->|]; [apply Z.testbit_0_l|].
  apply Z.bits_above_log2; [lia|]. assert (Z.log2 w < 32); [|lia].
  apply Z.log2_lt_pow2; lia.
Qed.

Lemma u32_of_bits w : (∀ i, 32 <= i → Z.testbit w i = false) → 0 <= w → w < 2 ^ 32.
Proof.
  intros Hb H0. destruct (decide (w = 0)) as [->|]; [lia|].
  apply Z.log2_lt_pow2; [lia|]. destruct (decide (Z.log2 w < 32)) as [|Hl]; [done|].
  pose proof (Z.bit_log2 w ltac:(lia)). rewrite Hb in *; [done|lia].
Qed.

Lemma clearbit_range w i : 0 <= w < 2 ^ 32 → 0 <= i → 0 <= Z.clearbit w i < 2 ^ 32.
Proof.
  intros Hw Hi. assert (0 <= Z.clearbit w i) by (apply Z.ldiff_nonneg; lia).
  split; [done|]. apply u32_of_bits; [|done]. intros j Hj.
  rewrite Z.clearbit_eqb, testbit_u32_high by lia. done.
Qed.

Lemma setbit_range w i : 0 <= w < 2 ^ 32 → 0 <= i < 32 → 0 <= Z.setbit w i < 2 ^ 32.
Proof.
  intros Hw Hi. assert (0 <= Z.setbit w i).
  { apply Z.lor_nonneg. split; [lia|]. apply Z.shiftl_nonneg. lia. }
  split; [done|]. apply u32_of_bits; [|done]. intros j Hj.
  rewrite Z.setbit_eqb, testbit_u32_high by lia.
  rewrite (proj2 (Z.eqb_neq i j)); [done|lia].
Qed.

Lemma bit_index_small nr addr : 0 <= nr < 32 → bit_word nr addr = addr ∧ bit_in_word nr = nr.
Proof.
  intros. unfold bit_word, bit_in_word. split.
  - rewrite Z.shiftr_div_pow2 by lia. rewrite Z.div_small; lia.
  - change 31 with (Z.ones 5). rewrite Z.land_ones by lia. apply Z.mod_small. lia.
Qed.

(** The effect of one bit of the map on the set of free identifiers. *)
Lemma id_freeb_upd m a w j v i :
  nthZ m a = Some w → 0 <= j < 32 →
  (∀ k, 0 <= k < 32 → Z.testbit v k = if decide (k = j) then Z.testbit v j else Z.testbit w k) →
  id_freeb (updZ m a v) i = if decide (i = 32 * a + j) then Z.testbit v j else id_freeb m i.
Proof.
  intros Ha Hj Hv. unfold id_freeb.
  pose proof (Z.div_mod i 32 ltac:(lia)). pose proof (Z.mod_pos_bound i 32 ltac:(lia)).
  destruct (decide (i / 32 = a)) as [<-|Hne].
  - rewrite nthZ_upd_eq by (by apply nthZ_Some in Ha). rewrite Ha, Hv by lia.
    repeat case_decide; try done; lia.
  - rewrite nthZ_upd_ne by done. rewrite decide_False; [done|lia].
Qed.

Lemma free_ids_clear m a w j :
  nthZ m a = Some w → 0 <= j < 32 →
  free_ids (updZ m a (Z.clearbit w j)) = free_ids m ∖ {[32 * a + j]}.
Proof.
  intros Ha Hj. apply set_eq. intros i.
  rewrite elem_of_difference, elem_of_singleton, !elem_of_free_ids.
  rewrite (id_freeb_upd m a w j) by
    (done || (intros k Hk; rewrite !Z.clearbit_eqb by lia; case_decide; subst; [done|];
      rewrite (proj2 (Z.eqb_neq j k)) by lia; by rewrite andb_true_r)).
  rewrite Z.clearbit_eqb, Z.eqb_refl, andb_false_r by lia. case_decide; naive_solver.
Qed.

Lemma free_ids_set m a w j :
  nthZ m a = Some w → 0 <= j < 32 →
  free_ids (updZ m a (Z.setbit w j)) = {[32 * a + j]} ∪ free_ids m.
Proof.
  intros Ha Hj. apply set_eq. intros i.
  rewrite elem_of_union, elem_of_singleton, !elem_of_free_ids.
  rewrite (id_freeb_upd m a w j) by
    (done || (intros k Hk; rewrite !Z.setbit_eqb by lia; case_decide; subst; [done|];
      rewrite (proj2 (Z.eqb_neq j k)) by lia; done)).
  rewrite Z.setbit_eqb, Z.eqb_refl by lia. simpl. case_decide; naive_solver.
Qed.

(** ** Allocation *)

Lemma bsfl_nonzero bsf0 w :
  0 < w < 2 ^ 32 → 0 <= bsfl bsf0 w < 32 ∧ Z.testbit w (bsfl bsf0 w) = true ∧
  ∀ j, 0 <= j < bsfl bsf0 w → Z.testbit w j = false.
Proof.
  intros Hw. destruct w as [|p|]; try lia. simpl.
  destruct (ctz_spec p) as (H0 & H1 & H2). split_and!; [lia| |done..].
  destruct (decide (ctz p < 32)); [done|]. rewrite testbit_u32_high in H1 by lia. done.
Qed.

Lemma clearbit_last w : 0 <= w < 2 ^ 32 → (∀ j, 0 <= j < 31 → Z.testbit w j = false) →
  Z.clearbit w 31 = 0.
Proof.
  intros Hw Hj. apply Z.bits_inj'. intros i Hi. rewrite Z.testbit_0_l, Z.clearbit_eqb by lia.
  destruct (decide (i = 31)) as [->|]; [by rewrite andb_false_r|].
  destruct (decide (i < 31)); [by rewrite Hj by lia|]. by rewrite testbit_u32_high by lia.
Qed.

(** A word that is not 0 exists at or above [offset] as soon as some identifier
    is free. *)
Lemma free_word obj i : kid_wf obj → i ∈ free_ids (kid_map obj) →
  ∃ w, nthZ (kid_map obj) (i / 32) = Some w ∧ 0 < w < 2 ^ 32 ∧ offset obj <= i / 32 ∧
    Z.testbit w (i mod 32) = true.
Proof.
  intros Hw. rewrite elem_of_free_ids. unfold id_freeb.
  destruct (nthZ _ _) as [w|] eqn:E; [|done]. intros Hb.
  exists w. pose proof (nthZ_Forall _ _ _ _ (kw_words _ Hw) E) as Hr. simpl in Hr.
  assert (w ≠ 0) by (intros ->; by rewrite Z.testbit_0_l in Hb).
  split_and!; [done|lia|lia| |done].
  destruct (decide (offset obj <= i / 32)); [done|].
  pose proof (nthZ_Some _ _ _ E). rewrite (kw_low _ Hw) in E by lia. congruence.
Qed.

Lemma get_loop_spec (fuel : nat) obj k w :
  kid_wf obj → nthZ (kid_map obj) k = Some w → 0 < w → offset obj <= k →
  (∀ i, 0 <= i < k → nthZ (kid_map obj) i = Some 0) →
  (Z.to_nat (k - offset obj) < fuel)%nat →
  get_unused_id_loop (-1) fuel obj =
    Done (32 * k + bsfl (-1) w,
      mk_kid (updZ (kid_map obj) k (Z.clearbit w (bsfl (-1) w)))
        (if bsfl (-1) w =? 31 then
           (if k + 1 =? Z.of_nat (length (kid_map obj)) then 0 else k + 1) else k)
        (size obj)).
Proof.
  revert obj. induction fuel as [|fuel IH]; intros obj Hw Hk Hpos Hle Hz Hf; [lia|].
  pose proof (kw_off _ Hw). pose proof (kw_small _ Hw). pose proof (kw_size _ Hw) as Hsz.
  pose proof (nthZ_Some _ _ _ Hk).
  pose proof (nthZ_Forall _ _ _ _ (kw_words _ Hw) Hk) as Hr. simpl in Hr.
  cbn [get_unused_id_loop]. unfold find_first_bit, __find_first_bit. rewrite Z.add_0_l.
  assert (Hnw : next_word obj =
    if offset obj + 1 =? Z.of_nat (length (kid_map obj)) then 0 else offset obj + 1).
  { unfold next_word. rewrite u32_small by lia.
    rewrite Hsz, Z.mul_comm, Z.div_mul by lia. done. }
  destruct (decide (offset obj = k)) as [<-|Hne].
  - rewrite Hk. cbn [deref]. rewrite !bind_done.
    destruct (bsfl_nonzero (-1) w ltac:(lia)) as (Hb & _ & _).
    rewrite (proj2 (Z.eqb_neq _ (-1))) by lia.
    unfold clear_bit. destruct (bit_index_small (bsfl (-1) w) (offset obj) Hb) as [-> ->].
    rewrite Hk. cbn [deref]. rewrite !bind_done. unfold BITS_PER_LONG.
    rewrite s32_small by lia. rewrite Hnw. do 2 f_equal. lia.
  - rewrite (Hz (offset obj)) by lia. cbn [deref]. rewrite !bind_done. cbn [bsfl]. change (-1 =? -1) with true. cbn iota. rewrite Hnw.
    rewrite (proj2 (Z.eqb_neq (offset obj + 1) _)) by lia.
    rewrite IH; cbn [kid_map offset size]; try done; try lia.
    constructor; cbn [kid_map offset size]; try apply Hw; [lia|].
    intros i Hi. apply Hz. lia.
Qed.

(** The least word that is not 0. *)
Lemma least_nonzero (m : list Z) : (∃ k w, nthZ m k = Some w ∧ w ≠ 0) →
  ∃ k w, nthZ m k = Some w ∧ w ≠ 0 ∧ ∀ i, 0 <= i < k → nthZ m i = Some 0.
Proof.
  intros (k & w & Hk & Hw). pose proof (nthZ_Some _ _ _ Hk) as Hr.
  revert Hr w Hk Hw. induction k as [k IH] using (well_founded_induction (Z.lt_wf 0)).
  intros Hr w Hk Hw.
  destruct (decide (Exists (λ i, nthZ m i ≠ Some 0) (seqZ 0 k))) as [He|He].
  - apply Exists_exists in He as (i & Hi%elem_of_seqZ & Hn).
    destruct (nthZ_is_Some m i ltac:(lia)) as [v Hv].
    apply (IH i ltac:(lia) ltac:(lia) v Hv). congruence.
  - exists k, w. split_and!; [done..|]. intros i Hi.
    destruct (decide (nthZ m i = Some 0)) as [|Hn]; [done|]. exfalso. apply He.
    apply Exists_exists. exists i. rewrite elem_of_seqZ. split; [lia|done].
Qed.

Lemma get_unused_id_wf obj k w :
  kid_wf obj → nthZ (kid_map obj) k = Some w → 0 < w < 2 ^ 32 →
  (∀ i, 0 <= i < k → nthZ (kid_map obj) i = Some 0) →
  kid_wf (mk_kid (updZ (kid_map obj) k (Z.clearbit w (bsfl (-1) w)))
        (if bsfl (-1) w =? 31 then
           (if k + 1 =? Z.of_nat (length (kid_map obj)) then 0 else k + 1) else k)
        (size obj)).
Proof.
  intros Hw Hk Hr Hz. pose proof (nthZ_Some _ _ _ Hk).
  destruct (bsfl_nonzero (-1) w Hr) as (Hb & _ & Hlow).
  constructor; cbn [kid_map offset size]; rewrite ?updZ_length; try apply Hw.
  - destruct (Z.eqb_spec (bsfl (-1) w) 31); [|lia].
    destruct (Z.eqb_spec (k + 1) (Z.of_nat (length (kid_map obj)))); lia.
  - apply updZ_Forall; [apply Hw|]. apply clearbit_range; lia.
  - intros i Hi. destruct (decide (i = k)) as [->|].
    + rewrite nthZ_upd_eq by lia.
      destruct (Z.eqb_spec (bsfl (-1) w) 31) as [E|]; [|lia]. rewrite E in *.
      f_equal. apply clearbit_last; [lia|]. done.
    + rewrite nthZ_upd_ne by done. apply Hz.
      destruct (bsfl (-1) w =? 31); [|lia].
      destruct (Z.eqb_spec (k + 1) (Z.of_nat (length (kid_map obj)))); lia.
Qed.

Lemma get_unused_id_spec obj :
  kid_wf obj → free_ids (kid_map obj) ≠ ∅ →
  ∃ i obj', get_unused_id (-1) obj = Done (i, obj') ∧ kid_wf obj' ∧
    i ∈ free_ids (kid_map obj) ∧
    free_ids (kid_map obj') = free_ids (kid_map obj) ∖ {[i]} ∧
    (∀ j, j ∈ free_ids (kid_map obj) → i <= j) ∧
    length (kid_map obj') = length (kid_map obj).
Proof.
  intros Hw [x Hx]%set_choose_L.
  destruct (free_word _ _ Hw Hx) as (w0 & Hw0 & ? & ? & _).
  destruct (least_nonzero (kid_map obj)) as (k & w & Hk & Hnz & Hz);
    [exists (x / 32), w0; split; [done|lia]|].
  pose proof (nthZ_Some _ _ _ Hk).
  pose proof (nthZ_Forall _ _ _ _ (kw_words _ Hw) Hk) as Hr. simpl in Hr.
  assert (offset obj <= k).
  { destruct (decide (offset obj <= k)); [done|].
    rewrite (kw_low _ Hw) in Hk by lia. congruence. }
  pose proof (kw_off _ Hw).
  eexists _, _. split; [apply (get_loop_spec _ _ k w); try done; lia|].
  destruct (bsfl_nonzero (-1) w ltac:(lia)) as (Hb & Ht & Hlow).
  cbn [kid_map]. split; [apply get_unused_id_wf; [done|done|lia|done]|].
  split_and!.
  - apply elem_of_free_ids. unfold id_freeb.
    rewrite (Z.mul_comm 32), Z.div_add_l, Z.div_small, Z.add_0_r, Hk by lia.
    rewrite Z.add_comm, Z.mod_add, Z.mod_small by lia. done.
  - by apply free_ids_clear.
  - intros j Hj. destruct (free_word _ _ Hw Hj) as (v & Hv & ? & ? & Hbit).
    pose proof (Z.div_mod j 32 ltac:(lia)). pose proof (Z.mod_pos_bound j 32 ltac:(lia)).
    destruct (decide (j / 32 < k)) as [|].
    { pose proof (nthZ_Some _ _ _ Hv). rewrite Hz in Hv by lia. simplify_eq. lia. }
    destruct (decide (j / 32 = k)) as [Hjk|]; [|lia].
    rewrite Hjk in Hv. assert (v = w) by congruence. subst v.
    destruct (decide (j mod 32 < bsfl (-1) w)); [|lia].
    rewrite Hlow in Hbit by lia. done.
  - apply updZ_length.
Qed.

(** ** Release and reservation *)

Lemma id_split i n : 0 <= i < 32 * n →
  i ≫ 5 = i / 32 ∧ Z.rem i 32 = i mod 32 ∧ 0 <= i / 32 < n ∧ 0 <= i mod 32 < 32 ∧
  32 * (i / 32) + i mod 32 = i.
Proof.
  intros. rewrite Z.shiftr_div_pow2, Z.rem_mod_nonneg by lia. change (2 ^ 5) with 32.
  pose proof (Z.div_mod i 32 ltac:(lia)). pose proof (Z.mod_pos_bound i 32 ltac:(lia)). lia.
Qed.

Lemma put_id_spec obj i :
  kid_wf obj → 0 <= i < 32 * Z.of_nat (length (kid_map obj)) →
  ∃ obj', put_id obj i = Done obj' ∧ kid_wf obj' ∧
    free_ids (kid_map obj') = {[i]} ∪ free_ids (kid_map obj) ∧
    length (kid_map obj') = length (kid_map obj).
Proof.
  intros Hw Hi. destruct (id_split _ _ Hi) as (E1 & E2 & Ha & Hb & Es).
  pose proof (kw_small _ Hw). pose proof (kw_off _ Hw).
  unfold put_id, BITS_PER_LONG_SHIFT, BITS_PER_LONG. rewrite E1, E2.
  destruct (nthZ_is_Some (kid_map obj) (i / 32) ltac:(lia)) as [w Hk].
  pose proof (nthZ_Forall _ _ _ _ (kw_words _ Hw) Hk) as Hr. simpl in Hr.
  unfold set_bit. destruct (bit_index_small (i mod 32) (i / 32) Hb) as [-> ->].
  rewrite Hk. cbn [deref]. rewrite !bind_done. rewrite u32_small by lia.
  eexists. split; [reflexivity|]. cbn [kid_map]. split_and!.
  - constructor; cbn [kid_map offset size]; rewrite ?updZ_length; try apply Hw.
    + destruct (Z.ltb_spec (i / 32) (offset obj)); lia.
    + apply updZ_Forall; [apply Hw|]. apply setbit_range; lia.
    + intros k Hk'. assert (0 <= k < offset obj ∧ k < i / 32 \/ 0 <= k < offset obj ∧ offset obj <= i / 32)
        by (destruct (Z.ltb_spec (i / 32) (offset obj)); lia).
      rewrite nthZ_upd_ne by lia. apply Hw. lia.
  - rewrite (free_ids_set _ _ w) by done. by rewrite Es.
  - apply updZ_length.
Qed.

Lemma resv_id_spec obj i :
  kid_wf obj → 0 <= i < 32 * Z.of_nat (length (kid_map obj)) →
  ∃ obj', resv_id obj i = Done obj' ∧ kid_wf obj' ∧
    free_ids (kid_map obj') = free_ids (kid_map obj) ∖ {[i]} ∧
    length (kid_map obj') = length (kid_map obj).
Proof.
  intros Hw Hi. destruct (id_split _ _ Hi) as (E1 & E2 & Ha & Hb & Es).
  pose proof (kw_small _ Hw). pose proof (kw_off _ Hw).
  unfold resv_id, BITS_PER_LONG_SHIFT, BITS_PER_LONG. rewrite E1, E2.
  destruct (nthZ_is_Some (kid_map obj) (i / 32) ltac:(lia)) as [w Hk].
  pose proof (nthZ_Forall _ _ _ _ (kw_words _ Hw) Hk) as Hr. simpl in Hr.
  unfold clear_bit. destruct (bit_index_small (i mod 32) (i / 32) Hb) as [-> ->].
  rewrite Hk. cbn [deref]. rewrite !bind_done.
  eexists. split; [reflexivity|]. cbn [kid_map]. split.
  - constructor; cbn [kid_map offset size]; rewrite ?updZ_length; try apply Hw.
    + apply updZ_Forall; [apply Hw|]. apply clearbit_range; lia.
    + intros k Hk'. destruct (decide (k = i / 32)) as [->|]; [|rewrite nthZ_upd_ne by lia; by apply Hw].
      rewrite nthZ_upd_eq by lia. rewrite (kw_low _ Hw) in Hk by lia. assert (w = 0) as -> by congruence.
      reflexivity.
  - split; [|apply updZ_length]. rewrite (free_ids_clear _ _ w) by done. by rewrite Es.
Qed.

Lemma nthZ_replicate {A} n (a : A) i : 0 <= i < Z.of_nat n → nthZ (replicate n a) i = Some a.
Proof. intros. unfold nthZ. rewrite decide_True by lia. apply lookup_replicate_2. lia. Qed.

Lemma kernel_id_map_init_wf sz :
  0 < sz → sz mod 4 = 0 →
  kid_wf (kernel_id_map_init sz) ∧
  free_ids (kid_map (kernel_id_map_init sz)) =
    list_to_set (seqZ 0 (8 * Z.min sz PAGE_SIZE)).
Proof.
  intros Hsz Hm. pose proof (Z.div_mod sz 4 ltac:(lia)).
  assert (Hk : ∃ n, kernel_id_map_init sz = mk_kid (full_map (4 * n)) 0 (4 * n) ∧
                0 < n <= 1024 ∧ 4 * n = Z.min sz PAGE_SIZE).
  { unfold kernel_id_map_init, PAGE_SIZE. destruct (Z.ltb_spec sz 4096).
    - exists (sz / 4). replace (4 * (sz / 4)) with sz by lia. split; [done|lia].
    - exists 1024. split; [done|lia]. }
  destruct Hk as (n & -> & Hn & Hmin).
  assert (Hl : Z.of_nat (length (full_map (4 * n))) = n).
  { unfold full_map. rewrite length_replicate, Z.mul_comm, Z.div_mul by lia. lia. }
  split.
  - constructor; cbn [kid_map offset size]; rewrite ?Hl; try lia.
    unfold full_map. apply Forall_replicate. lia.
  - apply set_eq. intros i. cbn [kid_map].
    rewrite elem_of_free_ids, elem_of_list_to_set, elem_of_seqZ. unfold id_freeb.
    pose proof (Z.div_mod i 32 ltac:(lia)). pose proof (Z.mod_pos_bound i 32 ltac:(lia)).
    destruct (nthZ (full_map (4 * n)) (i / 32)) as [w|] eqn:E.
    + pose proof (nthZ_Some _ _ _ E). unfold full_map in E.
      rewrite nthZ_replicate in E by (unfold full_map in *; rewrite length_replicate in *; lia).
      simplify_eq. replace (2 ^ 32 - 1) with (Z.ones 32) by done.
      rewrite Z.ones_spec_low by lia. split; [lia|done].
    + split; [done|]. intros Hi. destruct (nthZ_is_Some (full_map (4 * n)) (i / 32)); [lia|congruence].
Qed.

Lemma free_ids_range m i : i ∈ free_ids m → 0 <= i < 32 * Z.of_nat (length m).
Proof. unfold free_ids. rewrite elem_of_list_to_set, list_elem_of_filter, elem_of_seqZ. lia. Qed.

(** [kid_object] implements the interface, on a processor whose [bsf] leaves its
    destination alone. *)
#[export, refine] Instance kid_alloc : IdAlloc kid_object := {|
  ia_wf := kid_wf;
  ia_cap o := 32 * Z.of_nat (length (kid_map o));
  ia_free o := free_ids (kid_map o);
  ia_get := get_unused_id (-1);
  ia_put := put_id;
|}.
Proof.
  - intros s i _ Hi. by apply free_ids_range.
  - intros s Hw Hne. destruct (get_unused_id_spec s Hw Hne) as (i & s' & ? & ? & ? & ? & ? & Hl).
    exists i, s'. rewrite Hl. by split_and!.
  - intros s i Hw Hi. destruct (put_id_spec s i Hw Hi) as (s' & ? & ? & ? & Hl).
    exists s'. rewrite Hl. by split_and!.
Defined.

(** ** Properties of the allocator *)

(** C3: on a well-formed map with a free identifier, [get_unused_id] returns
    (it terminates within one turn of the map) the least free identifier, takes
    exactly that one out of the free set and keeps the map well formed. *)
Theorem get_unused_id_lowest bsf0 obj :
  bsf0 = -1 → kid_wf obj → free_ids (kid_map obj) ≠ ∅ →
  ∃ i obj', get_unused_id bsf0 obj = Done (i, obj') ∧ kid_wf obj' ∧
    i ∈ free_ids (kid_map obj) ∧ (∀ j, j ∈ free_ids (kid_map obj) → i <= j) ∧
    free_ids (kid_map obj') = free_ids (kid_map obj) ∖ {[i]}.
Proof.
  intros -> Hw Hne. destruct (get_unused_id_spec obj Hw Hne) as (i & obj' & ? & ? & ? & ? & ? & ?).
  exists i, obj'. by split_and!.
Qed.

Definition kid_example : kid_object := mk_kid [0; 2 ^ 7; 2 ^ 32 - 1] 0 12.
Lemma kid_example_wf : kid_wf kid_example.
Proof.
  constructor; simpl; try lia.
  repeat constructor; lia.
Qed.

Lemma get_unused_id_lowest_witness :
  ∃ i obj', get_unused_id (-1) kid_example = Done (i, obj') ∧ kid_wf obj' ∧
    i ∈ free_ids (kid_map kid_example) ∧ (∀ j, j ∈ free_ids (kid_map kid_example) → i <= j) ∧
    free_ids (kid_map obj') = free_ids (kid_map kid_example) ∖ {[i]}.
Proof.
  apply (get_unused_id_lowest (-1) kid_example).
  - reflexivity.
  - exact kid_example_wf.
  - intros E. assert (39 ∈ free_ids (kid_map kid_example)) by (apply elem_of_free_ids; reflexivity).
    rewrite E in H. set_solver.
Defined.

(** The life of a map: identifiers are taken and given back. *)
Inductive kid_step : kid_object * gset Z → kid_object * gset Z → Prop :=
| step_get obj held i obj' :
    get_unused_id (-1) obj = Done (i, obj') → kid_step (obj, held) (obj', {[i]} ∪ held)
| step_put obj held i obj' :
    i ∈ held → put_id obj i = Done obj' → kid_step (obj, held) (obj', held ∖ {[i]})
| step_resv obj held i obj' :
    0 <= i < 32 * Z.of_nat (length (kid_map obj)) → i ∉ held →
    resv_id obj i = Done obj' → kid_step (obj, held) (obj', {[i]} ∪ held).

Definition kid_inv (n : Z) (st : kid_object * gset Z) : Prop :=
  kid_wf st.1 ∧ Z.of_nat (length (kid_map st.1)) = n ∧
  (∀ i, i ∈ st.2 ↔ 0 <= i < 32 * n ∧ i ∉ free_ids (kid_map st.1)).

(** Without a free identifier the search never ends. *)
Lemma get_loop_exhausted fuel obj :
  (∀ i, 0 <= i < Z.of_nat (length (kid_map obj)) → nthZ (kid_map obj) i = Some 0) →
  0 <= offset obj < Z.of_nat (length (kid_map obj)) →
  size obj = 4 * Z.of_nat (length (kid_map obj)) → Z.of_nat (length (kid_map obj)) <= 2 ^ 20 →
  get_unused_id_loop (-1) fuel obj = Fail Diverge.
Proof.
  revert obj. induction fuel as [|fuel IH]; intros obj Hz Ho Hs Hl; [done|].
  cbn [get_unused_id_loop]. unfold find_first_bit, __find_first_bit. rewrite Z.add_0_l, Hz by lia.
  cbn [deref]. rewrite !bind_done. change (bsfl (-1) 0 =? -1) with true. cbn iota.
  apply IH; cbn [kid_map offset size]; try done.
  unfold next_word. rewrite u32_small by lia. rewrite Hs, Z.mul_comm, Z.div_mul by lia.
  destruct (Z.eqb_spec (offset obj + 1) (Z.of_nat (length (kid_map obj)))); lia.
Qed.

Lemma no_free_all_zero obj : kid_wf obj → free_ids (kid_map obj) = ∅ →
  ∀ i, 0 <= i < Z.of_nat (length (kid_map obj)) → nthZ (kid_map obj) i = Some 0.
Proof.
  intros Hw He i Hi. destruct (nthZ_is_Some _ _ Hi) as [w Hk]. rewrite Hk. f_equal.
  destruct (decide (w = 0)) as [|Hne]; [done|]. exfalso.
  pose proof (nthZ_Forall _ _ _ _ (kw_words _ Hw) Hk) as Hr. simpl in Hr.
  destruct (bsfl_nonzero (-1) w ltac:(lia)) as (Hb & Ht & _).
  assert (32 * i + bsfl (-1) w ∈ free_ids (kid_map obj)); [|set_solver].
  apply elem_of_free_ids. unfold id_freeb.
  rewrite (Z.mul_comm 32), Z.div_add_l, Z.div_small, Z.add_0_r, Hk by lia.
  rewrite Z.add_comm, Z.mod_add, Z.mod_small by lia. done.
Qed.

(** Bookkeeping of one identifier that changes hands. *)
Lemma held_free_take (R : Z → Prop) (held F : gset Z) k : R k →
  (∀ j, j ∈ held ↔ R j ∧ j ∉ F) → ∀ j, j ∈ {[k]} ∪ held ↔ R j ∧ j ∉ F ∖ {[k]}.
Proof.
  intros Hk Hh j. rewrite elem_of_union, elem_of_difference, elem_of_singleton, Hh.
  destruct (decide (j = k)) as [->|]; tauto.
Qed.

Lemma held_free_give (R : Z → Prop) (held F : gset Z) k :
  (∀ j, j ∈ held ↔ R j ∧ j ∉ F) → ∀ j, j ∈ held ∖ {[k]} ↔ R j ∧ j ∉ {[k]} ∪ F.
Proof.
  intros Hh j. rewrite elem_of_union, elem_of_difference, elem_of_singleton, Hh. tauto.
Qed.

Lemma kid_step_inv n st st' : kid_step st st' → kid_inv n st → kid_inv n st'.
Proof.
  intros [obj held i obj' E|obj held i obj' Hi E|obj held i obj' Hr Hi E] (Hw & Hn & Hh);
    cbn [fst snd] in *.
  - destruct (decide (free_ids (kid_map obj) = ∅)) as [He|Hne].
    + exfalso. unfold get_unused_id in E. rewrite get_loop_exhausted in E; try done; try apply Hw.
      by apply no_free_all_zero.
    + destruct (get_unused_id_spec obj Hw Hne) as (k & o & E' & Hw' & Hk & Hf & _ & Hl).
      rewrite E in E'. injection E' as <- <-. pose proof (free_ids_range _ _ Hk).
      split; [done|split; [cbn; lia|]]. cbn [fst snd]. rewrite Hf.
      apply (held_free_take (λ j, 0 <= j < 32 * n)); [lia|done].
  - apply Hh in Hi as Hi'. destruct (put_id_spec obj i Hw ltac:(lia)) as (o & E' & Hw' & Hf & Hl).
    rewrite E in E'. injection E' as <-. split; [done|split; [cbn; lia|]]. cbn [fst snd]. rewrite Hf.
    by apply (held_free_give (λ j, 0 <= j < 32 * n)).
  - destruct (resv_id_spec obj i Hw Hr) as (o & E' & Hw' & Hf & Hl).
    rewrite E in E'. injection E' as <-. split; [done|split; [cbn; lia|]]. cbn [fst snd]. rewrite Hf.
    apply (held_free_take (λ j, 0 <= j < 32 * n)); [lia|done].
Qed.

(** C6: from a fresh map of [4 n] bytes, whatever identifiers are taken,
    reserved and given back, the identifiers out are exactly the ones of the map's
    range that are not free in it (none is lost); the next identifier handed out
    is never one in use and lies in the range. *)
Theorem id_map_no_double_allocation sz obj held i obj' :
  0 < sz → sz mod 4 = 0 →
  rtc kid_step (kernel_id_map_init sz, ∅) (obj, held) →
  get_unused_id (-1) obj = Done (i, obj') →
  (∀ j, j ∈ held ↔ 0 <= j < 8 * Z.min sz PAGE_SIZE ∧ j ∉ free_ids (kid_map obj)) ∧
  i ∉ held ∧ 0 <= i < 8 * Z.min sz PAGE_SIZE.
Proof.
  intros Hs Hm Hrtc E. destruct (kernel_id_map_init_wf sz Hs Hm) as [Hw0 Hf0].
  set (n := Z.of_nat (length (kid_map (kernel_id_map_init sz)))).
  assert (Hcap : 32 * n = 8 * Z.min sz PAGE_SIZE).
  { pose proof (kw_size _ Hw0). fold n in H. pose proof (Z.div_mod sz 4 ltac:(lia)).
    unfold kernel_id_map_init, PAGE_SIZE in *. destruct (Z.ltb_spec sz 4096); cbn [size] in *; lia. }
  assert (H0 : kid_inv n (kernel_id_map_init sz, ∅)).
  { split_and!; [done|done|]. intros j. cbn [fst snd]. rewrite Hf0, elem_of_list_to_set, elem_of_seqZ.
    split; [|lia]. intros []%elem_of_empty. }
  assert (Hinv : kid_inv n (obj, held)).
  { revert H0. clear -Hrtc. remember (kernel_id_map_init sz, ∅) as a. remember (obj, held) as b.
    clear Heqa Heqb. induction Hrtc; eauto using kid_step_inv. }
  destruct (kid_step_inv n (obj, held) _ (step_get _ _ _ _ E) Hinv) as (_ & _ & Hh').
  destruct Hinv as (Hw & Hn & Hh). cbn [fst snd] in *. split; [by rewrite <- Hcap|].
  destruct (decide (free_ids (kid_map obj) = ∅)) as [He|Hne].
  - exfalso. unfold get_unused_id in E. rewrite get_loop_exhausted in E; try done; try apply Hw.
    by apply no_free_all_zero.
  - destruct (get_unused_id_spec obj Hw Hne) as (k & o & E' & _ & Hk & _).
    rewrite E in E'. injection E' as <- <-. pose proof (free_ids_range _ _ Hk). rewrite Hh. split; [tauto|lia].
Qed.

Lemma id_map_no_double_allocation_witness :
  ∃ obj, rtc kid_step (kernel_id_map_init 8, ∅) (obj, {[0; 2]}) ∧
    ∃ obj', get_unused_id (-1) obj = Done (1, obj') ∧ 1 ∉ ({[0; 2]} : gset Z).
Proof.
  set (o1 := mk_kid [2 ^ 32 - 2; 2 ^ 32 - 1] 0 8).
  set (o2 := mk_kid [2 ^ 32 - 6; 2 ^ 32 - 1] 0 8).
  assert (Hr : rtc kid_step (kernel_id_map_init 8, ∅) (o2, {[0; 2]})).
  { eapply rtc_l; [apply (step_get _ _ 0 o1); vm_compute; reflexivity|].
    eapply rtc_l; [apply (step_resv o1 _ 2 o2); [vm_compute; split; congruence| |vm_compute; reflexivity]|].
    - set_solver.
    - replace ({[2]} ∪ ({[0]} ∪ ∅)) with ({[0; 2]} : gset Z) by set_solver. apply rtc_refl. }
  exists o2. split; [exact Hr|]. exists (mk_kid [2 ^ 32 - 8; 2 ^ 32 - 1] 0 8).
  split; [vm_compute; reflexivity|].
  apply (id_map_no_double_allocation 8 o2 _ 1 (mk_kid [2 ^ 32 - 8; 2 ^ 32 - 1] 0 8));
    [lia|reflexivity|exact Hr|vm_compute; reflexivity].
Defined.

(** The limits of the allocator.  On a full map the search goes round for
    ever, for every bound on the number of turns, although all its callers test
    its result for a failure value; and where [bsf] leaves anything but [-1] in its
    destination for a zero word, an identifier that is in use is handed out. *)
Theorem get_unused_id_limits :
  (∀ obj fuel, kid_wf obj → free_ids (kid_map obj) = ∅ →
     get_unused_id_loop (-1) fuel obj = Fail Diverge) ∧
  (∀ b, 0 <= b < 31 → get_unused_id b (mk_kid [0; 2 ^ 32 - 1] 0 8) =
     Done (b, mk_kid [0; 2 ^ 32 - 1] 0 8)).
Proof.
  split.
  - intros obj fuel Hw He. apply get_loop_exhausted; try apply Hw. by apply no_free_all_zero.
  - intros b Hb. unfold get_unused_id. cbn [get_unused_id_loop length kid_map].
    unfold find_first_bit, __find_first_bit. cbn [kid_map offset deref nthZ].
    change (nthZ [0; 2 ^ 32 - 1] (0 + 0)) with (Some 0). cbn [deref]. rewrite !bind_done.
    cbn [bsfl]. rewrite (proj2 (Z.eqb_neq b (-1))) by lia.
    unfold clear_bit. destruct (bit_index_small b 0 ltac:(lia)) as [-> ->].
    change (nthZ [0; 2 ^ 32 - 1] 0) with (Some 0). cbn [deref]. rewrite !bind_done.
    rewrite (proj2 (Z.eqb_neq b 31)) by lia.
    replace (Z.clearbit 0 b) with 0 by (by destruct b).
    unfold BITS_PER_LONG. by rewrite s32_small by lia.
Qed.

Lemma get_unused_id_limits_witness :
  get_unused_id_loop (-1) 100 (mk_kid [0; 0] 1 8) = Fail Diverge.
Proof.
  apply (proj1 get_unused_id_limits (mk_kid [0; 0] 1 8) 100%nat).
  - constructor; simpl; try lia; [repeat constructor; lia|].
    intros i Hi. by replace i with 0 by lia.
  - vm_compute. reflexivity.
Defined.
