(* ===== verification/Avl.v ===== *)
(** * The AVL tree ([Kernel/avltree.c])

    The process tree ([sys_proc]) and the thread tree of a process are AVL trees
    from an identifier to a payload pointer.  A tree owns its nodes (no node has
    two parents), so a node pointer is modelled by the subtree it designates; the
    address of each node is kept, to say which blocks are allocated and freed. *)

From stdpp Require Import sorting.
From S2P Require Import Prelude.

(** [struct avlnode]; [NULL] is the null pointer. *)
Inductive avlnode : Type :=
| NULL
| Node (addr val : Z) (left right : avlnode) (height_ : Z) (payload : Z).

Definition Max (a b : Z) : Z := if b <? a then a else b.

Definition height (p : avlnode) : Z :=
  match p with NULL => -1 | Node _ _ _ _ h _ => h end.

(** Field access through a pointer. *)
Definition avl_left (p : avlnode) : outcome avlnode :=
  match p with NULL => Fail BadPtr | Node _ _ l _ _ _ => Done l end.
Definition avl_right (p : avlnode) : outcome avlnode :=
  match p with NULL => Fail BadPtr | Node _ _ _ r _ _ => Done r end.
Definition avl_val (p : avlnode) : outcome Z :=
  match p with NULL => Fail BadPtr | Node _ v _ _ _ _ => Done v end.

(** [p->height = Max(height(p->left), height(p->right)) + 1] *)
Definition set_height (p : avlnode) : outcome avlnode :=
  match p with
  | NULL => Fail BadPtr
  | Node a v l r _ pl => Done (Node a v l r (Max (height l) (height r) + 1) pl)
  end.

Definition single_rotate_with_left (p : avlnode) : outcome avlnode :=
  match p with
  | Node a v (Node a1 v1 l1 r1 h1 pl1) r h pl =>
      p ← set_height (Node a v r1 r h pl);
      set_height (Node a1 v1 l1 p h1 pl1)
  | _ => Fail BadPtr
  end.

Definition single_rotate_with_right (p : avlnode) : outcome avlnode :=
  match p with
  | Node a v l (Node a1 v1 l1 r1 h1 pl1) h pl =>
      p ← set_height (Node a v l l1 h pl);
      set_height (Node a1 v1 p r1 h1 pl1)
  | _ => Fail BadPtr
  end.

Definition double_rotate_with_left (p : avlnode) : outcome avlnode :=
  match p with
  | Node a v l r h pl =>
      l ← single_rotate_with_right l;
      single_rotate_with_left (Node a v l r h pl)
  | NULL => Fail BadPtr
  end.

Definition double_rotate_with_right (p : avlnode) : outcome avlnode :=
  match p with
  | Node a v l r h pl =>
      r ← single_rotate_with_left r;
      single_rotate_with_right (Node a v l r h pl)
  | NULL => Fail BadPtr
  end.

(** [mem] is what [kmalloc] returns if it is called ([None] for NULL). *)
Fixpoint avl_insert (mem : option Z) (val pl : Z) (p : avlnode) : outcome avlnode :=
  p ← match p with
      | NULL =>
          match mem with
          | None => Fail Panic
          | Some a => Done (Node a val NULL NULL 0 pl)
          end
      | Node a v l r h pl' =>
          if val <? v then
            l ← avl_insert mem val pl l;
            let p := Node a v l r h pl' in
            if height l - height r =? 2 then
              lv ← avl_val l;
              if val <? lv then single_rotate_with_left p else double_rotate_with_left p
            else Done p
          else if v <? val then
            r ← avl_insert mem val pl r;
            let p := Node a v l r h pl' in
            if height r - height l =? 2 then
              rv ← avl_val r;
              if rv <? val then single_rotate_with_right p else double_rotate_with_right p
            else Done p
          else Done p
      end;
  set_height p.

(** The loop [while (tmp->left != NULL) tmp = tmp->left], for the fields of the
    node it stops at. *)
Fixpoint leftmost (v pl : Z) (l : avlnode) : Z * Z :=
  match l with NULL => (v, pl) | Node _ v l _ _ pl => leftmost v pl l end.

(** Returns the new root and the blocks given to [kfree]. *)
Fixpoint avl_delete (val : Z) (p : avlnode) : outcome (avlnode * list Z) :=
  match p with
  | NULL => Done (NULL, [])
  | Node a v l r h pl =>
      if val <? v then
        '(l, fr) ← avl_delete val l;
        let p := Node a v l r h pl in
        if height r - height l =? 2 then
          tl ← avl_left r;
          tr ← avl_right r;
          p ← (if height tl <? height tr then double_rotate_with_right p
               else single_rotate_with_right p);
          Done (p, fr)
        else
          p ← set_height p; Done (p, fr)
      else if v <? val then
        '(r, fr) ← avl_delete val r;
        let p := Node a v l r h pl in
        if height l - height r =? 2 then
          tl ← avl_left l;
          tr ← avl_right l;
          p ← (if height tr <? height tl then single_rotate_with_left p
               else double_rotate_with_left p);
          Done (p, fr)
        else
          p ← set_height p; Done (p, fr)
      else
        match l, r with
        | Node _ _ _ _ _ _, Node _ v1 l1 _ _ pl1 =>
            let '(v', pl') := leftmost v1 pl1 l1 in
            '(r, fr) ← avl_delete v' r;
            Done (Node a v' l r h pl', fr)
        | NULL, _ => Done (r, [a])
        | _, NULL => Done (l, [a])
        end
  end.

Definition avl_delete_node (val : Z) (root : avlnode) : outcome (avlnode * list Z) :=
  avl_delete val root.

(** The blocks freed, in order. *)
Fixpoint avl_destroy_tree (root : avlnode) : list Z :=
  match root with
  | NULL => []
  | Node a _ l r _ _ => avl_destroy_tree r ++ avl_destroy_tree l ++ [a]
  end.

Fixpoint avl_find (val : Z) (p : avlnode) : avlnode :=
  match p with
  | NULL => NULL
  | Node _ v l r _ _ =>
      if v <? val then avl_find val r
      else if val <? v then avl_find val l
      else p
  end.

(** What [OUT] prints: side, value, value of the parent. *)
Inductive side : Set := SLeft | SRight.
Fixpoint OUT (T : avlnode) : outcome (list (side * Z * Z)) :=
  match T with
  | NULL => Fail BadPtr
  | Node _ v l r _ _ =>
      ol ← match l with
           | NULL => Done []
           | Node _ lv _ _ _ _ => o ← OUT l; Done ((SLeft, lv, v) :: o)
           end;
      o2 ← match r with
           | NULL => Done []
           | Node _ rv _ _ _ _ => o ← OUT r; Done ((SRight, rv, v) :: o)
           end;
      Done (ol ++ o2)
  end.

(** ** Invariants and abstraction *)

(** The bindings in key order, and the addresses of the nodes. *)
Fixpoint elements (t : avlnode) : list (Z * Z) :=
  match t with NULL => [] | Node _ v l r _ pl => elements l ++ (v, pl) :: elements r end.
Fixpoint addrs (t : avlnode) : list Z :=
  match t with NULL => [] | Node a _ l r _ _ => a :: addrs l ++ addrs r end.
Definition payload_of (t : avlnode) : option Z :=
  match t with NULL => None | Node _ _ _ _ _ pl => Some pl end.

(** Search order. *)
Definition key_lt (x y : Z * Z) : Prop := x.1 < y.1.
Definition bst (t : avlnode) : Prop := StronglySorted key_lt (elements t).

(** Balance, with the stored heights exact. *)
Fixpoint avl (t : avlnode) : Prop :=
  match t with
  | NULL => True
  | Node _ _ l r h _ =>
      avl l ∧ avl r ∧ h = Z.max (height l) (height r) + 1 ∧
      -1 <= height l - height r <= 1
  end.

(** The finite map a tree stands for. *)
Definition to_map (t : avlnode) : gmap Z Z := list_to_map (elements t).

(** Reference functions on sorted lists of bindings. *)
Fixpoint ins (v pl : Z) (xs : list (Z * Z)) : list (Z * Z) :=
  match xs with
  | [] => [(v, pl)]
  | x :: xs' => if decide (x.1 < v) then x :: ins v pl xs'
                else if decide (v < x.1) then (v, pl) :: xs else xs
  end.
Definition del (v : Z) (xs : list (Z * Z)) : list (Z * Z) := filter (λ x, x.1 ≠ v) xs.

(** ** Order and bindings *)

Lemma bst_Node a v l r h pl :
  bst (Node a v l r h pl) ↔
  bst l ∧ bst r ∧ (∀ x, x ∈ elements l → x.1 < v) ∧ (∀ x, x ∈ elements r → v < x.1).
Proof.
  unfold bst. simpl. rewrite StronglySorted_app. split.
  - intros (Hlr & Hl & Hr). apply StronglySorted_inv in Hr as [Hr Hv].
    rewrite Forall_forall in Hv. split_and!; [done|done| |].
    + intros x Hx. apply (Hlr x (v, pl)); set_solver.
    + intros x Hx. by apply (Hv x).
  - intros (Hl & Hr & Hlv & Hrv). split_and!; [|done|].
    + intros x y Hx [->|Hy]%elem_of_cons; unfold key_lt.
      * by apply Hlv.
      * specialize (Hlv _ Hx). specialize (Hrv _ Hy). lia.
    + constructor; [done|]. rewrite Forall_forall. intros x Hx. by apply Hrv.
Qed.

Lemma ins_lt v pl x y ys xs : v < x → ins v pl (xs ++ (x, y) :: ys) = ins v pl xs ++ (x, y) :: ys.
Proof.
  intros Hv. induction xs as [|[z w] xs IH]; simpl.
  - rewrite decide_False, decide_True by lia. done.
  - repeat case_decide; rewrite ?IH; done.
Qed.

Lemma ins_gt v pl x y ys xs : x < v → (∀ z, z ∈ xs → z.1 < x) →
  ins v pl (xs ++ (x, y) :: ys) = xs ++ (x, y) :: ins v pl ys.
Proof.
  intros Hv. induction xs as [|z xs IH]; simpl; intros Hxs.
  - by rewrite decide_True by lia.
  - rewrite decide_True by (specialize (Hxs z); set_solver by lia). rewrite IH; [done|set_solver].
Qed.

Lemma ins_eq v pl y ys xs : (∀ z, z ∈ xs → z.1 < v) →
  ins v pl (xs ++ (v, y) :: ys) = xs ++ (v, y) :: ys.
Proof.
  induction xs as [|z xs IH]; simpl; intros Hxs.
  - by rewrite !decide_False by lia.
  - rewrite decide_True by (specialize (Hxs z); set_solver by lia). rewrite IH; [done|set_solver].
Qed.

Lemma del_none v xs : (∀ z, z ∈ xs → z.1 ≠ v) → del v xs = xs.
Proof.
  unfold del. induction xs as [|z xs IH]; intros Hx; [done|].
  rewrite filter_cons_True by (apply Hx; set_solver). rewrite IH; [done|set_solver].
Qed.

Lemma del_app v xs ys : del v (xs ++ ys) = del v xs ++ del v ys.
Proof. apply filter_app. Qed.
Lemma del_cons_ne v x y xs : x ≠ v → del v ((x, y) :: xs) = (x, y) :: del v xs.
Proof. intros. unfold del. by rewrite filter_cons_True. Qed.
Lemma del_cons_eq v y xs : del v ((v, y) :: xs) = del v xs.
Proof. unfold del. rewrite filter_cons_False; [done|]. simpl. auto. Qed.

(** Neither the rotations nor the height update change the bindings or the
    nodes. *)
Definition same_nodes (t t' : avlnode) : Prop :=
  elements t' = elements t ∧ addrs t' ≡ₚ addrs t.

Lemma set_height_inv t t' : set_height t = Done t' → same_nodes t t'.
Proof. destruct t; simpl; intros; simplify_eq. done. Qed.

Lemma single_left_inv t t' : single_rotate_with_left t = Done t' → same_nodes t t'.
Proof.
  destruct t as [|a v [|a1 v1 l1 r1 h1 pl1] r h pl]; simpl; intros; simplify_eq/=.
  split; simpl; [by rewrite <- app_assoc|]. rewrite <- !app_assoc. solve_Permutation.
Qed.

Lemma single_right_inv t t' : single_rotate_with_right t = Done t' → same_nodes t t'.
Proof.
  destruct t as [|a v l [|a1 v1 l1 r1 h1 pl1] h pl]; simpl; intros; simplify_eq/=.
  split; simpl; [by rewrite <- app_assoc|]. rewrite <- !app_assoc. solve_Permutation.
Qed.

Lemma same_nodes_trans t1 t2 t3 : same_nodes t1 t2 → same_nodes t2 t3 → same_nodes t1 t3.
Proof. intros [E1 P1] [E2 P2]. split; [congruence|by rewrite P2]. Qed.

Lemma same_nodes_node a v l r h pl l' r' :
  same_nodes l l' → same_nodes r r' → same_nodes (Node a v l r h pl) (Node a v l' r' h pl).
Proof. intros [E1 P1] [E2 P2]. split; simpl; [by rewrite E1, E2|by rewrite P1, P2]. Qed.

Lemma double_left_inv t t' : double_rotate_with_left t = Done t' → same_nodes t t'.
Proof.
  destruct t as [|a v l r h pl]; [done|]. unfold double_rotate_with_left. intros E. run_inv E.
  eapply same_nodes_trans; [|by eapply single_left_inv].
  apply same_nodes_node; [by eapply single_right_inv|done].
Qed.

Lemma double_right_inv t t' : double_rotate_with_right t = Done t' → same_nodes t t'.
Proof.
  destruct t as [|a v l r h pl]; [done|]. unfold double_rotate_with_right. intros E. run_inv E.
  eapply same_nodes_trans; [|by eapply single_right_inv].
  apply same_nodes_node; [done|by eapply single_left_inv].
Qed.

Create HintDb avl.
#[export] Hint Resolve set_height_inv single_left_inv single_right_inv double_left_inv
  double_right_inv : avl.

(** ** Insertion and the bindings *)

(** [ns'] are the nodes [ns] of a tree after an insertion; [new] says whether the
    key was new, and so whether the block [mem] was linked in. *)
Definition nodes_ins (new : bool) (mem : option Z) (ns ns' : list Z) : Prop :=
  if new then ∃ a, mem = Some a ∧ ns' ≡ₚ a :: ns else ns' ≡ₚ ns.

Lemma nodes_ins_perm new mem ns ns' ns'' :
  ns'' ≡ₚ ns' → nodes_ins new mem ns ns' → nodes_ins new mem ns ns''.
Proof.
  destruct new; simpl; intros Hp; [intros (a & ? & Hq); exists a; split; [done|]|intros Hq];
    by rewrite Hp.
Qed.

Lemma nodes_ins_ctx new mem ns ns' xs ys :
  nodes_ins new mem ns ns' → nodes_ins new mem (xs ++ ns ++ ys) (xs ++ ns' ++ ys).
Proof.
  destruct new; simpl; [intros (a & ? & Hq); exists a; split; [done|]|intros Hq]; rewrite Hq; [|done].
  solve_Permutation.
Qed.

Definition has_key (v : Z) (t : avlnode) : Prop := v ∈ (elements t).*1.
#[export] Instance has_key_dec v t : Decision (has_key v t).
Proof. unfold has_key. apply _. Defined.

Lemma has_key_elem v t : has_key v t ↔ ∃ pl, (v, pl) ∈ elements t.
Proof.
  unfold has_key. rewrite list_elem_of_fmap. split.
  - intros ([k pl] & -> & ?). by exists pl.
  - intros [pl ?]. by exists (v, pl).
Qed.

Lemma has_key_Node v a v0 l r h pl :
  has_key v (Node a v0 l r h pl) ↔ has_key v l ∨ v = v0 ∨ has_key v r.
Proof. unfold has_key. simpl. by rewrite fmap_app, elem_of_app, fmap_cons, elem_of_cons. Qed.

Lemma bst_Node_keys a v l r h pl : bst (Node a v l r h pl) →
  bst l ∧ bst r ∧ (∀ k, has_key k l → k < v) ∧ (∀ k, has_key k r → v < k).
Proof.
  intros (? & ? & Hl & Hr)%bst_Node. split_and!; [done..| |];
    intros k [p Hk]%has_key_elem; [by apply Hl in Hk|by apply Hr in Hk].
Qed.

Lemma avl_insert_inv mem v pl t t' : bst t → avl_insert mem v pl t = Done t' →
  elements t' = ins v pl (elements t) ∧
  nodes_ins (bool_decide (¬ has_key v t)) mem (addrs t) (addrs t').
Proof.
  revert t'. induction t as [|a0 v0 l IHl r IHr h0 pl0]; intros t' Hb E; cbn [avl_insert] in E.
  - destruct mem as [a|]; [|done]. injection E as <-.
    rewrite bool_decide_true by (unfold has_key; set_solver). split; [done|]. by exists a.
  - destruct (bst_Node_keys _ _ _ _ _ _ Hb) as (_ & _ & Hkl & Hkr).
    apply bst_Node in Hb as (Hl & Hr & Hlv & Hrv).
    apply bind_Done_inv in E as (p & E & Hs%set_height_inv).
    enough (elements p = ins v pl (elements (Node a0 v0 l r h0 pl0)) ∧
      nodes_ins (bool_decide (¬ has_key v (Node a0 v0 l r h0 pl0))) mem
        (addrs (Node a0 v0 l r h0 pl0)) (addrs p)) as [H1 H2].
    { destruct Hs as [-> Ps]. split; [done|]. by eapply nodes_ins_perm. }
    clear Hs. destruct (Z.ltb_spec v v0) as [Hv|Hv]; [|destruct (Z.ltb_spec v0 v) as [Hv'|Hv']].
    + apply bind_Done_inv in E as (l' & El & E). destruct (IHl l' Hl El) as [Ee Pe].
      assert (same_nodes (Node a0 v0 l' r h0 pl0) p) as [-> Ps].
      { destruct (_ =? _); [run_inv E; destruct (_ <? _); eauto with avl|by simplify_eq]. }
      split; [cbn [elements]; by rewrite Ee, ins_lt|]. eapply nodes_ins_perm; [exact Ps|].
      replace (bool_decide (¬ has_key v (Node a0 v0 l r h0 pl0))) with (bool_decide (¬ has_key v l)).
      * apply (nodes_ins_ctx _ _ _ _ [a0] (addrs r)). exact Pe.
      * apply bool_decide_ext. rewrite has_key_Node. specialize (Hkr v). intuition lia.
    + apply bind_Done_inv in E as (r' & Er & E). destruct (IHr r' Hr Er) as [Ee Pe].
      assert (same_nodes (Node a0 v0 l r' h0 pl0) p) as [-> Ps].
      { destruct (_ =? _); [run_inv E; destruct (_ <? _); eauto with avl|by simplify_eq]. }
      split; [cbn [elements]; by rewrite Ee, ins_gt|]. eapply nodes_ins_perm; [exact Ps|].
      replace (bool_decide (¬ has_key v (Node a0 v0 l r h0 pl0))) with (bool_decide (¬ has_key v r)).
      * apply (nodes_ins_ctx _ _ _ _ (a0 :: addrs l) []) in Pe. by rewrite !app_nil_r in Pe.
      * apply bool_decide_ext. rewrite has_key_Node. specialize (Hkl v). intuition lia.
    + simplify_eq. assert (v = v0) as -> by lia.
      split; [cbn [elements]; by rewrite ins_eq|].
      rewrite bool_decide_false by (rewrite has_key_Node; tauto). simpl. done.
Qed.

(** ** Insertion and balance *)

(** After an insertion that made the tree higher, the heavier side is the one
    the key went to. *)
Definition grew (v : Z) (t : avlnode) : Prop :=
  match t with
  | NULL => False
  | Node _ v0 l r _ _ =>
      (v < v0 ∧ height l = height r + 1) ∨ (v0 < v ∧ height r = height l + 1) ∨
      (l = NULL ∧ r = NULL)
  end.

Lemma avl_height t : avl t → -1 <= height t.
Proof. induction t as [|a v l IHl r IHr h pl]; simpl; [lia|]. intros (Hl%IHl & _ & -> & _). lia. Qed.

Lemma height_NULL t : avl t → height t = -1 → t = NULL.
Proof.
  destruct t as [|a v l r h pl]; simpl; [done|]. intros (Hl & Hr & -> & _) Hh.
  pose proof (avl_height _ Hl). lia.
Qed.

Lemma Max_max a b : Max a b = Z.max a b.
Proof. unfold Max. destruct (Z.ltb_spec b a); lia. Qed.

Lemma set_height_avl a v l r h pl : avl l → avl r → -1 <= height l - height r <= 1 →
  ∃ t', set_height (Node a v l r h pl) = Done t' ∧ avl t' ∧
    height t' = Z.max (height l) (height r) + 1 ∧
    t' = Node a v l r (Z.max (height l) (height r) + 1) pl.
Proof.
  intros. cbn [set_height]. rewrite Max_max. eexists. split; [reflexivity|].
  simpl. split_and!; try done; lia.
Qed.

(** The four rotations, on the shapes [avl_insert] applies them to. *)
Lemma single_left_avl a v l r h pl :
  avl l → avl r → height l - height r = 2 →
  (∃ a1 v1 l1 r1 h1 pl1, l = Node a1 v1 l1 r1 h1 pl1 ∧ height r1 <= height l1) →
  ∃ t', single_rotate_with_left (Node a v l r h pl) = Done t' ∧ avl t' ∧
    height l <= height t' <= height l + 1 ∧
    (∀ a1 v1 l1 r1 h1 pl1, l = Node a1 v1 l1 r1 h1 pl1 → height r1 < height l1 →
       height t' = height l).
Proof.
  intros Hl Hr Hd (a1 & v1 & l1 & r1 & h1 & pl1 & -> & Hlt).
  destruct Hl as (Hl1 & Hr1 & -> & Hb). simpl in Hd.
  simpl. rewrite !Max_max. eexists. split; [reflexivity|]. simpl. split_and!; try done; try lia.
  intros; simplify_eq. lia.
Qed.

Lemma single_right_avl a v l r h pl :
  avl l → avl r → height r - height l = 2 →
  (∃ a1 v1 l1 r1 h1 pl1, r = Node a1 v1 l1 r1 h1 pl1 ∧ height l1 <= height r1) →
  ∃ t', single_rotate_with_right (Node a v l r h pl) = Done t' ∧ avl t' ∧
    height r <= height t' <= height r + 1 ∧
    (∀ a1 v1 l1 r1 h1 pl1, r = Node a1 v1 l1 r1 h1 pl1 → height l1 < height r1 →
       height t' = height r).
Proof.
  intros Hl Hr Hd (a1 & v1 & l1 & r1 & h1 & pl1 & -> & Hlt).
  destruct Hr as (Hl1 & Hr1 & -> & Hb). simpl in Hd.
  simpl. rewrite !Max_max. eexists. split; [reflexivity|]. simpl. split_and!; try done; try lia.
  intros; simplify_eq. lia.
Qed.

Lemma double_left_avl a v l r h pl :
  avl l → avl r → height l - height r = 2 →
  (∃ a1 v1 l1 r1 h1 pl1, l = Node a1 v1 l1 r1 h1 pl1 ∧ height l1 < height r1) →
  ∃ t', double_rotate_with_left (Node a v l r h pl) = Done t' ∧ avl t' ∧ height t' = height l.
Proof.
  intros Hl Hr Hd (a1 & v1 & l1 & r1 & h1 & pl1 & -> & Hlt).
  destruct Hl as (Hl1 & Hr1 & -> & Hb). simpl in Hd. pose proof (avl_height _ Hl1).
  destruct r1 as [|a2 v2 l2 r2 h2 pl2]; simpl in Hlt; [lia|].
  destruct Hr1 as (Hl2 & Hr2 & -> & Hb2). simpl in *.
  rewrite !Max_max. eexists. split; [reflexivity|]. simpl. split_and!; try done; lia.
Qed.

Lemma double_right_avl a v l r h pl :
  avl l → avl r → height r - height l = 2 →
  (∃ a1 v1 l1 r1 h1 pl1, r = Node a1 v1 l1 r1 h1 pl1 ∧ height r1 < height l1) →
  ∃ t', double_rotate_with_right (Node a v l r h pl) = Done t' ∧ avl t' ∧ height t' = height r.
Proof.
  intros Hl Hr Hd (a1 & v1 & l1 & r1 & h1 & pl1 & -> & Hlt).
  destruct Hr as (Hl1 & Hr1 & -> & Hb). simpl in Hd. pose proof (avl_height _ Hr1).
  destruct l1 as [|a2 v2 l2 r2 h2 pl2]; simpl in Hlt; [lia|].
  destruct Hl1 as (Hl2 & Hr2 & -> & Hb2). simpl in *.
  rewrite !Max_max. eexists. split; [reflexivity|]. simpl. split_and!; try done; lia.
Qed.

Lemma set_height_id t : avl t → t ≠ NULL → set_height t = Done t.
Proof. destruct t; simpl; [done|]. rewrite Max_max. intros (_ & _ & -> & _) _. done. Qed.

Lemma grew_cases v t : avl t → 1 <= height t → grew v t →
  ∃ a1 v1 l1 r1 h1 pl1, t = Node a1 v1 l1 r1 h1 pl1 ∧
    ((v < v1 ∧ height r1 < height l1) ∨ (v1 < v ∧ height l1 < height r1)).
Proof.
  destruct t as [|a1 v1 l1 r1 h1 pl1]; [done|]. intros (_ & _ & -> & _) Hh Hg.
  exists a1, v1, l1, r1, (Z.max (height l1) (height r1) + 1), pl1. split; [done|].
  destruct Hg as [[??]|[[??]|[-> ->]]]; [left; lia|right; lia|]. simpl in Hh. lia.
Qed.

Lemma rotated_height p : avl p → 0 <= height p → set_height p = Done p.
Proof. intros Hp Hh. apply set_height_id; [done|]. intros ->. simpl in Hh. lia. Qed.

Lemma avl_insert_avl a v pl t : avl t →
  ∃ t', avl_insert (Some a) v pl t = Done t' ∧ avl t' ∧
    (height t' = height t ∨ (height t' = height t + 1 ∧ grew v t')).
Proof.
  induction t as [|a0 v0 l IHl r IHr h0 pl0]; cbn [avl_insert].
  - intros _. eexists. split; [reflexivity|]. split; [vm_compute; intuition congruence|]. right. split; [done|]. simpl. tauto.
  - intros (Hl & Hr & -> & Hb). pose proof (avl_height _ Hl). pose proof (avl_height _ Hr).
    destruct (Z.ltb_spec v v0) as [Hv|Hv]; [|destruct (Z.ltb_spec v0 v) as [Hv'|Hv']].
    + destruct (IHl Hl) as (l' & -> & Hl' & Hh). rewrite bind_done.
      destruct (Z.eqb_spec (height l' - height r) 2) as [H2|H2].
      * destruct (grew_cases v l') as (a1 & v1 & l1 & r1 & h1 & pl1 & E1 & Hc); [done|lia| |].
        { destruct Hh as [|[]]; [lia|done]. }
        assert (avl_val l' = Done v1) as -> by (by rewrite E1). rewrite bind_done.
        destruct (Z.ltb_spec v v1).
        -- destruct (single_left_avl a0 v0 l' r (Z.max (height l) (height r) + 1) pl0 Hl' Hr H2)
             as (t' & -> & Ht & _ & Hht); [exists a1, v1, l1, r1, h1, pl1; split; [done|lia]|].
           specialize (Hht _ _ _ _ _ _ E1 ltac:(lia)). rewrite bind_done, rotated_height by (done || lia).
           exists t'. split; [done|]. split; [done|]. left. simpl. lia.
        -- destruct (double_left_avl a0 v0 l' r (Z.max (height l) (height r) + 1) pl0 Hl' Hr H2)
             as (t' & -> & Ht & Hht); [exists a1, v1, l1, r1, h1, pl1; split; [done|lia]|].
           rewrite bind_done, rotated_height by (done || lia).
           exists t'. split; [done|]. split; [done|]. left. simpl. lia.
      * rewrite bind_done.
        destruct (set_height_avl a0 v0 l' r (Z.max (height l) (height r) + 1) pl0 Hl' Hr)
          as (t' & -> & Ht & Hht & Et); [lia|]. exists t'. split; [done|]. split; [done|].
        cbn [height]. rewrite Hht, Et. simpl. lia.
    + destruct (IHr Hr) as (r' & -> & Hr' & Hh). rewrite bind_done.
      destruct (Z.eqb_spec (height r' - height l) 2) as [H2|H2].
      * destruct (grew_cases v r') as (a1 & v1 & l1 & r1 & h1 & pl1 & E1 & Hc); [done|lia| |].
        { destruct Hh as [|[]]; [lia|done]. }
        assert (avl_val r' = Done v1) as -> by (by rewrite E1). rewrite bind_done.
        destruct (Z.ltb_spec v1 v).
        -- destruct (single_right_avl a0 v0 l r' (Z.max (height l) (height r) + 1) pl0 Hl Hr' H2)
             as (t' & -> & Ht & _ & Hht); [exists a1, v1, l1, r1, h1, pl1; split; [done|lia]|].
           specialize (Hht _ _ _ _ _ _ E1 ltac:(lia)). rewrite bind_done, rotated_height by (done || lia).
           exists t'. split; [done|]. split; [done|]. left. simpl. lia.
        -- destruct (double_right_avl a0 v0 l r' (Z.max (height l) (height r) + 1) pl0 Hl Hr' H2)
             as (t' & -> & Ht & Hht); [exists a1, v1, l1, r1, h1, pl1; split; [done|lia]|].
           rewrite bind_done, rotated_height by (done || lia).
           exists t'. split; [done|]. split; [done|]. left. simpl. lia.
      * rewrite bind_done.
        destruct (set_height_avl a0 v0 l r' (Z.max (height l) (height r) + 1) pl0 Hl Hr')
          as (t' & -> & Ht & Hht & Et); [lia|]. exists t'. split; [done|]. split; [done|].
        cbn [height]. rewrite Hht, Et. simpl. lia.
    + rewrite bind_done.
      destruct (set_height_avl a0 v0 l r (Z.max (height l) (height r) + 1) pl0 Hl Hr Hb)
          as (t' & -> & Ht & Hht & Et). exists t'. split; [done|]. split; [done|]. left. simpl. lia.
Qed.

(** ** Lookup *)

Lemma to_map_Node a v l r h pl :
  to_map (Node a v l r h pl) = to_map l ∪ <[v := pl]> (to_map r).
Proof. unfold to_map. simpl. by rewrite list_to_map_app, list_to_map_cons. Qed.

Lemma to_map_None k t : to_map t !! k = None ↔ ¬ has_key k t.
Proof. unfold to_map, has_key. by rewrite <- not_elem_of_list_to_map. Qed.

Lemma find_map v t : bst t → payload_of (avl_find v t) = to_map t !! v.
Proof.
  induction t as [|a v0 l IHl r IHr h pl]; [done|].
  intros (Hl & Hr & Hkl & Hkr)%bst_Node_keys. rewrite to_map_Node. simpl.
  destruct (Z.ltb_spec v0 v) as [Hv|Hv]; [|destruct (Z.ltb_spec v v0) as [Hv'|Hv']].
  - rewrite lookup_union_r, lookup_insert_ne by
      (try lia; apply to_map_None; intros ?%Hkl; lia). auto.
  - rewrite IHl by done. symmetry. apply lookup_union_l.
    rewrite lookup_insert_ne by lia. apply to_map_None. intros ?%Hkr. lia.
  - assert (v = v0) as -> by lia.
    rewrite lookup_union_r, lookup_insert_eq by (apply to_map_None; intros ?%Hkl; lia). done.
Qed.

Lemma find_node v t a v0 l r h pl :
  avl_find v t = Node a v0 l r h pl → v0 = v ∧ a ∈ addrs t.
Proof.
  induction t as [|a1 v1 l1 IHl r1 IHr h1 pl1]; simpl; [done|].
  destruct (Z.ltb_spec v1 v); [|destruct (Z.ltb_spec v v1)].
  - intros []%IHr. set_solver.
  - intros []%IHl. set_solver.
  - intros; simplify_eq. split; [lia|set_solver].
Qed.

Lemma to_map_ins v pl xs : StronglySorted key_lt xs →
  (list_to_map (ins v pl xs) : gmap Z Z) =
    if decide (v ∈ xs.*1) then list_to_map xs else <[v := pl]> (list_to_map xs).
Proof.
  induction xs as [|[x y] xs IH]; intros Hs; cbn [ins fst fmap list_fmap].
  - done.
  - apply StronglySorted_cons in Hs as [Hx Hs]. rewrite Forall_forall in Hx.
    destruct (decide (x < v)) as [|Hxv]; [|destruct (decide (v < x))].
    + simpl. rewrite IH by done. destruct (decide (v ∈ xs.*1)).
      * by rewrite decide_True by set_solver.
      * rewrite decide_False by (rewrite elem_of_cons; intros [->|?]; [lia|done]).
        by rewrite insert_insert_ne by lia.
    + rewrite decide_False; [done|]. rewrite elem_of_cons. intros [->|Hin]; [lia|].
      apply list_elem_of_fmap in Hin as (z & -> & Hz). specialize (Hx _ Hz). unfold key_lt in Hx.
      simpl in *. lia.
    + assert (x = v) as -> by lia. rewrite decide_True by set_solver. done.
Qed.

Lemma sorted_ins v pl xs : StronglySorted key_lt xs → StronglySorted key_lt (ins v pl xs).
Proof.
  induction xs as [|[x y] xs IH]; intros Hs; simpl.
  - repeat constructor.
  - pose proof Hs as Hs'. apply StronglySorted_cons in Hs' as [Hx Hs']. rewrite Forall_forall in Hx.
    destruct (decide (x < v)) as [|Hxv]; [|destruct (decide (v < x)); [|done]].
    + constructor; [auto|]. apply Forall_forall. intros z Hz.
      assert (z = (v, pl) ∨ z ∈ xs) as [->|]; [|done|by apply Hx].
      clear -Hz. induction xs as [|w xs IH]; simpl in *; [set_solver|]. repeat case_decide; set_solver.
    + constructor; [done|]. apply Forall_forall. intros z [->|Hz]%elem_of_cons; [done|].
      specialize (Hx _ Hz). unfold key_lt in *. simpl in *. lia.
Qed.

Lemma to_map_del v xs : (list_to_map (del v xs) : gmap Z Z) = delete v (list_to_map xs).
Proof.
  induction xs as [|[x y] xs IH]; [done|]. destruct (decide (x = v)) as [->|].
  - rewrite del_cons_eq, list_to_map_cons, IH. by rewrite delete_insert_eq.
  - rewrite del_cons_ne, !list_to_map_cons, IH by done. by rewrite delete_insert_ne.
Qed.

Lemma sorted_del v xs : StronglySorted key_lt xs → StronglySorted key_lt (del v xs).
Proof.
  induction xs as [|[x y] xs IH]; [done|]. intros [Hx Hs]%StronglySorted_cons.
  destruct (decide (x = v)) as [->|]; [rewrite del_cons_eq; auto|].
  rewrite del_cons_ne by done. constructor; [auto|]. rewrite Forall_forall in *.
  intros z [_ Hz]%list_elem_of_filter. auto.
Qed.

(** ** Deletion *)

Lemma leftmost_elements v pl l : ∃ rest, ∀ a r h,
  elements (Node a v l r h pl) = leftmost v pl l :: rest ++ elements r.
Proof.
  revert v pl. induction l as [|a0 v0 l0 IH r0 _ h0 pl0]; intros v pl; simpl.
  - exists []. done.
  - destruct (IH v0 pl0) as [rest Hrest]. exists (rest ++ elements r0 ++ [(v, pl)]).
    intros a r h. specialize (Hrest a r0 h). simpl in Hrest. rewrite Hrest.
    simpl. by rewrite <- !app_assoc.
Qed.

Definition freed_ok (v : Z) (t t' : avlnode) (fr : list Z) : Prop :=
  elements t' = del v (elements t) ∧ addrs t ≡ₚ fr ++ addrs t' ∧
  length fr = if decide (has_key v t) then 1%nat else 0%nat.

Lemma freed_ok_same v t t1 t2 fr : same_nodes t1 t2 → freed_ok v t t1 fr → freed_ok v t t2 fr.
Proof. intros [E P] (? & Hp & ?). split_and!; [congruence|by rewrite Hp, P|done]. Qed.

Lemma del_side v v0 (xs : list (Z * Z)) : v < v0 → (∀ x, x ∈ xs → v0 < x.1) → del v xs = xs.
Proof. intros Hv Hx. apply del_none. intros z Hz%Hx. lia. Qed.

Lemma del_side' v v0 (xs : list (Z * Z)) : v0 < v → (∀ x, x ∈ xs → x.1 < v0) → del v xs = xs.
Proof. intros Hv Hx. apply del_none. intros z Hz%Hx. lia. Qed.

Lemma freed_ok_left v a v0 l r h pl l' fr : bst (Node a v0 l r h pl) → v < v0 →
  freed_ok v l l' fr → freed_ok v (Node a v0 l r h pl) (Node a v0 l' r h pl) fr.
Proof.
  intros Hb Hv (E & P & L). pose proof (bst_Node_keys _ _ _ _ _ _ Hb) as (_ & _ & _ & Hkr).
  apply bst_Node in Hb as (Hl & Hr & Hlv & Hrv). split_and!; simpl.
  - rewrite E, del_app, del_cons_ne by lia. by rewrite (del_side v v0 (elements r)).
  - rewrite P. solve_Permutation.
  - rewrite L. apply decide_ext. rewrite has_key_Node. specialize (Hkr v). intuition lia.
Qed.

Lemma freed_ok_right v a v0 l r h pl r' fr : bst (Node a v0 l r h pl) → v0 < v →
  freed_ok v r r' fr → freed_ok v (Node a v0 l r h pl) (Node a v0 l r' h pl) fr.
Proof.
  intros Hb Hv (E & P & L). pose proof (bst_Node_keys _ _ _ _ _ _ Hb) as (_ & _ & Hkl & _).
  apply bst_Node in Hb as (Hl & Hr & Hlv & Hrv). split_and!; simpl.
  - rewrite E, del_app, del_cons_ne by lia. by rewrite (del_side' v v0 (elements l)).
  - rewrite P. solve_Permutation.
  - rewrite L. apply decide_ext. rewrite has_key_Node. specialize (Hkl v). intuition lia.
Qed.

Lemma del_root v a l r h pl : bst (Node a v l r h pl) →
  del v (elements (Node a v l r h pl)) = elements l ++ elements r.
Proof.
  intros (Hl & Hr & Hlv & Hrv)%bst_Node. simpl.
  rewrite del_app, del_cons_eq, !del_none; [done|..]; intros z Hz; [apply Hrv in Hz|apply Hlv in Hz]; lia.
Qed.

Lemma freed_ok_root v a l r h pl t' : bst (Node a v l r h pl) →
  elements t' = elements l ++ elements r → addrs t' ≡ₚ addrs l ++ addrs r →
  freed_ok v (Node a v l r h pl) t' [a].
Proof.
  intros Hb E P. split_and!.
  - by rewrite del_root.
  - simpl. by rewrite P.
  - by rewrite decide_True by (rewrite has_key_Node; tauto).
Qed.

Lemma freed_ok_succ v a l r h pl v' pl' r' fr rest :
  bst (Node a v l r h pl) → elements r = (v', pl') :: rest → freed_ok v' r r' fr →
  freed_ok v (Node a v l r h pl) (Node a v' l r' h pl') fr.
Proof.
  intros Hb Er (E & P & L). pose proof Hb as (Hl & Hr & Hlv & Hrv)%bst_Node. split_and!.
  - rewrite del_root by done. simpl. rewrite E, Er, del_cons_eq. do 2 f_equal.
    apply del_none. intros z Hz. unfold bst in Hr. rewrite Er in Hr.
    apply StronglySorted_cons in Hr as [Hr _]. rewrite Forall_forall in Hr. specialize (Hr z Hz).
    unfold key_lt in Hr. simpl in Hr. lia.
  - simpl. rewrite P. solve_Permutation.
  - rewrite L, !decide_True; [done|rewrite has_key_Node; tauto|]. unfold has_key. rewrite Er. set_solver.
Qed.

Lemma avl_delete_inv v t t' fr : bst t → avl_delete v t = Done (t', fr) → freed_ok v t t' fr.
Proof.
  revert v t' fr. induction t as [|a v0 l IHl r IHr h pl]; intros v t' fr Hb E; cbn [avl_delete] in E.
  - simplify_eq. done.
  - pose proof Hb as (Hl & Hr & _ & _)%bst_Node.
    destruct (Z.ltb_spec v v0) as [Hv|Hv]; [|destruct (Z.ltb_spec v0 v) as [Hv'|Hv']].
    + apply bind_Done_inv in E as ([l' fr1] & El & E). apply IHl in El; [|done].
      eapply (freed_ok_left _ a v0 l r h pl) in El; [|done..].
      destruct (_ =? 2); run_inv E; simplify_eq; (eapply freed_ok_same; [|exact El]); [|eauto with avl].
      destruct (_ <? _); eauto with avl.
    + apply bind_Done_inv in E as ([r' fr1] & Er & E). apply IHr in Er; [|done].
      eapply (freed_ok_right _ a v0 l r h pl) in Er; [|done..].
      destruct (_ =? 2); run_inv E; simplify_eq; (eapply freed_ok_same; [|exact Er]); [|eauto with avl].
      destruct (_ <? _); eauto with avl.
    + assert (v = v0) as -> by lia. destruct l as [|al vl ll rl hl pll].
      { destruct r; simplify_eq; by apply freed_ok_root. }
      destruct r as [|a1 v1 l1 r1 h1 pl1].
      { simplify_eq. apply freed_ok_root; simpl; by rewrite ?app_nil_r. }
      destruct (leftmost_elements v1 pl1 l1) as [rest Hrest].
      specialize (Hrest a1 r1 h1). destruct (leftmost v1 pl1 l1) as [v' pl'].
      apply bind_Done_inv in E as ([r' fr1] & Er & E). simplify_eq.
      eapply freed_ok_succ; [done|exact Hrest|]. by apply IHr.
Qed.

(** ** Heights *)

Fixpoint find_path (v : Z) (t : avlnode) : list Z :=
  match t with
  | NULL => []
  | Node a v0 l r _ _ =>
      a :: if v0 <? v then find_path v r else if v <? v0 then find_path v l else []
  end.

Lemma find_path_height v t : avl t → Z.of_nat (length (find_path v t)) <= height t + 1.
Proof.
  induction t as [|a v0 l IHl r IHr h pl]; simpl; [lia|]. intros (Hl & Hr & -> & _).
  specialize (IHl Hl). specialize (IHr Hr). destruct (_ <? _); [lia|]. destruct (_ <? _); [lia|].
  pose proof (avl_height _ Hl). simpl. lia.
Qed.

Lemma avl_height_size t : avl t →
  2 ^ (height t + 1) <= (Z.of_nat (length (addrs t)) + 1) * (Z.of_nat (length (addrs t)) + 1).
Proof.
  induction t as [|a v l IHl r IHr h pl]; cbn [avl height addrs]; [simpl; lia|].
  intros (Hl & Hr & -> & Hb). specialize (IHl Hl). specialize (IHr Hr).
  pose proof (avl_height _ Hl). pose proof (avl_height _ Hr).
  simpl length. rewrite length_app, Nat2Z.inj_succ, Nat2Z.inj_add.
  set (nl := Z.of_nat (length (addrs l))) in *. set (nr := Z.of_nat (length (addrs r))) in *.
  assert (0 <= nl ∧ 0 <= nr) as [] by lia.
  set (m := Z.min (height l) (height r) + 1).
  assert (Hm : 0 <= m) by lia.
  assert (2 ^ m <= (nl + 1) * (nl + 1)).
  { etrans; [|exact IHl]. apply Z.pow_le_mono_r; lia. }
  assert (2 ^ m <= (nr + 1) * (nr + 1)).
  { etrans; [|exact IHr]. apply Z.pow_le_mono_r; lia. }
  assert (Hp : 2 ^ (Z.max (height l) (height r) + 1 + 1) <= 2 ^ m * 4).
  { change 4 with (2 ^ 2). rewrite <- Z.pow_add_r by lia. apply Z.pow_le_mono_r; lia. }
  assert (Hsq : ∀ x y, 0 <= x → 2 * x <= y → x * x * 4 <= y * y).
  { intros x y Hx Hy.
    pose proof (Z.mul_le_mono_nonneg (2 * x) y (2 * x) y ltac:(lia) Hy ltac:(lia) Hy). lia. }
  destruct (Z.le_ge_cases nl nr).
  - pose proof (Hsq (nl + 1) (Z.succ (nl + nr) + 1) ltac:(lia) ltac:(lia)). lia.
  - pose proof (Hsq (nr + 1) (Z.succ (nl + nr) + 1) ltac:(lia) ltac:(lia)). lia.
Qed.

(** ** Properties *)

(** C5: [avl_insert] is total on a balanced search tree when [kmalloc] succeeds:
    no rotation meets a NULL child, the result is again a balanced search tree
    with exact heights, its bindings are those of the tree with [val -> payload]
    added unless [val] was already there (the old payload stays), and its nodes
    are the old ones plus the new block exactly when the key was new. *)
Theorem avl_insert_correct a v pl t :
  bst t → avl t →
  ∃ t', avl_insert (Some a) v pl t = Done t' ∧ bst t' ∧ avl t' ∧
    to_map t' = (if decide (has_key v t) then to_map t else <[v := pl]> (to_map t)) ∧
    addrs t' ≡ₚ (if decide (has_key v t) then [] else [a]) ++ addrs t.
Proof.
  intros Hb Ha. destruct (avl_insert_avl a v pl t Ha) as (t' & E & Ha' & _).
  destruct (avl_insert_inv _ _ _ _ _ Hb E) as [Ee Pe]. exists t'. split_and!; [done| |done| |].
  - unfold bst. rewrite Ee. by apply sorted_ins.
  - unfold to_map. rewrite Ee. by apply to_map_ins.
  - destruct (decide (has_key v t)) as [Hk|Hk].
    + rewrite bool_decide_false in Pe by tauto. done.
    + rewrite bool_decide_true in Pe by done. destruct Pe as (? & [= <-] & ->). done.
Qed.

(** A tree of five nodes, as [avl_insert] builds it. *)
Definition avl_example : avlnode :=
  Node 1000 2 (Node 1010 1 NULL NULL 0 11)
    (Node 1020 4 (Node 1030 3 NULL NULL 0 13) (Node 1040 5 NULL NULL 0 15) 1 14) 2 12.

Lemma avl_example_ok : bst avl_example ∧ avl avl_example.
Proof.
  split; [|vm_compute; intuition congruence].
  unfold bst. simpl. repeat constructor; unfold key_lt; simpl; lia.
Qed.

Lemma avl_insert_correct_witness :
  ∃ t', avl_insert (Some 1050) 6 16 avl_example = Done t' ∧ avl t' ∧ to_map t' !! 6 = Some 16.
Proof.
  destruct (avl_insert_correct 1050 6 16 avl_example) as (t' & E & _ & Ha & Hm & _);
    [apply avl_example_ok..|].
  exists t'. split; [exact E|]. split; [exact Ha|]. rewrite Hm. vm_compute. reflexivity.
Defined.

(** [avl_find] returns the node of the key, or NULL when there is none, and on
    a balanced tree of [n] nodes its recursion visits a number [k] of nodes with
    [2^k <= (n+1)^2]; in particular heights stay far inside an [int]. *)
Theorem avl_find_correct v t :
  bst t → avl t →
  payload_of (avl_find v t) = to_map t !! v ∧
  (avl_find v t = NULL ↔ ¬ has_key v t) ∧
  2 ^ Z.of_nat (length (find_path v t)) <=
    (Z.of_nat (length (addrs t)) + 1) * (Z.of_nat (length (addrs t)) + 1) ∧
  (Z.of_nat (length (addrs t)) < 2 ^ 32 → height t <= 64).
Proof.
  intros Hb Ha. pose proof (find_map v t Hb) as Hf. pose proof (avl_height_size t Ha) as Hs.
  split_and!; [done| | |].
  - rewrite <- to_map_None, <- Hf. by destruct (avl_find v t).
  - etrans; [|exact Hs]. apply Z.pow_le_mono_r; [lia|]. by apply find_path_height.
  - intros Hn. destruct (decide (height t <= 64)) as [|Hh]; [done|].
    assert (2 ^ 65 <= 2 ^ (height t + 1)) by (apply Z.pow_le_mono_r; lia). nia.
Qed.

Lemma avl_find_correct_witness :
  payload_of (avl_find 3 avl_example) = Some 13 ∧ avl_find 7 avl_example = NULL.
Proof.
  destruct (avl_find_correct 3 avl_example) as [E _]; [apply avl_example_ok..|].
  destruct (avl_find_correct 7 avl_example) as (_ & E' & _); [apply avl_example_ok..|].
  split; [rewrite E; vm_compute; reflexivity|]. apply E'. vm_compute. intuition congruence.
Defined.

(** The life of a tree: insertions, each with the block [kmalloc] returns, and
    deletions. *)
Inductive avl_op : Type := AvlInsert (mem val payload : Z) | AvlDelete (val : Z).

(** Runs the operations; also the blocks handed to the tree that it did use, and
    the blocks it freed. *)
Fixpoint avl_run (os : list avl_op) (t : avlnode) : outcome (avlnode * list Z * list Z) :=
  match os with
  | [] => Done (t, [], [])
  | AvlInsert a v pl :: os =>
      t' ← avl_insert (Some a) v pl t;
      '(t'', us, fs) ← avl_run os t';
      Done (t'', (if decide (has_key v t) then us else a :: us), fs)
  | AvlDelete v :: os =>
      '(t', fr) ← avl_delete v t;
      '(t'', us, fs) ← avl_run os t';
      Done (t'', us, fr ++ fs)
  end.

Definition avl_op_spec (m : gmap Z Z) (o : avl_op) : gmap Z Z :=
  match o with
  | AvlInsert _ v pl => match m !! v with Some _ => m | None => <[v := pl]> m end
  | AvlDelete v => delete v m
  end.

Lemma avl_insert_bst a v pl t t' : bst t → avl_insert (Some a) v pl t = Done t' →
  bst t' ∧ to_map t' = avl_op_spec (to_map t) (AvlInsert a v pl) ∧
  addrs t' ≡ₚ (if decide (has_key v t) then [] else [a]) ++ addrs t.
Proof.
  intros Hb E. destruct (avl_insert_inv _ _ _ _ _ Hb E) as [Ee Pe]. split_and!.
  - unfold bst. rewrite Ee. by apply sorted_ins.
  - unfold to_map at 1. rewrite Ee, to_map_ins by done. simpl.
    destruct (to_map t !! v) eqn:Ev; case_decide as Hk; try done.
    + exfalso. apply (to_map_None v t) in Hk. congruence.
    + exfalso. by apply to_map_None in Ev.
  - case_decide as Hk.
    + rewrite bool_decide_false in Pe by tauto. done.
    + rewrite bool_decide_true in Pe by done. destruct Pe as (? & [= <-] & ->). done.
Qed.

Lemma avl_destroy_perm t : avl_destroy_tree t ≡ₚ addrs t.
Proof.
  induction t as [|a v l IHl r IHr h pl]; simpl; [done|]. rewrite IHl, IHr. solve_Permutation.
Qed.

(** C2: whatever sequence of insertions and deletions is run on a search tree, as
    long as it returns, the tree ends as a search tree whose bindings are those of
    the same operations on a finite map, and every block is accounted for: the
    blocks of the first tree and the ones linked in since are, without repetition
    or omission, those freed by the deletions and those [avl_destroy_tree] would
    free now. *)
Theorem avl_run_refines_map os t t' used freed :
  bst t → avl_run os t = Done (t', used, freed) →
  bst t' ∧ to_map t' = foldl avl_op_spec (to_map t) os ∧
  used ++ addrs t ≡ₚ freed ++ avl_destroy_tree t'.
Proof.
  revert t used freed. induction os as [|[a v pl|v] os IH]; intros t used freed Hb E; cbn [avl_run] in E.
  - simplify_eq. rewrite avl_destroy_perm. done.
  - apply bind_Done_inv in E as (t1 & E1 & E). apply bind_Done_inv in E as ([[t2 us] fs] & E2 & E).
    injection E as -> <- <-.
    destruct (avl_insert_bst _ _ _ _ _ Hb E1) as (Hb1 & Hm1 & P1).
    destruct (IH _ _ _ Hb1 E2) as (Hb2 & Hm2 & P2). split_and!; [done| |].
    + rewrite Hm2, Hm1. done.
    + rewrite <- P2, P1. case_decide; [done|]. solve_Permutation.
  - apply bind_Done_inv in E as ([t1 fr] & E1 & E). apply bind_Done_inv in E as ([[t2 us] fs] & E2 & E).
    injection E as -> <- <-.
    destruct (avl_delete_inv _ _ _ _ Hb E1) as (Ee & Pe & _).
    assert (bst t1) as Hb1 by (unfold bst; rewrite Ee; by apply sorted_del).
    destruct (IH _ _ _ Hb1 E2) as (Hb2 & Hm2 & P2). split_and!; [done| |].
    + rewrite Hm2. simpl. f_equal. unfold to_map. by rewrite Ee, to_map_del.
    + rewrite Pe, <- app_assoc, <- P2. solve_Permutation.
Qed.

Lemma avl_run_refines_map_witness :
  ∃ t', avl_run [AvlInsert 1 7 70; AvlInsert 2 5 50; AvlInsert 3 9 90; AvlInsert 4 5 0; AvlDelete 7] NULL
      = Done (t', [1; 2; 3], [3]) ∧
    to_map t' !! 5 = Some 50 ∧ to_map t' !! 7 = None.
Proof.
  eexists. split; [vm_compute; reflexivity|].
  match goal with |- to_map ?t !! _ = _ ∧ _ =>
    assert (E : avl_run [AvlInsert 1 7 70; AvlInsert 2 5 50; AvlInsert 3 9 90; AvlInsert 4 5 0;
                         AvlDelete 7] NULL = Done (t, [1; 2; 3], [3])) by (vm_compute; reflexivity) end.
  destruct (avl_run_refines_map _ NULL _ _ _ (SSorted_nil _) E) as (_ & -> & _).
  split; vm_compute; reflexivity.
Defined.

(** [avl_delete] does not keep the tree balanced.  There are balanced search
    trees on which it (a) follows a NULL pointer, because after a deletion on the
    left it picks the double rotation when the right-right side is the heavier one;
    (b) returns an unbalanced tree after a deletion on the right, because it
    picks the double rotation when both sides are equal; (c) returns an unbalanced
    tree, or (d) one with a wrong stored height, when it deletes a node with two
    children, because that branch neither rebalances nor updates the height. *)
Theorem avl_delete_not_balanced :
  (∃ t v, bst t ∧ avl t ∧ avl_delete v t = Fail BadPtr) ∧
  (∃ t v t' fr, bst t ∧ avl t ∧ (∀ k, has_key k t → k <= v) ∧
     avl_delete v t = Done (t', fr) ∧ ¬ avl t') ∧
  (∃ t v a' v' l' r' h' pl' fr, bst t ∧ avl t ∧
     avl_delete v t = Done (Node a' v' l' r' h' pl', fr) ∧ height l' - height r' = 2) ∧
  (∃ t v a' v' l' r' h' pl' fr, bst t ∧ avl t ∧
     avl_delete v t = Done (Node a' v' l' r' h' pl', fr) ∧
     h' ≠ Z.max (height l') (height r') + 1).
Proof.
  split; [|split; [|split]].
  - exists (Node 10 2 (Node 11 1 NULL NULL 0 0) (Node 12 3 NULL (Node 13 4 NULL NULL 0 0) 1 0) 2 0), 1.
    split_and!; [|vm_compute; intuition congruence|reflexivity].
    repeat constructor; unfold key_lt; simpl; lia.
  - exists (Node 10 5
        (Node 11 2 (Node 13 1 (Node 17 0 NULL NULL 0 0) NULL 1 0)
                   (Node 14 3 NULL (Node 15 4 NULL NULL 0 0) 1 0) 2 0)
        (Node 12 6 NULL (Node 16 7 NULL NULL 0 0) 1 0) 3 0), 7.
    eexists _, _. split_and!; [|vm_compute; intuition congruence| |reflexivity|vm_compute; intuition congruence].
    + repeat constructor; unfold key_lt; simpl; lia.
    + intros k [pl Hk]%has_key_elem. simpl in Hk.
      repeat (apply elem_of_cons in Hk as [[= -> ->]|Hk]; [lia|]). by apply not_elem_of_nil in Hk.
  - exists (Node 10 2 (Node 11 1 (Node 13 0 NULL NULL 0 0) NULL 1 0) (Node 12 3 NULL NULL 0 0) 2 0), 2.
    do 7 eexists. split_and!; [|vm_compute; intuition congruence|reflexivity|reflexivity].
    repeat constructor; unfold key_lt; simpl; lia.
  - exists (Node 10 2 (Node 11 1 NULL NULL 0 0) (Node 12 3 NULL (Node 13 4 NULL NULL 0 0) 1 0) 2 0), 2.
    do 7 eexists. split_and!; [|vm_compute; intuition congruence|reflexivity|vm_compute; congruence].
    repeat constructor; unfold key_lt; simpl; lia.
Qed.
