(* ===== verification/Buddy.v ===== *)
(** * The physical page allocators ([Kernel/mm.c])

    One array of [struct page] describes the lower memory (below 640K,
    [mem_lower_map]) and the memory from 1M up ([mem_upper_map], which starts
    where the lower part ends).  A [struct page *] is modelled by its index
    relative to [mem_upper_map]; the lower part has negative indices.  The [list]
    field of the pages and the eleven heads of [mm_buddy_array] live in one heap
    of cells ([LinkedList]).

    Interrupts are off while the lists are manipulated ([local_irq_save]), so the
    operations are atomic and the flag itself is not modelled. *)

From stdpp Require Import functions.
From S2P Require Import Prelude LinkedList.

(** ** Data *)

Record page : Type := mk_page { flag : Z; count : Z; private : Z }.

(** Addresses of list cells. *)
Inductive cell : Type := Head (order : Z) | Cell (p : Z).
#[export] Instance cell_eq_dec : EqDecision cell.
Proof. solve_decision. Defined.
#[export] Program Instance cell_countable : Countable cell :=
  inj_countable' (λ c, match c with Head o => inl o | Cell p => inr p end)
    (λ s, match s with inl o => Head o | inr p => Cell p end) _.
Next Obligation. by intros []. Qed.

Record mm_buddy : Type := mk_buddy { order : Z; free_num : Z }.

Record mm : Type := mk_mm {
  pages : gmap Z page;
  cells : gmap cell (linked_list cell);
  mm_buddy_array : list mm_buddy;
  lowmem_pages : Z;          (** [mem_upper_map - mem_lower_map] *)
  buddy_map_base : Z;
  kern_mem_end : Z;          (** an address *)
}.

Definition BUDDY_CHUNK_NUM := 11.
Definition PAGE_SHIFT := 12.
Definition PAGE_SIZE := 4096.
Definition PAGE_RESVD := 8.
Definition PAGE_BUDDY := 16.

Definition set_pages (m : gmap Z page) (s : mm) : mm :=
  mk_mm m (cells s) (mm_buddy_array s) (lowmem_pages s) (buddy_map_base s) (kern_mem_end s).
Definition set_cells (c : gmap cell (linked_list cell)) (s : mm) : mm :=
  mk_mm (pages s) c (mm_buddy_array s) (lowmem_pages s) (buddy_map_base s) (kern_mem_end s).
Definition set_array (a : list mm_buddy) (s : mm) : mm :=
  mk_mm (pages s) (cells s) a (lowmem_pages s) (buddy_map_base s) (kern_mem_end s).

(** Accesses: a field of the page at [p], a list operation, [free_num += d]. *)
Definition page_at (p : Z) (s : mm) : outcome page := deref (pages s !! p).
Definition upd_page (p : Z) (f : page → page) (s : mm) : outcome mm :=
  pg ← page_at p s; Done (set_pages (<[p := f pg]> (pages s)) s).
Definition on_cells (f : gmap cell (linked_list cell) → outcome (gmap cell (linked_list cell)))
    (s : mm) : outcome mm :=
  c ← f (cells s); Done (set_cells c s).
Definition add_free_num (o d : Z) (s : mm) : outcome mm :=
  b ← deref (nthZ (mm_buddy_array s) o);
  Done (set_array (updZ (mm_buddy_array s) o (mk_buddy (order b) (u32 (free_num b + d)))) s).

(** [set_bit]/[clear_bit]/[get_bit] on the word [flag], for bit numbers below
    32. *)
Definition flag_set (nr : Z) (pg : page) : page :=
  mk_page (Z.setbit (flag pg) nr) (count pg) (private pg).
Definition flag_clear (nr : Z) (pg : page) : page :=
  mk_page (Z.clearbit (flag pg) nr) (count pg) (private pg).
Definition flag_get (nr : Z) (pg : page) : bool := Z.testbit (flag pg) nr.
Definition with_private (v : Z) (pg : page) : page := mk_page (flag pg) (count pg) (u32 v).
Definition with_count (v : Z) (pg : page) : page := mk_page (flag pg) (u32 v) (private pg).

(** Pointer arithmetic on [struct page *] is modulo 2^32 bytes, so an index is
    taken as a signed number. *)
Definition ptr_add (p idx : Z) : Z := p + s32 idx.

Definition page_to_virt (p : Z) : Z := u32 (Z.shiftl (u32 p) PAGE_SHIFT + 0xC0100000).
Definition virt_to_page (addr : Z) : Z := Z.shiftr (u32 (addr - 0xC0100000)) PAGE_SHIFT.

(** ** The buddy allocator *)

Definition buddy_init_page (p i : Z) (s : mm) : outcome mm :=
  s ← on_cells (list_init (Some (Cell p))) s;
  s ← upd_page p (with_count 0) s;
  s ← upd_page p (with_private i) s;
  upd_page p (flag_set PAGE_BUDDY) s.

Fixpoint foldM {A S} (f : A → S → outcome S) (xs : list A) (s : S) : outcome S :=
  match xs with [] => Done s | x :: xs => s ← f x s; foldM f xs s end.

Definition buddy_init (total_mem start end_ : Z) (s : mm) : outcome mm :=
  s ← foldM (λ i s,
        s ← (b ← deref (nthZ (mm_buddy_array s) i);
             Done (set_array (updZ (mm_buddy_array s) i (mk_buddy i 0)) s));
        on_cells (list_init (Some (Head i))) s) (seqZ 0 BUDDY_CHUNK_NUM) s;
  let i := BUDDY_CHUNK_NUM - 1 in
  s ← foldM (λ p, buddy_init_page p i) (seqZ start (end_ + 1 - start)) s;
  s ← on_cells (list_add (Head i) (Cell start)) s;
  let s := mk_mm (pages s) (cells s) (mm_buddy_array s) (lowmem_pages s)
             (Z.max start (end_ + 1)) (kern_mem_end s) in
  b ← deref (nthZ (mm_buddy_array s) i);
  Done (set_array (updZ (mm_buddy_array s) i
          (mk_buddy (order b) (Z.shiftr (Z.shiftr total_mem 2) i))) s).

Definition rmv_page_order (p : Z) (s : mm) : outcome mm :=
  s ← upd_page p (flag_clear PAGE_BUDDY) s;
  upd_page p (with_private 0) s.

Definition set_page_order (p o : Z) (s : mm) : outcome mm :=
  s ← upd_page p (with_private o) s;
  upd_page p (flag_set PAGE_BUDDY) s.

(** The [while (curr_order > order)] loop; [n] is [curr_order - order]. *)
Fixpoint expand_loop (n : nat) (p size curr_order : Z) (s : mm) : outcome mm :=
  match n with
  | O => Done s
  | S n =>
      let curr_order := curr_order - 1 in
      let size := Z.shiftr size 1 in
      s ← on_cells (list_add (Head curr_order) (Cell (p + size))) s;
      s ← add_free_num curr_order 1 s;
      s ← set_page_order (p + size) curr_order s;
      expand_loop n p size curr_order s
  end.

Definition expand (p order curr_order : Z) (s : mm) : outcome (Z * mm) :=
  let size := u32 (Z.shiftl 1 curr_order) in
  s ← (if curr_order =? BUDDY_CHUNK_NUM - 1
       then on_cells (list_add (Head curr_order) (Cell (p + size))) s
       else Done s);
  s ← expand_loop (Z.to_nat (curr_order - order)) p size curr_order s;
  Done (p, s).

(** [container_of(head.next, struct page, list)]; a head cell is no page. *)
Definition container_of (c : cell) : outcome Z :=
  match c with Cell p => Done p | Head _ => Fail BadPtr end.

(** The loop over [corder]; [n] is [BUDDY_CHUNK_NUM - corder]. *)
Fixpoint buddy_alloc_loop (n : nat) (order corder : Z) (s : mm) : outcome (option Z * mm) :=
  match n with
  | O => Done (None, s)
  | S n =>
      e ← list_is_empty (Head corder) (cells s);
      if (e : bool) then buddy_alloc_loop n order (corder + 1) s else
      c ← get_next (Head corder) (cells s);
      p ← container_of c;
      s ← on_cells (list_del (Cell p)) s;
      s ← rmv_page_order p s;
      s ← add_free_num corder (-1) s;
      '(p, s) ← expand p order corder s;
      Done (Some p, s)
  end.

Definition buddy_alloc (order : Z) (s : mm) : outcome (option Z * mm) :=
  buddy_alloc_loop (Z.to_nat (BUDDY_CHUNK_NUM - order)) order order s.

Definition page_in_buddy (p : Z) (s : mm) : outcome bool :=
  pg ← page_at p s; Done (flag_get PAGE_BUDDY pg).

Definition page_is_buddy (p order : Z) (s : mm) : outcome bool :=
  pg ← page_at p s;
  Done ((private pg =? u32 order) && flag_get PAGE_BUDDY pg && (count pg =? 0)).

Definition page_is_ok (p : Z) (s : mm) : outcome bool :=
  pg ← page_at p s; Done (negb (flag_get PAGE_RESVD pg)).

(** The merging loop of [buddy_free]; [n] is [BUDDY_CHUNK_NUM - 1 - order].  The
    result is the pair of [page_idx] and [order] at its exit. *)
Fixpoint buddy_free_loop (n : nat) (page_idx order : Z) (s : mm) : outcome (Z * Z * mm) :=
  match n with
  | O => Done (page_idx, order, s)
  | S n =>
      let buddy_idx := s32 (Z.lxor page_idx (Z.shiftl 1 order)) in
      let buddy := ptr_add (buddy_map_base s) buddy_idx in
      b ← page_is_buddy buddy order s;
      if negb b then Done (page_idx, order, s) else
      k ← page_is_ok buddy s;
      if negb k then Done (page_idx, order, s) else
      s ← on_cells (list_del (Cell buddy)) s;
      s ← add_free_num order (-1) s;
      s ← rmv_page_order buddy s;
      buddy_free_loop n (Z.land page_idx (u32 buddy_idx)) (order + 1) s
  end.

Definition buddy_free (p order : Z) (s : mm) : outcome mm :=
  let page_idx := u32 (p - buddy_map_base s) in
  '(page_idx, order, s) ← buddy_free_loop (Z.to_nat (BUDDY_CHUNK_NUM - 1 - order)) page_idx order s;
  let coalesced := ptr_add (buddy_map_base s) page_idx in
  s ← set_page_order coalesced order s;
  s ← on_cells (list_add (Head order) (Cell coalesced)) s;
  add_free_num order 1 s.

Definition alloc_pages_buddy (order : Z) (s : mm) : outcome (Z * mm) :=
  '(p, s) ← buddy_alloc order s;
  match p with
  | None => Done (0, s)
  | Some p =>
      s ← foldM (λ i, upd_page (p + i) (λ pg, with_count (count pg + 1) pg))
            (seqZ 0 (Z.shiftl 1 order)) s;
      Done (page_to_virt p, s)
  end.

(** The loop of [free_pages_buddy] over the pages of the block: [BUG] unless each
    [count] is 1. *)
Definition put_page_count (p : Z) (s : mm) : outcome mm :=
  pg ← page_at p s;
  _ ← assert_ (u32 (count pg - 1) =? 0);
  upd_page p (λ pg, with_count (count pg - 1) pg) s.

Definition free_pages_buddy (order addr : Z) (s : mm) : outcome mm :=
  if negb (Z.land addr 0xFFF =? 0) then Done s else
  let p := virt_to_page addr in
  b ← page_in_buddy p s;
  if (b : bool) then Done s else
  s ← foldM (λ i, put_page_count (p + i)) (seqZ 0 (Z.shiftl 1 order)) s;
  buddy_free p order s.

(** [get_order] and [mem_calc_order]: the loop [while (x >>= 1) order++]. *)
Fixpoint shift_loop (fuel : nat) (x order : Z) : outcome Z :=
  match fuel with
  | O => Fail Diverge
  | S fuel =>
      let x := Z.shiftr x 1 in
      if x =? 0 then Done order else shift_loop fuel x (order + 1)
  end.

Definition get_order (size : Z) : outcome Z := shift_loop 33 (Z.shiftr size PAGE_SHIFT) 0.

Definition PAGE_ALIGN (x : Z) : Z := Z.land (u32 (x + PAGE_SIZE - 1)) (u32 (Z.lnot (PAGE_SIZE - 1))).
Definition mem_calc_order (size : Z) : outcome Z :=
  shift_loop 33 (Z.shiftr (PAGE_ALIGN size) PAGE_SHIFT) 0.

(** ** The lower memory *)

(** [&mem_lower_map[i]]; the C index [-1] counts as a free page. *)
Definition lower (i : Z) (s : mm) : Z := i - lowmem_pages s.
Definition minus1 : Z := 2 ^ 32 - 1.

(** The inner loop: [Some num] when it leaves by [goto AGAIN] with that [num],
    [None] when the [nr] pages from [j] are free; [n] is [nr - num]. *)
Fixpoint lowmem_scan (n : nat) (j num : Z) (s : mm) : outcome (option Z) :=
  match n with
  | O => Done None
  | S n =>
      pg ← page_at (lower j s) s;
      if count pg =? minus1 then lowmem_scan n (j + 1) (num + 1) s else Done (Some num)
  end.

Fixpoint lowmem_loop (fuel : nat) (i nr : Z) (s : mm) : outcome (Z * mm) :=
  match fuel with
  | O => Fail Diverge
  | S fuel =>
      if negb (i <? lowmem_pages s) then Done (minus1, s) else
      pg ← page_at (lower i s) s;
      if count pg =? minus1 then
        r ← lowmem_scan (Z.to_nat nr) i 0 s;
        match r with
        | Some num => lowmem_loop fuel (i + num) nr s
        | None =>
            ok ← page_is_ok (lower i s) s;
            if negb ok then lowmem_loop fuel (i + nr) nr s else
            s ← foldM (λ j, upd_page (lower j s) (λ pg, with_count (count pg + 1) pg)) (seqZ i nr) s;
            Done (u32 (0xC0000000 + Z.shiftl i PAGE_SHIFT), s)
        end
      else lowmem_loop fuel (i + 1) nr s
  end.

(** Each iteration moves [i] forward, so one more than there are pages decides
    the loop. *)
Definition alloc_pages_lowmem (nr : Z) (s : mm) : outcome (Z * mm) :=
  if nr <=? 0 then Done (minus1, s)
  else lowmem_loop (S (Z.to_nat (lowmem_pages s))) 0 nr s.

Definition free_page_lowmem (addr : Z) (s : mm) : outcome mm :=
  if (addr <? kern_mem_end s) && (0xC0100000 <? addr) then Done s else
  if negb (Z.land addr 0xFFF =? 0) then Done s else
  let i := Z.shiftr (u32 (addr - 0xC0000000)) PAGE_SHIFT in
  pg ← page_at (lower i s) s;
  if count pg =? minus1 then Done s
  else upd_page (lower i s) (λ pg, with_count (count pg - 1) pg) s.

Definition free_pages_lowmem (nr addr : Z) (s : mm) : outcome mm :=
  foldM (λ i, free_page_lowmem (u32 (addr + i * PAGE_SIZE))) (seqZ 0 nr) s.

(** ** The entry points *)

Definition ALLOC_LOWMEM := 2.
Definition ALLOC_NORMAL := 4.
Definition ALLOC_ZEROED := 8.

(** Also returns the area cleared by [memset], as (address, bytes). *)
Definition __alloc_pages (fl order : Z) (s : mm) : outcome (Z * option (Z * Z) * mm) :=
  let finish retval s :=
    Done (retval,
      (if negb (Z.land fl ALLOC_ZEROED =? 0)
       then Some (retval, Z.shiftl (Z.shiftl 1 order) PAGE_SHIFT) else None), s) in
  if negb (Z.land fl ALLOC_LOWMEM =? 0) then
    '(retval, s) ← alloc_pages_lowmem (Z.shiftl 1 order) s;
    if retval =? 0 then Done (retval, None, s) else finish retval s
  else if negb (Z.land fl ALLOC_NORMAL =? 0) then
    '(retval, s) ← alloc_pages_buddy order s;
    if retval =? 0 then Done (retval, None, s) else finish retval s
  else Fail BadPtr. (* [retval] is read before it is set *)

Definition alloc_pages (fl order : Z) (s : mm) : outcome (Z * option (Z * Z) * mm) :=
  if (fl <=? 0) || (order <? 0) || (11 <? order) then Done (0, None, s)
  else __alloc_pages fl order s.

Definition get_free_page (s : mm) := alloc_pages ALLOC_NORMAL 0 s.
Definition get_zero_page (s : mm) := alloc_pages (Z.lor ALLOC_NORMAL ALLOC_ZEROED) 0 s.

Definition free_pages (order addr : Z) (s : mm) : outcome mm :=
  if addr <? 0xC0100000 then free_pages_lowmem (Z.shiftl 1 order) addr s
  else free_pages_buddy order addr s.
Definition free_page (addr : Z) (s : mm) : outcome mm := free_pages 0 addr s.

Definition set_pageaddr_order (addr order : Z) (s : mm) : outcome mm :=
  if negb (Z.land addr 0xFFF =? 0) then Done s
  else upd_page (virt_to_page addr) (with_private order) s.

Definition list_del_page (addr : Z) (s : mm) : outcome mm :=
  if negb (Z.land addr 0xFFF =? 0) then Done s else
  let p := virt_to_page addr in
  s ← on_cells (list_del (Cell p)) s;
  upd_page p (with_private 0) s.

(** [mem_init]: the number of iterations of [for (x = from; x < to; x += 0x1000)]. *)
Definition page_steps (from to : Z) : Z := Z.max 0 ((to - from + 0xFFF) / 0x1000).
Definition sizeof_page := 20.

(** One page of the array as [mem_init] first writes it. *)
Definition mem_init_page (p : Z) (s : mm) : mm :=
  mk_mm (<[p := mk_page 0 minus1 0]> (pages s)) (<[Cell p := mk_ll (Cell p) (Cell p)]> (cells s))
    (mm_buddy_array s) (lowmem_pages s) (buddy_map_base s) (kern_mem_end s).

(** The array lies at [mem_lower_map]; [mem_lower] and [mem_upper] are the
    sizes, in kilobytes, of the boot loader.  The array is raw memory with no end
    of its own, and [buddy_init] writes the record after the last one ([p <= end]):
    [raw] is what lies there before.  Records further out fault in the model. *)
Definition mem_init (raw : page) (mem_lower_map mem_lower mbi_mem_upper : Z) : outcome mm :=
  if u32 (mbi_mem_upper * 1024) <? 4 * 1024 * 1024 then Fail Panic else
  let mem_upper := if 0x40000000 <? u32 (mbi_mem_upper * 1024) then 0x40000000 / 1024
                   else mbi_mem_upper in
  let nl := page_steps 0x1000 (u32 (mem_lower * 1024)) in
  let nu := page_steps 0x100000 (u32 (mem_upper * 1024)) in
  let mem_upper_map := mem_lower_map + nl * sizeof_page in
  let kern_end := Z.land (u32 (mem_upper_map + nu * sizeof_page + PAGE_SIZE - 1))
                    (u32 (Z.lnot (PAGE_SIZE - 1))) in
  let s := mk_mm ∅ (cells_init (Head <$> seqZ 0 BUDDY_CHUNK_NUM))
             (replicate (Z.to_nat BUDDY_CHUNK_NUM) (mk_buddy 0 0)) nl 0 kern_end in
  let s := foldr mem_init_page s (seqZ (- nl) nl) in
  s ← upd_page (- nl) (flag_set PAGE_RESVD) s;
  s ← upd_page (1 - nl) (flag_set PAGE_RESVD) s;
  let s := foldr mem_init_page s (seqZ 0 nu) in
  let s := set_cells (<[Cell nu := mk_ll (Cell nu) (Cell nu)]> (cells s))
             (set_pages (<[nu := raw]> (pages s)) s) in
  let nk := page_steps 0xC0100000 kern_end in
  s ← foldM (λ i s, s ← upd_page i (with_count 1) s; upd_page i (flag_set PAGE_RESVD) s)
        (seqZ 0 nk) s;
  buddy_init mem_upper nk nu s.

(** ** The free lists as sequences of pages

    [flists h L S E]: the eleven heads carry the sequences [L], and the cells of
    the pages of [S .. E] that are on none of them are loose. *)
Definition flists (h : gmap cell (linked_list cell)) (L : Z → list Z) (S E : Z) : Prop :=
  ∃ σ, lists h σ ∧
    (∀ o, 0 <= o <= 10 → σ !! Head o = Some (Cell <$> L o)) ∧
    (∀ q, S <= q <= E → (∀ o, 0 <= o <= 10 → q ∉ L o) → σ !! Cell q = Some []).

Section flists.
Context (S E : Z).
Implicit Types (h : gmap cell (linked_list cell)) (L : Z → list Z).

#[export] Instance Cell_inj : Inj (=) (=) Cell.
Proof. intros ?? [= ->]. done. Qed.

Lemma flists_unique h L q o1 o2 : flists h L S E →
  0 <= o1 <= 10 → 0 <= o2 <= 10 → q ∈ L o1 → q ∈ L o2 → o1 = o2.
Proof.
  intros (σ & Hl & Hh & _) H1 H2 Hq1 Hq2.
  enough (Head o1 = Head o2) by congruence.
  apply (lists_unique h σ (Cell q) _ _ (Cell <$> L o1) (Cell <$> L o2)); auto;
    apply elem_of_cons; right; by apply list_elem_of_fmap_2.
Qed.

Lemma flists_nodup h L o : flists h L S E → 0 <= o <= 10 → NoDup (L o).
Proof.
  intros (σ & Hl & Hh & _) Ho. pose proof (lists_nodup _ _ _ _ Hl (Hh o Ho)) as [_ Hn]%NoDup_cons.
  by apply NoDup_fmap_1 in Hn.
Qed.

Lemma flists_is_empty h L o : flists h L S E → 0 <= o <= 10 →
  list_is_empty (Head o) h = Done (bool_decide (L o = [])).
Proof.
  intros (σ & Hl & Hh & _) Ho. rewrite (lists_is_empty _ _ _ _ Hl (Hh o Ho)). f_equal.
  apply bool_decide_ext. by destruct (L o).
Qed.

Lemma flists_first h L o q qs : flists h L S E → 0 <= o <= 10 → L o = q :: qs →
  get_next (Head o) h = Done (Cell q).
Proof.
  intros (σ & Hl & Hh & _) Ho Hq. specialize (Hh o Ho). rewrite Hq in Hh.
  by eapply lists_first.
Qed.

Lemma rm_Cell q qs : rm (Cell q) (Cell <$> qs) = Cell <$> rm q qs.
Proof.
  unfold rm. induction qs as [|x qs IH]; [done|]. rewrite fmap_cons.
  destruct (decide (x = q)) as [->|Hne].
  - by rewrite !filter_cons_False by auto.
  - rewrite !filter_cons_True, fmap_cons, IH by (done || congruence). done.
Qed.

Lemma flists_add h L o q : flists h L S E → 0 <= o <= 10 → S <= q <= E →
  (∀ o', 0 <= o' <= 10 → q ∉ L o') →
  ∃ h', list_add (Head o) (Cell q) h = Done h' ∧ flists h' (<[o := q :: L o]> L) S E.
Proof.
  intros (σ & Hl & Hh & Hc) Ho Hq Hn.
  destruct (lists_add h σ (Head o) (Cell q) (Cell <$> L o)) as (h' & E' & Hl' & _);
    [done|by apply Hh|by apply Hc|congruence|].
  exists h'. split; [done|]. exists (link_head (Head o) (Cell q) σ). split; [done|].
  unfold link_head. split.
  - intros o' Ho'. destruct (decide (o' = o)) as [->|Hne].
    + rewrite fn_lookup_insert, lookup_alter_eq, lookup_delete_ne, Hh by done. done.
    + rewrite fn_lookup_insert_ne, lookup_alter_ne, lookup_delete_ne, Hh by congruence. done.
  - intros q' Hq' Hn'.
    assert (q' ≠ q).
    { intros ->. specialize (Hn' o Ho). rewrite fn_lookup_insert in Hn'. set_solver. }
    rewrite lookup_alter_ne, lookup_delete_ne by congruence. apply Hc; [done|].
    intros o' Ho'. specialize (Hn' o' Ho'). destruct (decide (o' = o)) as [->|].
    + rewrite fn_lookup_insert in Hn'. set_solver.
    + by rewrite fn_lookup_insert_ne in Hn'.
Qed.

Lemma flists_del h L o q : flists h L S E → 0 <= o <= 10 → q ∈ L o →
  ∃ h', list_del (Cell q) h = Done h' ∧ flists h' (<[o := rm q (L o)]> L) S E.
Proof.
  intros Hf Ho Hq. pose proof Hf as (σ & Hl & Hh & Hc).
  destruct (lists_del h σ (Cell q)) as (h' & E' & Hl' & _ & _); [done| |].
  { left. exists (Head o), (Cell <$> L o). split; [auto|by apply list_elem_of_fmap_2]. }
  exists h'. split; [done|]. exists (unlink (Cell q) σ). split; [done|]. split.
  - intros o' Ho'. rewrite unlink_lookup_ne, Hh by (done || congruence). simpl. rewrite rm_Cell. f_equal. f_equal.
    destruct (decide (o' = o)) as [->|Hne]; [by rewrite fn_lookup_insert|].
    rewrite fn_lookup_insert_ne by done. apply rm_notin. intros Hq'.
    by apply Hne, (flists_unique h L q).
  - intros q' Hq' Hn'. destruct (decide (q' = q)) as [->|Hne]; [apply unlink_lookup_e|].
    rewrite unlink_lookup_ne by congruence. rewrite Hc; [done|done|].
    intros o' Ho' Hin. apply (Hn' o' Ho'). destruct (decide (o' = o)) as [->|].
    + rewrite fn_lookup_insert. by apply list_elem_of_filter.
    + by rewrite fn_lookup_insert_ne.
Qed.
End flists.

(** ** Partitions of the pages into blocks

    A block [(i, o)] is the [2^o] pages from [i]. *)
Record part (P : Z → Z → Prop) (S F : Z) : Prop := mk_part {
  pt_range i o : P i o → 0 <= o <= 10 ∧ S <= i ∧ i + 2 ^ o <= F;
  pt_disj i o i' o' : P i o → P i' o' → (i = i' ∧ o = o') ∨ i + 2 ^ o <= i' ∨ i' + 2 ^ o' <= i;
  pt_cover q : S <= q < F → ∃ i o, P i o ∧ i <= q < i + 2 ^ o;
}.

Lemma pow2_pos o : 0 <= o → 0 < 2 ^ o.
Proof. intros. by apply Z.pow_pos_nonneg. Qed.

Lemma pow2_succ o : 0 <= o → 2 ^ (o + 1) = 2 ^ o + 2 ^ o.
Proof. intros. rewrite Z.pow_add_r by lia. lia. Qed.

Lemma part_iff P Q S F : (∀ i o, P i o ↔ Q i o) → part P S F → part Q S F.
Proof.
  intros HPQ [Hr Hd Hc]. split.
  - intros i o ?%HPQ. auto.
  - intros i o i' o' ?%HPQ ?%HPQ. auto.
  - intros q (i & o & ?%HPQ & ?)%Hc. eauto.
Qed.

(** Two blocks of a partition that share a page are equal. *)
Lemma part_same P S F i o i' o' q : part P S F → P i o → P i' o' →
  i <= q < i + 2 ^ o → i' <= q < i' + 2 ^ o' → i = i' ∧ o = o'.
Proof. intros Hp H1 H2 Hq1 Hq2. destruct (pt_disj _ _ _ Hp _ _ _ _ H1 H2) as [|[]]; [done|lia|lia]. Qed.

Lemma part_head P S F i o o' : part P S F → P i o → P i o' → o = o'.
Proof.
  intros Hp H1 H2. pose proof (pt_range _ _ _ Hp _ _ H1). pose proof (pt_range _ _ _ Hp _ _ H2).
  pose proof (pow2_pos o). pose proof (pow2_pos o').
  apply (part_same P S F i o i o' i); auto; lia.
Qed.

(** A block splits into its halves; two halves merge. *)
Lemma part_split P S F i c : part P S F → P i (c + 1) → 0 <= c →
  part (λ q o, (P q o ∧ q ≠ i) ∨ (q = i ∧ o = c) ∨ (q = i + 2 ^ c ∧ o = c)) S F.
Proof.
  intros Hp Hi Hc. pose proof (pow2_succ c Hc) as Hpow. pose proof (pow2_pos c Hc).
  pose proof (pt_range _ _ _ Hp _ _ Hi) as Hri.
  assert (Hother : ∀ q o, P q o → q ≠ i → q + 2 ^ o <= i ∨ i + 2 ^ (c + 1) <= q).
  { intros q o Hq Hne. destruct (pt_disj _ _ _ Hp _ _ _ _ Hi Hq) as [[]|[]]; [congruence|lia|lia]. }
  split.
  - intros q o [[Hq _]|[[-> ->]|[-> ->]]]; [by apply (pt_range _ _ _ Hp)|lia|lia].
  - intros q o q' o' [[Hq Hn]|[[-> ->]|[-> ->]]] [[Hq' Hn']|[[-> ->]|[-> ->]]];
      try (specialize (Hother _ _ Hq Hn)); try (specialize (Hother _ _ Hq' Hn')); try lia.
    by apply (pt_disj _ _ _ Hp).
  - intros q Hq. destruct (pt_cover _ _ _ Hp q Hq) as (j & o & Hj & Hqj).
    destruct (decide (j = i)) as [->|Hne]; [|exists j, o; auto].
    assert (o = c + 1) as -> by (eapply part_head; eauto).
    destruct (decide (q < i + 2 ^ c)); [exists i, c|exists (i + 2 ^ c), c]; split; auto; lia.
Qed.

Lemma part_merge P S F i j o : part P S F → P i o → P j o → j = i + 2 ^ o → 0 <= o < 10 →
  part (λ q o', (P q o' ∧ q ≠ i ∧ q ≠ j) ∨ (q = i ∧ o' = o + 1)) S F.
Proof.
  intros Hp Hi Hj -> Ho. pose proof (pow2_succ o ltac:(lia)) as Hpow. pose proof (pow2_pos o ltac:(lia)).
  pose proof (pt_range _ _ _ Hp _ _ Hi) as Hri. pose proof (pt_range _ _ _ Hp _ _ Hj) as Hrj.
  assert (Hother : ∀ q o', P q o' → q ≠ i → q ≠ i + 2 ^ o → q + 2 ^ o' <= i ∨ i + 2 ^ (o + 1) <= q).
  { intros q o' Hq Hne Hne'. pose proof (pt_range _ _ _ Hp _ _ Hq). pose proof (pow2_pos o' ltac:(lia)).
    destruct (pt_disj _ _ _ Hp _ _ _ _ Hi Hq) as [[]|[]]; [congruence| |lia].
    destruct (pt_disj _ _ _ Hp _ _ _ _ Hj Hq) as [[]|[]]; [congruence|lia|lia]. }
  split.
  - intros q o' [[Hq _]|[-> ->]]; [by apply (pt_range _ _ _ Hp)|lia].
  - intros q o1 q' o2 [(Hq & Hn & Hm)|[-> ->]] [(Hq' & Hn' & Hm')|[-> ->]];
      try (specialize (Hother _ _ Hq Hn Hm)); try (specialize (Hother _ _ Hq' Hn' Hm')); try lia.
    by apply (pt_disj _ _ _ Hp).
  - intros q Hq. destruct (pt_cover _ _ _ Hp q Hq) as (k & o' & Hk & Hqk).
    destruct (decide (k = i)) as [->|Hne].
    { assert (o' = o) as -> by (eapply part_head; eauto). exists i, (o + 1). split; [auto|lia]. }
    destruct (decide (k = i + 2 ^ o)) as [->|Hne'].
    { assert (o' = o) as -> by (eapply part_head; eauto). exists i, (o + 1). split; [auto|lia]. }
    exists k, o'. auto.
Qed.

Lemma part_grow P S F o : part P S F → 0 <= o <= 10 → S <= F →
  part (λ q o', P q o' ∨ (q = F ∧ o' = o)) S (F + 2 ^ o).
Proof.
  intros Hp Ho HS. pose proof (pow2_pos o ltac:(lia)). split.
  - intros q o' [Hq|[-> ->]]; [|lia]. pose proof (pt_range _ _ _ Hp _ _ Hq). lia.
  - intros q o1 q' o2 [Hq|[-> ->]] [Hq'|[-> ->]]; [by apply (pt_disj _ _ _ Hp)| | |lia].
    + pose proof (pt_range _ _ _ Hp _ _ Hq). lia.
    + pose proof (pt_range _ _ _ Hp _ _ Hq'). lia.
  - intros q Hq. destruct (decide (q < F)).
    + destruct (pt_cover _ _ _ Hp q ltac:(lia)) as (i & o' & ? & ?). eauto.
    + exists F, o. split; [auto|lia].
Qed.

(** ** The invariant

    [S]: the first page after the kernel; [E]: the last page; [F]: the frontier,
    below which the memory has been cut into blocks.  [A]: the blocks given to
    clients; [hand]: the block an operation is working on. *)
Section invariant.
Context (S E : Z).
Implicit Types (s : mm) (L : Z → list Z) (A : gset (Z * Z)) (hand : option (Z * Z)).

Definition isfree L (F i o : Z) : Prop := 0 <= o <= 10 ∧ i ∈ L o ∧ (o = 10 → i ≠ F).
Definition block L F A hand (i o : Z) : Prop := isfree L F i o ∨ (i, o) ∈ A ∨ hand = Some (i, o).
Definition covered A (q : Z) : Prop := ∃ i o, (i, o) ∈ A ∧ i <= q < i + 2 ^ o.

Record pgok L F A (q : Z) (pg : page) : Prop := mk_pgok {
  pk_resvd : flag_get PAGE_RESVD pg = false;
  pk_free o : isfree L F q o → flag_get PAGE_BUDDY pg = true ∧ private pg = o;
  pk_buddy : flag_get PAGE_BUDDY pg = true → private pg ≠ 10 → isfree L F q (private pg);
  pk_owned o : (q, o) ∈ A → flag_get PAGE_BUDDY pg = false;
  pk_count1 : covered A q → count pg = 1;
  pk_count0 : ¬ covered A q → count pg = 0;
}.

Record binv s L F A hand : Prop := mk_binv {
  bi_flists : flists (cells s) L S E;
  bi_front : F ∈ L 10;
  bi_base : buddy_map_base s = E + 1;
  bi_bounds : 512 <= S ∧ S <= F ∧ F <= E ∧ E <= 0x3FF00;
  bi_part : part (block L F A hand) S F;
  bi_page q : S <= q <= E → ∃ pg, pages s !! q = Some pg ∧ pgok L F A q pg;
  bi_low q : S - 512 <= q < S → ∃ pg, pages s !! q = Some pg ∧ flag_get PAGE_BUDDY pg = false;
  bi_len : length (mm_buddy_array s) = 11%nat;
  bi_num o b : 0 <= o < 10 → nthZ (mm_buddy_array s) o = Some b →
    free_num b = u32 (Z.of_nat (length (L o)));
  bi_hand i o : hand = Some (i, o) → (i, o) ∉ A ∧ ¬ isfree L F i o;
}.

Lemma isfree_unique h L F i o o' : flists h L S E → isfree L F i o → isfree L F i o' → o = o'.
Proof. intros Hf (? & ? & _) (? & ? & _). by eapply flists_unique. Qed.

Lemma bi_array s L F A hand o : binv s L F A hand → 0 <= o <= 10 →
  ∃ b, nthZ (mm_buddy_array s) o = Some b.
Proof. intros Hb Ho. apply nthZ_is_Some. rewrite (bi_len _ _ _ _ _ Hb). lia. Qed.

(** Members of the lists lie between [S] and the frontier. *)
Lemma list_range s L F A hand i o : binv s L F A hand → 0 <= o <= 10 → i ∈ L o →
  S <= i <= F ∧ (i = F ∨ isfree L F i o).
Proof.
  intros Hb Ho Hi. pose proof (bi_bounds _ _ _ _ _ Hb). destruct (decide (i = F)) as [->|Hne]; [split; [lia|auto]|].
  assert (Hf : isfree L F i o) by done.
  destruct (pt_range _ _ _ (bi_part _ _ _ _ _ Hb) i o) as (? & ? & ?); [by left|].
  pose proof (pow2_pos o ltac:(lia)). split; [lia|auto].
Qed.

(** *** The atomic steps of the operations *)

Definition rmvd (pg : page) : page := mk_page (Z.clearbit (flag pg) PAGE_BUDDY) (count pg) 0.
Definition ordered (o : Z) (pg : page) : page :=
  mk_page (Z.setbit (flag pg) PAGE_BUDDY) (count pg) (u32 o).

Lemma upd_page_done p f s pg : pages s !! p = Some pg →
  upd_page p f s = Done (set_pages (<[p := f pg]> (pages s)) s).
Proof. intros Hp. unfold upd_page, page_at. by rewrite Hp. Qed.

Lemma rmv_page_order_done p s pg : pages s !! p = Some pg →
  rmv_page_order p s = Done (set_pages (<[p := rmvd pg]> (pages s)) s).
Proof.
  intros Hp. unfold rmv_page_order. rewrite (upd_page_done _ _ _ _ Hp), bind_done.
  erewrite upd_page_done by (cbn [set_pages pages]; apply lookup_insert_eq).
  cbn [set_pages pages]. by rewrite insert_insert_eq.
Qed.

Lemma set_page_order_done p o s pg : pages s !! p = Some pg →
  set_page_order p o s = Done (set_pages (<[p := ordered o pg]> (pages s)) s).
Proof.
  intros Hp. unfold set_page_order. rewrite (upd_page_done _ _ _ _ Hp), bind_done.
  erewrite upd_page_done by (cbn [set_pages pages]; apply lookup_insert_eq).
  cbn [set_pages pages]. by rewrite insert_insert_eq.
Qed.

Lemma on_cells_done f s c : f (cells s) = Done c → on_cells f s = Done (set_cells c s).
Proof. intros Hf. unfold on_cells. by rewrite Hf. Qed.

Lemma add_free_num_done o d s b : nthZ (mm_buddy_array s) o = Some b →
  add_free_num o d s =
    Done (set_array (updZ (mm_buddy_array s) o (mk_buddy (order b) (u32 (free_num b + d)))) s).
Proof. intros Hb. unfold add_free_num. by rewrite Hb. Qed.

Lemma flag_get_clear pg : flag_get PAGE_BUDDY (rmvd pg) = false.
Proof. unfold flag_get, rmvd. cbn [flag]. apply Z.clearbit_eq. Qed.
Lemma flag_get_set o pg : flag_get PAGE_BUDDY (ordered o pg) = true.
Proof. unfold flag_get, ordered. cbn [flag]. by apply Z.setbit_eq. Qed.
Lemma flag_get_resvd_clear pg : flag_get PAGE_RESVD (rmvd pg) = flag_get PAGE_RESVD pg.
Proof. unfold flag_get, rmvd. cbn [flag]. by apply Z.clearbit_neq. Qed.
Lemma flag_get_resvd_set o pg : flag_get PAGE_RESVD (ordered o pg) = flag_get PAGE_RESVD pg.
Proof. unfold flag_get, ordered. cbn [flag]. by apply Z.setbit_neq. Qed.

(** The number of free blocks of one order changes with its list. *)
Lemma bi_num_upd s L F A hand o b d qs :
  binv s L F A hand → 0 <= o <= 10 → nthZ (mm_buddy_array s) o = Some b →
  Z.of_nat (length qs) = Z.of_nat (length (L o)) + d →
  ∀ o' b', 0 <= o' < 10 →
    nthZ (updZ (mm_buddy_array s) o (mk_buddy (order b) (u32 (free_num b + d)))) o' = Some b' →
    free_num b' = u32 (Z.of_nat (length ((<[o := qs]> L : Z → list Z) o'))).
Proof.
  intros Hb Ho Hn Hl o' b' Ho' Hn'. pose proof (bi_len _ _ _ _ _ Hb).
  destruct (decide (o' = o)) as [->|Hne].
  - rewrite nthZ_upd_eq in Hn' by lia. simplify_eq/=. rewrite fn_lookup_insert.
    rewrite (bi_num _ _ _ _ _ Hb _ _ Ho' Hn), Hl. unfold u32. by rewrite Zplus_mod_idemp_l.
  - rewrite nthZ_upd_ne in Hn' by done. rewrite fn_lookup_insert_ne by done.
    by apply (bi_num _ _ _ _ _ Hb).
Qed.

Lemma rm_length q (qs : list Z) : NoDup qs → q ∈ qs →
  Z.of_nat (length (rm q qs)) = Z.of_nat (length qs) + -1.
Proof.
  intros Hn (xs & ys & ->)%list_elem_of_split. rewrite rm_mid by done. rewrite !length_app. simpl. lia.
Qed.

(** *** Taking a block off its list *)

Lemma isfree_rm h L F b c q o : flists h L S E → isfree L F b c →
  isfree (<[c := rm b (L c)]> L) F q o ↔ isfree L F q o ∧ q ≠ b.
Proof.
  intros Hf Hb. pose proof Hb as (Hc & Hbc & HbF). unfold isfree.
  destruct (decide (o = c)) as [->|Hne].
  - rewrite fn_lookup_insert. unfold rm. rewrite list_elem_of_filter. tauto.
  - rewrite fn_lookup_insert_ne by done. split; [|tauto]. intros (Ho & Hq & HqF).
    split; [done|]. intros ->. apply Hne. by eapply (flists_unique S E h L b).
Qed.

Lemma step_remove s L F A hand hand' b c :
  binv s L F A hand → isfree L F b c →
  part (block (<[c := rm b (L c)]> L) F A hand') S F → (∀ i o, hand' = Some (i, o) → (i, o) ∉ A ∧ ¬ isfree (<[c := rm b (L c)]> L) F i o) →
  ∃ s', binv s' (<[c := rm b (L c)]> L) F A hand' ∧
    (∀ B (K : mm → outcome B),
      (s ← on_cells (list_del (Cell b)) s; s ← rmv_page_order b s; s ← add_free_num c (-1) s; K s)
        = K s') ∧
    (∀ B (K : mm → outcome B),
      (s ← on_cells (list_del (Cell b)) s; s ← add_free_num c (-1) s; s ← rmv_page_order b s; K s)
        = K s') ∧
    (∃ pg, pages s' !! b = Some pg ∧ flag_get PAGE_BUDDY pg = false) ∧
    (∀ q, q ≠ b → pages s' !! q = pages s !! q).
Proof.
  intros Hb Hfree Hpart Hhand. pose proof (bi_flists _ _ _ _ _ Hb) as Hf.
  pose proof Hfree as (Hc & Hbc & HbF).
  destruct (list_range _ _ _ _ _ _ _ Hb Hc Hbc) as [HrS _]. pose proof (bi_bounds _ _ _ _ _ Hb).
  destruct (flists_del S E _ L c b Hf Hc Hbc) as (h' & Ed & Hf').
  destruct (bi_page _ _ _ _ _ Hb b ltac:(lia)) as (pg & Hpg & Hok).
  destruct (bi_array _ _ _ _ _ c Hb Hc) as [bd Hbd].
  exists (mk_mm (<[b := rmvd pg]> (pages s)) h'
    (updZ (mm_buddy_array s) c (mk_buddy (order bd) (u32 (free_num bd + -1))))
    (lowmem_pages s) (buddy_map_base s) (kern_mem_end s)).
  split; [|split; [|split; [|split]]].
  - constructor; cbn [cells pages mm_buddy_array buddy_map_base]; try apply Hb; try done.
    + destruct (decide (c = 10)) as [->|]; [|rewrite fn_lookup_insert_ne by done; apply Hb].
      rewrite fn_lookup_insert. apply list_elem_of_filter. split; [|apply Hb].
      intros ->. by apply HbF.
    + intros q Hq. destruct (decide (q = b)) as [->|Hne].
      * exists (rmvd pg). rewrite lookup_insert_eq. split; [done|]. destruct Hok as [K1 K2 K3 K4 K5 K6].
        split; rewrite ?flag_get_clear, ?flag_get_resvd_clear; try done.
        intros o. rewrite (isfree_rm _ _ _ _ _ _ _ Hf Hfree). by intros [].
      * destruct (bi_page _ _ _ _ _ Hb q Hq) as (pg' & Hpg' & [K1 K2 K3 K4 K5 K6]).
        exists pg'. rewrite lookup_insert_ne by done. split; [done|].
        split; try done; intros *; rewrite (isfree_rm _ _ _ _ _ _ _ Hf Hfree); naive_solver.
    + intros q Hq. rewrite lookup_insert_ne by lia. by apply (bi_low _ _ _ _ _ Hb).
    + rewrite updZ_length. apply Hb.
    + eapply bi_num_upd; [done|done|done|]. apply rm_length; [by eapply flists_nodup|done].
  - intros B K. rewrite (on_cells_done _ _ _ Ed), bind_done.
    erewrite rmv_page_order_done by exact Hpg. rewrite bind_done.
    erewrite add_free_num_done by exact Hbd. by rewrite bind_done.
  - intros B K. rewrite (on_cells_done _ _ _ Ed), bind_done.
    erewrite add_free_num_done by exact Hbd. rewrite bind_done.
    erewrite rmv_page_order_done by exact Hpg. by rewrite bind_done.
  - cbn [pages]. exists (rmvd pg). rewrite lookup_insert_eq. split; [done|apply flag_get_clear].
  - intros q Hq. cbn [pages]. by rewrite lookup_insert_ne.
Qed.

(** *** Putting a block on a list *)

Lemma isfree_add L F j c q o : 0 <= c <= 10 → (c = 10 → j ≠ F) →
  isfree (<[c := j :: L c]> L) F q o ↔ isfree L F q o ∨ (q = j ∧ o = c).
Proof.
  intros Hc HjF. unfold isfree. destruct (decide (o = c)) as [->|Hne].
  - rewrite fn_lookup_insert, elem_of_cons. naive_solver.
  - rewrite fn_lookup_insert_ne by done. naive_solver.
Qed.

Lemma step_insert s L F A hand hand' j c :
  binv s L F A hand → 0 <= c <= 10 → S <= j < F → (∀ o, 0 <= o <= 10 → j ∉ L o) →
  (∀ o, (j, o) ∉ A) →
  part (block (<[c := j :: L c]> L) F A hand') S F → (∀ i o, hand' = Some (i, o) → (i, o) ∉ A ∧ ¬ isfree (<[c := j :: L c]> L) F i o) →
  ∃ s', binv s' (<[c := j :: L c]> L) F A hand' ∧
    (∀ B (K : mm → outcome B),
      (s ← on_cells (list_add (Head c) (Cell j)) s; s ← add_free_num c 1 s; s ← set_page_order j c s; K s)
        = K s') ∧
    (s ← set_page_order j c s; s ← on_cells (list_add (Head c) (Cell j)) s; add_free_num c 1 s)
        = Done s' ∧
    (∀ q, q ≠ j → pages s' !! q = pages s !! q).
Proof.
  intros Hb Hc Hj Hn HA Hpart Hhand. pose proof (bi_flists _ _ _ _ _ Hb) as Hf.
  pose proof (bi_bounds _ _ _ _ _ Hb).
  destruct (flists_add S E _ L c j Hf Hc ltac:(lia) Hn) as (h' & Ed & Hf').
  destruct (bi_page _ _ _ _ _ Hb j ltac:(lia)) as (pg & Hpg & Hok).
  destruct (bi_array _ _ _ _ _ c Hb Hc) as [bd Hbd].
  assert (Hadd : ∀ q o, isfree (<[c := j :: L c]> L) F q o ↔ isfree L F q o ∨ (q = j ∧ o = c)).
  { intros. apply isfree_add; [done|lia]. }
  exists (mk_mm (<[j := ordered c pg]> (pages s)) h'
    (updZ (mm_buddy_array s) c (mk_buddy (order bd) (u32 (free_num bd + 1))))
    (lowmem_pages s) (buddy_map_base s) (kern_mem_end s)).
  split; [|split; [|split]].
  - constructor; cbn [cells pages mm_buddy_array buddy_map_base]; try apply Hb; try done.
    + destruct (decide (c = 10)) as [->|]; [|rewrite fn_lookup_insert_ne by done; apply Hb].
      rewrite fn_lookup_insert. apply elem_of_cons. right. apply Hb.
    + intros q Hq. destruct (decide (q = j)) as [->|Hne].
      * exists (ordered c pg). rewrite lookup_insert_eq. split; [done|]. destruct Hok as [K1 K2 K3 K4 K5 K6].
        split; rewrite ?flag_get_set, ?flag_get_resvd_set; try done.
        -- intros o [(Ho & Hin & _)|[_ ->]]%Hadd; [by destruct (Hn o Ho)|].
           split; [done|]. cbn [ordered private]. by rewrite u32_small by lia.
        -- intros _ _. apply Hadd. right. split; [done|]. cbn [ordered private]. by rewrite u32_small by lia.
        -- intros o Ho. by destruct (HA o).
      * destruct (bi_page _ _ _ _ _ Hb q Hq) as (pg' & Hpg' & [K1 K2 K3 K4 K5 K6]).
        exists pg'. rewrite lookup_insert_ne by done. split; [done|].
        split; try done; intros *; rewrite Hadd; naive_solver.
    + intros q Hq. rewrite lookup_insert_ne by lia. by apply (bi_low _ _ _ _ _ Hb).
    + rewrite updZ_length. apply Hb.
    + eapply bi_num_upd; [done|done|done|]. simpl. lia.
  - intros B K. rewrite (on_cells_done _ _ _ Ed), bind_done.
    erewrite add_free_num_done by exact Hbd. rewrite bind_done.
    erewrite set_page_order_done by exact Hpg. by rewrite bind_done.
  - erewrite set_page_order_done by exact Hpg. rewrite bind_done.
    erewrite on_cells_done by exact Ed. rewrite bind_done.
    by erewrite add_free_num_done by exact Hbd.
  - intros q Hq. cbn [pages]. by rewrite lookup_insert_ne.
Qed.

(** *** Moving the frontier *)

Definition advance L (F : Z) : Z → list Z := <[10 := (F + 1024) :: rm F (L 10)]> L.

Lemma isfree_advance s L F A q o : binv s L F A None →
  isfree (advance L F) (F + 1024) q o ↔ isfree L F q o.
Proof.
  intros Hb. unfold isfree, advance. destruct (decide (o = 10)) as [->|Hne].
  - rewrite fn_lookup_insert, elem_of_cons. unfold rm. rewrite list_elem_of_filter. split.
    + intros (Ho & [->|[Hq Hin]] & HF); [by destruct HF|]. split; [done|split; [done|]].
      intros _ ->. by apply Hq.
    + intros (Ho & Hin & HF). destruct (list_range _ _ _ _ _ _ _ Hb Ho Hin) as [Hr _].
      split; [done|split; [|lia]]. right. split; [by apply HF|done].
  - rewrite fn_lookup_insert_ne by done. split; intros (? & ? & ?); (split; [done|split; [done|lia]]).
Qed.

Lemma step_frontier s L F A :
  binv s L F A None → F + 1024 <= E →
  ∃ s0 s', binv s' (advance L F) (F + 1024) A (Some (F, 10)) ∧
    (∀ B (K : mm → outcome B),
      (s ← on_cells (list_del (Cell F)) s; s ← rmv_page_order F s; s ← add_free_num 10 (-1) s; K s)
        = K s0) ∧
    on_cells (list_add (Head 10) (Cell (F + 1024))) s0 = Done s' ∧
    (∃ pg, pages s' !! F = Some pg ∧ flag_get PAGE_BUDDY pg = false) ∧
    (∀ q, q ≠ F → pages s' !! q = pages s !! q).
Proof.
  intros Hb HE. pose proof (bi_flists _ _ _ _ _ Hb) as Hf. pose proof (bi_bounds _ _ _ _ _ Hb).
  pose proof (bi_front _ _ _ _ _ Hb) as HF. pose proof (bi_part _ _ _ _ _ Hb) as Hp.
  destruct (flists_del S E _ L 10 F Hf ltac:(lia) HF) as (h1 & Ed & Hf1).
  destruct (flists_add S E h1 _ 10 (F + 1024) Hf1 ltac:(lia) ltac:(lia)) as (h2 & Ea & Hf2).
  { intros o Ho. destruct (decide (o = 10)) as [->|].
    - rewrite fn_lookup_insert. intros [_ Hin]%list_elem_of_filter.
      apply (list_range _ _ _ _ _ _ _ Hb) in Hin; lia.
    - rewrite fn_lookup_insert_ne by done. intros Hin.
      apply (list_range _ _ _ _ _ _ _ Hb) in Hin; lia. }
  destruct (bi_page _ _ _ _ _ Hb F ltac:(lia)) as (pg & Hpg & Hok).
  destruct (bi_array _ _ _ _ _ 10 Hb ltac:(lia)) as [bd Hbd].
  assert (HnA : ∀ q o, (q, o) ∈ A → S <= q ∧ q < F).
  { intros q o Hq. destruct (pt_range _ _ _ Hp q o) as (? & ? & ?); [by right; left|].
    pose proof (pow2_pos o ltac:(lia)). lia. }
  exists (mk_mm (<[F := rmvd pg]> (pages s)) h1
    (updZ (mm_buddy_array s) 10 (mk_buddy (order bd) (u32 (free_num bd + -1))))
    (lowmem_pages s) (buddy_map_base s) (kern_mem_end s)),
   (mk_mm (<[F := rmvd pg]> (pages s)) h2
    (updZ (mm_buddy_array s) 10 (mk_buddy (order bd) (u32 (free_num bd + -1))))
    (lowmem_pages s) (buddy_map_base s) (kern_mem_end s)).
  split; [|split; [|split; [|split]]].
  - constructor; cbn [cells pages mm_buddy_array buddy_map_base]; try apply Hb; try done.
    + destruct Hf2 as (σ & Hσ & Hh & Hc). exists σ. split; [done|]. split.
      * intros o Ho. rewrite (Hh o Ho). unfold advance. destruct (decide (o = 10)) as [->|].
        -- by rewrite !fn_lookup_insert.
        -- by rewrite !fn_lookup_insert_ne.
      * intros q Hq Hn. apply (Hc q Hq). intros o Ho Hin. apply (Hn o Ho). revert Hin. unfold advance.
        destruct (decide (o = 10)) as [->|]; [by rewrite !fn_lookup_insert|by rewrite !fn_lookup_insert_ne].
    + unfold advance. rewrite fn_lookup_insert. set_solver.
    + lia.
    + eapply part_iff; [|apply (part_grow _ _ _ 10 Hp); lia]. intros q o. unfold block.
      rewrite (isfree_advance s) by done. change (2 ^ 10) with 1024.
      split; [intros [[|[|?]]|[-> ->]]|intros [|[|?]]]; naive_solver.
    + intros q Hq. destruct (decide (q = F)) as [->|Hne].
      * exists (rmvd pg). rewrite lookup_insert_eq. split; [done|]. destruct Hok as [K1 K2 K3 K4 K5 K6].
        split; rewrite ?flag_get_clear, ?flag_get_resvd_clear; try done.
        intros o. rewrite (isfree_advance s) by done. intros Hfr. exfalso.
        destruct (pt_range _ _ _ Hp F o) as (? & ? & ?); [by left|]. pose proof (pow2_pos o ltac:(lia)). lia.
      * destruct (bi_page _ _ _ _ _ Hb q Hq) as (pg' & Hpg' & [K1 K2 K3 K4 K5 K6]).
        exists pg'. rewrite lookup_insert_ne by done. split; [done|].
        split; try done; intros *; rewrite (isfree_advance s) by done; auto.
    + intros q Hq. rewrite lookup_insert_ne by lia. by apply (bi_low _ _ _ _ _ Hb).
    + rewrite updZ_length. apply Hb.
    + intros o b Ho. rewrite nthZ_upd_ne by lia. unfold advance. rewrite fn_lookup_insert_ne by lia.
      by apply (bi_num _ _ _ _ _ Hb).
    + intros i o [= <- <-]. split; [intros HA; apply HnA in HA; lia|].
      rewrite (isfree_advance s) by done. intros (? & ? & HFF). by apply HFF.
  - intros B K. rewrite (on_cells_done _ _ _ Ed), bind_done.
    erewrite rmv_page_order_done by exact Hpg. rewrite bind_done.
    erewrite add_free_num_done by exact Hbd. by rewrite bind_done.
  - by erewrite on_cells_done by exact Ea.
  - cbn [pages]. exists (rmvd pg). rewrite lookup_insert_eq. split; [done|apply flag_get_clear].
  - intros q Hq. cbn [pages]. by rewrite lookup_insert_ne.
Qed.

(** *** Splitting *)

(** A page inside a block that is not its head is on no list. *)
Lemma inside_not_listed s L F A i c j : binv s L F A (Some (i, c)) → 0 <= c →
  i < j < i + 2 ^ c → (∀ o, 0 <= o <= 10 → j ∉ L o) ∧ (∀ o, (j, o) ∉ A) ∧ S <= j < F.
Proof.
  intros Hb Hc Hj. pose proof (bi_part _ _ _ _ _ Hb) as Hp.
  assert (Hi : block L F A (Some (i, c)) i c) by (by right; right).
  destruct (pt_range _ _ _ Hp _ _ Hi) as (? & ? & ?).
  assert (Hn : ∀ o, ¬ block L F A (Some (i, c)) j o).
  { intros o Ho. destruct (pt_range _ _ _ Hp _ _ Ho) as (? & ? & ?). pose proof (pow2_pos o ltac:(lia)).
    destruct (part_same _ _ _ i c j o j Hp Hi Ho); lia. }
  split; [|split; [intros o Ho; apply (Hn o); by right; left|lia]].
  intros o Ho Hin. destruct (list_range _ _ _ _ _ _ _ Hb Ho Hin) as [_ [->|Hfr]]; [lia|].
  apply (Hn o). by left.
Qed.

Lemma split_step s L F A i c : binv s L F A (Some (i, c + 1)) → 0 <= c →
  ∃ s' L', binv s' L' F A (Some (i, c)) ∧
    (∀ B (K : mm → outcome B),
      (s ← on_cells (list_add (Head c) (Cell (i + 2 ^ c))) s; s ← add_free_num c 1 s;
       s ← set_page_order (i + 2 ^ c) c s; K s) = K s') ∧
    (∀ q, q ≠ i + 2 ^ c → pages s' !! q = pages s !! q).
Proof.
  intros Hb Hc. pose proof (pow2_pos c Hc). pose proof (pow2_succ c Hc).
  pose proof (bi_part _ _ _ _ _ Hb) as Hp.
  assert (Hi : block L F A (Some (i, c + 1)) i (c + 1)) by (by right; right).
  destruct (pt_range _ _ _ Hp _ _ Hi) as (Hr & ? & ?).
  destruct (inside_not_listed _ _ _ _ _ _ (i + 2 ^ c) Hb ltac:(lia) ltac:(lia)) as (Hn & HA & Hj).
  destruct (step_insert s L F A _ (Some (i, c)) (i + 2 ^ c) c Hb) as (s' & Hb' & Hk & _ & Hpg);
    [lia|done|done|done| | |by eauto].
  - eapply part_iff; [|by apply (part_split _ _ _ _ _ Hp Hi)]. intros q o. unfold block.
    rewrite isfree_add by lia. split.
    + intros [[[?|[?|[= <- <-]]] ?]|[[-> ->]|[-> ->]]]; auto; lia.
    + assert (∀ o', (q, o') ∈ A ∨ isfree L F q o' → q ≠ i).
      { intros o' Ho' ->. assert (o' = c + 1) as ->.
        { eapply (part_head _ _ _ i); [exact Hp|destruct Ho'; [by right; left|by left]|done]. }
        destruct (bi_hand _ _ _ _ _ Hb _ _ eq_refl). by destruct Ho'. }
      intros [[?|[-> ->]]|[?|[= <- <-]]]; naive_solver.
  - intros i' o' [= <- <-]. split.
    + intros HAi. assert (c = c + 1); [|lia].
      eapply (part_head _ _ _ i); [exact Hp|by right; left|done].
    + rewrite isfree_add by lia. intros [Hfr|]; [|lia]. assert (c = c + 1); [|lia].
      eapply (part_head _ _ _ i); [exact Hp|by left|done].
Qed.

(** *** [expand] and [buddy_alloc] *)

Lemma shiftr_pow2 c : 0 <= c → Z.shiftr (2 ^ (c + 1)) 1 = 2 ^ c.
Proof.
  intros. rewrite Z.shiftr_div_pow2, Z.pow_add_r by lia. change (2 ^ 1) with 2. by rewrite Z.div_mul.
Qed.

Lemma expand_loop_spec n s L F A i o : binv s L F A (Some (i, o + Z.of_nat n)) → 0 <= o →
  ∃ s' L', expand_loop n i (2 ^ (o + Z.of_nat n)) (o + Z.of_nat n) s = Done s' ∧
    binv s' L' F A (Some (i, o)) ∧ pages s' !! i = pages s !! i.
Proof.
  revert s L. induction n as [|n IH]; intros s L Hb Ho.
  - rewrite Z.add_0_r in *. exists s, L. done.
  - rewrite Nat2Z.inj_succ in Hb |- *.
    replace (o + Z.succ (Z.of_nat n)) with (o + Z.of_nat n + 1) in Hb |- * by lia.
    set (c := o + Z.of_nat n) in *. cbn [expand_loop]. replace (c + 1 - 1) with c by lia.
    rewrite shiftr_pow2 by lia. pose proof (pow2_pos c ltac:(lia)).
    destruct (split_step _ _ _ _ _ _ Hb ltac:(lia)) as (s1 & L1 & Hb1 & -> & Hpg).
    destruct (IH s1 L1 Hb1 Ho) as (s2 & L2 & E2 & Hb2 & Hpg2).
    exists s2, L2. split; [done|]. split; [done|]. rewrite Hpg2. apply Hpg. lia.
Qed.

Lemma expand_spec s L F A i c o : binv s L F A (Some (i, c)) → 0 <= o <= c → c < 10 →
  ∃ s' L', expand i o c s = Done (i, s') ∧ binv s' L' F A (Some (i, o)) ∧
    pages s' !! i = pages s !! i.
Proof.
  intros Hb Ho Hc. unfold expand, BUDDY_CHUNK_NUM.
  rewrite (proj2 (Z.eqb_neq c (11 - 1))) by lia. rewrite bind_done, Z.shiftl_1_l.
  rewrite u32_small by (split; [apply Z.pow_nonneg; lia|apply Z.pow_lt_mono_r; lia]).
  destruct (expand_loop_spec (Z.to_nat (c - o)) s L F A i o) as (s' & L' & Ee & ? & ?);
    [by replace (o + Z.of_nat (Z.to_nat (c - o))) with c by lia|lia|].
  replace (o + Z.of_nat (Z.to_nat (c - o))) with c in Ee by lia. rewrite Ee, bind_done. eauto.
Qed.

Lemma expand_10_spec s s1 L F A o : 0 <= o <= 10 →
  binv s1 L (F + 1024) A (Some (F, 10)) →
  on_cells (list_add (Head 10) (Cell (F + 1024))) s = Done s1 →
  ∃ s' L', expand F o 10 s = Done (F, s') ∧ binv s' L' (F + 1024) A (Some (F, o)) ∧
    pages s' !! F = pages s1 !! F.
Proof.
  intros Ho Hb Ea. unfold expand. change (10 =? BUDDY_CHUNK_NUM - 1) with true. cbn iota.
  change (u32 (Z.shiftl 1 10)) with 1024. rewrite Ea, bind_done.
  destruct (expand_loop_spec (Z.to_nat (10 - o)) s1 L (F + 1024) A F o) as (s' & L' & Ee & ? & ?);
    [by replace (o + Z.of_nat (Z.to_nat (10 - o))) with 10 by lia|lia|].
  replace (o + Z.of_nat (Z.to_nat (10 - o))) with 10 in Ee by lia. change (2 ^ 10) with 1024 in Ee.
  rewrite Ee, bind_done. eauto.
Qed.

(** Whether the next allocation of order [o] can be served without cutting up a
    block of the greatest order that has been given back: by a smaller block, or by
    the frontier when it is alone on its list and not at the end of the memory. *)
Definition served L (F o : Z) : Prop :=
  (∃ c, o <= c < 10 ∧ L c ≠ []) ∨ ((∀ q, q ∈ L 10 → q = F) ∧ F + 1024 <= E).

Lemma take_from s L F A b c : binv s L F A None → isfree L F b c →
  ∃ s', binv s' (<[c := rm b (L c)]> L) F A (Some (b, c)) ∧
    (∀ B (K : mm → outcome B),
      (s ← on_cells (list_del (Cell b)) s; s ← rmv_page_order b s; s ← add_free_num c (-1) s; K s)
        = K s') ∧
    (∃ pg, pages s' !! b = Some pg ∧ flag_get PAGE_BUDDY pg = false).
Proof.
  intros Hb Hfr. pose proof (bi_flists _ _ _ _ _ Hb) as Hf. pose proof (bi_part _ _ _ _ _ Hb) as Hp.
  assert (HnA : ∀ o, (b, o) ∉ A).
  { intros o HA. assert (o = c) as ->
      by (eapply (part_head _ _ _ b); [exact Hp|by right; left|by left]).
    destruct (pt_range _ _ _ Hp b c) as (? & ? & ?); [by left|].
    pose proof (pow2_pos c ltac:(lia)). pose proof (bi_bounds _ _ _ _ _ Hb).
    destruct (bi_page _ _ _ _ _ Hb b ltac:(lia)) as (pg & _ & [_ K2 _ K4 _ _]).
    destruct (K2 c Hfr) as [Hx _]. by rewrite (K4 _ HA) in Hx. }
  destruct (step_remove s L F A None (Some (b, c)) b c Hb Hfr) as (s' & Hb' & Hk & _ & Hpg & _);
    [| |by eauto].
  - eapply part_iff; [|exact Hp]. intros q o. unfold block. rewrite (isfree_rm _ _ _ _ _ _ _ Hf Hfr). split.
    + intros [Hq|[?|?]]; [|by auto|done]. destruct (decide (q = b)) as [->|]; [|by auto].
      assert (o = c) as -> by (by eapply isfree_unique). auto.
    + intros [[? _]|[?|[= <- <-]]]; auto.
  - intros i o [= <- <-]. split; [apply HnA|]. rewrite (isfree_rm _ _ _ _ _ _ _ Hf Hfr). tauto.
Qed.

Lemma buddy_alloc_loop_spec n s L F A o c : binv s L F A None →
  0 <= o → o <= c → c <= 10 → c + Z.of_nat n = 11 →
  (∀ c', o <= c' < c → L c' = []) → served L F o →
  ∃ p s' L' F', buddy_alloc_loop n o c s = Done (Some p, s') ∧
    binv s' L' F' A (Some (p, o)) ∧ (∃ pg, pages s' !! p = Some pg ∧ flag_get PAGE_BUDDY pg = false) ∧
    F <= F' <= F + 1024.
Proof.
  revert c. induction n as [|n IH]; intros c Hb Ho Hoc Hc Hn Hlow Hs; [lia|].
  cbn [buddy_alloc_loop]. pose proof (bi_flists _ _ _ _ _ Hb) as Hf.
  rewrite (flists_is_empty _ _ _ _ _ Hf) by lia. rewrite bind_done.
  destruct (L c) as [|q qs] eqn:EL.
  - rewrite bool_decide_true by done. assert (c ≠ 10).
    { intros ->. pose proof (bi_front _ _ _ _ _ Hb) as HF. rewrite EL in HF. by apply not_elem_of_nil in HF. }
    apply IH; try done; try lia. intros c' Hc'. destruct (decide (c' = c)) as [->|]; [done|apply Hlow; lia].
  - rewrite bool_decide_false by done. rewrite (flists_first _ _ _ _ c _ _ Hf ltac:(lia) EL), bind_done.
    cbn [container_of]. rewrite bind_done.
    assert (Hq : q ∈ L c) by (rewrite EL; set_solver).
    destruct (decide (c = 10)) as [->|Hc10].
    + destruct Hs as [(c' & Hc' & Hne)|[HF HE]]; [by rewrite Hlow in Hne by lia|].
      apply HF in Hq as ->.
      destruct (step_frontier _ _ _ _ Hb HE) as (s0 & s1 & Hb1 & -> & Ea & (pg & Hpg & Hfl) & _).
      destruct (expand_10_spec s0 s1 _ _ _ o ltac:(lia) Hb1 Ea) as (s' & L' & -> & Hb' & Hp).
      rewrite bind_done. eexists F, s', L', _. split; [done|]. split; [done|]. split; [|lia].
      exists pg. by rewrite Hp.
    + assert (Hfr : isfree L F q c) by (split; [lia|split; [done|lia]]).
      destruct (take_from _ _ _ _ _ _ Hb Hfr) as (s1 & Hb1 & -> & (pg & Hpg & Hfl)).
      destruct (expand_spec s1 _ _ _ _ _ o Hb1) as (s' & L' & -> & Hb' & Hp); [lia|lia|].
      rewrite bind_done. exists q, s', L', F. split; [done|]. split; [done|]. split; [|lia].
      exists pg. by rewrite Hp.
Qed.

Lemma buddy_alloc_spec s L F A o : binv s L F A None → 0 <= o <= 10 → served L F o →
  ∃ p s' L' F', buddy_alloc o s = Done (Some p, s') ∧
    binv s' L' F' A (Some (p, o)) ∧ (∃ pg, pages s' !! p = Some pg ∧ flag_get PAGE_BUDDY pg = false) ∧
    F <= F' <= F + 1024.
Proof.
  intros. unfold buddy_alloc, BUDDY_CHUNK_NUM. apply (buddy_alloc_loop_spec _ s L F A); try done; lia.
Qed.

(** *** The reference counts of the pages of a block *)

Lemma foldM_pages (f : page → page) (g : Z → mm → outcome mm) (Q : page → Prop) i (n : nat) s :
  (∀ j s pg, pages s !! (i + j) = Some pg → Q pg →
     g j s = Done (set_pages (<[i + j := f pg]> (pages s)) s)) →
  (∀ j, 0 <= j < Z.of_nat n → ∃ pg, pages s !! (i + j) = Some pg ∧ Q pg) →
  ∃ m, foldM g (seqZ 0 (Z.of_nat n)) s = Done (set_pages m s) ∧
    ∀ q, m !! q = if decide (i <= q < i + Z.of_nat n) then f <$> pages s !! q else pages s !! q.
Proof.
  intros Hg Hpg. enough (Hk : ∀ (k : nat) (a : Z) (s : mm), 0 <= a → a + Z.of_nat k = Z.of_nat n →
    (∀ j, a <= j < Z.of_nat n → ∃ pg, pages s !! (i + j) = Some pg ∧ Q pg) →
    ∃ m, foldM g (seqZ a (Z.of_nat k)) s = Done (set_pages m s) ∧
      ∀ q, m !! q = if decide (i + a <= q < i + Z.of_nat n) then f <$> pages s !! q else pages s !! q).
  { destruct (Hk n 0 s ltac:(lia) ltac:(lia)) as (m & E1 & Hm); [naive_solver lia|].
    exists m. split; [done|]. intros q. rewrite Hm. by rewrite Z.add_0_r. }
  clear Hpg s. induction k as [|k IH]; intros a s Ha Hk Hpg.
  - exists (pages s). split; [by destruct s|]. intros q. rewrite decide_False by lia. done.
  - rewrite seqZ_cons by lia. cbn [foldM]. destruct (Hpg a ltac:(lia)) as (pg & Hp & HQ).
    rewrite (Hg _ _ _ Hp HQ), bind_done. rewrite Nat2Z.inj_succ, Z.pred_succ.
    destruct (IH (Z.succ a) (set_pages (<[i + a:=f pg]> (pages s)) s)) as (m & E1 & Hm);
      [lia|lia|..].
    { intros j Hj. cbn [set_pages pages]. rewrite lookup_insert_ne by lia. apply Hpg. lia. }
    exists m. split; [by rewrite E1; destruct s|]. intros q. rewrite Hm. cbn [set_pages pages].
    destruct (decide (q = i + a)) as [->|].
    + rewrite decide_False, decide_True, lookup_insert_eq, Hp by lia. done.
    + rewrite lookup_insert_ne by done. repeat case_decide; done || lia.
Qed.

Lemma covered_add A p o q : covered ({[(p, o)]} ∪ A) q ↔ p <= q < p + 2 ^ o ∨ covered A q.
Proof.
  unfold covered. split.
  - intros (i & o' & [[= -> ->]%elem_of_singleton|?]%elem_of_union & ?); eauto.
  - intros [?|(i & o' & ? & ?)]; [exists p, o|exists i, o']; set_solver.
Qed.

Lemma hand_uncovered s L F A p o q : binv s L F A (Some (p, o)) → p <= q < p + 2 ^ o → ¬ covered A q.
Proof.
  intros Hb Hq (i & o' & HA & Hq'). pose proof (bi_part _ _ _ _ _ Hb) as Hp.
  destruct (part_same _ _ _ p o i o' q Hp) as [-> ->]; [by right; right|by right; left|done|done|].
  by destruct (bi_hand _ _ _ _ _ Hb _ _ eq_refl).
Qed.

Definition count_up (pg : page) : page := with_count (count pg + 1) pg.
Definition count_down (pg : page) : page := with_count (count pg - 1) pg.

Lemma own_step s L F A p o m : binv s L F A (Some (p, o)) →
  (∃ pg, pages s !! p = Some pg ∧ flag_get PAGE_BUDDY pg = false) →
  (∀ q, m !! q = if decide (p <= q < p + 2 ^ o) then count_up <$> pages s !! q else pages s !! q) →
  binv (set_pages m s) L F ({[(p, o)]} ∪ A) None.
Proof.
  intros Hb (pg0 & Hpg0 & Hfl0) Hm. pose proof (bi_part _ _ _ _ _ Hb) as Hp.
  destruct (pt_range _ _ _ Hp p o) as (Ho & HS & HF); [by right; right|].
  constructor; cbn [set_pages cells pages mm_buddy_array buddy_map_base]; try apply Hb; try done.
  - eapply part_iff; [|exact Hp]. intros q o'. unfold block. rewrite elem_of_union, elem_of_singleton.
    naive_solver.
  - intros q Hq. destruct (bi_page _ _ _ _ _ Hb q Hq) as (pg & Hpg & [K1 K2 K3 K4 K5 K6]).
    rewrite Hm, Hpg. case_decide as Hin.
    + exists (count_up pg). split; [done|].
      assert (count pg = 0) as Hc0 by (by apply K6, (hand_uncovered s L F A p o)).
      split; try done.
      * intros o' [[= -> ->]%elem_of_singleton|?]%elem_of_union; [|by eapply K4].
        assert (pg = pg0) as -> by congruence. done.
      * intros _. unfold count_up, with_count. cbn [count]. rewrite Hc0. done.
      * rewrite covered_add. tauto.
    + exists pg. split; [done|]. split; try done.
      * intros o' [[= -> ->]%elem_of_singleton|?]%elem_of_union; [|by eapply K4].
        assert (pg = pg0) as -> by congruence. done.
      * rewrite covered_add. tauto.
      * rewrite covered_add. tauto.
  - intros q Hq. rewrite Hm, decide_False by lia. by apply (bi_low _ _ _ _ _ Hb).
Qed.

Lemma covered_remove s L F A p o q : binv s L F A None → (p, o) ∈ A →
  covered (A ∖ {[(p, o)]}) q ↔ covered A q ∧ ¬ p <= q < p + 2 ^ o.
Proof.
  intros Hb HA. pose proof (bi_part _ _ _ _ _ Hb) as Hp. unfold covered. split.
  - intros (i & o' & [Hi Hne]%elem_of_difference & Hq). split; [eauto|]. intros Hq'.
    destruct (part_same _ _ _ p o i o' q Hp) as [-> ->]; [by right; left|by right; left|done|done|].
    set_solver.
  - intros [(i & o' & Hi & Hq) Hn]. exists i, o'. split; [|done].
    apply elem_of_difference. split; [done|]. intros [= -> ->]%elem_of_singleton. done.
Qed.

Lemma disown_step s L F A p o m : binv s L F A None → (p, o) ∈ A →
  (∀ q, m !! q = if decide (p <= q < p + 2 ^ o) then count_down <$> pages s !! q else pages s !! q) →
  binv (set_pages m s) L F (A ∖ {[(p, o)]}) (Some (p, o)).
Proof.
  intros Hb HA Hm. pose proof (bi_part _ _ _ _ _ Hb) as Hp.
  destruct (pt_range _ _ _ Hp p o) as (Ho & HS & HF); [by right; left|].
  constructor; cbn [set_pages cells pages mm_buddy_array buddy_map_base]; try apply Hb; try done.
  - eapply part_iff; [|exact Hp]. intros q o'. unfold block. rewrite elem_of_difference, elem_of_singleton.
    split; [|naive_solver]. intros [?|[?|?]]; [auto| |done].
    destruct (decide ((q, o') = (p, o))) as [[= -> ->]|]; auto.
  - intros q Hq. destruct (bi_page _ _ _ _ _ Hb q Hq) as (pg & Hpg & [K1 K2 K3 K4 K5 K6]).
    rewrite Hm, Hpg. case_decide as Hin.
    + exists (count_down pg). split; [done|].
      assert (count pg = 1) as Hc1 by (by apply K5; exists p, o).
      split; try done.
      * intros o' [? _]%elem_of_difference. by eapply K4.
      * rewrite (covered_remove s L F) by done. tauto.
      * intros _. unfold count_down, with_count. cbn [count]. rewrite Hc1. done.
    + exists pg. split; [done|]. split; try done.
      * intros o' [? _]%elem_of_difference. by eapply K4.
      * rewrite (covered_remove s L F) by done. tauto.
      * rewrite (covered_remove s L F) by done. tauto.
  - intros q Hq. rewrite Hm, decide_False by lia. by apply (bi_low _ _ _ _ _ Hb).
  - intros i o' [= <- <-]. split; [set_solver|]. intros Hfr.
    destruct (bi_page _ _ _ _ _ Hb p) as (pg & _ & [_ K2 _ K4 _ _]); [pose proof (pow2_pos o); pose proof (bi_bounds _ _ _ _ _ Hb); lia|].
    destruct (K2 _ Hfr) as [Hx _]. by rewrite (K4 _ HA) in Hx.
Qed.

Lemma page_exists s L F A hand q : binv s L F A hand → S - 512 <= q <= E → is_Some (pages s !! q).
Proof.
  intros Hb Hq. destruct (decide (q < S)).
  - destruct (bi_low _ _ _ _ _ Hb q) as (pg & -> & _); [lia|done].
  - destruct (bi_page _ _ _ _ _ Hb q) as (pg & -> & _); [lia|done].
Qed.

(** *** The index of the buddy *)

Lemma lxor_bit x o : 0 <= o → 0 <= x →
  (Z.testbit x o = true ∧ Z.lxor x (2 ^ o) = x - 2 ^ o ∧ Z.land x (Z.lxor x (2 ^ o)) = x - 2 ^ o) ∨
  (Z.testbit x o = false ∧ Z.lxor x (2 ^ o) = x + 2 ^ o ∧ Z.land x (Z.lxor x (2 ^ o)) = x).
Proof.
  intros Ho Hx. destruct (Z.testbit x o) eqn:Eb; [left|right]; (split; [done|]).
  - assert (Hl : Z.lxor x (2 ^ o) = Z.ldiff x (2 ^ o)).
    { apply Z.bits_inj'. intros k Hk. rewrite Z.lxor_spec, Z.ldiff_spec, Z.pow2_bits_eqb by done.
      destruct (Z.eqb_spec o k) as [->|]; [by rewrite Eb|by destruct (Z.testbit x k)]. }
    assert (Hs : Z.ldiff (2 ^ o) x = 0).
    { apply Z.bits_inj'. intros k Hk. rewrite Z.ldiff_spec, Z.pow2_bits_eqb, Z.testbit_0_l by done.
      destruct (Z.eqb_spec o k) as [->|]; [by rewrite Eb|done]. }
    rewrite Hl, (Z.sub_nocarry_ldiff _ _ Hs). split; [done|].
    apply Z.bits_inj'. intros k Hk. rewrite Z.land_spec, Z.ldiff_spec. by destruct (Z.testbit x k).
  - assert (Hl : Z.land x (2 ^ o) = 0).
    { apply Z.bits_inj'. intros k Hk. rewrite Z.land_spec, Z.pow2_bits_eqb, Z.testbit_0_l by done.
      destruct (Z.eqb_spec o k) as [->|]; [by rewrite Eb|by destruct (Z.testbit x k)]. }
    rewrite (Z.add_nocarry_lxor _ _ Hl). split; [done|].
    apply Z.bits_inj'. intros k Hk. rewrite Z.land_spec, Z.lxor_spec, Z.pow2_bits_eqb by done.
    destruct (Z.eqb_spec o k) as [->|]; [by rewrite Eb|by destruct (Z.testbit x k)].
Qed.

(** Pages are below [buddy_map_base], so their indices are large as unsigned
    numbers and negative as signed ones. *)
Lemma idx_back i : S - 512 <= i <= E → 512 <= S → E <= 0x3FF00 →
  ptr_add (E + 1) (u32 (i - (E + 1))) = i.
Proof. intros. unfold ptr_add. rewrite s32_u32, s32_small by lia. lia. Qed.

Lemma buddy_idx i o : S <= i <= E → 512 <= S → E <= 0x3FF00 → 0 <= o <= 9 →
  let x := u32 (i - (E + 1)) in
  let b := s32 (Z.lxor x (Z.shiftl 1 o)) in
  (ptr_add (E + 1) b = i - 2 ^ o ∧ Z.land x (u32 b) = u32 (i - 2 ^ o - (E + 1))) ∨
  (ptr_add (E + 1) b = i + 2 ^ o ∧ Z.land x (u32 b) = u32 (i - (E + 1))).
Proof.
  intros Hi HS HE Ho x b. assert (Hx : x = i - (E + 1) + 2 ^ 32).
  { unfold x, u32. rewrite <- (Z_mod_plus_full _ 1), Z.mod_small; lia. }
  assert (H2 : 0 < 2 ^ o <= 512).
  { split; [apply pow2_pos; lia|]. change 512 with (2 ^ 9). apply Z.pow_le_mono_r; lia. }
  unfold b. rewrite Z.shiftl_1_l. unfold ptr_add. rewrite s32_small by apply s32_range.
  destruct (lxor_bit x o ltac:(lia) ltac:(lia)) as [(_ & El & Ea)|(Hb & El & Ea)]; [left|right].
  - rewrite El in *. rewrite u32_s32, (u32_small (x - 2 ^ o)), Ea by lia. split.
    + unfold s32. rewrite <- (Z_mod_plus_full _ (-1)), Z.mod_small; lia.
    + rewrite Hx. unfold u32. rewrite <- (Z_mod_plus_full (i - 2 ^ o - (E + 1)) 1), Z.mod_small; lia.
  - rewrite El in *. assert (x + 2 ^ o < 2 ^ 32).
    { destruct (Z.lt_ge_cases (x + 2 ^ o) (2 ^ 32)) as [|Hge]; [done|]. exfalso.
      assert (Hox : Z.testbit x o = true); [|congruence].
      replace x with (2 ^ 32 - 2 ^ o + (x - (2 ^ 32 - 2 ^ o))) by lia.
      set (r := x - (2 ^ 32 - 2 ^ o)). assert (0 <= r < 2 ^ o) by lia.
      assert (2 ^ 32 - 2 ^ o = 2 ^ o * (2 ^ (32 - o) - 1)) as ->.
      { rewrite Z.mul_sub_distr_l, <- Z.pow_add_r by lia. replace (o + (32 - o)) with 32 by lia. lia. }
      rewrite Z.add_comm, Z.mul_comm, Z.testbit_odd, Z.shiftr_div_pow2, Z.div_add, Z.div_small by lia.
      rewrite Z.add_0_l, Z.odd_sub, Z.odd_pow by lia. done. }
    rewrite u32_s32, (u32_small (x + 2 ^ o)), Ea by lia. split; [|done].
    unfold s32. rewrite <- (Z_mod_plus_full _ (-1)), Z.mod_small; lia.
Qed.

(** *** [buddy_free] *)

Lemma merge_step s L F A i b o : binv s L F A (Some (i, o)) → isfree L F b o → 0 <= o <= 9 →
  (b = i + 2 ^ o ∨ b = i - 2 ^ o) →
  ∃ s' L', binv s' L' F A (Some (Z.min i b, o + 1)) ∧
    (∀ B (K : mm → outcome B),
      (s ← on_cells (list_del (Cell b)) s; s ← add_free_num o (-1) s; s ← rmv_page_order b s; K s)
        = K s').
Proof.
  intros Hb Hfr Ho Hbi. pose proof (bi_flists _ _ _ _ _ Hb) as Hf. pose proof (bi_part _ _ _ _ _ Hb) as Hp.
  pose proof (pow2_pos o ltac:(lia)).
  assert (Hi : block L F A (Some (i, o)) i o) by (by right; right).
  assert (Hbb : block L F A (Some (i, o)) b o) by (by left).
  set (i0 := Z.min i b). set (j0 := i0 + 2 ^ o).
  assert (Hij : (i0 = i ∧ j0 = b) ∨ (i0 = b ∧ j0 = i)) by lia.
  assert (Hm : part (λ q o', (block L F A (Some (i, o)) q o' ∧ q ≠ i0 ∧ q ≠ j0) ∨ (q = i0 ∧ o' = o + 1)) S F).
  { apply (part_merge _ _ _ i0 j0 o Hp); [| |done|lia]; destruct Hij as [[-> ->]|[-> ->]]; done. }
  assert (HA : ∀ q o', (q, o') ∈ A → q ≠ i ∧ q ≠ b).
  { intros q o' HqA. split; intros ->.
    - assert (o' = o) as -> by (eapply (part_head _ _ _ i); [exact Hp|by right; left|done]).
      by destruct (bi_hand _ _ _ _ _ Hb _ _ eq_refl).
    - assert (o' = o) as -> by (eapply (part_head _ _ _ b); [exact Hp|by right; left|done]).
      destruct (pt_range _ _ _ Hp _ _ Hbb) as (? & ? & ?). pose proof (bi_bounds _ _ _ _ _ Hb).
      destruct (bi_page _ _ _ _ _ Hb b ltac:(lia)) as (pg & _ & [_ K2 _ K4 _ _]).
      destruct (K2 _ Hfr) as [Hx _]. by rewrite (K4 _ HqA) in Hx. }
  assert (Hfi : ∀ o', isfree L F i o' → False).
  { intros o' Hfi. assert (o' = o) as -> by (eapply (part_head _ _ _ i); [exact Hp|by left|done]).
    by destruct (bi_hand _ _ _ _ _ Hb _ _ eq_refl). }
  destruct (step_remove s L F A _ (Some (i0, o + 1)) b o Hb Hfr) as (s' & Hb' & _ & Hk & _);
    [| |by eauto].
  - eapply part_iff; [|exact Hm]. intros q o'. unfold block. rewrite (isfree_rm _ _ _ _ _ _ _ Hf Hfr).
    split.
    + intros [([?|[?|[= <- <-]]] & ? & ?)|[-> ->]]; [|auto| |auto].
      * left. split; [done|]. destruct Hij as [[-> ->]|[-> ->]]; done.
      * exfalso. destruct Hij as [[-> ->]|[-> ->]]; done.
    + intros [[Hq Hqb]|[Hq|[= <- <-]]]; [| |auto].
      * left. split; [auto|]. assert (q ≠ i) by (intros ->; by apply (Hfi o')).
        destruct Hij as [[-> ->]|[-> ->]]; done.
      * left. split; [auto|]. destruct (HA _ _ Hq). destruct Hij as [[-> ->]|[-> ->]]; done.
  - intros i' o' [= <- <-]. rewrite (isfree_rm _ _ _ _ _ _ _ Hf Hfr).
    destruct Hij as [[-> _]|[-> _]]; (split; [intros HqA; by destruct (HA _ _ HqA)|]).
    + intros [Hx _]. by apply Hfi in Hx.
    + tauto.
Qed.

Lemma buddy_free_loop_spec n s L F A i o : binv s L F A (Some (i, o)) → o + Z.of_nat n = 10 →
  ∃ i' o' s' L', buddy_free_loop n (u32 (i - (E + 1))) o s = Done (u32 (i' - (E + 1)), o', s') ∧
    binv s' L' F A (Some (i', o')).
Proof.
  revert s L i o. induction n as [|n IH]; intros s L i o Hb Hn; cbn [buddy_free_loop].
  { eexists _, _, _, _. done. }
  pose proof (bi_bounds _ _ _ _ _ Hb) as (HS & HSF & HFE & HE).
  pose proof (bi_part _ _ _ _ _ Hb) as Hp.
  destruct (pt_range _ _ _ Hp i o) as (Ho & HiS & HiF); [by right; right|].
  assert (H2 : 0 < 2 ^ o <= 512).
  { split; [apply pow2_pos; lia|]. change 512 with (2 ^ 9). apply Z.pow_le_mono_r; lia. }
  rewrite (bi_base _ _ _ _ _ Hb).
  pose proof (buddy_idx i o ltac:(lia) HS HE ltac:(lia)) as Hidx. cbv zeta in Hidx.
  set (bi := s32 (Z.lxor (u32 (i - (E + 1))) (Z.shiftl 1 o))) in *.
  set (b := ptr_add (E + 1) bi) in *.
  assert (Hb2 : (b = i - 2 ^ o ∨ b = i + 2 ^ o) ∧
    Z.land (u32 (i - (E + 1))) (u32 bi) = u32 (Z.min i b - (E + 1))).
  { destruct Hidx as [[-> ->]|[-> ->]]; (split; [lia|]); [by rewrite Z.min_r by lia|by rewrite Z.min_l by lia]. }
  destruct Hb2 as [Hbi ->]. clear Hidx.
  destruct (page_exists _ _ _ _ _ b Hb) as [pg Hpg]; [lia|].
  unfold page_is_buddy, page_is_ok, page_at. rewrite Hpg. cbn [deref]. rewrite !bind_done.
  destruct ((private pg =? u32 o) && flag_get PAGE_BUDDY pg && (count pg =? 0)) eqn:Eok; cbn [negb];
    [|eexists _, _, _, _; done].
  apply andb_prop in Eok as [[Epr Efl]%andb_prop Ect]. apply Z.eqb_eq in Epr, Ect.
  rewrite u32_small in Epr by lia.
  assert (HbS : S <= b).
  { destruct (decide (S <= b)); [done|]. destruct (bi_low _ _ _ _ _ Hb b ltac:(lia)) as (pg' & Hpg' & Hfl').
    congruence. }
  destruct (bi_page _ _ _ _ _ Hb b ltac:(lia)) as (pg' & Hpg' & [K1 K2 K3 K4 K5 K6]).
  assert (pg' = pg) as -> by congruence. rewrite K1. cbn [negb].
  assert (Hfr : isfree L F b o) by (rewrite <- Epr; apply K3; [done|lia]).
  destruct (merge_step _ _ _ _ _ _ _ Hb Hfr ltac:(lia) ltac:(tauto)) as (s1 & L1 & Hb1 & ->).
  apply (IH s1 L1 _ _ Hb1). lia.
Qed.

Lemma buddy_free_spec s L F A i o : binv s L F A (Some (i, o)) →
  ∃ s' L', buddy_free i o s = Done s' ∧ binv s' L' F A None.
Proof.
  intros Hb. unfold buddy_free. pose proof (bi_bounds _ _ _ _ _ Hb) as (HS & HSF & HFE & HE).
  destruct (pt_range _ _ _ (bi_part _ _ _ _ _ Hb) i o) as (Ho & HiS & HiF); [by right; right|].
  pose proof (pow2_pos o ltac:(lia)). unfold BUDDY_CHUNK_NUM. rewrite (bi_base _ _ _ _ _ Hb).
  destruct (buddy_free_loop_spec (Z.to_nat (11 - 1 - o)) s L F A i o Hb ltac:(lia))
    as (i' & o' & s1 & L1 & -> & Hb1). rewrite bind_done. cbn zeta. cbn beta iota.
  pose proof (bi_part _ _ _ _ _ Hb1) as Hp1.
  assert (Hi : block L1 F A (Some (i', o')) i' o') by (by right; right).
  destruct (pt_range _ _ _ Hp1 _ _ Hi) as (Ho' & HiS' & HiF').
  pose proof (pow2_pos o' ltac:(lia)). destruct (bi_hand _ _ _ _ _ Hb1 _ _ eq_refl) as [HnA HnF].
  rewrite (bi_base _ _ _ _ _ Hb1), idx_back by lia.
  destruct (step_insert s1 L1 F A _ None i' o' Hb1 Ho') as (s' & Hb' & _ & E' & _);
    [lia|..|by eauto].
  - intros c Hc Hin. destruct (list_range _ _ _ _ _ _ _ Hb1 Hc Hin) as [_ [|Hfr]]; [lia|].
    assert (c = o') as -> by (eapply (part_head _ _ _ i'); [exact Hp1|by left|done]). done.
  - intros c HcA.
    assert (c = o') as -> by (eapply (part_head _ _ _ i'); [exact Hp1|by right; left|done]). done.
  - eapply part_iff; [|exact Hp1]. intros q c. unfold block. rewrite isfree_add by (done || lia).
    split; [intros [|[|[= <- <-]]]|intros [[|[-> ->]]|[|]]]; auto; done.
  - done.
Qed.

Lemma page_virt p : 0 <= p < 0x3FF00 →
  page_to_virt p = 0xC0100000 + p * 4096 ∧ virt_to_page (page_to_virt p) = p ∧
  Z.land (page_to_virt p) 0xFFF = 0.
Proof.
  intros Hp. unfold page_to_virt, virt_to_page, PAGE_SHIFT.
  rewrite (u32_small p), Z.shiftl_mul_pow2, (u32_small (p * 2 ^ 12 + _)) by lia. split_and!; [lia| |].
  - rewrite u32_small by lia. rewrite Z.shiftr_div_pow2 by lia.
    replace (p * 2 ^ 12 + 3222274048 - 3222274048) with (p * 2 ^ 12) by lia. by apply Z.div_mul.
  - change 0xFFF with (Z.ones 12). rewrite Z.land_ones by lia.
    replace (p * 2 ^ 12 + 3222274048) with ((p + 786688) * 2 ^ 12) by lia. by apply Z.mod_mul.
Qed.

Lemma alloc_pages_buddy_spec s L F A o :
  binv s L F A None → 0 <= o <= 10 → served L F o →
  ∃ p s' L' F', alloc_pages_buddy o s = Done (page_to_virt p, s') ∧
    binv s' L' F' ({[(p, o)]} ∪ A) None ∧ F' <= F + 1024 ∧
    S <= p ∧ p + 2 ^ o <= E ∧
    (∀ j o', (j, o') ∈ A → p + 2 ^ o <= j ∨ j + 2 ^ o' <= p).
Proof.
  intros Hb Ho Hs. pose proof (pow2_pos o ltac:(lia)).
  destruct (buddy_alloc_spec _ _ _ _ _ Hb Ho Hs) as (p & s1 & L1 & F1 & Ea & Hb1 & Hpg & HF).
  pose proof (bi_part _ _ _ _ _ Hb1) as Hp. pose proof (bi_bounds _ _ _ _ _ Hb1) as Hbd.
  assert (Hi : block L1 F1 A (Some (p, o)) p o) by (by right; right).
  destruct (pt_range _ _ _ Hp _ _ Hi) as (_ & HpS & HpF).
  unfold alloc_pages_buddy. rewrite Ea, bind_done. cbn beta iota. rewrite Z.shiftl_1_l.
  destruct (foldM_pages count_up (λ i, upd_page (p + i) count_up) (λ _, True) p (Z.to_nat (2 ^ o)) s1)
    as (m & Em & Hm).
  { intros j s0 pg Hj _. by apply upd_page_done. }
  { intros j Hj. destruct (page_exists _ _ _ _ _ (p + j) Hb1) as [pg ->]; [lia|eauto]. }
  rewrite Z2Nat.id in Em, Hm by lia.
  change (λ i, upd_page (p + i) (λ pg, with_count (count pg + 1) pg)) with (λ i, upd_page (p + i) count_up).
  rewrite Em, bind_done.
  pose proof (own_step _ _ _ _ _ _ m Hb1 Hpg Hm) as Hb2.
  eexists p, _, L1, F1. split; [done|]. split; [done|]. split; [lia|]. split; [lia|]. split; [lia|].
  intros j o' Hj. destruct (pt_disj _ _ _ Hp p o j o') as [[-> ->]|]; [done|by right; left| |done].
  by destruct (bi_hand _ _ _ _ _ Hb1 _ _ eq_refl).
Qed.

Lemma free_pages_buddy_spec s L F A p o :
  binv s L F A None → (p, o) ∈ A →
  ∃ s' L', free_pages_buddy o (page_to_virt p) s = Done s' ∧ binv s' L' F (A ∖ {[(p, o)]}) None.
Proof.
  intros Hb HA. pose proof (bi_part _ _ _ _ _ Hb) as Hp. pose proof (bi_bounds _ _ _ _ _ Hb) as Hbd.
  destruct (pt_range _ _ _ Hp p o) as (Ho & HpS & HpF); [by right; left|].
  pose proof (pow2_pos o ltac:(lia)).
  destruct (page_virt p ltac:(lia)) as (_ & Hv & Hz).
  unfold free_pages_buddy. rewrite Hz. change (negb (0 =? 0)) with false. cbn iota. rewrite Hv.
  destruct (bi_page _ _ _ _ _ Hb p ltac:(lia)) as (pg & Hpg & [K1 K2 K3 K4 K5 K6]).
  unfold page_in_buddy, page_at. rewrite Hpg. cbn [deref]. rewrite bind_done, (K4 _ HA), bind_done.
  rewrite Z.shiftl_1_l.
  destruct (foldM_pages count_down (λ i, put_page_count (p + i)) (λ pg, count pg = 1) p (Z.to_nat (2 ^ o)) s)
    as (m & Em & Hm).
  { intros j s0 pg0 Hj Hc. unfold put_page_count, page_at. rewrite Hj. cbn [deref]. rewrite bind_done.
    rewrite Hc. change (u32 (1 - 1) =? 0) with true. cbn [assert_]. rewrite bind_done.
    rewrite (upd_page_done _ _ _ _ Hj). done. }
  { intros j Hj. destruct (bi_page _ _ _ _ _ Hb (p + j) ltac:(lia)) as (pg' & Hpg' & Hok).
    exists pg'. split; [done|]. apply (pk_count1 _ _ _ _ _ Hok). exists p, o. split; [done|lia]. }
  rewrite Z2Nat.id in Em, Hm by lia. rewrite Em, bind_done.
  pose proof (disown_step _ _ _ _ _ _ m Hb HA Hm) as Hb1.
  destruct (buddy_free_spec _ _ _ _ _ _ Hb1) as (s' & L' & -> & Hb'). eauto.
Qed.
End invariant.

(** ** Initialisation *)

Lemma foldM_ind {A T} (f : A → T → outcome T) (I : list A → T → Prop) xs s :
  (∀ ys x zs s, xs = ys ++ x :: zs → I ys s → ∃ s', f x s = Done s' ∧ I (ys ++ [x]) s') →
  I [] s → ∃ s', foldM f xs s = Done s' ∧ I xs s'.
Proof.
  intros Hstep. enough (Hk : ∀ ys zs s, xs = ys ++ zs → I ys s → ∃ s', foldM f zs s = Done s' ∧ I xs s').
  { intros H0. by apply (Hk []). }
  clear s. intros ys zs. revert ys. induction zs as [|x zs IH]; intros ys s Hx HI.
  - rewrite app_nil_r in Hx. subst. by exists s.
  - destruct (Hstep ys x zs s Hx HI) as (s1 & Hf & H1). cbn [foldM]. rewrite Hf, bind_done.
    apply (IH (ys ++ [x])); [by rewrite <- app_assoc|done].
Qed.

(** The empty lists at the keys [ks]. *)
Definition empties (ks : list cell) : gmap cell (list cell) := gset_to_gmap [] (list_to_set ks).

Lemma empties_lookup ks k xs : empties ks !! k = Some xs ↔ k ∈ ks ∧ xs = [].
Proof. unfold empties. rewrite lookup_gset_to_gmap_Some, elem_of_list_to_set. naive_solver. Qed.

Lemma empties_snoc ks k : <[k := []]> (empties ks) = empties (ks ++ [k]).
Proof.
  unfold empties. rewrite list_to_set_app_L. simpl. rewrite (right_id_L ∅ (∪)), (comm_L (∪)).
  by rewrite gset_to_gmap_union_singleton.
Qed.

Lemma lists_init_empties h ks k : lists h (empties ks) → k ∉ ks → is_Some (h !! k) →
  ∃ h', list_init (Some k) h = Done h' ∧ lists h' (empties (ks ++ [k])) ∧ dom h' = dom h.
Proof.
  intros Hl Hk Hs. destruct (lists_init h (empties ks) k Hl Hs) as (h' & E & Hl' & Hd & _).
  - intros hd xs [Hin ->]%empties_lookup. set_solver.
  - rewrite empties_snoc in Hl'. eauto.
Qed.

Definition init_page (pg : page) : page := mk_page (Z.setbit (flag pg) PAGE_BUDDY) 0 10.

Lemma buddy_init_page_done p s pg h' : pages s !! p = Some pg →
  list_init (Some (Cell p)) (cells s) = Done h' →
  buddy_init_page p 10 s = Done (set_cells h' (set_pages (<[p := init_page pg]> (pages s)) s)).
Proof.
  intros Hp Hl. unfold buddy_init_page. rewrite (on_cells_done _ _ _ Hl), bind_done.
  erewrite upd_page_done by exact Hp. rewrite bind_done.
  do 2 (erewrite upd_page_done by (cbn [set_pages set_cells pages]; apply lookup_insert_eq);
        rewrite ?bind_done; cbn [set_pages set_cells pages]; rewrite insert_insert_eq).
  done.
Qed.

Section init.
Context (S E total : Z) (HSE : 512 <= S ∧ S <= E ∧ E <= 0x3FF00).

(** What [mem_init] has prepared: the records of the pages up to [E] and of the
    512 pages before [S] at least, none of the latter marked as a buddy and none
    of the former as reserved, and the memory of the list cells. *)
Record bready (s : mm) : Prop := mk_bready {
  br_pages q : S - 512 <= q <= E → is_Some (pages s !! q);
  br_low q pg : S - 512 <= q < S → pages s !! q = Some pg → flag_get PAGE_BUDDY pg = false;
  br_resvd q pg : S <= q <= E → pages s !! q = Some pg → flag_get PAGE_RESVD pg = false;
  br_heads o : 0 <= o <= 10 → is_Some (cells s !! Head o);
  br_cells q : S <= q <= E → is_Some (cells s !! Cell q);
  br_len : length (mm_buddy_array s) = 11%nat;
}.

Definition L0 (o : Z) : list Z := if decide (o = 10) then [S] else [].

(** After the first loop over the orders [os], and the second over the pages
    [qs]. *)
Record initing (s0 : mm) (os qs : list Z) (s : mm) : Prop := mk_initing {
  in_lists : lists (cells s) (empties ((Head <$> os) ++ (Cell <$> qs)));
  in_dom : dom (cells s) = dom (cells s0);
  in_len : length (mm_buddy_array s) = 11%nat;
  in_num o b : o ∈ os → nthZ (mm_buddy_array s) o = Some b → free_num b = 0;
  in_pages q : pages s !! q = if decide (q ∈ qs) then init_page <$> pages s0 !! q else pages s0 !! q;
}.

Lemma init_heads s0 : bready s0 →
  ∃ s, foldM (λ i s,
        s ← (b ← deref (nthZ (mm_buddy_array s) i);
             Done (set_array (updZ (mm_buddy_array s) i (mk_buddy i 0)) s));
        on_cells (list_init (Some (Head i))) s) (seqZ 0 11) s0 = Done s ∧ initing s0 (seqZ 0 11) [] s.
Proof.
  intros [H1 H2 H3 H4 H5 H6].
  apply (foldM_ind _ (λ os s, initing s0 os [] s)).
  - intros ys x zs s Hx [K1 K2 K3 K4 K5].
    assert (Hin : x ∈ seqZ 0 11) by (rewrite Hx; set_solver). apply elem_of_seqZ in Hin.
    pose proof (NoDup_seqZ 0 11) as Hnd. rewrite Hx in Hnd.
    destruct (nthZ_is_Some (mm_buddy_array s) x ltac:(lia)) as [b Hb]. rewrite Hb. cbn [deref].
    rewrite !bind_done. rewrite app_nil_r in K1.
    destruct (lists_init_empties _ _ (Head x) K1) as (h' & El & Hl & Hd).
    { intros (y & [= <-] & Hy)%list_elem_of_fmap. apply NoDup_app in Hnd. set_solver. }
    { apply elem_of_dom. rewrite K2. apply elem_of_dom, H4. lia. }
    erewrite on_cells_done by exact El. eexists. split; [done|]. constructor; cbn.
    + by rewrite app_nil_r, fmap_app.
    + by rewrite Hd.
    + by rewrite updZ_length.
    + intros o b' Ho Hb'. destruct (decide (o = x)) as [->|].
      * rewrite nthZ_upd_eq in Hb' by lia. by simplify_eq.
      * rewrite nthZ_upd_ne in Hb' by done. eapply K4; [|done]. set_solver.
    + intros q. rewrite K5. by rewrite !decide_False by set_solver.
  - constructor; try done.
    set_solver.
Qed.

Lemma init_pages s0 s : bready s0 → initing s0 (seqZ 0 11) [] s →
  ∃ s', foldM (λ p, buddy_init_page p 10) (seqZ S (E + 1 - S)) s = Done s' ∧
    initing s0 (seqZ 0 11) (seqZ S (E + 1 - S)) s'.
Proof.
  intros [H1 H2 H3 H4 H5 H6].
  apply (foldM_ind _ (λ qs s, initing s0 (seqZ 0 11) qs s)).
  intros ys x zs s1 Hx [K1 K2 K3 K4 K5].
  assert (Hin : x ∈ seqZ S (E + 1 - S)) by (rewrite Hx; set_solver). apply elem_of_seqZ in Hin.
  pose proof (NoDup_seqZ S (E + 1 - S)) as Hnd. rewrite Hx in Hnd. apply NoDup_app in Hnd as (_ & Hnd & _).
  assert (Hxy : x ∉ ys) by (intros Hy; apply (Hnd x Hy); set_solver).
  destruct (H1 x ltac:(lia)) as [pg Hpg].
  assert (Hp1 : pages s1 !! x = Some pg) by (rewrite K5; by rewrite decide_False).
  destruct (lists_init_empties _ _ (Cell x) K1) as (h' & El & Hl & Hd).
  { rewrite elem_of_app. intros [(y & [=] & _)%list_elem_of_fmap|(y & [= <-] & Hy)%list_elem_of_fmap]. done. }
  { apply elem_of_dom. rewrite K2. apply elem_of_dom, H5. lia. }
  rewrite (buddy_init_page_done _ _ _ _ Hp1 El). eexists. split; [done|]. constructor; cbn; try done.
  - by rewrite fmap_app, app_assoc.
  - by rewrite Hd.
  - intros q. destruct (decide (q = x)) as [->|Hne].
    + rewrite lookup_insert_eq, decide_True by set_solver. by rewrite Hpg.
    + rewrite lookup_insert_ne, K5 by done. by do 2 case_decide; set_solver.
Qed.

Lemma init_flists h : lists h (empties ((Head <$> seqZ 0 11) ++ (Cell <$> seqZ S (E + 1 - S)))) →
  ∃ h', list_add (Head 10) (Cell S) h = Done h' ∧ flists h' (L0) S E.
Proof.
  intros Hl. assert (Hf : flists h (λ _, []) S E).
  { exists (empties ((Head <$> seqZ 0 11) ++ (Cell <$> seqZ S (E + 1 - S)))). split; [done|]. split.
    - intros o Ho. apply empties_lookup. split; [|done]. apply elem_of_app. left.
      apply list_elem_of_fmap_2, elem_of_seqZ. lia.
    - intros q Hq _. apply empties_lookup. split; [|done]. apply elem_of_app. right.
      apply list_elem_of_fmap_2, elem_of_seqZ. lia. }
  destruct (flists_add S E h _ 10 S Hf ltac:(lia) ltac:(lia)) as (h1 & Ea & σ & Hσ & Hh & Hc).
  { intros o _. apply not_elem_of_nil. }
  assert (HL : ∀ o, (<[10:=[S]]> (λ _, []) : Z → list Z) o = L0 o).
  { intros o. unfold L0. case_decide as Ho; [subst; by rewrite fn_lookup_insert|by rewrite fn_lookup_insert_ne]. }
  exists h1. split; [done|]. exists σ. split; [done|]. split.
  - intros o Ho. rewrite Hh, HL by done. done.
  - intros q Hq Hn. apply Hc; [done|]. intros o Ho. rewrite HL. auto.
Qed.

Lemma isfree_L0 q o : ¬ isfree L0 S q o.
Proof. unfold isfree, L0. intros (_ & Hin & Hne). case_decide; [|set_solver]. apply Hne; set_solver. Qed.

Lemma buddy_init_spec s0 : bready s0 →
  ∃ s, buddy_init total S E s0 = Done s ∧ binv S E s L0 S ∅ None.
Proof.
  intros Hr. destruct (init_heads s0 Hr) as (s1 & E1 & I1).
  destruct (init_pages s0 s1 Hr I1) as (s2 & E2 & [K1 K2 K3 K4 K5]).
  destruct (init_flists _ K1) as (h & Ea & Hf). destruct Hr as [H1 H2 H3 H4 H5 H6].
  unfold buddy_init. change (seqZ 0 BUDDY_CHUNK_NUM) with (seqZ 0 11). rewrite E1, bind_done.
  change (BUDDY_CHUNK_NUM - 1) with 10. cbv zeta. rewrite E2, bind_done.
  rewrite (on_cells_done _ _ _ Ea), bind_done. cbn [pages cells mm_buddy_array lowmem_pages kern_mem_end set_cells].
  destruct (nthZ_is_Some (mm_buddy_array s2) 10 ltac:(lia)) as [b Hb]. rewrite Hb. cbn [deref].
  rewrite bind_done. eexists. split; [reflexivity|].
  constructor; cbn [cells pages mm_buddy_array buddy_map_base set_array]; try done; try lia.
  - unfold L0. rewrite decide_True by done. set_solver.
  - split.
    + intros i o [Hx|[Hx|Hx]]; [by apply isfree_L0 in Hx|set_solver|done].
    + intros i o i' o' [Hx|[Hx|Hx]]; [by apply isfree_L0 in Hx|set_solver|done].
    + intros q Hq. lia.
  - intros q Hq. destruct (H1 q ltac:(lia)) as [pg Hpg].
    rewrite K5, decide_True, Hpg by (apply elem_of_seqZ; lia). exists (init_page pg). split; [done|].
    assert (Hfb : flag_get PAGE_BUDDY (init_page pg) = true) by (by apply Z.setbit_eq).
    split.
    + rewrite <- (H3 q pg Hq Hpg). by apply Z.setbit_neq.
    + intros o Hx. by apply isfree_L0 in Hx.
    + intros _ Hne. done.
    + intros o Hx. set_solver.
    + intros (? & ? & Hx & _). set_solver.
    + done.
  - intros q Hq. destruct (H1 q ltac:(lia)) as [pg Hpg].
    rewrite K5, decide_False, Hpg by (rewrite elem_of_seqZ; lia). exists pg. eauto.
  - by rewrite updZ_length.
  - intros o b' Ho. rewrite nthZ_upd_ne by lia. intros Hb'. unfold L0. rewrite decide_False by lia.
    rewrite (K4 o b'); [done| |done]. apply elem_of_seqZ. lia.
Qed.
End init.

(** ** [mem_init] *)

Lemma mem_init_pages_spec a n s : 0 <= n →
  let s' := foldr mem_init_page s (seqZ a n) in
  (∀ q, pages s' !! q = if decide (a <= q < a + n) then Some (mk_page 0 minus1 0) else pages s !! q) ∧
  (∀ q, a <= q < a + n → is_Some (cells s' !! Cell q)) ∧
  (∀ k, is_Some (cells s !! k) → is_Some (cells s' !! k)) ∧
  mm_buddy_array s' = mm_buddy_array s ∧ lowmem_pages s' = lowmem_pages s ∧
  kern_mem_end s' = kern_mem_end s.
Proof.
  intros Hn. cbv zeta. rewrite <- (Z2Nat.id n) by done. generalize (Z.to_nat n) as m. clear n Hn.
  intros m. revert a. induction m as [|m IH]; intros a.
  - simpl. split_and!; try done; intros q; [by rewrite decide_False by lia|lia].
  - rewrite seqZ_cons by lia. rewrite Nat2Z.inj_succ, Z.pred_succ. cbn [foldr].
    destruct (IH (Z.succ a)) as (Hp & Hc & Hk & Ha & Hl & He).
    set (s1 := foldr mem_init_page s (seqZ (Z.succ a) (Z.of_nat m))) in *.
    unfold mem_init_page. cbn [pages cells mm_buddy_array lowmem_pages kern_mem_end].
    split_and!; [| | |done..].
    + intros q. destruct (decide (q = a)) as [->|Hne].
      * by rewrite lookup_insert_eq, decide_True by lia.
      * rewrite lookup_insert_ne, Hp by done. repeat case_decide; done || lia.
    + intros q Hq. destruct (decide (q = a)) as [->|Hne]; [rewrite lookup_insert_eq; eauto|].
      rewrite lookup_insert_ne by congruence. apply Hc. lia.
    + intros k Hs. destruct (decide (k = Cell a)) as [->|Hne]; [rewrite lookup_insert_eq; eauto|].
      rewrite lookup_insert_ne by done. auto.
Qed.

Definition kern_page (pg : page) : page :=
  mk_page (Z.setbit (flag pg) PAGE_RESVD) 1 (private pg).

Lemma kern_pages_spec n s : 0 <= n → (∀ q, 0 <= q < n → is_Some (pages s !! q)) →
  ∃ m, foldM (λ i s, s ← upd_page i (with_count 1) s; upd_page i (flag_set PAGE_RESVD) s)
        (seqZ 0 n) s = Done (set_pages m s) ∧
    ∀ q, m !! q = if decide (0 <= q < n) then kern_page <$> pages s !! q else pages s !! q.
Proof.
  intros Hn Hpg. rewrite <- (Z2Nat.id n) by done.
  destruct (foldM_pages kern_page (λ i s, s ← upd_page i (with_count 1) s; upd_page i (flag_set PAGE_RESVD) s)
    (λ _, True) 0 (Z.to_nat n) s) as (m & Em & Hm).
  - intros j s0 pg Hj _. rewrite Z.add_0_l in *. rewrite (upd_page_done _ _ _ _ Hj), bind_done.
    erewrite upd_page_done by (cbn [set_pages pages]; apply lookup_insert_eq).
    cbn [set_pages pages]. by rewrite insert_insert_eq.
  - intros j Hj. destruct (Hpg j ltac:(lia)) as [pg Hpg']. exists pg. by rewrite Z.add_0_l.
  - eauto.
Qed.

Lemma page_steps_mul k a : 0 <= k → page_steps a (a + k * 0x1000) = k.
Proof.
  intros. unfold page_steps. replace (a + k * 4096 - a + 4095) with (4095 + k * 4096) by lia.
  rewrite Z.div_add, (Z.div_small 4095) by lia. lia.
Qed.

(** The geometry [mem_init] computes. *)
Definition boot_nl (mem_lower : Z) : Z := page_steps 0x1000 (u32 (mem_lower * 1024)).
Definition boot_nu (mem_upper : Z) : Z :=
  page_steps 0x100000 (u32 ((if 0x40000000 <? u32 (mem_upper * 1024) then 0x40000000 / 1024
                             else mem_upper) * 1024)).
Definition boot_nk (map mem_lower mem_upper : Z) : Z :=
  page_steps 0xC0100000
    (Z.land (u32 (map + boot_nl mem_lower * sizeof_page + boot_nu mem_upper * sizeof_page + PAGE_SIZE - 1))
       (u32 (Z.lnot (PAGE_SIZE - 1)))).

(** Machines the kernel can boot on: the page array starts at least 512 pages
    after the kernel, and the memory (16M to 1G) is larger than what the kernel and
    the array take. *)
Definition bootable (map mem_lower mem_upper : Z) : Prop :=
  0xC0301000 <= map < 0xC0800000 ∧ 64 <= mem_lower <= 640 ∧ 16384 <= mem_upper <= 2 ^ 20.

Lemma boot_bounds map ml mu : bootable map ml mu →
  2 <= boot_nl ml ∧ 512 <= boot_nk map ml mu ∧ boot_nk map ml mu <= boot_nu mu ∧ boot_nu mu <= 0x3FF00.
Proof.
  intros (Hmap & Hml & Hmu). unfold boot_nk.
  assert (Hl : 15 <= boot_nl ml <= 160).
  { unfold boot_nl, page_steps. rewrite u32_small by lia.
    pose proof (Z.div_mod (ml * 1024 - 4096 + 4095) 4096 ltac:(lia)).
    pose proof (Z.mod_pos_bound (ml * 1024 - 4096 + 4095) 4096 ltac:(lia)). lia. }
  assert (Hu : boot_nu mu <= 0x3FF00 ∧ mu * 1024 - 0x100000 <= boot_nu mu * 4096).
  { unfold boot_nu, page_steps. rewrite (u32_small (mu * 1024)) by lia.
    destruct (Z.ltb_spec 0x40000000 (mu * 1024)); [lia|]. rewrite u32_small by lia.
    pose proof (Z.div_mod (mu * 1024 - 1048576 + 4095) 4096 ltac:(lia)).
    pose proof (Z.mod_pos_bound (mu * 1024 - 1048576 + 4095) 4096 ltac:(lia)). lia. }
  unfold sizeof_page, PAGE_SIZE in *.
  set (x := map + boot_nl ml * 20 + boot_nu mu * 20 + 4096 - 1).
  rewrite (u32_small x) by lia. change (u32 (Z.lnot (4096 - 1))) with (Z.shiftl (Z.ones 20) 12).
  assert (Hx : Z.land x (Z.shiftl (Z.ones 20) 12) = x / 4096 * 4096).
  { assert (x / 4096 * 4096 = Z.shiftl (Z.shiftr x 12) 12) as ->
      by (rewrite Z.shiftl_mul_pow2, Z.shiftr_div_pow2 by lia; reflexivity).
    apply Z.bits_inj'. intros k Hk. rewrite Z.land_spec, !Z.shiftl_spec by done.
    destruct (decide (k < 12)).
    { rewrite !(Z.testbit_neg_r _ (k - 12)) by lia. by rewrite andb_false_r. }
    rewrite Z.shiftr_spec by lia. replace (k - 12 + 12) with k by lia.
    destruct (decide (k < 32)); [by rewrite Z.ones_spec_low, andb_true_r by lia|].
    rewrite Z.ones_spec_high, andb_false_r by lia. symmetry.
    apply Z.bits_above_log2; [lia|]. assert (Z.log2 x < 32); [|lia]. apply Z.log2_lt_pow2; lia. }
  rewrite Hx. pose proof (Z.div_mod x 4096 ltac:(lia)). pose proof (Z.mod_pos_bound x 4096 ltac:(lia)).
  replace (x / 4096 * 4096) with (0xC0100000 + (x / 4096 - 786688) * 0x1000) by lia.
  rewrite page_steps_mul by lia. lia.
Qed.

Lemma mem_init_spec raw map ml mu : bootable map ml mu →
  flag_get PAGE_RESVD raw = false →
  ∃ s, mem_init raw map ml mu = Done s ∧
    binv (boot_nk map ml mu) (boot_nu mu) s (L0 (boot_nk map ml mu)) (boot_nk map ml mu) ∅ None.
Proof.
  intros Hb Hraw. destruct (boot_bounds _ _ _ Hb) as (Hnl & Hnk & Hnk' & Hnu).
  destruct Hb as (Hmap & Hml & Hmu). unfold mem_init.
  rewrite (proj2 (Z.ltb_ge _ (4 * 1024 * 1024))) by (rewrite u32_small; lia). cbv zeta.
  change (page_steps 4096 (u32 (ml * 1024))) with (boot_nl ml).
  match goal with |- context [page_steps 0x100000 ?x] =>
    change (page_steps 0x100000 x) with (boot_nu mu) end.
  set (nl := boot_nl ml) in *. set (nu := boot_nu mu) in *.
  match goal with |- context [page_steps 0xC0100000 ?x] =>
    change (page_steps 0xC0100000 x) with (boot_nk map ml mu) end.
  set (nk := boot_nk map ml mu) in *.
  set (s0 := mk_mm _ _ _ _ _ _).
  destruct (mem_init_pages_spec (- nl) nl s0 ltac:(lia)) as (Hp1 & Hc1 & Hk1 & Ha1 & _).
  set (s1 := foldr mem_init_page s0 (seqZ (- nl) nl)) in *.
  assert (P0 : pages s1 !! (- nl) = Some (mk_page 0 minus1 0)) by (by rewrite Hp1, decide_True by lia).
  assert (P1 : pages s1 !! (1 - nl) = Some (mk_page 0 minus1 0)) by (by rewrite Hp1, decide_True by lia).
  rewrite (upd_page_done _ _ _ _ P0), bind_done.
  erewrite upd_page_done by (cbn [set_pages pages]; rewrite lookup_insert_ne by lia; exact P1).
  rewrite bind_done. match goal with |- context [foldr mem_init_page ?x (seqZ 0 nu)] => set (s2 := x) end.
  destruct (mem_init_pages_spec 0 nu s2 ltac:(lia)) as (Hp3 & Hc3 & Hk3 & Ha3 & _).
  set (s3 := foldr mem_init_page s2 (seqZ 0 nu)) in *.
  match goal with |- context [foldM _ (seqZ 0 nk) ?x] => set (s4 := x) end.
  assert (Hp4 : ∀ q, 0 <= q <= nu → pages s4 !! q = Some (if decide (q = nu) then raw else mk_page 0 minus1 0)).
  { intros q Hq. unfold s4. cbn [set_cells set_pages pages]. case_decide as Hqn.
    - subst q. by rewrite lookup_insert_eq.
    - rewrite lookup_insert_ne, Hp3, decide_True by lia. done. }
  destruct (kern_pages_spec nk s4 ltac:(lia)) as (m & Em & Hm).
  { intros q Hq. rewrite Hp4 by lia. eauto. }
  rewrite Em, bind_done. apply buddy_init_spec; [lia|].
  constructor; cbn [set_pages pages cells mm_buddy_array].
  - intros q Hq. rewrite Hm. case_decide; rewrite Hp4 by lia; eauto.
  - intros q pg Hq. rewrite Hm, decide_True, Hp4, decide_False by lia. intros [= <-]. done.
  - intros q pg Hq. rewrite Hm, decide_False, Hp4 by lia. case_decide; intros [= <-]; [exact Hraw|done].
  - intros o Ho. unfold s4. cbn [set_cells cells set_pages]. rewrite lookup_insert_ne by done.
    apply Hk3. unfold s2. cbn [set_pages cells]. apply Hk1. eexists. apply cells_init_lookup.
    apply list_elem_of_fmap_2, elem_of_seqZ. unfold BUDDY_CHUNK_NUM. lia.
  - intros q Hq. unfold s4. cbn [set_cells cells set_pages]. destruct (decide (q = nu)) as [->|].
    + rewrite lookup_insert_eq. eauto.
    + rewrite lookup_insert_ne by congruence. apply Hc3. lia.
  - unfold s4. cbn [set_cells set_pages mm_buddy_array]. rewrite Ha3. unfold s2. cbn [set_pages mm_buddy_array].
    rewrite Ha1. unfold s0. cbn [mm_buddy_array]. by rewrite length_replicate.
Qed.

(** ** Properties *)

(** The kernel's view of whether an allocation of order [o] is served without
    cutting up a returned block of the greatest order: some list of an order below
    10 is not empty, or the list of order 10 holds the frontier alone and there is
    memory left up to page [E]. *)
Definition nonempty_order (s : mm) (c : Z) : bool :=
  match list_is_empty (Head c) (cells s) with Done e => negb e | Fail _ => false end.
Definition can_alloc (E o : Z) (s : mm) : bool :=
  existsb (nonempty_order s) (seqZ o (10 - o)) ||
  match list_for_each 2 (Head 10) (cells s) with Done [Cell f] => f + 1024 <=? E | _ => false end.

Lemma can_alloc_served S E s L F A o : binv S E s L F A None → 0 <= o <= 10 →
  can_alloc E o s = true → served E L F o.
Proof.
  intros Hb Ho. pose proof (bi_flists _ _ _ _ _ _ _ Hb) as Hf. unfold can_alloc.
  rewrite orb_true_iff. intros [(c & Hc & Hne)%existsb_exists|Hw].
  - left. exists c. apply list_elem_of_In, elem_of_seqZ in Hc. split; [lia|].
    unfold nonempty_order in Hne. rewrite (flists_is_empty _ _ _ _ _ Hf) in Hne by lia.
    intros HL. rewrite HL, bool_decide_true in Hne; done.
  - right. destruct (list_for_each 2 (Head 10) (cells s)) as [[|[|f] [|]]|] eqn:Ew; try done.
    apply Z.leb_le in Hw.
    destruct Hf as (σ & [Hl _] & Hh & _). pose proof (Hl _ _ (Hh 10 ltac:(lia))) as H10.
    assert (L 10 = [f]) as HL.
    { pose proof (list_for_each_spec _ _ _ (3 + length (Cell <$> L 10)) H10 ltac:(lia)) as E1.
      assert (E2 : list_for_each (3 + length (Cell <$> L 10)) (Head 10) (cells s) = Done [Cell f]).
      { revert Ew. unfold list_for_each. destruct (get_next (Head 10) (cells s)) as [n|]; [|done].
        rewrite !bind_done. cbn [walk plus]. destruct (decide (n = Head 10)); [done|].
        destruct (get_next n (cells s)) as [n'|]; [|done]. rewrite !bind_done.
        destruct (decide (n' = Head 10)); [done|]. destruct (get_next n' (cells s)); done. }
      rewrite E1 in E2. injection E2 as E2. destruct (L 10) as [|q [|]]; simplify_eq/=; done. }
    pose proof (bi_front _ _ _ _ _ _ _ Hb) as HF. rewrite HL in HF.
    apply list_elem_of_singleton in HF as ->. split; [|done]. intros q. rewrite HL. set_solver.
Qed.

(** The memory after boot, and the life of the allocator: the kernel allocates
    where [can_alloc] holds, and frees blocks it owns.  The second component is the
    set of the blocks it owns, as (first page, order). *)
Inductive mm_step (E : Z) : mm * gset (Z * Z) → mm * gset (Z * Z) → Prop :=
| step_alloc s A o addr z s' :
    0 <= o <= 10 → can_alloc E o s = true →
    alloc_pages ALLOC_NORMAL o s = Done (addr, z, s') →
    mm_step E (s, A) (s', {[(virt_to_page addr, o)]} ∪ A)
| step_free s A p o s' :
    (p, o) ∈ A → free_pages o (page_to_virt p) s = Done s' →
    mm_step E (s, A) (s', A ∖ {[(p, o)]}).

Lemma alloc_pages_ok S E s L F A o : binv S E s L F A None → 0 <= o <= 10 → can_alloc E o s = true →
  ∃ p s' L' F', alloc_pages ALLOC_NORMAL o s = Done (page_to_virt p, None, s') ∧
    binv S E s' L' F' ({[(p, o)]} ∪ A) None ∧ S <= p ∧ p + 2 ^ o <= E ∧
    (∀ j o', (j, o') ∈ A → p + 2 ^ o <= j ∨ j + 2 ^ o' <= p).
Proof.
  intros Hb Ho Hc. pose proof (can_alloc_served _ _ _ _ _ _ _ Hb Ho Hc) as Hs.
  destruct (alloc_pages_buddy_spec S E _ _ _ _ _ Hb Ho Hs) as (p & s' & L' & F' & Ea & Hb' & _ & HpS & HpE & Hd).
  exists p, s', L', F'. split; [|done]. unfold alloc_pages.
  change (ALLOC_NORMAL <=? 0) with false. rewrite (proj2 (Z.ltb_ge o 0)), (proj2 (Z.ltb_ge 11 o)) by lia.
  unfold __alloc_pages. simpl orb. cbn iota.
  change (negb (Z.land ALLOC_NORMAL ALLOC_LOWMEM =? 0)) with false.
  change (negb (Z.land ALLOC_NORMAL ALLOC_NORMAL =? 0)) with true.
  change (negb (Z.land ALLOC_NORMAL ALLOC_ZEROED =? 0)) with false. cbn iota.
  rewrite Ea, bind_done. cbn beta iota. pose proof (bi_bounds _ _ _ _ _ _ _ Hb). pose proof (pow2_pos o ltac:(lia)).
  destruct (page_virt p ltac:(lia)) as [Hv _]. rewrite (proj2 (Z.eqb_neq (page_to_virt p) 0)) by lia. done.
Qed.

Lemma free_pages_ok S E s L F A p o : binv S E s L F A None → (p, o) ∈ A →
  ∃ s' L', free_pages o (page_to_virt p) s = Done s' ∧ binv S E s' L' F (A ∖ {[(p, o)]}) None.
Proof.
  intros Hb HA. destruct (free_pages_buddy_spec S E _ _ _ _ _ _ Hb HA) as (s' & L' & Ef & Hb').
  exists s', L'. split; [|done]. unfold free_pages. pose proof (bi_bounds _ _ _ _ _ _ _ Hb).
  destruct (pt_range _ _ _ (bi_part _ _ _ _ _ _ _ Hb) p o) as (? & ? & ?); [by right; left|].
  pose proof (pow2_pos o ltac:(lia)). destruct (page_virt p ltac:(lia)) as [Hv _].
  by rewrite (proj2 (Z.ltb_ge (page_to_virt p) _)) by lia.
Qed.

Lemma mm_step_inv S E st st' : mm_step E st st' →
  (∃ L F, binv S E st.1 L F st.2 None) → ∃ L F, binv S E st'.1 L F st'.2 None.
Proof.
  intros [s A o addr z s' Ho Hc Ea|s A p o s' HA Ef] (L & F & Hb); cbn [fst snd] in *.
  - destruct (alloc_pages_ok _ _ _ _ _ _ _ Hb Ho Hc) as (p & s1 & L' & F' & Ea' & Hb' & HS & HE & _).
    rewrite Ea in Ea'. injection Ea' as -> -> ->. pose proof (bi_bounds _ _ _ _ _ _ _ Hb).
    pose proof (pow2_pos o ltac:(lia)). destruct (page_virt p ltac:(lia)) as (_ & -> & _). eauto.
  - destruct (free_pages_ok _ _ _ _ _ _ _ _ Hb HA) as (s1 & L' & Ef' & Hb').
    rewrite Ef in Ef'. injection Ef' as ->. eauto.
Qed.

(** C1: the page allocator is safe. On a bootable machine whose page records start without
    PAGE_RESVD, [mem_init] succeeds, and after any sequence of [free_pages] of blocks that
    are owned and [alloc_pages] that can be served, this holds: an allocation of order [o] up
    to 10 that can be served - a list of one of the orders [o] to 9 is not empty, or the list
    of order 10 holds the frontier alone and 4M of memory are left behind it - returns, without
    fault, the address of a block of [2^o] pages of the managed memory that shares no page
    with any block in use; and every block in use can be freed without fault. (An allocation
    that cannot be served that way cuts up a returned 4M block or the end of memory, and may
    fault or hand memory out twice: [page_allocator_double].) *)
Theorem page_allocator_safe raw map ml mu :
  bootable map ml mu → flag_get PAGE_RESVD raw = false →
  ∃ s0, mem_init raw map ml mu = Done s0 ∧
  ∀ s A, rtc (mm_step (boot_nu mu)) (s0, ∅) (s, A) →
    (∀ o, 0 <= o <= 10 → can_alloc (boot_nu mu) o s = true →
      ∃ p s', alloc_pages ALLOC_NORMAL o s = Done (page_to_virt p, None, s') ∧
        boot_nk map ml mu <= p ∧ p + 2 ^ o <= boot_nu mu ∧
        ∀ j o', (j, o') ∈ A → p + 2 ^ o <= j ∨ j + 2 ^ o' <= p) ∧
    (∀ p o, (p, o) ∈ A → ∃ s', free_pages o (page_to_virt p) s = Done s').
Proof.
  intros Hb Hraw. destruct (mem_init_spec raw map ml mu Hb Hraw) as (s0 & E0 & Hb0).
  exists s0. split; [done|]. intros s A Hr.
  assert (Hinv : ∃ L F, binv (boot_nk map ml mu) (boot_nu mu) (s, A).1 L F (s, A).2 None).
  { apply (rtc_inv _ (λ st, ∃ L F, binv (boot_nk map ml mu) (boot_nu mu) st.1 L F st.2 None) _ _
      (mm_step_inv _ _) Hr). eauto. }
  destruct Hinv as (L & F & Hinv). split.
  - intros o Ho Hc. destruct (alloc_pages_ok _ _ _ _ _ _ _ Hinv Ho Hc) as (p & s' & _ & _ & ? & _ & ? & ? & ?).
    by exists p, s'.
  - intros p o HA. destruct (free_pages_ok _ _ _ _ _ _ _ _ Hinv HA) as (s' & _ & ? & _). by exists s'.
Qed.

Definition raw0 : page := mk_page 0 0 0.

Lemma page_allocator_safe_witness :
  ∃ s0, mem_init raw0 0xC0400000 640 17408 = Done s0 ∧
    ∃ s' p, alloc_pages ALLOC_NORMAL 3 s0 = Done (page_to_virt p, None, s').
Proof.
  destruct (page_allocator_safe raw0 0xC0400000 640 17408) as (s0 & E0 & Hs);
    [repeat split; lia|reflexivity|].
  exists s0. split; [exact E0|]. destruct (Hs s0 ∅ (rtc_refl _ _)) as [Ha _].
  destruct (Ha 3 ltac:(lia)) as (p & s' & Ea & _).
  - assert (Hc : (s ← mem_init raw0 0xC0400000 640 17408; Done (can_alloc (boot_nu 17408) 3 s)) = Done true)
      by (vm_compute; reflexivity).
    rewrite E0 in Hc. injection Hc as Hc. exact Hc.
  - exists s', p. exact Ea.
Defined.

(** Asking the allocator to cut up a returned 4M block breaks it: [expand]
    then links the page after the block into the list of order 10 without looking
    whether it is free.  On a 17M machine, after allocating two 4M blocks and
    freeing the first, the next two allocations return the first block, and the
    second one although it is still in use; and with no block freed at all, the
    allocator runs past the end of the page array instead of returning 0. *)
Theorem page_allocator_double :
  (∃ a b, a ≠ b ∧
    (s ← mem_init raw0 0xC0400000 640 17408;
     '(x1, _, s) ← alloc_pages ALLOC_NORMAL 10 s;
     '(x2, _, s) ← alloc_pages ALLOC_NORMAL 10 s;
     s ← free_pages 10 x1 s;
     '(x3, _, s) ← alloc_pages ALLOC_NORMAL 10 s;
     '(x4, _, s) ← alloc_pages ALLOC_NORMAL 10 s;
     Done (x1, x2, x3, x4)) = Done (a, b, a, b)) ∧
  (s ← mem_init raw0 0xC0400000 640 16384;
   '(_, _, s) ← alloc_pages ALLOC_NORMAL 10 s;
   '(_, _, s) ← alloc_pages ALLOC_NORMAL 10 s;
   '(_, _, s) ← alloc_pages ALLOC_NORMAL 10 s;
   Done tt) = Fail BadPtr.
Proof.
  split; [|vm_compute; reflexivity].
  exists 3225505792, 3229700096. split; [done|]. vm_compute. reflexivity.
Qed.

(** ** The lower memory *)

(** The records of the lower pages exist, and the page that follows them (the
    first one of the upper memory, which the kernel occupies) is in use. *)
Record lowmem_ok (s : mm) : Prop := mk_lowmem_ok {
  lm_pages i : 0 <= i <= lowmem_pages s → is_Some (pages s !! lower i s);
  lm_end pg : pages s !! lower (lowmem_pages s) s = Some pg → count pg ≠ minus1;
  lm_size : 0 <= lowmem_pages s < 2 ^ 18;
}.

Definition low_free (s : mm) (i : Z) : Prop :=
  ∃ pg, pages s !! lower i s = Some pg ∧ count pg = minus1.

Lemma lowmem_scan_spec s n j num : lowmem_ok s → 0 <= j <= lowmem_pages s →
  ∃ r, lowmem_scan n j num s = Done r ∧
    match r with
    | None => ∀ k, j <= k < j + Z.of_nat n → low_free s k
    | Some m => num <= m < num + Z.of_nat n ∧ ¬ low_free s (j + (m - num)) ∧
                ∀ k, j <= k < j + (m - num) → low_free s k
    end ∧ j + Z.of_nat n <= lowmem_pages s + (if r then Z.of_nat n else 0).
Proof.
  intros Hok. revert j num. induction n as [|n IH]; intros j num Hj; cbn [lowmem_scan].
  { exists None. split; [done|]. split; [lia|lia]. }
  destruct (lm_pages _ Hok j Hj) as [pg Hpg]. unfold page_at. rewrite Hpg. cbn [deref].
  rewrite bind_done. destruct (Z.eqb_spec (count pg) minus1) as [Hc|Hc].
  - assert (j ≠ lowmem_pages s) by (intros ->; by apply (lm_end _ Hok) in Hpg).
    destruct (IH (j + 1) (num + 1) ltac:(lia)) as (r & -> & Hr & Hb). exists r. split; [done|].
    destruct r as [m|]; (split; [|lia]).
    + destruct Hr as (Hm & Hnf & Hf). split; [lia|]. split; [by replace (j + (m - num)) with (j + 1 + (m - (num + 1))) by lia|].
      intros k Hk. destruct (decide (k = j)) as [->|]; [by exists pg|apply Hf; lia].
    + intros k Hk. destruct (decide (k = j)) as [->|]; [by exists pg|apply Hr; lia].
  - exists (Some num). split; [done|]. split; [|lia]. split; [lia|]. split; [|lia].
    replace (j + (num - num)) with j by lia. intros (pg' & ? & ?). simplify_eq.
Qed.

(** The pages the allocator takes. *)
Lemma lowmem_take_spec s i (n : nat) : (∀ k, i <= k < i + Z.of_nat n → low_free s k) →
  ∃ m, foldM (λ j, upd_page (lower j s) (λ pg, with_count (count pg + 1) pg)) (seqZ i (Z.of_nat n)) s
    = Done (set_pages m s) ∧
    ∀ q, m !! q = if decide (lower i s <= q < lower i s + Z.of_nat n)
                  then with_count 0 <$> pages s !! q else pages s !! q.
Proof.
  intros Hf.
  assert (Hs : ∀ k, foldM (λ j, upd_page (lower j s) (λ pg, with_count (count pg + 1) pg)) (seqZ i (Z.of_nat k)) =
               foldM (λ j, upd_page (lower i s + j) (λ pg, with_count (count pg + 1) pg)) (seqZ 0 (Z.of_nat k))).
  { intros k. assert (E : seqZ i (Z.of_nat k) = Z.add i <$> seqZ 0 (Z.of_nat k)) by (by rewrite fmap_add_seqZ, Z.add_0_r).
    rewrite E. generalize (seqZ 0 (Z.of_nat k)) as xs. intros xs. induction xs as [|x xs IH]; [done|].
    cbn [fmap list_fmap foldM]. unfold lower in *. rewrite <- IH. by replace (i - lowmem_pages s + x) with (i + x - lowmem_pages s) by lia. }
  rewrite Hs.
  destruct (foldM_pages (with_count 0) (λ j, upd_page (lower i s + j) (λ pg, with_count (count pg + 1) pg))
    (λ pg, count pg = minus1) (lower i s) n s) as (m & Em & Hm); [| |by exists m].
  - intros j s0 pg Hj Hc. rewrite (upd_page_done _ _ _ _ Hj). rewrite Hc. done.
  - intros j Hj. destruct (Hf (i + j) ltac:(lia)) as (pg & Hpg & Hc). exists pg. split; [|done].
    rewrite <- Hpg. f_equal. unfold lower. lia.
Qed.

Lemma lowmem_loop_spec fuel i nr s : lowmem_ok s → 0 < nr → 0 <= i <= lowmem_pages s →
  (Z.to_nat (lowmem_pages s - i) < fuel)%nat →
  ∃ a s', lowmem_loop fuel i nr s = Done (a, s') ∧
    ((a = minus1 ∧ s' = s) ∨
     ∃ k m, a = 0xC0000000 + k * 4096 ∧ 0 <= k ∧ k + nr <= lowmem_pages s ∧
       s' = set_pages m s ∧ (∀ j, k <= j < k + nr → low_free s j) ∧
       ∀ q, m !! q = if decide (lower k s <= q < lower k s + nr)
                     then with_count 0 <$> pages s !! q else pages s !! q).
Proof.
  intros Hok Hnr. revert i. induction fuel as [|fuel IH]; intros i Hi Hf; [lia|].
  cbn [lowmem_loop]. destruct (Z.ltb_spec i (lowmem_pages s)) as [Hl|Hl]; cbn [negb]; [|by exists minus1, s; auto].
  destruct (lm_pages _ Hok i Hi) as [pg Hpg]. unfold page_at. rewrite Hpg. cbn [deref]. rewrite bind_done.
  destruct (Z.eqb_spec (count pg) minus1) as [Hc|Hc]; [|apply IH; lia].
  destruct (lowmem_scan_spec s (Z.to_nat nr) i 0 Hok Hi) as (r & -> & Hr & Hb). rewrite bind_done.
  destruct r as [num|].
  - destruct Hr as (Hm & Hnf & Hfr). assert (num ≠ 0).
    { intros ->. apply Hnf. exists pg. by replace (i + (0 - 0)) with i by lia. }
    assert (i + num <= lowmem_pages s).
    { destruct (decide (i + num <= lowmem_pages s)) as [|Hgt]; [done|]. exfalso.
      destruct (Hfr (lowmem_pages s)) as (pg' & Hp' & Hc'); [lia|]. by apply (lm_end _ Hok) in Hp'. }
    apply IH; lia.
  - unfold page_is_ok, page_at. rewrite Hpg. cbn [deref]. rewrite !bind_done.
    destruct (negb (negb (flag_get PAGE_RESVD pg))); [apply IH; lia|].
    destruct (lowmem_take_spec s i (Z.to_nat nr) Hr) as (m & Em & Hm).
    rewrite Z2Nat.id in Em, Hm, Hr, Hb by lia. rewrite Em, bind_done.
    eexists _, _. split; [reflexivity|]. right. exists i, m. pose proof (lm_size _ Hok).
    unfold PAGE_SHIFT. rewrite Z.shiftl_mul_pow2, u32_small by lia.
    split; [lia|]. split; [lia|]. split; [lia|]. split; [done|]. split; [done|exact Hm].
Qed.

(** C7: [alloc_pages_lowmem] returns for every request (each turn of its scan moves
    on), without leaving the page array: either the value [-1] and nothing has
    changed, or the address of [nr] consecutive pages of the lower memory, all of
    which were free; exactly these are now counted once. Given back one by one, they
    are free again, and the page array is as before. *)
Theorem alloc_pages_lowmem_ok nr s :
  lowmem_ok s →
  ∃ a s', alloc_pages_lowmem nr s = Done (a, s') ∧
    ((a = minus1 ∧ s' = s) ∨
     ∃ k, a = 0xC0000000 + k * 4096 ∧ 0 <= k ∧ k + nr <= lowmem_pages s ∧
       (∀ j, k <= j < k + nr → low_free s j) ∧
       (∀ q pg, pages s' !! q = Some pg →
          if decide (lower k s <= q < lower k s + nr) then count pg = 0
          else pages s !! q = Some pg) ∧
       (a + nr * 4096 <= 0xC0100000 → free_pages_lowmem nr a s' = Done s)).
Proof.
  intros Hok. unfold alloc_pages_lowmem. destruct (Z.leb_spec nr 0) as [|Hnr]; [by eexists _, _; eauto|].
  pose proof (lm_size _ Hok).
  destruct (lowmem_loop_spec (S (Z.to_nat (lowmem_pages s))) 0 nr s Hok Hnr ltac:(lia) ltac:(lia))
    as (a & s' & -> & [Hx|(k & m & -> & Hk & Hkn & -> & Hfree & Hm)]); [by eexists _, _; eauto|].
  eexists _, _. split; [done|]. right. exists k. split; [done|]. split; [done|]. split; [done|]. split; [done|].
  split.
  - intros q pg. cbn [set_pages pages]. rewrite Hm. case_decide; [|done].
    destruct (pages s !! q); [|done]. by intros [= <-].
  - intros Hlow. unfold free_pages_lowmem.
    set (P := λ (xs : list Z) (s1 : mm), ∃ m1, s1 = set_pages m1 s ∧
      ∀ q, m1 !! q = if decide (lower k s + Z.of_nat (length xs) <= q < lower k s + nr)
                     then with_count 0 <$> pages s !! q else pages s !! q).
    destruct (foldM_ind (λ i, free_page_lowmem (u32 (0xC0000000 + k * 4096 + i * PAGE_SIZE))) P (seqZ 0 nr)
      (set_pages m s)) as (s2 & -> & m2 & -> & Hm2).
    + intros ys x zs s1 Hx (m1 & -> & Hm1). 
      assert (Hxl : x = Z.of_nat (length ys) ∧ x < nr).
      { assert (Hlk : seqZ 0 nr !! length ys = Some x) by (rewrite Hx; by rewrite list_lookup_middle).
        apply lookup_seqZ in Hlk. lia. }
      destruct (Hfree (k + x) ltac:(lia)) as (pg & Hpg & Hc).
      assert (Hlp : lower (k + x) s = lower k s + x) by (unfold lower; lia).
      assert (E1 : m1 !! lower (k + x) s = Some (with_count 0 pg)).
      { rewrite Hm1, decide_True, Hpg by lia. done. }
      unfold PAGE_SIZE. rewrite u32_small by lia. unfold free_page_lowmem.
      rewrite (proj2 (Z.ltb_ge 0xC0100000 _)) by lia. rewrite andb_false_r.
      replace (0xC0000000 + k * 4096 + x * 4096) with (0xC0000000 + (k + x) * 2 ^ 12) by lia.
      assert (Z.land (0xC0000000 + (k + x) * 2 ^ 12) 0xFFF = 0) as ->.
      { change 0xFFF with (Z.ones 12). rewrite Z.land_ones by lia.
        replace (3221225472 + (k + x) * 2 ^ 12) with ((786432 + (k + x)) * 2 ^ 12) by lia. by apply Z.mod_mul. }
      cbn [negb Z.eqb]. rewrite u32_small by lia. unfold PAGE_SHIFT. rewrite Z.shiftr_div_pow2 by lia.
      replace (3221225472 + (k + x) * 2 ^ 12 - 3221225472) with ((k + x) * 2 ^ 12) by lia.
      rewrite Z.div_mul by lia. unfold page_at. cbn [set_pages pages lower lowmem_pages].
      change (lower (k + x) (set_pages m1 s)) with (lower (k + x) s). rewrite E1. cbn [deref].
      rewrite bind_done. change (count (with_count 0 pg) =? minus1) with false. cbn iota.
      rewrite (upd_page_done _ _ _ (with_count 0 pg)) by exact E1.
      eexists. split; [reflexivity|]. eexists. split; [reflexivity|]. intros q.
      rewrite length_app. simpl length. destruct (decide (q = lower (k + x) s)) as [->|Hne].
      * rewrite lookup_insert_eq, decide_False by lia. rewrite Hpg. f_equal. destruct pg. cbn in *. by subst.
      * rewrite lookup_insert_ne, Hm1 by done. repeat case_decide; done || lia.
    + exists m. split; [done|]. intros q. rewrite Hm. simpl. by rewrite Z.add_0_r.
    + f_equal. rewrite length_seqZ, Z2Nat.id in Hm2 by lia.
      destruct s. unfold set_pages. cbn [pages] in *. f_equal. apply map_eq. intros q.
      rewrite Hm2. by rewrite decide_False by lia.
Qed.

(** Four lower pages, the first reserved and the second in use. *)
Definition lowmem_example : mm :=
  mk_mm {[ -4 := mk_page 256 minus1 0; -3 := mk_page 0 0 0; -2 := mk_page 0 minus1 0;
           -1 := mk_page 0 minus1 0; 0 := mk_page 256 1 0 ]} ∅ [] 4 0 0.

Lemma alloc_pages_lowmem_ok_witness :
  ∃ s', alloc_pages_lowmem 2 lowmem_example = Done (0xC0002000, s') ∧
    free_pages_lowmem 2 0xC0002000 s' = Done lowmem_example.
Proof.
  destruct (alloc_pages_lowmem_ok 2 lowmem_example) as (a & s' & E & [[Ha Hs]|(k & Ha & _ & _ & _ & _ & Hf)]).
  - constructor.
    + intros i Hi. cbn in Hi. assert (i = 0 ∨ i = 1 ∨ i = 2 ∨ i = 3 ∨ i = 4) as H by lia.
      destruct H as [->|[->|[->|[->| ->]]]]; eexists; vm_compute; reflexivity.
    + intros pg E. vm_compute in E. injection E as <-. vm_compute. congruence.
    + cbn. lia.
  - exfalso. subst. vm_compute in E. congruence.
  - assert (a = 0xC0002000) as ->.
    { assert (Ea : (r ← alloc_pages_lowmem 2 lowmem_example; Done r.1) = Done 0xC0002000)
        by (vm_compute; reflexivity).
      rewrite E in Ea. by injection Ea. }
    exists s'. split; [exact E|]. apply Hf. lia.
Defined.
