(* ===== verification/Timer.v ===== *)
(** * Software timers and the clock ([Kernel/timer.c], [Kernel/time.c])

    The timers hang on one intrusive list, in the order of registration; their
    identifiers come from an identifier map, used through the interface [IdAlloc].
    The interrupt handler counts ticks and advances [xtime]; the timer thread
    walks the list and calls the timers that have expired.  A timer is known by the
    address of its [struct timer_list]. *)

From S2P Require Import Prelude LinkedList Pid.

(** ** Timers *)

Definition TIMER_FLAG_ENABLED := 1.
Definition TIMER_FLAG_ONESHUT := 4.
Definition TIMER_FLAG_PERIODIC := 8.
Definition has_flag (fl bit : Z) : bool := negb (Z.land fl bit =? 0).

(** [struct timer_list] without its [list] cell; [func = 0] is the NULL pointer. *)
Record timer_list : Type := mk_timer {
  expires : Z; interval : Z; timer_id : Z; func : Z; data : Z; flag : Z }.

Section timer.
Context {S : Type} `{IdAlloc S}.

(** [timer_cells]: the list cells, [None] for [timer_list_head] and [Some t] for
    the cell of the timer [t]. *)
Record tsys : Type := mk_tsys {
  timers : gmap Z timer_list;
  timer_cells : gmap (option Z) (linked_list (option Z));
  timer_id_obj : S;
  ticks : Z;
}.
Implicit Types (s : tsys).

Definition set_timers m s := mk_tsys m (timer_cells s) (timer_id_obj s) (ticks s).
Definition set_tcells c s := mk_tsys (timers s) c (timer_id_obj s) (ticks s).
Definition set_ids i s := mk_tsys (timers s) (timer_cells s) i (ticks s).
Definition on_tcells f s : outcome tsys := c ← f (timer_cells s); Done (set_tcells c s).

Definition add_timer (t : Z) s : outcome tsys := on_tcells (list_add_tail None (Some t)) s.
Definition del_timer (t : Z) s : outcome tsys := on_tcells (list_del (Some t)) s.

Definition get_unused_timer_id s : outcome (Z * tsys) :=
  '(id, o) ← ia_get (timer_id_obj s); Done (id, set_ids o s).
Definition release_timer_id (id : Z) s : outcome tsys :=
  o ← ia_put (timer_id_obj s) id; Done (set_ids o s).

(** [mem] is what [kzalloc] returns ([None] for NULL). *)
Definition register_timer (mem : option Z) (expired type callback arg : Z) s : outcome (Z * tsys) :=
  if expired <? 0 then Done (- EINVAL, s) else
  let both := Z.lor TIMER_FLAG_ONESHUT TIMER_FLAG_PERIODIC in
  if (Z.land type both =? 0) || (Z.land type both =? both) then Done (- EINVAL, s) else
  match mem with
  | None => Done (- ENOBUFS, s)
  | Some t =>
      s ← on_tcells (λ c, list_init (Some (Some t)) (<[Some t := mk_ll None None]> c)) s;
      '(id, s) ← get_unused_timer_id s;
      let exp := if has_flag type TIMER_FLAG_ONESHUT || has_flag type TIMER_FLAG_PERIODIC
                 then u32 (ticks s + expired) else 0 in
      let int := if has_flag type TIMER_FLAG_PERIODIC then u32 expired else 0 in
      let s := set_timers (<[t := mk_timer exp int id callback (u32 arg) (u32 type)]> (timers s)) s in
      s ← add_timer t s;
      Done (id, s)
  end.

(** The search loop of [unregister_timer] and [timer_get_expired]: the timer, or
    [None] when the head comes back. *)
Fixpoint find_timer (fuel : nat) (p : option Z) (id : Z) s : outcome (option Z) :=
  match fuel with
  | O => Fail Diverge
  | Datatypes.S fuel =>
      match p with
      | None => Done None
      | Some t =>
          r ← deref (timers s !! t);
          if timer_id r =? id then Done (Some t)
          else n ← get_next p (timer_cells s); find_timer fuel n id s
      end
  end.

Definition search_timer (id : Z) s : outcome (option Z) :=
  p ← get_next None (timer_cells s);
  find_timer (Datatypes.S (base.size (timers s))) p id s.

Definition unregister_timer (id : Z) s : outcome (Z * tsys) :=
  if id <? 0 then Done (- EINVAL, s) else
  r ← search_timer id s;
  match r with
  | None => Done (- EINVAL, s)
  | Some t =>
      s ← del_timer t s;
      s ← release_timer_id id s;
      (* [kfree(t)] *)
      Done (0, mk_tsys (delete t (timers s)) (delete (Some t) (timer_cells s)) (timer_id_obj s) (ticks s))
  end.

(** The returned value, and what is stored at [val]. *)
Definition timer_get_expired (id : Z) s : outcome (Z * option Z) :=
  if id <? 0 then Done (- EINVAL, None) else
  r ← search_timer id s;
  match r with
  | None => Done (- EINVAL, None)
  | Some t => tm ← deref (timers s !! t); Done (0, Some (expires tm))
  end.

Definition ksetitimer : Z := - ENOSYS.

(** One pass of the loop of [timerisr] over the list.  [call] is what a callback
    does to the timers and to the rest of the kernel, of type [W]. *)
Context {W : Type} (call : Z → Z → tsys * W → outcome (tsys * W)).

Definition upd_timer (t : Z) (f : timer_list → timer_list) (sw : tsys * W) : outcome (tsys * W) :=
  r ← deref (timers sw.1 !! t);
  Done (set_timers (<[t := f r]> (timers sw.1)) sw.1, sw.2).
Definition with_flag v r := mk_timer (expires r) (interval r) (timer_id r) (func r) (data r) v.
Definition with_expires v r := mk_timer v (interval r) (timer_id r) (func r) (data r) (flag r).

Definition timer_body (t : Z) (sw : tsys * W) : outcome (tsys * W) :=
  r ← deref (timers sw.1 !! t);
  if negb (has_flag (flag r) TIMER_FLAG_ENABLED) then Done sw else
  sw ← (if has_flag (flag r) TIMER_FLAG_ONESHUT && (expires r <=? u32 (ticks sw.1)) && negb (func r =? 0)
        then
          sw ← upd_timer t (λ r, with_flag (Z.land (flag r) (u32 (Z.lnot TIMER_FLAG_ENABLED))) r) sw;
          call (func r) (data r) sw
        else Done sw);
  r ← deref (timers sw.1 !! t);
  if has_flag (flag r) TIMER_FLAG_PERIODIC && (expires r <=? u32 (ticks sw.1)) then
    sw ← (if negb (func r =? 0) then call (func r) (data r) sw else Done sw);
    upd_timer t (λ r, with_expires (u32 (ticks sw.1 + interval r)) r) sw
  else Done sw.

Fixpoint timerisr_loop (fuel : nat) (p : option Z) (sw : tsys * W) : outcome (tsys * W) :=
  match fuel with
  | O => Fail Diverge
  | Datatypes.S fuel =>
      match p with
      | None => Done sw
      | Some t =>
          sw ← timer_body t sw;
          n ← get_next p (timer_cells sw.1);
          timerisr_loop fuel n sw
      end
  end.

Definition timerisr_pass (fuel : nat) (sw : tsys * W) : outcome (tsys * W) :=
  p ← get_next None (timer_cells sw.1);
  timerisr_loop fuel p sw.
End timer.
Arguments tsys S : clear implicits.

(** ** The registry of timers *)

Section registry.
Context {S : Type} `{IdAlloc S}.
Implicit Types (s : tsys S) (ts : list Z).

Definition family (ts : list Z) : gmap (option Z) (list (option Z)) := {[None := Some <$> ts]}.

Record twf s ts : Prop := mk_twf {
  tw_lists : lists (timer_cells s) (family ts);
  tw_dom : dom (timers s) = list_to_set ts;
  tw_ids : ia_wf (timer_id_obj s);
  tw_id t r : timers s !! t = Some r →
    0 <= timer_id r < ia_cap (timer_id_obj s) ∧ timer_id r ∉ ia_free (timer_id_obj s);
  tw_inj t1 t2 r1 r2 : timers s !! t1 = Some r1 → timers s !! t2 = Some r2 →
    timer_id r1 = timer_id r2 → t1 = t2;
}.

Lemma family_lookup ts k xs : family ts !! k = Some xs ↔ k = None ∧ xs = Some <$> ts.
Proof. unfold family. rewrite lookup_singleton_Some. naive_solver. Qed.

Lemma twf_list s ts : twf s ts → is_list (timer_cells s) None (Some <$> ts).
Proof. intros Hw. apply (tw_lists _ _ Hw). by apply family_lookup. Qed.

Lemma twf_nodup s ts : twf s ts → NoDup ts.
Proof. intros [[_ Hn]%NoDup_cons _]%twf_list. by apply NoDup_fmap_1 in Hn. Qed.

Lemma twf_elem s ts t : twf s ts → t ∈ ts ↔ is_Some (timers s !! t).
Proof. intros Hw. by rewrite <- elem_of_dom, (tw_dom _ _ Hw), elem_of_list_to_set. Qed.

Lemma twf_size s ts : twf s ts → base.size (timers s) = length ts.
Proof.
  intros Hw. rewrite <- size_dom, (tw_dom _ _ Hw). apply size_list_to_set. by eapply twf_nodup.
Qed.

Definition has_id s (id t : Z) : bool :=
  match timers s !! t with Some r => timer_id r =? id | None => false end.

Lemma find_timer_spec s id a xs fuel : chain (timer_cells s) a (Some <$> xs) None →
  (∀ t, t ∈ xs → is_Some (timers s !! t)) → (length xs < fuel)%nat →
  find_timer fuel (first_or (Some <$> xs) None) id s =
    Done (hd_error (filter (λ t, has_id s id t = true) xs)).
Proof.
  revert a fuel. induction xs as [|x xs IH]; intros a [|fuel] Hc Hs Hf; simpl in Hf; try lia; [done|].
  change (first_or (Some <$> x :: xs) None) with (Some x). cbn [find_timer].
  destruct (Hs x) as [r Hr]; [set_solver|]. rewrite Hr. cbn [deref]. rewrite bind_done.
  assert (Hid : has_id s id x = (timer_id r =? id)) by (unfold has_id; by rewrite Hr).
  destruct (timer_id r =? id); [by rewrite filter_cons_True|]. rewrite filter_cons_False by (by rewrite Hid).
  destruct Hc as (_ & _ & Hc). rewrite (get_next_spec _ _ _ (chain_next _ _ _ _ Hc)), bind_done.
  apply (IH (Some x)); [done|set_solver|lia].
Qed.

Lemma search_timer_spec s ts id : twf s ts →
  search_timer id s = Done (hd_error (filter (λ t, has_id s id t = true) ts)).
Proof.
  intros Hw. destruct (twf_list _ _ Hw) as [_ Hc]. unfold search_timer.
  rewrite (get_next_spec _ _ _ (chain_next _ _ _ _ Hc)), bind_done.
  apply (find_timer_spec _ _ None); [done| |rewrite (twf_size _ _ Hw); lia].
  intros t. by rewrite (twf_elem _ _ _ Hw).
Qed.

Lemma search_found s ts t r : twf s ts → timers s !! t = Some r →
  search_timer (timer_id r) s = Done (Some t).
Proof.
  intros Hw Hr. rewrite (search_timer_spec _ _ _ Hw). f_equal.
  destruct (filter (λ t0, has_id s (timer_id r) t0 = true) ts) as [|t' xs] eqn:Ef.
  - exfalso. assert (t ∈ filter (λ t0, has_id s (timer_id r) t0 = true) ts) as Hin.
    { apply list_elem_of_filter. split; [|apply (twf_elem _ _ _ Hw); eauto].
      unfold has_id. rewrite Hr. apply Z.eqb_refl. }
    rewrite Ef in Hin. by apply not_elem_of_nil in Hin.
  - assert (t' ∈ filter (λ t0, has_id s (timer_id r) t0 = true) ts) as Hin by (rewrite Ef; set_solver).
    apply list_elem_of_filter in Hin as [Hid _]. unfold has_id in Hid.
    destruct (timers s !! t') as [r'|] eqn:Er'; [|done]. apply Z.eqb_eq in Hid.
    simpl. f_equal. by eapply (tw_inj _ _ Hw).
Qed.

Lemma search_none s ts id : twf s ts → (∀ t r, timers s !! t = Some r → timer_id r ≠ id) →
  search_timer id s = Done None.
Proof.
  intros Hw Hn. rewrite (search_timer_spec _ _ _ Hw). f_equal.
  destruct (filter (λ t0, has_id s id t0 = true) ts) as [|t' xs] eqn:Ef; [done|].
  assert (t' ∈ filter (λ t0, has_id s id t0 = true) ts) as Hin by (rewrite Ef; set_solver).
  apply list_elem_of_filter in Hin as [Hid _]. unfold has_id in Hid.
  destruct (timers s !! t') as [r'|] eqn:Er'; [|done]. apply Z.eqb_eq in Hid. by apply Hn in Er'.
Qed.

(** *** Registration *)

Lemma link_family ts t : t ∉ ts →
  link_tail None (Some t) (<[Some t := []]> (family ts)) = family (ts ++ [t]).
Proof.
  intros Ht. unfold link_tail, family. apply map_eq. intros k.
  rewrite delete_insert_id by (by rewrite lookup_singleton_ne).
  destruct k as [k|].
  - rewrite lookup_alter_ne, !lookup_singleton_ne by done. done.
  - rewrite lookup_alter_eq, !lookup_singleton_eq. simpl. by rewrite fmap_app.
Qed.

Lemma unlink_family ts t : NoDup ts → t ∈ ts →
  delete (Some t) (unlink (Some t) (family ts)) = family (rm t ts).
Proof.
  intros Hnd Ht. unfold unlink, family. apply map_eq. intros k. destruct (decide (k = Some t)) as [->|Hne].
  - by rewrite lookup_delete_eq, lookup_singleton_ne.
  - rewrite lookup_delete_ne, lookup_insert_ne, lookup_fmap by done. destruct k as [k|].
    + by rewrite !lookup_singleton_ne by done.
    + rewrite !lookup_singleton_eq. simpl. f_equal. unfold rm. clear.
      induction ts as [|x ts IH]; [done|]. rewrite fmap_cons. destruct (decide (x = t)) as [->|Hx].
      * by rewrite !filter_cons_False by auto.
      * rewrite !filter_cons_True, fmap_cons, IH by (done || congruence). done.
Qed.

Lemma new_timer_cells h ts t : lists h (family ts) → t ∉ ts →
  ∃ h1 h2, list_init (Some (Some t)) (<[Some t := mk_ll None None]> h) = Done h1 ∧
    list_add_tail None (Some t) h1 = Done h2 ∧ lists h2 (family (ts ++ [t])).
Proof.
  intros Hl Ht.
  assert (Hn : ∀ hd xs, family ts !! hd = Some xs → Some t ∉ hd :: xs).
  { intros hd xs [-> ->]%family_lookup. rewrite elem_of_cons, list_elem_of_fmap.
    intros [|(y & [= <-] & ?)]; done. }
  destruct (lists_init (<[Some t := mk_ll None None]> h) (family ts) (Some t)) as (h1 & E1 & Hl1 & _).
  - eapply lists_frame; [|done]. intros hd xs q Hx Hq. rewrite lookup_insert_ne; [done|].
    intros <-. by apply (Hn hd xs Hx).
  - rewrite lookup_insert_eq. eauto.
  - done.
  - destruct (lists_add_tail h1 _ None (Some t) (Some <$> ts) Hl1) as (h2 & E2 & Hl2 & _).
    + by rewrite lookup_insert_ne.
    + by rewrite lookup_insert_eq.
    + done.
    + exists h1, h2. rewrite link_family in Hl2 by done. auto.
Qed.

Definition type_ok (type : Z) : Prop :=
  has_flag type TIMER_FLAG_ONESHUT = negb (has_flag type TIMER_FLAG_PERIODIC).

Lemma type_checks type :
  let both := Z.lor TIMER_FLAG_ONESHUT TIMER_FLAG_PERIODIC in
  (Z.land type both =? 0) || (Z.land type both =? both) = bool_decide (¬ type_ok type).
Proof.
  cbv zeta. unfold type_ok, has_flag, TIMER_FLAG_ONESHUT, TIMER_FLAG_PERIODIC. change (Z.lor 4 8) with 12.
  assert (H4 : Z.land type 4 = if Z.testbit type 2 then 4 else 0).
  { apply Z.bits_inj'. intros k Hk. rewrite Z.land_spec. change 4 with (2 ^ 2) at 1.
    rewrite Z.pow2_bits_eqb by lia. destruct (Z.eqb_spec 2 k) as [<-|].
    - rewrite andb_true_r. by destruct (Z.testbit type 2).
    - rewrite andb_false_r. destruct (Z.testbit type 2); [|by rewrite Z.testbit_0_l].
      change 4 with (2 ^ 2). rewrite Z.pow2_bits_eqb by lia. symmetry. by apply Z.eqb_neq. }
  assert (H8 : Z.land type 8 = if Z.testbit type 3 then 8 else 0).
  { apply Z.bits_inj'. intros k Hk. rewrite Z.land_spec. change 8 with (2 ^ 3) at 1.
    rewrite Z.pow2_bits_eqb by lia. destruct (Z.eqb_spec 3 k) as [<-|].
    - rewrite andb_true_r. by destruct (Z.testbit type 3).
    - rewrite andb_false_r. destruct (Z.testbit type 3); [|by rewrite Z.testbit_0_l].
      change 8 with (2 ^ 3). rewrite Z.pow2_bits_eqb by lia. symmetry. by apply Z.eqb_neq. }
  assert (H12 : Z.land type 12 = Z.land type 4 + Z.land type 8).
  { change 12 with (Z.lor 4 8). rewrite Z.land_lor_distr_r, H4, H8.
    by destruct (Z.testbit type 2), (Z.testbit type 3). }
  rewrite H12, H4, H8. by destruct (Z.testbit type 2), (Z.testbit type 3).
Qed.

Lemma on_tcells_done f s c : f (timer_cells s) = Done c → on_tcells f s = Done (set_tcells c s).
Proof. intros Hf. unfold on_tcells. by rewrite Hf. Qed.

Lemma register_timer_spec s ts t expired type callback arg :
  twf s ts → t ∉ ts → 0 <= expired → type_ok type → ia_free (timer_id_obj s) ≠ ∅ →
  ∃ id s', register_timer (Some t) expired type callback arg s = Done (id, s') ∧
    twf s' (ts ++ [t]) ∧ ticks s' = ticks s ∧
    (id ∈ ia_free (timer_id_obj s) ∧ ∀ j, j ∈ ia_free (timer_id_obj s) → id <= j) ∧
    ia_free (timer_id_obj s') = ia_free (timer_id_obj s) ∖ {[id]} ∧
    ia_cap (timer_id_obj s') = ia_cap (timer_id_obj s) ∧
    timers s' = <[t := mk_timer (u32 (ticks s + expired))
                   (if has_flag type TIMER_FLAG_PERIODIC then u32 expired else 0)
                   id callback (u32 arg) (u32 type)]> (timers s).
Proof.
  intros Hw Ht He Hty Hfree. unfold register_timer. rewrite (proj2 (Z.ltb_ge expired 0)) by done.
  cbv zeta. rewrite type_checks, bool_decide_false by tauto.
  destruct (new_timer_cells _ _ t (tw_lists _ _ Hw) Ht) as (h1 & h2 & E1 & E2 & Hl2).
  destruct (ia_get_law _ (tw_ids _ _ Hw) Hfree) as (id & o & Eg & Hwo & Hcap & Hid & Hf & Hmin).
  erewrite on_tcells_done by exact E1. rewrite bind_done. unfold get_unused_timer_id.
  cbn [timer_id_obj set_tcells]. rewrite Eg, !bind_done. cbn beta iota.
  cbn [ticks set_ids set_tcells timers].
  assert (has_flag type TIMER_FLAG_ONESHUT || has_flag type TIMER_FLAG_PERIODIC = true) as ->.
  { unfold type_ok in Hty. rewrite Hty. by destruct (has_flag type TIMER_FLAG_PERIODIC). }
  unfold add_timer. erewrite on_tcells_done by exact E2. rewrite bind_done.
  eexists _, _. split; [reflexivity|]. cbn [ticks timer_id_obj timers set_tcells set_timers set_ids].
  split; [|by split_and!].
  assert (Hnone : timers s !! t = None).
  { apply eq_None_not_Some. by rewrite <- (twf_elem _ _ _ Hw). }
  assert (Hfr : ∀ t' r, timers s !! t' = Some r → timer_id r ≠ id).
  { intros t' r Hr Heq. apply (tw_id _ _ Hw) in Hr as [_ Hn]. apply Hn. by rewrite Heq. }
  constructor; cbn [timer_cells timers timer_id_obj set_tcells set_timers set_ids]; try done.
  - rewrite dom_insert_L, (tw_dom _ _ Hw), list_to_set_app_L. simpl. set_solver.
  - intros t' r. rewrite Hcap, Hf. intros [[<- <-]|[? Hr]]%lookup_insert_Some; cbn [timer_id].
    + split; [by apply ia_free_range; [apply Hw|]|set_solver].
    + destruct (tw_id _ _ Hw _ _ Hr). split; [done|set_solver].
  - intros t1 t2 r1 r2 [[<- <-]|[? H1]]%lookup_insert_Some [[<- <-]|[? H2]]%lookup_insert_Some;
      cbn [timer_id]; intros Heq; [done|by apply Hfr in H2|by apply Hfr in H1|by eapply (tw_inj _ _ Hw)].
Qed.

(** *** Removal *)

Lemma unregister_timer_spec s ts t r : twf s ts → timers s !! t = Some r →
  ∃ s', unregister_timer (timer_id r) s = Done (0, s') ∧ twf s' (rm t ts) ∧ ticks s' = ticks s ∧
    timers s' = delete t (timers s) ∧
    ia_free (timer_id_obj s') = {[timer_id r]} ∪ ia_free (timer_id_obj s).
Proof.
  intros Hw Hr. destruct (tw_id _ _ Hw _ _ Hr) as [Hrange Hnf].
  assert (Hin : t ∈ ts) by (apply (twf_elem _ _ _ Hw); eauto).
  unfold unregister_timer. rewrite (proj2 (Z.ltb_ge (timer_id r) 0)) by lia.
  rewrite (search_found _ _ _ _ Hw Hr), bind_done.
  destruct (lists_del _ _ (Some t) (tw_lists _ _ Hw)) as (h' & Ed & Hl' & _).
  { left. exists None, (Some <$> ts). split; [by apply family_lookup|by apply list_elem_of_fmap_2]. }
  unfold del_timer. erewrite on_tcells_done by exact Ed. rewrite bind_done. unfold release_timer_id.
  destruct (ia_put_law _ _ (tw_ids _ _ Hw) Hrange) as (o & Eo & Hwo & Hcap & Hf).
  cbn [timer_id_obj set_tcells]. rewrite Eo, !bind_done.
  eexists. split; [reflexivity|]. cbn [ticks timer_id_obj timers timer_cells set_tcells set_ids].
  split; [|by split_and!].
  constructor; cbn [timer_cells timers timer_id_obj set_tcells set_ids]; try done.
  - rewrite <- (unlink_family ts t) by (eauto using twf_nodup).
    eapply lists_frame; [|apply (lists_forget _ _ (Some t) Hl')]. intros hd xs q Hx Hq.
    rewrite lookup_delete_ne; [done|]. intros <-. rewrite unlink_family in Hx by eauto using twf_nodup.
    apply family_lookup in Hx as [-> ->].
    apply elem_of_cons in Hq as [|(y & [= <-] & [_ Hy]%rm_sub)%list_elem_of_fmap]; done.
  - rewrite dom_delete_L, (tw_dom _ _ Hw). apply set_eq. intros x. unfold rm.
    rewrite elem_of_difference, elem_of_singleton, !elem_of_list_to_set, list_elem_of_filter. tauto.
  - intros t' r' [Hne Hr']%lookup_delete_Some. rewrite Hcap, Hf.
    destruct (tw_id _ _ Hw _ _ Hr'). split; [done|].
    rewrite elem_of_union, elem_of_singleton. intros [Heq|]; [|done].
    by apply Hne, (tw_inj _ _ Hw _ _ _ _ Hr Hr').
  - intros t1 t2 r1 r2 [_ H1]%lookup_delete_Some [_ H2]%lookup_delete_Some. by eapply (tw_inj _ _ Hw).
Qed.

Lemma unregister_unknown s ts id : twf s ts → (∀ t r, timers s !! t = Some r → timer_id r ≠ id) →
  unregister_timer id s = Done (- EINVAL, s) ∧ timer_get_expired id s = Done (- EINVAL, None).
Proof.
  intros Hw Hn. unfold unregister_timer, timer_get_expired.
  destruct (id <? 0); [done|]. by rewrite (search_none _ _ _ Hw Hn).
Qed.

Lemma rm_snoc (t : Z) ts : t ∉ ts → rm t (ts ++ [t]) = ts.
Proof.
  intros Ht. unfold rm. rewrite filter_app. fold (rm t ts). rewrite rm_notin by done.
  rewrite filter_cons_False by auto. by rewrite filter_nil, app_nil_r.
Qed.

(** The registry of timers, against any correct identifier allocator.  With a
    well-formed list, valid arguments and an identifier left, [register_timer]
    returns the least free identifier, under which the deadline [ticks + expired]
    can then be read; unregistering that identifier gives back the list, the timers
    and the free identifiers as they were.  An identifier of no timer is
    refused with [-EINVAL] and changes nothing. *)
Theorem timer_registry s ts t expired type callback arg :
  twf s ts → t ∉ ts → 0 <= expired → type_ok type → ia_free (timer_id_obj s) ≠ ∅ →
  ∃ id s', register_timer (Some t) expired type callback arg s = Done (id, s') ∧
    twf s' (ts ++ [t]) ∧
    (id ∈ ia_free (timer_id_obj s) ∧ ∀ j, j ∈ ia_free (timer_id_obj s) → id <= j) ∧
    timer_get_expired id s' = Done (0, Some (u32 (ticks s + expired))) ∧
    (∃ s'', unregister_timer id s' = Done (0, s'') ∧ twf s'' ts ∧ timers s'' = timers s ∧
       ia_free (timer_id_obj s'') = ia_free (timer_id_obj s)) ∧
    (unregister_timer id s = Done (- EINVAL, s)).
Proof.
  intros Hw Ht He Hty Hfree.
  destruct (register_timer_spec s ts t expired type callback arg Hw Ht He Hty Hfree)
    as (id & s' & E & Hw' & _ & [Hid Hmin] & Hf & _ & Htm).
  assert (Hr : timers s' !! t = Some (mk_timer (u32 (ticks s + expired))
    (if has_flag type TIMER_FLAG_PERIODIC then u32 expired else 0) id callback (u32 arg) (u32 type)))
    by (by rewrite Htm, lookup_insert_eq).
  exists id, s'. split; [done|]. split; [done|]. split; [done|]. split; [|split].
  - pose proof (search_found _ _ _ _ Hw' Hr) as Hs. cbn [timer_id] in Hs.
    unfold timer_get_expired. rewrite (proj2 (Z.ltb_ge id 0)).
    + rewrite Hs, bind_done, Hr. done.
    + pose proof (ia_free_range _ _ (tw_ids _ _ Hw) Hid). lia.
  - destruct (unregister_timer_spec _ _ _ _ Hw' Hr) as (s'' & Eu & Hw'' & _ & Htm'' & Hf'').
    exists s''. cbn [timer_id] in *. split; [done|]. rewrite rm_snoc in Hw'' by done. split; [done|]. split.
    + rewrite Htm'', Htm, delete_insert_id; [done|]. apply eq_None_not_Some. by rewrite <- (twf_elem _ _ _ Hw).
    + rewrite Hf'', Hf. apply set_eq. intros x. rewrite elem_of_union, elem_of_difference, elem_of_singleton.
      destruct (decide (x = id)) as [->|]; tauto.
  - apply (unregister_unknown s ts); [done|].
    intros t' r Hr' Heq. apply (tw_id _ _ Hw) in Hr' as [_ Hn]. apply Hn. by rewrite Heq.
Qed.
End registry.

(** ** One pass of the timer thread *)

Section pass.
Context {S W : Type} `{IdAlloc S} (eff : Z → Z → W → W).
Implicit Types (s : tsys S) (r : timer_list) (w : W).

(** A callback that leaves the timers alone. *)
Definition quiet_call (f d : Z) (sw : tsys S * W) : outcome (tsys S * W) := Done (sw.1, eff f d sw.2).

(** What the pass does to one timer and to the rest of the kernel. *)
Definition one_due (tk : Z) r : bool :=
  has_flag (flag r) TIMER_FLAG_ENABLED && has_flag (flag r) TIMER_FLAG_ONESHUT &&
  (expires r <=? u32 tk) && negb (func r =? 0).
Definition per_due (tk : Z) r : bool :=
  has_flag (flag r) TIMER_FLAG_ENABLED && has_flag (flag r) TIMER_FLAG_PERIODIC && (expires r <=? u32 tk).
Definition disable r := with_flag (Z.land (flag r) (u32 (Z.lnot TIMER_FLAG_ENABLED))) r.
Definition fire (tk : Z) r : timer_list :=
  if one_due tk r then disable r
  else if per_due tk r then with_expires (u32 (tk + interval r)) r else r.
Definition fired (tk : Z) r w : W :=
  if one_due tk r || (per_due tk r && negb (func r =? 0)) then eff (func r) (data r) w else w.

Lemma disable_periodic r : has_flag (flag (disable r)) TIMER_FLAG_PERIODIC = has_flag (flag r) TIMER_FLAG_PERIODIC.
Proof.
  unfold disable, with_flag, has_flag. cbn [flag]. rewrite <- Z.land_assoc.
  change (Z.land (u32 (Z.lnot TIMER_FLAG_ENABLED)) TIMER_FLAG_PERIODIC) with TIMER_FLAG_PERIODIC. done.
Qed.

Lemma quiet_call_eq f d s w : quiet_call f d (s, w) = Done (s, eff f d w).
Proof. done. Qed.

Lemma upd_timer_done t f s w r : timers s !! t = Some r →
  upd_timer (W := W) t f (s, w) = Done (set_timers (<[t := f r]> (timers s)) s, w).
Proof. intros Hr. unfold upd_timer. cbn [fst snd]. by rewrite Hr. Qed.

Lemma timer_body_spec s w t r : timers s !! t = Some r → type_ok (flag r) →
  timer_body quiet_call t (s, w) =
    Done (set_timers (<[t := fire (ticks s) r]> (timers s)) s, fired (ticks s) r w).
Proof.
  intros Hr Hty. unfold timer_body. cbn [fst snd]. rewrite Hr. cbn [deref]. rewrite bind_done.
  unfold fire, fired, one_due, per_due. unfold type_ok in Hty.
  assert (Hid : set_timers (<[t:=r]> (timers s)) s = s) by (rewrite insert_id by done; by destruct s).
  destruct (has_flag (flag r) TIMER_FLAG_ENABLED) eqn:Een; cbn [negb andb orb]; [|by rewrite Hid].
  destruct (has_flag (flag r) TIMER_FLAG_PERIODIC) eqn:Ep; rewrite Hty; cbn [negb andb orb].
  - rewrite bind_done. cbn [fst snd]. rewrite Hr. cbn [deref]. rewrite bind_done, Ep. cbn [andb].
    destruct (expires r <=? u32 (ticks s)) eqn:Ex; [|by rewrite Hid].
    destruct (func r =? 0) eqn:Ef; cbn [negb]; unfold quiet_call; cbn [fst snd]; rewrite bind_done;
      by rewrite (upd_timer_done _ _ _ _ _ Hr).
  - destruct (expires r <=? u32 (ticks s)) eqn:Ex; cbn [andb].
    + destruct (func r =? 0) eqn:Ef; cbn [negb].
      * rewrite bind_done. cbn [fst snd]. rewrite Hr. cbn [deref]. rewrite bind_done, Ep. cbn [andb]. by rewrite Hid.
      * rewrite (upd_timer_done _ _ _ _ _ Hr), bind_done, quiet_call_eq, bind_done.
        cbn [fst snd timers set_timers].
        rewrite lookup_insert_eq. cbn [deref]. rewrite bind_done. change (with_flag _ r) with (disable r).
        by rewrite disable_periodic, Ep.
    + rewrite bind_done. cbn [fst snd]. rewrite Hr. cbn [deref]. rewrite bind_done, Ep. cbn [andb]. by rewrite Hid.
Qed.

Lemma timerisr_loop_spec xs a s w fuel :
  chain (timer_cells s) a (Some <$> xs) None → NoDup xs →
  (∀ t, t ∈ xs → ∃ r, timers s !! t = Some r ∧ type_ok (flag r)) → (length xs < fuel)%nat →
  ∃ m, timerisr_loop quiet_call fuel (first_or (Some <$> xs) None) (s, w) =
      Done (set_timers m s,
            foldl (λ w t, from_option (λ r, fired (ticks s) r w) w (timers s !! t)) w xs) ∧
    ∀ t, m !! t = if decide (t ∈ xs) then fire (ticks s) <$> timers s !! t else timers s !! t.
Proof.
  revert a s w fuel. induction xs as [|x xs IH]; intros a s w [|fuel] Hc Hnd Hs Hf; simpl in Hf; try lia.
  - exists (timers s). split; [by destruct s|]. intros t. by rewrite decide_False by set_solver.
  - change (first_or (Some <$> x :: xs) None) with (Some x). cbn [timerisr_loop].
    destruct (Hs x) as (r & Hr & Hty); [set_solver|]. rewrite (timer_body_spec _ _ _ _ Hr Hty), bind_done.
    assert (Hc' : chain (timer_cells s) (Some x) (Some <$> xs) None) by (by destruct Hc as (_ & _ & ?)).
    clear Hc. rename Hc' into Hc. cbn [fst snd].
    change (timer_cells (set_timers (<[x:=fire (ticks s) r]> (timers s)) s)) with (timer_cells s).
    rewrite (get_next_spec _ _ _ (chain_next _ _ _ _ Hc)), bind_done.
    apply NoDup_cons in Hnd as [Hx Hnd].
    destruct (IH (Some x) (set_timers (<[x:=fire (ticks s) r]> (timers s)) s) (fired (ticks s) r w) fuel)
      as (m & -> & Hm); [done|done| |lia|].
    + intros t Ht. cbn [timers set_timers]. rewrite lookup_insert_ne by (intros ->; done). apply Hs. set_solver.
    + exists m. cbn [ticks set_timers timers] in *. split.
      * cbn [foldl]. rewrite Hr. cbn [from_option]. do 2 f_equal.
        assert (Hfold : ∀ ys w, x ∉ ys →
          foldl (λ w t, from_option (λ r0, fired (ticks s) r0 w) w (<[x:=fire (ticks s) r]> (timers s) !! t)) w ys =
          foldl (λ w t, from_option (λ r0, fired (ticks s) r0 w) w (timers s !! t)) w ys).
        { clear. intros ys. induction ys as [|y ys IH]; intros w Hxy; [done|]. cbn [foldl].
          rewrite lookup_insert_ne by set_solver. apply IH. set_solver. }
        by apply Hfold.
      * intros t. rewrite Hm. destruct (decide (t = x)) as [->|Hne].
        -- rewrite decide_False, decide_True, lookup_insert_eq, Hr by set_solver. done.
        -- rewrite lookup_insert_ne by done. repeat case_decide; done || set_solver.
Qed.

(** C8: the timer thread, with callbacks that leave the timers alone.  A pass over a
    well-formed list of [n] timers ends after at most [n+1] turns.  It calls, in the
    order of registration, exactly the callbacks of the enabled timers whose
    deadline has passed, each once; a one-shot timer is then disabled (so it will
    not be called again), a periodic one has its deadline moved to
    [ticks + interval], and nothing else changes. *)
Theorem timerisr_pass_exact s ts w :
  twf s ts → (∀ t r, timers s !! t = Some r → type_ok (flag r)) →
  timerisr_pass quiet_call (Datatypes.S (length ts)) (s, w) =
    Done (set_timers (fire (ticks s) <$> timers s) s,
          foldl (λ w t, from_option (λ r, fired (ticks s) r w) w (timers s !! t)) w ts).
Proof.
  intros Hw Hty. destruct (twf_list _ _ Hw) as [_ Hc]. unfold timerisr_pass. cbn [fst].
  rewrite (get_next_spec _ _ _ (chain_next _ _ _ _ Hc)), bind_done.
  destruct (timerisr_loop_spec ts None s w (Datatypes.S (length ts)) Hc (twf_nodup _ _ Hw)) as (m & -> & Hm).
  - intros t [r Hr]%(twf_elem _ _ _ Hw). eauto.
  - lia.
  - do 3 f_equal. apply map_eq. intros t. rewrite Hm, lookup_fmap. case_decide as Ht; [done|].
    rewrite (twf_elem _ _ _ Hw), <- eq_None_not_Some in Ht. by rewrite Ht.
Qed.

Lemma fire_id tk r : timer_id (fire tk r) = timer_id r.
Proof. unfold fire, disable, with_flag, with_expires. by destruct (one_due tk r), (per_due tk r). Qed.

(** A pass keeps the registry. *)
Lemma twf_fire s ts tk : twf s ts → twf (set_timers (fire tk <$> timers s) s) ts.
Proof.
  intros [H1 H2 H3 H4 H5]. constructor; cbn [timer_cells timers timer_id_obj set_timers]; try done.
  - by rewrite dom_fmap_L.
  - intros t r. rewrite lookup_fmap. destruct (timers s !! t) as [r'|] eqn:E; [|done].
    intros [= <-]. rewrite fire_id. by eapply H4.
  - intros t1 t2 r1 r2. rewrite !lookup_fmap.
    destruct (timers s !! t1) as [r1'|] eqn:E1; [|done]. destruct (timers s !! t2) as [r2'|] eqn:E2; [|done].
    intros [= <-] [= <-]. rewrite !fire_id. by eapply H5.
Qed.

Definition set_ticks tk s : tsys S := mk_tsys (timers s) (timer_cells s) (timer_id_obj s) tk.

Lemma twf_ticks s ts tk : twf s ts → twf (set_ticks tk s) ts.
Proof. intros []. by constructor. Qed.
End pass.

(** *** Concrete states, on the identifier map of [Pid] *)

Definition timers0 : tsys kid_object :=
  mk_tsys ∅ {[None := mk_ll None None]} (kernel_id_map_init PAGE_SIZE) 7.

Lemma timers0_wf : twf timers0 [].
Proof.
  constructor; try done.
  - split.
    + intros hd xs [-> ->]%family_lookup. split; [apply NoDup_singleton|]. by split.
    + intros hd1 hd2 xs1 xs2 [-> ->]%family_lookup [-> ->]%family_lookup. done.
  - apply (proj1 (kernel_id_map_init_wf PAGE_SIZE eq_refl eq_refl)).
Qed.

Lemma timers0_free : ia_free (timer_id_obj timers0) ≠ ∅.
Proof.
  cbn [ia_free kid_alloc timer_id_obj timers0].
  rewrite (proj2 (kernel_id_map_init_wf PAGE_SIZE eq_refl eq_refl)).
  intros E. assert (H : (0 : Z) ∈ (list_to_set (seqZ 0 (8 * Z.min PAGE_SIZE PAGE_SIZE)) : gset Z)).
  { apply elem_of_list_to_set, elem_of_seqZ. unfold PAGE_SIZE. lia. }
  rewrite E in H. by apply elem_of_empty in H.
Qed.

Lemma timer_registry_witness :
  ∃ id s', register_timer (Some 4096) 50 5 1234 0 timers0 = Done (id, s') ∧
    timer_get_expired id s' = Done (0, Some 57).
Proof.
  destruct (timer_registry timers0 [] 4096 50 5 1234 0) as (id & s' & E & _ & _ & Eg & _).
  - exact timers0_wf.
  - apply not_elem_of_nil.
  - lia.
  - reflexivity.
  - exact timers0_free.
  - exists id, s'. split; [exact E|exact Eg].
Defined.

Definition timers1 : tsys kid_object :=
  mk_tsys {[4096 := mk_timer 57 0 0 1234 0 5]}
    {[None := mk_ll (Some 4096) (Some 4096); Some 4096 := mk_ll None None]}
    (mk_kid [2 ^ 32 - 2] 0 4) 60.

Lemma timers1_wf : twf timers1 [4096].
Proof.
  constructor.
  - split.
    + intros hd xs [-> ->]%family_lookup. split.
      * constructor; [|apply NoDup_singleton]. by intros ?%list_elem_of_singleton.
      * by split_and!.
    + intros hd1 hd2 xs1 xs2 [-> ->]%family_lookup [-> ->]%family_lookup. done.
  - vm_compute. reflexivity.
  - constructor; simpl; try lia. repeat constructor; lia.
  - intros t r Hr. cbn [timers timers1] in Hr. apply lookup_singleton_Some in Hr as [<- <-]. split; [vm_compute; intuition congruence|].
    cbn [ia_free kid_alloc]. rewrite elem_of_free_ids. vm_compute. congruence.
  - intros t1 t2 r1 r2 H1 H2. cbn [timers timers1] in H1, H2.
    apply lookup_singleton_Some in H1 as [<- <-]. by apply lookup_singleton_Some in H2 as [<- <-].
Qed.

Lemma timerisr_pass_exact_witness :
  timerisr_pass (quiet_call (λ f _ w, f :: w)) 2 (timers1, []) =
    Done (set_timers {[4096 := mk_timer 57 0 0 1234 0 4]} timers1, [1234]).
Proof.
  etransitivity; [apply (timerisr_pass_exact (λ f _ w, f :: w) timers1 [4096] [] timers1_wf)|].
  - intros t r Hr. cbn [timers timers1] in Hr. apply lookup_singleton_Some in Hr as [<- <-]. reflexivity.
  - vm_compute. reflexivity.
Defined.

(** A callback that unregisters the timer it is called for (its identifier is the
    argument) frees the cell the pass stands on: the pass then reads freed
    memory. *)
Definition self_unregister (f d : Z) (sw : tsys kid_object * unit) : outcome (tsys kid_object * unit) :=
  '(_, s) ← unregister_timer d sw.1; Done (s, sw.2).

Lemma timerisr_self_unregister : timerisr_pass self_unregister 10 (timers1, tt) = Fail BadPtr.
Proof. vm_compute. reflexivity. Qed.

(** ** The clock interrupt *)

Definition INTERVAL := 1.
Definition RPL_USER := 3.

(** The fields of [current] the handler touches. *)
Record cur_thread : Type := mk_cur { utime : Z; ktime : Z; cticks : Z }.

Section clock.
(** The scheduler, and [pt_wakeup] of the timer thread on it. *)
Context {K : Type} (pt_wakeup_isr : K → K).

Record clock : Type := mk_clock {
  cl_ticks : Z; wall_jiffies : Z; ts_sec : Z; ts_nsec : Z;
  timer_depth : Z; isr_depth : Z; current : option cur_thread; need_reschedule : Z; kern : K }.

Definition schedtimerisr (c : clock) : clock :=
  if isr_depth c =? 0
  then mk_clock (cl_ticks c) (wall_jiffies c) (ts_sec c) (ts_nsec c) (timer_depth c) (isr_depth c)
         (current c) (need_reschedule c) (pt_wakeup_isr (kern c))
  else c.

(** One turn of the normalising loop, on (sec, nsec). *)
Definition norm_ts (x : Z * Z) : Z * Z :=
  if 1000000000 <? x.2 then (s32 (x.1 + 1), s32 (x.2 - 1000000000)) else x.

Definition set_depth d (c : clock) : clock :=
  mk_clock (cl_ticks c) (wall_jiffies c) (ts_sec c) (ts_nsec c) d (isr_depth c) (current c)
    (need_reschedule c) (kern c).

(** [cs]: the code segment of the interrupted code. *)
Definition timer_handler (cs : Z) (c : clock) : clock :=
  let c := mk_clock (u64 (cl_ticks c + 1)) (wall_jiffies c) (ts_sec c) (ts_nsec c) (timer_depth c)
             (isr_depth c) (current c) (need_reschedule c) (kern c) in
  if negb (timer_depth c =? 0) then c else
  let c := set_depth 1 c in
  match current c with
  | None => c
  | Some cur =>
      let nticks := u32 (cl_ticks c - wall_jiffies c) in
      let '(usec, wall) :=
        if negb (nticks =? 0) then (s32 (nticks * INTERVAL * 1000), u64 (wall_jiffies c + nticks))
        else (INTERVAL * 1000, cl_ticks c) in
      (* [do ... while (nticks > 0)] after [nticks--], on an unsigned counter *)
      let turns := if nticks =? 0 then 2 ^ 32 else nticks in
      let '(sec, nsec) := Nat.iter (Z.to_nat turns) norm_ts (ts_sec c, s32 (ts_nsec c + s32 (usec * 1000))) in
      let cur := if Z.land cs 3 =? RPL_USER then mk_cur (u32 (utime cur + 1)) (ktime cur) (cticks cur)
                 else mk_cur (utime cur) (u32 (ktime cur + 1)) (cticks cur) in
      let c := schedtimerisr (mk_clock (cl_ticks c) wall sec nsec (timer_depth c) (isr_depth c)
                                (Some cur) (need_reschedule c) (kern c)) in
      let resched := cticks cur =? 50 in
      mk_clock (cl_ticks c) (wall_jiffies c) (ts_sec c) (ts_nsec c) 0 (isr_depth c)
        (Some (mk_cur (utime cur) (ktime cur) (if resched then 0 else u32 (cticks cur + 1))))
        (if resched then 1 else need_reschedule c) (kern c)
  end.

(** Nanoseconds since the epoch of [xtime]. *)
Definition total_ns (c : clock) : Z := ts_sec c * 1000000000 + ts_nsec c.

(** [xtime] is in range and the clock is at most a second behind the ticks. *)
Definition clock_ok (c : clock) : Prop :=
  timer_depth c = 0 ∧ is_Some (current c) ∧ 0 <= wall_jiffies c ∧
  0 <= cl_ticks c - wall_jiffies c <= 998 ∧ cl_ticks c < 2 ^ 63 ∧
  0 <= ts_sec c < 2 ^ 31 - 2 ∧ 0 <= ts_nsec c <= 1000000000.

Lemma norm_fix k a b : b <= 1000000000 → Nat.iter k norm_ts (a, b) = (a, b).
Proof.
  intros Hb. induction k as [|k IH]; [done|]. rewrite Nat.iter_succ, IH. unfold norm_ts. cbn [fst snd].
  by rewrite (proj2 (Z.ltb_ge _ _)) by lia.
Qed.

Lemma norm_iter n sec nsec : 0 <= sec < 2 ^ 31 - 2 → 0 <= nsec <= 2000000000 → (1 <= n)%nat →
  ∃ sec' nsec', Nat.iter n norm_ts (sec, nsec) = (sec', nsec') ∧
    sec' * 1000000000 + nsec' = sec * 1000000000 + nsec ∧ 0 <= nsec' <= 1000000000 ∧
    sec <= sec' <= sec + 1.
Proof.
  intros Hs Hn H1. destruct n as [|n]; [lia|]. rewrite Nat.iter_succ_r.
  unfold norm_ts at 2. cbn [fst snd].
  destruct (Z.ltb_spec 1000000000 nsec); rewrite ?s32_small, norm_fix by lia; eexists _, _; (split; [done|lia]).
Qed.

Lemma timer_handler_ok cs c : clock_ok c → let c' := timer_handler cs c in
  total_ns c' = total_ns c + (cl_ticks c + 1 - wall_jiffies c) * 1000000 ∧
  0 <= ts_nsec c' <= 1000000000 ∧ ts_sec c <= ts_sec c' <= ts_sec c + 1 ∧
  cl_ticks c' = cl_ticks c + 1 ∧ wall_jiffies c' = cl_ticks c' ∧ timer_depth c' = 0 ∧
  (∀ cur, current c = Some cur → ∃ cur', current c' = Some cur' ∧
     cticks cur' = (if cticks cur =? 50 then 0 else u32 (cticks cur + 1)) ∧
     need_reschedule c' = if cticks cur =? 50 then 1 else need_reschedule c).
Proof.
  intros (Hd & [cur Hc] & Hw & Hdiff & Ht & Hs & Hn). cbv zeta.
  assert (Hu : u64 (cl_ticks c + 1) = cl_ticks c + 1) by (apply Z.mod_small; lia).
  unfold timer_handler. cbn [timer_depth cl_ticks wall_jiffies ts_sec ts_nsec isr_depth current need_reschedule kern set_depth].
  rewrite Hd, Hc, Hu. cbn [Z.eqb negb]. rewrite (u32_small (cl_ticks c + 1 - wall_jiffies c)) by lia.
  set (d := cl_ticks c + 1 - wall_jiffies c) in *.
  assert (Hd0 : (d =? 0) = false) by lia. rewrite Hd0. cbn [negb]. unfold INTERVAL.
  rewrite (s32_small (d * 1 * 1000)), (s32_small (d * 1 * 1000 * 1000)), s32_small by lia.
  assert (Hw' : u64 (wall_jiffies c + d) = cl_ticks c + 1).
  { unfold u64. rewrite Z.mod_small; lia. }
  destruct (norm_iter (Z.to_nat d) (ts_sec c) (ts_nsec c + d * 1 * 1000 * 1000)) as (sec & nsec & -> & Et & Hnr & Hsr);
    [lia|lia|lia|].
  unfold total_ns, schedtimerisr. cbn [isr_depth].
  destruct (isr_depth c =? 0); cbn [ts_sec ts_nsec cl_ticks wall_jiffies timer_depth current need_reschedule];
    (split; [lia|split; [lia|split; [lia|split; [lia|split; [lia|split; [done|]]]]]]);
    intros cur0 [= <-]; eexists; (split; [reflexivity|]); cbn [cticks];
    destruct (Z.land cs 3 =? RPL_USER); cbn [cticks]; by destruct (cticks cur =? 50).
Qed.

Lemma clock_run n cs c cur :
  clock_ok c → ts_sec c + Z.of_nat n < 2 ^ 31 - 2 → cl_ticks c + Z.of_nat n < 2 ^ 63 →
  current c = Some cur → 0 <= cticks cur <= 50 →
  let c' := Nat.iter n (timer_handler cs) c in
  clock_ok c' ∧ total_ns c' = total_ns c + (wall_jiffies c' - wall_jiffies c) * 1000000 ∧
  ts_sec c' <= ts_sec c + Z.of_nat n ∧
  cl_ticks c' = cl_ticks c + Z.of_nat n ∧ ((1 <= n)%nat → wall_jiffies c' = cl_ticks c') ∧
  (∃ cur', current c' = Some cur' ∧ cticks cur' = (cticks cur + Z.of_nat n) mod 51) ∧
  need_reschedule c' = if 51 <=? cticks cur + Z.of_nat n then 1 else need_reschedule c.
Proof.
  intros Hok Hs Ht Hc Hcur. cbv zeta. induction n as [|n IH].
  - cbn [Nat.iter nat_rect]. change (Z.of_nat 0) with 0. rewrite !Z.add_0_r. split; [done|]. split; [lia|]. split; [lia|].
    split; [lia|]. split; [lia|]. split; [exists cur; by rewrite Z.mod_small by lia|].
    by rewrite (proj2 (Z.leb_gt _ _)) by lia.
  - rewrite Nat.iter_succ. specialize (IH ltac:(lia) ltac:(lia)).
    set (c1 := Nat.iter n (timer_handler cs) c) in *.
    destruct IH as (Hok1 & E1 & E2 & E3 & E4 & (cur1 & Ec1 & Ek1) & En1).
    destruct (timer_handler_ok cs c1 Hok1) as (F1 & F2 & F3 & F4 & F5 & F6 & F7). cbv zeta in *.
    destruct (F7 _ Ec1) as (cur2 & Ec2 & Ek2 & En2).
    assert (Hmod : (cticks cur + Z.of_nat (S n)) mod 51 = if cticks cur1 =? 50 then 0 else cticks cur1 + 1).
    { rewrite Ek1. replace (cticks cur + Z.of_nat (S n)) with (cticks cur + Z.of_nat n + 1) by lia.
      rewrite <- Zplus_mod_idemp_l. pose proof (Z.mod_pos_bound (cticks cur + Z.of_nat n) 51 ltac:(lia)).
      destruct (Z.eqb_spec ((cticks cur + Z.of_nat n) mod 51) 50) as [->|]; [done|apply Z.mod_small; lia]. }
    assert (Hc1r : 0 <= cticks cur1 <= 50).
    { rewrite Ek1. pose proof (Z.mod_pos_bound (cticks cur + Z.of_nat n) 51 ltac:(lia)). lia. }
    destruct Hok1 as (Hd & Hcs & Hw & Hdiff & Htk & Hsec & Hns).
    split; [|split; [|split; [|split; [|split; [|split]]]]]; [|lia|lia|lia|lia| |].
    + split; [done|]. split; [rewrite Ec2; done|]. lia.
    + exists cur2. split; [done|]. rewrite Hmod, Ek2. destruct (cticks cur1 =? 50); [done|].
      rewrite u32_small; lia.
    + rewrite En2, En1. destruct (Z.eqb_spec (cticks cur1) 50) as [H50|H50].
      * rewrite (proj2 (Z.leb_le _ _)); [done|]. rewrite Ek1 in H50.
        destruct (Z.le_gt_cases 51 (cticks cur + Z.of_nat (S n))); [done|].
        rewrite Z.mod_small in H50 by lia. lia.
      * destruct (Z.leb_spec 51 (cticks cur + Z.of_nat n)), (Z.leb_spec 51 (cticks cur + Z.of_nat (S n))); try done; try lia.
        exfalso. rewrite Ek1, Z.mod_small in H50 by lia. lia.
Qed.

(** The clock.  While the handler is not nested and there is a current thread,
    [n] interrupts advance [xtime] by exactly one millisecond per tick since it was
    last in step, keep the nanoseconds between 0 and 10^9 (10^9 included), and
    leave the clock in step with the ticks; a thread that stays current asks for a
    reschedule at the 51st interrupt of its turn. *)
Theorem clock_advances n cs c cur :
  clock_ok c → ts_sec c + Z.of_nat n < 2 ^ 31 - 2 → cl_ticks c + Z.of_nat n < 2 ^ 63 →
  current c = Some cur → 0 <= cticks cur <= 50 → (1 <= n)%nat →
  let c' := Nat.iter n (timer_handler cs) c in
  total_ns c' = total_ns c + (cl_ticks c + Z.of_nat n - wall_jiffies c) * 1000000 ∧
  0 <= ts_nsec c' <= 1000000000 ∧ cl_ticks c' = cl_ticks c + Z.of_nat n ∧ wall_jiffies c' = cl_ticks c' ∧
  (∃ cur', current c' = Some cur' ∧ cticks cur' = (cticks cur + Z.of_nat n) mod 51) ∧
  need_reschedule c' = (if 51 <=? cticks cur + Z.of_nat n then 1 else need_reschedule c).
Proof.
  intros Hok Hs Ht Hc Hcur H1. cbv zeta.
  destruct (clock_run n cs c cur Hok Hs Ht Hc Hcur) as (Hok' & E1 & _ & E3 & E4 & E5 & E6). cbv zeta in *.
  specialize (E4 H1). destruct Hok' as (_ & _ & _ & _ & _ & _ & Hns).
  split; [rewrite E1, E4, E3; lia|]. split; [lia|]. repeat (split; [done|]). done.
Qed.

(** An interrupt that finds no current thread leaves [timer_depth] set: from then
    on every interrupt returns early, and the clock stands still. *)
Lemma clock_stuck n cs c : current c = None →
  let c' := Nat.iter (S n) (timer_handler cs) c in ts_sec c' = ts_sec c ∧ ts_nsec c' = ts_nsec c ∧ timer_depth c' ≠ 0.
Proof.
  intros Hc. cbv zeta.
  assert (H : ∀ n, let c' := Nat.iter (S n) (timer_handler cs) c in
    ts_sec c' = ts_sec c ∧ ts_nsec c' = ts_nsec c ∧ timer_depth c' ≠ 0 ∧ current c' = None).
  { clear n. intros n. induction n as [|n IH]; cbv zeta in *.
    - change (Nat.iter 1 (timer_handler cs) c) with (timer_handler cs c). unfold timer_handler.
      cbn [timer_depth current set_depth]. destruct (Z.eqb_spec (timer_depth c) 0); cbn [negb].
      + rewrite Hc. by cbn.
      + by cbn.
    - rewrite Nat.iter_succ. destruct IH as (E1 & E2 & E3 & E4).
      set (c1 := Nat.iter (S n) (timer_handler cs) c) in *. unfold timer_handler.
      cbn [timer_depth]. by rewrite (proj2 (Z.eqb_neq _ _) E3). }
  destruct (H n) as (? & ? & ? & _). done.
Qed.
End clock.

Definition clock0 : clock (K := unit) := mk_clock 100 90 1000 999999999 0 1 (Some (mk_cur 0 0 10)) 0 tt.

Lemma clock_advances_witness :
  let c' := Nat.iter 60 (timer_handler id 8) clock0 in
  ts_sec c' * 1000000000 + ts_nsec c' = 1001 * 1000000000 + 69999999 ∧ need_reschedule c' = 1.
Proof.
  destruct (clock_advances id 60 8 clock0 (mk_cur 0 0 10)) as (E & _ & _ & _ & _ & En).
  - repeat split; cbn; try lia. eexists; reflexivity.
  - cbn. lia.
  - cbn. lia.
  - reflexivity.
  - cbn. lia.
  - lia.
  - split; [exact E|exact En].
Defined.
