(* ===== verification/Calendar.v ===== *)
(** * The calendar and the time of day ([Kernel/time.c])

    At boot the date of the CMOS clock becomes the seconds of [xtime]; the system
    calls read and set [xtime]. *)

From S2P Require Import Prelude.

(** ** The CMOS clock *)

Record rtctime : Type := mk_rtc {
  second : Z; minute : Z; hour : Z; day : Z; month : Z; year : Z }.

Definition CURRENT_YEAR := 2013.

(** [read_rtc] on a clock whose registers ([reg]) do not change while they are
    read: no update is in progress and the second read of the seconds agrees. *)
Definition read_rtc (reg : Z → Z) : rtctime :=
  let r0 := reg 0x00 in
  let r2 := reg 0x02 in
  let r4 := reg 0x04 in
  let r7 := reg 0x07 in
  let r8 := reg 0x08 in
  let r9 := reg 0x09 in
  let registerB := reg 0x0B in
  let bcd x := u8 (Z.land x 0x0F + x / 16 * 10) in
  let t :=
    if Z.land registerB 0x04 =? 0 then
      mk_rtc (bcd r0) (bcd r2)
        (u8 (Z.lor (Z.land r4 0x0F + Z.land r4 0x70 / 16 * 10) (Z.land r4 0x80)))
        (bcd r7) (bcd r8) (u32 (Z.land r9 0x0F + r9 / 16 * 10))
    else mk_rtc r0 r2 r4 r7 r8 r9 in
  let y := u32 (year t + CURRENT_YEAR / 100 * 100) in
  mk_rtc (second t) (minute t) (hour t) (day t) (month t)
    (if y <? CURRENT_YEAR then u32 (y + 100) else y).

(** [mktime]; [time_zone] is added as the C code does, so it is the negative of
    the offset east of Greenwich. *)
Definition mktime (time_zone year mon day hour min sec : Z) : Z :=
  let mon := u32 (mon - 2) in
  let '(mon, year) := if s32 mon <=? 0 then (u32 (mon + 12), u32 (year - 1)) else (mon, year) in
  let days := u32 (u32 (u32 (year / 4 - year / 100 + year / 400 + u32 (367 * mon) / 12 + day) +
                        u32 (year * 365)) - 719499) in
  u32 (u32 (u32 (u32 (u32 (u32 (days * 24) + hour) * 60) + min) * 60) + sec + time_zone).

Definition get_cmos_time (time_zone : Z) (reg : Z → Z) : Z :=
  let t := read_rtc reg in
  mktime time_zone (year t) (month t) (day t) (hour t) (minute t) (second t).

(** ** The time of day *)

Record timeval : Type := mk_tv { tv_sec : Z; tv_usec : Z }.

(** [xtime] and [time_zone]. *)
Record timekeeper : Type := mk_tk { xt_sec : Z; xt_nsec : Z; time_zone : Z }.

(** What the pointers, when not NULL, receive. *)
Definition kgettimeofday (tv tz : bool) (k : timekeeper) : Z * option timeval * option Z :=
  (0, (if tv then Some (mk_tv (xt_sec k) (Z.quot (xt_nsec k) 1000)) else None),
   (if tz then Some (time_zone k) else None)).

Definition ksettimeofday (tv : option timeval) (tz : option Z) (k : timekeeper) : Z * timekeeper :=
  let k := match tv with
           | Some v => mk_tk (tv_sec v) (s32 (tv_usec v * 1000)) (time_zone k)
           | None => k
           end in
  (0, match tz with Some z => mk_tk (xt_sec k) (xt_nsec k) z | None => k end).

Definition ti_get_timeval (tv : bool) (k : timekeeper) : Z * option timeval :=
  if tv then (0, Some (mk_tv (xt_sec k) (Z.quot (xt_nsec k) 1000))) else (- EINVAL, None).

Definition time_init (reg : Z → Z) (k : timekeeper) : timekeeper :=
  mk_tk (s32 (get_cmos_time (time_zone k) reg)) 0 (time_zone k).

(** ** The reference calendar *)

Definition leap (y : Z) : bool := (y mod 4 =? 0) && (negb (y mod 100 =? 0) || (y mod 400 =? 0)).
Definition month_days (y m : Z) : Z :=
  nth (Z.to_nat (m - 1)) [31; if leap y then 29 else 28; 31; 30; 31; 30; 31; 31; 30; 31; 30; 31] 0.
Definition sumZ (l : list Z) : Z := foldr Z.add 0 l.

(** Days from 1970-01-01 to the day before [y]-[m]-01, counted day by day. *)
Definition days_before (y m : Z) : Z :=
  sumZ ((λ k, if leap k then 366 else 365) <$> seqZ 1970 (y - 1970)) +
  sumZ (month_days y <$> seqZ 1 (m - 1)).
Definition valid_date (y m d : Z) : Prop :=
  1970 <= y <= 2105 ∧ 1 <= m <= 12 ∧ 1 <= d <= month_days y m.
Definition epoch_seconds (y m d h mi s : Z) : Z :=
  (((days_before y m + (d - 1)) * 24 + h) * 60 + mi) * 60 + s.

(** The part of [mktime] that depends on the year and the month. *)
Definition mktime_base (y m : Z) : Z :=
  let '(m', y') := if m - 2 <=? 0 then (m + 10, y - 1) else (m - 2, y) in
  y' / 4 - y' / 100 + y' / 400 + 367 * m' / 12 + y' * 365 - 719499.

Lemma base_table :
  forallb (λ y, forallb (λ m, (mktime_base y m + 1 =? days_before y m) &&
    (0 <=? days_before y m) && (days_before y m + 31 <? 49674) && (month_days y m <=? 31))
    (seqZ 1 12)) (seqZ 1970 136) = true.
Proof. vm_compute. reflexivity. Qed.

Lemma base_spec y m : 1970 <= y <= 2105 → 1 <= m <= 12 →
  mktime_base y m + 1 = days_before y m ∧ 0 <= days_before y m < 49674 - 31 ∧ month_days y m <= 31.
Proof.
  intros Hy Hm. pose proof base_table as Ht. rewrite forallb_forall in Ht.
  specialize (Ht y). rewrite <- list_elem_of_In, elem_of_seqZ in Ht. specialize (Ht ltac:(lia)).
  rewrite forallb_forall in Ht. specialize (Ht m). rewrite <- list_elem_of_In, elem_of_seqZ in Ht.
  specialize (Ht ltac:(lia)). rewrite !andb_true_iff in Ht. lia.
Qed.

Lemma hms_small D h mi z : 0 <= D < 49674 → 0 <= h < 24 → 0 <= mi < 60 →
  u32 (u32 (u32 (u32 (u32 (D * 24) + h) * 60) + mi) * 60) + z = ((D * 24 + h) * 60 + mi) * 60 + z.
Proof.
  intros. rewrite (u32_small (D * 24)), (u32_small (D * 24 + h)), (u32_small ((D * 24 + h) * 60)),
    (u32_small ((D * 24 + h) * 60 + mi)), u32_small by lia. done.
Qed.

Lemma mktime_spec tz y m d h mi s :
  valid_date y m d → 0 <= h < 24 → 0 <= mi < 60 → 0 <= s < 60 →
  mktime tz y m d h mi s = u32 (epoch_seconds y m d h mi s + tz).
Proof.
  intros (Hy & Hm & Hd) Hh Hmi Hs. destruct (base_spec y m Hy Hm) as (Hb & Hr & Hl).
  unfold mktime, epoch_seconds. rewrite <- Hb. rewrite <- Hb in Hr. clear Hb. revert Hr. unfold mktime_base.
  assert (Hmon : s32 (u32 (m - 2)) = m - 2) by (rewrite s32_u32, s32_small; lia).
  rewrite Hmon. destruct (Z.leb_spec (m - 2) 0); intros Hr.
  - assert (u32 (u32 (m - 2) + 12) = m + 10) as ->.
    { unfold u32. rewrite Zplus_mod_idemp_l, Z.mod_small; lia. }
    rewrite (u32_small (y - 1)), (u32_small (367 * (m + 10))), (u32_small ((y - 1) * 365)) by lia.
    pose proof (Z.div_pos (y - 1) 4 ltac:(lia) ltac:(lia)). pose proof (Z.div_pos (y - 1) 400 ltac:(lia) ltac:(lia)).
    assert ((y - 1) / 100 <= (y - 1) / 4) by (apply Z.div_le_compat_l; lia).
    assert (0 <= 367 * (m + 10) / 12 <= 367 * 22) by (split; [apply Z.div_pos; lia|apply Z.div_le_upper_bound; lia]).
    assert ((y - 1) / 4 <= 1000 ∧ (y - 1) / 400 <= 1000) by (split; apply Z.div_le_upper_bound; lia).
    rewrite (u32_small (_ / 4 - _ + _ + _ + d)) by lia.
    rewrite (u32_small (_ + (y - 1) * 365)) by lia. rewrite (u32_small (_ - 719499)) by lia.
    rewrite <- Z.add_assoc, hms_small by lia. f_equal. lia.
  - rewrite (u32_small (m - 2)) by lia.
    rewrite (u32_small (367 * (m - 2))), (u32_small (y * 365)) by lia.
    pose proof (Z.div_pos y 4 ltac:(lia) ltac:(lia)). pose proof (Z.div_pos y 400 ltac:(lia) ltac:(lia)).
    assert (y / 100 <= y / 4) by (apply Z.div_le_compat_l; lia).
    assert (0 <= 367 * (m - 2) / 12 <= 367 * 22) by (split; [apply Z.div_pos; lia|apply Z.div_le_upper_bound; lia]).
    assert (y / 4 <= 1000 ∧ y / 400 <= 1000) by (split; apply Z.div_le_upper_bound; lia).
    rewrite (u32_small (_ / 4 - _ + _ + _ + d)) by lia.
    rewrite (u32_small (_ + y * 365)) by lia. rewrite (u32_small (_ - 719499)) by lia.
    rewrite <- Z.add_assoc, hms_small by lia. f_equal. lia.
Qed.

(** ** Properties *)

(** How the CMOS clock stores a number below 100. *)
Definition rtc_enc (binary : bool) (v : Z) : Z := if binary then v else v / 10 * 16 + v mod 10.

(** The registers of a clock in 24-hour mode that shows a date and a time. *)
Definition rtc_shows (reg : Z → Z) (y m d h mi s : Z) : Prop :=
  let b := negb (Z.land (reg 0x0B) 0x04 =? 0) in
  reg 0x00 = rtc_enc b s ∧ reg 0x02 = rtc_enc b mi ∧ reg 0x04 = rtc_enc b h ∧
  reg 0x07 = rtc_enc b d ∧ reg 0x08 = rtc_enc b m ∧ reg 0x09 = rtc_enc b (y mod 100).

Lemma bcd_table : forallb (λ v, let x := rtc_enc false v in
  (u8 (Z.land x 0x0F + x / 16 * 10) =? v) && (u32 (Z.land x 0x0F + x / 16 * 10) =? v)) (seqZ 0 100) = true.
Proof. vm_compute. reflexivity. Qed.
Lemma bcd_hour_table : forallb (λ v, let x := rtc_enc false v in
  u8 (Z.lor (Z.land x 0x0F + Z.land x 0x70 / 16 * 10) (Z.land x 0x80)) =? v) (seqZ 0 24) = true.
Proof. vm_compute. reflexivity. Qed.

Lemma bcd_spec v : 0 <= v < 100 → let x := rtc_enc false v in
  u8 (Z.land x 0x0F + x / 16 * 10) = v ∧ u32 (Z.land x 0x0F + x / 16 * 10) = v.
Proof.
  intros Hv. pose proof bcd_table as Ht. rewrite forallb_forall in Ht. specialize (Ht v).
  rewrite <- list_elem_of_In, elem_of_seqZ, andb_true_iff, !Z.eqb_eq in Ht. apply Ht. lia.
Qed.
Lemma bcd_hour v : 0 <= v < 24 → let x := rtc_enc false v in
  u8 (Z.lor (Z.land x 0x0F + Z.land x 0x70 / 16 * 10) (Z.land x 0x80)) = v.
Proof.
  intros Hv. pose proof bcd_hour_table as Ht. rewrite forallb_forall in Ht. specialize (Ht v).
  rewrite <- list_elem_of_In, elem_of_seqZ, Z.eqb_eq in Ht. apply Ht. lia.
Qed.

Lemma read_rtc_spec reg y m d h mi s :
  rtc_shows reg y m d h mi s → valid_date y m d → 2013 <= y →
  0 <= h < 24 → 0 <= mi < 60 → 0 <= s < 60 →
  read_rtc reg = mk_rtc s mi h d m y.
Proof.
  intros (E0 & E2 & E4 & E7 & E8 & E9) (Hy & Hm & Hd) Hy' Hh Hmi Hs.
  destruct (base_spec y m Hy Hm) as (_ & _ & Hmd). pose proof (Z.mod_pos_bound y 100 ltac:(lia)).
  unfold read_rtc. rewrite E0, E2, E4, E7, E8, E9. clear E0 E2 E4 E7 E8 E9.
  assert (Hyear : (let y0 := u32 (y mod 100 + CURRENT_YEAR / 100 * 100) in
     if y0 <? CURRENT_YEAR then u32 (y0 + 100) else y0) = y).
  { cbv zeta. change (CURRENT_YEAR / 100 * 100) with 2000. rewrite (u32_small (_ + 2000)) by lia.
    unfold CURRENT_YEAR. pose proof (Z.div_mod y 100 ltac:(lia)).
    destruct (Z.ltb_spec (y mod 100 + 2000) 2013); rewrite ?u32_small by lia;
      assert (y / 100 = 20 ∨ y / 100 = 21) by lia; lia. }
  destruct (Z.land (reg 11) 4 =? 0); cbn [negb].
  - rewrite (proj1 (bcd_spec s ltac:(lia))), (proj1 (bcd_spec mi ltac:(lia))), (bcd_hour h Hh),
      (proj1 (bcd_spec d ltac:(lia))), (proj1 (bcd_spec m ltac:(lia))), (proj2 (bcd_spec (y mod 100) ltac:(lia))).
    cbn [second minute hour day month year]. cbv zeta in *. by rewrite Hyear.
  - unfold rtc_enc. cbn [second minute hour day month year]. cbv zeta in *. by rewrite Hyear.
Qed.

(** C9: the boot time.  When the CMOS clock, in 24-hour mode, shows any date from
    2013 to 2105, in BCD or in binary, [get_cmos_time] is the number of seconds of
    that date and time since 1970, counted day by day in the Gregorian calendar,
    plus the zone correction. *)
Theorem get_cmos_time_correct tz reg y m d h mi s :
  rtc_shows reg y m d h mi s → valid_date y m d → 2013 <= y →
  0 <= h < 24 → 0 <= mi < 60 → 0 <= s < 60 →
  get_cmos_time tz reg = u32 (epoch_seconds y m d h mi s + tz).
Proof.
  intros. unfold get_cmos_time. erewrite read_rtc_spec by eauto. by apply mktime_spec.
Qed.

(** 2016-02-29 12:34:56, in BCD. *)
Definition rtc_example (r : Z) : Z :=
  if r =? 0 then 0x56 else if r =? 2 then 0x34 else if r =? 4 then 0x12 else
  if r =? 7 then 0x29 else if r =? 8 then 0x02 else if r =? 9 then 0x16 else 0x02.

Lemma get_cmos_time_correct_witness : get_cmos_time (- 28800) rtc_example = 1456749296 - 28800.
Proof.
  rewrite (get_cmos_time_correct (- 28800) rtc_example 2016 2 29 12 34 56).
  - vm_compute. reflexivity.
  - vm_compute. intuition congruence.
  - vm_compute. intuition congruence.
  - lia.
  - lia.
  - lia.
  - lia.
Defined.

(** The time of day set by [ksettimeofday] is the one [kgettimeofday] and
    [ti_get_timeval] return, and the zone likewise, for every time whose
    microseconds are between 0 and 2147483; a NULL pointer leaves its part
    untouched. *)
Theorem timeofday_roundtrip v z k : 0 <= tv_usec v <= 2147483 →
  let k' := (ksettimeofday (Some v) (Some z) k).2 in
  kgettimeofday true true k' = (0, Some v, Some z) ∧ ti_get_timeval true k' = (0, Some v) ∧
  (ksettimeofday None None k).2 = k ∧
  time_zone (ksettimeofday (Some v) None k).2 = time_zone k ∧
  kgettimeofday true false (ksettimeofday None (Some z) k).2 = kgettimeofday true false k.
Proof.
  intros Hv. destruct v as [sec usec]. cbn [tv_usec] in Hv.
  unfold ksettimeofday, kgettimeofday, ti_get_timeval.
  cbn [snd tv_sec tv_usec xt_sec xt_nsec time_zone]. rewrite s32_small by lia.
  rewrite Z.quot_mul by lia. by split_and!.
Qed.

Lemma timeofday_roundtrip_witness :
  kgettimeofday true true (ksettimeofday (Some (mk_tv 1456749296 250000)) (Some 0) (mk_tk 0 0 (- 28800))).2
    = (0, Some (mk_tv 1456749296 250000), Some 0).
Proof. apply timeofday_roundtrip. cbn. lia. Defined.
