(* ===== verification/CString.v ===== *)
(** * The string library ([lib/string.c])

    Memory is a finite map from addresses to bytes; an access outside faults.  The
    string instructions of the inline assembly are modelled by what they do to the
    pointers and the memory: [lodsb]/[stosb]/[scasb] move forward by one byte, the
    [rep] copies move a unit of 1, 2 or 4 bytes at a time.  A loop that goes on until
    a NUL byte is bounded by the size of the memory, which it cannot outlive. *)

From S2P Require Import Prelude.

Notation bmem := (gmap Z Z).

Definition ld (m : bmem) (a : Z) : outcome Z := deref (m !! a).
Definition st (a v : Z) (m : bmem) : outcome bmem :=
  _ ← deref (m !! a); Done (<[a := u8 v]> m).
(** More iterations than there are bytes. *)
Definition mfuel (m : bmem) : nat := S (S (base.size m)).

(** ** Comparison *)

Fixpoint strcmp_loop (fuel : nat) (m : bmem) (p1 p2 : Z) : outcome Z :=
  match fuel with
  | O => Fail Diverge
  | S fuel =>
      c1 ← ld m p1;
      if c1 =? 0 then c2 ← ld m p2; Done (s32 (s8 c1 - s8 c2)) else
      c2 ← ld m p2;
      if negb (c2 =? 0) && (c1 =? c2) then strcmp_loop fuel m (p1 + 1) (p2 + 1)
      else Done (s32 (s8 c1 - s8 c2))
  end.
Definition strcmp (m : bmem) (s1 s2 : Z) : outcome Z :=
  if (s1 =? 0) || (s2 =? 0) then Done (-1) else strcmp_loop (mfuel m) m s1 s2.

(** [n] counts down and may be negative from the start ([ssize_t]). *)
Fixpoint strncmp_loop (fuel : nat) (m : bmem) (p1 p2 n : Z) : outcome Z :=
  match fuel with
  | O => Fail Diverge
  | S fuel =>
      if n =? 0 then c1 ← ld m p1; c2 ← ld m p2; Done (s32 (s8 c1 - s8 c2)) else
      c1 ← ld m p1;
      if c1 =? 0 then c2 ← ld m p2; Done (s32 (s8 c1 - s8 c2)) else
      c2 ← ld m p2;
      if negb (c2 =? 0) && (c1 =? c2) then strncmp_loop fuel m (p1 + 1) (p2 + 1) (n - 1)
      else Done (s32 (s8 c1 - s8 c2))
  end.
Definition strncmp (m : bmem) (s1 s2 n : Z) : outcome Z :=
  if (s1 =? 0) || (s2 =? 0) then Done (-1) else strncmp_loop (mfuel m) m s1 s2 n.

Fixpoint memcmp_loop (n : nat) (m : bmem) (p1 p2 : Z) : outcome Z :=
  match n with
  | O => Done 0
  | S n =>
      c1 ← ld m p1; c2 ← ld m p2;
      if c1 =? c2 then memcmp_loop n m (p1 + 1) (p2 + 1) else Done (c1 - c2)
  end.
Definition memcmp (m : bmem) (s1 s2 n : Z) : outcome Z := memcmp_loop (Z.to_nat n) m s1 s2.

(** ** Length and search *)

(** [1: scasb; jnz 1b] with [al = 0]: the value of [edi] after it. *)
Fixpoint scasb_loop (fuel : nat) (m : bmem) (di : Z) : outcome Z :=
  match fuel with
  | O => Fail Diverge
  | S fuel => c ← ld m di; if c =? 0 then Done (di + 1) else scasb_loop fuel m (di + 1)
  end.
Definition strlen (m : bmem) (s : Z) : outcome Z :=
  if s =? 0 then Done (u32 (-1)) else di ← scasb_loop (mfuel m) m s; Done (u32 (di - s - 1)).
Definition strnlen (m : bmem) (s maxlen : Z) : outcome Z :=
  n ← strlen m s; Done (if n <=? u32 maxlen then n else u32 maxlen).

Fixpoint strchr_loop (fuel : nat) (m : bmem) (si c : Z) : outcome Z :=
  match fuel with
  | O => Fail Diverge
  | S fuel =>
      al ← ld m si;
      if al =? c then Done si else if al =? 0 then Done 0 else strchr_loop fuel m (si + 1) c
  end.
Definition strchr (m : bmem) (s c : Z) : outcome Z := strchr_loop (mfuel m) m s (u8 c).

(** [std] makes [lodsb] go backwards; [ecx] starts at the length. *)
Fixpoint strrchr_loop (fuel : nat) (m : bmem) (si c ecx : Z) : outcome Z :=
  match fuel with
  | O => Fail Diverge
  | S fuel =>
      al ← ld m si;
      if al =? c then Done si else
      let ecx := u32 (ecx - 1) in
      if ecx =? 0 then Done 0 else strrchr_loop fuel m (si - 1) c ecx
  end.
Definition strrchr (m : bmem) (s c : Z) : outcome Z :=
  len ← strlen m s; strrchr_loop (mfuel m) m (s + len) (u8 c) len.

(** ** Copies *)

(** [lodsb; stosb; testb; jnz]: copies up to and including the NUL; the final
    [edi]. *)
Fixpoint strcpy_loop (fuel : nat) (si di : Z) (m : bmem) : outcome (Z * bmem) :=
  match fuel with
  | O => Fail Diverge
  | S fuel =>
      c ← ld m si;
      m ← st di c m;
      if c =? 0 then Done (di + 1, m) else strcpy_loop fuel (si + 1) (di + 1) m
  end.
Definition strcpy (dest src : Z) (m : bmem) : outcome (Z * bmem) :=
  if (dest =? 0) || (src =? 0) then Done (0, m) else
  '(_, m) ← strcpy_loop (mfuel m) src dest m; Done (dest, m).

(** Returns the end of the copy, as the C function does. *)
Definition strcat (dest src : Z) (m : bmem) : outcome (Z * bmem) :=
  if (dest =? 0) || (src =? 0) then Done (dest, m) else
  di ← scasb_loop (mfuel m) m dest;
  strcpy_loop (mfuel m) src (di - 1) m.

(** The number of turns of [decl; js] on a counter. *)
Definition dec_turns (n : Z) : nat := if n <=? 2 ^ 31 then Z.to_nat n else 0%nat.

(** [n] turns at most, then one more NUL. *)
Fixpoint strncat_loop (n : nat) (si di : Z) (m : bmem) : outcome (Z * bmem) :=
  match n with
  | O => Done (di, m)
  | S n =>
      c ← ld m si;
      m ← st di c m;
      if c =? 0 then Done (di + 1, m) else strncat_loop n (si + 1) (di + 1) m
  end.
Definition strncat (dest src n : Z) (m : bmem) : outcome (Z * bmem) :=
  if (dest =? 0) || (src =? 0) || (n =? 0) then Done (dest, m) else
  di ← scasb_loop (mfuel m) m dest;
  '(di, m) ← strncat_loop (dec_turns n) src (di - 1) m;
  m ← st di 0 m;
  Done (dest, m).

(** [rep stosb] of [n] bytes [v]. *)
Fixpoint stosb_rep (n : nat) (di v : Z) (m : bmem) : outcome bmem :=
  match n with O => Done m | S n => m ← st di v m; stosb_rep n (di + 1) v m end.

Fixpoint strncpy_loop (n : nat) (si di : Z) (m : bmem) : outcome bmem :=
  match n with
  | O => st di 0 m
  | S n =>
      c ← ld m si;
      m ← st di c m;
      if c =? 0 then stosb_rep n (di + 1) 0 m else strncpy_loop n (si + 1) (di + 1) m
  end.
Definition strncpy (dest src n : Z) (m : bmem) : outcome (Z * bmem) :=
  if n =? 0 then Done (dest, m) else
  m ← strncpy_loop (dec_turns n) src dest m; Done (dest, m).

(** A move of [k] bytes at once: all are read before any is written. *)
Fixpoint ldn (k : nat) (m : bmem) (a : Z) : outcome (list Z) :=
  match k with O => Done [] | S k => c ← ld m a; cs ← ldn k m (a + 1); Done (c :: cs) end.
Fixpoint stn (a : Z) (cs : list Z) (m : bmem) : outcome bmem :=
  match cs with [] => Done m | c :: cs => m ← st a c m; stn (a + 1) cs m end.
Definition movs (k : nat) (di si : Z) (m : bmem) : outcome bmem := cs ← ldn k m si; stn di cs m.

(** A sequence of moves of the given sizes, upwards. *)
Fixpoint movs_seq (ks : list nat) (di si : Z) (m : bmem) : outcome bmem :=
  match ks with
  | [] => Done m
  | k :: ks => m ← movs k di si m; movs_seq ks (di + Z.of_nat k) (si + Z.of_nat k) m
  end.

(** The moves of [memcpy] for [n >= 32]: single bytes up to an aligned
    destination, then double words, then the rest. *)
Definition align_head (p : Z) : Z := u32 (- p) mod 4.
Definition tail_moves (n : Z) : list nat :=
  match Z.land n 3 with 1 => [1%nat] | 2 => [2%nat] | 3 => [2%nat; 1%nat] | _ => [] end.
Definition copy_moves (dest n : Z) : list nat :=
  if n <? 32 then replicate (Z.to_nat n) 1%nat else
  let n' := n - align_head dest in
  replicate (Z.to_nat (align_head dest)) 1%nat ++ replicate (Z.to_nat (n' / 4)) 4%nat ++ tail_moves n'.

Definition memcpy (dest src n : Z) (m : bmem) : outcome (Z * bmem) :=
  if (src =? 0) || (dest =? 0) then Done (0, m) else
  m ← movs_seq (copy_moves dest n) dest src m; Done (dest, m).

(** The same plan for [memset]: a unit of [k] bytes is stored from the [k] low bytes of
    [eax], which is [c * 0x01010101]. *)
Definition eax_bytes (v : Z) : list Z := [u8 v; u8 (v / 2 ^ 8); u8 (v / 2 ^ 16); u8 (v / 2 ^ 24)].
Fixpoint stos_seq (ks : list nat) (di v : Z) (m : bmem) : outcome bmem :=
  match ks with
  | [] => Done m
  | k :: ks => m ← stn di (take k (eax_bytes v)) m; stos_seq ks (di + Z.of_nat k) v m
  end.
Definition memset (s c n : Z) (m : bmem) : outcome (Z * bmem) :=
  m ← stos_seq (copy_moves s n) s (s32 (c * 0x01010101)) m; Done (s, m).

(** The overlapping branch of [memmove]: downwards from one past the end.  A unit of
    [k] bytes is moved at the current pointers, which then go down by [k]. *)
Fixpoint movs_down (ks : list nat) (di si : Z) (m : bmem) : outcome bmem :=
  match ks with
  | [] => Done m
  | k :: ks => m ← movs k di si m; movs_down ks (di - Z.of_nat k) (si - Z.of_nat k) m
  end.
Definition memmove (dest src n : Z) (m : bmem) : outcome (Z * bmem) :=
  if (dest =? 0) || (src =? 0) || (n =? 0) then Done (dest, m) else
  if (src <? dest) && (dest <=? u32 (src + n)) then
    let d := dest + n in
    let s := src + n in
    let n' := u32 (n - align_head d) in
    let head := match Z.land d 3 with 1 => 3%nat | 2 => 2%nat | 3 => 1%nat | _ => 0%nat end in
    m ← movs_down (replicate head 1%nat ++ replicate (Z.to_nat (n' / 4)) 4%nat ++ tail_moves n') d s m;
    Done (dest, m)
  else memcpy dest src n m.

(** [mem]: what [kmalloc] returns ([None] for NULL). *)
Definition strdup (mem : option Z) (s : Z) (m : bmem) : outcome (Z * bmem) :=
  len ← strlen m s;
  match mem with
  | None => Done (0, m)
  | Some ret => '(_, m) ← memcpy ret s (u32 (len + 1)) m; Done (ret, m)
  end.

(** ** Regions and strings *)

(** The bytes [l] lie at [a]. *)
Definition bytes (m : bmem) (a : Z) (l : list Z) : Prop :=
  ∀ i b, l !! i = Some b → m !! (a + Z.of_nat i) = Some b.
(** [n] bytes of memory exist at [a]. *)
Definition room (m : bmem) (a : Z) (n : nat) : Prop := ∀ i, a <= i < a + Z.of_nat n → is_Some (m !! i).
(** A C string: its bytes, none of them NUL, and the NUL. *)
Definition byte_ok (b : Z) : Prop := 0 <= b < 256.
Definition cstr (m : bmem) (a : Z) (s : list Z) : Prop :=
  bytes m a (s ++ [0]) ∧ Forall (λ b, 0 < b < 256) s.
(** [m'] is [m] with the bytes [l] written at [a]. *)
Definition written (m m' : bmem) (a : Z) (l : list Z) : Prop :=
  bytes m' a l ∧ (∀ i, ¬ a <= i < a + Z.of_nat (length l) → m' !! i = m !! i) ∧ dom m' = dom m.

Lemma bytes_cons m a b l : bytes m a (b :: l) ↔ m !! a = Some b ∧ bytes m (a + 1) l.
Proof.
  unfold bytes. split.
  - intros H. split; [by rewrite <- (Z.add_0_r a), <- (H 0%nat b)|]. intros i c Hi.
    rewrite <- (H (S i) c Hi). f_equal. lia.
  - intros [H1 H2] [|i] c Hi; simpl in Hi; [simplify_eq; by rewrite Z.add_0_r|].
    rewrite <- (H2 i c Hi). f_equal. lia.
Qed.

Lemma bytes_app m a l1 l2 : bytes m a (l1 ++ l2) ↔ bytes m a l1 ∧ bytes m (a + Z.of_nat (length l1)) l2.
Proof.
  revert a. induction l1 as [|b l1 IH]; intros a; simpl.
  - rewrite Z.add_0_r. split; [intros ?; split; [|done]; by intros ??|tauto].
  - rewrite !bytes_cons, IH. replace (a + 1 + Z.of_nat (length l1)) with (a + Z.of_nat (S (length l1))) by lia.
    tauto.
Qed.

Lemma bytes_room m a l : bytes m a l → room m a (length l).
Proof.
  intros Hb i Hi. destruct (lookup_lt_is_Some_2 l (Z.to_nat (i - a))) as [b Hl]; [lia|].
  specialize (Hb _ _ Hl). rewrite Z2Nat.id in Hb by lia. replace (a + (i - a)) with i in Hb by lia. eauto.
Qed.

(** A region is no larger than the memory, so [mfuel] is enough for any loop over
    one. *)
Lemma room_fuel m a n : room m a n → (n <= base.size m)%nat.
Proof.
  intros Hr. rewrite <- size_dom.
  assert (Hs : (list_to_set (seqZ a (Z.of_nat n)) : gset Z) ⊆ dom m).
  { intros i. rewrite elem_of_list_to_set, elem_of_seqZ, elem_of_dom. apply Hr. }
  apply subseteq_size in Hs. rewrite size_list_to_set, length_seqZ in Hs by apply NoDup_seqZ. lia.
Qed.

Lemma room_ext m m' a n : dom m' = dom m → room m a n → room m' a n.
Proof. intros Hd Hr i Hi. apply elem_of_dom. rewrite Hd. apply elem_of_dom. by apply Hr. Qed.

Lemma bytes_ext m m' a l : (∀ i, a <= i < a + Z.of_nat (length l) → m' !! i = m !! i) →
  bytes m a l → bytes m' a l.
Proof.
  intros Hf Hb i b Hi. rewrite Hf; [by apply Hb|]. apply lookup_lt_Some in Hi. lia.
Qed.

Lemma st_spec m a v : is_Some (m !! a) → byte_ok v → st a v m = Done (<[a := v]> m).
Proof. intros [b Hb] Hv. unfold st. rewrite Hb. cbn. unfold u8. by rewrite Z.mod_small. Qed.

Lemma written_nil m a : written m m a [].
Proof. split; [by intros ??|]. split; [|done]. intros. done. Qed.

Lemma written_cons m m' a b l : is_Some (m !! a) → written (<[a := b]> m) m' (a + 1) l →
  written m m' a (b :: l).
Proof.
  intros Hs (Hb & Hf & Hd). split; [|split].
  - apply bytes_cons. split; [|done]. rewrite Hf by lia. apply lookup_insert_eq.
  - intros i Hi. simpl in Hi. rewrite Hf by lia. apply lookup_insert_ne. lia.
  - rewrite Hd. by apply dom_insert_lookup_L.
Qed.

(** ** Length *)

Lemma scasb_spec m a s fuel : bytes m a (s ++ [0]) → Forall (λ b, 0 < b < 256) s →
  (length s < fuel)%nat → scasb_loop fuel m a = Done (a + Z.of_nat (length s) + 1).
Proof.
  revert a fuel. induction s as [|b s IH]; intros a [|fuel] Hb Hs Hf; simpl in Hf; try lia; cbn [scasb_loop].
  - apply bytes_cons in Hb as [Ha _]. unfold ld. rewrite Ha. cbn [deref]. rewrite bind_done. cbn.
    f_equal. lia.
  - cbn [app] in Hb. apply bytes_cons in Hb as [Ha Hb]. apply Forall_cons in Hs as [Hb0 Hs].
    unfold ld. rewrite Ha. cbn [deref]. rewrite bind_done, (proj2 (Z.eqb_neq b 0)) by lia.
    rewrite (IH (a + 1)) by (done || lia). f_equal. simpl. lia.
Qed.

Lemma cstr_fuel m a s : cstr m a s → (length s < mfuel m)%nat.
Proof.
  intros [Hb _]. apply bytes_room in Hb. apply room_fuel in Hb. rewrite length_app in Hb. unfold mfuel. simpl in Hb. lia.
Qed.

Lemma strlen_spec m a s : cstr m a s → a ≠ 0 → Z.of_nat (length s) < 2 ^ 32 →
  strlen m a = Done (Z.of_nat (length s)).
Proof.
  intros Hc Ha Hl. unfold strlen. rewrite (proj2 (Z.eqb_neq a 0)) by done.
  rewrite (scasb_spec m a s) by (apply Hc || by eapply (cstr_fuel m a)). rewrite bind_done. f_equal.
  rewrite u32_small; lia.
Qed.

(** ** Copying strings *)

Lemma strcpy_loop_spec s si di m fuel :
  bytes m si (s ++ [0]) → Forall (λ b, 0 < b < 256) s → room m di (length s + 1) →
  (si + Z.of_nat (length s) < di ∨ di + Z.of_nat (length s) < si) → (length s < fuel)%nat →
  ∃ m', strcpy_loop fuel si di m = Done (di + Z.of_nat (length s) + 1, m') ∧ written m m' di (s ++ [0]).
Proof.
  revert si di m fuel. induction s as [|b s IH]; intros si di m [|fuel] Hb Hs Hr Hd Hf; simpl in Hf; try lia;
    cbn [strcpy_loop].
  - apply bytes_cons in Hb as [Ha _]. unfold ld. rewrite Ha. cbn [deref]. rewrite bind_done.
    rewrite st_spec by (apply Hr || unfold byte_ok; simpl; lia). rewrite bind_done. cbn [Z.eqb length].
    eexists. split; [f_equal; f_equal; simpl; lia|]. apply written_cons; [apply Hr; simpl; lia|apply written_nil].
  - cbn [app] in Hb. apply bytes_cons in Hb as [Ha Hb]. apply Forall_cons in Hs as [Hb0 Hs]. simpl in Hr, Hd.
    unfold ld. rewrite Ha. cbn [deref]. rewrite bind_done.
    rewrite st_spec by (apply Hr || unfold byte_ok; lia). rewrite bind_done, (proj2 (Z.eqb_neq b 0)) by lia.
    destruct (IH (si + 1) (di + 1) (<[di := b]> m) fuel) as (m' & -> & Hw).
    + eapply bytes_ext; [|exact Hb]. rewrite length_app. simpl. intros i Hi. apply lookup_insert_ne. lia.
    + done.
    + intros i Hi. destruct (decide (i = di)) as [->|]; [rewrite lookup_insert_eq; eauto|].
      rewrite lookup_insert_ne by done. apply Hr. lia.
    + lia.
    + lia.
    + exists m'. split; [f_equal; f_equal; simpl; lia|]. cbn [app]. apply written_cons; [apply Hr; lia|done].
Qed.

Lemma strcpy_spec m d a s : cstr m a s → a ≠ 0 → d ≠ 0 → room m d (length s + 1) →
  (a + Z.of_nat (length s) < d ∨ d + Z.of_nat (length s) < a) →
  ∃ m', strcpy d a m = Done (d, m') ∧ written m m' d (s ++ [0]).
Proof.
  intros Hc Ha Hd Hr Hdis. unfold strcpy.
  rewrite (proj2 (Z.eqb_neq d 0)), (proj2 (Z.eqb_neq a 0)) by done. cbn [orb].
  destruct (strcpy_loop_spec s a d m (mfuel m)) as (m' & -> & Hw); try done; try apply Hc.
  - by eapply cstr_fuel.
  - rewrite bind_done. eauto.
Qed.

(** A string seen after a write elsewhere. *)
Lemma cstr_written m m' d l a s : written m m' d l → cstr m a s →
  (a + Z.of_nat (length s) < d ∨ d + Z.of_nat (length l) <= a) → cstr m' a s.
Proof.
  intros (_ & Hf & _) [Hb Hs] Hd. split; [|done]. eapply bytes_ext; [|exact Hb]. intros i Hi.
  rewrite length_app in Hi. simpl in Hi. apply Hf. lia.
Qed.

Lemma strcat_spec m d a s1 s2 : cstr m d s1 → cstr m a s2 → a ≠ 0 → d ≠ 0 →
  room m (d + Z.of_nat (length s1)) (length s2 + 1) →
  (a + Z.of_nat (length s2) < d + Z.of_nat (length s1) ∨ d + Z.of_nat (length s1 + length s2) < a) →
  ∃ m', strcat d a m = Done (d + Z.of_nat (length s1 + length s2) + 1, m') ∧ cstr m' d (s1 ++ s2) ∧
    ∀ i, ¬ d + Z.of_nat (length s1) <= i <= d + Z.of_nat (length s1 + length s2) → m' !! i = m !! i.
Proof.
  intros Hc1 Hc2 Ha Hd Hr Hdis. unfold strcat.
  rewrite (proj2 (Z.eqb_neq d 0)), (proj2 (Z.eqb_neq a 0)) by done. cbn [orb].
  rewrite (scasb_spec m d s1) by (apply Hc1 || by eapply (cstr_fuel m d)). rewrite bind_done.
  replace (d + Z.of_nat (length s1) + 1 - 1) with (d + Z.of_nat (length s1)) by lia.
  destruct (strcpy_loop_spec s2 a (d + Z.of_nat (length s1)) m (mfuel m)) as (m' & -> & Hb & Hf & _);
    try done; try apply Hc2.
  - lia.
  - by eapply cstr_fuel.
  - exists m'. split; [f_equal; f_equal; lia|]. split; [split|].
    + rewrite <- app_assoc. apply bytes_app. split; [|done]. destruct Hc1 as [[Hb1 _]%bytes_app _].
      eapply bytes_ext; [|exact Hb1]. intros i Hi. apply Hf. lia.
    + apply Forall_app. split; [apply Hc1|apply Hc2].
    + intros i Hi. apply Hf. rewrite length_app. simpl. lia.
Qed.

(** ** Copying memory *)

Lemma ldn_spec m a l : bytes m a l → ldn (length l) m a = Done l.
Proof.
  revert a. induction l as [|b l IH]; intros a Hb; [done|]. apply bytes_cons in Hb as [Ha Hb].
  cbn [length ldn]. unfold ld. rewrite Ha. cbn [deref]. rewrite bind_done, IH by done. done.
Qed.

Lemma stn_spec m a l : room m a (length l) → Forall byte_ok l →
  ∃ m', stn a l m = Done m' ∧ written m m' a l.
Proof.
  revert a m. induction l as [|b l IH]; intros a m Hr Hl; cbn [stn].
  - exists m. split; [done|apply written_nil].
  - apply Forall_cons in Hl as [Hb Hl]. simpl in Hr. rewrite st_spec by (done || apply Hr; lia).
    rewrite bind_done. destruct (IH (a + 1) (<[a := b]> m)) as (m' & -> & Hw); [|done|].
    + intros i Hi. destruct (decide (i = a)) as [->|]; [rewrite lookup_insert_eq; eauto|].
      rewrite lookup_insert_ne by done. apply Hr. lia.
    + exists m'. split; [done|]. apply written_cons; [apply Hr; lia|done].
Qed.

Lemma written_app m m1 m2 a l1 l2 : written m m1 a l1 → written m1 m2 (a + Z.of_nat (length l1)) l2 →
  written m m2 a (l1 ++ l2).
Proof.
  intros (Hb1 & Hf1 & Hd1) (Hb2 & Hf2 & Hd2). split; [|split].
  - apply bytes_app. split; [|done]. eapply bytes_ext; [|exact Hb1]. intros i Hi. apply Hf2. lia.
  - intros i Hi. rewrite length_app in Hi. rewrite Hf2, Hf1 by lia. done.
  - congruence.
Qed.

(** A plan of moves copies upwards, wherever the destination is not inside the
    source above its start. *)
Lemma movs_seq_spec ks m di si l :
  bytes m si l → Forall byte_ok l → length l = sum_list ks → room m di (length l) →
  (di <= si ∨ si + Z.of_nat (length l) <= di) →
  ∃ m', movs_seq ks di si m = Done m' ∧ written m m' di l.
Proof.
  revert m di si l. induction ks as [|k ks IH]; intros m di si l Hb Hl Hlen Hr Hd; cbn [movs_seq].
  - simpl in Hlen. destruct l; [|done]. exists m. split; [done|apply written_nil].
  - simpl in Hlen. rewrite <- (take_drop k l) in Hb |- *.
    assert (Hk : length (take k l) = k) by (rewrite length_take; lia).
    assert (Hk' : length (drop k l) = sum_list ks) by (rewrite length_drop; lia).
    apply bytes_app in Hb as [Hb1 Hb2]. rewrite Hk in Hb2.
    pose proof (ldn_spec m si (take k l) Hb1) as Hld. rewrite Hk in Hld. unfold movs. rewrite Hld, bind_done.
    destruct (stn_spec m di (take k l)) as (m1 & -> & Hw1).
    { intros i Hi. apply Hr. lia. }
    { by apply Forall_take. }
    rewrite bind_done. pose proof Hw1 as (_ & Hf1 & Hd1). rewrite Hk in Hf1.
    destruct (IH m1 (di + Z.of_nat k) (si + Z.of_nat k) (drop k l)) as (m2 & -> & Hw2).
    + eapply bytes_ext; [|exact Hb2]. intros i Hi. apply Hf1. lia.
    + by apply Forall_drop.
    + done.
    + eapply room_ext; [exact Hd1|]. intros i Hi. apply Hr. lia.
    + lia.
    + exists m2. split; [done|]. eapply written_app; [exact Hw1|]. by rewrite Hk.
Qed.

Lemma sum_replicate k (n : nat) : sum_list (replicate n k) = (n * k)%nat.
Proof. induction n as [|n IH]; [done|]. simpl. by rewrite IH. Qed.

Lemma tail_moves_sum n : 0 <= n → Z.of_nat (sum_list (tail_moves n)) = n mod 4.
Proof.
  intros Hn. unfold tail_moves. change 3 with (Z.ones 2). rewrite Z.land_ones by lia. change (2 ^ 2) with 4.
  pose proof (Z.mod_pos_bound n 4 ltac:(lia)).
  assert (n mod 4 = 0 ∨ n mod 4 = 1 ∨ n mod 4 = 2 ∨ n mod 4 = 3) as [->|[->|[->| ->]]] by lia; done.
Qed.

Lemma copy_moves_sum d n : 0 <= n → Z.of_nat (sum_list (copy_moves d n)) = n.
Proof.
  intros Hn. unfold copy_moves. destruct (Z.ltb_spec n 32).
  - rewrite sum_replicate. lia.
  - assert (0 <= align_head d < 4) by (unfold align_head; apply Z.mod_pos_bound; lia).
    rewrite !(sum_list_with_app id), !sum_replicate.
    pose proof (tail_moves_sum (n - align_head d) ltac:(lia)). pose proof (Z.div_mod (n - align_head d) 4 ltac:(lia)).
    pose proof (Z.div_pos (n - align_head d) 4 ltac:(lia) ltac:(lia)). lia.
Qed.

Lemma written_bytes m m' a l : written m m' a l → bytes m' a l.
Proof. by intros (? & _). Qed.

(** ** Comparing strings *)

(** The difference, as signed characters, at the first place where two lists
    differ. *)
Fixpoint first_diff (l1 l2 : list Z) : Z :=
  match l1, l2 with
  | x :: l1, y :: l2 => if x =? y then first_diff l1 l2 else s8 x - s8 y
  | _, _ => 0
  end.

Lemma s8_inj x y : 0 <= x < 256 → 0 <= y < 256 → s8 x = s8 y → x = y.
Proof.
  unfold s8. intros Hx Hy H.
  pose proof (Z.mod_pos_bound (x + 2 ^ 7) (2 ^ 8) ltac:(lia)).
  pose proof (Z.div_mod (x + 2 ^ 7) (2 ^ 8) ltac:(lia)). pose proof (Z.div_mod (y + 2 ^ 7) (2 ^ 8) ltac:(lia)).
  assert ((x + 2 ^ 7) mod 2 ^ 8 = (y + 2 ^ 7) mod 2 ^ 8) by lia.
  set (q1 := (x + 2 ^ 7) / 2 ^ 8) in *. set (q2 := (y + 2 ^ 7) / 2 ^ 8) in *. lia.
Qed.

Lemma s8_diff_small x y : s32 (s8 x - s8 y) = s8 x - s8 y.
Proof.
  apply s32_small. unfold s8.
  pose proof (Z.mod_pos_bound (x + 2 ^ 7) (2 ^ 8) ltac:(lia)).
  pose proof (Z.mod_pos_bound (y + 2 ^ 7) (2 ^ 8) ltac:(lia)). lia.
Qed.

Lemma first_diff_opp l1 l2 : first_diff l2 l1 = - first_diff l1 l2.
Proof.
  revert l2. induction l1 as [|x l1 IH]; intros [|y l2]; simpl; try done.
  rewrite (Z.eqb_sym y x). destruct (x =? y); [apply IH|lia].
Qed.

Lemma first_diff_zero l1 l2 : Forall byte_ok l1 → Forall byte_ok l2 → length l1 = length l2 →
  first_diff l1 l2 = 0 → l1 = l2.
Proof.
  revert l2. induction l1 as [|x l1 IH]; intros [|y l2]; simpl; try done.
  intros [Hx H1]%Forall_cons [Hy H2]%Forall_cons [= Hl]. destruct (Z.eqb_spec x y) as [->|Hn].
  - intros Hd. f_equal. by apply IH.
  - intros Hd. destruct Hn. apply s8_inj; unfold byte_ok in *; lia.
Qed.

(** Two NUL-terminated strings with no first difference are the same. *)
Lemma first_diff_cstr s1 s2 : Forall (λ b, 0 < b < 256) s1 → Forall (λ b, 0 < b < 256) s2 →
  first_diff (s1 ++ [0]) (s2 ++ [0]) = 0 ↔ s1 = s2.
Proof.
  intros H1 H2. split.
  - revert s2 H2. induction H1 as [|x s1 Hx H1 IH]; intros s2 H2; destruct H2 as [|y s2 Hy H2]; cbn [app first_diff].
    + done.
    + rewrite (proj2 (Z.eqb_neq 0 y)) by lia. intros Hd. pose proof (s8_inj 0 y). lia.
    + rewrite (proj2 (Z.eqb_neq x 0)) by lia. intros Hd. pose proof (s8_inj x 0). lia.
    + destruct (Z.eqb_spec x y) as [->|Hn]; intros Hd; [f_equal; by apply IH|].
      destruct Hn. apply s8_inj; lia.
  - intros <-. assert (∀ l, first_diff l l = 0) as ->; [|done].
    intros l. induction l as [|x l IH]; [done|]. simpl. by rewrite Z.eqb_refl.
Qed.

Lemma strcmp_loop_spec s1 s2 m p1 p2 fuel :
  cstr m p1 s1 → cstr m p2 s2 → (length s1 < fuel)%nat →
  strcmp_loop fuel m p1 p2 = Done (first_diff (s1 ++ [0]) (s2 ++ [0])).
Proof.
  revert s2 p1 p2 fuel. induction s1 as [|x s1 IH]; intros s2 p1 p2 [|fuel] [Hb1 Hs1] [Hb2 Hs2] Hf;
    simpl in Hf; try lia; cbn [strcmp_loop app first_diff].
  - apply bytes_cons in Hb1 as [H1 _]. unfold ld. rewrite H1. cbn [deref]. rewrite bind_done. cbn [Z.eqb].
    destruct s2 as [|y s2]; cbn [app] in Hb2 |- *; apply bytes_cons in Hb2 as [H2 _]; rewrite H2;
      cbn [deref]; rewrite bind_done, s8_diff_small; [done|].
    apply Forall_cons in Hs2 as [Hy _]. by destruct y; try lia.
  - cbn [app] in Hb1. apply bytes_cons in Hb1 as [H1 Hb1]. apply Forall_cons in Hs1 as [Hx Hs1].
    unfold ld. rewrite H1. cbn [deref]. rewrite bind_done, (proj2 (Z.eqb_neq x 0)) by lia.
    destruct s2 as [|y s2]; cbn [app] in Hb2 |- *; apply bytes_cons in Hb2 as [H2 Hb2]; rewrite H2;
      cbn [deref]; rewrite bind_done, s8_diff_small.
    + cbn [Z.eqb negb andb]. by rewrite (proj2 (Z.eqb_neq x 0)) by lia.
    + apply Forall_cons in Hs2 as [Hy Hs2]. rewrite (proj2 (Z.eqb_neq y 0)) by lia. cbn [negb andb].
      destruct (x =? y); [|done]. by rewrite (IH s2) by (done || lia).
Qed.

Lemma strncmp_loop_spec s1 s2 m p1 p2 n fuel :
  cstr m p1 s1 → cstr m p2 s2 → (length s1 < fuel)%nat → 0 <= n →
  strncmp_loop fuel m p1 p2 n =
    Done (first_diff (take (Z.to_nat (n + 1)) (s1 ++ [0])) (take (Z.to_nat (n + 1)) (s2 ++ [0]))).
Proof.
  revert s2 p1 p2 n fuel. induction s1 as [|x s1 IH]; intros s2 p1 p2 n [|fuel] [Hb1 Hs1] [Hb2 Hs2] Hf Hn;
    simpl in Hf; try lia.
  - rewrite (Z2Nat.inj_add n 1), Nat.add_1_r by lia. cbn [strncmp_loop app take].
    apply bytes_cons in Hb1 as [H1 _]. unfold ld. rewrite H1. cbn [deref]. rewrite !bind_done. cbn [Z.eqb].
    destruct s2 as [|y s2]; cbn [app take first_diff] in Hb2 |- *; apply bytes_cons in Hb2 as [H2 _]; rewrite H2;
      cbn [deref]; rewrite !bind_done, s8_diff_small.
    + rewrite take_nil. destruct (n =? 0); done.
    + apply Forall_cons in Hs2 as [Hy _]. rewrite (proj2 (Z.eqb_neq 0 y)) by lia. by destruct (n =? 0).
  - cbn [app] in Hb1. apply bytes_cons in Hb1 as [H1 Hb1]. apply Forall_cons in Hs1 as [Hx Hs1].
    rewrite (Z2Nat.inj_add n 1), Nat.add_1_r by lia. cbn [strncmp_loop app take].
    unfold ld. rewrite H1. cbn [deref]. rewrite !bind_done, (proj2 (Z.eqb_neq x 0)) by lia.
    destruct s2 as [|y s2]; cbn [app take first_diff] in Hb2 |- *; apply bytes_cons in Hb2 as [H2 Hb2]; rewrite H2;
      cbn [deref]; rewrite !bind_done, s8_diff_small.
    + cbn [Z.eqb negb andb]. rewrite (proj2 (Z.eqb_neq x 0)) by lia. by destruct (n =? 0).
    + apply Forall_cons in Hs2 as [Hy Hs2]. rewrite (proj2 (Z.eqb_neq y 0)) by lia. cbn [negb andb].
      destruct (Z.eqb_spec n 0) as [->|Hn0].
      * cbn [Z.to_nat take]. destruct (Z.eqb_spec x y) as [->|]; [|done]. simpl. f_equal. lia.
      * destruct (x =? y); [|done]. rewrite (IH s2) by (done || lia).
        by replace (n - 1 + 1) with n by lia.
Qed.

(** ** Properties *)

(** A memory with the bytes [l] at [a], for the concrete runs. *)
Fixpoint mem_of (a : Z) (l : list Z) : bmem :=
  match l with [] => ∅ | b :: l => <[a := b]> (mem_of (a + 1) l) end.

(** Strcmp of two NUL-terminated strings returns the difference, as signed characters, of the
    first bytes in which they differ: 0 exactly when the strings are equal, and the opposite number
    when the arguments are swapped. *)
Theorem strcmp_correct m p1 p2 s1 s2 (H1 : cstr m p1 s1) (H2 : cstr m p2 s2) (Hp1 : p1 ≠ 0) (Hp2 : p2 ≠ 0) :
  ∃ d, strcmp m p1 p2 = Done d ∧ d = first_diff (s1 ++ [0]) (s2 ++ [0]) ∧
    (d = 0 ↔ s1 = s2) ∧ strcmp m p2 p1 = Done (- d).
Proof.
  exists (first_diff (s1 ++ [0]) (s2 ++ [0])). unfold strcmp.
  rewrite (proj2 (Z.eqb_neq p1 0)), (proj2 (Z.eqb_neq p2 0)) by done. cbn [orb].
  rewrite (strcmp_loop_spec s1 s2) by (done || by eapply (cstr_fuel m p1)).
  rewrite (strcmp_loop_spec s2 s1) by (done || by eapply (cstr_fuel m p2)).
  split; [done|]. split; [done|]. split; [apply first_diff_cstr; [apply H1|apply H2]|].
  by rewrite first_diff_opp.
Qed.

Lemma cstr_mem_of_2 : cstr (mem_of 100 [65; 66; 0; 65; 200; 0]) 100 [65; 66] ∧
  cstr (mem_of 100 [65; 66; 0; 65; 200; 0]) 103 [65; 200].
Proof.
  split; (split; [|repeat constructor; lia]); intros i b Hi;
    (destruct i as [|[|[|]]]; simpl in Hi; simplify_eq; vm_compute; reflexivity).
Qed.

Lemma strcmp_correct_witness :
  let m := mem_of 100 [65; 66; 0; 65; 200; 0] in
  strcmp m 100 103 = Done 122 ∧
  ∃ d, strcmp m 100 103 = Done d ∧ d = first_diff ([65; 66] ++ [0]) ([65; 200] ++ [0]) ∧
    (d = 0 ↔ [65; 66] = [65; 200]) ∧ strcmp m 103 100 = Done (- d).
Proof.
  split; [vm_compute; reflexivity|].
  refine (strcmp_correct _ 100 103 [65; 66] [65; 200] (proj1 cstr_mem_of_2) (proj2 cstr_mem_of_2) _ _); discriminate.
Defined.

(** Strncmp with a bound n >= 0 compares n + 1 bytes, not n: its result is the first difference
    within the first n + 1 bytes of the two strings with their NULs, and two strings that agree on n
    bytes but not on the next one compare as different. *)
Theorem strncmp_compares_one_more m p1 p2 s1 s2 n (H1 : cstr m p1 s1) (H2 : cstr m p2 s2)
    (Hp1 : p1 ≠ 0) (Hp2 : p2 ≠ 0) (Hn : 0 <= n) :
  ∃ d, strncmp m p1 p2 n = Done d ∧
    d = first_diff (take (Z.to_nat (n + 1)) (s1 ++ [0])) (take (Z.to_nat (n + 1)) (s2 ++ [0])) ∧
    (Z.of_nat (length s1) <= n → Z.of_nat (length s2) <= n → (d = 0 ↔ s1 = s2)) ∧
    (∀ x y, (s1 ++ [0]) !! Z.to_nat n = Some x → (s2 ++ [0]) !! Z.to_nat n = Some y → x ≠ y → d ≠ 0).
Proof.
  eexists. unfold strncmp.
  rewrite (proj2 (Z.eqb_neq p1 0)), (proj2 (Z.eqb_neq p2 0)) by done. cbn [orb].
  rewrite (strncmp_loop_spec s1 s2) by (done || by eapply (cstr_fuel m p1)).
  assert (Hcs : Forall byte_ok (s1 ++ [0]) ∧ Forall byte_ok (s2 ++ [0])).
  { split; (apply Forall_app; split; [|repeat constructor; lia]);
      (eapply Forall_impl; [apply H1 || apply H2|]); unfold byte_ok; simpl; lia. }
  split; [done|]. split; [done|]. split.
  - intros Hl1 Hl2. rewrite !take_ge by (rewrite length_app; simpl; lia).
    apply first_diff_cstr; [apply H1|apply H2].
  - intros x y Hx Hy Hxy Hz. apply Hxy.
    apply lookup_lt_Some in Hx as Hlx. apply lookup_lt_Some in Hy as Hly.
    apply first_diff_zero in Hz; [|by apply Forall_take, Hcs|by apply Forall_take, Hcs|rewrite !length_take; lia].
    apply (f_equal (λ l, l !! Z.to_nat n)) in Hz. rewrite !lookup_take_lt in Hz by lia. congruence.
Qed.

Lemma strncmp_compares_one_more_witness :
  let m := mem_of 100 [65; 66; 0; 65; 200; 0] in
  strncmp m 100 103 1 = Done 122 ∧
  ∃ d, strncmp m 100 103 1 = Done d ∧
    d = first_diff (take 2 ([65; 66] ++ [0])) (take 2 ([65; 200] ++ [0])) ∧
    (2 <= 1 → 2 <= 1 → (d = 0 ↔ [65; 66] = [65; 200])) ∧
    (∀ x y, ([65; 66] ++ [0]) !! 1%nat = Some x → ([65; 200] ++ [0]) !! 1%nat = Some y → x ≠ y → d ≠ 0).
Proof.
  split; [vm_compute; reflexivity|].
  refine (strncmp_compares_one_more _ 100 103 [65; 66] [65; 200] 1 (proj1 cstr_mem_of_2) (proj2 cstr_mem_of_2) _ _ _);
    discriminate.
Defined.

Lemma movs_copy_spec d si m l :
  bytes m si l → Forall byte_ok l → room m d (length l) → (d <= si ∨ si + Z.of_nat (length l) <= d) →
  ∃ m', movs_seq (copy_moves d (Z.of_nat (length l))) d si m = Done m' ∧ written m m' d l.
Proof.
  intros. apply movs_seq_spec; try done.
  pose proof (copy_moves_sum d (Z.of_nat (length l)) ltac:(lia)). lia.
Qed.

(** C10: [memcpy] copies exactly its n bytes, with the alignment head, the double words and the tail, between non-null addresses of memory that exists,
    whenever the destination does not start inside the source, and returns the destination; nothing outside the destination changes.  [memmove] does the same,
    which includes every overlap where the block moves downwards, but not for a destination that begins exactly where the source ends
    (there, and for upward overlaps, it takes its other branch: [memmove_overlap_wrong], [memmove_adjacent_wrong]). *)
Theorem memcpy_correct m d a l (Hb : bytes m a l) (Hl : Forall byte_ok l) (Hr : room m d (length l))
    (Ha : 0 < a) (Hd : 0 < d) (Hn : a + Z.of_nat (length l) < 2 ^ 32)
    (Hov : d <= a ∨ a + Z.of_nat (length l) <= d) :
  ∃ m', memcpy d a (Z.of_nat (length l)) m = Done (d, m') ∧ written m m' d l ∧
    (d <= a ∨ d ≠ a + Z.of_nat (length l) → memmove d a (Z.of_nat (length l)) m = Done (d, m')).
Proof.
  destruct (movs_copy_spec d a m l) as (m' & Hm & Hw); [done..|].
  exists m'. assert (memcpy d a (Z.of_nat (length l)) m = Done (d, m')) as Hc.
  { unfold memcpy. rewrite (proj2 (Z.eqb_neq a 0)), (proj2 (Z.eqb_neq d 0)) by lia. cbn [orb].
    by rewrite Hm, bind_done. }
  split; [done|]. split; [done|]. intros Hne. unfold memmove.
  rewrite (proj2 (Z.eqb_neq a 0)), (proj2 (Z.eqb_neq d 0)) by lia. cbn [orb].
  destruct (Z.eqb_spec (Z.of_nat (length l)) 0) as [Hz|_].
  - f_equal. f_equal. destruct l; [|done]. cbn in Hm. by injection Hm.
  - rewrite u32_small by lia. destruct (decide (d <= a)).
    + by rewrite (proj2 (Z.ltb_ge a d)) by lia.
    + rewrite (proj2 (Z.leb_gt d (a + Z.of_nat (length l)))) by lia. by rewrite andb_false_r.
Qed.

Lemma memcpy_correct_witness :
  let m := mem_of 100 [1; 2; 3; 4] in
  ∃ m', memcpy 100 101 3 m = Done (100, m') ∧ written m m' 100 [2; 3; 4] ∧
    (100 <= 101 ∨ 100 ≠ 101 + Z.of_nat (length [2; 3; 4]) → memmove 100 101 3 m = Done (100, m')).
Proof.
  refine (memcpy_correct (mem_of 100 [1; 2; 3; 4]) 100 101 [2; 3; 4] _ _ _ _ _ _ _).
  - intros i b Hi. destruct i as [|[|[|]]]; simpl in Hi; simplify_eq; vm_compute; reflexivity.
  - repeat constructor; lia.
  - intros i Hi. simpl in Hi. assert (i = 100 ∨ i = 101 ∨ i = 102) as [->|[->| ->]] by lia;
      vm_compute; eauto.
  - reflexivity.
  - reflexivity.
  - reflexivity.
  - left. discriminate.
Defined.

(** The overlapping upward move starts one byte past the end of both blocks, so it
    does not move the block. *)
Lemma memmove_overlap_wrong :
  memmove 104 100 8 (mem_of 100 [1; 2; 3; 4; 5; 6; 7; 8; 9; 10; 11; 12; 13; 14; 15; 16]) =
    Done (104, mem_of 100 [1; 2; 3; 4; 5; 6; 7; 8; 5; 6; 7; 8; 9; 10; 11; 12]).
Proof. vm_compute. reflexivity. Qed.

(** A block that begins exactly where the source ends does not overlap it, and is treated the same. *)
Lemma memmove_adjacent_wrong :
  memmove 104 100 4 (mem_of 100 [1; 2; 3; 4; 5; 6; 7; 8; 9; 10; 11; 12]) = Done (104, mem_of 100 [1; 2; 3; 4; 5; 6; 7; 8; 5; 6; 7; 8]).
Proof. vm_compute. reflexivity. Qed.

(** [strrchr] never looks at the first character of the string. *)
Lemma strrchr_misses_first : strrchr (mem_of 100 [47; 98; 0]) 100 47 = Done 0.
Proof. vm_compute. reflexivity. Qed.

(** Strcpy followed by strcat builds the concatenation of two strings in a buffer that has room
    for it, strlen then returns the sum of the lengths, strcat returns the address behind the NUL
    (not its destination), and no byte outside the buffer changes. *)
Theorem string_build m d p1 p2 s1 s2 (H1 : cstr m p1 s1) (H2 : cstr m p2 s2)
    (Hp1 : p1 ≠ 0) (Hp2 : p2 ≠ 0) (Hd : d ≠ 0)
    (Hr : room m d (length s1 + length s2 + 1)) (Hl : Z.of_nat (length s1 + length s2) < 2 ^ 32)
    (Ho1 : p1 + Z.of_nat (length s1) < d ∨ d + Z.of_nat (length s1 + length s2) < p1)
    (Ho2 : p2 + Z.of_nat (length s2) < d ∨ d + Z.of_nat (length s1 + length s2) < p2) :
  ∃ m1 m2, strcpy d p1 m = Done (d, m1) ∧
    strcat d p2 m1 = Done (d + Z.of_nat (length s1 + length s2) + 1, m2) ∧
    cstr m2 d (s1 ++ s2) ∧ strlen m2 d = Done (Z.of_nat (length s1 + length s2)) ∧
    ∀ i, ¬ d <= i <= d + Z.of_nat (length s1 + length s2) → m2 !! i = m !! i.
Proof.
  destruct (strcpy_spec m d p1 s1) as (m1 & Hc & Hw); try done.
  { intros i Hi. apply Hr. lia. }
  { lia. }
  destruct (strcat_spec m1 d p2 s1 s2) as (m2 & Hc2 & Hs & Hf); try done.
  { split; [by apply (written_bytes m)|apply H1]. }
  { eapply cstr_written; [exact Hw|done|]. rewrite length_app. simpl. lia. }
  { eapply room_ext; [apply Hw|]. intros i Hi. apply Hr. lia. }
  { lia. }
  exists m1, m2. split; [done|]. split; [done|]. split; [done|]. split.
  - rewrite (strlen_spec m2 d (s1 ++ s2)) by (rewrite ?length_app; done). by rewrite length_app.
  - intros i Hi. rewrite Hf by lia. apply Hw. rewrite length_app. simpl. lia.
Qed.

Lemma string_build_witness :
  let m := mem_of 100 [65; 66; 0; 65; 200; 0; 9; 9; 9; 9; 9] in
  ∃ m1 m2, strcpy 106 100 m = Done (106, m1) ∧
    strcat 106 103 m1 = Done (106 + Z.of_nat 4 + 1, m2) ∧
    cstr m2 106 [65; 66; 65; 200] ∧ strlen m2 106 = Done (Z.of_nat 4) ∧
    ∀ i, ¬ 106 <= i <= 106 + Z.of_nat 4 → m2 !! i = m !! i.
Proof.
  refine (string_build _ 106 100 103 [65; 66] [65; 200] _ _ _ _ _ _ _ _ _); try discriminate.
  - split; [|repeat constructor; lia]. intros i b Hi.
    destruct i as [|[|[|]]]; simpl in Hi; simplify_eq; vm_compute; reflexivity.
  - split; [|repeat constructor; lia]. intros i b Hi.
    destruct i as [|[|[|]]]; simpl in Hi; simplify_eq; vm_compute; reflexivity.
  - intros i Hi. simpl in Hi. assert (i = 106 ∨ i = 107 ∨ i = 108 ∨ i = 109 ∨ i = 110) as Hc by lia.
    destruct_or! Hc; subst i; vm_compute; eauto.
  - reflexivity.
  - left. reflexivity.
  - left. reflexivity.
Defined.
