(* ===== verification/Vsprintf.v ===== *)
(** * Formatted output ([lib/vsprintf.c])

    The characters a call stores lie one behind the other from [str] on; they are
    modelled as the list of what is stored, and the value of [str] as its length.  The
    format and the string arguments are read from memory.  A [va_list] is the list of
    the 32-bit words on the stack; a [long long] takes two of them. *)

From S2P Require Import Prelude CString.

(** ** Flags *)

Definition SIGN := 1.
Definition LEFT := 2.
Definition SPACE := 4.
Definition ZEROPAD := 8.
Definition SPECIAL := 16.
Definition SMALL := 32.
Definition PLUS := 64.
Definition flag_set (flags f : Z) : bool := negb (Z.land flags f =? 0).

(** ** number *)

(** The table [digits] and the macro [do_div], which works on [unsigned long]. *)
Definition digits : list Z := [48; 49; 50; 51; 52; 53; 54; 55; 56; 57; 65; 66; 67; 68; 69; 70].
Definition do_div (n base : Z) : Z * Z := (u32 n mod base, u32 n / base).
Definition digit_char (locase d : Z) : outcome Z := c ← deref (nthZ digits d); Done (Z.lor c locase).

(** The two loops that fill [tmp], of which [room] elements are left. *)
Fixpoint put_pow2 (room : nat) (num shift mask locase : Z) : outcome (list Z) :=
  match room with
  | O => Fail BadPtr
  | S room =>
      c ← digit_char locase (Z.land (u8 num) mask);
      let num := Z.shiftr num shift in
      if num =? 0 then Done [c] else cs ← put_pow2 room num shift mask locase; Done (c :: cs)
  end.
Fixpoint put_dec (room : nat) (num base locase : Z) : outcome (list Z) :=
  match room with
  | O => Fail BadPtr
  | S room =>
      let '(res, num) := do_div num base in
      c ← digit_char locase res;
      if num =? 0 then Done [c] else cs ← put_dec room num base locase; Done (c :: cs)
  end.

(** [while (--w >= 0)]: the number of turns and the value left in [w]. *)
Definition predec_loop (w : Z) : nat * Z :=
  let w := s32 (w - 1) in if 0 <=? w then (Z.to_nat (w + 1), -1) else (O, w).

(** The first part: the sign, and the value and width that are left. *)
Definition number_sign (num flags width : Z) : list Z * Z * Z :=
  if flag_set flags SIGN then
    if s64 num <? 0 then ([45], u64 (- s64 num), s32 (width - 1))
    else if flag_set flags PLUS then ([43], num, s32 (width - 1))
    else if flag_set flags SPACE then ([32], num, s32 (width - 1))
    else ([], num, width)
  else ([], num, width).

Definition number_tmp (num base locase : Z) : outcome (list Z) :=
  if num =? 0 then Done [48] else
  if negb (base =? 10) then
    put_pow2 66 num (if base =? 16 then 4 else 3) (base - 1) locase
  else put_dec 66 num base locase.

Definition number (num flags base width precision : Z) : outcome (list Z) :=
  let locase := Z.land flags SMALL in
  let need_pfx := flag_set flags SPECIAL && negb (base =? 10) in
  let flags := if flag_set flags LEFT then Z.ldiff flags ZEROPAD else flags in
  let '(sign, num, width) := number_sign num flags width in
  let width := if need_pfx then s32 (width - (if base =? 16 then 2 else 1)) else width in
  tmp ← number_tmp num base locase;
  let i := Z.of_nat (length tmp) in
  let precision := if precision <? i then i else precision in
  let width := s32 (width - precision) in
  let '(n, width) := if negb (flag_set flags (ZEROPAD + LEFT)) then predec_loop width else (O, width) in
  let lead := replicate n 32 in
  let pfx := if need_pfx then 48 :: (if base =? 16 then [Z.lor 88 locase] else []) else [] in
  let '(n, width) := if negb (flag_set flags LEFT) then predec_loop width else (O, width) in
  let pad := replicate n (if flag_set flags ZEROPAD then 48 else 32) in
  let zeros := replicate (Z.to_nat (precision - i)) 48 in
  (* [while (width >= 0)]: nothing in the loop changes [width] *)
  if 0 <=? width then Fail Diverge else
  Done (lead ++ sign ++ pfx ++ pad ++ zeros ++ reverse tmp).

(** ** vsnprintf *)

Notation words := (list Z).
Definition va_word (ap : words) : outcome (Z * words) :=
  match ap with w :: ap => Done (w, ap) | [] => Fail BadPtr end.
Definition va_long_long (ap : words) : outcome (Z * words) :=
  '(lo, ap) ← va_word ap; '(hi, ap) ← va_word ap; Done (s64 (lo + hi * 2 ^ 32), ap).

(** The locals of the conversion; [width] lives on from one to the next. *)
Record conv := mk_conv { flag : Z; width : Z; precesion : Z; dot : bool; qualifier : Z }.
Definition with_flag (f : Z) (c : conv) : conv :=
  mk_conv (Z.lor (flag c) f) (width c) (precesion c) (dot c) (qualifier c).
Definition with_width (w : Z) (c : conv) : conv :=
  mk_conv (flag c) w (precesion c) (dot c) (qualifier c).
Definition with_number (n : Z) (c : conv) : conv :=
  if dot c then mk_conv (flag c) (width c) n true (qualifier c)
  else mk_conv (flag c) n (precesion c) false (qualifier c).
Definition with_dot (c : conv) : conv := mk_conv (flag c) (width c) (precesion c) true (qualifier c).
Definition with_qual (q : Z) (c : conv) : conv :=
  mk_conv (flag c) (width c) (precesion c) (dot c) q.

(** Character constants. *)
Definition ch_L := 76.
Definition ch_H := 72.
Definition ch_l := 108.
Definition ch_h := 104.
Definition ch_z := 122.
Definition ch_t := 116.

(** The number of a format: [ch] is its first digit, [fmt] is behind it. *)
Fixpoint scan_number (fuel : nat) (m : bmem) (fmt ch n : Z) : outcome (Z * Z) :=
  match fuel with
  | O => Fail Diverge
  | S fuel =>
      let n := s32 (n * 10 + ch - 48) in
      ch ← ld m fmt;
      if (ch <? 48) || (57 <? ch) then Done (n, fmt) else scan_number fuel m (fmt + 1) ch n
  end.

(** [handle_nosign] and [handle_sign]: the argument as the qualifier types it. *)
Definition arg_nosign (q : Z) (ap : words) : outcome (Z * words) :=
  if q =? ch_L then va_long_long ap else
  '(w, ap) ← va_word ap;
  Done (if q =? ch_h then u16 w else if q =? ch_H then u8 w else if q =? ch_t then s32 w else w, ap).
Definition arg_sign (q : Z) (ap : words) : outcome (Z * words) :=
  if q =? ch_L then va_long_long ap else
  '(w, ap) ← va_word ap;
  Done (if q =? ch_h then s16 w else if q =? ch_H then s8 w else s32 w, ap).

(** [for (n = 0; n < precesion && s[n]; n++)]. *)
Fixpoint bounded_len (fuel : nat) (m : bmem) (s n precesion : Z) : outcome Z :=
  match fuel with
  | O => Fail Diverge
  | S fuel =>
      if n <? precesion then
        c ← ld m (s + n); if c =? 0 then Done n else bounded_len fuel m s (n + 1) precesion
      else Done n
  end.

(** The state of [vsnprintf]: where it reads, the arguments, the room counted down
    in [len], what it has stored, and the locals of the conversion. *)
Record vstate := mk_vstate { vfmt : Z; vap : words; vlen : Z; vout : list Z; vconv : conv }.

(** The string case. *)
Definition null_str : list Z := [40; 110; 117; 108; 108; 41].
Definition conv_string (m : bmem) (c : conv) (fmt : Z) (ap : words) (len : Z) (out : list Z) : outcome vstate :=
  '(s, ap) ← va_word ap;
  n ← (if s =? 0 then Done (if dot c then (if precesion c <? 6 then Z.max (precesion c) 0 else 6) else 6) else
       if dot c then bounded_len (mfuel m) m s 0 (precesion c) else n ← strlen m s; Done (s32 n));
  cs ← (if s =? 0 then Done (take (Z.to_nat n) null_str) else ldn (Z.to_nat n) m s);
  let w := s32 (width c - n) in
  let pad := 0 <? w in
  let lead := if negb (flag_set (flag c) LEFT) && pad then replicate (Z.to_nat w) 32 else [] in
  let w1 := if negb (flag_set (flag c) LEFT) && pad then -1 else w in
  let trail := if flag_set (flag c) LEFT && (0 <? w1) then replicate (Z.to_nat w1) 32 else [] in
  let w2 := if flag_set (flag c) LEFT && (0 <? w1) then -1 else w1 in
  Done (mk_vstate fmt ap (u32 (len - Z.max n 0)) (out ++ lead ++ cs ++ trail) (with_width w2 c)).

(** [while (--w > 0)]. *)
Definition predec_pos_loop (w : Z) : nat * Z :=
  let w := s32 (w - 1) in if 0 <? w then (Z.to_nat w, 0) else (O, w).
Definition conv_char (c : conv) (fmt : Z) (ap : words) (len : Z) (out : list Z) : outcome vstate :=
  let '(n, w) := if negb (flag_set (flag c) LEFT) then predec_pos_loop (width c) else (O, width c) in
  '(v, ap) ← va_word ap;
  let '(n', w) := predec_pos_loop w in
  Done (mk_vstate fmt ap (u32 (len - 1)) (out ++ replicate n 32 ++ [u8 v] ++ replicate n' 32) (with_width w c)).

Definition conv_number (v base : Z) (c : conv) (fmt : Z) (ap : words) (len : Z) (out : list Z) : outcome vstate :=
  ds ← number (u64 v) (flag c) base (width c) (precesion c);
  Done (mk_vstate fmt ap len (out ++ ds) c).

(** From [reswitch:] to the end of the switch; [fmt] points behind the percent sign
    or the last character looked at. *)
Fixpoint reswitch (fuel : nat) (m : bmem) (c : conv) (fmt : Z) (ap : words) (len : Z) (out : list Z)
    : outcome vstate :=
  match fuel with
  | O => Fail Diverge
  | S fuel =>
      ch ← ld m fmt;
      let fmt := fmt + 1 in
      let again c fmt := reswitch fuel m c fmt ap len out in
      let unsigned base c := '(v, ap) ← arg_nosign (qualifier c) ap; conv_number v base c fmt ap len out in
      if ch =? 35 then again (with_flag SPECIAL c) fmt
      else if ch =? 43 then again (with_flag PLUS c) fmt
      else if ch =? 45 then again (with_flag LEFT c) fmt
      else if ch =? 32 then again (with_flag SPACE c) fmt
      else if ch =? 48 then again (with_flag ZEROPAD c) fmt
      else if ch =? 37 then Done (mk_vstate fmt ap (u32 (len - 1)) (out ++ [37]) c)
      else if (49 <=? ch) && (ch <=? 57) then
        '(n, fmt) ← scan_number (mfuel m) m fmt ch 0; again (with_number n c) fmt
      else if ch =? 42 then
        '(v, ap) ← va_word ap; Done (mk_vstate fmt ap (u32 (len - 1)) out (with_number (s32 v) c))
      else if ch =? 46 then again (with_dot c) fmt
      else if ch =? 99 then conv_char c fmt ap len out
      else if ch =? 115 then conv_string m c fmt ap len out
      else if (ch =? 105) || (ch =? 100) then
        let c := with_flag SIGN c in
        '(v, ap) ← arg_sign (qualifier c) ap; conv_number v 10 c fmt ap len out
      else if ch =? ch_L then again (with_qual ch_L c) fmt
      else if ch =? ch_H then again (with_qual ch_H c) fmt
      else if ch =? ch_l then again (with_qual (if qualifier c =? ch_l then ch_L else ch_l) c) fmt
      else if (ch =? ch_z) || (ch =? 90) then again (with_qual ch_z c) fmt
      else if ch =? ch_h then again (with_qual (if qualifier c =? ch_h then ch_H else ch_h) c) fmt
      else if ch =? ch_t then again (with_qual ch_t c) fmt
      else if ch =? 112 then '(v, ap) ← va_word ap; conv_number v 16 c fmt ap len out
      else if ch =? 111 then unsigned 8 c
      else if ch =? 117 then unsigned 10 c
      else if ch =? 120 then unsigned 16 (with_flag SMALL c)
      else if ch =? 88 then unsigned 16 c
      else Done (mk_vstate fmt ap len out c)
  end.

(** The main loop: [while ( *fmt && len)]. *)
Fixpoint vsnprintf_loop (fuel : nat) (m : bmem) (s : vstate) : outcome (list Z) :=
  match fuel with
  | O => Fail Diverge
  | S fuel =>
      ch ← ld m (vfmt s);
      if (ch =? 0) || (vlen s =? 0) then Done (vout s) else
      if negb (ch =? 37) then
        vsnprintf_loop fuel m (mk_vstate (vfmt s + 1) (vap s) (u32 (vlen s - 1)) (vout s ++ [ch]) (vconv s))
      else
        s ← reswitch (mfuel m) m (mk_conv 0 (width (vconv s)) 0 false 0) (vfmt s + 1) (vap s) (vlen s) (vout s);
        vsnprintf_loop fuel m s
  end.

(** The stored characters with the NUL, and the value returned. *)
Definition vsnprintf (m : bmem) (size fmt : Z) (ap : words) : outcome (list Z * Z) :=
  out ← vsnprintf_loop (mfuel m) m (mk_vstate fmt ap size [] (mk_conv 0 0 0 false 0));
  Done (out ++ [0], Z.of_nat (length out)).
Definition snprintf := vsnprintf.
Definition sprintf (m : bmem) (fmt : Z) (ap : words) : outcome (list Z * Z) := vsnprintf m (2 ^ 32 - 1) fmt ap.

(** ** Digits: the reference *)

(** The digits of [n], the lowest first, and back. *)
Fixpoint to_digits (fuel : nat) (base n : Z) : list Z :=
  match fuel with
  | O => []
  | S fuel => if n / base =? 0 then [n mod base] else n mod base :: to_digits fuel base (n / base)
  end.
Definition of_digits (base : Z) (ds : list Z) : Z := foldr (λ d acc, d + base * acc) 0 ds.
Definition digit_of (locase d : Z) : Z := Z.lor (if d <? 10 then 48 + d else 55 + d) locase.

Lemma to_digits_value fuel base n : 1 < base → 0 <= n < base ^ Z.of_nat fuel →
  of_digits base (to_digits fuel base n) = n.
Proof.
  intros Hb. revert n. induction fuel as [|fuel IH]; intros n Hn; cbn [to_digits].
  - simpl in *. lia.
  - rewrite Nat2Z.inj_succ, Z.pow_succ_r in Hn by lia.
    pose proof (Z.div_mod n base ltac:(lia)). destruct (Z.eqb_spec (n / base) 0) as [Hz|Hz].
    + simpl. lia.
    + cbn [of_digits foldr]. fold (of_digits base (to_digits fuel base (n / base))). rewrite IH; [lia|].
      split; [apply Z.div_pos; lia|apply Z.div_lt_upper_bound; lia].
Qed.

Lemma to_digits_range fuel base n : 0 < base → Forall (λ d, 0 <= d < base) (to_digits fuel base n).
Proof.
  intros Hb. revert n. induction fuel as [|fuel IH]; intros n; cbn [to_digits]; [constructor|].
  pose proof (Z.mod_pos_bound n base Hb). destruct (n / base =? 0); repeat constructor; try lia. apply IH.
Qed.

(** Enough fuel: more makes no difference. *)
Lemma to_digits_fuel f1 f2 base n : 1 < base → 0 <= n < base ^ Z.of_nat f1 → (f1 <= f2)%nat → (1 <= f1)%nat →
  to_digits f2 base n = to_digits f1 base n.
Proof.
  intros Hb. revert n f2. induction f1 as [|f1 IH]; intros n [|f2] Hn Hle H1; try lia. cbn [to_digits].
  destruct (Z.eqb_spec (n / base) 0) as [Hz|Hz]; [done|]. f_equal.
  rewrite Nat2Z.inj_succ, Z.pow_succ_r in Hn by lia.
  assert (0 <= n / base < base ^ Z.of_nat f1) by (split; [apply Z.div_pos; lia|apply Z.div_lt_upper_bound; lia]).
  destruct f1 as [|f1]; [simpl in *; lia|]. apply IH; lia.
Qed.

Lemma digit_char_spec locase d : 0 <= d < 16 → digit_char locase d = Done (digit_of locase d).
Proof.
  intros Hd. unfold digit_char, digit_of.
  assert (nthZ digits d = Some (if d <? 10 then 48 + d else 55 + d)) as ->; [|done].
  assert (d = 0 ∨ d = 1 ∨ d = 2 ∨ d = 3 ∨ d = 4 ∨ d = 5 ∨ d = 6 ∨ d = 7 ∨ d = 8 ∨ d = 9 ∨ d = 10 ∨
    d = 11 ∨ d = 12 ∨ d = 13 ∨ d = 14 ∨ d = 15) as Hc by lia.
  destruct_or! Hc; subst d; reflexivity.
Qed.

Lemma put_pow2_spec k room num locase : 1 <= k <= 4 → 0 <= num < (2 ^ k) ^ Z.of_nat room → (1 <= room)%nat →
  put_pow2 room num k (2 ^ k - 1) locase = Done (digit_of locase <$> to_digits room (2 ^ k) num).
Proof.
  intros Hk. revert num. induction room as [|room IH]; intros num Hn H1; [lia|]. cbn [put_pow2 to_digits].
  assert (2 ^ 1 <= 2 ^ k <= 2 ^ 4) as Hp by (split; apply Z.pow_le_mono_r; lia).
  change (2 ^ 1) with 2 in Hp. change (2 ^ 4) with 16 in Hp.
  assert (Z.land (u8 num) (2 ^ k - 1) = num mod 2 ^ k) as ->.
  { replace (2 ^ k - 1) with (Z.ones k) by (rewrite Z.ones_equiv; lia). rewrite Z.land_ones by lia. unfold u8. rewrite <- Znumtheory.Zmod_div_mod; try lia.
    exists (2 ^ (8 - k)). rewrite <- Z.pow_add_r by lia. f_equal. lia. }
  pose proof (Z.mod_pos_bound num (2 ^ k) ltac:(lia)).
  rewrite digit_char_spec by lia. rewrite bind_done, Z.shiftr_div_pow2 by lia.
  rewrite Nat2Z.inj_succ, Z.pow_succ_r in Hn by lia.
  assert (0 <= num / 2 ^ k < (2 ^ k) ^ Z.of_nat room)
    by (split; [apply Z.div_pos; lia|apply Z.div_lt_upper_bound; lia]).
  destruct (Z.eqb_spec (num / 2 ^ k) 0) as [Hz|Hz]; [done|].
  destruct room as [|room]; [simpl in *; lia|]. by rewrite IH by lia.
Qed.

Lemma put_dec_spec room num locase : 0 <= num < 2 ^ 32 → num < 10 ^ Z.of_nat room → (1 <= room)%nat →
  put_dec room num 10 locase = Done (digit_of locase <$> to_digits room 10 num).
Proof.
  revert num. induction room as [|room IH]; intros num Hn Hr H1; [lia|]. cbn [put_dec to_digits do_div].
  rewrite u32_small by lia. pose proof (Z.mod_pos_bound num 10 ltac:(lia)).
  rewrite digit_char_spec by lia. rewrite bind_done.
  rewrite Nat2Z.inj_succ, Z.pow_succ_r in Hr by lia.
  assert (0 <= num / 10 < 10 ^ Z.of_nat room)
    by (split; [apply Z.div_pos; lia|apply Z.div_lt_upper_bound; lia]).
  assert (num / 10 <= num) by (apply Z.div_le_upper_bound; lia).
  destruct (Z.eqb_spec (num / 10) 0) as [Hz|Hz]; [done|].
  destruct room as [|room]; [simpl in *; lia|]. by rewrite IH by lia.
Qed.

Lemma locase_cases flags : Z.land flags SMALL = 0 ∨ Z.land flags SMALL = 32.
Proof.
  assert (Z.land flags SMALL = if Z.testbit flags 5 then 32 else 0) as ->; [|by destruct (Z.testbit flags 5); auto].
  apply Z.bits_inj'. intros n Hn. rewrite Z.land_spec. change SMALL with (2 ^ 5). rewrite Z.pow2_bits_eqb by lia.
  destruct (Z.eqb_spec 5 n) as [<-|Hne].
  - rewrite andb_true_r. destruct (Z.testbit flags 5); done.
  - rewrite andb_false_r. destruct (Z.testbit flags 5); [|by rewrite Z.bits_0].
    change 32 with (2 ^ 5). rewrite Z.pow2_bits_eqb by lia. by rewrite (proj2 (Z.eqb_neq 5 n)).
Qed.

(** The digits of a number; the 66 elements of [tmp] are enough for 64 bits. *)
Definition the_digits (base n : Z) : list Z := to_digits 66 base n.

Definition base_ok (base num : Z) : Prop :=
  (base = 8 ∨ base = 16) ∧ 0 <= num < 2 ^ 64 ∨ base = 10 ∧ 0 <= num < 2 ^ 32.

Lemma number_tmp_spec num base flags : base_ok base num →
  number_tmp num base (Z.land flags SMALL) = Done (digit_of (Z.land flags SMALL) <$> the_digits base num).
Proof.
  intros Hok. unfold number_tmp, the_digits. destruct (Z.eqb_spec num 0) as [->|Hn].
  - destruct (locase_cases flags) as [-> | ->], Hok as [([-> | ->] & _)|[-> _]]; reflexivity.
  - destruct Hok as [([-> | ->] & Hn')|[-> Hn']]; cbn [Z.eqb Pos.eqb negb].
    + apply (put_pow2_spec 3); lia.
    + apply (put_pow2_spec 4); lia.
    + apply put_dec_spec; lia.
Qed.

(** ** number, specified *)

(** The sign character of a number, and its magnitude. *)
Definition spec_sign (num flags : Z) : list Z :=
  if flag_set flags SIGN then
    if s64 num <? 0 then [45] else if flag_set flags PLUS then [43] else if flag_set flags SPACE then [32] else []
  else [].
Definition spec_mag (num flags : Z) : Z := if flag_set flags SIGN then Z.abs (s64 num) else num.
Definition spec_prefix (flags base : Z) : list Z :=
  if flag_set flags SPECIAL && negb (base =? 10) then
    48 :: (if base =? 16 then [Z.lor 88 (Z.land flags SMALL)] else []) else [].
(** The digits, with leading zeros up to the precision. *)
Definition spec_digits (num flags base precision : Z) : list Z :=
  let ds := digit_of (Z.land flags SMALL) <$> reverse (the_digits base (spec_mag num flags)) in
  replicate (Z.to_nat precision - length ds) 48 ++ ds.
Definition spec_body (num flags base precision : Z) : list Z :=
  spec_sign num flags ++ spec_prefix flags base ++ spec_digits num flags base precision.

Lemma number_sign_spec num flags width : 0 <= num < 2 ^ 64 → - 2 ^ 30 <= width <= 2 ^ 30 →
  number_sign num flags width = (spec_sign num flags, spec_mag num flags, width - Z.of_nat (length (spec_sign num flags))).
Proof.
  intros Hn Hw. unfold number_sign, spec_sign, spec_mag.
  destruct (flag_set flags SIGN) eqn:Es; [|simpl; by rewrite Z.sub_0_r].
  assert (num = s64 num ∨ num = s64 num + 2 ^ 64) as Hs.
  { unfold s64. pose proof (Z.div_mod (num + 2 ^ 63) (2 ^ 64) ltac:(lia)).
    pose proof (Z.mod_pos_bound (num + 2 ^ 63) (2 ^ 64) ltac:(lia)).
    set (q := (num + 2 ^ 63) / 2 ^ 64) in *. assert (q = 0 ∨ q = 1) by lia. lia. }
  assert (- 2 ^ 63 <= s64 num < 2 ^ 63).
  { unfold s64. pose proof (Z.mod_pos_bound (num + 2 ^ 63) (2 ^ 64) ltac:(lia)). lia. }
  destruct (Z.ltb_spec (s64 num) 0).
  - rewrite u64_small, s32_small by lia. f_equal. f_equal. lia.
  - assert (num = Z.abs (s64 num)) as <- by lia.
    destruct (flag_set flags PLUS); [|destruct (flag_set flags SPACE)]; simpl; rewrite ?s32_small by lia;
      by rewrite ?Z.sub_0_r.
Qed.

Lemma predec_loop_spec w : - 2 ^ 31 < w < 2 ^ 31 →
  predec_loop w = (Z.to_nat w, if 0 <? w then -1 else w - 1).
Proof.
  intros Hw. unfold predec_loop. rewrite s32_small by lia.
  destruct (Z.leb_spec 0 (w - 1)), (Z.ltb_spec 0 w); try lia.
  - by replace (w - 1 + 1) with w by lia.
  - f_equal. lia.
Qed.

Lemma to_digits_length f base n : (1 <= f → 1 <= length (to_digits f base n) <= f)%nat.
Proof.
  revert n. induction f as [|f IH]; intros n Hf; [lia|]. cbn [to_digits].
  destruct (n / base =? 0); cbn [length]; [lia|]. destruct f as [|f]; [simpl; lia|].
  specialize (IH (n / base)). lia.
Qed.

Lemma flag_set_bit flags k : 0 <= k → flag_set flags (2 ^ k) = Z.testbit flags k.
Proof. apply land_pow2_testbit. Qed.

Lemma flag_set_two flags : flag_set flags (ZEROPAD + LEFT) = flag_set flags ZEROPAD || flag_set flags LEFT.
Proof.
  change ZEROPAD with (2 ^ 3). change LEFT with (2 ^ 1). rewrite !flag_set_bit by lia. unfold flag_set.
  change (2 ^ 3 + 2 ^ 1) with (Z.lor (2 ^ 3) (2 ^ 1)). rewrite Z.land_lor_distr_r.
  pose proof (flag_set_bit flags 3 ltac:(lia)) as H3. pose proof (flag_set_bit flags 1 ltac:(lia)) as H1.
  unfold flag_set in H3, H1. rewrite <- H3, <- H1.
  destruct (Z.eqb_spec (Z.lor (Z.land flags (2 ^ 3)) (Z.land flags (2 ^ 1))) 0) as [Hz|Hz].
  - apply Z.lor_eq_0_iff in Hz as [-> ->]. done.
  - destruct (Z.eqb_spec (Z.land flags (2 ^ 3)) 0) as [E3|]; [|done].
    destruct (Z.eqb_spec (Z.land flags (2 ^ 1)) 0) as [E1|]; [|done]. by rewrite E3, E1 in Hz.
Qed.

(** Taking ZEROPAD away leaves the other flags. *)
Lemma flag_set_nozero flags k : 0 <= k → k ≠ 3 → flag_set (Z.ldiff flags ZEROPAD) (2 ^ k) = flag_set flags (2 ^ k).
Proof.
  intros Hk H3. rewrite !flag_set_bit by done. rewrite Z.ldiff_spec. change ZEROPAD with (2 ^ 3).
  rewrite Z.pow2_bits_eqb by lia. rewrite (proj2 (Z.eqb_neq 3 k)) by lia. by rewrite andb_true_r.
Qed.

Lemma number_sign_nozero num flags width :
  number_sign num (Z.ldiff flags ZEROPAD) width = number_sign num flags width.
Proof.
  unfold number_sign. change SIGN with (2 ^ 0). change PLUS with (2 ^ 6). change SPACE with (2 ^ 2).
  by rewrite !flag_set_nozero by lia.
Qed.

Lemma flag_left_nozero flags : flag_set (Z.ldiff flags ZEROPAD) LEFT = flag_set flags LEFT.
Proof. change LEFT with (2 ^ 1). apply flag_set_nozero; lia. Qed.

Lemma spec_prefix_length flags base :
  Z.of_nat (length (spec_prefix flags base)) =
    if flag_set flags SPECIAL && negb (base =? 10) then (if base =? 16 then 2 else 1) else 0.
Proof. unfold spec_prefix. by destruct (flag_set flags SPECIAL && negb (base =? 10)), (base =? 16). Qed.

Lemma spec_digits_length num flags base precision :
  Z.of_nat (length (spec_digits num flags base precision)) =
    Z.max precision (Z.of_nat (length (the_digits base (spec_mag num flags)))).
Proof. unfold spec_digits. rewrite length_app, length_replicate, length_fmap, length_reverse. lia. Qed.

Lemma spec_sign_length num flags : Z.of_nat (length (spec_sign num flags)) <= 1.
Proof.
  unfold spec_sign. destruct (flag_set flags SIGN); [|simpl; lia]. destruct (s64 num <? 0); [simpl; lia|].
  destruct (flag_set flags PLUS); [simpl; lia|]. destruct (flag_set flags SPACE); simpl; lia.
Qed.

(** What [number] stores: a field of at least [width] characters.  With LEFT and room
    left over the last loop never ends. *)
Lemma number_spec num flags base width precision :
  0 <= num < 2 ^ 64 → base_ok base (spec_mag num flags) →
  - 2 ^ 29 < width <= 2 ^ 29 → - 2 ^ 29 <= precision <= 2 ^ 29 →
  let w := width - Z.of_nat (length (spec_body num flags base precision)) in
  number num flags base width precision =
    if flag_set flags LEFT then
      if 0 <=? w then Fail Diverge else Done (spec_body num flags base precision)
    else if flag_set flags ZEROPAD then
      Done (spec_sign num flags ++ spec_prefix flags base ++ replicate (Z.to_nat w) 48 ++
            spec_digits num flags base precision)
    else Done (replicate (Z.to_nat w) 32 ++ spec_body num flags base precision).
Proof.
  intros Hn Hb Hw Hp w. unfold number.
  assert (Hf : ∀ k : Z, number_sign num (if flag_set flags LEFT then Z.ldiff flags ZEROPAD else flags) k = number_sign num flags k)
    by (intros k; destruct (flag_set flags LEFT); [apply number_sign_nozero|done]).
  rewrite Hf, number_sign_spec by lia. rewrite number_tmp_spec by done. rewrite bind_done.
  pose proof (spec_sign_length num flags). pose proof (spec_prefix_length flags base) as Hpl.
  pose proof (to_digits_length 66 base (spec_mag num flags) ltac:(lia)) as Hdl. fold (the_digits base (spec_mag num flags)) in Hdl.
  pose proof (spec_digits_length num flags base precision) as Hsl.
  unfold w, spec_body. rewrite !length_app, !Nat2Z.inj_add. rewrite length_fmap.
  assert (Hz : replicate (Z.to_nat ((if precision <? Z.of_nat (length (the_digits base (spec_mag num flags)))
      then Z.of_nat (length (the_digits base (spec_mag num flags))) else precision)
      - Z.of_nat (length (the_digits base (spec_mag num flags))))) 48 ++
      reverse (digit_of (Z.land flags SMALL) <$> the_digits base (spec_mag num flags)) = spec_digits num flags base precision).
  { unfold spec_digits. rewrite fmap_reverse, length_reverse, length_fmap. f_equal. f_equal.
    destruct (Z.ltb_spec precision (Z.of_nat (length (the_digits base (spec_mag num flags))))); lia. }
  rewrite Hz. clear Hz Hf w. set (D := length (the_digits base (spec_mag num flags))) in *.
  fold (spec_prefix flags base).
  set (w0 := width - Z.of_nat (length (spec_sign num flags))).
  assert (Hwid : s32 ((if flag_set flags SPECIAL && negb (base =? 10)
      then s32 (w0 - (if base =? 16 then 2 else 1)) else w0) - (if precision <? Z.of_nat D then Z.of_nat D else precision)) =
      w0 - Z.of_nat (length (spec_prefix flags base)) - Z.of_nat (length (spec_digits num flags base precision))).
  { rewrite Hpl, Hsl. unfold w0.
    destruct (flag_set flags SPECIAL && negb (base =? 10)), (base =? 16), (Z.ltb_spec precision (Z.of_nat D));
      rewrite ?(s32_small (width - Z.of_nat (length (spec_sign num flags)) - 2)),
        ?(s32_small (width - Z.of_nat (length (spec_sign num flags)) - 1)), s32_small by lia; lia. }
  rewrite Hwid. 
  assert (- 2 ^ 31 + 10 < w0 - Z.of_nat (length (spec_prefix flags base)) - Z.of_nat (length (spec_digits num flags base precision)) < 2 ^ 31).
  { rewrite Hpl, Hsl. unfold w0. destruct (flag_set flags SPECIAL && negb (base =? 10)), (base =? 16); lia. }
  replace (width - (Z.of_nat (length (spec_sign num flags)) + (Z.of_nat (length (spec_prefix flags base)) +
    Z.of_nat (length (spec_digits num flags base precision))))) with
    (w0 - Z.of_nat (length (spec_prefix flags base)) - Z.of_nat (length (spec_digits num flags base precision)))
    by (unfold w0; lia).
  set (w := w0 - _ - _) in *. clear Hwid. 
  destruct (flag_set flags LEFT) eqn:El.
  - rewrite flag_left_nozero, flag_set_two, flag_left_nozero, El, orb_true_r. cbn [negb].
    by destruct (0 <=? w).
  - rewrite flag_set_two, El, orb_false_r. destruct (flag_set flags ZEROPAD); cbn [negb].
    + rewrite predec_loop_spec by lia. rewrite (proj2 (Z.leb_gt 0 _)) by (destruct (Z.ltb_spec 0 w); lia). done.
    + rewrite predec_loop_spec by lia. rewrite predec_loop_spec by (destruct (Z.ltb_spec 0 w); lia).
      rewrite (proj2 (Z.leb_gt 0 _)) by (destruct (Z.ltb_spec 0 w); [done|]; destruct (Z.ltb_spec 0 (w - 1)); lia).
      replace (Z.to_nat (if 0 <? w then -1 else w - 1)) with 0%nat by (destruct (Z.ltb_spec 0 w); lia). done.
Qed.

(** ** vsnprintf on plain conversions

    A format made of literal text and conversions without flags, and the words its
    conversions take from the stack. *)

Inductive seg : Set :=
| Lit (l : list Z)
| Dec (w : Z)
| Uns (w : Z)
| Hex (w : Z)
| Chr (w : Z)
| Str (p : Z) (s : list Z).

Definition seg_fmt (g : seg) : list Z :=
  match g with
  | Lit l => l | Dec _ => [37; 100] | Uns _ => [37; 117] | Hex _ => [37; 120] | Chr _ => [37; 99] | Str _ _ => [37; 115]
  end.
Definition seg_args (g : seg) : words :=
  match g with Lit _ => [] | Dec w | Uns w | Hex w | Chr w => [w] | Str p _ => [p] end.
Definition decimal (n : Z) : list Z := digit_of 0 <$> reverse (the_digits 10 n).
Definition hexadecimal (n : Z) : list Z := digit_of 32 <$> reverse (the_digits 16 n).
Definition seg_out (g : seg) : list Z :=
  match g with
  | Lit l => l
  | Dec w => (if s32 w <? 0 then [45] else []) ++ decimal (Z.abs (s32 w))
  | Uns w => decimal w
  | Hex w => hexadecimal w
  | Chr w => [u8 w]
  | Str _ s => s
  end.
Definition seg_ok (m : bmem) (g : seg) : Prop :=
  match g with
  | Lit l => Forall (λ b, 0 < b < 256 ∧ b ≠ 37) l
  | Dec w | Uns w | Hex w | Chr w => 0 <= w < 2 ^ 32
  | Str p s => p ≠ 0 ∧ cstr m p s
  end.

(** A field width of the state that pads nothing. *)
Definition no_pad (w bound : Z) : Prop := - bound <= w <= 0.

Lemma spec_body_plain num flags base precision :
  flag_set flags SIGN = false → flag_set flags SPECIAL = false → precision = 0 → 
  spec_body num flags base precision = digit_of (Z.land flags SMALL) <$> reverse (the_digits base num).
Proof.
  intros Hs Hp ->. unfold spec_body, spec_sign, spec_prefix, spec_digits, spec_mag. rewrite Hs, Hp. cbn [app andb].
  by rewrite length_fmap, length_reverse.
Qed.

Lemma conv_number_plain v base flags w q fmt ap len out :
  0 <= u64 v < 2 ^ 64 → base_ok base (spec_mag (u64 v) flags) → no_pad w (2 ^ 28) →
  flag_set flags LEFT = false → flag_set flags ZEROPAD = false →
  conv_number v base (mk_conv flags w 0 false q) fmt ap len out =
    Done (mk_vstate fmt ap len (out ++ spec_body (u64 v) flags base 0) (mk_conv flags w 0 false q)).
Proof.
  intros Hv Hb Hw Hl Hz. unfold conv_number. cbn [flag width precesion].
  rewrite number_spec by (done || unfold no_pad in Hw; lia).
  rewrite Hl, Hz, bind_done. unfold no_pad in Hw.
  by replace (Z.to_nat (w - _)) with 0%nat by lia.
Qed.

Lemma ld_head m a b l : bytes m a (b :: l) → ld m a = Done b.
Proof. intros [H _]%bytes_cons. unfold ld. by rewrite H. Qed.

(** Evaluates the tests of known flags. *)
Ltac flags_eval :=
  repeat match goal with |- context[flag_set ?a ?b] =>
    let v := eval vm_compute in (flag_set a b) in change (flag_set a b) with v end.

(** One conversion of the list, from behind the percent sign. *)
Lemma reswitch_seg m g rest fuel w fmt args len out :
  seg_ok m g → (∀ l, g ≠ Lit l) → bytes m fmt (drop 1 (seg_fmt g) ++ rest) → (1 <= fuel)%nat →
  no_pad w (2 ^ 28) → Z.of_nat (length (seg_out g)) <= len < 2 ^ 32 → Z.of_nat (length (seg_out g)) < 2 ^ 28 →
  ∃ w' len' c', reswitch fuel m (mk_conv 0 w 0 false 0) fmt (seg_args g ++ args) len out =
      Done (mk_vstate (fmt + 1) args len' (out ++ seg_out g) c') ∧ width c' = w' ∧
    w - 2 * Z.of_nat (length (seg_out g)) <= w' <= 0 ∧ len - Z.of_nat (length (seg_out g)) <= len' <= len.
Proof.
  intros Hok Hnl Hb Hfu Hw Hlen Hout. destruct fuel as [|fuel]; [lia|]. cbn [reswitch].
  destruct g as [l|v|v|v|v|p s]; cbn [seg_fmt drop app] in Hb; [by destruct (Hnl l)|..];
    rewrite (ld_head _ _ _ _ Hb), bind_done; simpl Z.eqb; cbn [orb seg_args app va_word seg_ok qualifier with_flag flag width precesion dot] in *;
    match goal with |- context[(49 <=? ?c) && (?c <=? 57)] => change ((49 <=? c) && (c <=? 57)) with false end;
    cbn iota; unfold with_flag; cbn [flag width precesion dot qualifier].
  - unfold arg_sign. simpl Z.eqb. cbn [va_word]. rewrite !bind_done. simpl Z.eqb. cbn iota.
    pose proof (s32_range v). rewrite conv_number_plain;
      [|apply u64_range|right; unfold spec_mag; flags_eval; cbn iota; rewrite s64_u64, s64_small by lia; lia|done|done|done].
    eexists w, len, (mk_conv _ w 0 false 0). split; [|split; [reflexivity|unfold no_pad in Hw; lia]].
    f_equal. f_equal. f_equal. unfold spec_body, spec_sign, spec_prefix, spec_digits, spec_mag, seg_out, decimal.
    flags_eval. cbn iota. rewrite s64_u64, s64_small by lia. cbn [andb app]. 
    rewrite length_fmap, length_reverse. cbn [Z.to_nat Nat.sub replicate app]. done.
  - unfold arg_nosign. simpl Z.eqb. cbn [va_word]. rewrite !bind_done. simpl Z.eqb. cbn iota.
    rewrite conv_number_plain; [|apply u64_range|right; unfold spec_mag; flags_eval; cbn iota; rewrite u64_small by lia; lia|done|done|done].
    eexists w, len, (mk_conv _ w 0 false 0). split; [|split; [reflexivity|unfold no_pad in Hw; lia]].
    by rewrite spec_body_plain, u64_small by (done || lia).
  - unfold arg_nosign. simpl Z.eqb. cbn [va_word]. rewrite !bind_done. simpl Z.eqb. cbn iota.
    rewrite conv_number_plain; [|apply u64_range|left; unfold spec_mag; flags_eval; cbn iota; rewrite u64_small by lia; lia|done|done|done].
    eexists w, len, (mk_conv _ w 0 false 0). split; [|split; [reflexivity|unfold no_pad in Hw; lia]].
    by rewrite spec_body_plain, u64_small by (done || lia).
  - unfold conv_char, no_pad in *. flags_eval. cbn [negb width flag va_word].
    unfold predec_pos_loop. rewrite s32_small by lia. rewrite (proj2 (Z.ltb_ge 0 (w - 1))) by lia. rewrite bind_done.
    rewrite s32_small by lia. rewrite (proj2 (Z.ltb_ge 0 (w - 1 - 1))) by lia.
    eexists _, _, _. split; [reflexivity|]. split; [reflexivity|]. cbn [width with_width seg_out length] in *.
    rewrite u32_small by lia. lia.
  - unfold conv_string, no_pad in *. destruct Hok as [Hp Hc]. cbn [va_word seg_out] in *. rewrite bind_done.
    rewrite (proj2 (Z.eqb_neq p 0)) by done. cbn [dot]. rewrite (strlen_spec m p s) by (done || lia).
    rewrite !bind_done, s32_small, Nat2Z.id by lia. rewrite (ldn_spec m p s), bind_done by (by destruct Hc as [[? _]%bytes_app _]).
    flags_eval. cbn [negb andb width flag]. rewrite s32_small by lia.
    rewrite (proj2 (Z.ltb_ge 0 (w - _))) by lia. rewrite app_nil_r, Z.max_l by lia. rewrite u32_small by lia.
    eexists _, _, _. split; [reflexivity|]. split; [reflexivity|]. cbn [width with_width]. lia.
Qed.

Notation fmt_of gs := (flat_map seg_fmt gs).
Notation args_of gs := (flat_map seg_args gs).
Notation out_of gs := (flat_map seg_out gs).

(** Literal text is copied. *)
Lemma vsnprintf_lit l rest fuel m fmt args len out c :
  Forall (λ b, 0 < b < 256 ∧ b ≠ 37) l → bytes m fmt (l ++ rest) → Z.of_nat (length l) < len < 2 ^ 32 →
  vsnprintf_loop (length l + fuel) m (mk_vstate fmt args len out c) =
    vsnprintf_loop fuel m (mk_vstate (fmt + Z.of_nat (length l)) args (len - Z.of_nat (length l)) (out ++ l) c).
Proof.
  revert fmt len out. induction l as [|b l IH]; intros fmt len out Hl Hb Hlen.
  - simpl. by rewrite Z.add_0_r, Z.sub_0_r, app_nil_r.
  - apply Forall_cons in Hl as [[Hb0 Hb37] Hl]. cbn [length app Nat.add vsnprintf_loop vfmt vlen vap vout vconv] in *.
    rewrite (ld_head _ _ _ _ Hb), bind_done. apply bytes_cons in Hb as [_ Hb].
    rewrite (proj2 (Z.eqb_neq b 0)), (proj2 (Z.eqb_neq b 37)), (proj2 (Z.eqb_neq len 0)) by lia. cbn [orb negb].
    rewrite u32_small, IH by (done || lia). f_equal. rewrite <- app_assoc. f_equal; lia.
Qed.

Lemma vsnprintf_segs gs fuel m fmt len out c :
  bytes m fmt (fmt_of gs ++ [0]) → Forall (seg_ok m) gs → Z.of_nat (length (out_of gs)) < len < 2 ^ 32 →
  no_pad (width c) (2 ^ 28 - 2 * Z.of_nat (length (out_of gs))) → (length (fmt_of gs) < fuel)%nat →
  vsnprintf_loop fuel m (mk_vstate fmt (args_of gs) len out c) = Done (out ++ out_of gs).
Proof.
  revert fuel fmt len out c. induction gs as [|g gs IH]; intros fuel fmt len out c Hb Hok Hlen Hw Hf.
  - destruct fuel as [|fuel]; [simpl in Hf; lia|]. cbn [vsnprintf_loop vfmt]. simpl in Hb.
    rewrite (ld_head _ _ _ _ Hb), bind_done. cbn. by rewrite app_nil_r.
  - apply Forall_cons in Hok as [Hg Hok]. cbn [flat_map] in *.
    rewrite length_app in Hf, Hlen, Hw. rewrite <- app_assoc in Hb. unfold no_pad in Hw.
    assert ((∃ l, g = Lit l) ∨ ∀ l, g ≠ Lit l) as [[l ->]|Hnl] by (destruct g; [left; eauto|right; done..]).
    + cbn [seg_fmt seg_args seg_out app] in *. replace fuel with (length l + (fuel - length l))%nat by lia.
      rewrite (vsnprintf_lit l (fmt_of gs ++ [0])) by (done || lia).
      apply bytes_app in Hb as [_ Hb]. rewrite IH; [by rewrite <- app_assoc|done|done|lia|unfold no_pad; lia|lia].
    + destruct fuel as [|fuel]; [lia|]. cbn [vsnprintf_loop vfmt vlen vap vout vconv].
      assert (∃ ch, seg_fmt g = [37; ch]) as [ch Hch] by (destruct g; [by destruct (Hnl l)|eexists; reflexivity..]).
      rewrite Hch in Hb, Hf. cbn [app] in Hb. rewrite (ld_head _ _ _ _ Hb), bind_done.
      rewrite (proj2 (Z.eqb_neq len 0)) by lia. cbn [orb negb Z.eqb Pos.eqb].
      apply bytes_cons in Hb as [_ Hb].
      destruct (reswitch_seg m g (fmt_of gs ++ [0]) (mfuel m) (width c) (fmt + 1) (args_of gs) len out)
        as (w' & len' & c' & -> & <- & Hw' & Hlen'); try done.
      * by rewrite Hch.
      * unfold mfuel. lia.
      * unfold no_pad. lia.
      * lia.
      * lia.
      * rewrite bind_done. apply bytes_cons in Hb as [_ Hb].
        rewrite IH; [by rewrite <- app_assoc|done|done|lia|unfold no_pad; lia|simpl in Hf; lia].
Qed.

(** ** Properties *)

(** C11: For a format made of literal text and the plain conversions %d, %u, %x, %c and %s, in any
    order and number, vsnprintf stores exactly the texts of its pieces one behind the other and a NUL,
    takes one word per conversion from the stack and returns the length, whenever the text fits. *)
Theorem vsnprintf_renders m size fmt gs
    (Hb : bytes m fmt (fmt_of gs ++ [0])) (Hok : Forall (seg_ok m) gs)
    (Hsize : Z.of_nat (length (out_of gs)) < size < 2 ^ 32) (Hsmall : Z.of_nat (length (out_of gs)) < 2 ^ 26) :
  vsnprintf m size fmt (args_of gs) = Done (out_of gs ++ [0], Z.of_nat (length (out_of gs))).
Proof.
  unfold vsnprintf. rewrite (vsnprintf_segs gs); [done|done|done|lia|unfold no_pad; simpl; lia|].
  apply bytes_room in Hb. apply room_fuel in Hb. rewrite length_app in Hb. unfold mfuel. simpl in Hb. lia.
Qed.

(** "pid %d: %s" with -7 and "ok". *)
Definition demo_mem : bmem := mem_of 64 [112; 105; 100; 32; 37; 100; 58; 32; 37; 115; 0; 111; 107; 0].
Lemma vsnprintf_renders_witness :
  vsnprintf demo_mem 100 64 [4294967289; 75] =
    Done ([112; 105; 100; 32; 45; 55; 58; 32; 111; 107] ++ [0], 10).
Proof.
  refine (vsnprintf_renders demo_mem 100 64
    [Lit [112; 105; 100; 32]; Dec 4294967289; Lit [58; 32]; Str 75 [111; 107]] _ _ _ _).
  - intros i b Hi. do 11 (destruct i as [|i]; [simpl in Hi; simplify_eq; vm_compute; reflexivity|]). done.
  - repeat constructor; try lia.
    + intros i b Hi. do 3 (destruct i as [|i]; [simpl in Hi; simplify_eq; vm_compute; reflexivity|]). done.
  - split; reflexivity.
  - reflexivity.
Defined.

(** Number converts a value to digits that read back as its magnitude in every base, behind the
    sign and the prefix; without LEFT the field has at least [width] characters, padded with spaces in
    front or with zeros behind the prefix, and with LEFT any field that has room left over, or is exactly
    full, never returns, because the trailing loop does not count the width down. *)
Theorem number_roundtrip num flags base width precision
    (Hn : 0 <= num < 2 ^ 64) (Hb : base_ok base (spec_mag num flags))
    (Hw : - 2 ^ 29 < width <= 2 ^ 29) (Hp : - 2 ^ 29 <= precision <= 2 ^ 29) :
  ∃ ds, of_digits base (reverse ds) = spec_mag num flags ∧ Forall (λ d, 0 <= d < base) ds ∧
    let body := spec_sign num flags ++ spec_prefix flags base ++
      replicate (Z.to_nat precision - length ds) 48 ++ (digit_of (Z.land flags SMALL) <$> ds) in
    if flag_set flags LEFT then
      number num flags base width precision =
        if Z.of_nat (length body) <=? width then Fail Diverge else Done body
    else ∃ out, number num flags base width precision = Done out ∧
      Z.of_nat (length out) = Z.max width (Z.of_nat (length body)) ∧
      (width <= Z.of_nat (length body) → out = body).
Proof.
  exists (reverse (the_digits base (spec_mag num flags))). rewrite reverse_involutive.
  assert (Hb1 : 1 < base) by (unfold base_ok in Hb; lia).
  split; [|split].
  - apply to_digits_value; [done|]. split; [unfold base_ok in Hb; lia|].
    apply Z.lt_le_trans with (2 ^ 66); [unfold base_ok in Hb; lia|].
    apply Z.pow_le_mono_l. lia.
  - apply Forall_reverse, to_digits_range. lia.
  - cbv zeta. rewrite number_spec by done.
    rewrite (length_reverse (the_digits base (spec_mag num flags))).
    assert (replicate (Z.to_nat precision - length (the_digits base (spec_mag num flags))) 48 ++
      (digit_of (Z.land flags SMALL) <$> reverse (the_digits base (spec_mag num flags))) =
      spec_digits num flags base precision) as ->.
    { unfold spec_digits. by rewrite length_fmap, length_reverse. }
    fold (spec_body num flags base precision). set (body := spec_body num flags base precision).
    destruct (flag_set flags LEFT).
    + destruct (Z.leb_spec 0 (width - Z.of_nat (length body))), (Z.leb_spec (Z.of_nat (length body)) width);
        done || lia.
    + destruct (flag_set flags ZEROPAD); (eexists; split; [reflexivity|]).
      * assert (length body = length (spec_sign num flags) + (length (spec_prefix flags base) + length (spec_digits num flags base precision)))%nat
          as Hlen by (unfold body, spec_body; by rewrite !length_app).
        rewrite !length_app, length_replicate. split; [lia|]. intros Hle.
        by replace (Z.to_nat _) with 0%nat by lia.
      * rewrite length_app, length_replicate. split; [lia|]. intros Hle.
        by replace (Z.to_nat _) with 0%nat by lia.
Qed.

Lemma number_roundtrip_witness :
  number 255 (Z.lor SPECIAL SMALL) 16 6 0 = Done [32; 32; 48; 120; 102; 102] ∧
  number 42 (Z.lor SIGN LEFT) 10 5 0 = Fail Diverge ∧
  ∃ ds, of_digits 16 (reverse ds) = 255 ∧ Forall (λ d, 0 <= d < 16) ds ∧
    let body := [48; 120] ++ replicate (0 - length ds) 48 ++ (digit_of 32 <$> ds) in
    ∃ out, number 255 (Z.lor SPECIAL SMALL) 16 6 0 = Done out ∧
      Z.of_nat (length out) = Z.max 6 (Z.of_nat (length body)) ∧
      (6 <= Z.of_nat (length body) → out = body).
Proof.
  split; [vm_compute; reflexivity|]. split; [vm_compute; reflexivity|].
  refine (number_roundtrip 255 (Z.lor SPECIAL SMALL) 16 6 0 _ _ _ _).
  - split; [discriminate|reflexivity].
  - left. split; [by right|split; [discriminate|reflexivity]].
  - split; [reflexivity|discriminate].
  - split; discriminate.
Defined.

(** The bound of [snprintf] does not bound what is stored: a conversion does not count
    its characters, a string counts below zero, and the NUL comes after the last. *)
Lemma snprintf_overruns :
  snprintf (mem_of 64 [37; 100; 0]) 2 64 [12345] = Done ([49; 50; 51; 52; 53; 0], 5) ∧
  snprintf (mem_of 64 [37; 115; 0; 97; 98; 99; 0]) 2 64 [67] = Done ([97; 98; 99; 0], 3) ∧
  snprintf (mem_of 64 [97; 98; 99; 0]) 2 64 [] = Done ([97; 98; 0], 2).
Proof. split; [|split]; vm_compute; reflexivity. Qed.

(** A width of one conversion is still there for the next. *)
Lemma width_is_sticky :
  sprintf (mem_of 64 [37; 51; 100; 37; 100; 0]) 64 [1; 2] = Done ([32; 32; 49; 32; 32; 50; 0], 6).
Proof. vm_compute. reflexivity. Qed.

(** "%lld" prints a number above 32 bits without its high word. *)
Lemma lld_truncates :
  sprintf (mem_of 64 [37; 108; 108; 100; 0]) 64 [5; 1] = Done ([53; 0], 1).
Proof. vm_compute. reflexivity. Qed.
