(* ===== verification/Ext2Disk.v ===== *)
(** * The ext2 file system: device, blocks and inodes ([Kernel/ext2.c], [Kernel/io_dev.c])

    The device is a map from sector numbers to 512 bytes; a request that touches a
    sector which is not there fails with -1, as [sata_read_write] does, and a
    request that succeeds returns the bytes moved.  Structures on disk and their
    copies in memory are lists of bytes, their fields are read and written little
    endian at the offsets of [Include/kernel/ext2.h].  A fresh [kmalloc] buffer has
    contents the program does not choose ([junk]). *)

From S2P Require Import Prelude.

Notation buf := (list Z).

(** ** Fields of structures *)

Definition le_value (bs : buf) : Z := foldr (λ b acc, b + 256 * acc) 0 bs.
Fixpoint le_bytes (n : nat) (v : Z) : buf :=
  match n with O => [] | S n => u8 v :: le_bytes n (v / 256) end.
Definition get_le (n : nat) (off : Z) (b : buf) : outcome Z :=
  if (0 <=? off) && (off + Z.of_nat n <=? Z.of_nat (length b)) then
    Done (le_value (take n (drop (Z.to_nat off) b)))
  else Fail BadPtr.
Definition put_le (n : nat) (off v : Z) (b : buf) : outcome buf :=
  if (0 <=? off) && (off + Z.of_nat n <=? Z.of_nat (length b)) then
    Done (take (Z.to_nat off) b ++ le_bytes n v ++ drop (Z.to_nat off + n) b)
  else Fail BadPtr.

(** ** The device *)

Notation disk := (gmap Z buf).

Fixpoint rd_sect (d : disk) (s : Z) (n : nat) : option buf :=
  match n with
  | O => Some []
  | S n => x ← d !! s; xs ← rd_sect d (s + 1) n; Some (x ++ xs)
  end.
Fixpoint wr_sect (d : disk) (s : Z) (n : nat) (b : buf) : disk :=
  match n with
  | O => d
  | S n => wr_sect (<[s := take 512 b]> d) (s + 1) n (drop 512 b)
  end.

(** [block_read] and [block_write]: the value returned, and the buffer or the disk
    after the request. *)
Definition block_read (d : disk) (s n : Z) (b : buf) : Z * buf :=
  match rd_sect d s (Z.to_nat n) with
  | Some x => (n * 512, x ++ drop (length x) b)
  | None => (-1, b)
  end.
Definition block_write (d : disk) (s n : Z) (b : buf) : Z * disk :=
  match rd_sect d s (Z.to_nat n) with
  | Some _ => (n * 512, wr_sect d s (Z.to_nat n) b)
  | None => (-1, d)
  end.

(** ** The mounted file system *)

Record ext2_bgd_t : Type := mk_bgd {
  block_bitmap : Z; inode_bitmap : Z; inode_tbl_start : Z;
  free_block_nums : Z; free_inode_nums : Z; dir_nums : Z; bgd_padding : buf }.
Definition bgd_bytes (g : ext2_bgd_t) : buf :=
  le_bytes 4 (block_bitmap g) ++ le_bytes 4 (inode_bitmap g) ++ le_bytes 4 (inode_tbl_start g) ++
  le_bytes 2 (free_block_nums g) ++ le_bytes 2 (free_inode_nums g) ++ le_bytes 2 (dir_nums g) ++ bgd_padding g.

(** The members of [struct ext2_file_system] that no operation changes. *)
Record ext2_fs_t : Type := mk_fs {
  blksize : Z; inode_size : Z; groups_count : Z; blk_per_group : Z; inode_per_grp : Z;
  first_block_group_no : Z; first_data_block : Z; block_group_desc_table_size : Z }.

(** What operations change: the disk, the descriptors in memory, and the counters
    of the superblock in memory. *)
Record ext2_st : Type := mk_est {
  dsk : disk; group_desc : list ext2_bgd_t; s_free_blocks : Z; s_free_inodes : Z }.
Definition set_dsk d s := mk_est d (group_desc s) (s_free_blocks s) (s_free_inodes s).

Section ext2.
(** [gd_tail]: the memory behind the last descriptor, which is written with the
    table up to a full sector. *)
Context (fs : ext2_fs_t) (junk : Z → buf) (gd_tail : buf).

Definition sector_of (block : Z) : Z := u32 (block * blksize fs) / 512.
Definition sectors_per_block : Z := blksize fs / 512.

(** ** Inodes *)

(** [None] when the function returns -1 without storing anything. *)
Definition ext2_inode_to_block (s : ext2_st) (inode : Z) : outcome (option (Z * Z)) :=
  if inode <? 1 then Done None else
  let inode := inode - 1 in
  let block_group := u32 inode / inode_per_grp fs in
  let index := u32 inode mod inode_per_grp fs in
  g ← deref (nthZ (group_desc s) block_group);
  Done (Some (s32 (inode_tbl_start g + u32 (index * inode_size fs) / blksize fs),
              index mod (blksize fs / inode_size fs))).

Definition inode_pos (offset : Z) : Z := offset * (inode_size fs / 128) * 128.

(** [loc]: what the locals [block] and [offset] hold when the number is invalid,
    since the result of [ext2_inode_to_block] is not looked at. *)
Context (loc : Z * Z).

(** [mode] 0 reads into [b], 1 writes [b]. *)
Definition ext2_rw_inode (s : ext2_st) (inode_no : Z) (b : buf) (mode : Z) : outcome (Z * buf * ext2_st) :=
  r ← ext2_inode_to_block s inode_no;
  let '(block, offset) := default loc r in
  let '(ret, tmp) := block_read (dsk s) (sector_of block) sectors_per_block (junk (blksize fs)) in
  if mode =? 0 then
    if ret <? 0 then Done (- EIO, b, s) else
    x ← sub_buf tmp (inode_pos offset) (inode_size fs);
    b ← put_buf b 0 x;
    Done (0, b, s)
  else if mode =? 1 then
    if ret <? 0 then Done (- EIO, b, s) else
    x ← sub_buf b 0 (inode_size fs);
    tmp ← put_buf tmp (inode_pos offset) x;
    let '(ret, d) := block_write (dsk s) (sector_of block) sectors_per_block tmp in
    if ret <? 0 then Done (- EIO, b, s) else Done (0, b, set_dsk d s)
  else Done (0, b, s).

(** ** Blocks *)

Definition ext2_rw_block (s : ext2_st) (block_no : Z) (b : buf) (mode : Z) : Z * buf * ext2_st :=
  if mode =? 0 then
    let '(ret, b) := block_read (dsk s) (sector_of block_no) sectors_per_block b in
    if ret =? -1 then (-1, b, s) else (0, b, s)
  else if mode =? 1 then
    let '(ret, d) := block_write (dsk s) (sector_of block_no) sectors_per_block b in
    if ret =? -1 then (-1, b, s) else (0, b, set_dsk d s)
  else (0, b, s).

(** ** The bitmaps *)

(** Bit [off] of a bitmap, and setting or clearing it. *)
Definition bm_get (bm : buf) (off : Z) : outcome bool :=
  b ← deref (nthZ bm (Z.shiftr off 3)); Done (negb (Z.land b (Z.shiftl 1 (off mod 8)) =? 0)).
Definition bm_set (bm : buf) (off : Z) : outcome buf :=
  b ← deref (nthZ bm (Z.shiftr off 3));
  Done (updZ bm (Z.shiftr off 3) (u8 (Z.lor b (Z.shiftl 1 (off mod 8))))).
Definition bm_clear (bm : buf) (off : Z) : outcome buf :=
  b ← deref (nthZ bm (Z.shiftr off 3));
  Done (updZ bm (Z.shiftr off 3) (u8 (Z.land b (Z.lnot (Z.shiftl 1 (off mod 8)))))).

(** [while (bitmap & (1 << (offset % 8))) offset++]; it runs off the buffer when
    every bit is set. *)
Fixpoint bm_scan (fuel : nat) (bm : buf) (off : Z) : outcome Z :=
  match fuel with
  | O => Fail BadPtr
  | S fuel => b ← bm_get bm off; if (b : bool) then bm_scan fuel bm (off + 1) else Done off
  end.

Definition write_group_desc (s : ext2_st) : Z * ext2_st :=
  let '(ret, d) := block_write (dsk s) (sector_of (first_block_group_no fs))
                     (block_group_desc_table_size fs / 512) (flat_map bgd_bytes (group_desc s) ++ gd_tail) in
  (ret, set_dsk d s).

Definition upd_desc (i : Z) (f : ext2_bgd_t → ext2_bgd_t) (s : ext2_st) : ext2_st :=
  match nthZ (group_desc s) i with
  | Some g => mk_est (dsk s) (updZ (group_desc s) i (f g)) (s_free_blocks s) (s_free_inodes s)
  | None => s
  end.
Definition add_free_blocks (k : Z) (s : ext2_st) : ext2_st :=
  mk_est (dsk s) (group_desc s) (u32 (s_free_blocks s + k)) (s_free_inodes s).
Definition add_free_inodes (k : Z) (s : ext2_st) : ext2_st :=
  mk_est (dsk s) (group_desc s) (s_free_blocks s) (u32 (s_free_inodes s + k)).
Definition bgd_add_blocks (k : Z) (g : ext2_bgd_t) : ext2_bgd_t :=
  mk_bgd (block_bitmap g) (inode_bitmap g) (inode_tbl_start g) (u16 (free_block_nums g + k))
    (free_inode_nums g) (dir_nums g) (bgd_padding g).
Definition bgd_add_inodes (k : Z) (g : ext2_bgd_t) : ext2_bgd_t :=
  mk_bgd (block_bitmap g) (inode_bitmap g) (inode_tbl_start g) (free_block_nums g)
    (u16 (free_inode_nums g + k)) (dir_nums g) (bgd_padding g).

(** The body for one group that has a free block. *)
Definition alloc_in_group (i : Z) (g : ext2_bgd_t) (s : ext2_st) : outcome (Z * ext2_st) :=
  let '(ret, bm) := block_read (dsk s) (sector_of (block_bitmap g)) sectors_per_block (junk (blksize fs)) in
  if ret =? -1 then Done (-1, s) else
  off ← bm_scan (8 * length bm) bm 0;
  let block_no := s32 (off + blk_per_group fs * i) in
  bm ← bm_set bm off;
  let s := add_free_blocks (-1) (upd_desc i (bgd_add_blocks (-1)) s) in
  let '(ret, d) := block_write (dsk s) (sector_of (block_bitmap g)) sectors_per_block bm in
  if ret =? -1 then Done (-1, set_dsk d s) else
  let '(ret, s) := write_group_desc (set_dsk d s) in
  if ret =? -1 then Done (-1, s) else Done (block_no, s).

(** [block_no0]: the uninitialised local that is returned when no group has a
    free block. *)
Fixpoint alloc_groups (n : nat) (i block_no0 : Z) (s : ext2_st) : outcome (Z * ext2_st) :=
  match n with
  | O => Done (block_no0, s)
  | S n =>
      g ← deref (nthZ (group_desc s) i);
      if 0 <? free_block_nums g then alloc_in_group i g s else alloc_groups n (i + 1) block_no0 s
  end.
Definition ext2_alloc_block (block_no0 : Z) (s : ext2_st) : outcome (Z * ext2_st) :=
  alloc_groups (Z.to_nat (groups_count fs)) 0 block_no0 s.

Definition alloc_inode_in_group (i : Z) (g : ext2_bgd_t) (s : ext2_st) : outcome (Z * ext2_st) :=
  let '(ret, bm) := block_read (dsk s) (sector_of (inode_bitmap g)) sectors_per_block (junk (blksize fs)) in
  if ret =? -1 then Done (-1, s) else
  off ← bm_scan (8 * length bm) bm 0;
  let inode_no := s32 (off + inode_per_grp fs * i + 1) in
  bm ← bm_set bm off;
  let s := add_free_inodes (-1) (upd_desc i (bgd_add_inodes (-1)) s) in
  let '(ret, d) := block_write (dsk s) (sector_of (inode_bitmap g)) sectors_per_block bm in
  if ret =? -1 then Done (-1, set_dsk d s) else
  let '(ret, s) := write_group_desc (set_dsk d s) in
  if ret =? -1 then Done (-1, s) else Done (inode_no, s).
Fixpoint alloc_inode_groups (n : nat) (i inode_no0 : Z) (s : ext2_st) : outcome (Z * ext2_st) :=
  match n with
  | O => Done (inode_no0, s)
  | S n =>
      g ← deref (nthZ (group_desc s) i);
      if 0 <? free_inode_nums g then alloc_inode_in_group i g s else alloc_inode_groups n (i + 1) inode_no0 s
  end.
Definition ext2_alloc_inode (inode_no0 : Z) (s : ext2_st) : outcome (Z * ext2_st) :=
  alloc_inode_groups (Z.to_nat (groups_count fs)) 0 inode_no0 s.

Definition ext2_free_block (block_no : Z) (s : ext2_st) : outcome (Z * ext2_st) :=
  let group_no := s32 (u32 (block_no - first_data_block fs) / blk_per_group fs) in
  let offset_in_group := s32 (block_no - group_no * blk_per_group fs) in
  g ← deref (nthZ (group_desc s) group_no);
  let '(ret, bm) := block_read (dsk s) (sector_of (block_bitmap g)) sectors_per_block (junk (blksize fs)) in
  if ret =? -1 then Done (ret, s) else
  bm ← bm_clear bm offset_in_group;
  let '(ret, d) := block_write (dsk s) (sector_of (block_bitmap g)) sectors_per_block bm in
  if ret =? -1 then Done (ret, set_dsk d s) else
  Done (write_group_desc (add_free_blocks 1 (upd_desc group_no (bgd_add_blocks 1) (set_dsk d s)))).
End ext2.

(** ** Fields *)

Lemma le_bytes_length n v : length (le_bytes n v) = n.
Proof. revert v. induction n as [|n IH]; intros v; [done|]. simpl. by rewrite IH. Qed.

Lemma le_value_bytes n v : 0 <= v < 2 ^ (8 * Z.of_nat n) → le_value (le_bytes n v) = v.
Proof.
  revert v. induction n as [|n IH]; intros v Hv.
  - simpl in *. lia.
  - rewrite Nat2Z.inj_succ, Z.mul_succ_r, Z.pow_add_r in Hv by lia. change (2 ^ 8) with 256 in Hv. cbn [le_bytes le_value foldr].
    fold (le_value (le_bytes n (v / 256))). rewrite IH.
    + unfold u8. change (2 ^ 8) with 256. pose proof (Z.div_mod v 256 ltac:(lia)). lia.
    + split; [apply Z.div_pos; lia|apply Z.div_lt_upper_bound; lia].
Qed.

Lemma le_value_range bs : Forall (λ b, 0 <= b < 256) bs → 0 <= le_value bs < 2 ^ (8 * Z.of_nat (length bs)).
Proof.
  induction 1 as [|b bs Hb _ IH]; [simpl; lia|]. cbn [le_value foldr length]. fold (le_value bs).
  rewrite Nat2Z.inj_succ, Z.mul_succ_r, Z.pow_add_r by lia. change (2 ^ 8) with 256. lia.
Qed.

(** A field at [off] of [n] bytes lies in the buffer. *)
Definition field_in (n : nat) (off : Z) (b : buf) : Prop := 0 <= off ∧ off + Z.of_nat n <= Z.of_nat (length b).

Lemma get_le_spec n off b : field_in n off b →
  get_le n off b = Done (le_value (take n (drop (Z.to_nat off) b))).
Proof. intros [? ?]. unfold get_le. by rewrite in_bounds_true. Qed.

Lemma put_le_spec n off v b : field_in n off b →
  put_le n off v b = Done (take (Z.to_nat off) b ++ le_bytes n v ++ drop (Z.to_nat off + n) b).
Proof. intros [? ?]. unfold put_le. by rewrite in_bounds_true. Qed.

Lemma put_le_length n off v b b' : put_le n off v b = Done b' → length b' = length b.
Proof.
  unfold put_le. destruct (_ && _) eqn:E; [|done]. intros [= <-].
  apply andb_true_iff in E as [?%Z.leb_le ?%Z.leb_le].
  rewrite !length_app, length_take, length_drop, le_bytes_length. lia.
Qed.

(** A four-byte field of a buffer that has room for it. *)
Lemma put_le_ok off v b : 0 <= off → off + 4 <= Z.of_nat (length b) →
  ∃ b', put_le 4 off v b = Done b' ∧ length b' = length b.
Proof.
  intros. eexists. split; [apply put_le_spec; split; [done|lia]|]. eapply put_le_length. apply put_le_spec. split; [done|lia].
Qed.

(** Reading back the field, and any other field, after a store. *)
Lemma get_put_le n off v b b' : put_le n off v b = Done b' → 0 <= v < 2 ^ (8 * Z.of_nat n) → get_le n off b' = Done v.
Proof.
  intros H Hv. pose proof (put_le_length _ _ _ _ _ H) as Hl. unfold put_le in H.
  destruct (_ && _) eqn:E; [|done]. injection H as <-.
  apply andb_true_iff in E as [?%Z.leb_le ?%Z.leb_le].
  rewrite get_le_spec by (split; lia). f_equal.
  rewrite drop_app_length' by (rewrite length_take; lia). rewrite take_app_length' by (by rewrite le_bytes_length).
  by apply le_value_bytes.
Qed.

Lemma get_put_le_ne n m off off' v b b' : put_le n off v b = Done b' →
  (off' + Z.of_nat m <= off ∨ off + Z.of_nat n <= off') → get_le m off' b' = get_le m off' b.
Proof.
  intros H Hne. pose proof (put_le_length _ _ _ _ _ H) as Hl. unfold get_le. rewrite Hl.
  destruct (_ && _) eqn:E'; [|done]. apply andb_true_iff in E' as [?%Z.leb_le ?%Z.leb_le].
  unfold put_le in H. destruct (_ && _) eqn:E; [|done]. injection H as <-.
  apply andb_true_iff in E as [?%Z.leb_le ?%Z.leb_le]. f_equal. f_equal.
  apply list_eq. intros i. destruct (decide (i < m)%nat) as [Hi|Hi].
  - rewrite !lookup_take_lt, !lookup_drop by lia. destruct Hne.
    + rewrite lookup_app_l by (rewrite length_take; lia). rewrite lookup_take_lt by lia. done.
    + rewrite lookup_app_r by (rewrite length_take; lia). rewrite length_take.
      rewrite lookup_app_r by (rewrite le_bytes_length; lia). rewrite le_bytes_length, lookup_drop. f_equal. lia.
  - by rewrite !lookup_take_ge by lia.
Qed.

(** ** Sectors *)

Lemma rd_sect_length d s n x : (∀ k y, d !! k = Some y → length y = 512%nat) → rd_sect d s n = Some x →
  length x = (n * 512)%nat.
Proof.
  intros Hd. revert s x. induction n as [|n IH]; intros s x; simpl; [by intros [= <-]|].
  destruct (d !! s) as [y|] eqn:E; [|done]. simpl. destruct (rd_sect d (s + 1) n) as [ys|] eqn:E'; [|done].
  simpl. intros [= <-]. rewrite length_app, (Hd _ _ E), (IH _ _ E'). lia.
Qed.

Lemma wr_sect_ne d s n b k : (k < s ∨ s + Z.of_nat n <= k) → wr_sect d s n b !! k = d !! k.
Proof.
  revert d s b. induction n as [|n IH]; intros d s b Hk; [done|]. simpl.
  rewrite IH by lia. apply lookup_insert_ne. lia.
Qed.

Lemma rd_sect_ext d d' s n : (∀ k, s <= k < s + Z.of_nat n → d' !! k = d !! k) → rd_sect d' s n = rd_sect d s n.
Proof.
  revert s. induction n as [|n IH]; intros s H; [done|]. simpl. rewrite H by lia.
  rewrite IH; [done|]. intros k Hk. apply H. lia.
Qed.

Lemma rd_wr_sect d s n b : length b = (n * 512)%nat → rd_sect (wr_sect d s n b) s n = Some b.
Proof.
  revert d s b. induction n as [|n IH]; intros d s b Hl.
  - simpl in Hl. destruct b; [done|discriminate].
  - cbn [wr_sect rd_sect]. rewrite wr_sect_ne by lia. rewrite lookup_insert_eq. simpl.
    rewrite IH by (rewrite length_drop; lia). simpl. by rewrite take_drop.
Qed.

Lemma rd_sect_present d s n : is_Some (rd_sect d s n) ↔ ∀ k, s <= k < s + Z.of_nat n → is_Some (d !! k).
Proof.
  revert s. induction n as [|n IH]; intros s; simpl.
  - split; [intros _ k Hk; lia|eauto].
  - split.
    + destruct (d !! s) as [y|] eqn:E; [|intros [? ?]; discriminate]. simpl.
      destruct (rd_sect d (s + 1) n) as [ys|] eqn:E'; [|intros [? ?]; discriminate]. intros _ k Hk.
      destruct (decide (k = s)) as [->|]; [rewrite E; eauto|]. apply (proj1 (IH (s + 1))); [by rewrite E'|lia].
    + intros H. destruct (H s) as [y ->]; [lia|]. simpl.
      destruct (proj2 (IH (s + 1))) as [ys ->]; [intros k Hk; apply H; lia|]. simpl. eauto.
Qed.

Lemma wr_sect_present d s n b k : is_Some (d !! k) → is_Some (wr_sect d s n b !! k).
Proof.
  revert d s b. induction n as [|n IH]; intros d s b H; [done|]. simpl. apply IH.
  destruct (decide (k = s)) as [->|]; [rewrite lookup_insert_eq; eauto|by rewrite lookup_insert_ne].
Qed.

Lemma wr_sect_full d s n b : (∀ k y, d !! k = Some y → length y = 512%nat) → (n * 512 <= length b)%nat →
  ∀ k y, wr_sect d s n b !! k = Some y → length y = 512%nat.
Proof.
  revert d s b. induction n as [|n IH]; intros d s b Hd Hl; [done|]. cbn [wr_sect]. apply IH.
  - intros k y Hk. destruct (decide (k = s)) as [->|].
    + rewrite lookup_insert_eq in Hk. injection Hk as <-. rewrite length_take. lia.
    + rewrite lookup_insert_ne in Hk by done. eauto.
  - rewrite length_drop. lia.
Qed.

(** ** Bitmaps *)

Definition bit_of (bm : buf) (off : Z) : bool :=
  match nthZ bm (off / 8) with Some b => Z.testbit b (off mod 8) | None => false end.

Definition byte_list (b : buf) : Prop := Forall (λ x, 0 <= x < 256) b.

Lemma nthZ_lookup {A} (l : list A) i : 0 <= i → nthZ l i = l !! Z.to_nat i.
Proof. intros. unfold nthZ. by rewrite decide_True. Qed.

Lemma bm_byte (bm : buf) off : 0 <= off < 8 * Z.of_nat (length bm) →
  ∃ b, nthZ bm (off / 8) = Some b ∧ 0 <= off mod 8 < 8.
Proof.
  intros Ho. pose proof (Z.mod_pos_bound off 8 ltac:(lia)).
  destruct (nthZ_is_Some bm (off / 8)) as [b Hb]; [|eauto].
  split; [apply Z.div_pos; lia|apply Z.div_lt_upper_bound; lia].
Qed.

Lemma bm_get_spec bm off : 0 <= off < 8 * Z.of_nat (length bm) → bm_get bm off = Done (bit_of bm off).
Proof.
  intros Ho. destruct (bm_byte bm off Ho) as (b & Hb & Hm). unfold bm_get, bit_of.
  rewrite Z.shiftr_div_pow2 by lia. change (2 ^ 3) with 8. rewrite Hb. cbn [deref]. rewrite bind_done.
  rewrite Z.shiftl_1_l. f_equal. apply land_pow2_testbit; lia.
Qed.

(** One bit of a byte set or cleared. *)
Lemma testbit_u8 x k : 0 <= k < 8 → Z.testbit (u8 x) k = Z.testbit x k.
Proof. intros. unfold u8. apply Z.mod_pow2_bits_low. lia. Qed.

Lemma testbit_set x k j : 0 <= k < 8 → 0 <= j < 8 →
  Z.testbit (u8 (Z.lor x (2 ^ k))) j = (if j =? k then true else Z.testbit x j).
Proof.
  intros. rewrite testbit_u8, Z.lor_spec, Z.pow2_bits_eqb by lia. rewrite (Z.eqb_sym k j).
  destruct (j =? k); [apply orb_true_r|apply orb_false_r].
Qed.

Lemma testbit_clear x k j : 0 <= k < 8 → 0 <= j < 8 →
  Z.testbit (u8 (Z.land x (Z.lnot (2 ^ k)))) j = (if j =? k then false else Z.testbit x j).
Proof.
  intros. rewrite testbit_u8, Z.land_spec, Z.lnot_spec, Z.pow2_bits_eqb by lia. rewrite (Z.eqb_sym k j).
  destruct (j =? k); [apply andb_false_r|apply andb_true_r].
Qed.

Lemma off_split off off' : 0 <= off → 0 <= off' →
  (off' =? off) = (off' / 8 =? off / 8) && (off' mod 8 =? off mod 8).
Proof.
  intros. pose proof (Z.div_mod off 8 ltac:(lia)). pose proof (Z.div_mod off' 8 ltac:(lia)).
  destruct (Z.eqb_spec off' off), (Z.eqb_spec (off' / 8) (off / 8)), (Z.eqb_spec (off' mod 8) (off mod 8));
    subst; simpl; try done; lia.
Qed.

Lemma bit_of_upd (bm : buf) off off' (f : Z → Z) (v : bool) :
  0 <= off < 8 * Z.of_nat (length bm) → 0 <= off' →
  (∀ x j, 0 <= j < 8 → Z.testbit (f x) j = if j =? off mod 8 then v else Z.testbit x j) →
  ∀ b, nthZ bm (off / 8) = Some b →
  bit_of (updZ bm (off / 8) (f b)) off' = if off' =? off then v else bit_of bm off'.
Proof.
  intros Ho Ho' Hf b Hb. unfold bit_of. pose proof (nthZ_Some _ _ _ Hb).
  pose proof (Z.mod_pos_bound off' 8 ltac:(lia)). rewrite off_split by lia.
  destruct (Z.eqb_spec (off' / 8) (off / 8)) as [->|Hne]; cbn [andb].
  - rewrite nthZ_upd_eq, Hb by lia. by rewrite Hf.
  - by rewrite nthZ_upd_ne by done.
Qed.

Lemma bm_set_spec bm off : 0 <= off < 8 * Z.of_nat (length bm) →
  ∃ bm', bm_set bm off = Done bm' ∧ length bm' = length bm ∧
    ∀ off', 0 <= off' → bit_of bm' off' = if off' =? off then true else bit_of bm off'.
Proof.
  intros Ho. destruct (bm_byte bm off Ho) as (b & Hb & Hm). unfold bm_set.
  rewrite Z.shiftr_div_pow2 by lia. change (2 ^ 3) with 8. rewrite Hb. cbn [deref]. rewrite bind_done, Z.shiftl_1_l.
  eexists. split; [done|]. split; [apply updZ_length|]. intros off' Ho'.
  apply (bit_of_upd bm off off' (λ x, u8 (Z.lor x (2 ^ (off mod 8))))); try done.
  intros x j Hj. apply testbit_set; lia.
Qed.

Lemma bm_clear_spec bm off : 0 <= off < 8 * Z.of_nat (length bm) →
  ∃ bm', bm_clear bm off = Done bm' ∧ length bm' = length bm ∧
    ∀ off', 0 <= off' → bit_of bm' off' = if off' =? off then false else bit_of bm off'.
Proof.
  intros Ho. destruct (bm_byte bm off Ho) as (b & Hb & Hm). unfold bm_clear.
  rewrite Z.shiftr_div_pow2 by lia. change (2 ^ 3) with 8. rewrite Hb. cbn [deref]. rewrite bind_done, Z.shiftl_1_l.
  eexists. split; [done|]. split; [apply updZ_length|]. intros off' Ho'.
  apply (bit_of_upd bm off off' (λ x, u8 (Z.land x (Z.lnot (2 ^ (off mod 8)))))); try done.
  intros x j Hj. apply testbit_clear; lia.
Qed.

(** The scan stops at the first clear bit. *)
Lemma bm_scan_spec fuel bm off free : 0 <= off <= free → free < 8 * Z.of_nat (length bm) →
  (∀ k, off <= k < free → bit_of bm k = true) → bit_of bm free = false → free - off < Z.of_nat fuel →
  bm_scan fuel bm off = Done free.
Proof.
  revert off. induction fuel as [|fuel IH]; intros off Ho Hl Hset Hfree Hf; [lia|]. cbn [bm_scan].
  rewrite bm_get_spec, bind_done by lia. destruct (decide (off = free)) as [->|Hne].
  - by rewrite Hfree.
  - rewrite Hset by lia. apply IH; try done; try lia. intros k Hk. apply Hset. lia.
Qed.

(** ** Blocks of a healthy disk *)

(** [junk] gives buffers of the length asked for; sectors have 512 bytes; a block is
    a whole number of sectors. *)
Definition full_disk (d : disk) : Prop := ∀ k y, d !! k = Some y → length y = 512%nat.
Definition junk_ok (junk : Z → buf) : Prop := ∀ n, 0 <= n → length (junk n) = Z.to_nat n.
Definition geom (fs : ext2_fs_t) : Prop := 0 < blksize fs ∧ blksize fs mod 512 = 0.
(** A block whose byte address fits the 32-bit product. *)
Definition valid (fs : ext2_fs_t) (b : Z) : Prop := 0 <= b ∧ (b + 1) * blksize fs <= 2 ^ 32.

Section blocks.
Context (fs : ext2_fs_t) (junk : Z → buf) (gd_tail : buf).
Context (Hgeom : geom fs) (Hjunk : junk_ok junk).
Notation spb := (sectors_per_block fs).

Definition block_data (s : ext2_st) (b : Z) : option buf := rd_sect (dsk s) (b * spb) (Z.to_nat spb).

Lemma spb_pos : 0 < spb ∧ blksize fs = 512 * spb.
Proof.
  unfold sectors_per_block. destruct Hgeom as [Hp Hm].
  pose proof (Z.div_mod (blksize fs) 512 ltac:(lia)). split; lia.
Qed.

Lemma sector_of_valid b : valid fs b → sector_of fs b = b * spb.
Proof.
  intros [H0 Hb]. pose proof spb_pos as [Hs He]. unfold sector_of. destruct Hgeom as [Hp _].
  rewrite u32_small by nia. rewrite He. replace (b * (512 * spb)) with (b * spb * 512) by lia.
  by rewrite Z.div_mul by lia.
Qed.

Lemma block_data_length s b x : full_disk (dsk s) → block_data s b = Some x → Z.of_nat (length x) = blksize fs.
Proof.
  intros Hd Hx. apply rd_sect_length in Hx; [|done]. pose proof spb_pos as [? ?]. lia.
Qed.

Lemma read_block s b x y : full_disk (dsk s) → valid fs b → block_data s b = Some x →
  Z.of_nat (length y) = blksize fs →
  block_read (dsk s) (sector_of fs b) spb y = (blksize fs, x).
Proof.
  intros Hd Hv Hx Hy. pose proof (block_data_length s b x Hd Hx). unfold block_read.
  rewrite sector_of_valid by done. unfold block_data in Hx. rewrite Hx. pose proof spb_pos as [? ->].
  f_equal; [lia|]. rewrite drop_ge by lia. apply app_nil_r.
Qed.

Lemma read_block_junk s b x : full_disk (dsk s) → valid fs b → block_data s b = Some x →
  block_read (dsk s) (sector_of fs b) spb (junk (blksize fs)) = (blksize fs, x).
Proof. intros. apply read_block; try done. rewrite Hjunk by (destruct Hgeom; lia). destruct Hgeom; lia. Qed.

(** A block written: it holds the bytes, nothing else changed. *)
Definition wrote (s : ext2_st) (b : Z) (x : buf) (d : disk) : Prop :=
  d = wr_sect (dsk s) (b * spb) (Z.to_nat spb) x.

Lemma write_block s b x y : valid fs b → block_data s b = Some y → 
  ∃ d, block_write (dsk s) (sector_of fs b) spb x = (blksize fs, d) ∧ wrote s b x d.
Proof.
  intros Hv Hy. unfold block_write. rewrite sector_of_valid by done. unfold block_data in Hy. rewrite Hy.
  pose proof spb_pos as [? ->]. eexists. split; [|done]. f_equal. lia.
Qed.

Lemma wrote_same s b x d : wrote s b x d → Z.of_nat (length x) = blksize fs → block_data (set_dsk d s) b = Some x.
Proof.
  intros -> Hx. unfold block_data, set_dsk; cbn [dsk]. apply rd_wr_sect. pose proof spb_pos as [? ?]. lia.
Qed.

Lemma wrote_other s b x d b' : wrote s b x d → b' ≠ b → block_data (set_dsk d s) b' = block_data s b'.
Proof.
  intros -> Hne. unfold block_data, set_dsk; cbn [dsk]. apply rd_sect_ext. intros k Hk. apply wr_sect_ne.
  pose proof spb_pos as [? ?]. destruct (decide (b' < b)); [left|right]; nia.
Qed.

Lemma wrote_sectors s b x d k : wrote s b x d → (k < b * spb ∨ (b + 1) * spb <= k) → d !! k = dsk s !! k.
Proof. intros -> Hk. apply wr_sect_ne. pose proof spb_pos as [? ?]. lia. Qed.

Lemma wrote_full s b x d : full_disk (dsk s) → wrote s b x d → Z.of_nat (length x) = blksize fs → full_disk d.
Proof. intros Hf -> Hx. intros k y; revert k y; refine (wr_sect_full _ _ _ _ Hf _). pose proof spb_pos as [? ?]. lia. Qed.

(** ** The descriptor table *)

Definition table_at : Z := sector_of fs (first_block_group_no fs).
Definition table_n : nat := Z.to_nat (block_group_desc_table_size fs / 512).
Definition off_table (b : Z) : Prop := (b + 1) * spb <= table_at ∨ table_at + Z.of_nat table_n <= b * spb.

(** The table is on the disk, and what is written fills its sectors. *)
Definition table_ok (s : ext2_st) : Prop :=
  is_Some (rd_sect (dsk s) table_at table_n) ∧ 0 <= block_group_desc_table_size fs ∧
  length (flat_map bgd_bytes (group_desc s) ++ gd_tail) = (table_n * 512)%nat.

Lemma table_written s : table_ok s → full_disk (dsk s) →
  ∃ d, write_group_desc fs gd_tail s = (Z.of_nat table_n * 512, set_dsk d s) ∧ full_disk d ∧
    table_ok (set_dsk d s) ∧ ∀ b, off_table b → block_data (set_dsk d s) b = block_data s b.
Proof.
  intros ([x Hx] & Hp & Hl) Hf. unfold write_group_desc, block_write. fold table_at. fold table_n. rewrite Hx.
  eexists. split; [|split; [|split]].
  - f_equal. unfold table_n. rewrite Z2Nat.id by (apply Z.div_pos; lia). done.
  - intros k y; revert k y; refine (wr_sect_full _ _ _ _ Hf _). lia.
  - split; [|done]. apply rd_sect_present. intros k Hk. apply wr_sect_present.
    apply (proj1 (rd_sect_present (dsk s) table_at table_n)); [by rewrite Hx|done].
  - intros b Hb. unfold block_data, set_dsk; cbn [dsk]. apply rd_sect_ext. intros k Hk. apply wr_sect_ne.
    pose proof spb_pos as [? ?]. unfold off_table in Hb. lia.
Qed.

Lemma bgd_add_blocks_length k g : length (bgd_bytes (bgd_add_blocks k g)) = length (bgd_bytes g).
Proof. unfold bgd_bytes. by rewrite !length_app, !le_bytes_length. Qed.

Lemma flat_map_upd {A} (f : A → buf) (l : list A) i a a' : nthZ l i = Some a → length (f a') = length (f a) →
  length (flat_map f (updZ l i a')) = length (flat_map f l).
Proof.
  intros Ha Hl. unfold nthZ, updZ in *. destruct (decide (0 <= i)); [|done].
  revert Ha. generalize (Z.to_nat i) as n. induction l as [|b l IH]; intros [|n] Hn; simpl in *; try done.
  - injection Hn as ->. by rewrite !length_app, Hl.
  - by rewrite !length_app, IH.
Qed.

Lemma table_ok_upd s i g k j : nthZ (group_desc s) i = Some g → table_ok s →
  table_ok (add_free_blocks j (upd_desc i (bgd_add_blocks k) s)).
Proof.
  intros Hg (Hx & Hp & Hl). unfold upd_desc. rewrite Hg. split; [done|]. split; [done|]. cbn [group_desc add_free_blocks].
  rewrite <- Hl, !length_app. f_equal. apply (flat_map_upd _ _ _ g); [done|apply bgd_add_blocks_length].
Qed.

(** ** Allocation *)

(** Group [i], with descriptor [g] and bitmap [bm], is the first with a free block,
    and [free] is its first free one. *)
Record alloc_ready (s : ext2_st) (i : Z) (g : ext2_bgd_t) (bm : buf) (free : Z) : Prop := mk_ready {
  ar_full : full_disk (dsk s);
  ar_table : table_ok s;
  ar_group : nthZ (group_desc s) i = Some g;
  ar_range : i < groups_count fs;
  ar_first j h : 0 <= j < i → nthZ (group_desc s) j = Some h → free_block_nums h = 0;
  ar_count : 0 < free_block_nums g < 2 ^ 16;
  ar_valid : valid fs (block_bitmap g);
  ar_off : off_table (block_bitmap g);
  ar_map : block_data s (block_bitmap g) = Some bm;
  ar_free : 0 <= free < 8 * blksize fs;
  ar_clear : bit_of bm free = false;
  ar_set k : 0 <= k < free → bit_of bm k = true;
  ar_small : 0 <= blk_per_group fs ∧ blk_per_group fs * i + free < 2 ^ 31;
}.

(** What a change of bit [off] of the bitmap of group [i] to [v] leaves. *)
Record bitmap_step (s s' : ext2_st) (i : Z) (g : ext2_bgd_t) (bm : buf) (off : Z) (v : bool) (delta : Z) : Prop := mk_bstep {
  bs_full : full_disk (dsk s');
  bs_table : table_ok s';
  bs_map : ∃ bm', block_data s' (block_bitmap g) = Some bm' ∧
    ∀ k, 0 <= k → bit_of bm' k = if k =? off then v else bit_of bm k;
  bs_other b : b ≠ block_bitmap g → off_table b → block_data s' b = block_data s b;
  bs_desc : group_desc s' = updZ (group_desc s) i (bgd_add_blocks delta g);
  bs_sb : s_free_blocks s' = u32 (s_free_blocks s + delta) ∧ s_free_inodes s' = s_free_inodes s;
}.

(** The part both directions share: write the bitmap, the counters, the table. *)
Lemma write_bitmap s i g bm bm' off v delta :
  full_disk (dsk s) → table_ok s → nthZ (group_desc s) i = Some g → valid fs (block_bitmap g) →
  off_table (block_bitmap g) → block_data s (block_bitmap g) = Some bm → length bm' = length bm →
  (∀ k, 0 <= k → bit_of bm' k = if k =? off then v else bit_of bm k) →
  let s1 := add_free_blocks delta (upd_desc i (bgd_add_blocks delta) s) in
  ∃ d1 d2, block_write (dsk s) (sector_of fs (block_bitmap g)) spb bm' = (blksize fs, d1) ∧
    set_dsk d1 s1 = add_free_blocks delta (upd_desc i (bgd_add_blocks delta) (set_dsk d1 s)) ∧
    write_group_desc fs gd_tail (set_dsk d1 s1) = (Z.of_nat table_n * 512, set_dsk d2 s1) ∧
    bitmap_step s (set_dsk d2 s1) i g bm off v delta.
Proof.
  intros Hf Ht Hg Hv Hoff Hm Hl Hbits s1.
  pose proof (block_data_length s _ _ Hf Hm) as Hlen.
  destruct (write_block s (block_bitmap g) bm' bm Hv Hm) as (d1 & Hw & Hwr).
  assert (Hfull1 : full_disk d1) by (eapply wrote_full; [exact Hf|exact Hwr|lia]).
  assert (Ht1 : table_ok (set_dsk d1 s1)).
  { pose proof (table_ok_upd s i g delta delta Hg Ht) as (Hp & H0 & Hb). split; [|done].
    destruct Ht as ([x Hx] & _ & _). apply rd_sect_present. intros k Hk.
    cbn [dsk set_dsk]. rewrite Hwr. apply wr_sect_present.
    apply (proj1 (rd_sect_present (dsk s) table_at table_n)); [by rewrite Hx|done]. }
  destruct (table_written (set_dsk d1 s1) Ht1 Hfull1) as (d2 & Hwt & Hfull2 & Ht2 & Hoth).
  exists d1, d2. split; [done|]. split; [by unfold s1, upd_desc; cbn [group_desc set_dsk]; rewrite Hg|].
  split; [by rewrite Hwt|]. split.
  - done.
  - exact Ht2.
  - exists bm'. split; [|done]. change (set_dsk d2 s1) with (set_dsk d2 (set_dsk d1 s1)). rewrite Hoth by done.
    change (block_data (set_dsk d1 s1) (block_bitmap g)) with (block_data (set_dsk d1 s) (block_bitmap g)).
    eapply wrote_same; [exact Hwr|lia].
  - intros b Hb Hob. change (set_dsk d2 s1) with (set_dsk d2 (set_dsk d1 s1)). rewrite Hoth by done.
    change (block_data (set_dsk d1 s1) b) with (block_data (set_dsk d1 s) b).
    eapply wrote_other; [exact Hwr|done].
  - unfold s1, upd_desc. by rewrite Hg.
  - unfold s1, upd_desc. by rewrite Hg.
Qed.

Lemma alloc_groups_spec s i g bm free n j x0 : alloc_ready s i g bm free → 0 <= j <= i → i < j + Z.of_nat n →
  alloc_groups fs junk gd_tail n j x0 s = alloc_in_group fs junk gd_tail i g s.
Proof.
  intros Har. revert j. induction n as [|n IH]; intros j Hj Hn; [lia|]. cbn [alloc_groups].
  destruct (decide (j = i)) as [->|Hne].
  - rewrite (ar_group _ _ _ _ _ Har). cbn [deref]. rewrite bind_done.
    pose proof (ar_count _ _ _ _ _ Har). by rewrite (proj2 (Z.ltb_lt _ _)) by lia.
  - pose proof (nthZ_Some _ _ _ (ar_group _ _ _ _ _ Har)).
    destruct (nthZ_is_Some (group_desc s) j) as [h Hh]; [lia|]. rewrite Hh. cbn [deref]. rewrite bind_done.
    rewrite (ar_first _ _ _ _ _ Har j h) by (done || lia). cbn [Z.ltb Z.compare]. apply IH; lia.
Qed.

Lemma alloc_block_spec s i g bm free x0 : alloc_ready s i g bm free → 0 <= i →
  ∃ s', ext2_alloc_block fs junk gd_tail x0 s = Done (blk_per_group fs * i + free, s') ∧
    bitmap_step s s' i g bm free true (-1).
Proof.
  intros Har Hi. pose proof Har as [Hf Ht Hg Hr Hfi Hc Hv Hoff Hm Hfr Hcl Hset Hsm].
  unfold ext2_alloc_block. rewrite (alloc_groups_spec s i g bm free) by (done || lia).
  unfold alloc_in_group. rewrite (read_block_junk s _ bm) by done.
  pose proof (block_data_length s _ _ Hf Hm) as Hlen.
  destruct Hgeom as [Hp _]. rewrite (proj2 (Z.eqb_neq (blksize fs) (-1))) by lia.
  rewrite (bm_scan_spec _ bm 0 free), bind_done by (done || lia).
  destruct (bm_set_spec bm free) as (bm' & -> & Hl' & Hbits); [lia|]. rewrite bind_done.
  destruct (write_bitmap s i g bm bm' free true (-1)) as (d1 & d2 & Hw & _ & Hwt & Hst); try done.
  cbv zeta in *. 
  assert (dsk (add_free_blocks (-1) (upd_desc i (bgd_add_blocks (-1)) s)) = dsk s) as -> by (unfold upd_desc; by rewrite Hg).
  rewrite Hw, (proj2 (Z.eqb_neq (blksize fs) (-1))) by lia. rewrite Hwt.
  rewrite (proj2 (Z.eqb_neq _ (-1))) by lia.
  eexists. split; [|exact Hst]. f_equal. f_equal. rewrite s32_small; [lia|]. destruct Hsm. nia.
Qed.

(** A block of group [i] given back, when blocks are numbered from 0. *)
Lemma free_block_spec s i g bm off : first_data_block fs = 0 → full_disk (dsk s) → table_ok s →
  nthZ (group_desc s) i = Some g → valid fs (block_bitmap g) → off_table (block_bitmap g) →
  block_data s (block_bitmap g) = Some bm → 0 <= off < blk_per_group fs → off < 8 * blksize fs →
  blk_per_group fs * i + off < 2 ^ 31 → blk_per_group fs < 2 ^ 31 →
  ∃ s', ext2_free_block fs junk gd_tail (blk_per_group fs * i + off) s = Done (Z.of_nat table_n * 512, s') ∧
    bitmap_step s s' i g bm off false 1.
Proof.
  intros H0 Hf Ht Hg Hv Hoff Hm Ho Ho' Hsm Hbs. pose proof (nthZ_Some _ _ _ Hg) as Hi.
  assert (0 <= blk_per_group fs * i) by nia. assert (i <= blk_per_group fs * i) by nia.
  unfold ext2_free_block. rewrite H0, Z.sub_0_r, u32_small by lia.
  assert ((blk_per_group fs * i + off) / blk_per_group fs = i) as ->.
  { symmetry. apply (Z.div_unique _ _ _ off); lia. }
  rewrite s32_small by lia. replace (blk_per_group fs * i + off - i * blk_per_group fs) with off by lia.
  rewrite s32_small by lia. rewrite Hg. cbn [deref]. rewrite bind_done, (read_block_junk s _ bm) by done.
  pose proof (block_data_length s _ _ Hf Hm) as Hlen. destruct Hgeom as [Hp _].
  rewrite (proj2 (Z.eqb_neq (blksize fs) (-1))) by lia.
  destruct (bm_clear_spec bm off) as (bm' & -> & Hl' & Hbits); [lia|]. rewrite bind_done.
  destruct (write_bitmap s i g bm bm' off false 1) as (d1 & d2 & Hw & Hc & Hwt & Hst); try done.
  rewrite Hw, (proj2 (Z.eqb_neq (blksize fs) (-1))) by lia. cbv zeta in *. rewrite <- Hc, Hwt. eauto.
Qed.
End blocks.

(** C14: With a healthy disk, ext2_alloc_block takes the first clear bit of the bitmap of the first group
    whose descriptor counts a free block: the bit is set afterwards, every other bit, every other block and
    the other descriptors are untouched, and the counters of group and superblock go down by one. The number
    returned is the group's number times the blocks per group plus the bit's index, which is the block the
    bit stands for when blocks are numbered from 0 (first_data_block is 0, as with 2 and 4 KB blocks) and
    one less with 1 KB blocks. When they are numbered from 0, freeing that block clears the bit again and
    restores the descriptors, the bitmap and the counters. *)
Theorem alloc_free_block fs junk gd_tail s i g bm free x0
    (Hgeom : geom fs) (Hjunk : junk_ok junk) (Hr : alloc_ready fs gd_tail s i g bm free) (Hi : 0 <= i)
    (Hsb : 0 < s_free_blocks s < 2 ^ 32) :
  ∃ s', ext2_alloc_block fs junk gd_tail x0 s = Done (blk_per_group fs * i + free, s') ∧
    bit_of bm free = false ∧ bitmap_step fs gd_tail s s' i g bm free true (-1) ∧
    (first_data_block fs = 0 → free < blk_per_group fs → blk_per_group fs < 2 ^ 31 →
     ∃ ret s'', ext2_free_block fs junk gd_tail (blk_per_group fs * i + free) s' = Done (ret, s'') ∧ 0 <= ret ∧
       group_desc s'' = group_desc s ∧ s_free_blocks s'' = s_free_blocks s ∧
       (∃ bm', block_data fs s'' (block_bitmap g) = Some bm' ∧ ∀ k, 0 <= k → bit_of bm' k = bit_of bm k) ∧
       ∀ b, b ≠ block_bitmap g → off_table fs b → block_data fs s'' b = block_data fs s b).
Proof.
  pose proof Hr as [Hf Ht Hg Hrr Hfi Hc Hv Hoff Hm Hfr Hcl Hset Hsm].
  destruct (alloc_block_spec fs junk gd_tail Hgeom Hjunk s i g bm free x0 Hr Hi) as (s' & Ha & Hst).
  exists s'. split; [done|]. split; [done|]. split; [done|]. intros H0 Hlt Hbs.
  pose proof Hst as [Hf' Ht' (bm1 & Hm1 & Hb1) Ho1 Hd1 [Hs1 _]].
  pose proof (nthZ_Some _ _ _ Hg) as Hin.
  assert (Hg' : nthZ (group_desc s') i = Some (bgd_add_blocks (-1) g)) by (rewrite Hd1; by apply nthZ_upd_eq).
  destruct (free_block_spec fs junk gd_tail Hgeom Hjunk s' i (bgd_add_blocks (-1) g) bm1 free) as (s'' & Hfb & Hst2);
    try done; try lia.
  - exists (Z.of_nat (table_n fs) * 512), s''. split; [done|]. split; [lia|].
    pose proof Hst2 as [_ _ (bm2 & Hm2 & Hb2) Ho2 Hd2 [Hs2 _]].
    split; [|split; [|split]].
    + rewrite Hd2, Hd1, updZ_twice. apply updZ_id. rewrite Hg. f_equal. destruct g as [x1 x2 x3 n x5 x6 x7].
      unfold bgd_add_blocks. cbn [free_block_nums] in *. cbn. f_equal. symmetry. unfold u16 in *.
      rewrite (Z.mod_small (n + -1)) by lia. rewrite Z.mod_small by lia. lia.
    + rewrite Hs2, Hs1. rewrite (u32_small (s_free_blocks s + -1)) by lia. rewrite u32_small by lia. lia.
    + exists bm2. split; [done|]. intros k Hk. rewrite Hb2, Hb1 by done.
      destruct (Z.eqb_spec k free) as [->|]; done.
    + intros b Hb Hob. rewrite Ho2, Ho1 by done. done.
Qed.

(** A small disk: descriptor table in sector 2, one group of blocks of 1024 bytes
    with its bitmap in block 3; the first eight blocks are in use. *)
Definition demo_fs : ext2_fs_t := mk_fs 1024 128 1 8192 1024 1 0 512.
Definition demo_bgd : ext2_bgd_t := mk_bgd 3 4 5 100 100 1 (replicate 14 0).
Definition demo_bm : buf := 255 :: replicate 1023 0.
Definition demo_disk : disk :=
  <[2 := replicate 512 0]> (<[6 := 255 :: replicate 511 0]> (<[7 := replicate 512 0]> ∅)).
Definition demo_st : ext2_st := mk_est demo_disk [demo_bgd] 100 100.
Definition demo_junk (n : Z) : buf := replicate (Z.to_nat n) 0.

Lemma demo_junk_ok : junk_ok demo_junk.
Proof. intros n Hn. apply length_replicate. Qed.

Lemma demo_ready : alloc_ready demo_fs (replicate 480 0) demo_st 0 demo_bgd demo_bm 8.
Proof.
  split; try (vm_compute; intuition congruence).
  - intros k y. cbn [dsk demo_st]. unfold demo_disk. rewrite !lookup_insert_Some.
    intros [[_ <-]|[_ [[_ <-]|[_ [[_ <-]|[_ Hy]]]]]]; [reflexivity..|]. by rewrite lookup_empty in Hy.
  - split; [eexists; vm_compute; reflexivity|]. split; [vm_compute; congruence|vm_compute; reflexivity].
  - intros j h Hj. lia.
  - intros k Hk. assert (k = 0 ∨ k = 1 ∨ k = 2 ∨ k = 3 ∨ k = 4 ∨ k = 5 ∨ k = 6 ∨ k = 7) as Hc by lia.
    destruct_or! Hc; subst k; vm_compute; reflexivity.
Qed.

Lemma alloc_free_block_witness :
  ∃ s', ext2_alloc_block demo_fs demo_junk (replicate 480 0) 77 demo_st = Done (8192 * 0 + 8, s') ∧
    bit_of demo_bm 8 = false ∧ bitmap_step demo_fs (replicate 480 0) demo_st s' 0 demo_bgd demo_bm 8 true (-1) ∧
    (0 = 0 → 8 < 8192 → 8192 < 2 ^ 31 →
     ∃ ret s'', ext2_free_block demo_fs demo_junk (replicate 480 0) (8192 * 0 + 8) s' = Done (ret, s'') ∧ 0 <= ret ∧
       group_desc s'' = group_desc demo_st ∧ s_free_blocks s'' = s_free_blocks demo_st ∧
       (∃ bm', block_data demo_fs s'' 3 = Some bm' ∧ ∀ k, 0 <= k → bit_of bm' k = bit_of demo_bm k) ∧
       ∀ b, b ≠ 3 → off_table demo_fs b → block_data demo_fs s'' b = block_data demo_fs demo_st b).
Proof.
  refine (alloc_free_block demo_fs demo_junk (replicate 480 0) demo_st 0 demo_bgd demo_bm 8 77 _ demo_junk_ok demo_ready _ _).
  - split; reflexivity.
  - discriminate.
  - split; reflexivity.
Defined.

(** When no group has a free block, the uninitialised local is the result. *)
Lemma alloc_block_none fs junk gd_tail s x0 :
  (∀ j, 0 <= j < groups_count fs → ∃ g, nthZ (group_desc s) j = Some g ∧ free_block_nums g = 0) →
  ext2_alloc_block fs junk gd_tail x0 s = Done (x0, s).
Proof.
  intros Hall. unfold ext2_alloc_block.
  assert (∀ n j, 0 <= j → j + Z.of_nat n <= groups_count fs → alloc_groups fs junk gd_tail n j x0 s = Done (x0, s)) as H.
  { intros n. induction n as [|n IH]; intros j Hj Hn; [done|]. cbn [alloc_groups].
    destruct (Hall j) as (g & -> & Hg); [lia|]. cbn [deref]. rewrite bind_done, Hg. cbn [Z.ltb Z.compare]. apply IH; lia. }
  destruct (decide (0 <= groups_count fs)).
  - apply H; lia.
  - by rewrite Z2Nat.nonpos by lia.
Qed.

(** With 1 KB blocks the first data block is 1: [ext2_alloc_block] numbers the first
    block of group 1 as 8192, [ext2_free_block] looks for it behind the bitmap of
    group 0. *)
Lemma free_block_wrong_group :
  ext2_free_block (mk_fs 1024 128 2 8192 1024 2 1 512) demo_junk [] 8192
    (mk_est demo_disk [demo_bgd; demo_bgd] 100 100) = Fail BadPtr.
Proof. vm_compute. reflexivity. Qed.

(** ** Inodes in their tables *)

Section inodes.
Context (fs : ext2_fs_t) (junk : Z → buf) (loc : Z * Z).
Context (Hgeom : geom fs) (Hjunk : junk_ok junk).

(** Inodes are a multiple of 128 bytes and fill a block. *)
Definition inode_geom : Prop :=
  0 < inode_size fs ∧ inode_size fs mod 128 = 0 ∧ blksize fs mod inode_size fs = 0 ∧
  0 < inode_per_grp fs ∧ inode_per_grp fs * inode_size fs < 2 ^ 32.
Context (Hig : inode_geom).
Notation per_block := (blksize fs / inode_size fs).

Definition group_of (n : Z) : Z := (n - 1) / inode_per_grp fs.
Definition index_of (n : Z) : Z := (n - 1) mod inode_per_grp fs.

(** Inode [n] of group descriptor [g] lies in this block, at this place. *)
Definition inode_block (g : ext2_bgd_t) (n : Z) : Z := inode_tbl_start g + index_of n / per_block.
Definition inode_slot (n : Z) : Z := index_of n mod per_block.

Lemma per_block_pos : 0 < per_block ∧ blksize fs = per_block * inode_size fs.
Proof.
  destruct Hig as (Hi & _ & Hm & _), Hgeom as [Hp _]. pose proof (Z.div_mod (blksize fs) (inode_size fs) ltac:(lia)).
  split; [|lia]. apply Z.div_str_pos. split; [done|]. apply Z.mod_divide in Hm; [|lia]. by apply Z.divide_pos_le.
Qed.

Lemma index_range n : 0 <= index_of n < inode_per_grp fs.
Proof. destruct Hig as (_ & _ & _ & Hp & _). apply Z.mod_pos_bound. lia. Qed.

Lemma inode_to_block_spec s n g : 1 <= n < 2 ^ 31 → nthZ (group_desc s) (group_of n) = Some g →
  0 <= inode_block g n < 2 ^ 31 →
  ext2_inode_to_block fs s n = Done (Some (inode_block g n, inode_slot n)).
Proof.
  intros Hn Hg Hb. unfold ext2_inode_to_block. rewrite (proj2 (Z.ltb_ge n 1)) by lia. rewrite (u32_small (n - 1)) by lia.
  fold (group_of n). fold (index_of n). rewrite Hg. cbn [deref]. rewrite bind_done.
  pose proof (index_range n). destruct per_block_pos as [Hpp He]. destruct Hig as (Hi & _ & _ & Hp & Hs).
  rewrite u32_small by nia.
  assert (index_of n * inode_size fs / blksize fs = index_of n / per_block) as ->.
  { rewrite He at 1. by rewrite Z.div_mul_cancel_r by lia. }
  fold (inode_block g n). rewrite s32_small by lia. done.
Qed.

(** Two inodes of one group are in different blocks or different slots. *)
Lemma inode_place_inj n n' : 1 <= n → 1 <= n' → group_of n = group_of n' →
  index_of n / per_block = index_of n' / per_block → inode_slot n = inode_slot n' → n = n'.
Proof.
  intros Hn Hn' Hg Hd Hs. destruct per_block_pos as [Hpp _]. destruct Hig as (_ & _ & _ & Hp & _).
  unfold inode_slot in Hs. pose proof (Z.div_mod (index_of n) per_block ltac:(lia)).
  pose proof (Z.div_mod (index_of n') per_block ltac:(lia)).
  assert (index_of n = index_of n') by congruence.
  pose proof (Z.div_mod (n - 1) (inode_per_grp fs) ltac:(lia)).
  pose proof (Z.div_mod (n' - 1) (inode_per_grp fs) ltac:(lia)). unfold group_of, index_of in *. congruence || lia.
Qed.

Lemma inode_pos_spec k : inode_pos fs k = k * inode_size fs.
Proof.
  destruct Hig as (_ & Hm & _). unfold inode_pos. pose proof (Z.div_mod (inode_size fs) 128 ltac:(lia)). lia.
Qed.

Lemma slot_in_block n (x : buf) : Z.of_nat (length x) = blksize fs →
  0 <= inode_slot n * inode_size fs ∧ inode_slot n * inode_size fs + inode_size fs <= Z.of_nat (length x).
Proof.
  intros ->. destruct per_block_pos as [Hpp He]. destruct Hig as (Hi & _).
  pose proof (Z.mod_pos_bound (index_of n) per_block Hpp). unfold inode_slot. nia.
Qed.

(** The bytes of inode [n] in its block. *)
Definition inode_bytes (x : buf) (n : Z) : buf :=
  take (Z.to_nat (inode_size fs)) (drop (Z.to_nat (inode_slot n * inode_size fs)) x).

Lemma read_inode_spec s n g b x : full_disk (dsk s) → 1 <= n < 2 ^ 31 → nthZ (group_desc s) (group_of n) = Some g →
  0 <= inode_block g n < 2 ^ 31 → valid fs (inode_block g n) → block_data fs s (inode_block g n) = Some x →
  Z.of_nat (length b) = inode_size fs →
  ext2_rw_inode fs junk loc s n b 0 = Done (0, inode_bytes x n, s).
Proof.
  intros Hf Hn Hg Hb Hv Hx Hl. unfold ext2_rw_inode. rewrite (inode_to_block_spec s n g), bind_done by done.
  cbn [default from_option id]. rewrite (read_block_junk fs junk Hgeom Hjunk s _ x) by done.
  pose proof (block_data_length fs Hgeom s _ _ Hf Hx) as Hlx. destruct Hgeom as [Hp _]. destruct Hig as (Hi & _).
  cbn [Z.eqb]. rewrite (proj2 (Z.ltb_ge _ 0)) by lia. rewrite inode_pos_spec. unfold sub_buf.
  destruct (slot_in_block n x Hlx) as [H1 H2]. rewrite (proj2 (Z.leb_le 0 (inode_size fs))), andb_true_r by lia.
  rewrite in_bounds_true, bind_done by done. fold (inode_bytes x n).
  assert (Hli : Z.of_nat (length (inode_bytes x n)) = inode_size fs) by (unfold inode_bytes; rewrite length_take, length_drop; lia).
  unfold put_buf. rewrite in_bounds_true, bind_done by lia. f_equal. f_equal. f_equal.
  rewrite drop_ge by lia. simpl. apply app_nil_r.
Qed.

Lemma write_inode_spec s n g b x : full_disk (dsk s) → 1 <= n < 2 ^ 31 → nthZ (group_desc s) (group_of n) = Some g →
  0 <= inode_block g n < 2 ^ 31 → valid fs (inode_block g n) → block_data fs s (inode_block g n) = Some x →
  Z.of_nat (length b) = inode_size fs →
  ∃ d x', ext2_rw_inode fs junk loc s n b 1 = Done (0, b, set_dsk d s) ∧ wrote fs s (inode_block g n) x' d ∧
    Z.of_nat (length x') = blksize fs ∧ inode_bytes x' n = b ∧
    ∀ n', inode_slot n' ≠ inode_slot n → inode_bytes x' n' = inode_bytes x n'.
Proof.
  intros Hf Hn Hg Hb Hv Hx Hl. unfold ext2_rw_inode. rewrite (inode_to_block_spec s n g), bind_done by done.
  cbn [default from_option id]. rewrite (read_block_junk fs junk Hgeom Hjunk s _ x) by done.
  pose proof (block_data_length fs Hgeom s _ _ Hf Hx) as Hlx. destruct Hgeom as [Hp _]. destruct Hig as (Hi & _).
  cbn [Z.eqb Pos.eqb]. rewrite (proj2 (Z.ltb_ge _ 0)) by lia.
  unfold sub_buf. rewrite (proj2 (Z.leb_le 0 (inode_size fs))), (proj2 (Z.leb_le (0 + inode_size fs) _)) by lia.
  cbn [andb Z.leb Z.compare]. rewrite bind_done, take_ge by (rewrite length_drop; lia). change (drop (Z.to_nat 0) b) with b.
  rewrite inode_pos_spec. unfold put_buf. destruct (slot_in_block n x Hlx) as [H1 H2].
  rewrite in_bounds_true, bind_done by lia.
  set (x' := take _ x ++ b ++ drop _ x).
  destruct (write_block fs Hgeom s (inode_block g n) x' x Hv Hx) as (d & -> & Hwr).
  rewrite (proj2 (Z.ltb_ge _ 0)) by lia. exists d, x'. split; [done|]. split; [done|].
  assert (Hlt : Z.of_nat (length (take (Z.to_nat (inode_slot n * inode_size fs)) x)) = inode_slot n * inode_size fs)
    by (rewrite length_take; lia).
  split; [unfold x'; rewrite !length_app, length_drop; lia|]. split.
  - unfold inode_bytes, x'. rewrite drop_app_length' by lia. by rewrite take_app_length' by lia.
  - intros n' Hne. destruct (slot_in_block n' x Hlx) as [H3 H4]. unfold inode_bytes. apply list_eq. intros i.
    destruct (decide (i < Z.to_nat (inode_size fs))%nat) as [Hlt'|]; [|by rewrite !lookup_take_ge by lia].
    rewrite !lookup_take_lt, !lookup_drop by done. unfold x'.
    destruct (decide (inode_slot n' < inode_slot n)).
    + rewrite lookup_app_l by nia. rewrite lookup_take_lt by nia. done.
    + rewrite lookup_app_r by nia. rewrite lookup_app_r by nia. rewrite lookup_drop. f_equal. nia.
Qed.
End inodes.

(** The groups' inode tables do not overlap, and all of them are on the disk. *)
Record inode_tables fs (s : ext2_st) : Prop := mk_tables {
  it_full : full_disk (dsk s);
  it_block n g : 1 <= n < 2 ^ 31 → nthZ (group_desc s) (group_of fs n) = Some g →
    0 <= inode_block fs g n < 2 ^ 31 ∧ valid fs (inode_block fs g n) ∧
    is_Some (block_data fs s (inode_block fs g n));
  it_disjoint n n' g g' : 1 <= n < 2 ^ 31 → 1 <= n' < 2 ^ 31 →
    nthZ (group_desc s) (group_of fs n) = Some g → nthZ (group_desc s) (group_of fs n') = Some g' →
    inode_block fs g n = inode_block fs g' n' → group_of fs n = group_of fs n';
}.

(** Inodes have disjoint places in the inode tables: after ext2_rw_inode has written inode n,
    reading n returns the bytes written, and reading any other inode of any group returns what it
    returned before. *)
Theorem inode_write_read fs junk loc s n n' g g' b b'
    (Hgeom : geom fs) (Hjunk : junk_ok junk) (Hig : inode_geom fs) (Ht : inode_tables fs s)
    (Hn : 1 <= n < 2 ^ 31) (Hn' : 1 <= n' < 2 ^ 31)
    (Hg : nthZ (group_desc s) (group_of fs n) = Some g) (Hg' : nthZ (group_desc s) (group_of fs n') = Some g')
    (Hb : Z.of_nat (length b) = inode_size fs) (Hb' : Z.of_nat (length b') = inode_size fs) :
  ∃ s', ext2_rw_inode fs junk loc s n b 1 = Done (0, b, s') ∧
    ext2_rw_inode fs junk loc s' n b' 0 = Done (0, b, s') ∧
    (n' ≠ n → ∃ x, ext2_rw_inode fs junk loc s n' b' 0 = Done (0, x, s) ∧
                   ext2_rw_inode fs junk loc s' n' b' 0 = Done (0, x, s')).
Proof.
  destruct (it_block _ _ Ht n g Hn Hg) as (Hr & Hv & [x Hx]).
  destruct (it_block _ _ Ht n' g' Hn' Hg') as (Hr' & Hv' & [y Hy]).
  pose proof (it_full _ _ Ht) as Hf.
  destruct (write_inode_spec fs junk loc Hgeom Hjunk Hig s n g b x) as (d & x' & Hw & Hwr & Hl' & Hsame & Hother);
    try done.
  assert (Hf' : full_disk (dsk (set_dsk d s))) by (eapply wrote_full; [done|exact Hf|exact Hwr|lia]).
  assert (Hx' : block_data fs (set_dsk d s) (inode_block fs g n) = Some x') by (eapply wrote_same; done).
  exists (set_dsk d s). split; [done|]. split.
  - rewrite (read_inode_spec fs junk loc Hgeom Hjunk Hig (set_dsk d s) n g b' x') by done. by rewrite Hsame.
  - intros Hne. exists (inode_bytes fs y n').
    rewrite (read_inode_spec fs junk loc Hgeom Hjunk Hig s n' g' b' y) by done. split; [done|].
    destruct (decide (inode_block fs g' n' = inode_block fs g n)) as [He|He].
    + assert (Hgr : group_of fs n' = group_of fs n) by (eapply (it_disjoint _ _ Ht); done).
      assert (g' = g) as -> by congruence. assert (y = x) as -> by congruence.
      rewrite (read_inode_spec fs junk loc Hgeom Hjunk Hig (set_dsk d s) n' g b' x') by (done || by rewrite He).
      rewrite Hother; [done|]. intros Hs. apply Hne. eapply (inode_place_inj fs Hgeom Hig); try done; try lia.
      unfold inode_block in He. lia.
    + rewrite (read_inode_spec fs junk loc Hgeom Hjunk Hig (set_dsk d s) n' g' b' y); try done.
      rewrite <- Hy. eapply wrote_other; done.
Qed.

(** One group with the inodes 1 to 8 in block 3 of the disk above. *)
Definition demo_inodes : ext2_fs_t := mk_fs 1024 128 1 8192 8 1 0 512.
Definition demo_tbl : ext2_st := mk_est demo_disk [mk_bgd 1 2 3 0 0 0 (replicate 14 0)] 0 0.

Lemma demo_tables : inode_tables demo_inodes demo_tbl.
Proof.
  assert (Hone : ∀ n g, 1 <= n < 2 ^ 31 → nthZ (group_desc demo_tbl) (group_of demo_inodes n) = Some g →
    inode_block demo_inodes g n = 3 ∧ group_of demo_inodes n = 0).
  { intros n g Hn Hg. pose proof (nthZ_Some _ _ _ Hg) as Hr. cbn [group_desc demo_tbl length] in Hr.
    assert (Hz : group_of demo_inodes n = 0) by lia. rewrite Hz in Hg. injection Hg as <-. split; [|done].
    unfold inode_block, index_of. cbn [inode_tbl_start inode_per_grp demo_inodes blksize inode_size].
    pose proof (Z.mod_pos_bound (n - 1) 8 ltac:(lia)).
    change (1024 / 128) with 8. rewrite Z.div_small by lia. done. }
  split.
  - apply (ar_full _ _ _ _ _ _ _ demo_ready).
  - intros n g Hn Hg. destruct (Hone n g Hn Hg) as [-> _]. split; [lia|]. split; [split; vm_compute; congruence|].
    eexists. vm_compute. reflexivity.
  - intros n n' g g' Hn Hn' Hg Hg' _. destruct (Hone n g Hn Hg) as [_ ->], (Hone n' g' Hn' Hg') as [_ ->]. done.
Qed.

Lemma inode_write_read_witness :
  ∃ s', ext2_rw_inode demo_inodes demo_junk (0, 0) demo_tbl 2 (replicate 128 7) 1 = Done (0, replicate 128 7, s') ∧
    ext2_rw_inode demo_inodes demo_junk (0, 0) s' 2 (replicate 128 0) 0 = Done (0, replicate 128 7, s') ∧
    (3 ≠ 2 → ∃ x, ext2_rw_inode demo_inodes demo_junk (0, 0) demo_tbl 3 (replicate 128 0) 0 = Done (0, x, demo_tbl) ∧
                  ext2_rw_inode demo_inodes demo_junk (0, 0) s' 3 (replicate 128 0) 0 = Done (0, x, s')).
Proof.
  refine (inode_write_read demo_inodes demo_junk (0, 0) demo_tbl 2 3
    (mk_bgd 1 2 3 0 0 0 (replicate 14 0)) (mk_bgd 1 2 3 0 0 0 (replicate 14 0)) (replicate 128 7) (replicate 128 0)
    _ demo_junk_ok _ demo_tables _ _ _ _ _ _); try reflexivity.
  - split; reflexivity.
  - split; [reflexivity|]. split; [reflexivity|]. split; [reflexivity|]. split; reflexivity.
  - split; [discriminate|reflexivity].
  - split; [discriminate|reflexivity].
Defined.
