(* ===== verification/Ext2Map.v ===== *)
(** * The ext2 file system: the block map of an inode ([Kernel/ext2.c])

    [ext2_inode_rw_real_block] gets or sets the block on disk of block [n] of a
    file, through up to three levels of index blocks.  The inode is the buffer of
    its bytes; [put] stands for [mode == 1] (the callers pass 0 or 1). *)

From S2P Require Import Prelude Ext2Disk.

(** ** Fields of the inode ([struct ext2_inode]) *)

Definition off_i_mode := 0.
Definition off_i_size := 4.
Definition off_i_atime := 8.
Definition off_i_mtime := 16.
Definition off_i_link_cnt := 26.
Definition off_i_sector_cnt := 28.
(** [i_block[k]]; outside the array there is no such member. *)
Definition get_i_block (inode : buf) (k : Z) : outcome Z :=
  if (0 <=? k) && (k <? 15) then get_le 4 (40 + 4 * k) inode else Fail BadPtr.
Definition set_i_block (inode : buf) (k v : Z) : outcome buf :=
  if (0 <=? k) && (k <? 15) then put_le 4 (40 + 4 * k) v inode else Fail BadPtr.

Section map.
Context (fs : ext2_fs_t) (junk : Z → buf) (gd_tail : buf).
(** What [ext2_alloc_block] returns when no group has a free block. *)
Context (x0 : Z).

Definition add_sectors (inode : buf) : outcome buf :=
  c ← get_le 4 off_i_sector_cnt inode;
  put_le 4 off_i_sector_cnt (u32 (c + blksize fs / 512)) inode.

(** A step on the way down: the function returns, or goes on with an index block. *)
Inductive bstep : Type :=
| Ret (ret real : Z) (inode : buf) (s : ext2_st)
| Go (block : Z) (inode : buf) (s : ext2_st).

(** [if (inode->i_block[k] == 0) ...]: the block at the root of a tree. *)
Definition need_root (put : bool) (k real : Z) (inode : buf) (s : ext2_st) : outcome bstep :=
  v ← get_i_block inode k;
  if negb (v =? 0) then Done (Go v inode s) else
  if negb put then Done (Ret 0 0 inode s) else
  '(rb, s) ← ext2_alloc_block fs junk gd_tail x0 s;
  _ ← assert_ (negb (rb =? -1));
  inode ← set_i_block inode k rb;
  inode ← add_sectors inode;
  Done (Go (u32 rb) inode s).

(** The index block [parent] is read, and its entry [b] followed. *)
Definition need_entry (put : bool) (parent b real : Z) (inode : buf) (s : ext2_st) : outcome bstep :=
  let '(ret, tmp, s) := ext2_rw_block fs s parent (junk (blksize fs)) 0 in
  if ret =? -1 then Done (Ret (-1) real inode s) else
  sblock ← get_le 4 (4 * b) tmp;
  if negb (sblock =? 0) then Done (Go sblock inode s) else
  if negb put then Done (Ret 0 0 inode s) else
  '(rb, s) ← ext2_alloc_block fs junk gd_tail x0 s;
  _ ← assert_ (negb (rb =? -1));
  tmp ← put_le 4 (4 * b) rb tmp;
  let '(ret, tmp, s) := ext2_rw_block fs s parent tmp 1 in
  if ret =? -1 then Done (Ret (-1) real inode s) else
  inode ← add_sectors inode;
  Done (Go (u32 rb) inode s).

(** The entry of the last index block is read or written. *)
Definition last_entry (put : bool) (block e real : Z) (inode : buf) (s : ext2_st) : outcome (Z * Z * buf * ext2_st) :=
  let '(ret, tmp, s) := ext2_rw_block fs s block (junk (blksize fs)) 0 in
  if ret =? -1 then Done (-1, real, inode, s) else
  if negb put then v ← get_le 4 (4 * e) tmp; Done (s32 v, s32 v, inode, s) else
  tmp ← put_le 4 (4 * e) real tmp;
  let '(ret, tmp, s) := ext2_rw_block fs s block tmp 1 in
  if ret =? -1 then Done (-1, real, inode, s) else Done (real, real, inode, s).

Definition and_then (r : outcome bstep) (k : Z → buf → ext2_st → outcome (Z * Z * buf * ext2_st)) :=
  r ← r; match r with Ret ret real inode s => Done (ret, real, inode, s) | Go b inode s => k b inode s end.
Definition and_go (r : outcome bstep) (k : Z → buf → ext2_st → outcome bstep) : outcome bstep :=
  r ← r; match r with Ret ret real inode s => Done (Ret ret real inode s) | Go b inode s => k b inode s end.

(** The value returned, [*real_block] afterwards, the inode and the state. *)
Definition ext2_inode_rw_real_block (s : ext2_st) (inode : buf) (block_no real : Z) (put : bool)
    : outcome (Z * Z * buf * ext2_st) :=
  let one := blksize fs / 4 in
  let singly_indirect_end := u32 (12 + one) in
  let doubly_indirect_end := u32 (singly_indirect_end + one * one) in
  let triply_indirect_end := u32 (doubly_indirect_end + one * one * one) in
  if block_no <? 12 then
    if negb put then v ← get_i_block inode block_no; Done (s32 v, s32 v, inode, s)
    else inode ← set_i_block inode block_no real; Done (real, real, inode, s)
  else if u32 block_no <? singly_indirect_end then
    and_then (need_root put 12 real inode s) (λ b inode s, last_entry put b (block_no - 12) real inode s)
  else if u32 block_no <? doubly_indirect_end then
    let a := s32 (block_no - singly_indirect_end) in
    let b := a / one in
    let c := a - b * one in
    and_then (and_go (need_root put 13 real inode s) (λ r inode s, need_entry put r b real inode s))
      (λ sblock inode s, last_entry put sblock c real inode s)
  else if u32 block_no <? triply_indirect_end then
    let a := s32 (block_no - doubly_indirect_end) in
    let b := a / (one * one) in
    let c := a - b * (one * one) in
    let d := c / one in
    let e := c - d * one in
    and_then
      (and_go (and_go (need_root put 14 real inode s) (λ r inode s, need_entry put r b real inode s))
        (λ sblock inode s, need_entry put sblock d real inode s))
      (λ sblock1 inode s, last_entry put sblock1 e real inode s)
  else Done (-1, real, inode, s).

(** [real0]: the uninitialised local that receives the block number. *)
Definition ext2_inode_read_block (s : ext2_st) (inode : buf) (block_no : Z) (b : buf) (real0 : Z) : outcome (Z * buf) :=
  '(_, real, _, s) ← ext2_inode_rw_real_block s inode block_no real0 false;
  if real =? -1 then Done (-1, b) else
  if real =? 0 then Done (0, b) else
  let '(ret, b, _) := ext2_rw_block fs s real b 0 in
  if ret =? -1 then Done (-1, b) else Done (real, b).
End map.

(** ** The reference: a walk down the tree *)

Section reference.
Context (fs : ext2_fs_t) (junk : Z → buf) (gd_tail : buf) (x0 : Z).
Context (Hgeom : geom fs) (Hjunk : junk_ok junk).
Notation one := (blksize fs / 4).
Notation rw := (ext2_inode_rw_real_block fs junk gd_tail x0).

(** Blocks of 1, 2 or 4 KB: the ends of the ranges are below 2^31. *)
Definition map_geom : Prop := blksize fs <= 4096.
Context (Hmg : map_geom).

Definition sing : Z := 12 + one.
Definition doub : Z := sing + one * one.
Definition trip : Z := doub + one * one * one.

(** Which member of [i_block], and which entries of the index blocks below it. *)
Definition block_path (n : Z) : Z * list Z :=
  if n <? 12 then (n, [])
  else if n <? sing then (12, [n - 12])
  else if n <? doub then (13, [(n - sing) / one; (n - sing) mod one])
  else (14, [(n - doub) / (one * one); (n - doub) mod (one * one) / one; (n - doub) mod (one * one) mod one]).

Definition word (x : buf) (i : Z) : option Z :=
  match get_le 4 (4 * i) x with Done v => Some v | Fail _ => None end.

(** Follow the entries; a zero on the way is a hole.  [None] when an index block is
    not a block of the disk. *)
Fixpoint walk (s : ext2_st) (b : Z) (idx : list Z) : option Z :=
  match idx with
  | [] => Some b
  | i :: idx =>
      if b =? 0 then Some 0 else
      if decide (valid fs b) then x ← block_data fs s b; w ← word x i; walk s w idx else None
  end.
Definition bmap (s : ext2_st) (inode : buf) (n : Z) : option Z :=
  match get_i_block inode (block_path n).1 with Done r => walk s r (block_path n).2 | Fail _ => None end.

Lemma one_pos : 128 <= one <= 1024.
Proof.
  destruct Hgeom as [Hp Hm]. pose proof (Z.div_mod (blksize fs) 512 ltac:(lia)). unfold map_geom in Hmg.
  assert (blksize fs = 4 * (128 * (blksize fs / 512))) as -> by lia.
  rewrite Z.mul_comm, Z.div_mul by lia. lia.
Qed.

Lemma ends : 12 < sing ∧ sing < doub ∧ doub < trip ∧ trip < 2 ^ 31.
Proof. pose proof one_pos. unfold trip, doub, sing. nia. Qed.

(** The indices lie in their index blocks. *)
Lemma path_entries n : 0 <= n < trip → Forall (λ i, 0 <= i < one) (block_path n).2.
Proof.
  intros Hn. pose proof one_pos as Ho. pose proof ends. unfold block_path.
  destruct (Z.ltb_spec n 12); [constructor|].
  destruct (Z.ltb_spec n sing); [repeat constructor; unfold sing in *; lia|].
  destruct (Z.ltb_spec n doub).
  - pose proof (Z.mod_pos_bound (n - sing) one ltac:(lia)). repeat constructor; try lia; [apply Z.div_pos; lia|].
    apply Z.div_lt_upper_bound; [lia|]. unfold doub in *. lia.
  - pose proof (Z.mod_pos_bound (n - doub) (one * one) ltac:(nia)).
    set (c := (n - doub) mod (one * one)) in *. pose proof (Z.mod_pos_bound c one ltac:(lia)).
    repeat constructor; try lia; try (apply Z.div_pos; nia); apply Z.div_lt_upper_bound; try nia.
    unfold trip in *. nia.
Qed.

(** Different blocks of a file have different paths. *)
Lemma path_inj n n' : 0 <= n < trip → 0 <= n' < trip → block_path n = block_path n' → n = n'.
Proof.
  intros Hn Hn'. pose proof one_pos as Ho. pose proof ends. unfold block_path.
  pose proof (Z.div_mod (n - sing) one ltac:(lia)). pose proof (Z.div_mod (n' - sing) one ltac:(lia)).
  assert (0 < one * one) by nia.
  pose proof (Z.div_mod (n - doub) (one * one) ltac:(lia)). pose proof (Z.div_mod (n' - doub) (one * one) ltac:(lia)).
  pose proof (Z.div_mod ((n - doub) mod (one * one)) one ltac:(lia)).
  pose proof (Z.div_mod ((n' - doub) mod (one * one)) one ltac:(lia)).
  destruct (Z.ltb_spec n 12), (Z.ltb_spec n' 12), (Z.ltb_spec n sing), (Z.ltb_spec n' sing),
    (Z.ltb_spec n doub), (Z.ltb_spec n' doub); intros He; try lia; injection He; intros; try lia; try congruence.
Qed.

Lemma path_depth n n' : 0 <= n < trip → 0 <= n' < trip → (block_path n).1 = (block_path n').1 →
  length (block_path n).2 = length (block_path n').2.
Proof.
  unfold block_path. destruct (Z.ltb_spec n 12), (Z.ltb_spec n' 12), (n <? sing), (n' <? sing), (n <? doub), (n' <? doub);
    simpl; intros; try done; lia.
Qed.

(** ** The steps, when nothing is allocated *)

Lemma word_get x i w : word x i = Some w → get_le 4 (4 * i) x = Done w.
Proof. unfold word. destruct (get_le _ _ _); [by intros [= ->]|done]. Qed.

Lemma rw_block_read s b x y : full_disk (dsk s) → valid fs b → block_data fs s b = Some x →
  Z.of_nat (length y) = blksize fs → ext2_rw_block fs s b y 0 = (0, x, s).
Proof.
  intros Hf Hv Hx Hy. unfold ext2_rw_block. cbn [Z.eqb]. rewrite (read_block fs Hgeom s b x) by done.
  destruct Hgeom as [Hp _]. by rewrite (proj2 (Z.eqb_neq (blksize fs) (-1))) by lia.
Qed.

Lemma rw_block_write s b x y : valid fs b → block_data fs s b = Some y →
  ∃ d, ext2_rw_block fs s b x 1 = (0, x, set_dsk d s) ∧ wrote fs s b x d.
Proof.
  intros Hv Hy. destruct (write_block fs Hgeom s b x y Hv Hy) as (d & Hw & Hwr). exists d. split; [|done].
  unfold ext2_rw_block. cbn [Z.eqb Pos.eqb]. rewrite Hw.
  destruct Hgeom as [Hp _]. by rewrite (proj2 (Z.eqb_neq (blksize fs) (-1))) by lia.
Qed.

Lemma junk_block : Z.of_nat (length (junk (blksize fs))) = blksize fs.
Proof. destruct Hgeom as [Hp _]. rewrite Hjunk by lia. lia. Qed.

Lemma need_root_go put k real inode s r : get_i_block inode k = Done r → r ≠ 0 →
  need_root fs junk gd_tail x0 put k real inode s = Done (Go r inode s).
Proof. intros Hr Hz. unfold need_root. rewrite Hr, bind_done. by rewrite (proj2 (Z.eqb_neq r 0)). Qed.

Lemma need_root_hole k real inode s : get_i_block inode k = Done 0 →
  need_root fs junk gd_tail x0 false k real inode s = Done (Ret 0 0 inode s).
Proof. intros Hr. unfold need_root. by rewrite Hr, bind_done. Qed.

Lemma need_entry_go put p i real inode s x w : full_disk (dsk s) → valid fs p → block_data fs s p = Some x →
  word x i = Some w → w ≠ 0 → need_entry fs junk gd_tail x0 put p i real inode s = Done (Go w inode s).
Proof.
  intros Hf Hv Hx Hw Hz. unfold need_entry. rewrite (rw_block_read s p x) by (done || apply junk_block).
  cbn [Z.eqb]. rewrite (word_get x i w), bind_done by done. by rewrite (proj2 (Z.eqb_neq w 0)).
Qed.

Lemma need_entry_hole p i real inode s x : full_disk (dsk s) → valid fs p → block_data fs s p = Some x →
  word x i = Some 0 → need_entry fs junk gd_tail x0 false p i real inode s = Done (Ret 0 0 inode s).
Proof.
  intros Hf Hv Hx Hw. unfold need_entry. rewrite (rw_block_read s p x) by (done || apply junk_block).
  cbn [Z.eqb]. by rewrite (word_get x i 0), bind_done by done.
Qed.

Lemma last_entry_get p i real inode s x w : full_disk (dsk s) → valid fs p → block_data fs s p = Some x →
  word x i = Some w → last_entry fs junk false p i real inode s = Done (s32 w, s32 w, inode, s).
Proof.
  intros Hf Hv Hx Hw. unfold last_entry. rewrite (rw_block_read s p x) by (done || apply junk_block).
  cbn [Z.eqb negb]. by rewrite (word_get x i w), bind_done by done.
Qed.

Lemma last_entry_put p i real inode s x x' : full_disk (dsk s) → valid fs p → block_data fs s p = Some x →
  put_le 4 (4 * i) real x = Done x' →
  ∃ d, last_entry fs junk true p i real inode s = Done (real, real, inode, set_dsk d s) ∧ wrote fs s p x' d.
Proof.
  intros Hf Hv Hx Hp. unfold last_entry. rewrite (rw_block_read s p x) by (done || apply junk_block).
  cbn [Z.eqb negb]. rewrite Hp, bind_done. destruct (rw_block_write s p x' x Hv Hx) as (d & -> & Hwr).
  cbn [Z.eqb]. eauto.
Qed.

(** One step of the walk. *)
Lemma walk_cons s b i idx r : walk s b (i :: idx) = Some r →
  (b = 0 ∧ r = 0) ∨
  (b ≠ 0 ∧ valid fs b ∧ ∃ x w, block_data fs s b = Some x ∧ word x i = Some w ∧ walk s w idx = Some r).
Proof.
  cbn [walk]. destruct (Z.eqb_spec b 0) as [->|Hb]; [intros [= <-]; by left|]. right. split; [done|].
  destruct (decide (valid fs b)) as [Hv|]; [|done].
  destruct (block_data fs s b) as [x|]; [|done]. simpl in *.
  destruct (word x i) as [w|] eqn:E; [|done]. simpl in *. eauto 10.
Qed.

(** Solve one step of a get; [W] is the walk from the current block. *)
Ltac get_step W :=
  apply walk_cons in W as [[-> ->]|(? & ? & ? & ? & ? & ? & W)].

Lemma range_cases n : 12 <= n < trip →
  (u32 n = n) ∧ u32 (12 + one) = sing ∧ u32 (sing + one * one) = doub ∧ u32 (doub + one * one * one) = trip.
Proof.
  intros Hn. pose proof ends. pose proof one_pos.
  split_and!; [apply u32_small; lia|..]; unfold trip, doub, sing in *; apply u32_small; lia.
Qed.

(** A get is the walk. *)
Lemma rw_get s inode n real r : full_disk (dsk s) → 0 <= n < trip → bmap s inode n = Some r →
  rw s inode n real false = Done (s32 r, s32 r, inode, s).
Proof.
  intros Hf Hn Hb. unfold ext2_inode_rw_real_block. unfold bmap, block_path in Hb. pose proof ends as He. pose proof one_pos as Hone.
  destruct (Z.ltb_spec n 12).
  { cbn [fst snd] in Hb. destruct (get_i_block inode n) as [v|]; [|done]. injection Hb as ->. by cbn [negb]. }
  destruct (range_cases n ltac:(lia)) as (-> & -> & -> & ->).
  destruct (Z.ltb_spec n sing).
  { cbn [fst snd] in Hb. destruct (get_i_block inode 12) as [v|] eqn:E; [|done]. get_step Hb.
    - by rewrite need_root_hole.
    - rewrite (need_root_go _ _ _ _ _ v) by done. cbn [and_then]. unfold and_then. rewrite bind_done.
      injection Hb as <-. by eapply last_entry_get. }
  destruct (Z.ltb_spec n doub).
  { rewrite (s32_small (n - sing)) by lia. cbn [fst snd] in Hb. destruct (get_i_block inode 13) as [v|] eqn:E; [|done].
    rewrite Z.mod_eq in Hb by lia. replace (one * ((n - sing) / one)) with ((n - sing) / one * one) in Hb by lia.
    get_step Hb; [by rewrite need_root_hole|]. rewrite (need_root_go _ _ _ _ _ v) by done.
    unfold and_then, and_go. rewrite !bind_done. get_step Hb.
    - by erewrite need_entry_hole by done.
    - erewrite need_entry_go by done. rewrite bind_done. injection Hb as <-. by eapply last_entry_get. }
  rewrite (proj2 (Z.ltb_lt n trip)) by lia. rewrite (s32_small (n - doub)) by lia. cbn [fst snd] in Hb.
  destruct (get_i_block inode 14) as [v|] eqn:E; [|done].
  rewrite (Z.mod_eq _ one), (Z.mod_eq _ (one * one)) in Hb by nia.
  replace (one * one * ((n - doub) / (one * one))) with ((n - doub) / (one * one) * (one * one)) in Hb by lia.
  set (c := n - doub - (n - doub) / (one * one) * (one * one)) in *.
  replace (one * (c / one)) with (c / one * one) in Hb by lia.
  get_step Hb; [by rewrite need_root_hole|]. rewrite (need_root_go _ _ _ _ _ v) by done.
  unfold and_then, and_go. rewrite !bind_done.
  get_step Hb; [by erewrite need_entry_hole by done|]. erewrite need_entry_go by done. rewrite bind_done.
  get_step Hb; [by erewrite need_entry_hole by done|]. erewrite need_entry_go by done. rewrite bind_done.
  injection Hb as <-. by eapply last_entry_get.
Qed.

(** The index block that holds the entry of block [n], and the entry. *)
Definition leaf (s : ext2_st) (inode : buf) (n : Z) : option Z :=
  match get_i_block inode (block_path n).1 with
  | Done r => walk s r (removelast (block_path n).2)
  | Fail _ => None
  end.
Definition entry (n : Z) : Z := List.last (block_path n).2 0.

Lemma rw_put s inode n real L x x' : full_disk (dsk s) → 12 <= n < trip → leaf s inode n = Some L → L ≠ 0 →
  valid fs L → block_data fs s L = Some x → put_le 4 (4 * entry n) real x = Done x' →
  ∃ d, rw s inode n real true = Done (real, real, inode, set_dsk d s) ∧ wrote fs s L x' d.
Proof.
  intros Hf Hn HL Hz Hv Hx Hp. unfold ext2_inode_rw_real_block. unfold leaf, entry, block_path in *.
  pose proof ends as He. pose proof one_pos as Hone.
  rewrite (proj2 (Z.ltb_ge n 12)) in * by lia. destruct (range_cases n Hn) as (-> & -> & -> & ->).
  destruct (Z.ltb_spec n sing).
  { cbn [fst snd removelast List.last] in *. destruct (get_i_block inode 12) as [v|] eqn:E; [|done].
    injection HL as ->. unfold and_then. rewrite (need_root_go _ _ _ _ _ L), bind_done by done.
    by eapply last_entry_put. }
  destruct (Z.ltb_spec n doub).
  { rewrite (s32_small (n - sing)) by lia. cbn [fst snd removelast List.last] in *.
    destruct (get_i_block inode 13) as [v|] eqn:E; [|done].
    rewrite Z.mod_eq in Hp by lia. replace (one * ((n - sing) / one)) with ((n - sing) / one * one) in Hp by lia.
    get_step HL; [done|]. unfold and_then, and_go. rewrite (need_root_go _ _ _ _ _ v), !bind_done by done.
    injection HL as ->. erewrite need_entry_go by done. rewrite bind_done. by eapply last_entry_put. }
  rewrite (proj2 (Z.ltb_lt n trip)) by lia. rewrite (s32_small (n - doub)) by lia.
  cbn [fst snd removelast List.last] in *. destruct (get_i_block inode 14) as [v|] eqn:E; [|done].
  rewrite (Z.mod_eq _ one), (Z.mod_eq _ (one * one)) in Hp by nia.
  rewrite (Z.mod_eq _ (one * one)) in HL by nia.
  replace (one * one * ((n - doub) / (one * one))) with ((n - doub) / (one * one) * (one * one)) in * by lia.
  set (c := n - doub - (n - doub) / (one * one) * (one * one)) in *.
  replace (one * (c / one)) with (c / one * one) in Hp by lia.
  get_step HL; [done|]. unfold and_then, and_go. rewrite (need_root_go _ _ _ _ _ v), !bind_done by done.
  get_step HL; [done|]. erewrite need_entry_go by done. rewrite bind_done. injection HL as ->.
  erewrite need_entry_go by done. rewrite bind_done. by eapply last_entry_put.
Qed.

(** A direct block is set in the inode itself. *)
Lemma rw_put_direct s inode n real inode' : n < 12 → set_i_block inode n real = Done inode' →
  rw s inode n real true = Done (real, real, inode', s).
Proof.
  intros Hn Hs. unfold ext2_inode_rw_real_block. rewrite (proj2 (Z.ltb_lt n 12)) by done. cbn [negb].
  by rewrite Hs, bind_done.
Qed.

(** ** What a put changes *)

Lemma word_put x i v x' : put_le 4 (4 * i) v x = Done x' → 0 <= v < 2 ^ 32 → word x' i = Some v.
Proof. intros Hp Hv. unfold word. by rewrite (get_put_le 4 _ v x). Qed.
Lemma word_put_ne x i j v x' : put_le 4 (4 * i) v x = Done x' → j ≠ i → word x' j = word x j.
Proof. intros Hp Hne. unfold word. rewrite (get_put_le_ne 4 4 (4 * i) (4 * j) v x x'); [done|done|lia]. Qed.

(** The walk is the same when it does not pass the changed word [e] of block [L]. *)
Lemma walk_frame s s' L e x x' : block_data fs s L = Some x → block_data fs s' L = Some x' →
  (∀ b, b ≠ L → block_data fs s' b = block_data fs s b) → (∀ j, j ≠ e → word x' j = word x j) →
  ∀ idx b, (∀ j c, walk s b (take j idx) = Some c → c = L → c ≠ 0 → idx !! j ≠ Some e) →
  walk s' b idx = walk s b idx.
Proof.
  intros Hx Hx' Ho Hw idx. induction idx as [|i idx IH]; intros b Hpass; [done|]. cbn [walk].
  destruct (Z.eqb_spec b 0) as [->|Hb]; [done|]. destruct (decide (valid fs b)) as [Hv|]; [|done].
  assert (Hsame : (x ← block_data fs s' b; word x i) = (x ← block_data fs s b; word x i)).
  { destruct (decide (b = L)) as [->|Hne].
    - rewrite Hx, Hx'. simpl. apply Hw. intros ->. by apply (Hpass 0%nat L).
    - by rewrite Ho. }
  destruct (block_data fs s b) as [y|] eqn:Ey, (block_data fs s' b) as [y'|]; simpl in Hsame |- *; try done.
  - rewrite Hsame. destruct (word y i) as [w|] eqn:Ew; [|done]. simpl. apply IH. intros j c Hc.
    apply (Hpass (Datatypes.S j) c). cbn [take walk]. rewrite (proj2 (Z.eqb_neq b 0)) by done.
    rewrite decide_True by done. rewrite Ey. simpl. by rewrite Ew.
  - by destruct (word y i).
  - by rewrite Hsame.
Qed.

Lemma walk_last s b idx L e x w : walk s b idx = Some L → L ≠ 0 → valid fs L → block_data fs s L = Some x →
  word x e = Some w → walk s b (idx ++ [e]) = Some w.
Proof.
  intros HL Hz Hv Hx Hw. revert b HL. induction idx as [|i idx IH]; intros b HL.
  - injection HL as ->. cbn [app walk]. rewrite (proj2 (Z.eqb_neq L 0)), decide_True by done.
    rewrite Hx. simpl. by rewrite Hw.
  - apply walk_cons in HL as [[-> ->]|(Hb & Hvb & y & v & Hy & Hv' & HL)]; [done|].
    cbn [app walk]. rewrite (proj2 (Z.eqb_neq b 0)), decide_True by done. rewrite Hy. simpl. rewrite Hv'. simpl. by apply IH.
Qed.

(** The index blocks of a file: which block is at which place of the tree, and that
    no block is at two places. *)
Definition index_at (s : ext2_st) (inode : buf) (n : Z) (j : nat) (b : Z) : Prop :=
  ∃ r, get_i_block inode (block_path n).1 = Done r ∧ walk s r (take j (block_path n).2) = Some b ∧ b ≠ 0 ∧
       (j < length (block_path n).2)%nat.
Definition is_tree (s : ext2_st) (inode : buf) : Prop :=
  ∀ n n' j j' b, 0 <= n < trip → 0 <= n' < trip → index_at s inode n j b → index_at s inode n' j' b →
    (block_path n).1 = (block_path n').1 ∧ take j (block_path n).2 = take j' (block_path n').2.

Lemma path_split n : 12 <= n → (block_path n).2 = removelast (block_path n).2 ++ [entry n] ∧
  (1 <= length (block_path n).2)%nat.
Proof.
  intros Hn. unfold entry. assert ((block_path n).2 ≠ []) as Hne.
  { unfold block_path. rewrite (proj2 (Z.ltb_ge n 12)) by lia. by destruct (n <? sing), (n <? doub). }
  split; [by apply app_removelast_last|]. destruct (block_path n).2; [done|simpl; lia].
Qed.

Lemma take_removelast (l : list Z) e : l = removelast l ++ [e] →
  take (length (removelast l)) l = removelast l ∧ length l = Datatypes.S (length (removelast l)).
Proof.
  intros Hs. set (p := removelast l) in *. rewrite Hs. split; [apply take_app_length|]. rewrite length_app. simpl. lia.
Qed.

Lemma leaf_index s inode n L : 12 <= n → leaf s inode n = Some L → L ≠ 0 →
  index_at s inode n (length (removelast (block_path n).2)) L.
Proof.
  intros Hn HL Hz. destruct (path_split n Hn) as [Hs Hlen]. unfold leaf in HL. unfold index_at.
  destruct (get_i_block inode (block_path n).1) as [r|]; [|done]. exists r. split; [done|].
  destruct (take_removelast _ _ Hs) as [-> ->]. split; [done|]. split; [done|lia].
Qed.

(** The word changed by a put is on the way of no other block. *)
Lemma put_frame s s' inode n n' L x x' : is_tree s inode → 12 <= n < trip → 0 <= n' < trip → n' ≠ n →
  leaf s inode n = Some L → L ≠ 0 → block_data fs s L = Some x → block_data fs s' L = Some x' →
  (∀ b, b ≠ L → block_data fs s' b = block_data fs s b) → (∀ j, j ≠ entry n → word x' j = word x j) →
  bmap s' inode n' = bmap s inode n'.
Proof.
  intros Ht Hn Hn' Hne HL Hz Hx Hx' Ho Hw. unfold bmap.
  destruct (get_i_block inode (block_path n').1) as [r|] eqn:Er; [|done].
  eapply (walk_frame s s' L (entry n)); try done.
  intros j c Hc -> _ He. apply Hne. apply path_inj; try lia.
  assert (Hj : (j < length (block_path n').2)%nat) by (by eapply lookup_lt_Some).
  destruct (Ht n n' (length (removelast (block_path n).2)) j L) as [H1 H2]; try lia.
  { apply leaf_index; done || lia. }
  { exists r. done. }
  destruct (path_split n) as [Hs _]; [lia|].
  pose proof (path_depth n n' ltac:(lia) Hn' H1) as Hd.
  destruct (take_removelast _ _ Hs) as [Htk Hl].
  assert (Hjj : j = length (removelast (block_path n).2)).
  { apply (f_equal length) in H2. rewrite !length_take in H2. lia. }
  assert ((block_path n').2 = (block_path n).2) as Hp2.
  { rewrite Htk in H2. rewrite Hs, H2.
    rewrite <- (take_drop j (block_path n').2) at 1. f_equal. apply list_eq. intros [|k].
    - rewrite lookup_drop, Nat.add_0_r, He. done.
    - rewrite lookup_drop, lookup_ge_None_2 by lia. done. }
  rewrite (surjective_pairing (block_path n)), (surjective_pairing (block_path n')). congruence.
Qed.
End reference.

(** ** Properties *)

Lemma get_i_block_set inode k v inode' j : set_i_block inode k v = Done inode' → 0 <= v < 2 ^ 32 →
  get_i_block inode' j = if j =? k then Done v else get_i_block inode j.
Proof.
  unfold set_i_block, get_i_block. destruct ((0 <=? k) && (k <? 15)) eqn:E; [|done]. intros Hp Hv.
  destruct (Z.eqb_spec j k) as [->|Hne].
  - rewrite E. by eapply get_put_le.
  - destruct ((0 <=? j) && (j <? 15)); [|done]. apply (get_put_le_ne 4 4 _ _ _ _ _ Hp). lia.
Qed.

Lemma path_head fs n : 0 <= n → (block_path fs n).1 = if n <? 12 then n else (block_path fs n).1.
Proof. intros. unfold block_path. by destruct (n <? 12). Qed.

Lemma path_head_ge fs n : 12 <= n → 12 <= (block_path fs n).1 <= 14.
Proof.
  intros Hn. unfold block_path. rewrite (proj2 (Z.ltb_ge n 12)) by lia.
  destruct (n <? sing fs), (n <? doub fs); simpl; lia.
Qed.

Lemma path_direct fs n : n < 12 → block_path fs n = (n, []).
Proof. intros. unfold block_path. by rewrite (proj2 (Z.ltb_lt n 12)). Qed.

(** Reading the block map is the walk down the tree that the path of the block number names: the
    member of i_block for the first 12, and one, two or three entries of index blocks above; a zero on
    the way is a hole and gives 0, nothing is changed, different block numbers have different paths, and
    a number behind the third level gives -1. *)
Theorem bmap_get_walk fs junk gd_tail x0 s inode n real r
    (Hgeom : geom fs) (Hjunk : junk_ok junk) (Hmg : map_geom fs) (Hf : full_disk (dsk s)) (Hn : 0 <= n < 2 ^ 31)
    (Hb : n < trip fs → bmap fs s inode n = Some r) :
  (n < trip fs →
    ext2_inode_rw_real_block fs junk gd_tail x0 s inode n real false = Done (s32 r, s32 r, inode, s) ∧
    Forall (λ i, 0 <= i < blksize fs / 4) (block_path fs n).2 ∧
    ∀ n', 0 <= n' < trip fs → block_path fs n = block_path fs n' → n = n') ∧
  (trip fs <= n → ext2_inode_rw_real_block fs junk gd_tail x0 s inode n real false = Done (-1, real, inode, s)).
Proof.
  split.
  - intros Hlt. split; [|split].
    + apply rw_get; try done; [lia|by apply Hb].
    + apply (path_entries fs Hgeom Hmg). lia.
    + intros n' Hn' He. apply (path_inj fs Hgeom Hmg); [lia|done|done].
  - intros Hge. pose proof (ends fs Hgeom Hmg) as He. pose proof (one_pos fs Hgeom Hmg) as Ho.
    unfold ext2_inode_rw_real_block. rewrite (proj2 (Z.ltb_ge n 12)) by lia.
    assert (u32 n = n ∧ u32 (12 + blksize fs / 4) = sing fs) as [-> ->] by (split; apply u32_small; unfold sing in *; lia).
    rewrite (u32_small (sing fs + _)) by (unfold doub in *; lia). fold (doub fs).
    rewrite (u32_small (doub fs + _)) by (unfold trip in *; lia). fold (trip fs).
    rewrite (proj2 (Z.ltb_ge n (sing fs))), (proj2 (Z.ltb_ge n (doub fs))), (proj2 (Z.ltb_ge n (trip fs))) by lia. done.
Qed.

(** C12: Setting the disk block of block n of a file, when the index blocks on the way exist, stores
    exactly that entry: reading n back gives the block set, and every other block of the file reads as
    before, for all three levels of indirection, provided that no index block occurs twice in the tree. *)
Theorem bmap_put_get fs junk gd_tail x0 s inode n real
    (Hgeom : geom fs) (Hjunk : junk_ok junk) (Hmg : map_geom fs) (Hf : full_disk (dsk s)) (Hn : 0 <= n < trip fs)
    (Hi : (128 <= length inode)%nat) (Hr : 0 <= real < 2 ^ 31) (Ht : is_tree fs s inode)
    (Hl : 12 <= n → ∃ L x, leaf fs s inode n = Some L ∧ L ≠ 0 ∧ valid fs L ∧ block_data fs s L = Some x) :
  ∃ inode' s', ext2_inode_rw_real_block fs junk gd_tail x0 s inode n real true = Done (real, real, inode', s') ∧
    (∀ any, ext2_inode_rw_real_block fs junk gd_tail x0 s' inode' n any false = Done (real, real, inode', s')) ∧
    ∀ n' r any, 0 <= n' < trip fs → n' ≠ n → bmap fs s inode n' = Some r →
      ext2_inode_rw_real_block fs junk gd_tail x0 s' inode' n' any false = Done (s32 r, s32 r, inode', s').
Proof.
  pose proof (ends fs Hgeom Hmg) as He.
  assert (Hs32 : s32 real = real) by (apply s32_small; lia).
  destruct (Z.ltb_spec n 12) as [Hlt|Hge].
  - assert (∃ inode', set_i_block inode n real = Done inode') as [inode' Hs].
    { unfold set_i_block. rewrite (proj2 (Z.leb_le 0 n)), (proj2 (Z.ltb_lt n 15)) by lia. cbn [andb].
      rewrite put_le_spec by (split; lia). eauto. }
    exists inode', s. pose proof (λ j, get_i_block_set inode n real inode' j Hs ltac:(lia)) as Hg.
    split; [by apply rw_put_direct|]. split.
    + intros any. rewrite <- Hs32 at 1 2. apply rw_get; try done.
      unfold bmap. rewrite path_direct by done. cbn [fst snd]. by rewrite Hg, Z.eqb_refl.
    + intros n' r any Hn' Hne Hb. apply rw_get; try done. rewrite <- Hb. unfold bmap.
      assert ((block_path fs n').1 ≠ n) as Hh.
      { destruct (Z.ltb_spec n' 12); [by rewrite path_direct|]. pose proof (path_head_ge fs n'). lia. }
      by rewrite Hg, (proj2 (Z.eqb_neq _ n)).
  - destruct (Hl Hge) as (L & x & HL & Hz & Hv & Hx).
    pose proof (block_data_length fs Hgeom s L x Hf Hx) as Hlx. pose proof (one_pos fs Hgeom Hmg) as Ho.
    destruct (path_split fs n Hge) as [Hsp _].
    assert (He0 : 0 <= entry fs n < blksize fs / 4).
    { pose proof (path_entries fs Hgeom Hmg n Hn) as Hall. rewrite Hsp in Hall.
      apply Forall_app in Hall as [_ Hall]. by inversion Hall. }
    pose proof (Z.div_mod (blksize fs) 4 ltac:(lia)). pose proof (Z.mod_pos_bound (blksize fs) 4 ltac:(lia)).
    assert (∃ x', put_le 4 (4 * entry fs n) real x = Done x') as [x' Hp].
    { rewrite put_le_spec by (split; lia). eauto. }
    assert (Hx4 : Z.of_nat (length x') = blksize fs) by (rewrite (put_le_length _ _ _ _ _ Hp); lia).
    destruct (rw_put fs junk gd_tail x0 Hgeom Hjunk Hmg s inode n real L x x') as (d & Hput & Hwr); try done; try lia.
    assert (HL' : block_data fs (set_dsk d s) L = Some x') by (eapply wrote_same; done).
    assert (Hf' : full_disk (dsk (set_dsk d s))) by (eapply wrote_full; [done|exact Hf|exact Hwr|lia]).
    assert (Ho' : ∀ b, b ≠ L → block_data fs (set_dsk d s) b = block_data fs s b) by (intros b Hb; eapply wrote_other; done).
    exists inode, (set_dsk d s). split; [done|]. split.
    + intros any. rewrite <- Hs32 at 1 2. apply rw_get; try done. unfold bmap.
      unfold leaf in HL. destruct (get_i_block inode (block_path fs n).1) as [r|] eqn:Er; [|done].
      rewrite Hsp. rewrite (walk_last fs (set_dsk d s) r _ L (entry fs n) x' real); try done.
      * rewrite <- HL. eapply (walk_frame fs s (set_dsk d s) L (entry fs n)); try done.
        -- intros j Hj. eapply word_put_ne; done.
        -- intros j c Hc -> _ Hj. apply lookup_lt_Some in Hj.
           assert (Hln := leaf_index fs s inode n L Hge). destruct (Ht n n (length (removelast (block_path fs n).2)) j L)
             as [_ Htk]; try done; [apply Hln; [|done]; unfold leaf; by rewrite Er|exists r; split; [done|]|].
           ++ rewrite Hsp, take_app_le by lia. split; [done|]. split; [done|]. rewrite length_app. lia.
           ++ apply (f_equal length) in Htk. rewrite !length_take in Htk. apply (f_equal length) in Hsp.
              rewrite length_app in Hsp. simpl in Hsp. lia.
      * apply (word_put x); [done|lia].
    + intros n' r any Hn' Hne Hb. apply rw_get; try done. rewrite <- Hb.
      eapply (put_frame fs Hgeom Hmg); try done; try lia. intros j Hj. eapply word_put_ne; done.
Qed.

(** An inode whose single index block is block 3 of the small disk. *)
Definition demo_inode : buf := replicate 88 0 ++ [3; 0; 0; 0] ++ replicate 36 0.

Lemma demo_full : full_disk (dsk demo_st).
Proof. apply (ar_full _ _ _ _ _ _ _ demo_ready). Qed.
Lemma demo_geom : geom demo_fs.
Proof. split; reflexivity. Qed.

Lemma demo_root k : 12 <= k <= 14 → get_i_block demo_inode k = Done (if k =? 12 then 3 else 0).
Proof. intros Hk. assert (k = 12 ∨ k = 13 ∨ k = 14) as [->|[->| ->]] by lia; vm_compute; reflexivity. Qed.

Lemma demo_tree : is_tree demo_fs demo_st demo_inode.
Proof.
  assert (Hone : ∀ n j b, 0 <= n → index_at demo_fs demo_st demo_inode n j b → (block_path demo_fs n).1 = 12 ∧ j = 0%nat).
  { intros n j b Hn (r & Hr & Hw & Hz & Hj). destruct (Z.ltb_spec n 12) as [H12|H12].
    { rewrite path_direct in Hj by done. simpl in Hj. lia. }
    pose proof (path_head_ge demo_fs n H12) as Hh. rewrite demo_root in Hr by done. injection Hr as <-.
    destruct (Z.eqb_spec (block_path demo_fs n).1 12) as [E|E].
    - split; [done|]. unfold block_path in E, Hj. rewrite (proj2 (Z.ltb_ge n 12)) in E, Hj by lia.
      destruct (n <? sing demo_fs); [simpl in Hj; lia|]. destruct (n <? doub demo_fs); discriminate E.
    - exfalso. destruct (block_path demo_fs n).2 as [|i idx]; [simpl in Hj; lia|].
      destruct j; simpl in Hw; injection Hw as <-; done. }
  intros n n' j j' b Hn Hn' H1 H2. destruct (Hone n j b ltac:(lia) H1) as [-> ->], (Hone n' j' b ltac:(lia) H2) as [-> ->].
  by rewrite !take_0.
Qed.

Lemma bmap_get_walk_witness :
  (12 < trip demo_fs →
    ext2_inode_rw_real_block demo_fs demo_junk [] 0 demo_st demo_inode 12 99 false = Done (s32 255, s32 255, demo_inode, demo_st) ∧
    Forall (λ i, 0 <= i < blksize demo_fs / 4) (block_path demo_fs 12).2 ∧
    ∀ n', 0 <= n' < trip demo_fs → block_path demo_fs 12 = block_path demo_fs n' → 12 = n') ∧
  (trip demo_fs <= 12 →
    ext2_inode_rw_real_block demo_fs demo_junk [] 0 demo_st demo_inode 12 99 false = Done (-1, 99, demo_inode, demo_st)).
Proof.
  refine (bmap_get_walk demo_fs demo_junk [] 0 demo_st demo_inode 12 99 255 demo_geom demo_junk_ok _ demo_full _ _).
  - vm_compute. discriminate.
  - split; [discriminate|reflexivity].
  - intros _. unfold bmap. change (block_path demo_fs 12) with (12, [0]). cbn [fst snd]. rewrite demo_root by lia.
    cbn [Z.eqb Pos.eqb walk]. rewrite decide_True by (split; vm_compute; congruence). vm_compute. reflexivity.
Defined.

Lemma bmap_put_get_witness :
  ∃ inode' s', ext2_inode_rw_real_block demo_fs demo_junk [] 0 demo_st demo_inode 13 500 true = Done (500, 500, inode', s') ∧
    (∀ any, ext2_inode_rw_real_block demo_fs demo_junk [] 0 s' inode' 13 any false = Done (500, 500, inode', s')) ∧
    ∀ n' r any, 0 <= n' < trip demo_fs → n' ≠ 13 → bmap demo_fs demo_st demo_inode n' = Some r →
      ext2_inode_rw_real_block demo_fs demo_junk [] 0 s' inode' n' any false = Done (s32 r, s32 r, inode', s').
Proof.
  refine (bmap_put_get demo_fs demo_junk [] 0 demo_st demo_inode 13 500 demo_geom demo_junk_ok _ demo_full _ _ _ demo_tree _).
  - vm_compute. discriminate.
  - split; [discriminate|reflexivity].
  - vm_compute. lia.
  - split; [discriminate|reflexivity].
  - intros _. exists 3, demo_bm. split; [vm_compute; reflexivity|]. split; [discriminate|].
    split; [split; vm_compute; congruence|vm_compute; reflexivity].
Defined.

(** An index block that a put allocates keeps what the disk held there: here block 8
    held the word 77 at entry 1, and after block 12 of an empty file is set, block 13,
    a hole before, maps to disk block 77. *)
Definition stale_disk : disk :=
  <[16 := [0; 0; 0; 0; 77] ++ replicate 507 0]> (<[17 := replicate 512 0]> demo_disk).
Definition stale_st : ext2_st := mk_est stale_disk [demo_bgd] 100 100.
Lemma index_block_not_cleared :
  let empty := replicate 128 0 in
  let get s inode := ext2_inode_rw_real_block demo_fs demo_junk (replicate 480 0) 0 s inode 13 0 false in
  (r ← get stale_st empty; Done r.1.1) = Done (0, 0) ∧
  ('(_, _, inode, s) ← ext2_inode_rw_real_block demo_fs demo_junk (replicate 480 0) 0 stale_st empty 12 500 true;
   r ← get s inode; Done r.1.1) = Done (77, 77).
Proof. split; vm_compute; reflexivity. Qed.
