(* ===== verification/Ext2File.v ===== *)
(** * The ext2 file system: file operations ([Kernel/ext2.c])

    Read, write and seek on an open file, and the operations that copy attributes
    between the vnode and the inode.  The user's buffer is the list of bytes that a
    read stores or a write takes. *)

From S2P Require Import Prelude Ext2Disk Ext2Map.

(** The members of [file_t] and of its vnode that the operations use. *)
Record vnode : Type := mk_vnode {
  v_id : Z; v_size : Z; v_mode : Z; v_uid : Z; v_gid : Z; v_atime : Z; v_ctime : Z; v_mtime : Z }.
Record file : Type := mk_file { f_curr_pos : Z; f_end_pos : Z; f_refcnt : Z; f_vnode : vnode }.
Definition with_pos (p : Z) (f : file) : file := mk_file (u32 p) (f_end_pos f) (f_refcnt f) (f_vnode f).
Definition with_size (n : Z) (v : vnode) : vnode :=
  mk_vnode (v_id v) n (v_mode v) (v_uid v) (v_gid v) (v_atime v) (v_ctime v) (v_mtime v).

Section file.
Context (fs : ext2_fs_t) (junk : Z → buf) (gd_tail : buf) (x0 : Z) (loc : Z * Z).
(** [xtime.ts_sec], and what an uninitialised [int] local holds. *)
Context (now real0 : Z).
Notation bs := (blksize fs).

(** [memcpy] with the length as [size_t]: a negative one is huge and faults. *)
Definition copy_from (b : buf) (off n : Z) : outcome buf := sub_buf b off (u32 n).

(** ** Reading *)

(** The loop: the reads of the blocks [block_nr], ...; [n] is how many are left.  The
    result is [inl] with the code of a failed block, or [inr] with the position, and the
    bytes stored. *)
Fixpoint read_loop (n : nat) (s : ext2_st) (inode : buf) (block_nr pos count : Z) (tmp out : buf)
    : outcome (Z * buf + Z * buf) :=
  match n with
  | O => Done (inr (pos, out))
  | S n =>
      '(ret, tmp) ← ext2_inode_read_block fs junk gd_tail x0 s inode block_nr tmp real0;
      if ret =? -1 then Done (inl (ret, out)) else
      let tmp := if ret =? 0 then replicate (Z.to_nat bs) 0 else tmp in
      let buf_offset := u32 pos mod bs in
      let block_offset := s32 (bs - buf_offset) in
      x ← copy_from tmp buf_offset (if block_offset <? count then block_offset else count);
      if block_offset <? count then
        read_loop n s inode (block_nr + 1) (u32 (pos + block_offset)) (count - block_offset) tmp (out ++ x)
      else Done (inr (u32 (pos + count), out ++ x))
  end.

(** [null]: the buffer pointer is NULL.  The value returned, the bytes stored, the
    file and the state afterwards. *)
Definition ext2_read (f : file) (null : bool) (nbytes : Z) (s : ext2_st) : outcome (Z * buf * file * ext2_st) :=
  if nbytes =? 0 then Done (0, [], f, s) else
  if null then Done (-1, [], f, s) else
  let v := f_vnode f in
  let pos := f_curr_pos f in
  let count := s32 (if v_size v <=? u32 (nbytes + pos) then v_size v - pos else nbytes) in
  let block_start := pos / bs in
  let block_end := s32 (u32 (count + pos + bs - 1) / bs) in
  '(ret, inode, s) ← ext2_rw_inode fs junk loc s (v_id v) (junk (inode_size fs)) 0;
  if ret =? -1 then Done (ret, [], f, s) else
  inode ← put_le 4 off_i_atime now inode;
  inode ← put_le 4 off_i_mtime now inode;
  r ← read_loop (Z.to_nat (block_end - block_start)) s inode block_start pos count (junk bs) [];
  match r with
  | inl (ret, out) => Done (ret, out, f, s)
  | inr (pos', out) =>
      let f' := with_pos pos' f in
      '(ret, _, s) ← ext2_rw_inode fs junk loc s (v_id v) inode 1;
      if ret <? 0 then Done (ret, out, f', s) else Done (s32 (pos' - pos), out, f', s)
  end.

(** ** Writing *)

(** What the loop carries: the inode, the position, the bytes left, the state. *)
Inductive wres : Type :=
| WDone (inode : buf) (pos : Z) (s : ext2_st)          (** the loop ended *)
| WEnd (ret : Z) (pos : Z) (s : ext2_st)               (** [goto END] *)
| WEnd1 (ret block_no pos : Z) (s : ext2_st).          (** [goto END1]: the block is freed *)

Definition add_size (inode : buf) (k : Z) : outcome buf :=
  c ← get_le 4 off_i_size inode; put_le 4 off_i_size (u32 (c + k)) inode.

Fixpoint write_loop (n : nat) (s : ext2_st) (inode : buf) (block_start pos : Z) (new_block_flag : bool)
    (tmp data : buf) : outcome wres :=
  match n with
  | O => Done (WDone inode pos s)
  | S n =>
      '(ret, block_no, _, s) ← ext2_inode_rw_real_block fs junk gd_tail x0 s inode block_start real0 false;
      (* the block to fill, and its contents *)
      r ← (if ret =? 0 then
             '(block_no, s) ← ext2_alloc_block fs junk gd_tail x0 s;
             if block_no =? -1 then Done (inl (WEnd 0 pos s))
             else Done (inr (block_no, replicate (Z.to_nat bs) 0, true, s))
           else if ret =? -1 then Done (inl (WEnd (-1) pos s))
           else
             let '(ret, tmp, s) := ext2_rw_block fs s block_no tmp 0 in
             if ret =? -1 then Done (inl (WEnd (-1) pos s)) else Done (inr (block_no, tmp, new_block_flag, s)));
      match r with
      | inl w => Done w
      | inr (block_no, tmp, new_block_flag, s) =>
          let nbytes := Z.of_nat (length data) in
          let block_offset := u32 pos mod bs in
          let full := bs <=? u32 (nbytes + block_offset) in
          let len := if full then bs - block_offset else nbytes in
          x ← sub_buf data 0 len;
          tmp ← put_buf tmp block_offset x;
          let '(ret, tmp, s) := ext2_rw_block fs s block_no tmp 1 in
          if ret =? -1 then Done (WEnd1 (-1) block_no pos s) else
          '(ret, block_no, inode, s) ←
            (if new_block_flag then ext2_inode_rw_real_block fs junk gd_tail x0 s inode block_start block_no true
             else Done (0, block_no, inode, s));
          if new_block_flag && (ret =? -1) then Done (WEnd1 (-1) block_no pos s) else
          inode ← (if new_block_flag then add_sectors fs inode else Done inode);
          inode ← (if new_block_flag then add_size inode (block_start * bs + len)
                   else if full then Done inode else add_size inode nbytes);
          if full then
            write_loop n s inode (block_start + 1) (u32 (pos + len)) new_block_flag tmp (drop (Z.to_nat len) data)
          else Done (WDone inode (u32 (pos + len)) s)
      end
  end.

Definition ext2_write (f : file) (null : bool) (data : buf) (s : ext2_st) : outcome (Z * file * ext2_st) :=
  let nbytes := Z.of_nat (length data) in
  let v := f_vnode f in
  let pos := f_curr_pos f in
  let block_needed := s32 (u32 (nbytes + pos + bs - 1) / bs) in
  if nbytes =? 0 then Done (0, f, s) else
  if (nbytes =? u32 (-1)) || null then Done (-1, f, s) else
  '(ret, inode, s) ← ext2_rw_inode fs junk loc s (v_id v) (junk (inode_size fs)) 0;
  if ret =? -1 then Done (-1, f, s) else
  r ← write_loop (Z.to_nat block_needed) s inode (pos / bs) pos false (replicate (Z.to_nat bs) 0) data;
  match r with
  | WEnd ret pos s => Done (ret, with_pos pos f, s)
  | WEnd1 ret block_no pos s =>
      '(_, s) ← ext2_free_block fs junk gd_tail block_no s; Done (ret, with_pos pos f, s)
  | WDone inode pos s =>
      inode ← put_le 4 off_i_mtime now inode;
      inode ← put_le 4 off_i_atime now inode;
      '(ret, inode, s) ← ext2_rw_inode fs junk loc s (v_id v) inode 1;
      (* [retval == -1] cannot hold here: a failed write is [-EIO] *)
      size ← get_le 4 off_i_size inode;
      Done (0, mk_file pos size (f_refcnt f) (with_size size v), s)
  end.

(** ** Seeking *)

Definition SEEK_SET := 0.
Definition SEEK_CUR := 1.
Definition SEEK_END := 2.
Definition ext2_seek (f : file) (pos whence : Z) : Z * file :=
  if whence =? SEEK_SET then
    if pos <? 0 then (- EINVAL, f) else (s32 (u32 pos), with_pos pos f)
  else if whence =? SEEK_END then (s32 (u32 (f_end_pos f + pos)), with_pos (f_end_pos f + pos) f)
  else if whence =? SEEK_CUR then (s32 (u32 (f_curr_pos f + pos)), with_pos (f_curr_pos f + pos) f)
  else (-1, f).

(** ** Attributes *)

(** [ext2_sync]: the vnode's attributes into the inode on disk. *)
Definition ext2_sync (v : vnode) (s : ext2_st) : outcome (Z * ext2_st) :=
  '(ret, inode, s) ← ext2_rw_inode fs junk loc s (v_id v) (replicate (Z.to_nat (inode_size fs)) 0) 0;
  if ret <? 0 then Done (ret, s) else
  inode ← put_le 4 off_i_atime (v_atime v) inode;
  inode ← put_le 4 12 (v_ctime v) inode;
  inode ← put_le 4 off_i_mtime (v_mtime v) inode;
  inode ← put_le 4 off_i_size (v_size v) inode;
  inode ← put_le 2 off_i_mode (v_mode v) inode;
  inode ← put_le 2 2 (v_uid v) inode;
  inode ← put_le 2 24 (v_gid v) inode;
  '(ret, _, s) ← ext2_rw_inode fs junk loc s (v_id v) inode 1;
  Done (if ret <? 0 then ret else 0, s).

(** [ext2_close]: whether the vnode and the file are freed, else the file. *)
Definition ext2_close (f : file) : option file * bool :=
  let n := if 0 <? f_refcnt f then f_refcnt f - 1 else f_refcnt f in
  if n =? 0 then (None, negb (v_id (f_vnode f) =? 2))
  else (Some (mk_file (f_curr_pos f) (f_end_pos f) n (f_vnode f)), false).
End file.

(** ** The contents of a file *)

Section contents.
Context (fs : ext2_fs_t) (junk : Z → buf) (gd_tail : buf) (x0 : Z) (loc : Z * Z) (now real0 : Z).
Context (Hgeom : geom fs) (Hjunk : junk_ok junk) (Hmg : map_geom fs).
Notation bs := (blksize fs).

(** Block [k] of the file: zeros for a hole. *)
Definition file_block (s : ext2_st) (inode : buf) (k : Z) : option buf :=
  match bmap fs s inode k with
  | Some r => if r =? 0 then Some (replicate (Z.to_nat bs) 0) else
              if decide (r < 2 ^ 31 ∧ valid fs r) then block_data fs s r else None
  | None => None
  end.
(** Byte [i] of the file. *)
Definition file_byte (s : ext2_st) (inode : buf) (i : Z) : option Z :=
  x ← file_block s inode (i / bs); x !! Z.to_nat (i mod bs).

Lemma bs_pos : 0 < bs.
Proof. apply Hgeom. Qed.

Lemma read_block_spec s inode k tmp x : full_disk (dsk s) → 0 <= k < trip fs → file_block s inode k = Some x →
  Z.of_nat (length tmp) = bs → 
  ∃ ret tmp', ext2_inode_read_block fs junk gd_tail x0 s inode k tmp real0 = Done (ret, tmp') ∧ ret ≠ -1 ∧
    (if ret =? 0 then replicate (Z.to_nat bs) 0 else tmp') = x ∧ Z.of_nat (length x) = bs.
Proof.
  intros Hf Hk Hx Ht. unfold file_block in Hx. destruct (bmap fs s inode k) as [r|] eqn:Er; [|done].
  unfold ext2_inode_read_block. rewrite (rw_get fs junk gd_tail x0 Hgeom Hjunk Hmg s inode k real0 r), bind_done by done.
  destruct (Z.eqb_spec r 0) as [->|Hr].
  - injection Hx as <-. exists 0, tmp. split; [done|]. split; [done|]. split; [done|].
    rewrite length_replicate. pose proof bs_pos. lia.
  - destruct (decide (r < 2 ^ 31 ∧ valid fs r)) as [[Hr31 Hv]|]; [|done]. destruct Hv as [Hr0 Hv'].
    rewrite s32_small by lia. rewrite (proj2 (Z.eqb_neq r (-1))), (proj2 (Z.eqb_neq r 0)) by lia.
    rewrite (rw_block_read fs Hgeom s r x tmp) by done. cbn [Z.eqb]. exists r, x. split; [done|]. split; [lia|].
    rewrite (proj2 (Z.eqb_neq r 0)) by lia. split; [done|]. by apply (block_data_length fs Hgeom s r).
Qed.

(** A stretch of bytes read from one block. *)
Lemma copy_stretch s inode pos x n : file_block s inode (pos / bs) = Some x → Z.of_nat (length x) = bs →
  0 <= pos < 2 ^ 32 → 0 <= n <= bs - pos mod bs → n < 2 ^ 32 →
  ∃ y, copy_from x (u32 pos mod bs) n = Done y ∧ Z.of_nat (length y) = n ∧
    ∀ i, 0 <= i < n → y !! Z.to_nat i = file_byte s inode (pos + i).
Proof.
  intros Hx Hl Hp Hn Hn32. pose proof bs_pos as Hb. rewrite u32_small by lia.
  pose proof (Z.mod_pos_bound pos bs Hb). unfold copy_from, sub_buf. rewrite u32_small by lia.
  rewrite (proj2 (Z.leb_le 0 n)), andb_true_r, in_bounds_true by lia. eexists. split; [done|].
  split; [rewrite length_take, length_drop; lia|]. intros i Hi. rewrite lookup_take_lt, lookup_drop by lia.
  pose proof (Z.div_mod pos bs ltac:(lia)).
  assert ((pos + i) / bs = pos / bs) as Hd by (symmetry; apply (Z.div_unique _ _ _ (pos mod bs + i)); lia).
  assert ((pos + i) mod bs = pos mod bs + i) as Hm by (symmetry; apply (Z.mod_unique _ _ (pos / bs)); lia).
  unfold file_byte. rewrite Hd, Hx, Hm. simpl. f_equal. lia.
Qed.

(** The loop reads exactly the bytes asked for. *)
Lemma read_loop_spec s inode n pos count tmp out :
  full_disk (dsk s) → 0 <= pos → 0 <= count → pos + count + bs < 2 ^ 31 →
  (∀ k, pos / bs <= k < pos / bs + Z.of_nat n → k < trip fs ∧ is_Some (file_block s inode k)) →
  Z.of_nat (length tmp) = bs → Z.of_nat n = (count + pos + bs - 1) / bs - pos / bs →
  ∃ y, read_loop fs junk gd_tail x0 real0 n s inode (pos / bs) pos count tmp out = Done (inr (pos + count, out ++ y)) ∧
    Z.of_nat (length y) = count ∧ ∀ i, 0 <= i < count → y !! Z.to_nat i = file_byte s inode (pos + i).
Proof.
  intros Hf. pose proof bs_pos as Hb. revert pos count tmp out.
  induction n as [|n IH]; intros pos count tmp out Hp Hc Hsm Hblk Ht Hn.
  - assert (count = 0) as ->.
    { pose proof (Z.div_mod pos bs ltac:(lia)). pose proof (Z.mod_pos_bound pos bs Hb).
      pose proof (Z.div_mod (count + pos + bs - 1) bs ltac:(lia)). pose proof (Z.mod_pos_bound (count + pos + bs - 1) bs Hb).
      nia. }
    exists []. cbn [read_loop]. rewrite app_nil_r, Z.add_0_r. split; [done|]. split; [done|]. intros i Hi. lia.
  - cbn [read_loop]. pose proof (Z.div_mod pos bs ltac:(lia)) as Hdm. pose proof (Z.mod_pos_bound pos bs Hb) as Hmb.
    assert (Hq : 0 <= pos / bs) by (apply Z.div_pos; lia).
    destruct (Hblk (pos / bs)) as [Hk [x Hx]]; [lia|].
    destruct (read_block_spec s inode (pos / bs) tmp x) as (ret & tmp' & -> & Hr & Hsel & Hlx); try done.
    rewrite bind_done, (proj2 (Z.eqb_neq ret (-1))), Hsel by done.
    rewrite (u32_small pos), (s32_small (bs - pos mod bs)) by lia.
    set (k := bs - pos mod bs). destruct (Z.ltb_spec k count) as [Hlt|Hge].
    + destruct (copy_stretch s inode pos x k) as (y & Hcp & Hly & Hy); try done; [lia..|].
      rewrite (u32_small pos) in Hcp by lia. rewrite Hcp, bind_done. rewrite (u32_small (pos + k)) by lia.
      assert (Hd : (pos + k) / bs = pos / bs + 1) by (symmetry; apply (Z.div_unique _ _ _ 0); lia).
      rewrite <- Hd.
      destruct (IH (pos + k) (count - k) x (out ++ y)) as (z & Hz & Hlz & Hzi); try done; try lia.
      * intros j Hj. apply Hblk. lia.
      * replace (count - k + (pos + k) + bs - 1) with (count + pos + bs - 1) by lia. lia.
      * exists (y ++ z). rewrite Hz. replace (pos + k + (count - k)) with (pos + count) by lia.
        rewrite <- app_assoc. split; [done|]. split; [rewrite length_app; lia|]. intros i Hi.
        destruct (Z.ltb_spec i k).
        -- rewrite lookup_app_l by lia. apply Hy. lia.
        -- rewrite lookup_app_r by lia. replace (Z.to_nat i - length y)%nat with (Z.to_nat (i - k)) by lia.
           rewrite Hzi by lia. f_equal. lia.
    + destruct (copy_stretch s inode pos x count) as (y & Hcp & Hly & Hy); try done; [lia..|].
      rewrite (u32_small pos) in Hcp by lia. rewrite Hcp, bind_done. rewrite u32_small by lia. exists y. split; [done|]. split; done.
Qed.

(** Storing a time leaves the block map alone. *)
Lemma bmap_put_field s inode inode' off v k : put_le 4 off v inode = Done inode' → off + 4 <= 40 →
  bmap fs s inode' k = bmap fs s inode k.
Proof.
  intros Hp Ho. unfold bmap. assert (get_i_block inode' (block_path fs k).1 = get_i_block inode (block_path fs k).1) as ->; [|done].
  unfold get_i_block. destruct ((0 <=? (block_path fs k).1) && ((block_path fs k).1 <? 15)) eqn:E; [|done].
  apply andb_true_iff in E as [?%Z.leb_le _]. eapply get_put_le_ne; [exact Hp|]. lia.
Qed.

Lemma file_byte_put_field s inode inode' off v i : put_le 4 off v inode = Done inode' → off + 4 <= 40 →
  file_byte s inode' i = file_byte s inode i.
Proof. intros Hp Ho. unfold file_byte, file_block. by rewrite (bmap_put_field s inode inode' off v). Qed.
Lemma file_block_put_field s inode inode' off v i : put_le 4 off v inode = Done inode' → off + 4 <= 40 →
  file_block s inode' i = file_block s inode i.
Proof. intros Hp Ho. unfold file_block. by rewrite (bmap_put_field s inode inode' off v). Qed.
End contents.

(** ** Properties *)

(** Inode [n] is on the disk, in group [g], its table block holds [x]. *)
Record inode_ready fs (s : ext2_st) (n : Z) (g : ext2_bgd_t) (x : buf) : Prop := mk_iready {
  ir_full : full_disk (dsk s);
  ir_num : 1 <= n < 2 ^ 31;
  ir_group : nthZ (group_desc s) (group_of fs n) = Some g;
  ir_range : 0 <= inode_block fs g n < 2 ^ 31;
  ir_valid : valid fs (inode_block fs g n);
  ir_data : block_data fs s (inode_block fs g n) = Some x;
}.

(** C13: ext2_read returns exactly the bytes of the file: with n bytes asked for at a position within the
    file it stores the bytes pos, pos + 1, ... up to the smaller of n and what is left, across block
    boundaries, through the block map and with zeros for holes, returns their number (0 at the end of the
    file) and moves the position by it. *)
Theorem ext2_read_correct fs junk gd_tail x0 loc now real0 s f g x nbytes
    (Hgeom : geom fs) (Hjunk : junk_ok junk) (Hmg : map_geom fs) (Hig : inode_geom fs)
    (Hi : inode_ready fs s (v_id (f_vnode f)) g x)
    (Hpos : 0 <= f_curr_pos f <= v_size (f_vnode f)) (Hn : 0 < nbytes)
    (Hsm : f_curr_pos f + nbytes + blksize fs < 2 ^ 31) (Hsz : v_size (f_vnode f) + blksize fs < 2 ^ 31)
    (Hblk : ∀ k, f_curr_pos f / blksize fs <= k < (v_size (f_vnode f) + blksize fs - 1) / blksize fs →
      k < trip fs ∧ is_Some (file_block fs s (inode_bytes fs x (v_id (f_vnode f))) k)) :
  let count := Z.min nbytes (v_size (f_vnode f) - f_curr_pos f) in
  ∃ out s', ext2_read fs junk gd_tail x0 loc now real0 f false nbytes s =
      Done (count, out, with_pos (f_curr_pos f + count) f, s') ∧
    Z.of_nat (length out) = count ∧
    ∀ i, 0 <= i < count →
      out !! Z.to_nat i = file_byte fs s (inode_bytes fs x (v_id (f_vnode f))) (f_curr_pos f + i).
Proof.
  intros count. destruct Hi as [Hf Hnum Hg Hr Hv Hx]. set (pos := f_curr_pos f) in *. set (v := f_vnode f) in *.
  pose proof (bs_pos fs Hgeom) as Hb. unfold ext2_read. fold pos v. rewrite (proj2 (Z.eqb_neq nbytes 0)) by lia.
  assert (s32 (if v_size v <=? u32 (nbytes + pos) then v_size v - pos else nbytes) = count) as ->.
  { rewrite u32_small by lia. unfold count. destruct (Z.leb_spec (v_size v) (nbytes + pos)); rewrite s32_small by lia; lia. }
  destruct Hig as (Hip & Him & Hib & Hig').
  rewrite (read_inode_spec fs junk loc Hgeom Hjunk (conj Hip (conj Him (conj Hib Hig'))) s (v_id v) g _ x), bind_done
    by (done || rewrite Hjunk by lia; lia).
  cbn [Z.eqb]. set (inode := inode_bytes fs x (v_id v)) in *.
  assert (Hli : Z.of_nat (length inode) = inode_size fs).
  { destruct (slot_in_block fs Hgeom (conj Hip (conj Him (conj Hib Hig'))) (v_id v) x) as [H1 H2].
    - by apply (block_data_length fs Hgeom s (inode_block fs g (v_id v))).
    - unfold inode, inode_bytes. rewrite length_take, length_drop. lia. }
  assert (H128 : 128 <= inode_size fs) by (pose proof (Z.div_mod (inode_size fs) 128 ltac:(lia)); lia).
  destruct (put_le_ok off_i_atime now inode) as (i1 & Hi1 & Hl1); [unfold off_i_atime; lia..|].
  rewrite Hi1, bind_done. destruct (put_le_ok off_i_mtime now i1) as (i2 & Hi2 & Hl2); [unfold off_i_mtime; lia..|].
  rewrite Hi2, bind_done.
  assert (Hbyte : ∀ i, file_byte fs s i2 i = file_byte fs s inode i).
  { intros i. rewrite (file_byte_put_field fs s i1 i2 off_i_mtime now), (file_byte_put_field fs s inode i1 off_i_atime now) by done. done. }
  assert (Hfb : ∀ k, file_block fs s i2 k = file_block fs s inode k).
  { intros k. rewrite (file_block_put_field fs s i1 i2 off_i_mtime now), (file_block_put_field fs s inode i1 off_i_atime now) by done. done. }
  assert (Hend : s32 (u32 (count + pos + blksize fs - 1) / blksize fs) = (count + pos + blksize fs - 1) / blksize fs).
  { rewrite u32_small by lia. apply s32_small. split; [|apply Z.div_lt_upper_bound; nia].
    apply Z.le_trans with 0; [lia|apply Z.div_pos; lia]. }
  rewrite Hend.
  assert (Hmono : pos / blksize fs <= (count + pos + blksize fs - 1) / blksize fs) by (apply Z.div_le_mono; lia).
  assert (Hmono' : (count + pos + blksize fs - 1) / blksize fs <= (v_size v + blksize fs - 1) / blksize fs)
    by (apply Z.div_le_mono; lia).
  destruct (read_loop_spec fs junk gd_tail x0 real0 Hgeom Hjunk Hmg s i2
    (Z.to_nat ((count + pos + blksize fs - 1) / blksize fs - pos / blksize fs)) pos count (junk (blksize fs)) [])
    as (y & -> & Hly & Hy); try done; try lia.
  { intros k Hk. rewrite Hfb. apply Hblk. lia. }
  { rewrite Hjunk by lia. lia. }
  rewrite bind_done. cbn [app].
  destruct (write_inode_spec fs junk loc Hgeom Hjunk (conj Hip (conj Him (conj Hib Hig'))) s (v_id v) g i2 x)
    as (d & x' & -> & _); try done; try lia.
  rewrite bind_done. cbn [Z.ltb Z.compare]. exists y, (set_dsk d s).
  replace (pos + count - pos) with count by lia. rewrite s32_small by lia. split; [done|]. split; [done|].
  intros i Hi. rewrite Hy by done. apply Hbyte.
Qed.

(** The size the inode records. *)
Definition i_size (inode : buf) : Z := le_value (take 4 (drop 4 inode)).

Lemma inode_bytes_length fs x n : geom fs → inode_geom fs → Z.of_nat (length x) = blksize fs →
  Z.of_nat (length (inode_bytes fs x n)) = inode_size fs.
Proof.
  intros Hg Hig Hx. destruct (slot_in_block fs Hg Hig n x Hx). unfold inode_bytes.
  destruct Hig as (Hip & _). rewrite length_take, length_drop. lia.
Qed.

(** Writing n bytes into a block the file already has, not up to its end, stores them at the
    position in that block and nowhere else but the inode's table block, and moves the position by n; but the
    size of the file grows by n wherever the position was, and the value returned is 0. *)
Theorem ext2_write_in_place fs junk gd_tail x0 loc now real0 s f g x data r y
    (Hgeom : geom fs) (Hjunk : junk_ok junk) (Hmg : map_geom fs) (Hig : inode_geom fs)
    (Hi : inode_ready fs s (v_id (f_vnode f)) g x)
    (Hpos : 0 <= f_curr_pos f) (Hk : f_curr_pos f / blksize fs < trip fs) (Hn : (1 <= length data)%nat)
    (Hin : f_curr_pos f mod blksize fs + Z.of_nat (length data) < blksize fs)
    (Hsm : f_curr_pos f + 2 * blksize fs < 2 ^ 31)
    (Hr : bmap fs s (inode_bytes fs x (v_id (f_vnode f))) (f_curr_pos f / blksize fs) = Some r)
    (Hr0 : 0 < r < 2 ^ 31) (Hv : valid fs r) (Hy : block_data fs s r = Some y)
    (Hne : r ≠ inode_block fs g (v_id (f_vnode f)))
    (Hsize : 0 <= i_size (inode_bytes fs x (v_id (f_vnode f))) + Z.of_nat (length data) < 2 ^ 32) :
  let n := Z.of_nat (length data) in
  let off := Z.to_nat (f_curr_pos f mod blksize fs) in
  let size := i_size (inode_bytes fs x (v_id (f_vnode f))) + n in
  ∃ s', ext2_write fs junk gd_tail x0 loc now real0 f false data s =
      Done (0, mk_file (f_curr_pos f + n) size (f_refcnt f) (with_size size (f_vnode f)), s') ∧
    block_data fs s' r = Some (take off y ++ data ++ drop (off + length data) y) ∧
    ∀ b, b ≠ r → b ≠ inode_block fs g (v_id (f_vnode f)) → block_data fs s' b = block_data fs s b.
Proof.
  intros n off size. destruct Hi as [Hf Hnum Hg Hri Hvi Hx]. set (pos := f_curr_pos f) in *. set (v := f_vnode f) in *.
  pose proof (bs_pos fs Hgeom) as Hb. pose proof Hig as (Hip & Him & Hib & Hig').
  pose proof (Z.mod_pos_bound pos (blksize fs) Hb) as Hmb. pose proof (Z.div_mod pos (blksize fs) ltac:(lia)) as Hdm.
  unfold ext2_write. fold pos v n. rewrite (proj2 (Z.eqb_neq n 0)) by lia.
  rewrite (proj2 (Z.eqb_neq n (u32 (-1)))) by (change (u32 (-1)) with (2 ^ 32 - 1); lia). cbn [orb].
  rewrite (read_inode_spec fs junk loc Hgeom Hjunk Hig s (v_id v) g _ x), bind_done by (done || rewrite Hjunk by lia; lia).
  cbn [Z.eqb]. set (inode := inode_bytes fs x (v_id v)) in *.
  pose proof (block_data_length fs Hgeom s _ _ Hf Hx) as Hlx. pose proof (block_data_length fs Hgeom s _ _ Hf Hy) as Hly.
  pose proof (inode_bytes_length fs x (v_id v) Hgeom Hig Hlx) as Hli. fold inode in Hli.
  assert (H128 : 128 <= inode_size fs) by (pose proof (Z.div_mod (inode_size fs) 128 ltac:(lia)); lia).
  assert (Hneed : ∃ m, Z.to_nat (s32 (u32 (n + pos + blksize fs - 1) / blksize fs)) = Datatypes.S m).
  { rewrite u32_small by lia. assert (1 <= (n + pos + blksize fs - 1) / blksize fs) by (apply Z.div_le_lower_bound; lia).
    assert ((n + pos + blksize fs - 1) / blksize fs < 2 ^ 31) by (apply Z.div_lt_upper_bound; nia).
    rewrite s32_small by lia. exists (Z.to_nat ((n + pos + blksize fs - 1) / blksize fs) - 1)%nat. lia. }
  destruct Hneed as [m ->]. cbn [write_loop].
  rewrite (rw_get fs junk gd_tail x0 Hgeom Hjunk Hmg s inode (pos / blksize fs) real0 r), bind_done
    by (done || (split; [apply Z.div_pos; lia|done])).
  rewrite (s32_small r) by lia. rewrite (proj2 (Z.eqb_neq r 0)), (proj2 (Z.eqb_neq r (-1))) by lia.
  rewrite (rw_block_read fs Hgeom s r y) by (done || rewrite length_replicate; lia). cbn [Z.eqb]. rewrite bind_done.
  fold n. rewrite (u32_small pos) by lia. rewrite (u32_small (n + pos mod blksize fs)) by lia.
  rewrite (proj2 (Z.leb_gt (blksize fs) _)) by lia.
  unfold sub_buf. rewrite (proj2 (Z.leb_le 0 n)), andb_true_r, in_bounds_true, bind_done by lia.
  assert (take (Z.to_nat n) (drop (Z.to_nat 0) data) = data) as -> by (apply take_ge; simpl; lia).
  unfold put_buf. rewrite in_bounds_true, bind_done by lia. fold off.
  set (y' := take off y ++ data ++ drop (off + length data) y).
  destruct (rw_block_write fs Hgeom s r y' y Hv Hy) as (d & -> & Hwr). cbn [Z.eqb]. rewrite bind_done. cbn [andb].
  rewrite bind_done. unfold add_size. unfold size, i_size, off_i_size in *.
  rewrite get_le_spec, bind_done by (split; lia). change (Z.to_nat 4) with 4%nat.
  fold size. assert (Hsz : 0 <= size < 2 ^ 32) by (unfold size; lia).
  rewrite (u32_small (pos + n)), (u32_small size) by lia.
  destruct (put_le_ok 4 size inode) as (i1 & Hi1 & Hl1); [lia..|]. fold size in Hi1. rewrite Hi1, bind_done, bind_done.
  destruct (put_le_ok off_i_mtime now i1) as (i2 & Hi2 & Hl2); [unfold off_i_mtime; lia..|]. rewrite Hi2, bind_done.
  destruct (put_le_ok off_i_atime now i2) as (i3 & Hi3 & Hl3); [unfold off_i_atime; lia..|]. rewrite Hi3, bind_done.
  assert (Hly' : Z.of_nat (length y') = blksize fs)
    by (unfold y'; rewrite !length_app, length_take, length_drop; unfold off; lia).
  assert (Hfd : full_disk (dsk (set_dsk d s))) by (eapply wrote_full; [done|exact Hf|exact Hwr|lia]).
  assert (Hxd : block_data fs (set_dsk d s) (inode_block fs g (v_id v)) = Some x)
    by (rewrite <- Hx; eapply wrote_other; [done|exact Hwr|done]).
  destruct (write_inode_spec fs junk loc Hgeom Hjunk Hig (set_dsk d s) (v_id v) g i3 x) as (d2 & x2 & -> & Hwr2 & _);
    try done; try lia.
  rewrite bind_done.
  assert (get_le 4 4 i3 = Done size) as ->.
  { rewrite (get_put_le_ne 4 4 off_i_atime 4 now i2) by (done || unfold off_i_atime; lia).
    rewrite (get_put_le_ne 4 4 off_i_mtime 4 now i1) by (done || unfold off_i_mtime; lia).
    by apply (get_put_le 4 4 size inode). }
  rewrite bind_done. eexists. split; [done|]. split.
  - rewrite (wrote_other fs Hgeom (set_dsk d s) _ x2 d2 r) by done. eapply wrote_same; done.
  - intros b Hbr Hbi. rewrite (wrote_other fs Hgeom (set_dsk d s) _ x2 d2 b) by done.
    eapply wrote_other; [done|exact Hwr|done].
Qed.

(** A disk with one file, inode 2 in block 3, of five bytes in block 9; the bitmap is
    block 1, the descriptor table sector 24, blocks 20 and 21 are free. *)
Definition hello_fs : ext2_fs_t := mk_fs 1024 128 1 8192 8 12 0 512.
Definition hello_disk : disk :=
  <[6 := replicate 132 0 ++ [5; 0; 0; 0] ++ replicate 32 0 ++ [9; 0; 0; 0] ++ replicate 340 0]>
  (<[7 := replicate 512 0]> (<[18 := [72; 101; 108; 108; 111] ++ replicate 507 0]> (<[19 := replicate 512 0]>
  (<[2 := [255; 255; 15] ++ replicate 509 0]> (<[3 := replicate 512 0]> (<[24 := replicate 512 0]>
  (<[40 := replicate 512 0]> (<[41 := replicate 512 0]> (<[42 := replicate 512 0]> (<[43 := replicate 512 0]> ∅)))))))))).
Definition hello_bgd : ext2_bgd_t := mk_bgd 1 2 3 100 100 1 (replicate 14 0).
Definition hello_st : ext2_st := mk_est hello_disk [hello_bgd] 100 100.
Definition hello_file (pos : Z) : file := mk_file pos 5 1 (mk_vnode 2 5 0 0 0 0 0 0).
Definition hello_table : buf :=
  replicate 132 0 ++ [5; 0; 0; 0] ++ replicate 32 0 ++ [9; 0; 0; 0] ++ replicate 852 0.

Lemma hello_ready : inode_ready hello_fs hello_st 2 hello_bgd hello_table.
Proof.
  split; try (vm_compute; intuition congruence).
  - intros k y. cbn [dsk hello_st]. unfold hello_disk. rewrite !lookup_insert_Some.
    intros Hk. repeat (destruct Hk as [[_ <-]|[_ Hk]]; [reflexivity|]). by rewrite lookup_empty in Hk.
Qed.

Lemma hello_geom : geom hello_fs ∧ map_geom hello_fs ∧ inode_geom hello_fs.
Proof. split; [split; reflexivity|]. split; [vm_compute; discriminate|]. repeat (split; [reflexivity|]). reflexivity. Qed.

Lemma hello_block0 : file_block hello_fs hello_st (inode_bytes hello_fs hello_table 2) 0 =
  Some ([72; 101; 108; 108; 111] ++ replicate 1019 0).
Proof.
  unfold file_block. assert (bmap hello_fs hello_st (inode_bytes hello_fs hello_table 2) 0 = Some 9) as -> by (vm_compute; reflexivity).
  cbn [Z.eqb]. rewrite decide_True by (split; [reflexivity|split; vm_compute; congruence]). vm_compute. reflexivity.
Qed.

Lemma ext2_read_correct_witness :
  let f := hello_file 1 in
  let count := Z.min 100 4 in
  ∃ out s', ext2_read hello_fs demo_junk [] 0 (0, 0) 7 0 f false 100 hello_st = Done (count, out, with_pos (1 + count) f, s') ∧
    Z.of_nat (length out) = count ∧
    ∀ i, 0 <= i < count → out !! Z.to_nat i = file_byte hello_fs hello_st (inode_bytes hello_fs hello_table 2) (1 + i).
Proof.
  refine (ext2_read_correct hello_fs demo_junk [] 0 (0, 0) 7 0 hello_st (hello_file 1) hello_bgd hello_table 100
    (proj1 hello_geom) demo_junk_ok (proj1 (proj2 hello_geom)) (proj2 (proj2 hello_geom)) hello_ready _ _ _ _ _).
  - split; discriminate.
  - reflexivity.
  - reflexivity.
  - reflexivity.
  - intros k Hk. change (0 <= k < 1) in Hk. assert (k = 0) as -> by lia. split; [reflexivity|].
    change (is_Some (file_block hello_fs hello_st (inode_bytes hello_fs hello_table 2) 0)). rewrite hello_block0. eexists. reflexivity.
Defined.

Lemma ext2_write_in_place_witness :
  let f := hello_file 1 in
  let x := hello_table in
  let size := i_size (inode_bytes hello_fs x 2) + 2 in
  ∃ s', ext2_write hello_fs demo_junk [] 0 (0, 0) 7 0 f false [65; 66] hello_st =
      Done (0, mk_file (1 + 2) size 1 (with_size size (f_vnode f)), s') ∧
    block_data hello_fs s' 9 = Some (take 1 ([72; 101; 108; 108; 111] ++ replicate 1019 0) ++ [65; 66] ++
      drop 3 ([72; 101; 108; 108; 111] ++ replicate 1019 0)) ∧
    ∀ b, b ≠ 9 → b ≠ 3 → block_data hello_fs s' b = block_data hello_fs hello_st b.
Proof.
  refine (ext2_write_in_place hello_fs demo_junk [] 0 (0, 0) 7 0 hello_st (hello_file 1) hello_bgd hello_table [65; 66] 9
    ([72; 101; 108; 108; 111] ++ replicate 1019 0)
    (proj1 hello_geom) demo_junk_ok (proj1 (proj2 hello_geom)) (proj2 (proj2 hello_geom)) hello_ready _ _ _ _ _ _ _ _ _ _ _).
  - discriminate.
  - reflexivity.
  - simpl. lia.
  - reflexivity.
  - reflexivity.
  - vm_compute. reflexivity.
  - split; reflexivity.
  - split; vm_compute; congruence.
  - vm_compute. reflexivity.
  - discriminate.
  - split; vm_compute; congruence.
Defined.

(** A read behind the end of the file, in the last block, copies a negative number of
    bytes. *)
Lemma ext2_read_past_end :
  ext2_read hello_fs demo_junk [] 0 (0, 0) 7 0 (hello_file 7) false 1 hello_st = Fail BadPtr.
Proof. vm_compute. reflexivity. Qed.

(** 1024 bytes written at 1024 take two blocks, and the size, 5 before, becomes 4101
    instead of 2048: the number of turns is counted from the start of the file. *)
Lemma ext2_write_too_many_blocks :
  ('(ret, f, s) ← ext2_write hello_fs demo_junk (replicate 480 0) 0 (0, 0) 7 0 (hello_file 1024) false (replicate 1024 65) hello_st;
   Done (ret, v_size (f_vnode f), s_free_blocks s)) = Done (0, 4101, 98).
Proof. vm_compute. reflexivity. Qed.

(** ** Seeking *)

(** Ext2_seek sets the position relative to the start, the current position or the end, in 32-bit
    arithmetic, and returns it; it refuses a negative offset from the start with -EINVAL and an unknown
    origin with -1, leaving the file alone, but not a result below zero: that wraps around. *)
Theorem ext2_seek_spec f pos whence :
  0 <= f_curr_pos f < 2 ^ 32 →
  let base := if whence =? SEEK_SET then 0 else if whence =? SEEK_END then f_end_pos f else f_curr_pos f in
  let '(ret, f') := ext2_seek f pos whence in
  if (whence =? SEEK_SET) && (pos <? 0) then ret = - EINVAL ∧ f' = f
  else if (whence =? SEEK_SET) || (whence =? SEEK_END) || (whence =? SEEK_CUR) then
    f' = with_pos (base + pos) f ∧ ret = s32 (f_curr_pos f') ∧ 0 <= f_curr_pos f' < 2 ^ 32 ∧
    (0 <= base + pos < 2 ^ 31 → ret = base + pos) ∧ (base + pos < 0 → - 2 ^ 32 <= base + pos → f_curr_pos f' = base + pos + 2 ^ 32)
  else ret = -1 ∧ f' = f.
Proof.
  intros Hp base. unfold ext2_seek.
  assert (Hgen : ∀ p, (0 <= u32 p < 2 ^ 32) ∧ (0 <= p < 2 ^ 31 → s32 (u32 p) = p) ∧
    (p < 0 → - 2 ^ 32 <= p → u32 p = p + 2 ^ 32)).
  { intros p. split; [apply u32_range|]. split.
    - intros H. by rewrite u32_small, s32_small by lia.
    - intros H1 H2. unfold u32. symmetry. apply (Z.mod_unique _ _ (-1)); lia. }
  destruct (Z.eqb_spec whence SEEK_SET) as [->|H0]; cbn [andb orb].
  - unfold base. cbn [Z.eqb SEEK_SET]. rewrite Z.add_0_l. destruct (pos <? 0); [done|].
    destruct (Hgen pos) as (? & ? & ?). cbn [with_pos f_curr_pos]. done.
  - destruct (Z.eqb_spec whence SEEK_END) as [->|H2]; cbn [andb orb].
    + unfold base. cbn [Z.eqb SEEK_END SEEK_SET Pos.eqb]. destruct (Hgen (f_end_pos f + pos)) as (? & ? & ?). done.
    + destruct (Z.eqb_spec whence SEEK_CUR) as [->|H1]; [|done].
      unfold base. cbn [Z.eqb SEEK_END SEEK_SET SEEK_CUR Pos.eqb]. destruct (Hgen (f_curr_pos f + pos)) as (? & ? & ?). done.
Qed.

Lemma ext2_seek_spec_witness :
  0 <= f_curr_pos (hello_file 3) < 2 ^ 32 ∧ ext2_seek (hello_file 3) (-4) SEEK_CUR = (-1, with_pos (-1) (hello_file 3)) ∧
  (let '(ret, f') := ext2_seek (hello_file 3) 2 SEEK_END in
   f' = with_pos 7 (hello_file 3) ∧ ret = s32 (f_curr_pos f') ∧ 0 <= f_curr_pos f' < 2 ^ 32 ∧
    (0 <= 7 < 2 ^ 31 → ret = 7) ∧ (7 < 0 → - 2 ^ 32 <= 7 → f_curr_pos f' = 7 + 2 ^ 32)).
Proof.
  split; [split; [discriminate|reflexivity]|]. split; [vm_compute; reflexivity|].
  apply (ext2_seek_spec (hello_file 3) 2 SEEK_END). split; [discriminate|reflexivity].
Defined.
