(* ===== verification/Ext2Mount.v ===== *)
(** * The ext2 file system: mounting ([Kernel/ext2.c])

    Reading the superblock, the group descriptors and the root inode, and the calls that
    report on the file system.  The theorem shows that a mount establishes what the
    theorems on blocks, files and directories assume of the geometry. *)

From S2P Require Import Prelude Ext2Disk Ext2Map Ext2File.

(** Members of the superblock (1024 bytes). *)
Definition sb_field (n : nat) (off : nat) (sb : buf) : Z := le_value (take n (drop off sb)).
Definition s_inodes_cnt := sb_field 4 0.
Definition s_blocks_cnt := sb_field 4 4.
Definition sb_free_blocks := sb_field 4 12.
Definition sb_free_inodes := sb_field 4 16.
Definition s_first_data_block := sb_field 4 20.
Definition s_log_block_size := sb_field 4 24.
Definition s_blocks_per_group := sb_field 4 32.
Definition s_inodes_per_group := sb_field 4 40.
Definition s_signature := sb_field 2 56.
Definition s_UID := sb_field 2 80.
Definition s_inode_size := sb_field 2 88.
Definition s_ext_features := sb_field 4 100.
Definition EXT2_MAGIC := 61267.

(** A descriptor from its 32 bytes, and the first [n] of the table. *)
Definition bgd_of (x : buf) : ext2_bgd_t :=
  mk_bgd (sb_field 4 0 x) (sb_field 4 4 x) (sb_field 4 8 x) (sb_field 2 12 x) (sb_field 2 14 x) (sb_field 2 16 x)
    (take 14 (drop 18 x)).
Fixpoint descs_of (n : nat) (x : buf) : list ext2_bgd_t :=
  match n with O => [] | S n => bgd_of (take 32 x) :: descs_of n (drop 32 x) end.

(** What a mount leaves: [fsdata], the state the operations change, the memory behind the
    descriptors, the inode of the root, and its vnode. *)
Record mounted : Type := mk_mounted {
  m_fs : ext2_fs_t; m_st : ext2_st; m_tail : buf; m_root : buf; m_node : vnode; m_sb : buf }.

(** [fs] as the superblock gives it; [ts0] is what the fresh memory holds in
    [block_group_desc_table_size], which nothing sets. *)
Definition fs_of (ts0 : Z) (sb : buf) : ext2_fs_t :=
  mk_fs (u32 (Z.shiftl 1024 (s_log_block_size sb mod 32))) (s_inode_size sb)
    (u32 (u32 (s_blocks_cnt sb + s_first_data_block sb - 1) / s_blocks_per_group sb + 1))
    (s_blocks_per_group sb) (s_inodes_per_group sb) (u32 (s_first_data_block sb + 1)) (s_first_data_block sb) ts0.

(** The size of the descriptor table, up to whole sectors. *)
Definition table_size (fs : ext2_fs_t) : Z :=
  let n := s32 (32 * groups_count fs) in
  if Z.rem n 512 =? 0 then n else n + (512 - Z.rem n 512).

(** A division by zero raises the processor's exception. *)
Definition nonzero (n : Z) : outcome unit := if n =? 0 then Fail Panic else Done tt.

Definition ext2_mount (junk : Z → buf) (ts0 : Z) (v0 : vnode) (d : disk) : outcome (Z * option mounted) :=
  let '(ret, sb) := block_read d 2 2 (junk 1024) in
  if ret <? 0 then Done (-1, None) else
  if negb (s_signature sb =? EXT2_MAGIC) then Done (-1, None) else
  _ ← nonzero (s_blocks_per_group sb);
  let fs := fs_of ts0 sb in
  _ ← assert_ (u32 (32 * groups_count fs) <=? blksize fs);
  let ts := table_size fs in
  let '(ret, tbl) := block_read d (sector_of fs (first_block_group_no fs)) (Z.quot ts 512) (junk ts) in
  if ret <? 0 then Done (-1, None) else
  let n := Z.to_nat (groups_count fs) in
  let st := mk_est d (descs_of n tbl) (sb_free_blocks sb) (sb_free_inodes sb) in
  _ ← nonzero (inode_per_grp fs); _ ← nonzero (blksize fs); _ ← nonzero (inode_size fs);
  _ ← nonzero (blksize fs / inode_size fs);
  r ← ext2_inode_to_block fs st 2;
  let '(root_inode_block, _) := default (0, 0) r in
  let '(ret, root) := block_read d (sector_of fs root_inode_block) 1 (junk (Z.max (inode_size fs) 512)) in
  if ret =? -1 then Done (-1, None) else
  inode ← sub_buf root (inode_size fs / 128 * 128) (inode_size fs);
  mode ← get_le 2 off_i_mode inode; size ← get_le 4 off_i_size inode; gid ← get_le 2 24 inode;
  atime ← get_le 4 off_i_atime inode; mtime ← get_le 4 off_i_mtime inode; ctime ← get_le 4 12 inode;
  Done (0, Some (mk_mounted fs st (drop (n * 32) tbl) inode (mk_vnode 2 size mode (v_uid v0) gid atime ctime mtime) sb)).

(** [struct statfs] as [ext2_statfs] fills it, but for the path. *)
Record statfs : Type := mk_statfs {
  f_bsize : Z; f_type : Z; f_bfree : Z; f_blocks : Z; f_files : Z; f_ffree : Z; f_flags : Z; f_fsid : buf; f_owner : Z; f_iosize : Z }.
Definition ext2_statfs (m : mounted) : statfs :=
  let fs := m_fs m in let sb := m_sb m in let s := m_st m in
  mk_statfs (blksize fs) (s_signature sb) (s_free_blocks s) (s_blocks_cnt sb) (s_inodes_cnt sb) (s_free_inodes s)
    (s_ext_features sb) (take 16 (drop 104 sb)) (s_UID sb) (blksize fs).

(** The members of [struct stat] that [ext2_fstat] sets. *)
Record fstat_buf : Type := mk_fstat { fst_atime : Z; fst_blksize : Z; fst_ino : Z; fst_mode : Z; fst_mtime : Z; fst_size : Z; fst_gid : Z }.
Definition ext2_fstat (fs : ext2_fs_t) (f : file) : Z * fstat_buf :=
  let v := f_vnode f in (0, mk_fstat (v_atime v) (blksize fs) (v_id v) (v_mode v) (v_mtime v) (v_size v) (v_gid v)).

(** ** What a mount establishes *)

Lemma blksize_log ts0 sb : s_log_block_size sb <= 2 → 0 <= s_log_block_size sb →
  blksize (fs_of ts0 sb) = 1024 * 2 ^ s_log_block_size sb.
Proof.
  intros H2 H0. cbn [fs_of blksize]. rewrite Z.mod_small, Z.shiftl_mul_pow2 by lia.
  assert (s_log_block_size sb = 0 ∨ s_log_block_size sb = 1 ∨ s_log_block_size sb = 2) as [->|[->| ->]] by lia; done.
Qed.

Lemma descs_of_length n x : length (descs_of n x) = n.
Proof. revert x. induction n as [|n IH]; intros x; [done|]. simpl. by rewrite IH. Qed.

(** A disk with a file system that the kernel can use: blocks of 1, 2 or 4 KB, inodes of 128 or 256 bytes,
    a descriptor table of at most a block, all on the disk. *)
Record mountable (ts0 : Z) (d : disk) (sb tbl x : buf) : Prop := mk_mountable {
  mo_full : full_disk d;
  mo_sb : rd_sect d 2 2 = Some sb;
  mo_magic : s_signature sb = EXT2_MAGIC;
  mo_log : 0 <= s_log_block_size sb <= 2;
  mo_inode : s_inode_size sb = 128 ∨ s_inode_size sb = 256;
  mo_bpg : 0 < s_blocks_per_group sb;
  mo_ipg : 2 <= s_inodes_per_group sb ∧ s_inodes_per_group sb * 256 < 2 ^ 32;
  mo_blocks : 0 <= s_first_data_block sb ∧ 1 <= s_blocks_cnt sb ∧ s_blocks_cnt sb + s_first_data_block sb < 2 ^ 32;
  mo_groups : groups_count (fs_of ts0 sb) * 32 <= blksize (fs_of ts0 sb);
  mo_tbl : rd_sect d (sector_of (fs_of ts0 sb) (first_block_group_no (fs_of ts0 sb)))
    (Z.to_nat (Z.quot (table_size (fs_of ts0 sb)) 512)) = Some tbl;
  mo_start : 0 <= inode_tbl_start (bgd_of (take 32 tbl)) < 2 ^ 31;
  mo_valid : valid (fs_of ts0 sb) (inode_tbl_start (bgd_of (take 32 tbl)));
  mo_root : rd_sect d (inode_tbl_start (bgd_of (take 32 tbl)) * sectors_per_block (fs_of ts0 sb))
    (Z.to_nat (sectors_per_block (fs_of ts0 sb))) = Some x;
}.

Lemma rd_sect_split d s n m x : rd_sect d s (n + m) = Some x →
  ∃ y z, rd_sect d s n = Some y ∧ x = y ++ z.
Proof.
  revert s x. induction n as [|n IH]; intros s x Hx; [by exists [], x|]. simpl in Hx.
  destruct (d !! s) as [a|] eqn:Ea; [|done]. cbn in Hx. destruct (rd_sect d (s + 1) (n + m)) as [b|] eqn:Eb; [|done].
  injection Hx as <-. destruct (IH _ _ Eb) as (y & z & Hy & ->). exists (a ++ y), z. rewrite app_assoc. split; [|done].
  simpl. by rewrite Ea, Hy.
Qed.

Section mount.
Context (junk : Z → buf) (Hjunk : junk_ok junk) (ts0 : Z) (v0 : vnode) (d : disk) (sb tbl x : buf).
Context (Hm : mountable ts0 d sb tbl x).
Notation fs := (fs_of ts0 sb).

Lemma mount_blksize : blksize fs = 1024 ∨ blksize fs = 2048 ∨ blksize fs = 4096.
Proof.
  destruct (mo_log _ _ _ _ _ Hm). rewrite blksize_log by lia.
  assert (s_log_block_size sb = 0 ∨ s_log_block_size sb = 1 ∨ s_log_block_size sb = 2) as [->|[->| ->]] by lia; auto.
Qed.

Lemma mount_geoms : geom fs ∧ map_geom fs ∧ inode_geom fs.
Proof.
  pose proof (mo_ipg _ _ _ _ _ Hm) as [? ?]. pose proof (mo_inode _ _ _ _ _ Hm) as Hi.
  pose proof mount_blksize as Hb. split; [|split].
  - unfold geom. destruct Hb as [->|[->| ->]]; done.
  - unfold map_geom. lia.
  - unfold inode_geom. cbn [fs_of inode_size inode_per_grp]. destruct Hi as [-> | ->], Hb as [->|[->| ->]];
      (do 3 (split; [done|]); split; lia).
Qed.

Lemma mount_groups : 1 <= groups_count fs ∧ groups_count fs * 32 <= 4096.
Proof.
  pose proof (mo_groups _ _ _ _ _ Hm) as Hg. pose proof mount_blksize as Hb.
  destruct (mo_blocks _ _ _ _ _ Hm) as (? & ? & ?). pose proof (mo_bpg _ _ _ _ _ Hm).
  split; [|lia]. cbn [fs_of groups_count]. rewrite (u32_small (_ - 1)) by lia.
  assert (0 <= (s_blocks_cnt sb + s_first_data_block sb - 1) / s_blocks_per_group sb) by (apply Z.div_pos; lia).
  destruct (Z.eq_dec ((s_blocks_cnt sb + s_first_data_block sb - 1) / s_blocks_per_group sb) (2 ^ 32 - 1)) as [He|He].
  - exfalso. assert ((s_blocks_cnt sb + s_first_data_block sb - 1) / s_blocks_per_group sb <= s_blocks_cnt sb + s_first_data_block sb - 1);
      [apply Z.div_le_upper_bound; nia|lia].
  - assert ((s_blocks_cnt sb + s_first_data_block sb - 1) / s_blocks_per_group sb <= s_blocks_cnt sb + s_first_data_block sb - 1)
      by (apply Z.div_le_upper_bound; nia).
    rewrite u32_small by lia. lia.
Qed.

Lemma mount_table : 0 <= table_size fs ∧ Z.rem (table_size fs) 512 = 0 ∧ 32 * groups_count fs <= table_size fs.
Proof.
  pose proof mount_groups as [? ?]. unfold table_size. rewrite s32_small by lia. rewrite !Z.rem_mod_nonneg by lia.
  pose proof (Z.mod_pos_bound (32 * groups_count fs) 512 ltac:(lia)).
  pose proof (Z.div_mod (32 * groups_count fs) 512 ltac:(lia)).
  destruct (Z.eqb_spec ((32 * groups_count fs) mod 512) 0) as [He|He].
  - rewrite Z.rem_mod_nonneg by lia. lia.
  - split; [lia|]. split; [|lia]. rewrite Z.rem_mod_nonneg by lia.
    symmetry. apply (Z.mod_unique _ _ (32 * groups_count fs / 512 + 1)); lia.
Qed.

(** A request that the disk answers in full. *)
Lemma block_read_full s n y : rd_sect d s (Z.to_nat n) = Some y → 0 <= n → Z.of_nat (length y) = n * 512 →
  ∀ b, (length b = length y)%nat → block_read d s n b = (n * 512, y).
Proof. intros Hr Hn Hl b Hb. unfold block_read. rewrite Hr, drop_ge by lia. by rewrite app_nil_r. Qed.

Lemma mount_root_sector : ∃ y z, rd_sect d (sector_of fs (inode_tbl_start (bgd_of (take 32 tbl)))) 1 = Some y ∧ x = y ++ z ∧ length y = 512%nat.
Proof.
  pose proof mount_geoms as (Hg & _ & _). destruct (spb_pos fs Hg) as [Hs Hbs].
  rewrite (sector_of_valid fs Hg) by apply (mo_valid _ _ _ _ _ Hm).
  pose proof (mo_root _ _ _ _ _ Hm) as Hr.
  replace (Z.to_nat (sectors_per_block fs)) with (1 + (Z.to_nat (sectors_per_block fs) - 1))%nat in Hr by lia.
  destruct (rd_sect_split _ _ _ _ _ Hr) as (y & z & Hy & ->). exists y, z. split; [done|]. split; [done|].
  apply rd_sect_length in Hy; [lia|apply (mo_full _ _ _ _ _ Hm)].
Qed.

Notation st := (mk_est d (descs_of (Z.to_nat (groups_count fs)) tbl) (sb_free_blocks sb) (sb_free_inodes sb)).

(** The root inode is the second of the first block of the first group's table. *)
Lemma mount_root_place : nthZ (group_desc st) (group_of fs 2) = Some (bgd_of (take 32 tbl)) ∧
  inode_block fs (bgd_of (take 32 tbl)) 2 = inode_tbl_start (bgd_of (take 32 tbl)) ∧ inode_slot fs 2 = 1 ∧
  blksize fs / inode_size fs ≠ 0.
Proof.
  pose proof mount_groups as [Hg1 _]. pose proof (mo_ipg _ _ _ _ _ Hm) as [? ?].
  pose proof (mo_inode _ _ _ _ _ Hm) as Hi. pose proof mount_blksize as Hb.
  assert (1 < blksize fs / inode_size fs) by (cbn [inode_size fs_of]; destruct Hi as [-> | ->], Hb as [->|[->| ->]]; done).
  assert (index_of fs 2 = 1) as Hix by (unfold index_of; cbn [fs_of inode_per_grp]; apply Z.mod_small; lia).
  split; [|split; [|split; [|lia]]].
  - unfold group_of. cbn [fs_of inode_per_grp group_desc]. rewrite Z.div_small by lia.
    destruct (Z.to_nat (groups_count fs)) as [|n] eqn:En; [lia|]. done.
  - unfold inode_block. rewrite Hix, Z.div_small by lia. lia.
  - unfold inode_slot. rewrite Hix. apply Z.mod_small. lia.
Qed.

Lemma mount_spec : ∃ node, ext2_mount junk ts0 v0 d =
    Done (0, Some (mk_mounted fs st (drop (Z.to_nat (groups_count fs) * 32) tbl) (inode_bytes fs x 2) node sb)) ∧
  v_id node = 2 ∧ v_size node = i_size (inode_bytes fs x 2) ∧ v_uid node = v_uid v0.
Proof.
  pose proof mount_geoms as (Hg & Hmg & Hig). pose proof (mo_full _ _ _ _ _ Hm) as Hf. pose proof mount_table as (Ht0 & Htr & Htg).
  pose proof mount_groups as [Hg1 Hg2]. pose proof (mo_groups _ _ _ _ _ Hm) as Hgb. pose proof mount_blksize as Hb.
  destruct mount_root_place as (Hgd & Hib & Hsl & Hpb). destruct (mo_ipg _ _ _ _ _ Hm) as [Hipg _].
  pose proof (rd_sect_length _ _ _ _ Hf (mo_sb _ _ _ _ _ Hm)) as Hlsb.
  pose proof (rd_sect_length _ _ _ _ Hf (mo_tbl _ _ _ _ _ Hm)) as Hltbl.
  assert (Hq : table_size fs = 512 * Z.quot (table_size fs) 512) by (pose proof (Z.quot_rem (table_size fs) 512); lia).
  unfold ext2_mount. rewrite (block_read_full 2 2 sb (mo_sb _ _ _ _ _ Hm)) by (rewrite ?Hjunk; lia).
  change (2 * 512 <? 0) with false. cbv iota. rewrite (mo_magic _ _ _ _ _ Hm), Z.eqb_refl. cbn [negb].
  unfold nonzero. pose proof (mo_bpg _ _ _ _ _ Hm). rewrite (proj2 (Z.eqb_neq (s_blocks_per_group sb) 0)), bind_done by lia.
  rewrite u32_small by lia. unfold assert_. rewrite (proj2 (Z.leb_le _ _)), bind_done by lia.
  rewrite (block_read_full _ _ tbl (mo_tbl _ _ _ _ _ Hm)) by (rewrite ?Hjunk; lia).
  rewrite (proj2 (Z.ltb_ge _ 0)) by lia.
  rewrite (proj2 (Z.eqb_neq (inode_per_grp fs) 0)), bind_done by (cbn [fs_of inode_per_grp]; lia).
  rewrite (proj2 (Z.eqb_neq (blksize fs) 0)), bind_done by lia.
  assert (Hsz : inode_size fs = 128 ∨ inode_size fs = 256) by apply (mo_inode _ _ _ _ _ Hm).
  rewrite (proj2 (Z.eqb_neq (inode_size fs) 0)), bind_done, (proj2 (Z.eqb_neq _ 0) Hpb), bind_done by lia.
  rewrite (inode_to_block_spec fs Hg Hig st 2 (bgd_of (take 32 tbl))), bind_done
    by (done || (rewrite Hib; apply (mo_start _ _ _ _ _ Hm))).
  cbn [default from_option id]. rewrite Hib. destruct mount_root_sector as (y & z & Hy & Hx & Hly).
  assert (∃ tail, block_read d (sector_of fs (inode_tbl_start (bgd_of (take 32 tbl)))) 1 (junk (Z.max (inode_size fs) 512)) = (512, y ++ tail))
    as [tail ->] by (unfold block_read; change (Z.to_nat 1) with 1%nat; rewrite Hy; eauto).
  cbn [Z.eqb].
  assert (sub_buf (y ++ tail) (inode_size fs / 128 * 128) (inode_size fs) = Done (inode_bytes fs x 2)) as ->.
  { assert (inode_size fs / 128 * 128 = inode_size fs) as -> by (destruct Hsz as [-> | ->]; done).
    unfold sub_buf. rewrite (proj2 (Z.leb_le 0 (inode_size fs))) by lia. cbn [andb].
    rewrite (proj2 (Z.leb_le _ _)) by (rewrite ?length_app; lia). f_equal. unfold inode_bytes. rewrite Hsl, Z.mul_1_l, Hx.
    rewrite !drop_app_le, !take_app_le by (rewrite ?length_drop; lia). done. }
  rewrite bind_done. set (inode := inode_bytes fs x 2).
  assert (Hli : Z.of_nat (length inode) = inode_size fs).
  { apply (inode_bytes_length fs x 2 Hg Hig).
    pose proof (rd_sect_length _ _ _ _ Hf (mo_root _ _ _ _ _ Hm)). destruct (spb_pos fs Hg). lia. }
  rewrite !get_le_spec by (unfold field_in, off_i_mode, off_i_size, off_i_atime, off_i_mtime; lia). rewrite !bind_done.
  eexists. split; [reflexivity|]. done.
Qed.
End mount.

(** C19: Mounting establishes the types the other operations rely on. The disk is whole and has an ext2
    superblock for blocks of 1, 2 or 4 KB, inodes of 128 or 256 bytes, at least a block per group and 2 to
    2^24 - 1 inodes per group and block numbers below 2^32; its descriptor table is at most one block and is
    on the disk, and the inode table of the first group lies in the file system with its first block on the
    disk. Then ext2_mount returns 0 and a file system whose geometry the block, inode and block map
    operations are proved for, with as many descriptors as groups, the disk unchanged, and the root inode,
    read by hand from the disk, is the one that ext2_rw_inode reads for number 2. *)
Theorem mount_establishes junk loc ts0 v0 d sb tbl x b
    (Hjunk : junk_ok junk) (Hm : mountable ts0 d sb tbl x) (Hb : Z.of_nat (length b) = s_inode_size sb) :
  ∃ m, ext2_mount junk ts0 v0 d = Done (0, Some m) ∧ dsk (m_st m) = d ∧
    geom (m_fs m) ∧ map_geom (m_fs m) ∧ inode_geom (m_fs m) ∧
    Z.of_nat (length (group_desc (m_st m))) = groups_count (m_fs m) ∧
    ext2_rw_inode (m_fs m) junk loc (m_st m) 2 b 0 = Done (0, m_root m, m_st m) ∧
    v_id (m_node m) = 2 ∧ v_size (m_node m) = i_size (m_root m) ∧
    f_bfree (ext2_statfs m) = sb_free_blocks sb.
Proof.
  destruct (mount_spec junk Hjunk ts0 v0 d sb tbl x Hm) as (node & Heq & Hid & Hsz & _).
  pose proof (mount_geoms ts0 d sb tbl x Hm) as (Hg & Hmg & Hig).
  destruct (mount_root_place ts0 d sb tbl x Hm) as (Hgd & Hib & _ & _).
  eexists. split; [exact Heq|]. cbn [m_st m_fs m_root m_node dsk group_desc]. do 4 (split; [done|]).
  split; [rewrite descs_of_length; pose proof (mount_groups ts0 d sb tbl x Hm); lia|]. split; [|done].
  apply (read_inode_spec _ junk loc Hg Hjunk Hig _ 2 (bgd_of (take 32 tbl))); try done.
  - apply (mo_full _ _ _ _ _ Hm).
  - rewrite Hib. apply (mo_start _ _ _ _ _ Hm).
  - rewrite Hib. apply (mo_valid _ _ _ _ _ Hm).
  - rewrite Hib. apply (mo_root _ _ _ _ _ Hm).
Qed.

(** *** A disk with a file system

    The superblock of a 1 KB file system of 8 blocks and 16 inodes, one group; its table is in block 5. *)
Definition sb_bytes : buf :=
  [16; 0; 0; 0; 64; 0; 0; 0; 0; 0; 0; 0; 9; 0; 0; 0; 5; 0; 0; 0; 1; 0; 0; 0; 0; 0; 0; 0; 0; 0; 0; 0; 0; 32; 0; 0;
   0; 0; 0; 0; 16; 0; 0; 0] ++ replicate 12 0 ++ [83; 239] ++ replicate 30 0 ++ [128; 0] ++ replicate 934 0.
Definition tbl_bytes : buf := [3; 0; 0; 0; 4; 0; 0; 0; 5; 0; 0; 0; 9; 0; 5; 0; 1; 0] ++ replicate 494 0.
Definition root_block : buf := replicate 128 0 ++ [237; 65; 0; 0; 0; 4; 0; 0] ++ replicate 888 0.
Definition image : disk :=
  <[2 := take 512 sb_bytes]> (<[3 := drop 512 sb_bytes]> (<[4 := tbl_bytes]>
  (<[10 := take 512 root_block]> (<[11 := drop 512 root_block]> ∅)))).

Lemma image_full : full_disk image.
Proof.
  intros k y. unfold image. rewrite !lookup_insert_Some. intros Hk.
  repeat (destruct Hk as [[_ <-]|[_ Hk]]; [vm_compute; reflexivity|]). by rewrite lookup_empty in Hk.
Qed.

Lemma image_mountable : mountable 77 image sb_bytes tbl_bytes root_block.
Proof.
  split; [apply image_full|try (vm_compute; intuition congruence)..].
Qed.

Lemma mount_establishes_witness :
  ∃ m, ext2_mount demo_junk 77 (mk_vnode 0 0 0 0 0 0 0 0) image = Done (0, Some m) ∧ dsk (m_st m) = image ∧
    geom (m_fs m) ∧ map_geom (m_fs m) ∧ inode_geom (m_fs m) ∧
    Z.of_nat (length (group_desc (m_st m))) = groups_count (m_fs m) ∧
    ext2_rw_inode (m_fs m) demo_junk (0, 0) (m_st m) 2 (replicate 128 0) 0 = Done (0, m_root m, m_st m) ∧
    v_id (m_node m) = 2 ∧ v_size (m_node m) = i_size (m_root m) ∧ f_bfree (ext2_statfs m) = 9.
Proof.
  apply (mount_establishes demo_junk (0, 0) 77 (mk_vnode 0 0 0 0 0 0 0 0) image sb_bytes tbl_bytes root_block (replicate 128 0)
    demo_junk_ok image_mountable). reflexivity.
Defined.

(** The mounted [block_group_desc_table_size] is whatever the memory held. *)
Lemma mount_leaves_table_size : 
  ('(_, m) ← ext2_mount demo_junk 77 (mk_vnode 0 0 0 0 0 0 0 0) image;
   Done (match m with Some m => block_group_desc_table_size (m_fs m) | None => 0 end)) = Done 77.
Proof. vm_compute. reflexivity. Qed.

(** Two full groups behind a first data block 1 are counted as three: 1 is added to the number of blocks
    instead of being taken off. *)
Lemma groups_overcounted :
  groups_count (fs_of 0 (take 4 sb_bytes ++ [1; 64; 0; 0] ++ drop 8 sb_bytes)) = 3.
Proof. vm_compute. reflexivity. Qed.
