(* ===== verification/Ext2Dir.v ===== *)
(** * The ext2 file system: directories ([Kernel/ext2.c])

    A directory is a file whose blocks are chains of variable-length entries: inode
    number, length of the entry, length of the name, type, name.  The functions below
    find, insert and remove entries, create files and directories, and free inodes.
    A path component is the list of its bytes, without its NUL. *)

From S2P Require Import Prelude Ext2Disk Ext2Map Ext2File.

Definition EXT2_FT_DIR := 16384.
Definition EXT2_FT_REG := 32768.
Definition S_IFDIR := 16384.
Definition S_IFMT := 61440.
Definition U_WR := 128.
Definition off_i_ctime := 12.

(** [EXT2_DIR_REAL_LEN] *)
Definition real_len (name_len : Z) : Z := Z.land (name_len + 11) (Z.lnot 3).

(** The members of the entry at [off]. *)
Definition de_inode (blk : buf) (off : Z) : outcome Z := get_le 4 off blk.
Definition de_reclen (blk : buf) (off : Z) : outcome Z := get_le 2 (off + 4) blk.
Definition de_name_len (blk : buf) (off : Z) : outcome Z := get_le 1 (off + 6) blk.

(** [memcmp], [strcmp] and [strncmp] of a name in a block with a path; [p] is what is
    left of the path, with its NUL for the last two.  [memcmp] and [strcmp] are only
    compared with 0. *)
Fixpoint memcmp_at (p blk : buf) (off : Z) : outcome bool :=
  match p with
  | [] => Done true
  | c :: p => d ← get_le 1 off blk; if d =? c then memcmp_at p blk (off + 1) else Done false
  end.
Fixpoint strcmp_at (p blk : buf) (off : Z) : outcome bool :=
  match p with
  | [] => Fail BadPtr
  | c :: p =>
      d ← get_le 1 off blk;
      if negb (d =? 0) && negb (c =? 0) && (d =? c) then strcmp_at p blk (off + 1)
      else Done (d =? c)
  end.
Fixpoint strncmp_at (p blk : buf) (off n : Z) : outcome bool :=
  match p with
  | [] => Fail BadPtr
  | c :: p =>
      if n =? 0 then d ← get_le 1 off blk; Done (c =? d) else
      if c =? 0 then d ← get_le 1 off blk; Done (c =? d) else
      d ← get_le 1 off blk;
      if negb (d =? 0) && (c =? d) then strncmp_at p blk (off + 1) (n - 1) else Done (c =? d)
  end.

Section dir.
Context (fs : ext2_fs_t) (junk : Z → buf) (gd_tail : buf) (x0 : Z) (loc : Z * Z) (now real0 : Z).
Notation bs := (blksize fs).
Notation rw_inode := (ext2_rw_inode fs junk loc).
Notation read_block := (λ s inode nr b, ext2_inode_read_block fs junk gd_tail x0 s inode nr b real0).

(** ** Finding an entry *)

(** The scan of one block: [off] is both [de - block_buf] and [offset]. *)
Inductive found : Type := Hit (d : buf) | NextBlock.
Fixpoint find_scan (fuel : nat) (path blk : buf) (off : Z) : outcome found :=
  match fuel with
  | O => Fail Diverge
  | S fuel =>
      nl ← de_name_len blk off;
      hit ← (if nl =? Z.of_nat (length path) then memcmp_at path blk (off + 8) else Done false);
      if (hit : bool) then d ← sub_buf blk off (real_len nl); Done (Hit d) else
      r ← de_reclen blk off;
      if bs <=? off + r then Done NextBlock else find_scan fuel path blk (off + r)
  end.

Fixpoint find_blocks (fuel : nat) (path inode : buf) (block_nr : Z) (s : ext2_st) : outcome (option buf) :=
  match fuel with
  | O => Fail Diverge
  | S fuel =>
      '(ret, blk) ← read_block s inode block_nr (replicate (Z.to_nat bs) 0);
      if (ret =? -1) || (ret =? 0) then Done None else
      r ← find_scan (S (Z.to_nat bs)) path blk 0;
      match r with
      | Hit d => Done (Some d)
      | NextBlock => find_blocks fuel path inode (block_nr + 1) s
      end
  end.

(** The copy of the entry, or NULL. *)
Definition ext2_dir_find_entry (fuel : nat) (v_id : Z) (path : buf) (s : ext2_st) : outcome (option buf) :=
  '(ret, inode, s) ← rw_inode s v_id (junk (inode_size fs)) 0;
  if ret =? -1 then Done None else find_blocks fuel path inode 0 s.

Definition ext2_lookup (fuel : nat) (v_id : Z) (path : buf) (new_id : Z) (s : ext2_st) : outcome (Z * Z) :=
  de ← ext2_dir_find_entry fuel v_id path s;
  match de with
  | None => Done (- ENOENT, new_id)
  | Some d => i ← de_inode d 0; Done (0, i)
  end.

(** [struct stat], as [ext2_stat] fills it. *)
Record stat : Type := mk_stat {
  st_ino : Z; st_atime : Z; st_blksize : Z; st_blocks : Z; st_ctime : Z; st_gid : Z; st_mode : Z; st_mtime : Z;
  st_nlink : Z; st_size : Z; st_uid : Z }.

Definition stat_of (ino : Z) (inode : buf) : outcome stat :=
  atime ← get_le 4 off_i_atime inode; blocks ← get_le 4 off_i_sector_cnt inode;
  ctime ← get_le 4 off_i_ctime inode; gid ← get_le 2 24 inode; mode ← get_le 2 off_i_mode inode;
  mtime ← get_le 4 off_i_mtime inode; nlink ← get_le 2 off_i_link_cnt inode; size ← get_le 4 off_i_size inode;
  uid ← get_le 2 2 inode;
  Done (mk_stat ino atime bs blocks ctime gid mode mtime nlink size uid).

(** The value returned, and what is stored in the buffer. *)
Definition ext2_stat (fuel : nat) (v_id : Z) (path : buf) (s : ext2_st) : outcome (Z * option stat) :=
  ino ← (if decide (path = []) then Done (Some v_id) else
         de ← ext2_dir_find_entry fuel v_id path s;
         match de with None => Done None | Some d => i ← de_inode d 0; Done (Some i) end);
  match ino with
  | None => Done (- ENOENT, None)
  | Some ino =>
      '(ret, inode, s) ← rw_inode s ino (junk (inode_size fs)) 0;
      if ret <? 0 then Done (ret, None) else
      st ← stat_of ino inode; Done (0, Some st)
  end.

(** The vnode and the position and end of the file that [ext2_open] builds.  A failed read
    of the inode is only noticed below -1. *)
Definition ext2_open (fuel : nat) (v : vnode) (path : buf) (s : ext2_st) : outcome (Z * option file) :=
  if decide (path = []) then Done (0, Some (mk_file 0 (v_size v) 1 v)) else
  de ← ext2_dir_find_entry fuel (v_id v) path s;
  match de with
  | None => Done (- ENOENT, None)
  | Some d =>
      ino ← de_inode d 0;
      '(ret, inode, s) ← rw_inode s ino (junk (inode_size fs)) 0;
      if ret <? -1 then Done (- EIO, None) else
      size ← get_le 4 off_i_size inode; mode ← get_le 2 off_i_mode inode; gid ← get_le 2 24 inode;
      ctime ← get_le 4 off_i_ctime inode; mtime ← get_le 4 off_i_mtime inode;
      Done (0, Some (mk_file 0 size 1 (mk_vnode ino size mode 0 gid now ctime mtime)))
  end.

(** ** Inserting an entry *)

Inductive slot : Type := GotIt (off rl : Z) (blk : buf) | Exists | NoRoom (blk : buf).

(** The scan of one block, as long as [off <= limit]; [rec] is [ext2_dir_insert_entry] itself, for the
    branch that repairs an empty directory. *)
Fixpoint insert_scan (n : nat) (rec : Z → buf → ext2_st → outcome (Z * ext2_st)) (v_id inode_no : Z)
    (path : buf) (real_block limit reclen : Z) (blk : buf) (off : Z) (s : ext2_st) : outcome (slot * ext2_st) :=
  match n with
  | O => Fail Diverge
  | S n =>
      if limit <? off then Done (NoRoom blk, s) else
      nl ← de_name_len blk off;
      let rl := real_len nl in
      same ← strncmp_at (path ++ [0]) blk (off + 8) nl;
      if (same : bool) then
        if decide (path = [46] ∨ path = [46; 46]) then blk ← put_le 4 off 0 blk; Done (GotIt off rl blk, s)
        else Done (Exists, s)
      else
      ino ← de_inode blk off;
      r ← de_reclen blk off;
      if (ino =? 0) && (reclen <? r) then Done (GotIt off rl blk, s) else
      '(blk, s) ← (if (ino =? 0) && (r =? 0) then
                     blk ← put_le 2 (off + 4) 4096 blk;
                     let '(_, blk, s) := ext2_rw_block fs s real_block blk 1 in
                     '(_, s) ← rec inode_no [46] s;
                     '(_, s) ← rec v_id [46; 46] s;
                     Done (blk, s)
                   else Done (blk, s));
      r ← de_reclen blk off;
      if reclen + rl <? r then Done (GotIt off rl blk, s)
      else insert_scan n rec v_id inode_no path real_block limit reclen blk (off + r) s
  end.

(** [real_block == 0]: a new block for the directory. *)
Definition new_dir_block (block_nr : Z) (inode blk : buf) (s : ext2_st) : outcome (Z * buf * buf * ext2_st) :=
  '(rb, s) ← ext2_alloc_block fs junk gd_tail x0 s;
  '(_, rb, inode, s) ← ext2_inode_rw_real_block fs junk gd_tail x0 s inode block_nr rb true;
  size ← get_le 4 off_i_size inode; inode ← put_le 4 off_i_size (u32 (size + bs)) inode;
  inode ← add_sectors fs inode;
  let '(_, blk, s) := ext2_rw_block fs s rb blk 0 in
  blk ← put_le 2 4 bs blk;
  Done (rb, inode, blk, s).

(** The label [got_it]. *)
Definition put_entry (v_id inode_no : Z) (path inode blk : buf) (off rl real_block : Z) (s : ext2_st) : outcome (Z * ext2_st) :=
  ino ← de_inode blk off;
  '(blk, off) ← (if negb (ino =? 0) then
                   r ← de_reclen blk off;
                   blk ← put_le 2 (off + rl + 4) (u16 (r - rl)) blk;
                   blk ← put_le 2 (off + 4) rl blk;
                   Done (blk, off + rl)
                 else Done (blk, off));
  blk ← put_le 4 off inode_no blk;
  blk ← put_buf blk (off + 8) (path ++ [0]);
  blk ← put_le 1 (off + 6) (Z.of_nat (length path)) blk;
  blk ← put_le 1 (off + 8 + Z.of_nat (length path)) 0 blk;
  links ← get_le 2 off_i_link_cnt inode;
  inode ← put_le 2 off_i_link_cnt (u16 (links + 1)) inode;
  let '(_, _, s) := ext2_rw_block fs s real_block blk 1 in
  '(_, _, s) ← rw_inode s v_id inode 1;
  Done (0, s).

(** The loop over the blocks; the buffer is the one of the block before. *)
Fixpoint insert_blocks (fuel : nat) (rec : Z → buf → ext2_st → outcome (Z * ext2_st)) (v_id inode_no : Z)
    (path inode blk : buf) (block_nr : Z) (s : ext2_st) : outcome (Z * ext2_st) :=
  match fuel with
  | O => Fail Diverge
  | S fuel =>
      let reclen := real_len (Z.of_nat (length path)) in
      '(real_block, blk) ← read_block s inode block_nr blk;
      '(real_block, inode, blk, s) ←
        (if real_block =? 0 then new_dir_block block_nr inode blk s else Done (real_block, inode, blk, s));
      nl ← de_name_len blk 0;
      '(r, s) ← insert_scan (S (Z.to_nat bs)) rec v_id inode_no path real_block (4096 - real_len nl) reclen blk 0 s;
      match r with
      | GotIt off rl blk => put_entry v_id inode_no path inode blk off rl real_block s
      | Exists => Done (- EEXIST, s)
      | NoRoom blk => insert_blocks fuel rec v_id inode_no path inode blk (block_nr + 1) s
      end
  end.

Fixpoint ext2_dir_insert_entry (fuel : nat) (v_id inode_no : Z) (path : buf) (s : ext2_st) : outcome (Z * ext2_st) :=
  match fuel with
  | O => Fail Diverge
  | S fuel =>
      '(ret, inode, s) ← rw_inode s v_id (junk (inode_size fs)) 0;
      if ret =? -1 then Done (ret, s) else
      insert_blocks fuel (ext2_dir_insert_entry fuel v_id) v_id inode_no path inode (junk bs) 0 s
  end.

(** ** Checking a directory *)

(** The loop of [ext2_dir_check], over the blocks: [off] is [de - block_buf], [offset] is not
    reset when the next block is read. *)
Fixpoint check_loop (fuel : nat) (path inode blk : buf) (links i block_nr off offset : Z) (s : ext2_st) : outcome Z :=
  match fuel with
  | O => Fail Diverge
  | S fuel =>
      if links <=? i then Done 0 else
      ino ← de_inode blk off;
      if ino =? 0 then Done 0 else
      same ← strcmp_at (path ++ [0]) blk (off + 8);
      if (same : bool) then Done (- EEXIST) else
      r ← de_reclen blk off;
      let offset := offset + r in
      if bs <? offset then
        '(ret, blk) ← read_block s inode (block_nr + 1) blk;
        if ret <=? 0 then Done (- EIO) else
        (* [AGAIN] restarts the loop at [i = 0] *)
        check_loop fuel path inode blk links 0 (block_nr + 1) 0 offset s
      else check_loop fuel path inode blk links (i + 1) block_nr (off + r) offset s
  end.

Definition ext2_dir_check (fuel : nat) (v_id : Z) (path : buf) (s : ext2_st) : outcome Z :=
  '(ret, inode, s) ← rw_inode s v_id (junk (inode_size fs)) 0;
  if ret <? 0 then Done ret else
  mode ← get_le 2 off_i_mode inode;
  if Z.land mode EXT2_FT_DIR =? 0 then Done (- ENOTDIR) else
  if Z.land mode U_WR =? 0 then Done (- EPERM) else
  links ← get_le 2 off_i_link_cnt inode;
  '(ret, blk) ← read_block s inode 0 (junk bs);
  if ret <=? 0 then Done (- EIO) else check_loop fuel path inode blk links 0 0 0 0 s.

(** ** Freeing an inode *)

(** The loop of [ext2_dir_empty]: every turn looks at the first entry of the block, which
    [AGAIN] reads once more. *)
Fixpoint empty_loop (fuel : nat) (inode blk : buf) (inode_no links i offset : Z) (s : ext2_st) : outcome Z :=
  match fuel with
  | O => Fail Diverge
  | S fuel =>
      if links <=? i then Done 0 else
      ino ← de_inode blk 0;
      nl ← de_name_len blk 0;
      c0 ← get_le 1 8 blk;
      c1 ← get_le 1 9 blk;
      if negb (ino =? 0) &&
         (negb (c0 =? 46) || (2 <? nl) || (if nl <? 2 then negb (ino =? u32 inode_no) else negb (c1 =? 46)))
      then Done (-1) else
      r ← de_reclen blk 0;
      let offset := offset + r in
      if bs <? offset then
        '(ret, blk) ← read_block s inode 0 blk;
        if (ret =? 0) || (ret =? -1) then Done ret else empty_loop fuel inode blk inode_no links i 0 s
      else empty_loop fuel inode blk inode_no links (i + 1) offset s
  end.

(** [i0]: what the uninitialised counter holds. *)
Definition ext2_dir_empty (fuel : nat) (i0 : Z) (inode : buf) (inode_no : Z) (s : ext2_st) : outcome Z :=
  links ← get_le 2 off_i_link_cnt inode;
  if 2 <? links then Done (-1) else
  '(ret, blk) ← read_block s inode 0 (junk bs);
  if (ret =? 0) || (ret =? -1) then Done ret else empty_loop fuel inode blk inode_no links i0 0 s.

(** [for (;;)]: the blocks up to the first hole. *)
Fixpoint free_blocks (fuel : nat) (inode : buf) (block_nr real : Z) (s : ext2_st) : outcome ext2_st :=
  match fuel with
  | O => Fail Diverge
  | S fuel =>
      '(ret, real, inode, s) ← ext2_inode_rw_real_block fs junk gd_tail x0 s inode block_nr real false;
      if (ret =? 0) || (ret =? -1) then Done s else
      '(_, s) ← ext2_free_block fs junk gd_tail real s;
      free_blocks fuel inode (block_nr + 1) real s
  end.

Definition ext2_free_inode (fuel : nat) (i0 inode_no : Z) (s : ext2_st) : outcome (Z * ext2_st) :=
  let group_no := s32 (u32 (inode_no - 1) / inode_per_grp fs) in
  let offset_in_group := s32 (inode_no - 1 - group_no * inode_per_grp fs) in
  '(ret, inode, s) ← rw_inode s inode_no (junk (inode_size fs)) 0;
  if ret =? -1 then Done (ret, s) else
  mode ← get_le 2 off_i_mode inode;
  e ← (if negb (Z.land mode EXT2_FT_DIR =? 0) then ext2_dir_empty fuel i0 inode inode_no s else Done 0);
  if e =? -1 then Done (-1, s) else
  s ← free_blocks fuel inode 0 real0 s;
  g ← deref (nthZ (group_desc s) group_no);
  let '(ret, bm) := block_read (dsk s) (sector_of fs (inode_bitmap g)) (sectors_per_block fs) (junk bs) in
  if ret =? -1 then Done (ret, s) else
  bm ← bm_clear bm offset_in_group;
  let '(ret, d) := block_write (dsk s) (sector_of fs (inode_bitmap g)) (sectors_per_block fs) bm in
  if ret =? -1 then Done (ret, set_dsk d s) else
  Done (write_group_desc fs gd_tail (add_free_inodes 1 (upd_desc group_no (bgd_add_inodes 1) (set_dsk d s)))).

(** ** Removing an entry *)

(** The loop of [ext2_delete_entry]: [pde], the entry before, is an offset in the one buffer; the
    step is by the length the name needs, not by [d_reclen]. *)
Inductive del : Type := DelAt (block_no off : Z) (pde : option Z) (blk : buf) | DelMiss (ret : Z).
Fixpoint delete_loop (fuel : nat) (path inode blk : buf) (links i block_nr ret off offset : Z) (pde : option Z)
    (s : ext2_st) : outcome del :=
  match fuel with
  | O => Fail Diverge
  | S fuel =>
      if links <=? i then Done (DelMiss ret) else
      same ← strcmp_at (path ++ [0]) blk (off + 8);
      if (same : bool) then Done (DelAt ret off pde blk) else
      r ← de_reclen blk off;
      nl ← de_name_len blk off;
      let offset := offset + r in
      if bs <? offset then
        '(ret, blk) ← read_block s inode (block_nr + 1) blk;
        if (ret =? -1) || (ret =? 0) then Done (DelMiss ret) else
        delete_loop fuel path inode blk links 0 (block_nr + 1) ret 0 offset (Some off) s
      else delete_loop fuel path inode blk links (i + 1) block_nr ret (off + real_len nl) offset (Some off) s
  end.

Definition ext2_delete_entry (fuel : nat) (i0 v_id : Z) (path : buf) (s : ext2_st) : outcome (Z * ext2_st) :=
  '(ret, inode, s) ← rw_inode s v_id (junk (inode_size fs)) 0;
  if ret =? -1 then Done (ret, s) else
  '(ret, blk) ← read_block s inode 0 (junk bs);
  if (ret =? -1) || (ret =? 0) then Done (ret, s) else
  links ← get_le 2 off_i_link_cnt inode;
  r ← delete_loop fuel path inode blk links 0 0 ret 0 0 None s;
  match r with
  | DelMiss ret => Done (ret, s)
  | DelAt block_no off None blk => Done (block_no, s)
  | DelAt block_no off (Some p) blk =>
      pr ← de_reclen blk p;
      r ← de_reclen blk off;
      blk ← put_le 2 (p + 4) (u16 (pr + r)) blk;
      inode ← put_le 2 off_i_link_cnt (u16 (links - 1)) inode;
      ino ← de_inode blk off;
      '(ret, s) ← ext2_free_inode fuel i0 (s32 ino) s;
      if ret =? -1 then Done (ret, s) else
      '(_, _, s) ← rw_inode s v_id inode 1;
      nl ← de_name_len blk off;
      blk ← put_buf blk off (replicate (Z.to_nat (real_len nl)) 0);
      let '(_, _, s) := ext2_rw_block fs s block_no blk 1 in
      Done (0, s)
  end.

(** ** Creating files and directories *)

(** [inode_no0]: what [ext2_alloc_inode] returns when nothing is free.  The new vnode is its
    number and its [v_mode]. *)
Context (inode_no0 : Z).

Definition ext2_create_directory (fuel : nat) (i0 v_id : Z) (path : buf) (mode : Z) (s : ext2_st) : outcome (Z * option (Z * Z) * ext2_st) :=
  ret ← ext2_dir_check fuel v_id path s;
  if ret <? 0 then Done (ret, None, s) else
  '(inode_no, s) ← ext2_alloc_inode fs junk gd_tail inode_no0 s;
  _ ← assert_ (negb (inode_no =? -1));
  let err_out := λ ret s, '(_, s) ← ext2_free_inode fuel i0 inode_no s; Done (ret, None, s) in
  '(ret, inode, s) ← rw_inode s inode_no (junk (inode_size fs)) 0;
  if ret <? 0 then err_out ret s else
  inode ← put_le 2 off_i_mode (u16 mode) inode;
  inode ← put_le 4 off_i_sector_cnt 0 inode;
  inode ← put_le 2 off_i_link_cnt 0 inode;
  inode ← put_le 4 off_i_size 0 inode;
  inode ← put_le 4 off_i_atime now inode; inode ← put_le 4 off_i_mtime now inode; inode ← put_le 4 off_i_ctime now inode;
  '(ret, _, s) ← rw_inode s inode_no inode 1;
  if ret <? 0 then err_out ret s else
  '(ret, s) ← ext2_dir_insert_entry fuel v_id inode_no path s;
  if ret <? 0 then err_out ret s else
  '(ret, s) ← ext2_dir_insert_entry fuel inode_no inode_no [46] s;
  if ret <? 0 then err_out ret s else
  '(ret, s) ← ext2_dir_insert_entry fuel inode_no v_id [46; 46] s;
  if ret <? 0 then err_out ret s else
  Done (0, Some (inode_no, 0), s).

Definition ext2_create_entry (fuel : nat) (i0 v_id : Z) (path : buf) (mode : Z) (s : ext2_st) : outcome (Z * option (Z * Z) * ext2_st) :=
  ret ← ext2_dir_check fuel v_id path s;
  if ret <? 0 then Done (ret, None, s) else
  if negb (Z.land mode S_IFDIR =? 0) then ext2_create_directory fuel i0 v_id path mode s else
  '(inode_no, s) ← ext2_alloc_inode fs junk gd_tail inode_no0 s;
  _ ← assert_ (negb (inode_no =? -1));
  '(ret, inode, s) ← rw_inode s inode_no (junk (inode_size fs)) 0;
  if ret <? 0 then '(_, s) ← ext2_free_inode fuel i0 inode_no s; Done (ret, None, s) else
  let mode := if negb (Z.land mode S_IFMT =? 0) then Z.lor mode EXT2_FT_REG else mode in
  inode ← put_le 2 off_i_mode (u16 mode) inode;
  inode ← put_le 2 off_i_link_cnt 1 inode;
  inode ← put_le 4 off_i_size 0 inode;
  inode ← put_le 4 off_i_mtime now inode; inode ← put_le 4 off_i_ctime now inode; inode ← put_le 4 off_i_atime now inode;
  inode ← put_le 4 off_i_sector_cnt 0 inode;
  '(ret, s) ← ext2_dir_insert_entry fuel v_id inode_no path s;
  if ret <? 0 then '(_, s) ← ext2_free_inode fuel i0 inode_no s; Done (ret, None, s) else
  '(ret, _, s) ← rw_inode s inode_no inode 1;
  if ret <? 0 then
    '(_, s) ← ext2_delete_entry fuel i0 v_id path s;
    '(_, s) ← ext2_free_inode fuel i0 inode_no s; Done (ret, None, s)
  else Done (0, Some (inode_no, mode), s).

(** The file of [ext2_create]: position 0, the size of the new vnode. *)
Definition ext2_create (fuel : nat) (i0 : Z) (v : vnode) (path : buf) (mode : Z) (s : ext2_st) : outcome (Z * option file * ext2_st) :=
  '(ret, id, s) ← ext2_create_entry fuel i0 (v_id v) path mode s;
  match id with
  | None => Done (ret, None, s)
  | Some (id, v_mode) => Done (0, Some (mk_file 0 0 1 (mk_vnode id 0 v_mode 0 0 0 0 0)), s)
  end.
End dir.

(** ** The contents of a directory *)

(** An entry as the file system means it: [d_inode] 0 for a deleted one; the type byte and what
    follows the name are not looked at. *)
Record dent : Type := mk_dent { d_inode : Z; d_reclen : Z; d_name : buf }.
Definition used (e : dent) : Z := real_len (Z.of_nat (length (d_name e))).

(** The bytes of an entry, with some type and some padding. *)
Definition dent_bytes (e : dent) (t : Z) (pad : buf) : buf :=
  le_bytes 4 (d_inode e) ++ le_bytes 2 (d_reclen e) ++ [Z.of_nat (length (d_name e)); t] ++ d_name e ++ pad.
Definition encodes (e : dent) (x : buf) : Prop := ∃ t pad, x = dent_bytes e t pad.

Record dent_ok (e : dent) : Prop := mk_dent_ok {
  do_inode : 0 <= d_inode e < 2 ^ 32;
  do_reclen : used e <= d_reclen e < 2 ^ 16;
  do_name : Z.of_nat (length (d_name e)) < 256;
  do_nul : Forall (λ c, c ≠ 0) (d_name e);
}.

(** A block is the chain of its entries. *)
Inductive chain : list dent → buf → Prop :=
| chain_nil : chain [] []
| chain_cons e x es y : dent_ok e → encodes e x → Z.of_nat (length x) = d_reclen e → chain es y → chain (e :: es) (x ++ y).

(** The directory of inode [n], whose inode block holds [x]: its blocks are the chains [ds], up to the
    first hole. *)
Definition dir_block fs s (g : ext2_bgd_t) (x : buf) (n k : Z) (es : list dent) (r : Z) (y : buf) : Prop :=
  bmap fs s (inode_bytes fs x n) k = Some r ∧ 0 < r < 2 ^ 31 ∧ valid fs r ∧ r ≠ inode_block fs g n ∧
  block_data fs s r = Some y ∧ chain es y.
Record is_dir fs s (n : Z) (g : ext2_bgd_t) (x : buf) (ds : list (list dent)) : Prop := mk_is_dir {
  id_ready : inode_ready fs s n g x;
  id_blocks (k : nat) es : ds !! k = Some es → ∃ r y, dir_block fs s g x n (Z.of_nat k) es r y;
  id_end : bmap fs s (inode_bytes fs x n) (Z.of_nat (length ds)) = Some 0;
  id_len : Z.of_nat (length ds) < trip fs;
}.

(** The entry that a path component names. *)
Definition named (path : buf) (e : dent) : bool := bool_decide (d_name e = path).
Definition dir_find (path : buf) (ds : list (list dent)) : option dent := List.find (named path) (concat ds).

(** *** Fields of a buffer given as an append *)

Lemma get_le_app (n : nat) (off : Z) (pre a post : buf) : off = Z.of_nat (length pre) → length a = n →
  get_le n off (pre ++ a ++ post) = Done (le_value a).
Proof.
  intros -> Hl. rewrite get_le_spec by (split; [lia|rewrite !length_app; lia]).
  rewrite Nat2Z.id, drop_app_length, take_app_length' by done. done.
Qed.

Lemma put_le_app (n : nat) (off v : Z) (pre a post : buf) : off = Z.of_nat (length pre) → length a = n →
  put_le n off v (pre ++ a ++ post) = Done (pre ++ le_bytes n v ++ post).
Proof.
  intros -> Hl. rewrite put_le_spec by (split; [lia|rewrite !length_app; lia]).
  rewrite Nat2Z.id, take_app_length. do 3 f_equal. rewrite drop_app_add. by rewrite drop_app_length'.
Qed.

Lemma real_len_bounds n : 0 <= n → n + 8 <= real_len n <= n + 11 ∧ real_len n mod 4 = 0.
Proof.
  intros Hn. unfold real_len. replace (Z.lnot 3) with (-4) by done.
  assert (Z.land (n + 11) (-4) = 4 * ((n + 11) / 4)) as ->.
  { replace (-4) with (Z.lnot (Z.ones 2)) by done. rewrite <- Z.ldiff_land, Z.ldiff_ones_r by lia.
    rewrite Z.shiftl_mul_pow2, Z.shiftr_div_pow2 by lia. change (2 ^ 2) with 4. ring. }
  pose proof (Z.div_mod (n + 11) 4 ltac:(lia)). pose proof (Z.mod_pos_bound (n + 11) 4 ltac:(lia)).
  split; [lia|]. rewrite Z.mul_comm. by apply Z.mod_mul.
Qed.

Lemma dent_bytes_length e t pad : length (dent_bytes e t pad) = (8 + length (d_name e) + length pad)%nat.
Proof. unfold dent_bytes. rewrite !length_app, !le_bytes_length. simpl. lia. Qed.

(** The members of an entry inside of a buffer. *)
Lemma dent_fields e t pad pre post (off : Z) : dent_ok e → off = Z.of_nat (length pre) →
  let blk := pre ++ dent_bytes e t pad ++ post in
  de_inode blk off = Done (d_inode e) ∧ de_reclen blk off = Done (d_reclen e) ∧
  de_name_len blk off = Done (Z.of_nat (length (d_name e))).
Proof.
  intros [Hi Hr Hn _] -> blk. pose proof (real_len_bounds (Z.of_nat (length (d_name e))) ltac:(lia)) as [? _].
  unfold used in Hr. unfold de_inode, de_reclen, de_name_len, blk, dent_bytes.
  set (b4 := le_bytes 4 _). set (b2 := le_bytes 2 _).
  assert (length b4 = 4%nat) by apply le_bytes_length. assert (length b2 = 2%nat) by apply le_bytes_length.
  split; [|split].
  - rewrite <- !app_assoc. rewrite get_le_app by done. f_equal. by apply le_value_bytes.
  - replace (pre ++ _) with ((pre ++ b4) ++ b2 ++ ([Z.of_nat (length (d_name e)); t] ++ d_name e ++ pad ++ post))
      by (rewrite <- !app_assoc; done).
    rewrite get_le_app by (rewrite ?length_app; lia). f_equal. apply le_value_bytes. simpl. lia.
  - replace (pre ++ _) with ((pre ++ b4 ++ b2) ++ [Z.of_nat (length (d_name e))] ++ ([t] ++ d_name e ++ pad ++ post))
      by (rewrite <- !app_assoc; done).
    rewrite get_le_app by (done || (rewrite !length_app; lia)). f_equal. simpl. lia.
Qed.

(** *** Names *)

Lemma byte_at (pre post : buf) d off : off = Z.of_nat (length pre) → get_le 1 off (pre ++ d :: post) = Done d.
Proof. intros ->. rewrite (get_le_app 1 _ pre [d] post) by done. f_equal. simpl. lia. Qed.

Lemma snoc_cons {A} (pre : list A) d post : pre ++ d :: post = (pre ++ [d]) ++ post.
Proof. by rewrite <- app_assoc. Qed.

Lemma memcmp_spec (p x pre post : buf) off : length x = length p → off = Z.of_nat (length pre) →
  memcmp_at p (pre ++ x ++ post) off = Done (bool_decide (x = p)).
Proof.
  revert x pre off. induction p as [|c p IH]; intros [|d x] pre off Hl ->; try done.
  cbn [memcmp_at app]. rewrite byte_at, bind_done by done. destruct (Z.eqb_spec d c) as [->|Hne].
  - rewrite snoc_cons, IH by (rewrite ?length_app; simpl in *; lia). f_equal. apply bool_decide_ext. naive_solver.
  - rewrite bool_decide_false; [done|naive_solver].
Qed.

(** A name that is no prefix of the path differs from it before its end. *)
Lemma strncmp_spec (path name pre post : buf) off : Forall (λ c, c ≠ 0) path → Forall (λ c, c ≠ 0) name →
  ¬ name `prefix_of` path → off = Z.of_nat (length pre) →
  strncmp_at (path ++ [0]) (pre ++ name ++ post) off (Z.of_nat (length name)) = Done false.
Proof.
  revert name pre off. induction path as [|c path IH]; intros [|d name] pre off Hp Hq Hn ->;
    try (exfalso; apply Hn; apply prefix_nil); inversion_clear Hq as [|?? Hd Hq'];
    cbn [app strncmp_at]; rewrite (proj2 (Z.eqb_neq (Z.of_nat _) 0)) by (simpl; lia);
    rewrite byte_at by done; rewrite bind_done.
  - rewrite Z.eqb_refl. by rewrite (proj2 (Z.eqb_neq 0 d)) by done.
  - inversion_clear Hp as [|?? Hc Hp']. rewrite (proj2 (Z.eqb_neq c 0)) by done.
    rewrite bind_done. destruct (Z.eqb_spec c d) as [<-|Hne]; [|by rewrite andb_false_r].
    rewrite (proj2 (Z.eqb_neq c 0)) by done. cbn [negb andb].
    rewrite (snoc_cons pre c). replace (Z.of_nat (length (c :: name)) - 1) with (Z.of_nat (length name)) by (simpl; lia).
    apply IH; [done..| |rewrite length_app; simpl; lia]. intros Hpre. apply Hn. by apply prefix_cons.
Qed.

(** *** Finding *)

Lemma chain_fit es y : chain es y → (8 * length es <= length y)%nat.
Proof.
  induction 1 as [|e x es y Ho (t & pad & ->) Hl _ IH]; [done|]. rewrite length_app, dent_bytes_length. simpl. lia.
Qed.

(** The header of an entry, and what is behind it. *)
Definition dent_head (e : dent) (t : Z) : buf :=
  le_bytes 4 (d_inode e) ++ le_bytes 2 (d_reclen e) ++ [Z.of_nat (length (d_name e)); t].
Lemma dent_head_length e t : length (dent_head e t) = 8%nat.
Proof. unfold dent_head. by rewrite !length_app, !le_bytes_length. Qed.
Lemma dent_bytes_split e t pad : dent_bytes e t pad = dent_head e t ++ d_name e ++ pad.
Proof. unfold dent_bytes, dent_head. by rewrite <- !app_assoc. Qed.

Lemma dent_take e t pad n : (8 + length (d_name e) <= n)%nat →
  take n (dent_bytes e t pad) = dent_bytes e t (take (n - (8 + length (d_name e))) pad).
Proof.
  intros Hn. rewrite !dent_bytes_split, !app_assoc. rewrite take_app_ge by (rewrite length_app, dent_head_length; lia).
  rewrite length_app, dent_head_length. done.
Qed.

Lemma find_scan_spec fs path es y fuel pre off : chain es y → es ≠ [] → off = Z.of_nat (length pre) →
  blksize fs = Z.of_nat (length (pre ++ y)) → (length es <= fuel)%nat →
  match List.find (named path) es with
  | Some e => ∃ t pad, find_scan fs fuel path (pre ++ y) off = Done (Hit (dent_bytes e t pad)) ∧
      Z.of_nat (length (dent_bytes e t pad)) = used e
  | None => find_scan fs fuel path (pre ++ y) off = Done NextBlock
  end.
Proof.
  intros Hc. revert fuel pre off. induction Hc as [|e x es y Ho (t & pad & ->) Hl Hc IH]; intros [|fuel] pre off Hne -> Hbs Hf;
    simpl in Hf; try done; [lia|].
  pose proof (dent_fields e t pad pre y _ Ho eq_refl) as (_ & Hr & Hn). destruct (do_reclen _ Ho) as [Hu Hr16].
  cbn [find_scan]. rewrite Hn, bind_done. cbn [List.find].
  pose proof (real_len_bounds (Z.of_nat (length (d_name e))) ltac:(lia)) as [Hrl _]. unfold used in *.
  set (blk := pre ++ dent_bytes e t pad ++ y) in *.
  assert ((if Z.of_nat (length (d_name e)) =? Z.of_nat (length path) then memcmp_at path blk (Z.of_nat (length pre) + 8)
    else Done false) = Done (named path e)) as ->.
  { unfold named. destruct (Z.eqb_spec (Z.of_nat (length (d_name e))) (Z.of_nat (length path))) as [Hlen|Hlen].
    - unfold blk. rewrite dent_bytes_split.
      replace (pre ++ _) with ((pre ++ dent_head e t) ++ d_name e ++ (pad ++ y)) by (rewrite <- !app_assoc; done).
      apply memcmp_spec; [lia|]. rewrite length_app, dent_head_length. lia.
    - rewrite bool_decide_false; [done|congruence]. }
  rewrite bind_done. destruct (named path e) eqn:Ename.
  - eexists t, _. rewrite dent_bytes_length in Hl. split.
    + unfold sub_buf, blk. rewrite (proj2 (Z.leb_le 0 (real_len _))), andb_true_r by lia.
      rewrite in_bounds_true by (rewrite ?length_app, ?dent_bytes_length; lia). rewrite bind_done.
      rewrite Nat2Z.id, drop_app_length, take_app_le by (rewrite dent_bytes_length; lia).
      rewrite dent_take by lia. done.
    + rewrite dent_bytes_length, length_take. lia.
  - rewrite Hr, bind_done. rewrite <- Hl. unfold blk in *. rewrite !length_app in Hbs.
    destruct (Z.leb_spec (blksize fs) (Z.of_nat (length pre) + Z.of_nat (length (dent_bytes e t pad)))) as [Hge|Hlt].
    + inversion Hc as [|e' x' es' y' Ho' He' Hl' Hc']; subst; [done|]. pose proof (chain_fit _ _ Hc). simpl in *. lia.
    + assert (es ≠ []) as Hes by (intros ->; inversion Hc; subst; simpl in *; lia).
      rewrite app_assoc. rewrite <- Nat2Z.inj_add, <- length_app. 
      apply IH; [done|done|rewrite <- app_assoc, !length_app; lia|lia].
Qed.

Section lookups.
Context (fs : ext2_fs_t) (junk : Z → buf) (gd_tail : buf) (x0 : Z) (loc : Z * Z) (real0 : Z).
Context (Hgeom : geom fs) (Hjunk : junk_ok junk) (Hmg : map_geom fs) (Hig : inode_geom fs).
Notation read_blk := (λ s inode nr b, ext2_inode_read_block fs junk gd_tail x0 s inode nr b real0).

Lemma read_mapped s inode k tmp r y : full_disk (dsk s) → 0 <= k < trip fs → bmap fs s inode k = Some r →
  0 < r < 2 ^ 31 → valid fs r → block_data fs s r = Some y → Z.of_nat (length tmp) = blksize fs →
  read_blk s inode k tmp = Done (r, y).
Proof.
  intros Hf Hk Hb Hr Hv Hy Ht. unfold ext2_inode_read_block.
  rewrite (rw_get fs junk gd_tail x0 Hgeom Hjunk Hmg s inode k real0 r), bind_done by done.
  rewrite s32_small by lia. rewrite (proj2 (Z.eqb_neq r (-1))), (proj2 (Z.eqb_neq r 0)) by lia.
  by rewrite (rw_block_read fs Hgeom s r y).
Qed.

Lemma read_hole s inode k tmp : full_disk (dsk s) → 0 <= k < trip fs → bmap fs s inode k = Some 0 →
  read_blk s inode k tmp = Done (0, tmp).
Proof.
  intros Hf Hk Hb. unfold ext2_inode_read_block.
  by rewrite (rw_get fs junk gd_tail x0 Hgeom Hjunk Hmg s inode k real0 0), bind_done by done.
Qed.

(** The result of a search: the entry's bytes. *)
Definition found_as (o : option dent) (r : outcome (option buf)) : Prop :=
  match o with
  | Some e => ∃ t pad, r = Done (Some (dent_bytes e t pad)) ∧ Z.of_nat (length (dent_bytes e t pad)) = used e ∧ dent_ok e
  | None => r = Done None
  end.

Lemma find_app_or {A} (f : A → bool) l k :
  List.find f (l ++ k) = match List.find f l with Some a => Some a | None => List.find f k end.
Proof. induction l as [|a l IH]; [done|]. simpl. by destruct (f a). Qed.

Lemma chain_ok es y e : chain es y → e ∈ es → dent_ok e.
Proof. induction 1 as [|? x es y Ho He Hl Hc IH]; intros Hin; [by apply not_elem_of_nil in Hin|].
  apply elem_of_cons in Hin as [->|Hin]; [done|]. by apply IH. Qed.

Lemma find_blocks_spec s n g x ds path fuel k : is_dir fs s n g x ds → (k <= length ds)%nat → (length ds - k < fuel)%nat →
  found_as (dir_find path (drop k ds)) (find_blocks fs junk gd_tail x0 real0 fuel path (inode_bytes fs x n) (Z.of_nat k) s).
Proof.
  intros [[Hf _ _ _ _ _] Hb He Hlen]. pose proof (proj1 Hgeom) as Hbs.
  revert k. induction fuel as [|fuel IH]; intros k Hk Hfuel; [lia|]. cbn [find_blocks].
  destruct (decide (k = length ds)) as [->|Hne].
  - rewrite drop_all. rewrite read_hole by (done || lia). done.
  - destruct (lookup_lt_is_Some_2 ds k ltac:(lia)) as [es Hes].
    destruct (Hb k es Hes) as (r & y & Hr & Hr31 & Hv & _ & Hy & Hc).
    pose proof (block_data_length fs Hgeom s _ _ Hf Hy) as Hly.
    rewrite (read_mapped s _ _ _ r y), bind_done by (done || (rewrite length_replicate; lia) || lia).
    rewrite (proj2 (Z.eqb_neq r (-1))), (proj2 (Z.eqb_neq r 0)) by lia. cbn [orb].
    assert (es ≠ []) as Hne' by (intros ->; inversion Hc; subst; simpl in *; lia).
    pose proof (chain_fit _ _ Hc) as Hfit.
    pose proof (find_scan_spec fs path es y (Datatypes.S (Z.to_nat (blksize fs))) [] 0 Hc Hne' eq_refl (eq_sym Hly) ltac:(lia)) as Hs.
    rewrite (drop_S ds es k Hes). unfold dir_find. rewrite concat_cons, find_app_or. cbn [app] in Hs.
    destruct (List.find (named path) es) as [e|] eqn:Efind.
    + destruct Hs as (t & pad & -> & Hl). exists t, pad. rewrite bind_done. split; [done|]. split; [done|].
      apply (chain_ok es y); [done|]. apply find_some in Efind as [Hin _]. by apply list_elem_of_In.
    + rewrite Hs, bind_done. replace (Z.of_nat k + 1) with (Z.of_nat (Datatypes.S k)) by lia. apply IH; lia.
Qed.

Lemma find_entry_spec s n g x ds path fuel : is_dir fs s n g x ds → (length ds < fuel)%nat →
  found_as (dir_find path ds) (ext2_dir_find_entry fs junk gd_tail x0 loc real0 fuel n path s).
Proof.
  intros Hd Hfuel. pose proof Hd as [[Hf Hn Hg Hi Hv Hx] _ _ _]. unfold ext2_dir_find_entry.
  pose proof Hig as (Hip & _).
  rewrite (read_inode_spec fs junk loc Hgeom Hjunk Hig s n g _ x), bind_done by (done || (rewrite Hjunk by lia; lia)).
  cbn [Z.eqb]. apply (find_blocks_spec s n g x ds path fuel 0 Hd); lia.
Qed.

Lemma lookup_spec s n g x ds path new_id fuel : is_dir fs s n g x ds → (length ds < fuel)%nat →
  ext2_lookup fs junk gd_tail x0 loc real0 fuel n path new_id s =
  Done (match dir_find path ds with Some e => (0, d_inode e) | None => (- ENOENT, new_id) end).
Proof.
  intros Hd Hfuel. pose proof (find_entry_spec s n g x ds path fuel Hd Hfuel) as Hs. unfold ext2_lookup.
  destruct (dir_find path ds) as [e|]; simpl in Hs.
  - destruct Hs as (t & pad & -> & _ & Ho). rewrite bind_done.
    destruct (dent_fields e t pad [] [] 0 Ho eq_refl) as [Hi _]. cbn [app] in Hi. rewrite app_nil_r in Hi.
    by rewrite Hi.
  - by rewrite Hs.
Qed.
End lookups.

(** *** Inserting *)

Definition need (path : buf) : Z := real_len (Z.of_nat (length path)).
(** There is room in the entry: it is deleted and long enough, or what its name leaves is. *)
Definition room (path : buf) (e : dent) : bool :=
  if d_inode e =? 0 then need path <? d_reclen e else need path + used e <? d_reclen e.
(** What becomes of the entry. *)
Definition placed (path : buf) (ino : Z) (e : dent) : list dent :=
  if d_inode e =? 0 then [mk_dent ino (d_reclen e) path]
  else [mk_dent (d_inode e) (used e) (d_name e); mk_dent ino (d_reclen e - used e) path].

Lemma used_bounds e : used e mod 4 = 0 ∧ 8 + Z.of_nat (length (d_name e)) <= used e.
Proof. unfold used. pose proof (real_len_bounds (Z.of_nat (length (d_name e))) ltac:(lia)). lia. Qed.

(** One turn of the scan. *)
Lemma insert_scan_step fs n rec v ino path rb limit e t pad pre post off s : dent_ok e → off = Z.of_nat (length pre) → off <= limit →
  Forall (λ c, c ≠ 0) path → ¬ d_name e `prefix_of` path →
  insert_scan fs (Datatypes.S n) rec v ino path rb limit (need path) (pre ++ dent_bytes e t pad ++ post) off s =
  if room path e then Done (GotIt off (used e) (pre ++ dent_bytes e t pad ++ post), s)
  else insert_scan fs n rec v ino path rb limit (need path) (pre ++ dent_bytes e t pad ++ post) (off + d_reclen e) s.
Proof.
  intros Ho -> Hlim Hp Hn. cbn [insert_scan]. rewrite (proj2 (Z.ltb_ge limit _)) by lia.
  pose proof (dent_fields e t pad pre post _ Ho eq_refl) as (Hi & Hr & Hl). rewrite Hl, bind_done. fold (used e).
  assert (strncmp_at (path ++ [0]) (pre ++ dent_bytes e t pad ++ post) (Z.of_nat (length pre) + 8)
    (Z.of_nat (length (d_name e))) = Done false) as ->.
  { rewrite dent_bytes_split.
    replace (pre ++ _) with ((pre ++ dent_head e t) ++ d_name e ++ (pad ++ post)) by (rewrite <- !app_assoc; done).
    apply strncmp_spec; [done|apply do_nul, Ho|done|rewrite length_app, dent_head_length; lia]. }
  rewrite bind_done, Hi, bind_done, Hr, bind_done. pose proof (used_bounds e) as [_ ?]. destruct (do_reclen _ Ho) as [? _].
  rewrite (proj2 (Z.eqb_neq (d_reclen e) 0)) by lia. unfold room. destruct (Z.eqb_spec (d_inode e) 0) as [Hz|Hz]; cbn [andb].
  - destruct (need path <? d_reclen e) eqn:E; [done|]. apply Z.ltb_ge in E.
    rewrite bind_done, Hr, bind_done. by rewrite (proj2 (Z.ltb_ge _ (d_reclen e))) by lia.
  - by rewrite bind_done, Hr, bind_done.
Qed.

Lemma insert_scan_spec fs n rec v ino path rb limit es1 y1 e t pad pre post off s : chain es1 y1 → dent_ok e →
  off = Z.of_nat (length pre) → off + Z.of_nat (length y1) <= limit → (length es1 < n)%nat → 
  Forall (λ c, c ≠ 0) path → Forall (λ e', ¬ d_name e' `prefix_of` path) (es1 ++ [e]) →
  Forall (λ e', room path e' = false) es1 → room path e = true →
  let blk := pre ++ y1 ++ dent_bytes e t pad ++ post in
  insert_scan fs n rec v ino path rb limit (need path) blk off s =
    Done (GotIt (off + Z.of_nat (length y1)) (used e) blk, s).
Proof.
  intros Hc Ho. revert n pre off. induction Hc as [|e1 x1 es1 y1 Ho1 (t1 & pad1 & ->) Hl1 Hc1 IH];
    intros [|n] pre off -> Hlim Hf Hp Hpre Hroom Hr blk; simpl in Hf; try lia.
  - inversion_clear Hpre. unfold blk. cbn [app length].
    rewrite insert_scan_step by (done || (simpl in Hlim; lia)). rewrite Hr, Z.add_0_r. done.
  - inversion_clear Hpre as [|?? Hpe Hpre']. inversion_clear Hroom as [|?? Hre Hroom']. unfold blk.
    rewrite length_app in Hlim. rewrite <- (app_assoc (dent_bytes e1 t1 pad1)).
    rewrite insert_scan_step by (done || lia). rewrite Hre, <- Hl1.
    rewrite (app_assoc pre (dent_bytes e1 t1 pad1)). rewrite <- Nat2Z.inj_add, <- length_app.
    rewrite IH by (done || (rewrite ?length_app; lia)). do 3 f_equal. rewrite !length_app. lia.
Qed.

(** The stores of [got_it] into an entry with room. *)
Lemma split_at {A} (l : list A) n : (n <= length l)%nat → ∃ a b, l = a ++ b ∧ length a = n.
Proof. intros Hn. exists (take n l), (drop n l). rewrite take_drop, length_take. split; [done|lia]. Qed.

Lemma store_new {A} (K : buf → outcome A) (path h b d rest pre : buf) c t ino off :
  length h = 4%nat → length b = 2%nat → length d = Datatypes.S (length path) → off = Z.of_nat (length pre) →
  Z.of_nat (length path) < 256 →
  (blk ← put_le 4 off ino (pre ++ h ++ b ++ [c; t] ++ d ++ rest);
   blk ← put_buf blk (off + 8) (path ++ [0]);
   blk ← put_le 1 (off + 6) (Z.of_nat (length path)) blk;
   blk ← put_le 1 (off + 8 + Z.of_nat (length path)) 0 blk; K blk) =
  K (pre ++ le_bytes 4 ino ++ b ++ [Z.of_nat (length path); t] ++ path ++ [0] ++ rest).
Proof.
  intros Hh Hb Hd -> Hp. rewrite put_le_app, bind_done by done. set (h' := le_bytes 4 ino).
  assert (length h' = 4%nat) by apply le_bytes_length.
  replace (pre ++ h' ++ _) with ((pre ++ h' ++ b ++ [c; t]) ++ d ++ rest) by (rewrite <- !app_assoc; done).
  rewrite put_buf_app, bind_done by (rewrite ?length_app; simpl; lia).
  replace ((pre ++ h' ++ b ++ [c; t]) ++ _) with ((pre ++ h' ++ b) ++ [c] ++ ([t] ++ path ++ [0] ++ rest))
    by (rewrite <- !app_assoc; done).
  rewrite put_le_app, bind_done by (rewrite ?length_app; simpl; lia).
  assert (le_bytes 1 (Z.of_nat (length path)) = [Z.of_nat (length path)]) as ->
    by (cbn [le_bytes]; unfold u8; rewrite Z.mod_small by lia; done).
  replace ((pre ++ h' ++ b) ++ _) with ((pre ++ h' ++ b ++ [Z.of_nat (length path); t] ++ path) ++ [0] ++ rest)
    by (rewrite <- !app_assoc; done).
  rewrite put_le_app, bind_done by (rewrite ?length_app; simpl; lia).
  change (le_bytes 1 0) with [0]. f_equal. rewrite <- !app_assoc. done.
Qed.

(** The block after [got_it]: the bytes of the placed entries. *)
Definition stored (path : buf) (ino : Z) (e : dent) (t : Z) (pad z : buf) : Prop :=
  chain (placed path ino e) z ∧ length z = length (dent_bytes e t pad).

Lemma need_bounds path : 8 + Z.of_nat (length path) <= need path.
Proof. unfold need. pose proof (real_len_bounds (Z.of_nat (length path)) ltac:(lia)). lia. Qed.

Lemma store_reuse {A} (K : buf → outcome A) path ino e t pad pre post off : dent_ok e → d_inode e = 0 → room path e = true →
  Z.of_nat (length (dent_bytes e t pad)) = d_reclen e → off = Z.of_nat (length pre) → 0 <= ino < 2 ^ 32 →
  Forall (λ c, c ≠ 0) path → Z.of_nat (length path) < 256 →
  ∃ z, stored path ino e t pad z ∧
  (blk ← put_le 4 off ino (pre ++ dent_bytes e t pad ++ post);
   blk ← put_buf blk (off + 8) (path ++ [0]);
   blk ← put_le 1 (off + 6) (Z.of_nat (length path)) blk;
   blk ← put_le 1 (off + 8 + Z.of_nat (length path)) 0 blk; K blk) = K (pre ++ z ++ post).
Proof.
  intros Ho Hz Hr Hl Hoff Hi Hp Hp256. pose proof (need_bounds path) as Hnp. unfold room in Hr. rewrite Hz in Hr. cbn [Z.eqb] in Hr.
  apply Z.ltb_lt in Hr. destruct (do_reclen _ Ho) as [_ Hr16]. rewrite dent_bytes_length in Hl.
  destruct (split_at (d_name e ++ pad) (Datatypes.S (length path))) as (d & rest & Hdr & Hd); [rewrite length_app; lia|].
  set (new := mk_dent ino (d_reclen e) path).
  exists (dent_bytes new t ([0] ++ rest)).
  assert (length (dent_bytes new t ([0] ++ rest)) = length (dent_bytes e t pad)) as Hlen.
  { rewrite !dent_bytes_length. apply (f_equal length) in Hdr. rewrite !length_app in Hdr. simpl. lia. }
  split.
  - split; [|done]. unfold placed. rewrite Hz. cbn [Z.eqb]. rewrite <- (app_nil_r (dent_bytes new t _)).
    apply chain_cons; [|by exists t, ([0] ++ rest)| |apply chain_nil].
    + split; cbn [new d_inode d_reclen d_name]; try done. split; [|done]. unfold used. simpl. fold (need path). lia.
    + rewrite Hlen, dent_bytes_length. simpl. lia.
  - assert (pre ++ dent_bytes e t pad ++ post = pre ++ le_bytes 4 (d_inode e) ++ le_bytes 2 (d_reclen e) ++
      [Z.of_nat (length (d_name e)); t] ++ d ++ rest ++ post) as ->.
    { unfold dent_bytes. rewrite Hdr, <- !app_assoc. done. }
    rewrite (store_new K path) by (done || apply le_bytes_length). f_equal. unfold dent_bytes. simpl. rewrite <- !app_assoc. done.
Qed.

(** Lengths of appends of known pieces. *)
Ltac len := repeat (rewrite length_app || rewrite dent_bytes_length || rewrite le_bytes_length); simpl; lia.

(** Equal appends, up to association. *)
Ltac reassoc := unfold dent_bytes; cbn [d_inode d_reclen d_name]; repeat first [rewrite <- app_assoc | progress (cbn [app])]; done.

(** Dividing an entry: its bytes up to its name's room, then space for a new one. *)
Lemma store_divide {A} (K : buf * Z → outcome A) path e t pad pre post off : dent_ok e → d_inode e ≠ 0 → room path e = true →
  Z.of_nat (length (dent_bytes e t pad)) = d_reclen e → off = Z.of_nat (length pre) →
  ∃ p1 h c t' d rest, length h = 4%nat ∧ length d = Datatypes.S (length path) ∧
    Z.of_nat (8 + length (d_name e) + length p1) = used e ∧
    d_reclen e = used e + Z.of_nat (9 + length path + length rest) ∧
  (blk ← put_le 2 (off + used e + 4) (u16 (d_reclen e - used e)) (pre ++ dent_bytes e t pad ++ post);
   blk ← put_le 2 (off + 4) (used e) blk; K (blk, off + used e)) =
  K ((pre ++ dent_bytes (mk_dent (d_inode e) (used e) (d_name e)) t p1) ++ h ++ le_bytes 2 (d_reclen e - used e) ++ [c; t'] ++
    d ++ rest ++ post, off + used e).
Proof.
  intros Ho Hz Hr Hl ->. pose proof (need_bounds path) as Hnp. pose proof (used_bounds e) as [_ Hu].
  unfold room in Hr. rewrite (proj2 (Z.eqb_neq _ 0) Hz) in Hr. apply Z.ltb_lt in Hr.
  assert (Hneed : Z.of_nat (9 + length path) <= d_reclen e - used e) by lia.
  destruct (do_reclen _ Ho) as [_ Hr16]. rewrite dent_bytes_length in Hl.
  destruct (split_at pad (Z.to_nat (used e) - 8 - length (d_name e))) as (p1 & q & -> & Hp1); [lia|]. rewrite length_app in Hl.
  destruct (split_at q 4) as (h & q1 & -> & Hh); [lia|]. rewrite length_app in Hl.
  destruct (split_at q1 2) as (b & q2 & -> & Hb); [lia|]. rewrite length_app in Hl.
  destruct q2 as [|c [|t' q2]]; [simpl in Hl; lia..|]. simpl in Hl.
  destruct (split_at q2 (Datatypes.S (length path))) as (d & rest & -> & Hd); [lia|]. rewrite length_app in Hl.
  exists p1, h, c, t', d, rest. split; [done|]. split; [done|]. split; [lia|]. split; [lia|].
  unfold u16. rewrite Z.mod_small by lia.
  replace (pre ++ dent_bytes e t _ ++ post) with
    ((pre ++ dent_bytes e t p1 ++ h) ++ b ++ ([c; t'] ++ d ++ rest ++ post)) by reassoc.
  rewrite put_le_app, bind_done by len.
  set (b' := le_bytes 2 (d_reclen e - used e)).
  replace ((pre ++ dent_bytes e t p1 ++ h) ++ b' ++ _) with ((pre ++ le_bytes 4 (d_inode e)) ++ le_bytes 2 (d_reclen e) ++
    ([Z.of_nat (length (d_name e)); t] ++ d_name e ++ p1 ++ h ++ b' ++ [c; t'] ++ d ++ rest ++ post))
    by reassoc.
  rewrite put_le_app, bind_done by len.
  f_equal. f_equal. cbn [d_inode d_reclen d_name]. reassoc.
Qed.

Lemma store_split {A} (K : buf → outcome A) path ino e t pad pre post off : dent_ok e → d_inode e ≠ 0 → room path e = true →
  Z.of_nat (length (dent_bytes e t pad)) = d_reclen e → off = Z.of_nat (length pre) → 0 <= ino < 2 ^ 32 →
  Forall (λ c, c ≠ 0) path → Z.of_nat (length path) < 256 →
  ∃ z, stored path ino e t pad z ∧
  (blk ← put_le 2 (off + used e + 4) (u16 (d_reclen e - used e)) (pre ++ dent_bytes e t pad ++ post);
   blk ← put_le 2 (off + 4) (used e) blk;
   blk ← put_le 4 (off + used e) ino blk;
   blk ← put_buf blk (off + used e + 8) (path ++ [0]);
   blk ← put_le 1 (off + used e + 6) (Z.of_nat (length path)) blk;
   blk ← put_le 1 (off + used e + 8 + Z.of_nat (length path)) 0 blk; K blk) = K (pre ++ z ++ post).
Proof.
  intros Ho Hz Hr Hl -> Hi Hp Hp256. pose proof (used_bounds e) as [_ Hu]. destruct (do_reclen _ Ho) as [_ Hr16].
  pose proof (need_bounds path) as Hnp. pose proof Hr as Hr'. unfold room in Hr'. rewrite (proj2 (Z.eqb_neq _ 0) Hz) in Hr'.
  apply Z.ltb_lt in Hr'.
  destruct (store_divide (λ '(blk, o), blk ← put_le 4 o ino blk; blk ← put_buf blk (o + 8) (path ++ [0]);
     blk ← put_le 1 (o + 6) (Z.of_nat (length path)) blk; blk ← put_le 1 (o + 8 + Z.of_nat (length path)) 0 blk; K blk)
     path e t pad pre post _ Ho Hz Hr Hl eq_refl) as (p1 & h & c & t' & d & rest & Hh & Hd & Hp1 & Hrest & Heq).
  set (e' := mk_dent (d_inode e) (used e) (d_name e)) in *. set (new := mk_dent ino (d_reclen e - used e) path).
  exists (dent_bytes e' t p1 ++ dent_bytes new t' ([0] ++ rest)). split.
  - split; [|rewrite length_app, !dent_bytes_length; rewrite dent_bytes_length in Hl; simpl; lia].
    unfold placed. rewrite (proj2 (Z.eqb_neq _ 0) Hz). fold e' new.
    apply chain_cons; [|by exists t, p1|rewrite dent_bytes_length; simpl; lia|].
    { destruct Ho as [? ? ? ?]. split; cbn [e' d_inode d_reclen d_name]; try done. unfold used in *. simpl. lia. }
    rewrite <- (app_nil_r (dent_bytes new t' _)).
    apply chain_cons; [|by exists t', ([0] ++ rest)|rewrite dent_bytes_length; simpl; lia|apply chain_nil].
    split; cbn [new d_inode d_reclen d_name]; try done. split; [|lia]. unfold used at 1. simpl. fold (need path). lia.
  - etrans; [exact Heq|]. rewrite store_new by (done || apply le_bytes_length || len).
    f_equal. unfold dent_bytes. cbn [new d_inode d_reclen d_name]. rewrite <- !app_assoc. done.
Qed.

Section insertion.
Context (fs : ext2_fs_t) (junk : Z → buf) (gd_tail : buf) (x0 : Z) (loc : Z * Z) (real0 : Z).
Context (Hgeom : geom fs) (Hjunk : junk_ok junk) (Hmg : map_geom fs) (Hig : inode_geom fs).

(** What [put_entry] does after the stores. *)
Definition put_finish (n : Z) (inode : buf) (r : Z) (s : ext2_st) (blk : buf) : outcome (Z * ext2_st) :=
  links ← get_le 2 off_i_link_cnt inode;
  inode ← put_le 2 off_i_link_cnt (u16 (links + 1)) inode;
  let '(_, _, s) := ext2_rw_block fs s r blk 1 in
  '(_, _, s) ← ext2_rw_inode fs junk loc s n inode 1;
  Done (0, s).

Lemma put_entry_stores n ino path inode e t pad pre post off r s : dent_ok e → room path e = true →
  Z.of_nat (length (dent_bytes e t pad)) = d_reclen e → off = Z.of_nat (length pre) → 0 <= ino < 2 ^ 32 →
  Forall (λ c, c ≠ 0) path → Z.of_nat (length path) < 256 →
  ∃ z, stored path ino e t pad z ∧
    put_entry fs junk loc n ino path inode (pre ++ dent_bytes e t pad ++ post) off (used e) r s =
    put_finish n inode r s (pre ++ z ++ post).
Proof.
  intros Ho Hr Hl Hoff Hi Hp Hp256. pose proof (dent_fields e t pad pre post off Ho Hoff) as (Hino & Hrl & _).
  unfold put_entry. rewrite Hino, bind_done. destruct (Z.eqb_spec (d_inode e) 0) as [Hz|Hz]; cbn [negb].
  - destruct (store_reuse (put_finish n inode r s) path ino e t pad pre post off) as (z & Hst & Heq); try done.
    exists z. split; [done|]. rewrite <- Heq. by rewrite bind_done.
  - destruct (store_split (put_finish n inode r s) path ino e t pad pre post off) as (z & Hst & Heq); try done.
    exists z. split; [done|]. rewrite <- Heq, Hrl, bind_done. 
    destruct (put_le 2 (off + used e + 4) _ _) as [b1|]; [|done]. rewrite !bind_done.
    by destruct (put_le 2 (off + 4) _ b1).
Qed.
Lemma put_finish_spec n g x inode r s blk y : inode_ready fs s n g x → inode = inode_bytes fs x n →
  0 < r < 2 ^ 31 → valid fs r → r ≠ inode_block fs g n → block_data fs s r = Some y → Z.of_nat (length blk) = blksize fs →
  ∃ s' x', put_finish n inode r s blk = Done (0, s') ∧ inode_ready fs s' n g x' ∧ block_data fs s' r = Some blk ∧
    (∀ b, b ≠ r → b ≠ inode_block fs g n → block_data fs s' b = block_data fs s b) ∧
    ∀ k, k < 12 → get_i_block (inode_bytes fs x' n) k = get_i_block inode k.
Proof.
  intros [Hf Hn Hg Hi Hv Hx] -> Hr Hvr Hne Hy Hl. pose proof Hig as (Hip & Him & Hib & Hig').
  pose proof (block_data_length fs Hgeom s _ _ Hf Hx) as Hlx.
  pose proof (inode_bytes_length fs x n Hgeom Hig Hlx) as Hli.
  assert (H128 : 128 <= inode_size fs) by (pose proof (Z.div_mod (inode_size fs) 128 ltac:(lia)); lia).
  unfold put_finish. rewrite get_le_spec, bind_done by (split; unfold off_i_link_cnt; lia). set (links := le_value _).
  rewrite put_le_spec, bind_done by (split; unfold off_i_link_cnt; lia).
  match goal with |- context [ext2_rw_inode _ _ _ _ _ ?i 1] => set (inode' := i) end.
  assert (Hput : put_le 2 off_i_link_cnt (u16 (links + 1)) (inode_bytes fs x n) = Done inode')
    by (apply put_le_spec; split; unfold off_i_link_cnt; lia).
  pose proof (put_le_length _ _ _ _ _ Hput) as Hli'.
  destruct (rw_block_write fs Hgeom s r blk y Hvr Hy) as (d & -> & Hwr).
  assert (Hfd : full_disk (dsk (set_dsk d s))) by (eapply wrote_full; done).
  assert (Hxd : block_data fs (set_dsk d s) (inode_block fs g n) = Some x)
    by (rewrite <- Hx; eapply wrote_other; done).
  destruct (write_inode_spec fs junk loc Hgeom Hjunk Hig (set_dsk d s) n g inode' x) as (d2 & x2 & -> & Hwr2 & Hlx2 & Hib2 & _);
    try done; [lia|].
  rewrite bind_done. exists (set_dsk d2 (set_dsk d s)), x2. split; [done|]. split; [|split; [|split]].
  - split; try done; [eapply wrote_full; done|]. eapply wrote_same; done.
  - rewrite (wrote_other fs Hgeom (set_dsk d s) _ x2 d2 r) by done. eapply wrote_same; done.
  - intros b Hbr Hbi. rewrite (wrote_other fs Hgeom (set_dsk d s) _ x2 d2 b) by done. eapply wrote_other; done.
  - intros k Hk. rewrite Hib2. unfold get_i_block. destruct (_ && _) eqn:E; [|done].
    apply andb_true_iff in E as [?%Z.leb_le _]. eapply get_put_le_ne; [exact Hput|]. unfold off_i_link_cnt. lia.
Qed.

Lemma dents_app_inv es1 es2 y : chain (es1 ++ es2) y → ∃ y1 y2, y = y1 ++ y2 ∧ chain es1 y1 ∧ chain es2 y2.
Proof.
  revert y. induction es1 as [|e es1 IH]; intros y Hc; [exists [], y; split; [done|split; [constructor|done]]|].
  inversion Hc as [|e' x' es' y' Ho He Hl Hc']; subst. destruct (IH y' Hc') as (y1 & y2 & -> & H1 & H2).
  exists (x' ++ y1), y2. rewrite app_assoc. split; [done|]. split; [by constructor|done].
Qed.
Lemma dents_app es1 es2 y1 y2 : chain es1 y1 → chain es2 y2 → chain (es1 ++ es2) (y1 ++ y2).
Proof. induction 1 as [|e x es y Ho He Hl Hc IH]; intros H2; [done|]. rewrite <- app_assoc. simpl. constructor; auto. Qed.

Lemma chain_first e es y : chain (e :: es) y → de_name_len y 0 = Done (Z.of_nat (length (d_name e))).
Proof.
  intros Hc. inversion Hc as [|e' x' es' y' Ho (t & pad & ->) Hl Hc']; subst.
  by destruct (dent_fields e t pad [] y' 0 Ho eq_refl) as (_ & _ & ?).
Qed.

Lemma bmap_direct s s' inode inode' k : k < 12 → get_i_block inode' k = get_i_block inode k →
  bmap fs s' inode' k = bmap fs s inode k.
Proof. intros Hk He. unfold bmap. rewrite path_direct by done. cbn [fst snd walk]. by rewrite He. Qed.

(** The first entry that has room, which must not be hidden behind the limit of the scan. *)
Record slot_at (path : buf) (es1 : list dent) (e : dent) : Prop := mk_slot_at {
  sl_path : Forall (λ c, c ≠ 0) path ∧ Z.of_nat (length path) < 256;
  sl_new : Forall (λ e', ¬ d_name e' `prefix_of` path) (es1 ++ [e]);
  sl_full : Forall (λ e', room path e' = false) es1;
  sl_room : room path e = true;
  sl_limit e0 : head (es1 ++ [e]) = Some e0 → used e0 <= d_reclen e;
}.

Lemma slot_scan v ino path rb es1 e es2 y s : chain (es1 ++ e :: es2) y → Z.of_nat (length y) = blksize fs → slot_at path es1 e →
  ∃ nl pre t pad post, de_name_len y 0 = Done nl ∧ y = pre ++ dent_bytes e t pad ++ post ∧ chain es1 pre ∧ chain es2 post ∧
    dent_ok e ∧ Z.of_nat (length (dent_bytes e t pad)) = d_reclen e ∧
    ∀ rec, insert_scan fs (Datatypes.S (Z.to_nat (blksize fs))) rec v ino path rb (4096 - real_len nl) (need path) y 0 s =
      Done (GotIt (Z.of_nat (length pre)) (used e) y, s).
Proof.
  intros Hc Hl [[Hp Hp256] Hnew Hfull Hr Hlim].
  assert (∃ e0, head (es1 ++ [e]) = Some e0 ∧ de_name_len y 0 = Done (Z.of_nat (length (d_name e0)))) as (e0 & He0 & Hnl).
  { destruct es1 as [|e0 es1]; [exists e|exists e0]; (split; [done|]); eapply chain_first; exact Hc. }
  destruct (dents_app_inv _ _ _ Hc) as (pre & y2 & -> & Hc1 & Hc2).
  inversion Hc2 as [|e' x' es' post Ho (t & pad & ->) Hle Hc']; subst.
  exists (Z.of_nat (length (d_name e0))), pre, t, pad, post. do 6 (split; [done|]). intros rec.
  specialize (Hlim e0 He0). pose proof (chain_fit _ _ Hc1). rewrite !length_app in Hl. unfold map_geom in Hmg.
  apply (insert_scan_spec fs _ rec v ino path rb _ es1 pre e t pad [] post 0 s); try done; [|lia].
  unfold used in Hlim. lia.
Qed.

Lemma insert_spec s n g x es1 e es2 ds path ino fuel : is_dir fs s n g x ((es1 ++ e :: es2) :: ds) → slot_at path es1 e →
  (2 <= fuel)%nat → 0 <= ino < 2 ^ 32 → Z.of_nat (length ds) < 11 →
  (∀ k : nat, (0 < k <= length ds)%nat → bmap fs s (inode_bytes fs x n) (Z.of_nat k) ≠ bmap fs s (inode_bytes fs x n) 0) →
  ∃ s' x', ext2_dir_insert_entry fs junk gd_tail x0 loc real0 fuel n ino path s = Done (0, s') ∧
    is_dir fs s' n g x' ((es1 ++ placed path ino e ++ es2) :: ds).
Proof.
  intros [Hready Hb He Hlen] Hslot Hfuel Hino Hds Hdist. pose proof Hready as [Hf Hn Hg Hi Hv Hx].
  destruct fuel as [|[|fuel]]; [lia..|]. pose proof Hig as (Hip & _). destruct (ends fs Hgeom Hmg) as (Ht1 & Ht2 & Ht3 & _).
  destruct (Hb 0%nat _ eq_refl) as (r & y & Hr & Hr31 & Hvr & Hne & Hy & Hc).
  pose proof (block_data_length fs Hgeom s _ _ Hf Hy) as Hly.
  cbn [ext2_dir_insert_entry].
  rewrite (read_inode_spec fs junk loc Hgeom Hjunk Hig s n g _ x), bind_done by (done || (rewrite Hjunk by lia; lia)).
  cbn [Z.eqb insert_blocks]. change (Z.of_nat 0) with 0 in Hr.
  rewrite (read_mapped fs junk gd_tail x0 real0 Hgeom Hjunk Hmg s _ 0 _ r y), bind_done
    by (done || lia || (rewrite Hjunk by (destruct Hgeom; lia); destruct Hgeom; lia)).
  rewrite (proj2 (Z.eqb_neq r 0)), bind_done by lia. fold (need path).
  destruct (slot_scan n ino path r _ _ _ y s Hc Hly Hslot)
    as (nl & pre & t & pad & post & Hnl & -> & Hc1 & Hc2 & Ho & Hle & Hscan).
  rewrite Hnl, bind_done, Hscan, bind_done. destruct Hslot as [[Hp Hp256] _ _ Hroom _].
  destruct (put_entry_stores n ino path (inode_bytes fs x n) e t pad pre post _ r s Ho Hroom Hle eq_refl Hino Hp Hp256)
    as (z & [Hcz Hlz] & ->).
  destruct (put_finish_spec n g x _ r s (pre ++ z ++ post) _ Hready eq_refl Hr31 Hvr Hne Hy) as (s' & x' & -> & Hready' & Hr' & Hoth & Hib).
  { rewrite !length_app in *. lia. }
  exists s', x'. split; [done|]. split; [done| | |done].
  - intros k es Hk. destruct k as [|k]; cbn in Hk.
    + injection Hk as <-. exists r, (pre ++ z ++ post). split; [by rewrite (bmap_direct s s' (inode_bytes fs x n)) by (done || (apply Hib; done))|].
      do 4 (split; [done|]). do 2 (apply dents_app; [done|]). done.
    + destruct (Hb (Datatypes.S k) es Hk) as (rk & yk & Hrk & Hrk31 & Hvk & Hnk & Hyk & Hck). apply lookup_lt_Some in Hk.
      exists rk, yk. split; [by rewrite (bmap_direct s s' (inode_bytes fs x n)) by (lia || (apply Hib; lia))|]. do 3 (split; [done|]). split; [|done].
      rewrite Hoth; [done| |done]. intros ->. apply (Hdist (Datatypes.S k)); [lia|]. congruence.
  - simpl length in *. rewrite <- He. apply bmap_direct; [lia|]. apply Hib. lia.
Qed.
End insertion.

(** ** Properties *)

(** C20: A lookup is the search of the list of the directory's entries, block after block in the order of
    the chain: ext2_dir_find_entry returns a copy of the first entry whose name is the path component,
    cut to the length the name needs, or NULL if there is none up to the first hole, and ext2_lookup the
    inode number of that entry or -ENOENT; an entry whose inode number is 0, a deleted one, counts. *)
Theorem lookup_first fs junk gd_tail x0 loc real0 s n g x ds path new_id fuel
    (Hgeom : geom fs) (Hjunk : junk_ok junk) (Hmg : map_geom fs) (Hig : inode_geom fs)
    (Hd : is_dir fs s n g x ds) (Hfuel : (length ds < fuel)%nat) :
  match dir_find path ds with
  | Some e =>
      ext2_lookup fs junk gd_tail x0 loc real0 fuel n path new_id s = Done (0, d_inode e) ∧
      ∃ t pad, ext2_dir_find_entry fs junk gd_tail x0 loc real0 fuel n path s = Done (Some (dent_bytes e t pad)) ∧
        Z.of_nat (length (dent_bytes e t pad)) = real_len (Z.of_nat (length path))
  | None =>
      ext2_lookup fs junk gd_tail x0 loc real0 fuel n path new_id s = Done (- ENOENT, new_id) ∧
      ext2_dir_find_entry fs junk gd_tail x0 loc real0 fuel n path s = Done None
  end.
Proof.
  rewrite (lookup_spec fs junk gd_tail x0 loc real0 Hgeom Hjunk Hmg Hig s n g x ds path new_id fuel Hd Hfuel).
  pose proof (find_entry_spec fs junk gd_tail x0 loc real0 Hgeom Hjunk Hmg Hig s n g x ds path fuel Hd Hfuel) as Hs.
  destruct (dir_find path ds) as [e|] eqn:Ee; cbn [found_as] in Hs; (split; [done|]); [|done].
  destruct Hs as (t & pad & Hs & Hl & _). exists t, pad. split; [done|]. rewrite Hl. unfold used.
  apply find_some in Ee as [_ Ee]. unfold named in Ee. apply bool_decide_eq_true_1 in Ee. by rewrite Ee.
Qed.

Lemma named_ne path e : d_name e ≠ path → named path e = false.
Proof. intros. unfold named. by rewrite bool_decide_false. Qed.

(** Searching around the entries placed. *)
Lemma find_none_prefix path es : Forall (λ e, ¬ d_name e `prefix_of` path) es → List.find (named path) es = None.
Proof.
  induction 1 as [|e es He _ IH]; [done|]. simpl. unfold named at 1. rewrite bool_decide_false; [done|].
  intros Heq. apply He. by rewrite Heq.
Qed.

Lemma dir_find_placed path ino es1 e es2 ds : Forall (λ e', ¬ d_name e' `prefix_of` path) (es1 ++ [e]) →
  ∃ e', dir_find path ((es1 ++ placed path ino e ++ es2) :: ds) = Some e' ∧ d_inode e' = ino.
Proof.
  intros Hf. apply Forall_app in Hf as [H1 H2]. inversion_clear H2 as [|?? He _]. unfold dir_find.
  rewrite concat_cons, !find_app_or, find_none_prefix by done. unfold placed.
  destruct (d_inode e =? 0); simpl; unfold named; simpl.
  - rewrite bool_decide_true by done. eauto.
  - rewrite bool_decide_false by (intros Heq; apply He; by rewrite Heq). rewrite bool_decide_true by done. eauto.
Qed.

Lemma dir_find_others path path' ino es1 e es2 ds : path' ≠ path → (d_inode e = 0 → path' ≠ d_name e) →
  d_inode <$> dir_find path' ((es1 ++ placed path ino e ++ es2) :: ds) = d_inode <$> dir_find path' ((es1 ++ e :: es2) :: ds).
Proof.
  intros Hne He. unfold dir_find. rewrite !concat_cons, <- !app_assoc, !find_app_or.
  destruct (List.find (named path') es1); [done|]. simpl. unfold placed.
  destruct (Z.eqb_spec (d_inode e) 0) as [Hz|Hz]; cbn [app List.find].
  - rewrite !named_ne by (simpl; congruence || (intros Heq; by apply (He Hz))). done.
  - destruct (named path' e) eqn:E; unfold named in E; simpl in E; unfold named at 1; simpl; rewrite E; [done|].
    rewrite named_ne by (simpl; congruence). done.
Qed.

(** C21: Inserting a name of at most 255 bytes into a directory of at most 11 blocks, of which none but the
    first is the first one on disk: if the first entry with room is in the directory's first block, none of
    the entries up to it has a name that the new one begins with, and it has at least the bytes the first
    entry uses, then ext2_dir_insert_entry puts the name into that room - a deleted entry is reused, a live
    one is divided after the bytes its name needs - and returns 0, and the directory stays well formed;
    afterwards a lookup of the name gives the inode number inserted, and every other name (but that of the
    deleted entry reused) gives what it gave before. (Room in a later block only: the scan leaves the buffer
    when blocks are smaller than 4096 bytes.) *)
Theorem insert_then_lookup fs junk gd_tail x0 loc real0 s n g x es1 e es2 ds path ino fuel
    (Hgeom : geom fs) (Hjunk : junk_ok junk) (Hmg : map_geom fs) (Hig : inode_geom fs)
    (Hd : is_dir fs s n g x ((es1 ++ e :: es2) :: ds)) (Hslot : slot_at path es1 e)
    (Hfuel : (2 + length ds <= fuel)%nat) (Hino : 0 <= ino < 2 ^ 32) (Hds : Z.of_nat (length ds) < 11)
    (Hdist : ∀ k : nat, (0 < k <= length ds)%nat →
      bmap fs s (inode_bytes fs x n) (Z.of_nat k) ≠ bmap fs s (inode_bytes fs x n) 0) :
  ∃ s' x', ext2_dir_insert_entry fs junk gd_tail x0 loc real0 fuel n ino path s = Done (0, s') ∧
    is_dir fs s' n g x' ((es1 ++ placed path ino e ++ es2) :: ds) ∧
    (∀ id, ext2_lookup fs junk gd_tail x0 loc real0 fuel n path id s' = Done (0, ino)) ∧
    ∀ path' id, path' ≠ path → (d_inode e = 0 → path' ≠ d_name e) →
      ext2_lookup fs junk gd_tail x0 loc real0 fuel n path' id s' = ext2_lookup fs junk gd_tail x0 loc real0 fuel n path' id s.
Proof.
  destruct (insert_spec fs junk gd_tail x0 loc real0 Hgeom Hjunk Hmg Hig s n g x es1 e es2 ds path ino fuel)
    as (s' & x' & Hins & Hd'); try done; [lia|].
  exists s', x'. split; [done|]. split; [done|].
  assert (Hl : ∀ p id s x ds, is_dir fs s n g x ds → (length ds < fuel)%nat →
    ext2_lookup fs junk gd_tail x0 loc real0 fuel n p id s =
    Done (match d_inode <$> dir_find p ds with Some i => (0, i) | None => (- ENOENT, id) end)).
  { intros p id s0 x1 ds0 Hd0 Hf0. rewrite (lookup_spec fs junk gd_tail x0 loc real0 Hgeom Hjunk Hmg Hig s0 n g x1 ds0) by done.
    by destruct (dir_find p ds0). }
  split.
  - intros id. rewrite (Hl _ _ _ _ _ Hd') by (simpl; lia).
    destruct (dir_find_placed path ino es1 e es2 ds (sl_new _ _ _ Hslot)) as (e' & -> & <-). done.
  - intros path' id Hne He. rewrite (Hl _ _ _ _ _ Hd'), (Hl _ _ _ _ _ Hd) by (simpl; lia).
    by rewrite (dir_find_others path path' ino es1 e es2 ds Hne He).
Qed.

(** *** A directory on a disk

    Inode 2 is a directory of one block, block 9: [.], [..] and [hi], inode 5, with the rest of the block. *)
Definition dir_bytes : buf :=
  [2; 0; 0; 0; 12; 0; 1; 2; 46; 0; 0; 0] ++ [2; 0; 0; 0; 12; 0; 2; 2; 46; 46; 0; 0] ++
  [5; 0; 0; 0; 232; 3; 2; 1; 104; 105] ++ replicate 990 0.
Definition dir_table : buf :=
  replicate 128 0 ++ [128; 65; 0; 0; 0; 4; 0; 0] ++ replicate 18 0 ++ [3; 0] ++ replicate 12 0 ++ [9; 0; 0; 0] ++ replicate 852 0.
Definition dir_disk : disk :=
  <[6 := take 512 dir_table]> (<[7 := drop 512 dir_table]> (<[18 := take 512 dir_bytes]> (<[19 := drop 512 dir_bytes]>
    (<[4 := replicate 512 255]> (<[5 := replicate 512 255]> (dsk hello_st)))))).
Definition dir_st : ext2_st := set_dsk dir_disk hello_st.
Definition dir_dot (n : nat) : dent := mk_dent 2 12 (replicate n 46).
Definition dir_hi : dent := mk_dent 5 1000 [104; 105].

Lemma dir_full : full_disk dir_disk.
Proof.
  intros k y. unfold dir_disk. rewrite !lookup_insert_Some.
  intros Hk. repeat (destruct Hk as [[_ <-]|[_ Hk]]; [vm_compute; reflexivity|]). by apply (ir_full _ _ _ _ _ hello_ready) in Hk.
Qed.

Lemma dir_ready : inode_ready hello_fs dir_st 2 hello_bgd dir_table.
Proof. split; [apply dir_full|vm_compute; intuition congruence..]. Qed.

Lemma dot_ok n : (n < 3)%nat → dent_ok (dir_dot n).
Proof.
  intros Hn. destruct n as [|[|[|n]]]; [..|lia]; split; try (vm_compute; intuition congruence); repeat constructor; discriminate.
Qed.

Lemma dir_chain : chain [dir_dot 1; dir_dot 2; dir_hi] dir_bytes.
Proof.
  unfold dir_bytes. apply chain_cons; [by apply dot_ok; lia|by exists 2, [0; 0; 0]|done|].
  apply chain_cons; [by apply dot_ok; lia|by exists 2, [0; 0]|done|]. rewrite <- (app_nil_r ([5; _; _; _; _; _; _; _; _; _] ++ _)).
  apply chain_cons; [|by exists 1, (replicate 990 0)|vm_compute; reflexivity|apply chain_nil].
  split; try (vm_compute; intuition congruence). repeat constructor; discriminate.
Qed.

Lemma dir_demo : is_dir hello_fs dir_st 2 hello_bgd dir_table [[dir_dot 1; dir_dot 2; dir_hi]].
Proof.
  split; [apply dir_ready| |vm_compute; reflexivity|vm_compute; reflexivity].
  intros [|k] es Hk; [|done]. injection Hk as <-. exists 9, dir_bytes. split; [vm_compute; reflexivity|]. split; [done|].
  split; [split; vm_compute; congruence|]. split; [done|]. split; [vm_compute; reflexivity|]. apply dir_chain.
Qed.

Lemma lookup_first_witness :
  is_dir hello_fs dir_st 2 hello_bgd dir_table [[dir_dot 1; dir_dot 2; dir_hi]] ∧
  ext2_lookup hello_fs demo_junk [] 0 (0, 0) 0 2 2 [104; 105] 0 dir_st = Done (0, 5) ∧
  ∃ t pad, ext2_dir_find_entry hello_fs demo_junk [] 0 (0, 0) 0 2 2 [104; 105] dir_st = Done (Some (dent_bytes dir_hi t pad)) ∧
    Z.of_nat (length (dent_bytes dir_hi t pad)) = 12.
Proof.
  split; [apply dir_demo|].
  apply (lookup_first hello_fs demo_junk [] 0 (0, 0) 0 dir_st 2 hello_bgd dir_table [[dir_dot 1; dir_dot 2; dir_hi]] [104; 105] 0 2
    (proj1 hello_geom) demo_junk_ok (proj1 (proj2 hello_geom)) (proj2 (proj2 hello_geom)) dir_demo).
  simpl. lia.
Defined.

Lemma insert_then_lookup_witness :
  ∃ s' x', ext2_dir_insert_entry hello_fs demo_junk [] 0 (0, 0) 0 3 2 7 [97; 98; 99; 100] dir_st = Done (0, s') ∧
    is_dir hello_fs s' 2 hello_bgd x' [[dir_dot 1; dir_dot 2; mk_dent 5 12 [104; 105]; mk_dent 7 988 [97; 98; 99; 100]]] ∧
    (∀ id, ext2_lookup hello_fs demo_junk [] 0 (0, 0) 0 3 2 [97; 98; 99; 100] id s' = Done (0, 7)) ∧
    ∀ path' id, path' ≠ [97; 98; 99; 100] → (5 = 0 → path' ≠ [104; 105]) →
      ext2_lookup hello_fs demo_junk [] 0 (0, 0) 0 3 2 path' id s' = ext2_lookup hello_fs demo_junk [] 0 (0, 0) 0 3 2 path' id dir_st.
Proof.
  apply (insert_then_lookup hello_fs demo_junk [] 0 (0, 0) 0 dir_st 2 hello_bgd dir_table [dir_dot 1; dir_dot 2] dir_hi [] []
    [97; 98; 99; 100] 7 3 (proj1 hello_geom) demo_junk_ok (proj1 (proj2 hello_geom)) (proj2 (proj2 hello_geom)) dir_demo).
  - split; [split; [repeat constructor; discriminate|done]| | |done|].
    + repeat constructor; intros [k Hk]; discriminate.
    + repeat constructor.
    + intros e0 [= <-]. vm_compute. discriminate.
  - simpl. lia.
  - lia.
  - simpl. lia.
  - intros k Hk. simpl in Hk. lia.
Defined.

(** The comparison looks at one byte behind the name, which after a second insertion is the inode number of
    the next entry: a name of four letters can be inserted twice. *)
Lemma insert_twice :
  ('(r1, s) ← ext2_dir_insert_entry hello_fs demo_junk [] 0 (0, 0) 0 3 2 7 [97; 98; 99; 100] dir_st;
   '(r2, s) ← ext2_dir_insert_entry hello_fs demo_junk [] 0 (0, 0) 0 3 2 8 [120] s;
   r3 ← ext2_dir_check hello_fs demo_junk [] 0 (0, 0) 0 9 2 [97; 98; 99; 100] s;
   '(r4, s) ← ext2_dir_insert_entry hello_fs demo_junk [] 0 (0, 0) 0 3 2 9 [97; 98; 99; 100] s;
   Done (r1, r2, r3, r4)) = Done (0, 0, 0, 0).
Proof. vm_compute. reflexivity. Qed.

(** A name that is a prefix of the new one and is followed by its next letter - as a renamed file leaves it -
    makes the new one "exist". *)
Definition renamed_st : ext2_st :=
  set_dsk (<[18 := take 512 (<[34%nat := 111]> dir_bytes)]> (dsk dir_st)) dir_st.
Lemma insert_refused :
  (d ← ext2_lookup hello_fs demo_junk [] 0 (0, 0) 0 3 2 [104; 105; 111; 111] 0 renamed_st;
   '(r, _) ← ext2_dir_insert_entry hello_fs demo_junk [] 0 (0, 0) 0 3 2 7 [104; 105; 111; 111] renamed_st;
   Done (d, r)) = Done ((- ENOENT, 0), - EEXIST).
Proof. vm_compute. reflexivity. Qed.

(** A deleted entry is found, with inode 0. *)
Definition deleted_st : ext2_st := set_dsk (<[18 := take 512 (<[24%nat := 0]> dir_bytes)]> (dsk dir_st)) dir_st.
Lemma deleted_found : ext2_lookup hello_fs demo_junk [] 0 (0, 0) 0 2 2 [104; 105] 9 deleted_st = Done (0, 0).
Proof. vm_compute. reflexivity. Qed.

(** Deleting a name, in a directory whose entries are as long as their names need. *)
Lemma delete_frees :
  ('(r, s) ← ext2_delete_entry hello_fs demo_junk (replicate 480 0) 0 (0, 0) 0 9 0 2 [104; 105] dir_st;
   '(d, _) ← ext2_lookup hello_fs demo_junk [] 0 (0, 0) 0 2 2 [104; 105] 9 s;
   Done (r, d)) = Done (0, - ENOENT).
Proof. vm_compute. reflexivity. Qed.

(** The first entry of a directory is not deleted, but its block number is returned. *)
Lemma delete_first :
  ('(r, s) ← ext2_delete_entry hello_fs demo_junk [] 0 (0, 0) 0 9 0 2 [46] dir_st;
   '(d, _) ← ext2_lookup hello_fs demo_junk [] 0 (0, 0) 0 2 2 [46] 9 s;
   Done (r, d)) = Done (9, 0).
Proof. vm_compute. reflexivity. Qed.
