(* ===== verification/Sched.v ===== *)
(** * Threads, wait queues and the scheduler ([Kernel/kthread.c], [Include/kernel/kthread.h])

    Five run queues and five wait queues, one per priority, and the wait queues of
    threads and processes: every thread hangs with its [thread_list] cell on one of
    these intrusive lists, or on none.  A thread and a process are known by the
    addresses of their structures.  [schedule] rotates the first run queue that is
    not empty, from the highest priority down.  A call that gives the processor
    away ([ksleep], [kwait_pid]) is cut at its [schedule]: the part before it, and
    the part that runs when the thread is next switched to. *)

From S2P Require Import Prelude LinkedList Pid Avl Timer.

(** ** Data *)

(** The cells of the queues: [run_queue[i]], [wait_queue[i]], the [waiter] of
    [proc->p_wq] and of [thread->wq], of any other wait queue, and
    [thread->thread_list]. *)
Inductive qcell : Set :=
| RunQ (i : Z) | WaitQ (i : Z) | ProcWq (p : Z) | ThrWq (t : Z) | OtherWq (w : Z) | Thr (t : Z).

#[export] Instance qcell_eq_dec : EqDecision qcell.
Proof. solve_decision. Defined.

#[export] Instance qcell_countable : Countable qcell.
Proof.
  refine (inj_countable'
    (λ c, match c with
          | RunQ i => (0, i) | WaitQ i => (1, i) | ProcWq p => (2, p)
          | ThrWq t => (3, t) | OtherWq w => (4, w) | Thr t => (5, t) end)
    (λ x, match x.1 with
          | 0 => RunQ x.2 | 1 => WaitQ x.2 | 2 => ProcWq x.2
          | 3 => ThrWq x.2 | 4 => OtherWq x.2 | _ => Thr x.2 end) _).
  by intros [].
Defined.

Definition MAX_PRIORITY := 5.

(** [kthread_state_t] *)
Definition RUNNING := 0.
Definition SLEEPING := 1.
Definition STOPED := 2.
Definition SUSPEND := 3.

Definition WAITE_INFINITE := -1.
Definition WAITE_OK := 0.
Definition WAITE_TIMEOUT := 1.

(** [struct kernel_thread]: the fields the queues, the switch and the end of a thread use;
    [host = None] is NULL. *)
Record kthread : Type := mk_thread {
  priority : Z; state : Z; tid : Z; priv : Z; esp0 : Z; host : option Z }.

Definition with_state (v : Z) (k : kthread) : kthread :=
  mk_thread (priority k) v (tid k) (priv k) (esp0 k) (host k).

Section sched.
Context {S : Type} `{IdAlloc S}.

(** [struct kernel_process], as far as threads are concerned. *)
Record kproc : Type := mk_proc { p_cr3 : Z; p_threadtree : avlnode; p_tid_obj : S }.

Record ssys : Type := mk_ssys {
  cells : gmap qcell (linked_list qcell);
  threads : gmap Z kthread;
  procs : gmap Z kproc;
  sys_proc : avlnode;
  current : Z;
  cr3 : Z;
  tss_esp0 : Z;
  need_reschedule : Z;
}.
Implicit Types (s : ssys).

Definition set_cells c s :=
  mk_ssys c (threads s) (procs s) (sys_proc s) (current s) (cr3 s) (tss_esp0 s) (need_reschedule s).
Definition set_threads m s :=
  mk_ssys (cells s) m (procs s) (sys_proc s) (current s) (cr3 s) (tss_esp0 s) (need_reschedule s).
Definition set_procs m s :=
  mk_ssys (cells s) (threads s) m (sys_proc s) (current s) (cr3 s) (tss_esp0 s) (need_reschedule s).
Definition set_resched v s :=
  mk_ssys (cells s) (threads s) (procs s) (sys_proc s) (current s) (cr3 s) (tss_esp0 s) v.
Definition switched t pgd esp s :=
  mk_ssys (cells s) (threads s) (procs s) (sys_proc s) t pgd esp (need_reschedule s).
Definition on_cells f s : outcome ssys := c ← f (cells s); Done (set_cells c s).
Definition set_state (t v : Z) s : outcome ssys :=
  k ← deref (threads s !! t); Done (set_threads (<[t := with_state v k]> (threads s)) s).

(** ** Switching *)

(** The loop [while (--i >= 0)] of [schedule], from [i = n]; it breaks on the first
    run queue that is not empty, and on queue 0 whether it is empty or not. *)
Fixpoint pick_queue (n : nat) (c : gmap qcell (linked_list qcell)) : outcome Z :=
  match n with
  | O => Done (-1)
  | Datatypes.S i =>
      e ← list_is_empty (RunQ (Z.of_nat i)) c;
      if (e : bool) then (if decide (i = O) then Done 0 else pick_queue i c)
      else Done (Z.of_nat i)
  end.

(** The stack switch: what runs afterwards is [next]. *)
Definition context_switch (prev next : Z) s : outcome ssys :=
  kp ← deref (threads s !! prev);
  kn ← deref (threads s !! next);
  if decide (prev = next) then Done s else
  pgd ← (if decide (host kp = host kn) then Done (cr3 s) else
         match host kn with
         | Some p => r ← deref (procs s !! p); Done (p_cr3 r)
         | None => Done (cr3 s)
         end);
  Done (switched next pgd (esp0 kn) s).

(** [container_of] of a cell that belongs to no thread designates no thread. *)
Definition schedule s : outcome ssys :=
  let prev := current s in
  let s := set_resched 0 s in
  i ← pick_queue (Z.to_nat MAX_PRIORITY) (cells s);
  list_ptr ← get_next (RunQ i) (cells s);
  s ← on_cells (list_del list_ptr) s;
  s ← on_cells (list_add_tail (RunQ i) list_ptr) s;
  match list_ptr with
  | Thr next => if decide (prev = next) then Done s else context_switch prev next s
  | _ => Fail BadPtr
  end.

(** ** Waking up and waiting *)

Definition pt_wakeup (t : Z) s : outcome ssys :=
  s ← set_state t RUNNING s;
  k ← deref (threads s !! t);
  on_cells (list_move_head (RunQ (priority k)) (Thr t)) s.

(** The loop of [wakeup_waiters]; [n] is read before the waiter at [pos] is moved. *)
Fixpoint wakeup_loop (fuel : nat) (head pos n : qcell) s : outcome ssys :=
  match fuel with
  | O => Fail Diverge
  | Datatypes.S fuel =>
      if decide (pos = head) then Done s else
      match pos with
      | Thr t =>
          s ← pt_wakeup t s;
          n' ← get_next n (cells s);
          wakeup_loop fuel head n n' s
      | _ => Fail BadPtr
      end
  end.

(** [head = None] is NULL. *)
Definition wakeup_waiters (fuel : nat) (head : option qcell) s : outcome ssys :=
  match head with
  | None => Done s
  | Some head =>
      e ← list_is_empty head (cells s);
      if (e : bool) then Done s else
      pos ← get_next head (cells s);
      n ← get_next pos (cells s);
      wakeup_loop fuel head pos n s
  end.

Definition pt_wait_on (wq : qcell) s : outcome ssys :=
  let cur := current s in
  s ← set_state cur SLEEPING s;
  s ← on_cells (list_del (Thr cur)) s;
  s ← on_cells (list_add_tail wq (Thr cur)) s;
  schedule s.

(** ** Creation and end *)

(** The part of [init_thread] and [kcreate_thread] that fills in the structure and
    queues the thread.  [t] is the page [alloc_pages] gave, [st0] the [state] it holds,
    [id] the identifier drawn; [att] is (priority, priv, state), [None] for NULL.  The
    list cells come with the page ([list_init] overwrites both their fields). *)
Definition queue_thread (t st0 id sp : Z) (hst : option Z) (att : option (Z * Z * Z)) s : outcome ssys :=
  let '(prio, prv, st) := default (0, 0, RUNNING) att in
  let k := mk_thread prio st0 id prv sp (if prv =? 3 then hst else None) in
  let s := set_threads (<[t := k]> (threads s)) s in
  let page := <[Thr t := mk_ll (Thr t) (Thr t)]> (<[ThrWq t := mk_ll (ThrWq t) (ThrWq t)]> (cells s)) in
  s ← on_cells (list_init (Some (Thr t))) (set_cells page s);
  s ← on_cells (list_init (Some (ThrWq t))) s;
  if decide (st = SUSPEND ∨ st = STOPED ∨ st = SLEEPING)
  then on_cells (list_add_tail (WaitQ prio) (Thr t)) s
  else on_cells (list_add_tail (RunQ prio) (Thr t)) s.

Definition destroy_thread (t : Z) s : outcome ssys := on_cells (list_del (Thr t)) s.

(** The nodes [avl_delete] frees are dropped. *)
Definition shutdown_thread (fuel : nat) s : outcome ssys :=
  let cur := current s in
  s ← on_cells (list_del (Thr cur)) s;
  s ← wakeup_waiters fuel (Some (ThrWq cur)) s;
  k ← deref (threads s !! cur);
  s ← (if priv k =? 3 then
         match host k with
         | None => Done s
         | Some p =>
             r ← deref (procs s !! p);
             '(tree, _) ← avl_delete (tid k) (p_threadtree r);
             ids ← ia_put (p_tid_obj r) (tid k);
             Done (set_procs (<[p := mk_proc (p_cr3 r) tree ids]> (procs s)) s)
         end
       else Done s);
  schedule s.

(** [shutdown_thread_tree]: right, left, then the node; the payload of a node is
    the thread. *)
Fixpoint shutdown_thread_tree (t : avlnode) s : outcome ssys :=
  match t with
  | NULL => Done s
  | Node _ _ l r _ pl =>
      s ← shutdown_thread_tree r s;
      s ← shutdown_thread_tree l s;
      destroy_thread pl s
  end.

(** [schedule_init]: the heads of the ten queues, from zeroed memory, and the thread of
    [sysidle], created with no attributes on the page [t]. *)
Fixpoint init_queues (n : nat) s : outcome ssys :=
  match n with
  | O => Done s
  | Datatypes.S i =>
      s ← init_queues i s;
      s ← on_cells (list_init (Some (RunQ (Z.of_nat i)))) s;
      on_cells (list_init (Some (WaitQ (Z.of_nat i)))) s
  end.
Definition schedule_init (t st0 id sp : Z) s : outcome ssys :=
  s ← init_queues (Z.to_nat MAX_PRIORITY) s;
  queue_thread t st0 id sp None None s.

(** The process of a [pid], or [-ESRCH]. *)
Definition kopen_process (pid : Z) s : option Z := payload_of (avl_find pid (sys_proc s)).

(** ** Sleeping *)

(** [Returned r]: the call is over; [Suspended x]: the thread has called
    [schedule], and goes on later with [x]. *)
Inductive progress (A : Type) : Type := Returned (r : Z) | Suspended (x : A).
Arguments Returned {A} _.
Arguments Suspended {A} _.

(** [cb] is the address of [pt_timer_callback]; [mem] is what [kzalloc] gives
    [register_timer]. *)
Context (cb : Z).

Definition ksleep (mem : option Z) (ms : Z) (w : tsys S * ssys) : outcome (progress Z * (tsys S * ssys)) :=
  let '(ts, s) := w in
  let cur := current s in
  k ← deref (threads s !! cur);
  if ms =? 0 then
    s ← on_cells (list_move_tail (RunQ (priority k)) (Thr cur)) s;
    s ← schedule s;
    Done (Returned 0, (ts, s))
  else if ms <? 0 then Done (Returned (- EINVAL), (ts, s)) else
  '(ret, ts) ← register_timer mem ms (Z.lor TIMER_FLAG_ONESHUT TIMER_FLAG_ENABLED) cb cur ts;
  if ret <? 0 then Done (Returned ret, (ts, s)) else
  s ← set_state cur SLEEPING s;
  s ← on_cells (list_move_tail (WaitQ (priority k)) (Thr cur)) s;
  s ← schedule s;
  Done (Suspended ret, (ts, s)).

Definition ksleep_resume (timer_id : Z) (w : tsys S * ssys) : outcome (Z * (tsys S * ssys)) :=
  '(_, ts) ← unregister_timer timer_id w.1; Done (0, (ts, w.2)).

(** The thread goes on with the identifier of its timer, if it set one. *)
Definition kwait_pid (mem : option Z) (pid ms : Z) (w : tsys S * ssys)
    : outcome (progress (option Z) * (tsys S * ssys)) :=
  let '(ts, s) := w in
  let cur := current s in
  match kopen_process pid s with
  | None => Done (Returned (- ESRCH), (ts, s))
  | Some p =>
      if ms =? WAITE_INFINITE then
        s ← on_cells (list_del (Thr cur)) s;
        s ← on_cells (list_add (ProcWq p) (Thr cur)) s;
        s ← set_state cur SLEEPING s;
        s ← schedule s;
        Done (Suspended None, (ts, s))
      else if ms =? 0 then Done (Returned WAITE_OK, (ts, s)) else
      s ← on_cells (list_del (Thr cur)) s;
      s ← on_cells (list_add_tail (ProcWq p) (Thr cur)) s;
      s ← set_state cur SLEEPING s;
      '(ret, ts) ← register_timer mem ms (Z.lor TIMER_FLAG_ONESHUT TIMER_FLAG_ENABLED) cb cur ts;
      if ret <? 0 then Done (Returned (- ENOBUFS), (ts, s)) else
      s ← schedule s;
      Done (Suspended (Some ret), (ts, s))
  end.

Definition kwait_pid_resume (timer : option Z) (w : tsys S * ssys) : outcome Z :=
  match timer with
  | None => Done WAITE_OK
  | Some timer_id =>
      '(ret, expired) ← timer_get_expired timer_id w.1;
      if ret <? 0 then Done (- ret) else
      e ← deref expired;
      Done (if e <=? ticks w.1 then WAITE_TIMEOUT else WAITE_OK)
  end.

(** What a pass of the timer thread does to the scheduler: [pt_timer_callback] wakes
    the thread it is given up. *)
Definition timer_effect (f d : Z) (w : outcome ssys) : outcome ssys :=
  if f =? cb then s ← w; pt_wakeup d s else w.
End sched.
Arguments ssys S : clear implicits.
Arguments kproc S : clear implicits.
Arguments Returned {A} _.
Arguments Suspended {A} _.

(** ** The queues as a family of lists *)

#[local] Abbreviation qfamily := (gmap qcell (list qcell)).

Section place.
Implicit Types σ : qfamily.

(** A cell is taken off the list it is on and put, by [f], into the list of [hd]. *)
Definition place (f : qcell → list qcell → list qcell) hd e σ : qfamily :=
  alter (f e) hd (delete e (unlink e σ)).
Definition at_head (e : qcell) xs := e :: xs.
Definition at_tail (e : qcell) xs := xs ++ [e].

Lemma place_lookup f hd e k σ : hd ≠ e → place f hd e σ !! k =
  if decide (k = e) then None
  else if decide (k = hd) then (λ xs, f e (rm e xs)) <$> σ !! k else rm e <$> σ !! k.
Proof.
  intros Hne. unfold place. repeat case_decide; subst; try done.
  - by rewrite lookup_alter_ne, lookup_delete_eq.
  - rewrite lookup_alter_eq, lookup_delete_ne, unlink_lookup_ne by done. by destruct (σ !! hd).
  - by rewrite lookup_alter_ne, lookup_delete_ne, unlink_lookup_ne.
Qed.

Lemma rm_elem (e x : qcell) xs : x ∈ rm e xs ↔ x ≠ e ∧ x ∈ xs.
Proof. unfold rm. by rewrite list_elem_of_filter. Qed.

End place.

(** ** Well-formed queues *)

Section wf.
Context {S : Type} `{IdAlloc S}.
Implicit Types (s : ssys S) (σ : qfamily).

Definition is_queue (c : qcell) : Prop := match c with Thr _ => False | _ => True end.

(** The lists of the system; [live]: the threads it knows. *)
Record qwf s σ : Prop := mk_qwf {
  qw_lists : lists (cells s) σ;
  qw_queues i : 0 <= i < MAX_PRIORITY → is_Some (σ !! RunQ i) ∧ is_Some (σ !! WaitQ i);
  qw_elem hd xs c : σ !! hd = Some xs → c ∈ xs → ∃ t, c = Thr t ∧ is_Some (threads s !! t);
  qw_head t xs : σ !! Thr t = Some xs → xs = [];
  qw_linked t : is_Some (threads s !! t) → linked_or_loose σ (Thr t);
  qw_own t : is_Some (threads s !! t) → is_Some (σ !! ThrWq t);
  qw_known t : is_Some (σ !! Thr t) ∨ is_Some (σ !! ThrWq t) → is_Some (threads s !! t);
  qw_range t k : threads s !! t = Some k → 0 <= priority k < MAX_PRIORITY;
  qw_prio i t k : on_list σ (Thr t) (RunQ i) → threads s !! t = Some k → priority k = i;
}.

(** On the run queue of its priority. *)
Definition runnable s σ (t : Z) : Prop :=
  ∃ k, threads s !! t = Some k ∧ on_list σ (Thr t) (RunQ (priority k)).

(** What a move of the thread [t] to the queue [hd] leaves behind. *)
Lemma qwf_place f s c σ t hd m : (∀ e x xs, x ∈ f e xs ↔ x = e ∨ x ∈ xs) →
  qwf s σ → is_queue hd → is_Some (σ !! hd) → is_Some (threads s !! t) →
  lists c (place f hd (Thr t) σ) →
  (∀ i k, hd = RunQ i → m !! t = Some k → priority k = i) →
  (∀ u, priority <$> m !! u = priority <$> threads s !! u) →
  qwf (set_threads m (set_cells c s)) (place f hd (Thr t) σ).
Proof.
  intros Hf Hw Hq Hhd Ht Hl Hp Hm.
  assert (Hne : hd ≠ Thr t) by (by destruct hd).
  assert (Hsome : ∀ u, is_Some (m !! u) ↔ is_Some (threads s !! u)).
  { intros u. specialize (Hm u). destruct (m !! u), (threads s !! u); try done;
      split; intros [? ?]; eauto; discriminate. }
  assert (Hk : ∀ q, is_queue q → is_Some (σ !! q) → is_Some (place f hd (Thr t) σ !! q)).
  { intros q Hqq [xs Hx]. rewrite place_lookup by done. rewrite decide_False by (by destruct q).
    case_decide; rewrite Hx; eauto. }
  constructor; cbn [cells threads set_threads set_cells].
  - done.
  - intros i Hi. destruct (qw_queues _ _ Hw i Hi). split; by apply Hk.
  - intros h xs x. rewrite place_lookup by done. case_decide; [done|]. intros Hx Hin.
    assert (x = Thr t ∨ ∃ ys, σ !! h = Some ys ∧ x ∈ ys) as [->|(ys & Hy & Hxy)].
    { case_decide; destruct (σ !! h) as [ys|] eqn:E; simplify_eq/=.
      - apply Hf in Hin as [->|[_ ?]%rm_elem]; eauto.
      - apply rm_elem in Hin as [_ ?]. eauto. }
    + exists t. rewrite Hsome. eauto.
    + destruct (qw_elem _ _ Hw _ _ _ Hy Hxy) as (u & -> & Hu). exists u. by rewrite Hsome.
  - intros u xs. rewrite place_lookup by done. case_decide; [done|]. case_decide; [by subst hd|].
    destruct (σ !! Thr u) as [ys|] eqn:E; [|done]. intros [= <-]. by rewrite (qw_head _ _ Hw _ _ E).
  - intros u Hu%Hsome. destruct (decide (u = t)) as [->|Hut].
    { left. exists hd. unfold on_list. rewrite place_lookup, decide_False, decide_True by done.
      destruct Hhd as [xs ->]. eexists. split; [reflexivity|]. apply Hf. by left. }
    destruct (qw_linked _ _ Hw u Hu) as [(h & xs & Hx & Hin)|Hl0].
    + left. exists h. unfold on_list. rewrite place_lookup by done.
      rewrite decide_False; [|intros ->; by rewrite (qw_head _ _ Hw _ _ Hx) in Hin; apply not_elem_of_nil in Hin].
      case_decide; rewrite Hx; (eexists; split; [reflexivity|]); rewrite ?Hf, rm_elem; intuition congruence.
    + right. rewrite place_lookup, decide_False by (done || congruence).
      rewrite decide_False by (by intros <-). by rewrite Hl0.
  - intros u Hu%Hsome. by apply Hk, Hw.
  - intros u [[xs Hx]|[xs Hx]]; rewrite place_lookup in Hx by done; apply Hsome, (qw_known _ _ Hw).
    + left. case_decide; [done|]. case_decide; destruct (σ !! Thr u); eauto; done.
    + right. rewrite decide_False in Hx by done. case_decide; destruct (σ !! ThrWq u); eauto; done.
  - intros u k Hu. specialize (Hm u). rewrite Hu in Hm. cbn in Hm.
    destruct (threads s !! u) as [k'|] eqn:E; [|done]. apply (qw_range _ _ Hw) in E. injection Hm as ->. done.
  - intros i u k (xs & Hx & Hin) Hu. rewrite place_lookup in Hx by done. rewrite decide_False in Hx by done.
    specialize (Hm u). rewrite Hu in Hm. cbn in Hm.
    destruct (threads s !! u) as [k'|] eqn:E; [|done]. injection Hm as Hm.
    destruct (decide (u = t)) as [->|Hut].
    + case_decide; [by eapply Hp|]. destruct (σ !! RunQ i); [|done]. injection Hx as <-.
      by apply rm_elem in Hin as [? _].
    + rewrite Hm. apply (qw_prio _ _ Hw i u k'); [|done]. exists (default [] (σ !! RunQ i)).
      case_decide; (destruct (σ !! RunQ i) as [ys|]; [|done]); injection Hx as <-; (split; [done|]); cbn.
      * apply Hf in Hin as [[= ->]|[_ ?]%rm_elem]; done.
      * by apply rm_elem in Hin as [_ ?].
Qed.

Lemma at_head_elem (e x : qcell) xs : x ∈ at_head e xs ↔ x = e ∨ x ∈ xs.
Proof. apply elem_of_cons. Qed.
Lemma at_tail_elem (e x : qcell) xs : x ∈ at_tail e xs ↔ x = e ∨ x ∈ xs.
Proof. unfold at_tail. rewrite elem_of_app, list_elem_of_singleton. tauto. Qed.

(** Where a cell is after a move. *)
Lemma place_on f hd e σ c h : (∀ e x xs, x ∈ f e xs ↔ x = e ∨ x ∈ xs) → hd ≠ e → h ≠ e →
  is_Some (σ !! hd) → on_list (place f hd e σ) c h ↔ (c = e ∧ h = hd) ∨ (c ≠ e ∧ on_list σ c h).
Proof.
  intros Hf Hne Hh [zs Hz]. unfold on_list. rewrite place_lookup, decide_False by done. case_decide.
  - subst h. rewrite Hz. split.
    + intros (xs & [= <-] & [->|[? ?]%rm_elem]%Hf); eauto.
    + intros [[-> _]|(? & xs & [= <-] & ?)]; eexists; (split; [reflexivity|]); rewrite Hf, rm_elem; auto.
  - split.
    + intros (xs & Hx & Hin). destruct (σ !! h) as [ys|]; [|done]. injection Hx as <-.
      apply rm_elem in Hin as [? ?]. eauto.
    + intros [[_ ->]|(? & xs & -> & ?)]; [done|]. eexists. split; [reflexivity|]. by rewrite rm_elem.
Qed.

Lemma head_not_thr s σ t u : qwf s σ → ¬ on_list σ (Thr u) (Thr t).
Proof. intros Hw (xs & Hx & Hin). rewrite (qw_head _ _ Hw _ _ Hx) in Hin. by apply not_elem_of_nil in Hin. Qed.

(** Setting [state] changes nothing of the queues. *)
Lemma set_state_spec s t k v : threads s !! t = Some k →
  set_state t v s = Done (set_threads (<[t := with_state v k]> (threads s)) s).
Proof. intros Hk. unfold set_state. by rewrite Hk. Qed.

Lemma with_state_prio (m : gmap Z kthread) t k v u : m !! t = Some k →
  priority <$> <[t := with_state v k]> m !! u = priority <$> m !! u.
Proof.
  intros Hk. destruct (decide (u = t)) as [->|]; [by rewrite lookup_insert_eq, Hk|by rewrite lookup_insert_ne].
Qed.

Lemma on_queues_done f s c : f (cells s) = Done c → on_cells f s = Done (set_cells c s).
Proof. intros Hf. unfold on_cells. by rewrite Hf. Qed.

(** [list_del] followed by an insertion is a move. *)
Lemma move_spec s σ t hd : qwf s σ → is_queue hd → is_Some (σ !! hd) → is_Some (threads s !! t) →
  (∃ c, list_move_head hd (Thr t) (cells s) = Done c ∧ lists c (place at_head hd (Thr t) σ)) ∧
  (∃ c, list_move_tail hd (Thr t) (cells s) = Done c ∧ lists c (place at_tail hd (Thr t) σ)).
Proof.
  intros Hw Hq Hhd Ht. assert (Thr t ≠ hd) by (by destruct hd).
  pose proof (qw_linked _ _ Hw t Ht) as Hl.
  destruct (lists_move_head _ _ hd (Thr t) (qw_lists _ _ Hw) Hl Hhd) as (c1 & E1 & L1 & _); [done|].
  destruct (lists_move_tail _ _ hd (Thr t) (qw_lists _ _ Hw) Hl Hhd) as (c2 & E2 & L2 & _); [done|].
  eauto 10.
Qed.

Lemma pt_wakeup_spec s σ t k : qwf s σ → threads s !! t = Some k →
  ∃ c, pt_wakeup t s = Done (set_cells c (set_threads (<[t := with_state RUNNING k]> (threads s)) s)) ∧
    qwf (set_cells c (set_threads (<[t := with_state RUNNING k]> (threads s)) s))
      (place at_head (RunQ (priority k)) (Thr t) σ).
Proof.
  intros Hw Hk. unfold pt_wakeup. rewrite (set_state_spec _ _ _ _ Hk), bind_done.
  cbn [threads set_threads]. rewrite lookup_insert_eq. cbn [deref]. rewrite bind_done. cbn [priority with_state].
  destruct (qw_queues _ _ Hw _ (qw_range _ _ Hw _ _ Hk)) as [Hr _].
  destruct (proj1 (move_spec s σ t (RunQ (priority k)) Hw I Hr ltac:(eauto))) as (c & E & L).
  exists c. rewrite (on_queues_done _ (set_threads _ s) c E). split; [done|].
  apply (qwf_place at_head s c σ t (RunQ (priority k)) (<[t := with_state RUNNING k]> (threads s)) at_head_elem Hw I Hr);
    [eauto|done| |intros u; by apply with_state_prio].
  intros i k' [= <-]. rewrite lookup_insert_eq. by intros [= <-].
Qed.

(** ** [schedule] *)

(** The queue [schedule] takes: the highest one with a thread on it. *)
Definition highest σ (i : Z) : Prop :=
  0 <= i < MAX_PRIORITY ∧ (∃ x xs, σ !! RunQ i = Some (x :: xs)) ∧
  ∀ j, i < j < MAX_PRIORITY → σ !! RunQ j = Some [].

Lemma pick_queue_spec c σ i n : lists c σ → 0 <= i → i < Z.of_nat n →
  (∃ x xs, σ !! RunQ i = Some (x :: xs)) → (∀ j, i < j < Z.of_nat n → σ !! RunQ j = Some []) →
  pick_queue n c = Done i.
Proof.
  intros Hl Hi Hn (x & xs & Hx) Hj. induction n as [|n IH]; [lia|]. cbn [pick_queue].
  destruct (decide (i = Z.of_nat n)) as [->|Hne].
  - rewrite (lists_is_empty _ _ _ _ Hl Hx). done.
  - rewrite (lists_is_empty _ _ _ _ Hl (Hj (Z.of_nat n) ltac:(lia))), bind_done, bool_decide_true by done.
    rewrite decide_False by lia. apply IH; [lia|]. intros j ?. apply Hj. lia.
Qed.

Lemma highest_exists s σ t k : qwf s σ → threads s !! t = Some k → on_list σ (Thr t) (RunQ (priority k)) →
  ∃ i, highest σ i.
Proof.
  intros Hw Hk Hon. pose proof (qw_range _ _ Hw _ _ Hk) as Hr.
  assert (Hind : ∀ n : nat, priority k < Z.of_nat n <= MAX_PRIORITY →
    (∀ j, Z.of_nat n <= j < MAX_PRIORITY → σ !! RunQ j = Some []) → ∃ i, highest σ i).
  { induction n as [|n IH]; intros Hn Hj; [lia|].
    destruct (qw_queues _ _ Hw (Z.of_nat n) ltac:(lia)) as [[xs Hx] _].
    destruct xs as [|x xs].
    - apply IH.
      + destruct (decide (priority k = Z.of_nat n)) as [E|]; [|lia].
        rewrite E in Hon. destruct Hon as (ys & Hy & Hin). rewrite Hx in Hy. injection Hy as <-.
        by apply not_elem_of_nil in Hin.
      + intros j Hjj. destruct (decide (j = Z.of_nat n)) as [->|]; [done|]. apply Hj. lia.
    - exists (Z.of_nat n). split; [lia|]. split; [eauto|]. intros j Hjj. apply Hj. lia. }
  apply (Hind 5%nat); unfold MAX_PRIORITY in *; [lia|]. intros j ?. lia.
Qed.

Lemma place_rotate h σ i e xs : lists h σ → σ !! RunQ i = Some (e :: xs) → e ≠ RunQ i →
  place at_tail (RunQ i) e σ = <[RunQ i := xs ++ [e]]> σ.
Proof.
  intros Hl Hx Hne. destruct (unlink_lookup_on h σ e _ [] xs Hl Hx) as (_ & He & _).
  apply map_eq. intros k. rewrite place_lookup by done. repeat case_decide; subst.
  - by rewrite lookup_insert_ne, He.
  - rewrite lookup_insert_eq, Hx. cbn. f_equal. unfold at_tail. f_equal.
    pose proof (lists_nodup _ _ _ _ Hl Hx) as [_ Hnd]%NoDup_cons. by apply (rm_mid e [] xs).
  - rewrite lookup_insert_ne by done. destruct (σ !! k) as [ys|] eqn:Ek; [|done]. cbn. f_equal.
    apply rm_notin. intros Hin. apply H1. eapply (lists_unique h σ e _ _ ys (e :: xs)); eauto; set_solver.
Qed.

Lemma on_cells_bind f g s : on_cells f s ≫= on_cells g = on_cells (λ c, f c ≫= g) s.
Proof. unfold on_cells. by destruct (f (cells s)). Qed.

(** The processor runs [current] on its own kernel stack, in its own address space; a
    thread's process is known. *)
Record cpu_ok s : Prop := mk_cpu_ok {
  cpu_cur : ∃ k, threads s !! current s = Some k ∧ tss_esp0 s = esp0 k ∧
    ∀ p r, host k = Some p → procs s !! p = Some r → cr3 s = p_cr3 r;
  cpu_host t k p : threads s !! t = Some k → host k = Some p → is_Some (procs s !! p);
}.

Lemma context_switch_spec s t k : cpu_ok s → threads s !! t = Some k →
  ∃ s', (if decide (current s = t) then Done s else context_switch (current s) t s) = Done s' ∧
    cpu_ok s' ∧ current s' = t ∧ cells s' = cells s ∧ threads s' = threads s ∧
    procs s' = procs s ∧ sys_proc s' = sys_proc s ∧ need_reschedule s' = need_reschedule s.
Proof.
  intros Hc Hk. case_decide as Hd; [by exists s|]. unfold context_switch.
  destruct (cpu_cur _ Hc) as (kp & Ekp & Esp & Hcr). rewrite Ekp, Hk. cbn [deref]. rewrite !bind_done.
  rewrite decide_False by done.
  assert (∃ pgd, (if decide (host kp = host k) then Done (cr3 s) else
         match host k with
         | Some p => r ← deref (procs s !! p); Done (p_cr3 r)
         | None => Done (cr3 s)
         end) = Done pgd ∧ ∀ p r, host k = Some p → procs s !! p = Some r → pgd = p_cr3 r) as (pgd & -> & Hpgd).
  { case_decide as Hh.
    - exists (cr3 s). split; [done|]. intros p r Hp. apply Hcr. congruence.
    - destruct (host k) as [p|] eqn:Ep; [|by exists (cr3 s)].
      destruct (cpu_host _ Hc _ _ _ Hk Ep) as [r Hr]. rewrite Hr. exists (p_cr3 r). split; [done|].
      intros p' r' [= <-]. by rewrite Hr; intros [= <-]. }
  rewrite bind_done. eexists. split; [reflexivity|]. split; [|done].
  constructor; cbn [threads procs current cr3 tss_esp0 switched]; [eauto|apply Hc].
Qed.

Lemma schedule_spec s σ i t xs : qwf s σ → cpu_ok s → highest σ i → σ !! RunQ i = Some (Thr t :: xs) →
  ∃ s', schedule s = Done s' ∧ qwf s' (<[RunQ i := xs ++ [Thr t]]> σ) ∧ cpu_ok s' ∧ current s' = t ∧
    threads s' = threads s ∧ procs s' = procs s ∧ sys_proc s' = sys_proc s ∧ need_reschedule s' = 0.
Proof.
  intros Hw Hc (Hi & Hne & Hj) Hx. unfold schedule.
  assert (Ep : pick_queue (Z.to_nat MAX_PRIORITY) (cells (set_resched 0 s)) = Done i).
  { apply (pick_queue_spec _ σ); [apply Hw|lia|unfold MAX_PRIORITY in *; lia|done|done]. }
  rewrite Ep, bind_done. cbn [cells set_resched].
  rewrite (lists_first _ _ _ _ _ (qw_lists _ _ Hw) Hx), bind_done.
  destruct (qw_elem _ _ Hw _ _ (Thr t) Hx) as (t' & [= <-] & [k Hk]); [set_solver|].
  destruct (proj2 (move_spec s σ t (RunQ i) Hw I ltac:(eauto) ltac:(eauto))) as (c & E & L).
  pose proof (on_cells_bind (list_del (Thr t)) (list_add_tail (RunQ i) (Thr t)) (set_resched 0 s)) as Eb.
  match type of Eb with ?l = _ =>
    assert (El : l = Done (set_cells c (set_resched 0 s))) by (rewrite Eb; by apply on_queues_done) end.
  assert (Hwc : qwf (set_cells c s) (place at_tail (RunQ i) (Thr t) σ)).
  { assert (Es : set_cells c s = set_threads (threads s) (set_cells c s)) by done. rewrite Es.
    apply (qwf_place at_tail s c σ t (RunQ i) (threads s) at_tail_elem Hw I); [by eauto|by eauto|done| |done].
    intros i' k' [= <-] Hk'. apply (qw_prio _ _ Hw _ t); [|done]. exists (Thr t :: xs). split; [done|set_solver]. }
  assert (Hc' : cpu_ok (set_cells c (set_resched 0 s))) by (destruct Hc; by constructor).
  destruct (context_switch_spec _ t k Hc' Hk) as (s' & Es & Hc2 & Hcur & Hcel & Hthr & Hpr & Hsp & Hres).
  exists s'. split; [|split; [|by split_and!]].
  - rewrite bind_assoc, El, bind_done. exact Es.
  - rewrite (place_rotate _ _ _ _ _ (qw_lists _ _ Hw) Hx) in Hwc by done.
    destruct Hwc as [W1 W2 W3 W4 W5 W6 W7 W8 W9]. cbn [cells threads set_cells] in *.
    constructor; rewrite ?Hcel, ?Hthr; done.
Qed.

(** *** Waking up the waiters of a queue *)

Definition prio_of s (t : Z) : Z := default 0 (priority <$> threads s !! t).
Definition is_wait_queue (c : qcell) : Prop := match c with Thr _ | RunQ _ => False | _ => True end.

(** The threads change only in their [state]. *)
Definition same_threads (m m' : gmap Z kthread) : Prop :=
  ∀ u, with_state 0 <$> m !! u = with_state 0 <$> m' !! u.

Lemma same_threads_prio m m' u : same_threads m m' → priority <$> m !! u = priority <$> m' !! u.
Proof.
  intros Hm. specialize (Hm u). destruct (m !! u) as [k|], (m' !! u) as [k'|]; try done.
  injection Hm as ? ? ? ? ?. by cbn; f_equal.
Qed.

Lemma same_threads_state m t k v : m !! t = Some k → same_threads (<[t := with_state v k]> m) m.
Proof.
  intros Hk u. destruct (decide (u = t)) as [->|]; [by rewrite lookup_insert_eq, Hk|by rewrite lookup_insert_ne].
Qed.

Lemma same_threads_trans m1 m2 m3 : same_threads m1 m2 → same_threads m2 m3 → same_threads m1 m3.
Proof. intros H1 H2 u. by rewrite H1. Qed.

(** Everything but the queues and the states of threads. *)
Definition same_rest s s' : Prop :=
  same_threads (threads s') (threads s) ∧ procs s' = procs s ∧ sys_proc s' = sys_proc s ∧
  current s' = current s ∧ cr3 s' = cr3 s ∧ tss_esp0 s' = tss_esp0 s ∧ need_reschedule s' = need_reschedule s.

Lemma same_rest_refl s : same_rest s s.
Proof. by split_and!. Qed.

Lemma same_rest_trans s1 s2 s3 : same_rest s1 s2 → same_rest s2 s3 → same_rest s1 s3.
Proof.
  intros (T1 & ? & ? & ? & ? & ? & ?) (T2 & ? & ? & ? & ? & ? & ?).
  split; [by eapply same_threads_trans|]. split_and!; congruence.
Qed.

Lemma cpu_ok_same s s' : same_rest s s' → cpu_ok s → cpu_ok s'.
Proof.
  intros (Hm & Hp & _ & Hc & Hr & He & _) [(k & Hk & Hek & Hpr) Hh].
  constructor; rewrite ?Hp, ?Hc, ?Hr, ?He.
  - pose proof (Hm (current s)) as Hu. rewrite Hk in Hu.
    destruct (threads s' !! current s) as [k'|]; [|done]. injection Hu as ? ? ? E1 E2.
    exists k'. split; [done|]. split; [congruence|]. intros p r Hkp. apply Hpr. congruence.
  - intros t k' p Hk' Hkp. specialize (Hm t). rewrite Hk' in Hm.
    destruct (threads s !! t) as [k''|] eqn:E; [|done]. injection Hm as ? ? ? ? E2.
    apply (Hh t k''); congruence.
Qed.

(** The threads of [ts] are woken up one after the other. *)
Definition wake_all (prio : Z → Z) (ts : list Z) σ : qfamily :=
  foldl (λ σ t, place at_head (RunQ (prio t)) (Thr t) σ) σ ts.

Definition woken m (ts : list Z) : Prop :=
  ∀ t, t ∈ ts → state <$> (m : gmap Z kthread) !! t = Some RUNNING.

Lemma place_front f hd σ t ts h s : is_wait_queue h → hd ≠ h → is_queue hd → qwf s σ →
  σ !! h = Some (Thr <$> t :: ts) → place f hd (Thr t) σ !! h = Some (Thr <$> ts).
Proof.
  intros Hh Hne Hq Hw Hx. rewrite place_lookup by (by destruct hd).
  rewrite decide_False by (by intros ->). rewrite decide_False by done. rewrite Hx.
  apply (f_equal Some). rewrite fmap_cons in *. pose proof (lists_nodup _ _ _ _ (qw_lists _ _ Hw) Hx) as [_ Hnd]%NoDup_cons.
  exact (rm_mid (Thr t) [] (Thr <$> ts) Hnd).
Qed.

Lemma queue_threads s σ h xs : qwf s σ → σ !! h = Some xs → ∃ ts, xs = Thr <$> ts.
Proof.
  intros Hw Hx. assert (Hall : ∀ x, x ∈ xs → ∃ t, x = Thr t).
  { intros x Hin. destruct (qw_elem _ _ Hw _ _ _ Hx Hin) as (t & -> & _). eauto. }
  clear Hx. induction xs as [|x xs IH]; [by exists []|].
  destruct (Hall x) as [t ->]; [set_solver|]. destruct IH as [ts ->]; [set_solver|]. by exists (t :: ts).
Qed.

(** *** The invariant of the running system *)

(** [idle]: the thread of [sysidle].  The system keeps it on run queue 0. *)
Record sinv (idle : Z) s σ : Prop := mk_sinv {
  si_wf : qwf s σ;
  si_cpu : cpu_ok s;
  si_idle : on_list σ (Thr idle) (RunQ 0);
  si_proc pid p : kopen_process pid s = Some p → is_Some (σ !! ProcWq p);
}.

(** A move of [t] to [hd] that keeps the idle thread on its queue. *)
Lemma sinv_place idle f s c σ t hd m : (∀ e x xs, x ∈ f e xs ↔ x = e ∨ x ∈ xs) →
  sinv idle s σ → is_queue hd → is_Some (σ !! hd) → is_Some (threads s !! t) →
  lists c (place f hd (Thr t) σ) → same_threads m (threads s) →
  (∀ i, hd = RunQ i → priority <$> threads s !! t = Some i) → (t = idle → ∃ i, hd = RunQ i) →
  sinv idle (set_threads m (set_cells c s)) (place f hd (Thr t) σ).
Proof.
  intros Hf [Hw Hc Hi Hpr] Hq Hhd Ht Hl Hm Hp Hid.
  assert (Hu : ∀ u, priority <$> m !! u = priority <$> threads s !! u) by (intros u; by apply same_threads_prio).
  assert (Hne : hd ≠ Thr t) by (by destruct hd).
  constructor.
  - apply qwf_place; try done. intros i k -> Hk. specialize (Hp i eq_refl). rewrite <- Hu, Hk in Hp. by injection Hp.
  - apply (cpu_ok_same s); [|done]. by split_and!.
  - apply place_on; [done..|]. destruct (decide (Thr idle = Thr t)) as [[= ->]|]; [|by right].
    left. split; [done|]. destruct (Hid eq_refl) as [i ->]. specialize (Hp i eq_refl).
    destruct (threads s !! t) as [k|] eqn:Ek; [|by destruct Ht]. injection Hp as <-.
    by rewrite (qw_prio _ _ Hw _ _ _ Hi Ek).
  - intros pid p Hpid. rewrite place_lookup, decide_False by done.
    destruct (Hpr pid p Hpid) as [xs Hx]. case_decide; rewrite Hx; eauto.
Qed.

Lemma schedule_inv idle s σ : sinv idle s σ →
  ∃ s' i t xs, highest σ i ∧ σ !! RunQ i = Some (Thr t :: xs) ∧ schedule s = Done s' ∧
    sinv idle s' (<[RunQ i := xs ++ [Thr t]]> σ) ∧ current s' = t ∧ threads s' = threads s ∧
    need_reschedule s' = 0.
Proof.
  intros [Hw Hc Hi Hpr]. destruct Hi as (ys & Hy & Hin).
  destruct (qw_elem _ _ Hw _ _ _ Hy Hin) as (u & [= <-] & [ku Hku]).
  assert (Hon : on_list σ (Thr idle) (RunQ 0)) by (by exists ys).
  pose proof (qw_prio _ _ Hw _ _ _ Hon Hku) as Hpu.
  destruct (highest_exists s σ idle ku Hw Hku ltac:(by rewrite Hpu)) as [i Hhi].
  pose proof Hhi as (Hir & (x & xs & Hx) & _).
  destruct (qw_elem _ _ Hw _ _ x Hx) as (t & -> & _); [set_solver|].
  destruct (schedule_spec s σ i t xs Hw Hc Hhi Hx) as (s' & E & Hw' & Hc' & Hcur & Hthr & Hp' & Hsp & Hres).
  exists s', i, t, xs. split_and!; try done. constructor; [done|done| |].
  - destruct (decide (i = 0)) as [->|Hne].
    + exists (xs ++ [Thr t]). rewrite lookup_insert_eq. split; [done|]. rewrite Hx in Hy. injection Hy as <-. set_solver.
    + exists ys. by rewrite lookup_insert_ne by congruence.
  - unfold kopen_process. rewrite Hsp. intros pid p Hpid. rewrite lookup_insert_ne by done. by eapply Hpr.
Qed.

Lemma pt_wakeup_inv idle s σ t : sinv idle s σ → is_Some (threads s !! t) →
  ∃ s', pt_wakeup t s = Done s' ∧ sinv idle s' (place at_head (RunQ (prio_of s t)) (Thr t) σ) ∧ same_rest s s' ∧
    state <$> threads s' !! t = Some RUNNING ∧ (∀ u, u ≠ t → threads s' !! u = threads s !! u).
Proof.
  intros Hs [k Hk]. pose proof (si_wf _ _ _ Hs) as Hw.
  assert (Hp : prio_of s t = priority k) by (unfold prio_of; by rewrite Hk). rewrite Hp.
  destruct (pt_wakeup_spec _ _ _ _ Hw Hk) as (c & -> & Hw1). eexists. split; [reflexivity|].
  assert (Hst : same_threads (<[t := with_state RUNNING k]> (threads s)) (threads s)) by (by apply same_threads_state).
  split; [|split; [by split_and!|]].
  - change (set_cells c (set_threads ?m s)) with (set_threads m (set_cells c s)) in *.
    apply sinv_place; try done.
    + apply at_head_elem.
    + by apply (qw_queues _ _ Hw), (qw_range _ _ Hw _ _ Hk).
    + by apply (qw_lists _ _ Hw1).
    + intros i [= <-]. by rewrite Hk.
    + eauto.
  - cbn [threads set_threads set_cells]. split; [by rewrite lookup_insert_eq|].
    intros u Hu. by rewrite lookup_insert_ne.
Qed.

(** *** The moves of the operations *)

Lemma set_state_inv idle s σ t k v : sinv idle s σ → threads s !! t = Some k →
  ∃ s1, set_state t v s = Done s1 ∧ sinv idle s1 σ ∧ same_rest s s1 ∧ cells s1 = cells s ∧
    threads s1 = <[t := with_state v k]> (threads s).
Proof.
  intros [Hw Hc Hi Hpr] Hk. rewrite (set_state_spec _ _ _ _ Hk). eexists. split; [reflexivity|].
  set (m := <[t := with_state v k]> (threads s)).
  assert (Hm : same_threads m (threads s)) by (by apply same_threads_state).
  assert (Hr : same_rest s (set_threads m s)) by (by split_and!).
  assert (Hd : ∀ u, is_Some (m !! u) ↔ is_Some (threads s !! u)).
  { intros u. unfold m. destruct (decide (u = t)) as [->|]; [rewrite lookup_insert_eq, Hk; by split; eauto|].
    by rewrite lookup_insert_ne. }
  split; [|by split_and!]. constructor; [|by eapply cpu_ok_same|done|done].
  destruct Hw as [W1 W2 W3 W4 W5 W6 W7 W8 W9]. constructor; cbn [cells threads set_threads]; try done.
  - intros hd xs c Hx Hin. destruct (W3 _ _ _ Hx Hin) as (u & -> & ?). exists u. by rewrite Hd.
  - intros u. rewrite Hd. auto.
  - intros u. rewrite Hd. auto.
  - intros u. rewrite Hd. auto.
  - intros u k' Hk'. pose proof (same_threads_prio _ _ u Hm) as Hu. rewrite Hk' in Hu.
    destruct (threads s !! u) as [k''|] eqn:E; [|done]. injection Hu as ->. by eapply W8.
  - intros i u k' Hon Hk'. pose proof (same_threads_prio _ _ u Hm) as Hu. rewrite Hk' in Hu.
    destruct (threads s !! u) as [k''|] eqn:E; [|done]. injection Hu as ->. by eapply W9.
Qed.

Lemma sinv_cells idle f s σ t hd c : (∀ e x xs, x ∈ f e xs ↔ x = e ∨ x ∈ xs) →
  sinv idle s σ → is_queue hd → is_Some (σ !! hd) → is_Some (threads s !! t) →
  lists c (place f hd (Thr t) σ) →
  (∀ i, hd = RunQ i → priority <$> threads s !! t = Some i) → (t = idle → ∃ i, hd = RunQ i) →
  sinv idle (set_cells c s) (place f hd (Thr t) σ).
Proof. intros. by apply (sinv_place idle f s c σ t hd (threads s)). Qed.

Lemma move_tail_inv idle s σ t hd : sinv idle s σ → is_queue hd → is_Some (σ !! hd) → is_Some (threads s !! t) →
  (∀ i, hd = RunQ i → priority <$> threads s !! t = Some i) → (t = idle → ∃ i, hd = RunQ i) →
  ∃ s1, on_cells (list_move_tail hd (Thr t)) s = Done s1 ∧ sinv idle s1 (place at_tail hd (Thr t) σ) ∧
    same_rest s s1 ∧ threads s1 = threads s.
Proof.
  intros Hs Hq Hhd Ht Hp Hid. destruct (move_spec _ _ _ _ (si_wf _ _ _ Hs) Hq Hhd Ht) as [_ (c & E & L)].
  exists (set_cells c s). rewrite (on_queues_done _ _ _ E).
  pose proof (sinv_cells idle at_tail s σ t hd c at_tail_elem). by split_and!; auto.
Qed.

Lemma del_add_tail_inv idle s σ t hd : sinv idle s σ → is_queue hd → is_Some (σ !! hd) → is_Some (threads s !! t) →
  (∀ i, hd = RunQ i → priority <$> threads s !! t = Some i) → (t = idle → ∃ i, hd = RunQ i) →
  ∃ s1, on_cells (list_del (Thr t)) s ≫= on_cells (list_add_tail hd (Thr t)) = Done s1 ∧
    sinv idle s1 (place at_tail hd (Thr t) σ) ∧ same_rest s s1 ∧ threads s1 = threads s.
Proof. intros. rewrite on_cells_bind. by apply move_tail_inv. Qed.

Lemma del_add_inv idle s σ t hd : sinv idle s σ → is_queue hd → is_Some (σ !! hd) → is_Some (threads s !! t) →
  (∀ i, hd = RunQ i → priority <$> threads s !! t = Some i) → (t = idle → ∃ i, hd = RunQ i) →
  ∃ s1, on_cells (list_del (Thr t)) s ≫= on_cells (list_add hd (Thr t)) = Done s1 ∧
    sinv idle s1 (place at_head hd (Thr t) σ) ∧ same_rest s s1 ∧ threads s1 = threads s.
Proof.
  intros Hs Hq Hhd Ht Hp Hid. rewrite on_cells_bind.
  destruct (move_spec _ _ _ _ (si_wf _ _ _ Hs) Hq Hhd Ht) as [(c & E & L) _].
  exists (set_cells c s). split; [exact (on_queues_done _ _ _ E)|].
  pose proof (sinv_cells idle at_head s σ t hd c at_head_elem). by split_and!; auto.
Qed.

(** A thread taken off its list. *)
Lemma unlink_inv idle s σ t : sinv idle s σ → is_Some (threads s !! t) → t ≠ idle →
  ∃ s1, on_cells (list_del (Thr t)) s = Done s1 ∧ sinv idle s1 (unlink (Thr t) σ) ∧ same_rest s s1 ∧
    threads s1 = threads s.
Proof.
  intros [Hw Hc Hi Hpr] Ht Hne. pose proof (qw_linked _ _ Hw t Ht) as Hl.
  destruct (lists_del _ _ (Thr t) (qw_lists _ _ Hw) Hl) as (c & E & L & _).
  exists (set_cells c s). rewrite (on_queues_done _ _ _ E). split; [done|]. split; [|by split_and!].
  assert (Hq : ∀ q, q ≠ Thr t → unlink (Thr t) σ !! q = rm (Thr t) <$> σ !! q) by (intros; by apply unlink_lookup_ne).
  assert (Hsome : ∀ q, q ≠ Thr t → is_Some (σ !! q) ↔ is_Some (unlink (Thr t) σ !! q)).
  { intros q Hqt. rewrite Hq by done. by destruct (σ !! q); split; intros [? ?]; eauto. }
  assert (Hback : ∀ q u, on_list (unlink (Thr t) σ) u q → u ≠ Thr t ∧ on_list σ u q).
  { intros q u (xs & Hx & Hin). destruct (decide (q = Thr t)) as [->|Hqt].
    - rewrite unlink_lookup_e in Hx. injection Hx as <-. by apply not_elem_of_nil in Hin.
    - rewrite Hq in Hx by done. destruct (σ !! q) as [ys|] eqn:Ey; [|done]. injection Hx as <-.
      apply rm_elem in Hin as [? ?]. split; [done|]. by exists ys. }
  assert (Hfw : ∀ q u, q ≠ Thr t → u ≠ Thr t → on_list σ u q → on_list (unlink (Thr t) σ) u q).
  { intros q u Hqt Hut (xs & Hx & Hin). exists (rm (Thr t) xs). rewrite Hq, Hx by done. split; [done|]. by apply rm_elem. }
  constructor; [|by apply (cpu_ok_same s); [split_and!|]|by apply Hfw; [..|congruence|]|].
  2: { intros pid p Hpid. rewrite <- Hsome by done. by eapply Hpr. }
  constructor; cbn [cells threads set_cells]; try done.
  - intros i Hir. rewrite <- !Hsome by done. by apply Hw.
  - intros hd xs u Hx Hin. destruct (Hback hd u) as [_ (ys & Hy & Hin')]; [by exists xs|].
    by eapply (qw_elem _ _ Hw).
  - intros u xs Hx. destruct (decide (Thr u = Thr t)) as [[= ->]|Hut].
    + rewrite unlink_lookup_e in Hx. by injection Hx as <-.
    + rewrite Hq in Hx by done. destruct (σ !! Thr u) as [ys|] eqn:Ey; [|done]. injection Hx as <-.
      by rewrite (qw_head _ _ Hw _ _ Ey).
  - intros u Hu. destruct (decide (Thr u = Thr t)) as [->|Hut]; [right; apply unlink_lookup_e|].
    destruct (qw_linked _ _ Hw u Hu) as [[h Hh]|Hl0].
    + left. exists h. apply Hfw; [|done|done]. intros ->. by apply (head_not_thr _ _ t u Hw) in Hh.
    + right. by rewrite Hq, Hl0.
  - intros u Hu. rewrite <- Hsome by done. by apply Hw.
  - intros u [Hu|Hu].
    + destruct (decide (Thr u = Thr t)) as [[= ->]|Hut]; [done|]. rewrite <- Hsome in Hu by done.
      apply (qw_known _ _ Hw). by left.
    + rewrite <- Hsome in Hu by done. apply (qw_known _ _ Hw). by right.
  - apply Hw.
  - intros i u k [_ Hon]%Hback. by apply Hw.
Qed.

(** A new thread, not yet queued. *)
Lemma sinv_new idle s σ t k c : sinv idle s σ → threads s !! t = None → 0 <= priority k < MAX_PRIORITY →
  (∀ p, host k = Some p → is_Some (procs s !! p)) →
  lists c (<[ThrWq t := []]> (<[Thr t := []]> σ)) →
  sinv idle (set_cells c (set_threads (<[t := k]> (threads s)) s)) (<[ThrWq t := []]> (<[Thr t := []]> σ)).
Proof.
  intros [Hw Hc Hi Hpr] Ht Hk Hh Hl. set (σ1 := <[ThrWq t := []]> (<[Thr t := []]> σ)) in *.
  assert (Hold : ∀ u, is_Some (threads s !! u) → u ≠ t) by (intros u [? ?] ->; congruence).
  assert (Hlook : ∀ q, q ≠ Thr t → q ≠ ThrWq t → σ1 !! q = σ !! q).
  { intros q H1 H2. unfold σ1. by rewrite !lookup_insert_ne by done. }
  assert (σ !! Thr t = None ∧ σ !! ThrWq t = None) as [Hn1 Hn2].
  { split; apply eq_None_not_Some; intros Hx; (eapply (Hold t); [|done]); apply (qw_known _ _ Hw); auto. }
  assert (Hon : ∀ u q, on_list σ1 u q ↔ on_list σ u q).
  { intros u q. unfold on_list. destruct (decide (q = Thr t)) as [->|H1]; [|destruct (decide (q = ThrWq t)) as [->|H2]].
    - unfold σ1. rewrite lookup_insert_ne, lookup_insert_eq, Hn1 by done.
      split; intros (xs & [= <-] & Hin); by apply not_elem_of_nil in Hin.
    - unfold σ1. rewrite lookup_insert_eq, Hn2. split; intros (xs & [= <-] & Hin); by apply not_elem_of_nil in Hin.
    - by rewrite Hlook. }
  assert (Hne : ∀ u, u ≠ t → Thr u ≠ Thr t ∧ ThrWq u ≠ ThrWq t) by (intros; split; congruence).
  constructor.
  - constructor; cbn [cells threads set_cells set_threads].
    + done.
    + intros i Hir. rewrite !Hlook by done. by apply Hw.
    + intros hd xs u Hx Hin. destruct (proj1 (Hon u hd)) as (ys & Hy & Hin'); [by exists xs|].
      destruct (qw_elem _ _ Hw _ _ _ Hy Hin') as (v & -> & Hv). exists v. split; [done|].
      rewrite lookup_insert_ne by (apply not_eq_sym, Hold, Hv). done.
    + intros u xs. unfold σ1. rewrite lookup_insert_ne by done. intros [[_ <-]|[_ Hx]]%lookup_insert_Some; [done|].
      by eapply (qw_head _ _ Hw).
    + intros u. destruct (decide (u = t)) as [->|Hut].
      * intros _. right. unfold σ1. by rewrite lookup_insert_ne, lookup_insert_eq.
      * rewrite lookup_insert_ne by done. intros Hu. destruct (qw_linked _ _ Hw u Hu) as [[h Ho]|Ho].
        -- left. exists h. by apply Hon.
        -- right. rewrite Hlook; [done|by apply Hne|done].
    + intros u. destruct (decide (u = t)) as [->|Hut].
      * intros _. unfold σ1. rewrite lookup_insert_eq. eauto.
      * rewrite lookup_insert_ne by done. intros Hu. rewrite Hlook; [by apply Hw|done|by apply Hne].
    + intros u. destruct (decide (u = t)) as [->|Hut]; [rewrite lookup_insert_eq; eauto|].
      rewrite lookup_insert_ne, !Hlook by (done || by apply Hne). apply Hw.
    + intros u k' [[<- <-]|[_ Hk']]%lookup_insert_Some; [done|by eapply (qw_range _ _ Hw)].
    + intros i u k' Ho%Hon [[<- <-]|[_ Hk']]%lookup_insert_Some; [|by eapply (qw_prio _ _ Hw)].
      destruct Ho as (xs & Hx & Hin). destruct (qw_elem _ _ Hw _ _ _ Hx Hin) as (v & [= <-] & Hv). by apply Hold in Hv.
  - destruct Hc as [(kc & Ekc & ? & ?) Hhost]. constructor; cbn [procs threads current set_cells set_threads].
    + exists kc. rewrite lookup_insert_ne; [done|]. intros E. apply (Hold (current s)); eauto.
    + intros u k' p [[<- <-]|[_ Hk']]%lookup_insert_Some; [by apply Hh|by eapply Hhost].
  - by apply Hon.
  - intros pid p Hpid. rewrite Hlook by done. by eapply Hpr.
Qed.

Lemma queue_thread_inv idle s σ t st0 id sp hst prio prv st :
  sinv idle s σ → threads s !! t = None → 0 <= prio < MAX_PRIORITY →
  (∀ p, hst = Some p → is_Some (procs s !! p)) →
  ∃ s' σ', queue_thread t st0 id sp hst (Some (prio, prv, st)) s = Done s' ∧ sinv idle s' σ' ∧
    on_list σ' (Thr t) (if decide (st = SUSPEND ∨ st = STOPED ∨ st = SLEEPING) then WaitQ prio else RunQ prio) ∧
    threads s' = <[t := mk_thread prio st0 id prv sp (if prv =? 3 then hst else None)]> (threads s).
Proof.
  intros Hs Ht Hpr Hh. set (k := mk_thread prio st0 id prv sp (if prv =? 3 then hst else None)).
  set (page := <[Thr t := mk_ll (Thr t) (Thr t)]> (<[ThrWq t := mk_ll (ThrWq t) (ThrWq t)]> (cells s))).
  pose proof (si_wf _ _ _ Hs) as Hw.
  assert (Hnt : ¬ is_Some (threads s !! t)) by (rewrite Ht; by intros [? ?]).
  assert (Hfr : ∀ hd xs, σ !! hd = Some xs → Thr t ∉ hd :: xs ∧ ThrWq t ∉ hd :: xs).
  { intros hd xs Hx. rewrite !not_elem_of_cons. split_and!.
    - intros <-. apply Hnt, (qw_known _ _ Hw). eauto.
    - intros Hin. by destruct (qw_elem _ _ Hw _ _ _ Hx Hin) as (v & [= <-] & ?).
    - intros <-. apply Hnt, (qw_known _ _ Hw). eauto.
    - intros Hin. by destruct (qw_elem _ _ Hw _ _ _ Hx Hin) as (v & [=] & ?). }
  assert (Hl0 : lists page σ).
  { eapply lists_frame, Hw. intros hd xs q Hx Hq. destruct (Hfr _ _ Hx) as [H1 H2].
    unfold page. rewrite !lookup_insert_ne; [done|by intros <-|by intros <-]. }
  destruct (lists_init page σ (Thr t) Hl0) as (c1 & E1 & Hl1 & Hd1 & Hf1).
  { unfold page. rewrite lookup_insert_eq. eauto. }
  { intros hd xs Hx. by apply (Hfr _ _ Hx). }
  destruct (lists_init c1 (<[Thr t := []]> σ) (ThrWq t) Hl1) as (c2 & E2 & Hl2 & _ & _).
  { rewrite Hf1 by done. unfold page. rewrite lookup_insert_ne, lookup_insert_eq by done. eauto. }
  { intros hd xs [[<- <-]|[_ Hx]]%lookup_insert_Some; [|by apply (Hfr _ _ Hx)].
    by intros ?%list_elem_of_singleton. }
  assert (Hkh : ∀ p, host k = Some p → is_Some (procs s !! p)).
  { intros p. cbn. destruct (prv =? 3); [apply Hh|done]. }
  pose proof (sinv_new idle s σ t k c2 Hs Ht Hpr Hkh Hl2) as Hs2.
  set (σ1 := <[ThrWq t := []]> (<[Thr t := []]> σ)) in *.
  set (s2 := set_cells c2 (set_threads (<[t := k]> (threads s)) s)) in *.
  set (hd := if decide (st = SUSPEND ∨ st = STOPED ∨ st = SLEEPING) then WaitQ prio else RunQ prio).
  assert (Hq : is_queue hd ∧ hd ≠ Thr t) by (unfold hd; by case_decide).
  destruct (qw_queues _ _ (si_wf _ _ _ Hs2) prio Hpr) as [Hr1 Hr2].
  assert (Hhd : is_Some (σ1 !! hd)) by (unfold hd; by case_decide).
  assert (Hloose : σ1 !! Thr t = Some []) by (unfold σ1; by rewrite lookup_insert_ne, lookup_insert_eq).
  destruct Hhd as [xs Hx].
  destruct (lists_add_tail c2 σ1 hd (Thr t) xs Hl2 Hx Hloose) as (c3 & E3 & Hl3 & _ & _); [by apply not_eq_sym, Hq|].
  assert (Hpl : link_tail hd (Thr t) σ1 = place at_tail hd (Thr t) σ1).
  { unfold place. by rewrite (unlink_loose c2 σ1 (Thr t) Hl2 Hloose). }
  rewrite Hpl in Hl3.
  assert (Hk2 : threads s2 !! t = Some k) by (unfold s2; cbn [threads set_threads set_cells]; by rewrite lookup_insert_eq).
  exists (set_cells c3 s2), (place at_tail hd (Thr t) σ1). split_and!.
  - unfold queue_thread. cbn [default from_option Datatypes.id].
    fold k. change (set_cells _ (set_threads _ s)) with (set_cells page (set_threads (<[t := k]> (threads s)) s)).
    rewrite (on_queues_done _ _ c1) by exact E1. rewrite bind_done. rewrite (on_queues_done _ _ c2) by exact E2.
    rewrite bind_done. unfold hd in E3. case_decide; by apply on_queues_done.
  - apply sinv_cells; eauto; [apply at_tail_elem|apply Hq|..].
    + intros i Hi. rewrite Hk2. cbn. unfold hd in Hi. case_decide; [done|by injection Hi as ->].
    + intros ->. exfalso. destruct (si_idle _ _ _ Hs) as (ys & Hy & Hin).
      destruct (qw_elem _ _ Hw _ _ _ Hy Hin) as (v & [= <-] & ?). done.
  - apply place_on; [apply at_tail_elem|apply Hq|apply Hq|by eauto|]. by left.
  - done.
Qed.

(** *** Every operation keeps the invariant *)

(** The wait queues of the processes and threads of the system. *)
Definition waitable s (h : qcell) : Prop :=
  match h with
  | ProcWq p => ∃ pid, kopen_process pid s = Some p
  | ThrWq t => is_Some (threads s !! t)
  | _ => False
  end.

Lemma waitable_queue idle s σ h : sinv idle s σ → waitable s h →
  is_wait_queue h ∧ is_queue h ∧ is_Some (σ !! h) ∧ ∀ i, h ≠ RunQ i.
Proof.
  intros [Hw _ _ Hp] Hh. destruct h; try done; cbn in Hh.
  - destruct Hh as [pid Hpid]. split_and!; try done. by eapply Hp.
  - split_and!; try done. by apply Hw.
Qed.

Lemma waitable_same s s' h : same_rest s s' → waitable s h → waitable s' h.
Proof.
  intros (Hm & _ & Hsp & _) Hh. destruct h as [| |p|t| |]; try done; cbn in *.
  - unfold kopen_process. by rewrite Hsp.
  - specialize (Hm t). destruct (threads s !! t), (threads s' !! t); try done; by destruct Hh.
Qed.

Lemma current_known idle s σ : sinv idle s σ → ∃ k, threads s !! current s = Some k.
Proof. intros [_ [(k & Hk & _) _] _ _]. eauto. Qed.

Lemma pt_wait_on_inv idle s σ h : sinv idle s σ → waitable s h → current s ≠ idle →
  ∃ s' σ', pt_wait_on h s = Done s' ∧ sinv idle s' σ' ∧ on_list σ' (Thr (current s)) h ∧
    state <$> threads s' !! current s = Some SLEEPING.
Proof.
  intros Hs Hh Hne. destruct (current_known _ _ _ Hs) as [k Hk]. unfold pt_wait_on.
  destruct (set_state_inv _ _ _ _ _ SLEEPING Hs Hk) as (s1 & E1 & Hs1 & Hr1 & _ & Et1).
  rewrite E1, bind_done, bind_assoc.
  destruct (waitable_queue _ _ _ _ Hs Hh) as (_ & Hq & Hx & Hnr).
  destruct (del_add_tail_inv idle s1 σ (current s) h Hs1 Hq Hx) as (s2 & E2 & Hs2 & Hr2 & Et2).
  { rewrite Et1, lookup_insert_eq. eauto. }
  { intros i ->. by destruct (Hnr i). }
  { done. }
  rewrite E2, bind_done.
  destruct (schedule_inv _ _ _ Hs2) as (s3 & i & u & xs & _ & Hx3 & E3 & Hs3 & _ & Et3 & _).
  exists s3, (<[RunQ i := xs ++ [Thr u]]> (place at_tail h (Thr (current s)) σ)). rewrite E3, Et3, Et2, Et1, lookup_insert_eq.
  split_and!; try done.
  unfold on_list. rewrite lookup_insert_ne by (by apply not_eq_sym).
  apply place_on; [apply at_tail_elem|by destruct h|by destruct h|done|by left].
Qed.

Lemma ksleep_inv idle cb mem ms ts s σ r ts' s' : sinv idle s σ → current s ≠ idle →
  ksleep cb mem ms (ts, s) = Done (r, (ts', s')) → ∃ σ', sinv idle s' σ'.
Proof.
  intros Hs Hne. destruct (current_known _ _ _ Hs) as [k Hk]. unfold ksleep. rewrite Hk. cbn [deref].
  rewrite bind_done. pose proof (si_wf _ _ _ Hs) as Hw.
  destruct (qw_queues _ _ Hw _ (qw_range _ _ Hw _ _ Hk)) as [Hrq Hwq].
  destruct (ms =? 0).
  - destruct (move_tail_inv idle s σ (current s) (RunQ (priority k)) Hs I Hrq) as (s1 & -> & Hs1 & _); eauto.
    { intros i [= <-]. by rewrite Hk. }
    rewrite bind_done. destruct (schedule_inv _ _ _ Hs1) as (s2 & i & u & xs & _ & _ & -> & Hs2 & _).
    rewrite bind_done. intros [= <- <- <-]. eauto.
  - destruct (ms <? 0); [intros [= <- <- <-]; eauto|]. intros Hrun. run_inv Hrun.
    destruct r0 as [ret ts1]. destruct (ret <? 0); [injection Hrun as <- <- <-; eauto|].
    destruct (set_state_inv _ _ _ _ _ SLEEPING Hs Hk) as (s1 & E1 & Hs1 & Hr1 & _ & Et1). rewrite E1, bind_done in Hrun.
    destruct (move_tail_inv idle s1 σ (current s) (WaitQ (priority k)) Hs1 I Hwq) as (s2 & E2 & Hs2 & _).
    { rewrite Et1, lookup_insert_eq. eauto. }
    { done. }
    { done. }
    rewrite E2, bind_done in Hrun.
    destruct (schedule_inv _ _ _ Hs2) as (s3 & i & u & xs & _ & _ & E3 & Hs3 & _).
    rewrite E3, bind_done in Hrun. injection Hrun as <- <- <-. eauto.
Qed.

Lemma kwait_pid_inv idle cb mem pid ms ts s σ r ts' s' : sinv idle s σ → current s ≠ idle →
  kwait_pid cb mem pid ms (ts, s) = Done (r, (ts', s')) → ∃ σ', sinv idle s' σ'.
Proof.
  intros Hs Hne. destruct (current_known _ _ _ Hs) as [k Hk]. unfold kwait_pid.
  destruct (kopen_process pid s) as [p|] eqn:Ep; [|intros [= <- <- <-]; eauto].
  pose proof (si_proc _ _ _ Hs _ _ Ep) as Hpq.
  assert (Hfin : ∀ s1 σ1 s2, sinv idle s1 σ1 → threads s1 !! current s = Some k →
    (set_state (current s) SLEEPING s1 = Done s2 → sinv idle s2 σ1)).
  { intros s1 σ1 s2 Hs1 Hk1 E. destruct (set_state_inv _ _ _ _ _ SLEEPING Hs1 Hk1) as (s3 & E3 & Hs3 & _).
    rewrite E in E3. by injection E3 as <-. }
  destruct (ms =? WAITE_INFINITE).
  - rewrite bind_assoc.
    destruct (del_add_inv idle s σ (current s) (ProcWq p) Hs I Hpq) as (s1 & -> & Hs1 & _ & Et1); [by eauto|done|done|].
    rewrite bind_done. intros Hrun. run_inv Hrun. injection Hrun as <- <- <-.
    rewrite <- Et1 in Hk. pose proof (Hfin _ _ _ Hs1 ltac:(by rewrite Hk) E) as Hs2.
    destruct (schedule_inv _ _ _ Hs2) as (s3 & i & u & xs & _ & _ & E3 & Hs3 & _).
    rewrite E0 in E3. injection E3 as ->. eauto.
  - destruct (ms =? 0); [intros [= <- <- <-]; eauto|]. rewrite bind_assoc.
    destruct (del_add_tail_inv idle s σ (current s) (ProcWq p) Hs I Hpq) as (s1 & -> & Hs1 & _ & Et1); [by eauto|done|done|].
    rewrite bind_done. intros Hrun. run_inv Hrun. destruct r1 as [ret ts1].
    rewrite <- Et1 in Hk. pose proof (Hfin _ _ _ Hs1 ltac:(by rewrite Hk) E) as Hs2.
    destruct (ret <? 0); [injection Hrun as <- <- <-; eauto|]. run_inv Hrun. injection Hrun as <- <- <-.
    destruct (schedule_inv _ _ _ Hs2) as (s3 & i & u & xs & _ & _ & E3 & Hs3 & _).
    rewrite E1 in E3. injection E3 as ->. eauto.
Qed.

(** *** Waking up a whole queue *)

Lemma wakeup_loop_spec idle ts : ∀ fuel s σ h n, sinv idle s σ → is_wait_queue h → σ !! h = Some (Thr <$> ts) →
  (length ts < fuel)%nat → nextf (cells s) (first_or (Thr <$> ts) h) = Some n →
  ∃ s', wakeup_loop fuel h (first_or (Thr <$> ts) h) n s = Done s' ∧
    sinv idle s' (wake_all (prio_of s) ts σ) ∧ same_rest s s' ∧ woken (threads s') ts ∧
    wake_all (prio_of s) ts σ !! h = Some [] ∧ (∀ u, u ∉ ts → threads s' !! u = threads s !! u).
Proof.
  induction ts as [|t ts IH]; intros [|fuel] s σ h n Hw Hh Hx Hf Hn; cbn [length] in Hf; try lia.
  - exists s. cbn [wakeup_loop]. change (first_or (Thr <$> []) h) with h. rewrite decide_True by done.
    split_and!; try done. intros u Hu. by apply not_elem_of_nil in Hu.
  - change (first_or (Thr <$> t :: ts) h) with (Thr t) in *. cbn [wakeup_loop].
    rewrite decide_False by (by destruct h). pose proof (si_wf _ _ _ Hw) as Hq.
    destruct (qw_elem _ _ Hq _ _ (Thr t) Hx) as (t' & [= <-] & Hk); [set_solver|].
    destruct (pt_wakeup_inv _ _ _ _ Hw Hk) as (s1 & -> & Hw1 & Hr1 & Hst & Hoth). rewrite bind_done.
    assert (Hx1 : place at_head (RunQ (prio_of s t)) (Thr t) σ !! h = Some (Thr <$> ts)).
    { apply (place_front _ _ _ _ _ _ s); try done. by destruct h. }
    assert (En : n = first_or (Thr <$> ts) h).
    { destruct (proj1 (qw_lists _ _ Hq) _ _ Hx) as [_ Hc0].
      destruct Hc0 as (_ & _ & Hc%chain_next). rewrite Hn in Hc. by injection Hc. }
    assert (∃ n', nextf (cells s1) n = Some n') as [n' Hn'].
    { apply lookup_nextf. eapply (is_list_elem _ h (Thr <$> ts)); [by apply (qw_lists _ _ (si_wf _ _ _ Hw1))|].
      rewrite En. pose proof (first_or_elem (Thr <$> ts) h). set_solver. }
    rewrite (get_next_spec _ _ _ Hn'), bind_done. subst n.
    destruct (IH fuel s1 _ h n' Hw1 Hh Hx1 ltac:(lia) Hn') as (s' & E & Hw' & Hr & Hwk & He & Hu).
    assert (Hps : ∀ u, prio_of s1 u = prio_of s u).
    { intros u. unfold prio_of. f_equal. apply same_threads_prio, Hr1. }
    assert (Hwa : ∀ σ0, wake_all (prio_of s1) ts σ0 = wake_all (prio_of s) ts σ0).
    { clear -Hps. induction ts as [|u ts IH]; intros σ0; [done|]. cbn [wake_all foldl].
      rewrite Hps. apply IH. }
    exists s'. rewrite E. cbn [wake_all foldl]. rewrite Hwa in Hw', He.
    pose proof (lists_nodup _ _ _ _ (qw_lists _ _ Hq) Hx) as [_ Hnd]%NoDup_cons.
    apply NoDup_fmap_1, NoDup_cons in Hnd as [Htn _].
    split; [done|]. split; [done|]. split; [by eapply same_rest_trans|]. split; [|split; [done|]].
    + intros u [->|Hin]%elem_of_cons; [|by apply Hwk]. by rewrite Hu.
    + intros u [Hut Huts]%not_elem_of_cons. rewrite Hu by done. by apply Hoth.
Qed.

Lemma wakeup_waiters_spec idle ts fuel s σ h : sinv idle s σ → is_wait_queue h → σ !! h = Some (Thr <$> ts) →
  (length ts < fuel)%nat →
  ∃ s', wakeup_waiters fuel (Some h) s = Done s' ∧
    sinv idle s' (wake_all (prio_of s) ts σ) ∧ same_rest s s' ∧ woken (threads s') ts ∧
    wake_all (prio_of s) ts σ !! h = Some [] ∧ (∀ u, u ∉ ts → threads s' !! u = threads s !! u).
Proof.
  intros Hw Hh Hx Hf. unfold wakeup_waiters. pose proof (qw_lists _ _ (si_wf _ _ _ Hw)) as Hl.
  rewrite (lists_is_empty _ _ _ _ Hl Hx), bind_done.
  destruct ts as [|t ts].
  - rewrite bool_decide_true by done. exists s. split_and!; try done. intros u Hu. by apply not_elem_of_nil in Hu.
  - rewrite bool_decide_false by done. rewrite fmap_cons in Hx.
    rewrite (lists_first _ _ _ _ _ Hl Hx), bind_done.
    destruct (proj1 Hl _ _ Hx) as [_ (_ & _ & Hc%chain_next)].
    rewrite (get_next_spec _ _ _ Hc), bind_done. by apply (wakeup_loop_spec idle (t :: ts)).
Qed.

(** No queue is longer than the number of threads. *)
Lemma queue_length s σ h ts : qwf s σ → σ !! h = Some (Thr <$> ts) → (length ts <= base.size (threads s))%nat.
Proof.
  intros Hw Hx. pose proof (lists_nodup _ _ _ _ (qw_lists _ _ Hw) Hx) as [_ Hnd]%NoDup_cons.
  apply NoDup_fmap_1 in Hnd. rewrite <- size_dom, <- (size_list_to_set (C := gset Z)) by done.
  apply subseteq_size. intros t Ht%elem_of_list_to_set. apply elem_of_dom.
  destruct (qw_elem _ _ Hw _ _ (Thr t) Hx) as (u & [= <-] & ?); [by apply list_elem_of_fmap_2|done].
Qed.

Lemma wakeup_waiters_inv idle fuel s σ h : sinv idle s σ → waitable s h → (base.size (threads s) < fuel)%nat →
  ∃ s' σ' ts, σ !! h = Some (Thr <$> ts) ∧ wakeup_waiters fuel (Some h) s = Done s' ∧ sinv idle s' σ' ∧
    same_rest s s' ∧ woken (threads s') ts ∧ σ' !! h = Some [].
Proof.
  intros Hs Hh Hf. destruct (waitable_queue _ _ _ _ Hs Hh) as (Hwq & _ & [xs Hx] & _).
  destruct (queue_threads _ _ _ _ (si_wf _ _ _ Hs) Hx) as [ts ->].
  pose proof (queue_length _ _ _ _ (si_wf _ _ _ Hs) Hx).
  destruct (wakeup_waiters_spec idle ts fuel s σ h Hs Hwq Hx ltac:(lia)) as (s' & E & Hs' & Hr & Hwk & He & _).
  exists s', (wake_all (prio_of s) ts σ), ts. by split_and!.
Qed.

Lemma sinv_procs idle s σ p r tree ids : sinv idle s σ → procs s !! p = Some r →
  sinv idle (set_procs (<[p := mk_proc (p_cr3 r) tree ids]> (procs s)) s) σ.
Proof.
  intros [Hw [(k & Hk & He & Hcr) Hh] Hi Hpr] Hp. constructor; [|constructor|done|done].
  - by destruct Hw.
  - exists k. cbn [threads procs cr3 current tss_esp0 set_procs]. split_and!; [done..|].
    intros q r' Hq [[<- <-]|[_ Hr']]%lookup_insert_Some; cbn [p_cr3]; by eapply Hcr.
  - intros t k' q Hk' Hq. cbn [procs set_procs]. destruct (decide (q = p)) as [->|].
    + rewrite lookup_insert_eq. eauto.
    + rewrite lookup_insert_ne by done. by eapply Hh.
Qed.

Lemma shutdown_thread_inv idle fuel s σ s' : sinv idle s σ → current s ≠ idle → (base.size (threads s) < fuel)%nat →
  shutdown_thread fuel s = Done s' → ∃ σ', sinv idle s' σ'.
Proof.
  intros Hs Hne Hf. destruct (current_known _ _ _ Hs) as [k Hk]. unfold shutdown_thread. cbv zeta.
  destruct (unlink_inv idle s σ (current s) Hs ltac:(eauto) Hne) as (s1 & -> & Hs1 & Hr1 & Et1). rewrite bind_done.
  assert (Hw1 : waitable s1 (ThrWq (current s))) by (cbn; rewrite Et1; eauto).
  destruct (wakeup_waiters_inv idle fuel s1 _ _ Hs1 Hw1 ltac:(by rewrite Et1)) as (s2 & σ2 & ts & _ & -> & Hs2 & _).
  rewrite bind_done. intros Hrun. run_inv Hrun.
  assert (Hs3 : sinv idle r0 σ2).
  { destruct (priv r =? 3); [|by injection E0 as <-]. destruct (host r) as [p|]; [|by injection E0 as <-].
    run_inv E0. destruct r2 as [tree fr]. run_inv E0. injection E0 as <-. by apply sinv_procs. }
  destruct (schedule_inv _ _ _ Hs3) as (s4 & i & u & xs & _ & _ & E4 & Hs4 & _).
  rewrite Hrun in E4. injection E4 as ->. eauto.
Qed.

(** The events of the system, seen by the scheduler: the kernel calls of a thread
    other than the idle one, preemption, and the wake-ups of interrupt handlers. *)
Inductive sched_step (idle cb : Z) : ssys S → ssys S → Prop :=
| st_schedule s s' : schedule s = Done s' → sched_step idle cb s s'
| st_wakeup t s s' : is_Some (threads s !! t) → pt_wakeup t s = Done s' → sched_step idle cb s s'
| st_wakeup_waiters fuel h s s' : waitable s h → (base.size (threads s) < fuel)%nat →
    wakeup_waiters fuel (Some h) s = Done s' → sched_step idle cb s s'
| st_wait_on h s s' : waitable s h → current s ≠ idle → pt_wait_on h s = Done s' → sched_step idle cb s s'
| st_sleep mem ms ts r ts' s s' : current s ≠ idle →
    ksleep cb mem ms (ts, s) = Done (r, (ts', s')) → sched_step idle cb s s'
| st_wait_pid mem pid ms ts r ts' s s' : current s ≠ idle →
    kwait_pid cb mem pid ms (ts, s) = Done (r, (ts', s')) → sched_step idle cb s s'
| st_create t st0 id sp hst prio prv st s s' : threads s !! t = None → 0 <= prio < MAX_PRIORITY →
    (∀ p, hst = Some p → is_Some (procs s !! p)) →
    queue_thread t st0 id sp hst (Some (prio, prv, st)) s = Done s' → sched_step idle cb s s'
| st_shutdown fuel s s' : current s ≠ idle → (base.size (threads s) < fuel)%nat →
    shutdown_thread fuel s = Done s' → sched_step idle cb s s'.

Lemma sched_step_inv idle cb s s' : sched_step idle cb s s' → (∃ σ, sinv idle s σ) → ∃ σ', sinv idle s' σ'.
Proof.
  intros Hst [σ Hs]. destruct Hst as [s s' E|t s s' Ht E|fuel h s s' Hh Hf E|h s s' Hh Hc E|
    mem ms ts r ts' s s' Hc E|mem pid ms ts r ts' s s' Hc E|t st0 id sp hst prio prv st s s' Ht Hp Hh E|fuel s s' Hc Hf E].
  - destruct (schedule_inv _ _ _ Hs) as (s1 & i & u & xs & _ & _ & E1 & Hs1 & _).
    rewrite E in E1. injection E1 as ->. eauto.
  - destruct (pt_wakeup_inv _ _ _ _ Hs Ht) as (s1 & E1 & Hs1 & _). rewrite E in E1. injection E1 as ->. eauto.
  - destruct (wakeup_waiters_inv idle fuel s σ h Hs Hh Hf) as (s1 & σ1 & ts & _ & E1 & Hs1 & _).
    rewrite E in E1. injection E1 as ->. eauto.
  - destruct (pt_wait_on_inv idle s σ h Hs Hh Hc) as (s1 & σ1 & E1 & Hs1 & _).
    rewrite E in E1. injection E1 as ->. eauto.
  - by eapply ksleep_inv.
  - by eapply kwait_pid_inv.
  - destruct (queue_thread_inv idle s σ t st0 id sp hst prio prv st Hs Ht Hp Hh) as (s1 & σ1 & E1 & Hs1 & _).
    rewrite E in E1. injection E1 as ->. eauto.
  - by eapply shutdown_thread_inv.
Qed.
End wf.

(** ** What the scheduler promises *)

Section promises.
Context {S : Type} `{IdAlloc S}.
Implicit Types (s : ssys S) (σ : qfamily).

(** C15: the scheduler is safe.  Whatever sequence of preemptions, wake-ups, sleeps,
    waits, creations and ends of threads leads from a well-formed system to [s], the
    queues of [s] are a family of disjoint rings; a thread is on the run queue of its
    priority or on no run queue; the processor is in the address space and on the
    kernel stack of the current thread; and [schedule] always finds a thread: it takes
    the first one of the highest run queue that is not empty, makes it current, and
    moves it to the end of that queue. *)
Theorem sched_safe idle cb s0 σ0 s :
  sinv idle s0 σ0 → rtc (sched_step idle cb) s0 s →
  ∃ σ, lists (cells s) σ ∧
    (∀ t k i, threads s !! t = Some k → on_list σ (Thr t) (RunQ i) → i = priority k) ∧
    (∃ k, threads s !! current s = Some k ∧ tss_esp0 s = esp0 k ∧
       ∀ p r, host k = Some p → procs s !! p = Some r → cr3 s = p_cr3 r) ∧
    ∃ s' i t xs, schedule s = Done s' ∧ 0 <= i < MAX_PRIORITY ∧ σ !! RunQ i = Some (Thr t :: xs) ∧
      (∀ j, i < j < MAX_PRIORITY → σ !! RunQ j = Some []) ∧
      lists (cells s') (<[RunQ i := xs ++ [Thr t]]> σ) ∧ current s' = t ∧ threads s' = threads s ∧
      need_reschedule s' = 0.
Proof.
  intros H0 Hr. destruct (rtc_inv _ (λ s, ∃ σ, sinv idle s σ) _ _ (sched_step_inv idle cb) Hr (ex_intro _ _ H0)) as [σ Hs].
  pose proof Hs as [Hw Hc _ _]. exists σ. split; [apply Hw|]. split; [|split; [apply Hc|]].
  - intros t k i Hk Hon. symmetry. by eapply (qw_prio _ _ Hw).
  - destruct (schedule_inv _ _ _ Hs) as (s' & i & t & xs & (Hi & _ & Hj) & Hx & E & Hs' & Hcur & Ht & Hn).
    exists s', i, t, xs. split_and!; try done; try apply Hi. apply (si_wf _ _ _ Hs').
Qed.

(** [n] preemptions in a row. *)
Fixpoint schedules (n : nat) s : outcome (ssys S) :=
  match n with O => Done s | Datatypes.S n => s ← schedules n s; schedule s end.

Lemma rotate_step {A} (x : A) xs n : rotate n (x :: xs) ≠ [] →
  ∃ y ys, rotate n (x :: xs) = y :: ys ∧ rotate (Datatypes.S n) (x :: xs) = ys ++ [y] ∧
    (x :: xs) !! (n `mod` length (x :: xs))%nat = Some y.
Proof.
  intros _. set (l := x :: xs). assert (Hl : (0 < length l)%nat) by (unfold l; cbn; lia).
  unfold rotate. assert (Hm : (n `mod` length l < length l)%nat) by (apply Nat.mod_upper_bound; lia).
  destruct (lookup_lt_is_Some_2 l _ Hm) as [y Hy].
  exists y, (drop (Datatypes.S (n `mod` length l)) l ++ take (n `mod` length l) l).
  split; [by rewrite (drop_S _ _ _ Hy)|]. split; [|done].
  replace (Datatypes.S n) with (n + 1)%nat by lia. rewrite Nat.Div0.add_mod.
  destruct (decide (length l = 1%nat)) as [H1|H1].
  - rewrite H1 in *. rewrite !Nat.mod_1_r in *. destruct l as [|z [|? ?]]; try done. cbn in Hy. by injection Hy as ->.
  - rewrite (Nat.mod_small 1) by lia. destruct (decide (n `mod` length l + 1 = length l)%nat) as [He|He].
    + rewrite He, Nat.Div0.mod_same, drop_0, take_0, app_nil_r.
      rewrite (drop_ge l) by lia. cbn [app]. rewrite <- (take_drop_middle l _ _ Hy) at 1.
      rewrite (drop_ge l (Datatypes.S _)) by lia. done.
    + rewrite Nat.mod_small by lia. replace (n `mod` length l + 1)%nat with (Datatypes.S (n `mod` length l)) by lia.
      rewrite (take_S_r _ _ _ Hy). by rewrite app_assoc.
Qed.

Lemma schedules_rotate idle s σ i t ts n : sinv idle s σ → highest σ i → σ !! RunQ i = Some (Thr <$> t :: ts) →
  ∃ s', schedules n s = Done s' ∧ sinv idle s' (<[RunQ i := Thr <$> rotate n (t :: ts)]> σ) ∧ threads s' = threads s ∧
    ∀ m u, n = Datatypes.S m → (t :: ts) !! (m `mod` length (t :: ts))%nat = Some u → current s' = u.
Proof.
  intros Hs Hh Hx. induction n as [|n IH].
  - exists s. split; [done|]. unfold rotate. rewrite Nat.Div0.mod_0_l, drop_0, take_0, app_nil_r, insert_id by done. done.
  - destruct IH as (s1 & E1 & Hs1 & Et1 & _). cbn [schedules]. rewrite E1, bind_done.
    destruct (rotate_step t ts n) as (y & ys & Er & Er' & Hy).
    { intros E%(f_equal length). rewrite length_rotate in E. done. }
    destruct (schedule_inv _ _ _ Hs1) as (s2 & j & u & xs & Hhj & Hxj & E2 & Hs2 & Hcur & Et2 & _).
    assert (j = i) as ->.
    { destruct Hh as (Hi & _ & Hj), Hhj as (Hi' & (z & zs & Hz) & Hj').
      destruct (Z.lt_trichotomy i j) as [Hlt|[<-|Hlt]]; [|done|].
      - rewrite lookup_insert_ne in Hz by (intros [=]; lia). rewrite Hj in Hz by lia. done.
      - specialize (Hj' i ltac:(lia)). rewrite lookup_insert_eq, Er in Hj'. done. }
    rewrite lookup_insert_eq, Er, fmap_cons in Hxj. injection Hxj as <- <-.
    exists s2. split; [done|]. rewrite insert_insert_eq in Hs2. split; [|split; [congruence|]].
    + rewrite Er', fmap_app. exact Hs2.
    + intros m u [= <-] Hu. congruence.
Qed.

(** C17: round robin.  Let [ts] be the threads of the highest run queue that is not empty.
    If nothing but preemption happens, the [n+1]st switch runs the thread [n mod
    length ts] of [ts]: every thread of the queue runs within any [length ts]
    consecutive switches, and the threads of the lower queues never do. *)
Theorem schedule_round_robin idle s σ i ts :
  sinv idle s σ → highest σ i → σ !! RunQ i = Some (Thr <$> ts) →
  (∀ n, ∃ s' u, schedules (Datatypes.S n) s = Done s' ∧ ts !! (n `mod` length ts)%nat = Some u ∧ current s' = u) ∧
  (∀ t m, t ∈ ts → ∃ n s', (m < n <= m + length ts)%nat ∧ schedules n s = Done s' ∧ current s' = t).
Proof.
  intros Hs Hh Hx.
  assert (∃ t ts', ts = t :: ts') as (t0 & ts' & ->).
  { destruct Hh as (_ & (x & xs & Hx') & _). rewrite Hx in Hx'. destruct ts; [done|eauto]. }
  assert (Hall : ∀ n, ∃ s' u, schedules (Datatypes.S n) s = Done s' ∧
    (t0 :: ts') !! (n `mod` length (t0 :: ts'))%nat = Some u ∧ current s' = u).
  { intros n. destruct (schedules_rotate idle s σ i t0 ts' (Datatypes.S n) Hs Hh Hx) as (s' & E & _ & _ & Hc).
    destruct (lookup_lt_is_Some_2 (t0 :: ts') (n `mod` length (t0 :: ts'))%nat) as [u Hu].
    { apply Nat.mod_upper_bound. cbn. lia. }
    exists s', u. by eauto. }
  split; [done|]. intros t m [j Hj]%list_elem_of_lookup.
  set (len := length (t0 :: ts')) in *. pose proof (lookup_lt_Some _ _ _ Hj) as Hjl. fold len in Hjl.
  assert (∃ n, (m <= n < m + len)%nat ∧ (n `mod` len = j)%nat) as (n & Hn & Hmod).
  { pose proof (Nat.div_mod m len ltac:(lia)) as Hdm. pose proof (Nat.mod_upper_bound m len ltac:(lia)).
    destruct (decide (m `mod` len <= j)%nat).
    - exists (len * (m / len) + j)%nat. split; [lia|].
      rewrite Nat.add_comm, Nat.mul_comm, Nat.Div0.mod_add. by apply Nat.mod_small.
    - exists (len * (m / len + 1) + j)%nat. split; [lia|].
      rewrite Nat.add_comm, Nat.mul_comm, Nat.Div0.mod_add. by apply Nat.mod_small. }
  destruct (Hall n) as (s' & u & E & Hu & Hc). exists (Datatypes.S n), s'. split; [lia|].
  rewrite Hmod, Hj in Hu. injection Hu as ->. done.
Qed.

(** *** Sleeping and waking up *)

Lemma timer_effects_inv idle cb tk (m : gmap Z timer_list) tl s σ :
  sinv idle s σ →
  (∀ t r, m !! t = Some r → func r = cb → is_Some (threads s !! data r)) →
  ∃ s' σ', foldl (λ w t, from_option (λ r, fired (timer_effect cb) tk r w) w (m !! t)) (Done s) tl = Done s' ∧
    sinv idle s' σ' ∧ same_rest s s'.
Proof.
  revert s σ. induction tl as [|t tl IH]; intros s σ Hs Hm; cbn [foldl]; [by exists s, σ|].
  assert (∃ s1 σ1, from_option (λ r, fired (timer_effect cb) tk r (Done s)) (Done s) (m !! t) = Done s1 ∧
    sinv idle s1 σ1 ∧ same_rest s s1) as (s1 & σ1 & -> & Hs1 & Hr1).
  { destruct (m !! t) as [r|] eqn:Er; cbn [from_option]; [|by exists s, σ]. unfold fired, timer_effect.
    case_match; [|by exists s, σ]. destruct (Z.eqb_spec (func r) cb) as [Hf|]; [|by exists s, σ].
    rewrite bind_done. destruct (pt_wakeup_inv _ _ _ _ Hs (Hm _ _ Er Hf)) as (s1 & -> & Hs1 & Hr1 & _). eauto. }
  destruct (IH s1 σ1 Hs1) as (s2 & σ2 & -> & Hs2 & Hr2).
  - intros t' r Hr Hf. specialize (Hm _ _ Hr Hf). pose proof (proj1 Hr1 (data r)) as Hu.
    destruct (threads s1 !! data r); [eauto|]. destruct (threads s !! data r); [done|by destruct Hm].
  - exists s2, σ2. split_and!; try done; try apply Hs2; by eapply same_rest_trans.
Qed.

(** A thread that runs stays on its queue while further timers fire; only threads that they wake get in front of it. *)
Lemma timer_effects_keep idle cb tk (m : gmap Z timer_list) me p tl : ∀ s σ front xs, sinv idle s σ →
  (∀ t r, m !! t = Some r → func r = cb → is_Some (threads s !! data r)) →
  prio_of s me = p → state <$> threads s !! me = Some RUNNING → σ !! RunQ p = Some (front ++ Thr me :: xs) →
  ∃ s' σ' front' xs', foldl (λ w t, from_option (λ r, fired (timer_effect cb) tk r w) w (m !! t)) (Done s) tl = Done s' ∧
    sinv idle s' σ' ∧ same_rest s s' ∧ state <$> threads s' !! me = Some RUNNING ∧ σ' !! RunQ p = Some (front' ++ Thr me :: xs') ∧
    ∀ x, x ∈ front' → x ∈ front ∨ ∃ t r, t ∈ tl ∧ m !! t = Some r ∧ func r = cb ∧ one_due tk r || per_due tk r = true ∧ x = Thr (data r).
Proof.
  induction tl as [|t tl IH]; intros s σ front xs Hs Hm Hp Hst Hx; cbn [foldl].
  { exists s, σ, front, xs. do 5 (split; [done|]). by left. }
  assert (∃ s1 σ1 front1 xs1, from_option (λ r, fired (timer_effect cb) tk r (Done s)) (Done s) (m !! t) = Done s1 ∧ sinv idle s1 σ1 ∧ same_rest s s1 ∧
    state <$> threads s1 !! me = Some RUNNING ∧ σ1 !! RunQ p = Some (front1 ++ Thr me :: xs1) ∧
    ∀ x, x ∈ front1 → x ∈ front ∨ ∃ r, m !! t = Some r ∧ func r = cb ∧ one_due tk r || per_due tk r = true ∧ x = Thr (data r))
    as (s1 & σ1 & front1 & xs1 & -> & Hs1 & Hr1 & Hst1 & Hx1 & Hf1).
  { assert (∃ s1 σ1 front1 xs1, Done s = Done s1 ∧ sinv idle s1 σ1 ∧ same_rest s s1 ∧ state <$> threads s1 !! me = Some RUNNING ∧
      σ1 !! RunQ p = Some (front1 ++ Thr me :: xs1) ∧ ∀ x, x ∈ front1 → x ∈ front ∨ ∃ r, m !! t = Some r ∧ func r = cb ∧ one_due tk r || per_due tk r = true ∧ x = Thr (data r))
      as Hsame by (exists s, σ, front, xs; do 5 (split; [done|]); by left).
    destruct (m !! t) as [r|] eqn:Er; cbn [from_option]; [|done]. unfold fired. destruct (one_due tk r || _) eqn:Hdue; [|done].
    unfold timer_effect. destruct (Z.eqb_spec (func r) cb) as [Hf|]; [|done]. clear Hsame. rewrite bind_done.
    destruct (pt_wakeup_inv _ _ _ _ Hs (Hm _ _ Er Hf)) as (s1 & -> & Hs1 & Hr1 & Hrun & Hoth).
    assert (Hd : one_due tk r || per_due tk r = true) by (destruct (one_due tk r); [done|]; by apply andb_true_iff in Hdue as [? _]).
    set (u := data r) in *. assert (Hlk : place at_head (RunQ (prio_of s u)) (Thr u) σ !! RunQ p =
      Some ((if decide (RunQ p = RunQ (prio_of s u)) then [Thr u] else []) ++ rm (Thr u) (front ++ Thr me :: xs))).
    { rewrite place_lookup, decide_False by done. rewrite Hx. by case_decide. }
    destruct (decide (u = me)) as [E|E].
    - rewrite E in *. rewrite decide_True in Hlk by (by rewrite Hp). eexists s1, _, [], _. split; [done|]. split; [exact Hs1|]. split; [done|]. split; [done|].
      split; [exact Hlk|]. by intros x ?%elem_of_nil.
    - exists s1, (place at_head (RunQ (prio_of s u)) (Thr u) σ), ((if decide (RunQ p = RunQ (prio_of s u)) then [Thr u] else []) ++ rm (Thr u) front), (rm (Thr u) xs).
      split; [done|]. split; [done|]. split; [done|]. split; [by rewrite Hoth|]. split.
      + rewrite Hlk. unfold rm. rewrite filter_app, filter_cons_True, <- app_assoc by congruence. done.
      + intros x [Hx1|Hx1]%elem_of_app; [|left; unfold rm in Hx1; by apply list_elem_of_filter in Hx1 as [_ ?]].
        right. exists r. case_decide; [|by apply elem_of_nil in Hx1]. by apply list_elem_of_singleton in Hx1 as ->. }
  destruct (IH s1 σ1 front1 xs1 Hs1) as (s2 & σ2 & front2 & xs2 & -> & Hs2 & Hr2 & Hst2 & Hx2 & Hf2); [| |done|done|].
  - intros t' r Hr Hf. specialize (Hm _ _ Hr Hf). pose proof (proj1 Hr1 (data r)) as Hu.
    destruct (threads s1 !! data r); [eauto|]. destruct (threads s !! data r); [done|by destruct Hm].
  - rewrite <- Hp. unfold prio_of. f_equal. apply same_threads_prio, Hr1.
  - exists s2, σ2, front2, xs2. split; [done|]. split; [done|]. split; [by eapply same_rest_trans|]. split; [done|]. split; [done|].
    intros x [Hx3|(t' & r & ? & ?)]%Hf2; [|right; exists t', r; split; [by apply list_elem_of_further|done]].
    apply Hf1 in Hx3 as [?|(r & ?)]; [by left|right; exists t, r; split; [apply list_elem_of_here|done]].
Qed.

Lemma ksleep_spec idle cb t ms (ts : tsys S) tl s σ :
  sinv idle s σ → twf ts tl → current s ≠ idle → t ∉ tl → 0 < ms → ia_free (timer_id_obj ts) ≠ ∅ →
  ∃ id ts1 s1 σ1 k, ksleep cb (Some t) ms (ts, s) = Done (Suspended id, (ts1, s1)) ∧
    sinv idle s1 σ1 ∧ threads s !! current s = Some k ∧
    threads s1 = <[current s := with_state SLEEPING k]> (threads s) ∧
    on_list σ1 (Thr (current s)) (WaitQ (priority k)) ∧ on_list σ1 (Thr (current s1)) (RunQ (prio_of s1 (current s1))) ∧
    twf ts1 (tl ++ [t]) ∧ ticks ts1 = ticks ts ∧
    timers ts1 = <[t := mk_timer (u32 (ticks ts + ms)) 0 id cb (u32 (current s)) 5]> (timers ts).
Proof.
  intros Hs Hw Hne Ht Hms Hfree. destruct (current_known _ _ _ Hs) as [k Hk].
  pose proof (si_wf _ _ _ Hs) as Hq. destruct (qw_queues _ _ Hq _ (qw_range _ _ Hq _ _ Hk)) as [_ Hwq].
  destruct (register_timer_spec ts tl t ms (Z.lor TIMER_FLAG_ONESHUT TIMER_FLAG_ENABLED) cb (current s) Hw Ht
    ltac:(lia) eq_refl Hfree) as (id & ts1 & Er & Hw1 & Htk & [Hid _] & _ & _ & Htm).
  pose proof (ia_free_range _ _ (tw_ids _ _ Hw) Hid) as Hidr.
  unfold ksleep. rewrite Hk. cbn [deref]. rewrite bind_done, (proj2 (Z.eqb_neq ms 0)), (proj2 (Z.ltb_ge ms 0)) by lia.
  rewrite Er, bind_done, (proj2 (Z.ltb_ge id 0)) by lia.
  destruct (set_state_inv _ _ _ _ _ SLEEPING Hs Hk) as (s1 & E1 & Hs1 & Hr1 & _ & Et1). rewrite E1, bind_done.
  destruct (move_tail_inv idle s1 σ (current s) (WaitQ (priority k)) Hs1 I Hwq) as (s2 & E2 & Hs2 & _ & Et2).
  { rewrite Et1, lookup_insert_eq. eauto. }
  { done. }
  { done. }
  rewrite E2, bind_done.
  destruct (schedule_inv _ _ _ Hs2) as (s3 & i & u & xs & Hhi & Hx3 & E3 & Hs3 & Hcur & Et3 & _).
  rewrite E3, bind_done. eexists id, ts1, s3, _, k. split; [done|]. split; [exact Hs3|].
  split; [done|]. split; [by rewrite Et3, Et2|]. split; [|split; [|done]].
  - unfold on_list. rewrite lookup_insert_ne by done. apply place_on; [apply at_tail_elem|done..|by left].
  - assert (Hon : on_list (<[RunQ i := xs ++ [Thr u]]> (place at_tail (WaitQ (priority k)) (Thr (current s)) σ)) (Thr u) (RunQ i)).
    { exists (xs ++ [Thr u]). rewrite lookup_insert_eq. split; [done|set_solver]. }
    rewrite Hcur. destruct (current_known _ _ _ Hs3) as [ku Hku]. rewrite Hcur in Hku.
    unfold prio_of. rewrite Hku. cbn. by rewrite (qw_prio _ _ (si_wf _ _ _ Hs3) _ _ _ Hon Hku).
Qed.

Lemma twf_insert_lookup (ts : tsys S) tl t : twf ts tl → t ∉ tl → timers ts !! t = None.
Proof. intros Hw Ht. apply eq_None_not_Some. by rewrite <- (twf_elem _ _ _ Hw). Qed.

(** C16: a sleeping thread is woken up on time.  [ksleep(ms)], [ms > 0], by a thread other than the idle one, with a timer identifier and a timer cell to be had, takes the
    caller off the run queues and puts it, [SLEEPING], on the wait queue of its priority; another thread runs.  Whatever then happens to the scheduler and to the other
    timers - threads are queued and scheduled, timers come, fire and go, as long as the thread exists, its own timer stays as it was registered, among [la] before and [lb]
    behind it, every timer is of one of the two kinds, and those that call [pt_wakeup] do so for threads that exist - a pass of
    the timer thread at or after the deadline [ticks + ms] (compared as the 32-bit numbers they are) puts the thread, [RUNNING], on its run
    queue, where only threads stand before it that timers of [lb], due in the same pass, have woken after it.  When there is none, the next [schedule] runs it unless a
    thread of higher priority is runnable.  The call then returns 0 and its timer is gone, the others are as the pass left them. *)
Theorem sleep_wakes idle cb t ms (ts : tsys S) tl s σ :
  sinv idle s σ → twf ts tl → current s ≠ idle → t ∉ tl → 0 < ms → cb ≠ 0 → 0 <= current s < 2 ^ 32 → ia_free (timer_id_obj ts) ≠ ∅ →
  ∃ id ts1 s1 σ1, ksleep cb (Some t) ms (ts, s) = Done (Suspended id, (ts1, s1)) ∧ twf ts1 (tl ++ [t]) ∧
    sinv idle s1 σ1 ∧ on_list σ1 (Thr (current s)) (WaitQ (prio_of s (current s))) ∧
    state <$> threads s1 !! current s = Some SLEEPING ∧ current s1 ≠ current s ∧
    ∀ tk ts2 la lb s2 σ2, sinv idle s2 σ2 → is_Some (threads s2 !! current s) → twf ts2 (la ++ t :: lb) → timers ts2 !! t = timers ts1 !! t →
      (∀ t r, timers ts2 !! t = Some r → type_ok (flag r) ∧ (func r = cb → is_Some (threads s2 !! data r))) →
      u32 (ticks ts + ms) <= u32 tk →
      ∃ ts3 ts4 s3 σ3 front xs,
        timerisr_pass (quiet_call (timer_effect cb)) (length la + length lb + 2) (set_ticks tk ts2, Done s2) = Done (ts3, Done s3) ∧
        sinv idle s3 σ3 ∧ state <$> threads s3 !! current s = Some RUNNING ∧
        σ3 !! RunQ (prio_of s2 (current s)) = Some (front ++ Thr (current s) :: xs) ∧
        (∀ x, x ∈ front → ∃ t' r, t' ∈ lb ∧ timers ts2 !! t' = Some r ∧ func r = cb ∧ one_due tk r || per_due tk r = true ∧ x = Thr (data r)) ∧
        (front = [] → (∀ j, prio_of s2 (current s) < j < MAX_PRIORITY → σ3 !! RunQ j = Some []) →
         ∃ s4, schedule s3 = Done s4 ∧ current s4 = current s) ∧
        ksleep_resume id (ts3, s3) = Done (0, (ts4, s3)) ∧ twf ts4 (la ++ lb) ∧ timers ts4 = delete t (fire tk <$> timers ts2).
Proof.
  intros Hs Hw Hne Ht Hms Hcb Hcr Hfree.
  destruct (ksleep_spec idle cb t ms ts tl s σ Hs Hw Hne Ht Hms Hfree)
    as (id & ts1 & s1 & σ1 & k & E & Hs1 & Hk & Et1 & Hon & Hrun & Hw1 & Htk & Htm).
  rewrite (u32_small (current s)) in Htm by done.
  assert (Hpk : prio_of s (current s) = priority k) by (unfold prio_of; by rewrite Hk).
  exists id, ts1, s1, σ1. split; [done|]. split; [done|]. split; [done|]. split; [by rewrite Hpk|].
  split; [by rewrite Et1, lookup_insert_eq|]. split.
  { intros Ec. rewrite Ec in Hrun. destruct Hon as (x1 & Hx1 & Hi1), Hrun as (x2 & Hx2 & Hi2).
    pose proof (lists_unique _ σ1 (Thr (current s)) _ _ _ _ (qw_lists _ _ (si_wf _ _ _ Hs1)) Hx1 Hx2
      (list_elem_of_further _ _ _ Hi1) (list_elem_of_further _ _ _ Hi2)). done. }
  intros tk ts2 la lb s2 σ2 Hs2 Hk2 Hw2 Hown Hall Hdue. set (me := current s) in *.
  rewrite Htm, lookup_insert_eq in Hown. set (r0 := mk_timer (u32 (ticks ts + ms)) 0 id cb me 5) in *.
  pose proof (timerisr_pass_exact (timer_effect cb) (set_ticks tk ts2) (la ++ t :: lb) (Done s2) (twf_ticks _ _ tk Hw2)) as Hpass.
  cbn [timers ticks set_ticks] in Hpass. specialize (Hpass ltac:(intros t' r' Hr'; by apply (Hall t'))).
  assert (Hlen : Datatypes.S (length (la ++ t :: lb)) = (length la + length lb + 2)%nat) by (rewrite length_app; cbn; lia).
  rewrite Hlen, foldl_app in Hpass. cbn [foldl] in Hpass. rewrite Hown in Hpass. cbn [from_option] in Hpass.
  destruct (timer_effects_inv idle cb tk (timers ts2) la s2 σ2 Hs2) as (sa & σa & Ea & Hsa & Hra); [intros t' r' Hr'; by apply (Hall t')|]. rewrite Ea in Hpass.
  assert (Hex : ∀ s s', same_rest s s' → ∀ u, is_Some (threads s !! u) → is_Some (threads s' !! u)).
  { intros x x' Hr u Hu. pose proof (proj1 Hr u) as Hq. destruct (threads x' !! u); [eauto|]. destruct (threads x !! u); [done|by destruct Hu]. }
  assert (Hka : is_Some (threads sa !! me)) by (by eapply Hex).
  assert (Hfire : fired (timer_effect cb) tk r0 (Done sa) = pt_wakeup me sa).
  { unfold fired, one_due. cbn [expires func flag data r0]. change (has_flag 5 TIMER_FLAG_ENABLED) with true.
    change (has_flag 5 TIMER_FLAG_ONESHUT) with true. rewrite (proj2 (Z.leb_le _ _) Hdue), (proj2 (Z.eqb_neq _ _) Hcb).
    cbn [andb orb negb]. unfold timer_effect. by rewrite Z.eqb_refl. }
  rewrite Hfire in Hpass.
  destruct (pt_wakeup_inv _ _ _ me Hsa Hka) as (sb & Eb & Hsb & Hrb & Hst & _). rewrite Eb in Hpass.
  assert (Hpa : prio_of sa me = prio_of s2 me) by (unfold prio_of; f_equal; apply same_threads_prio, Hra).
  assert (Hpb : prio_of sb me = prio_of s2 me) by (rewrite <- Hpa; unfold prio_of; f_equal; apply same_threads_prio, Hrb).
  rewrite Hpa in Hsb. destruct Hka as [ka Hka]. pose proof (qw_range _ _ (si_wf _ _ _ Hsa) _ _ Hka) as Hrange.
  assert (Hpr : prio_of sa me = priority ka) by (unfold prio_of; by rewrite Hka).
  rewrite <- Hpr, Hpa in Hrange.
  destruct (qw_queues _ _ (si_wf _ _ _ Hsa) _ Hrange) as [[xs0 Hx] _].
  assert (Hhead : place at_head (RunQ (prio_of s2 me)) (Thr me) σa !! RunQ (prio_of s2 me) = Some ([] ++ Thr me :: rm (Thr me) xs0)).
  { rewrite place_lookup, decide_False, decide_True by done. by rewrite Hx. }
  destruct (timer_effects_keep idle cb tk (timers ts2) me (prio_of s2 me) lb sb _ [] (rm (Thr me) xs0) Hsb) as (s3 & σ3 & front & xs & E3 & Hs3 & Hr3 & Hst3 & Hx3 & Hf3);
    [|done|done|done|].
  { intros t' r' Hr' Hf. eapply Hex, Hex; [exact Hrb|exact Hra|]. by apply (Hall t'). }
  rewrite E3 in Hpass. set (ts3 := set_timers (fire tk <$> timers ts2) (set_ticks tk ts2)) in *.
  assert (Hw3 : twf ts3 (la ++ t :: lb)) by (apply (twf_fire (set_ticks tk ts2) (la ++ t :: lb) tk); by apply twf_ticks).
  assert (Hr0 : timers ts3 !! t = Some (fire tk r0)) by (unfold ts3; cbn [timers set_timers]; by rewrite lookup_fmap, Hown).
  destruct (unregister_timer_spec _ _ _ _ Hw3 Hr0) as (ts4 & Eu & Hw4 & _ & Htm4 & _).
  rewrite fire_id in Eu. cbn [timer_id r0] in Eu.
  assert (Hrm : rm t (la ++ t :: lb) = la ++ lb) by (by apply rm_mid, (twf_nodup _ _ Hw2)).
  rewrite Hrm in Hw4. exists ts3, ts4, s3, σ3, front, xs. split; [done|]. split; [done|]. split; [done|]. split; [done|]. split; [|split; [|split; [|by split]]].
  - intros x [?%elem_of_nil|?]%Hf3; done.
  - intros -> Hj. assert (Hpc : prio_of s3 me = prio_of s2 me) by (rewrite <- Hpb; unfold prio_of; f_equal; apply same_threads_prio, Hr3).
    assert (Hhi : highest σ3 (prio_of s2 me)) by (split; [done|split; [exists (Thr me), xs; exact Hx3|done]]).
    destruct (schedule_spec _ _ _ _ _ (si_wf _ _ _ Hs3) (si_cpu _ _ _ Hs3) Hhi Hx3) as (s4 & E4 & _ & _ & Hc4 & _). eauto.
  - unfold ksleep_resume. cbn [fst snd]. by rewrite Eu.
Qed.
End promises.

(** ** What the code does not handle *)

Section gaps.
Context {S : Type} `{IdAlloc S}.
Implicit Types (s : ssys S) (σ : qfamily).

Lemma pick_queue_S i c : pick_queue (Datatypes.S i) c =
  e ← list_is_empty (RunQ (Z.of_nat i)) c;
  if (e : bool) then (if decide (i = O) then Done 0 else pick_queue i c) else Done (Z.of_nat i).
Proof. reflexivity. Qed.

(** With nothing on any run queue the loop stops at queue 0 all the same, and
    [schedule] takes the head of that queue for a thread. *)
Lemma schedule_nothing_runnable s σ : lists (cells s) σ →
  (∀ i, 0 <= i < MAX_PRIORITY → σ !! RunQ i = Some []) → schedule s = Fail BadPtr.
Proof.
  intros Hl Hx. unfold schedule.
  assert (Ep : pick_queue (Z.to_nat MAX_PRIORITY) (cells (set_resched 0 s)) = Done 0).
  { assert (He : ∀ n : nat, (n < 5)%nat → list_is_empty (RunQ (Z.of_nat n)) (cells s) = Done true).
    { intros n Hn. apply (lists_is_empty _ _ _ [] Hl), Hx. unfold MAX_PRIORITY. lia. }
    assert (Hall : ∀ n, (n < 5)%nat → pick_queue (Datatypes.S n) (cells s) = Done 0).
    { induction n as [|n IH]; intros Hn; rewrite pick_queue_S, He, bind_done by lia; [done|].
      rewrite decide_False by done. apply IH. lia. }
    apply (Hall 4%nat). lia. }
  rewrite Ep, bind_done. cbn [cells set_resched].
  assert (H0 : σ !! RunQ 0 = Some []) by (apply Hx; unfold MAX_PRIORITY; lia).
  destruct (proj1 Hl _ _ H0) as [_ [Hn Hp]]. rewrite (get_next_spec _ _ _ Hn), bind_done.
  unfold nextf, prevf in *. destruct (cells s !! RunQ 0) as [[pv nx]|] eqn:Ec; [|done].
  injection Hn as ->. injection Hp as ->.
  unfold on_cells, list_del, list_add_tail, get_next, get_prev, LinkedList.set_next, LinkedList.set_prev. cbn [cells set_cells set_resched].
  repeat (rewrite ?Ec, ?lookup_insert_eq; cbn -[lookup insert]). done.
Qed.

(** [kwait_pid] with a timeout moves the caller to the wait queue of the process before
    it asks for a timer.  When there is no memory for the timer it returns
    [-ENOBUFS] from there: the caller still runs, but marked [SLEEPING] and on no run
    queue, and will not be scheduled again unless the process ends. *)
Lemma kwait_pid_strands idle cb pid p ms (ts : tsys S) s σ :
  sinv idle s σ → current s ≠ idle → kopen_process pid s = Some p → 0 < ms →
  ∃ s' σ', kwait_pid cb None pid ms (ts, s) = Done (Returned (- ENOBUFS), (ts, s')) ∧ sinv idle s' σ' ∧
    current s' = current s ∧ state <$> threads s' !! current s = Some SLEEPING ∧
    on_list σ' (Thr (current s)) (ProcWq p) ∧ ∀ i, ¬ on_list σ' (Thr (current s)) (RunQ i).
Proof.
  intros Hs Hne Hp Hms. destruct (current_known _ _ _ Hs) as [k Hk]. pose proof (si_proc _ _ _ Hs _ _ Hp) as Hpq.
  unfold kwait_pid. rewrite Hp. unfold WAITE_INFINITE. rewrite (proj2 (Z.eqb_neq ms (-1))), (proj2 (Z.eqb_neq ms 0)) by lia.
  rewrite bind_assoc.
  destruct (del_add_tail_inv idle s σ (current s) (ProcWq p) Hs I Hpq) as (s1 & -> & Hs1 & Hr1 & Et1); [by eauto|done|done|].
  rewrite bind_done. rewrite <- Et1 in Hk. destruct (set_state_inv _ _ _ _ _ SLEEPING Hs1 Hk) as (s2 & -> & Hs2 & Hr2 & _ & Et2).
  rewrite bind_done. unfold register_timer. rewrite (proj2 (Z.ltb_ge ms 0)) by lia.
  match goal with |- context[if ?b then Done (- EINVAL, ts) else _] => change b with false end.
  cbv zeta iota. rewrite bind_done. change (- ENOBUFS <? 0) with true. cbv iota.
  eexists s2, _. split; [done|]. split; [exact Hs2|]. destruct Hr1 as (_ & _ & _ & Hc1 & _), Hr2 as (_ & _ & _ & Hc2 & _).
  split; [congruence|]. split; [by rewrite Et2, lookup_insert_eq|].
  rewrite place_on by (done || apply at_tail_elem). split; [by left|]. intros i.
  rewrite place_on by (done || apply at_tail_elem). intros [[_ [=]]|[? _]]. done.
Qed.
End gaps.

(** ** A concrete system *)

Definition heads : list qcell := (RunQ <$> seqZ 0 5) ++ (WaitQ <$> seqZ 0 5).

(** The idle thread, at 4096, runs; two threads of priority 1, at 8192 and 12288,
    are created after it; the process 7 is at 77. *)
Definition idle_cells : gmap qcell (linked_list qcell) :=
  match list_add_tail (RunQ 0) (Thr 4096) (cells_init (heads ++ [ProcWq 77; ThrWq 4096; Thr 4096])) with
  | Done c => c | Fail _ => ∅ end.
Definition sys_boot : ssys kid_object :=
  mk_ssys idle_cells {[4096 := mk_thread 0 RUNNING 0 0 12280 None]}
    {[77 := mk_proc 36864 NULL (mk_kid [] 0 0)]} (Node 500 7 NULL NULL 0 77) 4096 4096 12280 0.
Definition sys_one : ssys kid_object :=
  match queue_thread 8192 0 1 16376 None (Some (1, 0, RUNNING)) sys_boot with Done s => s | Fail _ => sys_boot end.
Definition sys_two : ssys kid_object :=
  match queue_thread 12288 0 2 20472 (Some 77) (Some (1, 3, RUNNING)) sys_one with Done s => s | Fail _ => sys_one end.

Definition boot_heads : list qcell := heads ++ [ProcWq 77; ThrWq 4096].

Lemma in_list (x : qcell) (xs : list qcell) : bool_decide (x ∈ xs) = true → x ∈ xs.
Proof. by intros ?%bool_decide_eq_true. Qed.

Lemma boot_heads_thr t : Thr t ∉ boot_heads.
Proof. unfold boot_heads, heads. rewrite !elem_of_app, !list_elem_of_fmap, !elem_of_cons, elem_of_nil. naive_solver. Qed.

Lemma boot_lists : ∃ σ, lists idle_cells σ ∧ ∀ k xs, σ !! k = Some xs ↔
  (k = RunQ 0 ∧ xs = [Thr 4096]) ∨ (k ≠ RunQ 0 ∧ k ∈ boot_heads ∧ xs = []).
Proof.
  set (ks := heads ++ [ProcWq 77; ThrWq 4096; Thr 4096]).
  assert (H1 : loose ks !! RunQ 0 = Some []) by (apply loose_lookup; split; [by apply in_list|done]).
  assert (H2 : loose ks !! Thr 4096 = Some []) by (apply loose_lookup; split; [by apply in_list|done]).
  destruct (lists_add_tail (cells_init ks) (loose ks) (RunQ 0) (Thr 4096) [] (lists_cells_init ks) H1 H2)
    as (c & E & Hl & _ & _); [done|].
  exists (link_tail (RunQ 0) (Thr 4096) (loose ks)). split; [unfold idle_cells; fold ks; by rewrite E|].
  intros k xs. unfold link_tail.
  assert (Hks : k ∈ ks ↔ k = Thr 4096 ∨ k ∈ boot_heads).
  { unfold ks, boot_heads. rewrite !elem_of_app, !elem_of_cons, !elem_of_nil. tauto. }
  destruct (decide (k = RunQ 0)) as [->|Hk].
  - rewrite lookup_alter_eq, lookup_delete_ne, H1 by done. cbn. split; [intros [= <-]; by left|]. by intros [[_ ->]|(? & _)].
  - rewrite lookup_alter_ne by done. rewrite lookup_delete_Some, loose_lookup, Hks. split.
    + intros (? & [->|?] & ->); [done|]. by right.
    + intros [[-> _]|(_ & Hb & ->)]; [done|]. split; [|by auto]. intros <-. by apply boot_heads_thr in Hb.
Qed.

Lemma sys_boot_inv : ∃ σ, sinv 4096 sys_boot σ.
Proof.
  destruct boot_lists as (σ & Hl & Hx). exists σ.
  assert (Hin : ∀ k, k ≠ RunQ 0 → k ∈ boot_heads → σ !! k = Some []) by (intros; apply Hx; auto).
  assert (H0 : σ !! RunQ 0 = Some [Thr 4096]) by (apply Hx; auto).
  assert (Hth : ∀ t k, threads sys_boot !! t = Some k → t = 4096 ∧ k = mk_thread 0 RUNNING 0 0 12280 None).
  { intros t k. cbn [threads sys_boot]. by intros [<- <-]%lookup_singleton_Some. }
  assert (Hon : on_list σ (Thr 4096) (RunQ 0)) by (exists [Thr 4096]; split; [done|by apply list_elem_of_singleton]).
  constructor; [| |done|].
  - constructor.
    + exact Hl.
    + intros i Hi. unfold MAX_PRIORITY in Hi. split.
      * destruct (decide (i = 0)) as [->|]; [eauto|]. rewrite Hin; [eauto|congruence|].
        unfold boot_heads, heads. rewrite !elem_of_app, !list_elem_of_fmap. left. left. exists i.
        rewrite elem_of_seqZ. auto with lia.
      * rewrite Hin; [eauto|done|]. unfold boot_heads, heads. rewrite !elem_of_app, !list_elem_of_fmap. left. right. exists i.
        rewrite elem_of_seqZ. auto with lia.
    + intros hd xs c [[-> ->]|(_ & _ & ->)]%Hx Hc; [|by apply not_elem_of_nil in Hc].
      apply list_elem_of_singleton in Hc as ->. exists 4096. split; [done|]. by eexists.
    + intros t xs [[[=] _]|(_ & _ & ->)]%Hx. done.
    + intros t [k [-> ->]%Hth]. left. by exists (RunQ 0).
    + intros t [k [-> ->]%Hth]. rewrite Hin; [eauto|done|by apply in_list].
    + intros t [[xs Ht]|[xs Ht]].
      * apply Hx in Ht as [[[=] _]|(_ & Hb & _)]. by apply boot_heads_thr in Hb.
      * apply Hx in Ht as [[[=] _]|(_ & Hb & _)]. revert Hb. unfold boot_heads, heads.
        rewrite !elem_of_app, !list_elem_of_fmap, !elem_of_cons, elem_of_nil.
        intros [[(? & [=] & _)|(? & [=] & _)]|[[=]|[[= ->]|[]]]]. by eexists.
    + intros t k [-> ->]%Hth. done.
    + intros i t k (xs & Ho & Hi) [-> ->]%Hth. cbn [priority].
      apply Hx in Ho as [[[= ->] _]|(_ & _ & ->)]; [done|]. by apply not_elem_of_nil in Hi.
  - constructor.
    + eexists. split; [reflexivity|]. by split.
    + by intros t k p [-> ->]%Hth [=].
  - intros pid p Hp. rewrite Hin; [eauto|done|].
    assert (p = 77) as ->; [|by apply in_list]. unfold kopen_process in Hp. cbn in Hp.
    repeat case_match; simplify_eq/=; done.
Qed.

Lemma sys_one_inv : ∃ σ, sinv 4096 sys_one σ.
Proof.
  destruct sys_boot_inv as [σ Hs].
  destruct (queue_thread_inv 4096 sys_boot σ 8192 0 1 16376 None 1 0 RUNNING Hs eq_refl) as (s' & σ' & E & Hs' & _);
    [by split|done|].
  exists σ'. unfold sys_one. by rewrite E.
Qed.

Lemma sys_two_inv : ∃ σ, sinv 4096 sys_two σ.
Proof.
  destruct sys_one_inv as [σ Hs].
  destruct (queue_thread_inv 4096 sys_one σ 12288 0 2 20472 (Some 77) 1 3 RUNNING Hs) as (s' & σ' & E & Hs' & _).
  - vm_compute. reflexivity.
  - by split.
  - intros p [= <-]. vm_compute. by eexists.
  - exists σ'. unfold sys_two. by rewrite E.
Qed.

Lemma sched_safe_witness :
  ∃ s' t, schedule sys_two = Done s' ∧ current s' = t ∧ need_reschedule s' = 0.
Proof.
  destruct sys_boot_inv as [σ0 H0].
  destruct (sched_safe 4096 1234 sys_boot σ0 sys_two H0) as (σ & _ & _ & _ & s' & i & t & xs & E & _ & _ & _ & _ & Hc & _ & Hn).
  - eapply rtc_l; [|eapply rtc_once].
    + apply (st_create 4096 1234 8192 0 1 16376 None 1 0 RUNNING sys_boot sys_one); [reflexivity|by split|done|vm_compute; reflexivity].
    + apply (st_create 4096 1234 12288 0 2 20472 (Some 77) 1 3 RUNNING sys_one sys_two);
        [vm_compute; reflexivity|by split|intros p [= <-]; vm_compute; by eexists|vm_compute; reflexivity].
  - exists s', t. split; [exact E|]. split; [exact Hc|exact Hn].
Defined.

(** The queue a concrete state represents. *)
Lemma queue_is (s : ssys kid_object) (σ : qfamily) idle i ts : sinv idle s σ → 0 <= i < MAX_PRIORITY → is_list (cells s) (RunQ i) (Thr <$> ts) →
  σ !! RunQ i = Some (Thr <$> ts).
Proof.
  intros Hs Hi Hl. destruct (qw_queues _ _ (si_wf _ _ _ Hs) i Hi) as [[xs Hx] _]. rewrite Hx. f_equal.
  eapply is_list_inj; [|done]. by apply (qw_lists _ _ (si_wf _ _ _ Hs)).
Qed.

Lemma sys_two_queues (σ : qfamily) : sinv 4096 sys_two σ →
  highest σ 1 ∧ σ !! RunQ 1 = Some (Thr <$> [8192; 12288]).
Proof.
  intros Hs.
  assert (Hx : σ !! RunQ 1 = Some (Thr <$> [8192; 12288])).
  { apply (queue_is sys_two σ 4096); [done|by split|]. split.
    - by apply (bool_decide_unpack _); vm_compute.
    - repeat split; vm_compute; reflexivity. }
  split; [|done]. split; [by split|]. split; [rewrite Hx; by eexists _, _|].
  intros j Hj. unfold MAX_PRIORITY in Hj. apply (queue_is sys_two σ 4096 j []); [done|unfold MAX_PRIORITY; lia|].
  split; [apply NoDup_singleton|].
  assert (j = 2 ∨ j = 3 ∨ j = 4) as [->|[->| ->]] by lia; split; vm_compute; reflexivity.
Qed.

Lemma schedule_round_robin_witness : ∃ s', schedules 3 sys_two = Done s' ∧ current s' = 8192.
Proof.
  destruct sys_two_inv as [σ Hs]. destruct (sys_two_queues σ Hs) as [Hh Hx].
  destruct (schedule_round_robin 4096 sys_two σ 1 [8192; 12288] Hs Hh Hx) as [Hall _].
  destruct (Hall 2%nat) as (s' & u & E & Hu & Hc). exists s'. split; [exact E|].
  vm_compute in Hu. injection Hu as <-. exact Hc.
Defined.

Definition sys_run : ssys kid_object :=
  match schedule sys_two with Done s => s | Fail _ => sys_two end.

Lemma sys_run_inv : ∃ σ, sinv 4096 sys_run σ.
Proof.
  destruct sys_two_inv as [σ Hs]. destruct (schedule_inv _ _ _ Hs) as (s' & i & t & xs & _ & _ & E & Hs' & _).
  eexists. unfold sys_run. rewrite E. exact Hs'.
Qed.

Lemma sleep_wakes_witness :
  ∃ id ts1 s1, ksleep 1234 (Some 4096) 50 (timers0, sys_run) = Done (Suspended id, (ts1, s1)) ∧ current s1 ≠ 8192 ∧
    ∃ ts3 ts4 s3, timerisr_pass (quiet_call (timer_effect 1234)) 2 (set_ticks 60 ts1, Done s1) = Done (ts3, Done s3) ∧
      state <$> threads s3 !! 8192 = Some RUNNING ∧ ksleep_resume id (ts3, s3) = Done (0, (ts4, s3)).
Proof.
  destruct sys_run_inv as [σ Hs].
  destruct (sleep_wakes 4096 1234 4096 50 timers0 [] sys_run σ Hs timers0_wf)
    as (id & ts1 & s1 & σ1 & E & Hw1 & Hs1 & _ & Hst & Hc & Hlater).
  - by vm_compute.
  - apply not_elem_of_nil.
  - lia.
  - lia.
  - by vm_compute.
  - exact timers0_free.
  - exists id, ts1, s1. split; [exact E|]. split; [exact Hc|].
    assert (Hx : is_Some (threads s1 !! current sys_run)) by (destruct (threads s1 !! current sys_run); [by eexists|done]).
    destruct (Hlater 60 ts1 [] [] s1 σ1 Hs1 Hx Hw1 eq_refl) as (ts3 & ts4 & s3 & σ3 & front & xs & Ep & _ & Hr & _ & _ & _ & Eu & _).
    + assert (match ksleep 1234 (Some 4096) 50 (timers0, sys_run) with
        | Done (_, (a, b)) => bool_decide (map_Forall (λ _ r, has_flag (flag r) TIMER_FLAG_ONESHUT = negb (has_flag (flag r) TIMER_FLAG_PERIODIC) ∧
            (func r = 1234 → is_Some (threads b !! data r))) (timers a)) = true
        | Fail _ => True end) as HF by (by vm_compute).
      rewrite E in HF. apply bool_decide_eq_true_1 in HF. intros t' r Hr. by apply (HF t').
    + by vm_compute.
    + exists ts3, ts4, s3. split; [exact Ep|]. split; [exact Hr|exact Eu].
Defined.

(** A thread that has ended while one of its timers was pending (the timer of a
    [kwait_pid] that timed out late, which nothing unregisters) is put back on the
    run queue by the timer, and will be scheduled. *)
Lemma dead_thread_returns :
  (s1 ← shutdown_thread 10 sys_run;
   s2 ← timer_effect 1234 1234 8192 (Done s1);
   s3 ← schedule s2;
   Done (current s1, current s3)) = Done (12288, 8192).
Proof. vm_compute. reflexivity. Qed.
