(* ===== verification/Paging.v ===== *)
(** * Page tables and user memory ([Kernel/page.c], [Kernel/kthread.c], [Include/kernel/page.h])

    A page directory and its page tables are pages of 1024 words of kernel memory, at the
    virtual addresses above 3G under which all of the physical memory is mapped.  The
    store has the words of such pages by their virtual address, the pages that the next
    calls of [get_zero_page] return ([Buddy.v] has that function and proves that pages in
    use are disjoint), and the list of areas of the process at hand.  [translate] is what
    the processor does with an address; the copies between kernel and user go through it to the bytes of the
    physical memory, a function of the address. *)

From S2P Require Import Prelude CString.

Definition PAGE_SIZE := 4096.
Definition PAGE_OFFSET := 3221225472.
Definition PAGE_PRE := 1.
Definition PAGE_RW := 2.
Definition PAGE_USR := 4.
Definition PAGE_PSE := 128.
Definition PAGE_GLOBAL := 256.
Definition VM_PGT := 32.
Definition VM_COMMON := 1024.
Definition FRAME := 4294963200.

Definition PA (x : Z) : Z := u32 (x - PAGE_OFFSET).
Definition VA (x : Z) : Z := u32 (x + PAGE_OFFSET).
Definition PAGE_ALIGN (x : Z) : Z := Z.land (u32 (x + PAGE_SIZE - 1)) FRAME.
Definition PDE_INDEX (x : Z) : Z := Z.shiftr (Z.land x 4290772992) 22.
Definition PTE_INDEX (x : Z) : Z := Z.shiftr (Z.land x 4190208) 12.

Record vm_t : Type := mk_vm { vm_base : Z; vm_len : Z; vm_flag : Z }.
Record pst : Type := mk_pst { tables : gmap Z (list Z); zeros : list Z; vm_page : list vm_t }.
Definition with_tables t s := mk_pst t (zeros s) (vm_page s).
Definition with_vm v s := mk_pst (tables s) (zeros s) v.

(** Word [i] of the page at [p]. *)
Definition rd (p i : Z) (s : pst) : outcome Z := t ← deref (tables s !! p); deref (nthZ t i).
Definition wr (p i v : Z) (s : pst) : outcome pst :=
  t ← deref (tables s !! p); _ ← deref (nthZ t i); Done (with_tables (<[p := updZ t i v]> (tables s)) s).

(** What [get_zero_page] of the page allocator does here: a page of zeros, or 0 when there is no memory. *)
Definition next_zero_page (s : pst) : Z * pst :=
  match zeros s with
  | [] => (0, s)
  | p :: l => (p, mk_pst (<[p := replicate 1024 0]> (tables s)) l (vm_page s))
  end.

Fixpoint vm_put (v : vm_t) (l : list vm_t) : outcome (list vm_t) :=
  match l with
  | [] => Fail Panic
  | x :: l => if vm_base x =? 0 then Done (v :: l) else l ← vm_put v l; Done (x :: l)
  end.
Definition vm_insert (base len flag : Z) (s : pst) : outcome pst :=
  v ← vm_put (mk_vm base len flag) (vm_page s); Done (with_vm v s).

(** The first area with one of the flags; the element behind the last one when there is none. *)
Fixpoint vm_search (l : list vm_t) (flag : Z) : Z :=
  match l with [] => 0 | x :: l => if negb (Z.land (vm_flag x) flag =? 0) then 0 else 1 + vm_search l flag end.
Definition vm_search_flag (flag : Z) (s : pst) : Z := vm_search (vm_page s) flag.

(** ** Mapping *)

(** [proc]: a process is given. *)
Definition map_page (va pa cr3 flags : Z) (proc : bool) (s : pst) : outcome (Z * pst) :=
  let pgd_idx := PDE_INDEX va in
  let pgt_idx := PTE_INDEX va in
  let pgd := VA cr3 in
  if negb (Z.land flags PAGE_PSE =? 0) then s ← wr pgd pgd_idx (Z.lor pa flags) s; Done (0, s) else
  e ← rd pgd pgd_idx s;
  '(pde, s) ←
    (if Z.land e PAGE_PRE =? 0 then
       let '(pde, s) := next_zero_page s in
       s ← wr pgd pgd_idx (Z.lor (Z.lor (PA pde) PAGE_RW) flags) s;
       s ← (if proc then vm_insert pde PAGE_SIZE VM_PGT s else Done s);
       Done (pde, s)
     else Done (Z.land (VA e) FRAME, s));
  _ ← assert_ (Z.land pa 4095 =? 0);
  old ← rd pde pgt_idx s;
  if negb (Z.land old FRAME =? 0) then Fail Panic else
  s ← wr pde pgt_idx (Z.lor pa flags) s;
  Done (0, s).

(** The number of pages of [map_pages]. *)
Definition nr_pages (va size : Z) : Z :=
  let page_offset := Z.land va 4095 in
  let i := Z.shiftr (PAGE_ALIGN size) 12 in
  if PAGE_SIZE <? page_offset + size mod PAGE_SIZE then i + 1 else i.

Fixpoint map_loop (n : nat) (dest cr3 flag : Z) (proc : bool) (s : pst) : outcome (Z * pst) :=
  match n with
  | O => Done (0, s)
  | S n =>
      let '(page, s) := next_zero_page s in
      _ ← assert_ (negb (page =? 0));
      s ← (if proc then vm_insert page PAGE_SIZE VM_COMMON s else Done s);
      '(ret, s) ← map_page dest (PA page) cr3 flag proc s;
      if ret <? 0 then Done (-1, s) else map_loop n (u32 (dest + PAGE_SIZE)) cr3 flag proc s
  end.
(** [proc_cr3]: the directory of the process, if there is one; [cr3] the current one. *)
Definition map_pages (va size flag : Z) (proc_cr3 : option Z) (cr3 : Z) (s : pst) : outcome (Z * pst) :=
  let dest := Z.land va FRAME in
  let cr3 := default cr3 proc_cr3 in
  let flag := Z.lor flag PAGE_PRE in
  let flag := if va <? PAGE_OFFSET then Z.lor flag PAGE_USR else flag in
  map_loop (Z.to_nat (nr_pages va size)) dest cr3 flag (bool_decide (is_Some proc_cr3)) s.

(** [sbrk]: the old end of the data segment and the new one. *)
Fixpoint sbrk_loop (n : nat) (brk cr3 : Z) (s : pst) : outcome pst :=
  match n with
  | O => Done s
  | S n =>
      let '(addr, s) := next_zero_page s in
      '(_, s) ← map_page brk (PA addr) cr3 (PAGE_PRE + PAGE_RW + PAGE_USR) true s;
      s ← vm_insert addr PAGE_SIZE VM_COMMON s;
      sbrk_loop n (u32 (brk + PAGE_SIZE)) cr3 s
  end.
Definition sbrk_pages (brk incr : Z) : Z := s32 (Z.shiftr (u32 (PAGE_ALIGN (u32 (brk + incr)) - brk)) 12).
Definition ksbrk (brk incr cr3 : Z) (s : pst) : outcome (Z * Z * pst) :=
  if incr =? 0 then Done (s32 brk, brk, s) else
  let end_brk := PAGE_ALIGN (u32 (brk + incr)) in
  s ← sbrk_loop (Z.to_nat (sbrk_pages brk incr)) brk cr3 s;
  Done (s32 brk, end_brk, s).

(** The directory the kernel starts with: 4M pages from 3G up, and the first one at 0, too. *)
Fixpoint init_loop (n : nat) (pgd phyaddr mem : Z) (dir : list Z) : Z * list Z :=
  match n with
  | O => (pgd, dir)
  | S n =>
      if (pgd <? 1024) && (phyaddr <? mem) then
        init_loop n (pgd + 1) (u32 (phyaddr + 4194304)) mem
          (updZ dir pgd (Z.lor phyaddr (PAGE_PRE + PAGE_RW + PAGE_PSE + PAGE_GLOBAL)))
      else (pgd, dir)
  end.
(** [total_mem_size] in kilobytes; [kern_pgd_max], and the directory. *)
Definition paging_init (total_mem_size : Z) : Z * list Z :=
  let '(pgd, dir) := init_loop 257 (Z.shiftr PAGE_OFFSET 22) 0 (u32 (total_mem_size * 1024)) (replicate 1024 0) in
  (pgd, updZ dir 0 (default 0 (nthZ dir (Z.shiftr PAGE_OFFSET 22)))).

(** ** The processor *)

(** The frame and the offset that a directory gives for an address. *)
Definition translate (s : pst) (cr3 va : Z) : option Z :=
  dir ← tables s !! VA cr3;
  e ← nthZ dir (va / 2 ^ 22);
  if negb (Z.testbit e 0) then None else
  if Z.testbit e 7 then Some (e / 2 ^ 22 * 2 ^ 22 + va mod 2 ^ 22) else
  t ← tables s !! VA (e / 2 ^ 12 * 2 ^ 12);
  p ← nthZ t (va / 2 ^ 12 mod 2 ^ 10);
  if negb (Z.testbit p 0) then None else Some (p / 2 ^ 12 * 2 ^ 12 + va mod 2 ^ 12).

(** ** User memory *)

Definition probe_for_read (addr size : Z) : Z :=
  if size <? 0 then - EINVAL else if size =? 0 then 0 else
  if PAGE_OFFSET <? u32 (addr + size) then - EFAULT else 0.

Definition probe_for_write (addr size cr3 : Z) (s : pst) : outcome Z :=
  let pgd := VA cr3 in
  if PAGE_OFFSET <? u32 (addr + size) then Done (-1) else
  pde ← rd pgd (PDE_INDEX addr) s;
  if pde =? 0 then Done (-1) else
  if Z.land pde PAGE_PRE =? 0 then Done (-1) else
  if Z.land pde PAGE_PSE =? 0 then
    pte ← rd (Z.land (VA pde) FRAME) (PTE_INDEX addr) s;
    if pte =? 0 then Done (-1) else
    if Z.land pte PAGE_PRE =? 0 then Done (-1) else Done 0
  else Done 0.

(** The bytes of the physical memory, and what the processor does with [n] of them at a virtual address; an address that is not mapped faults. *)
Notation ram := (Z → Z).
Fixpoint cpu_rd (n : nat) (a cr3 : Z) (s : pst) (m : ram) : outcome (list Z) :=
  match n with
  | O => Done []
  | Datatypes.S n => p ← deref (translate s cr3 a); l ← cpu_rd n (u32 (a + 1)) cr3 s m; Done (m p :: l)
  end.
Fixpoint cpu_wr (l : list Z) (a cr3 : Z) (s : pst) (m : ram) : outcome ram :=
  match l with
  | [] => Done m
  | b :: l => p ← deref (translate s cr3 a); cpu_wr l (u32 (a + 1)) cr3 s (λ q, if q =? p then b else m q)
  end.
(** Moves of the given widths, one after the other. *)
Fixpoint cpu_moves (ws : list nat) (d src cr3 : Z) (s : pst) (m : ram) : outcome ram :=
  match ws with
  | [] => Done m
  | w :: ws =>
      l ← cpu_rd w src cr3 s m;
      m ← cpu_wr l d cr3 s m;
      cpu_moves ws (u32 (d + Z.of_nat w)) (u32 (src + Z.of_nat w)) cr3 s m
  end.
(** The [switch] over the size: the widths of the moves; else those of [memcpy]. *)
Definition copy_widths (d size : Z) : list nat :=
  if size =? 1 then [1%nat] else if size =? 2 then [2%nat] else if size =? 4 then [4%nat] else
  if size =? 6 then [4%nat; 2%nat] else if size =? 8 then [4%nat; 4%nat] else copy_moves d size.

(** The checks of [copy_from_user]: the value it returns, and how many bytes it copies. *)
Definition from_user_checks (dest src size : Z) : Z * Z :=
  if size <? 0 then (- EINVAL, 0) else if size =? 0 then (0, 0) else
  if (dest =? 0) || (src =? 0) then (0, 0) else
  if probe_for_read src size <? 0 then (- EFAULT, 0) else (0, size).
Definition copy_from_user (dest src size cr3 : Z) (s : pst) (m : ram) : outcome (Z * ram) :=
  let '(ret, n) := from_user_checks dest src size in
  m ← cpu_moves (copy_widths dest n) dest src cr3 s m; Done (ret, m).

Fixpoint probe_pages (n : nat) (addr cr3 : Z) (s : pst) : outcome unit :=
  match n with
  | O => Done tt
  | S n =>
      ret ← probe_for_write addr PAGE_SIZE cr3 s;
      if ret <? 0 then Fail Panic else probe_pages n (u32 (addr + PAGE_SIZE)) cr3 s
  end.
(** The checks of [copy_to_user]. *)
Definition to_user_checks (dest src size cr3 : Z) (s : pst) : outcome (Z * Z) :=
  if size <? 0 then Done (- EINVAL, 0) else if size =? 0 then Done (0, 0) else
  if (dest =? 0) || (src =? 0) then Done (0, 0) else
  _ ← probe_pages (Z.to_nat (Z.shiftr (PAGE_ALIGN size) 12)) dest cr3 s;
  Done (size, size).
Definition copy_to_user (dest src size cr3 : Z) (s : pst) (m : ram) : outcome (Z * ram) :=
  '(ret, n) ← to_user_checks dest src size cr3 s;
  m ← cpu_moves (copy_widths dest n) dest src cr3 s m; Done (ret, m).

(** ** Words *)

Lemma land_frame x : 0 <= x < 2 ^ 32 → Z.land x FRAME = x / 2 ^ 12 * 2 ^ 12.
Proof.
  intros Hx. rewrite <- Z.shiftr_div_pow2, <- Z.shiftl_mul_pow2, <- Z.ldiff_ones_r by lia.
  apply Z.bits_inj'. intros n Hn. rewrite Z.land_spec, Z.ldiff_spec. change FRAME with (Z.shiftl (Z.ones 20) 12).
  rewrite Z.shiftl_spec, !Z.testbit_ones by lia. destruct (Z.ltb_spec n 12).
  - rewrite (proj2 (Z.leb_gt 0 (n - 12))) by lia. rewrite (proj2 (Z.leb_le 0 n)) by lia. by rewrite !andb_false_r.
  - rewrite (proj2 (Z.leb_le 0 (n - 12))) by lia. rewrite andb_false_r, andb_true_r. cbn [andb].
    destruct (Z.ltb_spec (n - 12) 20); [by rewrite andb_true_r|]. rewrite andb_false_r.
    rewrite <- (Z.mod_small x (2 ^ 32)) by lia. by rewrite Z.mod_pow2_bits_high by lia.
Qed.

Lemma land_low x : Z.land x 4095 = x mod 2 ^ 12.
Proof. change 4095 with (Z.ones 12). by rewrite Z.land_ones by lia. Qed.

Lemma pde_index va : 0 <= va < 2 ^ 32 → PDE_INDEX va = va / 2 ^ 22.
Proof.
  intros Hva. unfold PDE_INDEX. rewrite <- Z.shiftr_div_pow2 by lia. apply Z.bits_inj'. intros n Hn.
  rewrite !Z.shiftr_spec, Z.land_spec by lia. change 4290772992 with (Z.shiftl (Z.ones 10) 22).
  rewrite Z.shiftl_spec, Z.testbit_ones by lia. rewrite (proj2 (Z.leb_le 0 (n + 22 - 22))) by lia. cbn [andb].
  destruct (Z.ltb_spec (n + 22 - 22) 10); [by rewrite andb_true_r|]. rewrite andb_false_r.
  rewrite <- (Z.mod_small va (2 ^ 32)) by lia. by rewrite Z.mod_pow2_bits_high by lia.
Qed.

Lemma pte_index va : PTE_INDEX va = va / 2 ^ 12 mod 2 ^ 10.
Proof.
  unfold PTE_INDEX. rewrite <- Z.shiftr_div_pow2, <- Z.land_ones by lia. apply Z.bits_inj'. intros n Hn.
  rewrite Z.shiftr_spec, !Z.land_spec, Z.shiftr_spec by lia. f_equal. change 4190208 with (Z.shiftl (Z.ones 10) 12).
  rewrite Z.shiftl_spec, !Z.testbit_ones by lia. rewrite (proj2 (Z.leb_le 0 (n + 12 - 12))), (proj2 (Z.leb_le 0 n)) by lia.
  cbn [andb]. by replace (n + 12 - 12) with n by lia.
Qed.

(** A frame with its flags. *)
Lemma lor_flags pa f : 0 <= f < 2 ^ 12 → pa mod 2 ^ 12 = 0 → Z.lor pa f = pa + f.
Proof.
  intros Hf Hp. assert (Z.land pa f = 0) as H0; [|by rewrite <- Z.lxor_lor, Z.add_nocarry_lxor].
  apply Z.bits_inj'. intros n Hn. rewrite Z.land_spec, Z.bits_0. destruct (decide (n < 12)).
  - rewrite <- (Z.mod_pow2_bits_low pa 12 n), Hp by lia. by rewrite Z.bits_0.
  - rewrite <- (Z.mod_small f (2 ^ 12)) by lia. rewrite (Z.mod_pow2_bits_high f 12 n) by lia. apply andb_false_r.
Qed.

Definition word (w : Z) : Prop := 0 <= w < 2 ^ 32.
Definition words (t : list Z) : Prop := length t = 1024%nat ∧ Forall word t.

Lemma words_upd t i w : words t → word w → words (updZ t i w).
Proof.
  intros [Hl Hf] Hw. split; [by rewrite updZ_length|]. unfold updZ. case_decide; [|done]. by apply Forall_insert.
Qed.

Lemma words_zero : words (replicate 1024 0).
Proof. split; [apply length_replicate|]. apply Forall_replicate. unfold word. lia. Qed.

Lemma words_get t i : words t → 0 <= i < 1024 → ∃ w, nthZ t i = Some w ∧ word w.
Proof.
  intros [Hl Hf] Hi. destruct (nthZ_is_Some t i) as [w Hw]; [lia|]. exists w. split; [done|].
  unfold nthZ in Hw. rewrite decide_True in Hw by lia. by apply (Forall_lookup_1 _ _ _ _ Hf Hw).
Qed.

Lemma zero_get i : 0 <= i < 1024 → nthZ (replicate 1024 0) i = Some 0.
Proof. intros. unfold nthZ. rewrite decide_True by lia. apply lookup_replicate. split; [done|lia]. Qed.

(** The frame of a word, seen at its virtual address. *)
Definition tab (e : Z) : Z := VA (e / 2 ^ 12 * 2 ^ 12).
Definition small (e : Z) : bool := Z.testbit e 0 && negb (Z.testbit e 7).

Lemma tab_code e : word e → Z.land (VA e) FRAME = tab e.
Proof.
  intros He. unfold word in He. unfold tab, VA. rewrite land_frame by apply u32_range. unfold u32.
  pose proof (Z.mod_pos_bound (e + PAGE_OFFSET) (2 ^ 32)). unfold PAGE_OFFSET in *.
  pose proof (Z.div_mod e (2 ^ 12)). pose proof (Z.mod_pos_bound e (2 ^ 12)).
  set (q := e / 2 ^ 12) in *. set (r := e mod 2 ^ 12) in *. replace e with (2 ^ 12 * q + r) by lia.
  destruct (decide (2 ^ 32 <= 2 ^ 12 * q + 3221225472)).
  - replace ((2 ^ 12 * q + r + 3221225472) mod 2 ^ 32) with (2 ^ 12 * (q - 262144) + r)
      by (apply (Z.mod_unique_pos _ _ 1); lia).
    replace ((q * 2 ^ 12 + 3221225472) mod 2 ^ 32) with ((q - 262144) * 2 ^ 12)
      by (apply (Z.mod_unique_pos _ _ 1); lia).
    f_equal. symmetry. apply (Z.div_unique_pos _ _ _ r); lia.
  - rewrite !Z.mod_small by lia. 
    replace (q * 2 ^ 12 + 3221225472) with ((q + 786432) * 2 ^ 12) by lia.
    f_equal. symmetry. apply (Z.div_unique_pos _ _ _ r); lia.
Qed.

(** A page the kernel can get: virtual, aligned. *)
Definition vpage (p : Z) : Prop := PAGE_OFFSET <= p < 2 ^ 32 ∧ p mod 2 ^ 12 = 0.

Lemma PA_page p : vpage p → 0 <= PA p < 2 ^ 32 ∧ PA p mod 2 ^ 12 = 0.
Proof.
  intros [Hp Hm]. unfold PA, PAGE_OFFSET in *. rewrite u32_small by lia. split; [lia|].
  replace (p - 3221225472) with (p + (-786432) * 2 ^ 12) by lia. by rewrite Z.mod_add by lia.
Qed.

Lemma div_flags pa f : pa mod 2 ^ 12 = 0 → 0 <= f < 2 ^ 12 → (pa + f) / 2 ^ 12 * 2 ^ 12 = pa.
Proof.
  intros Hp Hf. pose proof (Z.div_mod pa (2 ^ 12)). rewrite <- (Z.div_unique_pos (pa + f) (2 ^ 12) (pa / 2 ^ 12) f); lia.
Qed.

Lemma tab_page p f : vpage p → 0 <= f < 2 ^ 12 → tab (PA p + f) = p.
Proof.
  intros Hp Hf. destruct (PA_page p Hp). unfold tab. rewrite div_flags by done. destruct Hp as [Hp _].
  unfold VA, PA, PAGE_OFFSET in *. rewrite (u32_small (p - 3221225472)), u32_small; lia.
Qed.

Lemma flags_bit pa f k : pa mod 2 ^ 12 = 0 → 0 <= f < 2 ^ 12 → 0 <= k < 12 → Z.testbit (pa + f) k = Z.testbit f k.
Proof.
  intros Hp Hf Hk. rewrite <- (Z.mod_pow2_bits_low (pa + f) 12 k) by lia. f_equal.
  rewrite <- Z.add_mod_idemp_l, Hp by lia. apply Z.mod_small. lia.
Qed.

(** ** Directories *)

Definition dir_ent (s : pst) (cr3 i : Z) : option Z := tables s !! VA cr3 ≫= λ dir, nthZ dir i.

(** What a directory says of page [n]: a table's word (0 without a table), or a big page. *)
Definition look (s : pst) (cr3 n : Z) : option (Z + Z) :=
  e ← dir_ent s cr3 (n / 2 ^ 10);
  if negb (Z.testbit e 0) then Some (inl 0) else
  if Z.testbit e 7 then Some (inr e) else
  t ← tables s !! tab e; w ← nthZ t (n mod 2 ^ 10); Some (inl w).

(** Each table belongs to one entry of the directory, and the pages that can be had are no tables. *)
Record dir_ok (s : pst) (cr3 : Z) : Prop := {
  ok_dir : ∃ dir, tables s !! VA cr3 = Some dir ∧ words dir;
  ok_tab i e : dir_ent s cr3 i = Some e → small e = true → tab e ≠ VA cr3 ∧ ∃ t, tables s !! tab e = Some t ∧ words t;
  ok_inj i j e e' : dir_ent s cr3 i = Some e → dir_ent s cr3 j = Some e' → small e = true → small e' = true →
    tab e = tab e' → i = j;
  ok_nodup : NoDup (zeros s);
  ok_zeros p : p ∈ zeros s → vpage p ∧ tables s !! p = None }.

(** The directory and its tables. *)
Definition is_tab (s : pst) (cr3 q : Z) : Prop :=
  q = VA cr3 ∨ ∃ i e, dir_ent s cr3 i = Some e ∧ small e = true ∧ tab e = q.

Lemma translate_look s cr3 va : dir_ok s cr3 → 0 <= va < 2 ^ 32 →
  translate s cr3 va =
    match look s cr3 (va / 2 ^ 12) with
    | Some (inl w) => if Z.testbit w 0 then Some (w / 2 ^ 12 * 2 ^ 12 + va mod 2 ^ 12) else None
    | Some (inr e) => Some (e / 2 ^ 22 * 2 ^ 22 + va mod 2 ^ 22)
    | None => None
    end.
Proof.
  intros Hok Hva. unfold translate, look, dir_ent. destruct (ok_dir _ _ Hok) as (dir & Hd & Hw). rewrite Hd. cbn [mbind option_bind].
  rewrite Z.div_div by lia. change (2 ^ 12 * 2 ^ 10) with (2 ^ 22).
  destruct (nthZ dir (va / 2 ^ 22)) as [e|]; [|done]. cbn [mbind option_bind].
  destruct (Z.testbit e 0); [|done]. cbn [negb]. destruct (Z.testbit e 7); [done|]. unfold tab. clear Hd.
  destruct (tables s !! _) as [t|]; [|done]. cbn [mbind option_bind].
  destruct (nthZ t (_ mod _)) as [w|]; [|done]. cbn [mbind option_bind]. by destruct (Z.testbit w 0).
Qed.

Lemma dir_ent_some s cr3 i : dir_ok s cr3 → 0 <= i < 1024 → ∃ e, dir_ent s cr3 i = Some e ∧ word e.
Proof.
  intros Hok Hi. destruct (ok_dir _ _ Hok) as (dir & Hd & Hw). destruct (words_get dir i Hw Hi) as (e & He & Hwe).
  exists e. split; [|done]. unfold dir_ent. by rewrite Hd.
Qed.

Lemma page_split n i j : 0 <= j < 2 ^ 10 → n = i * 2 ^ 10 + j ↔ n / 2 ^ 10 = i ∧ n mod 2 ^ 10 = j.
Proof.
  intros Hj. split.
  - intros ->. split.
    + rewrite Z.div_add_l, Z.div_small; lia.
    + rewrite Z.add_comm, Z.mod_add by lia. by apply Z.mod_small.
  - intros [<- <-]. pose proof (Z.div_mod n (2 ^ 10)). lia.
Qed.

(** The store with the first of the empty pages as the table of entry [i]. *)
Definition add_table (s : pst) (cr3 i w : Z) : pst :=
  match tables s !! VA cr3, zeros s with
  | Some dir, p :: l => mk_pst (<[VA cr3 := updZ dir i w]> (<[p := replicate 1024 0]> (tables s))) l (vm_page s)
  | _, _ => s
  end.

Section add_table.
Context (s : pst) (cr3 i e p f : Z) (l : list Z).
Context (Hok : dir_ok s cr3) (Hi : 0 <= i < 1024) (He : dir_ent s cr3 i = Some e) (Hbit : Z.testbit e 0 = false).
Context (Hz : zeros s = p :: l) (Hf : 0 <= f < 2 ^ 12) (Hf0 : Z.testbit f 0 = true) (Hf7 : Z.testbit f 7 = false).
Let w := PA p + f.
Let s' := add_table s cr3 i w.

Lemma add_page : vpage p ∧ tables s !! p = None ∧ p ≠ VA cr3 ∧ p ∉ l ∧ tab w = p ∧ small w = true ∧ word w.
Proof.
  destruct (ok_zeros _ _ Hok p) as [Hv Hn]; [rewrite Hz; by constructor|]. destruct (ok_dir _ _ Hok) as (dir & Hd & _).
  pose proof (ok_nodup _ _ Hok) as Hnd. rewrite Hz in Hnd. apply NoDup_cons in Hnd as [Hnd _].
  destruct (PA_page p Hv) as [Hp Hm]. split_and!; try done.
  - intros ->. congruence.
  - by apply tab_page.
  - unfold small, w. rewrite !flags_bit by (done || lia). by rewrite Hf0, Hf7.
  - unfold word, w. destruct Hv as [Hv _]. unfold PA, PAGE_OFFSET in *. rewrite u32_small in * by lia. lia.
Qed.

Lemma add_tables q : tables s' !! q =
  if decide (q = VA cr3) then (λ dir, updZ dir i w) <$> tables s !! VA cr3 else
  if decide (q = p) then Some (replicate 1024 0) else tables s !! q.
Proof.
  unfold s', add_table. destruct (ok_dir _ _ Hok) as (dir & Hd & _). rewrite Hd, Hz. cbn.
  repeat case_decide; subst; by simplify_map_eq.
Qed.

Lemma add_ent j : dir_ent s' cr3 j = if decide (j = i) then Some w else dir_ent s cr3 j.
Proof.
  unfold dir_ent at 1. rewrite add_tables, decide_True by done. unfold dir_ent in *.
  destruct (ok_dir _ _ Hok) as (dir & Hd & [Hl _]). rewrite Hd in *. cbn in *. case_decide as Hj.
  - subst j. apply nthZ_upd_eq. lia.
  - by apply nthZ_upd_ne.
Qed.

Lemma add_zeros : zeros s' = l ∧ vm_page s' = vm_page s.
Proof. unfold s', add_table. destruct (ok_dir _ _ Hok) as (dir & Hd & _). by rewrite Hd, Hz. Qed.

(** No table of another entry is the new one. *)
Lemma add_other j e' : dir_ent s cr3 j = Some e' → small e' = true → tab e' ≠ p.
Proof. intros Hj Hs Hp. destruct (ok_tab _ _ Hok j e' Hj Hs) as (_ & t & Ht & _). destruct add_page as (_ & Hn & _). congruence. Qed.

Lemma add_ok : dir_ok s' cr3.
Proof.
  destruct add_page as (Hv & Hn & Hne & Hnl & Hw & Hs & Hwd). split.
  - destruct (ok_dir _ _ Hok) as (dir & Hd & Hdw). exists (updZ dir i w).
    rewrite add_tables, decide_True, Hd by done. split; [done|by apply words_upd].
  - intros j e'. rewrite add_ent. case_decide as Hj.
    + intros [= <-] _. rewrite Hw, add_tables, decide_False, decide_True by done. eauto using words_zero.
    + intros He' Hs'. destruct (ok_tab _ _ Hok j e' He' Hs') as (Hd & t & Ht & Htw). split; [done|]. exists t.
      rewrite add_tables, !decide_False by eauto using add_other. done.
  - intros j k ej ek. rewrite !add_ent. destruct (decide (j = i)), (decide (k = i)); intros Ej Ek Sj Sk Hjk; [congruence|..].
    + exfalso. apply (add_other k ek Ek Sk). congruence.
    + exfalso. apply (add_other j ej Ej Sj). congruence.
    + by eapply ok_inj.
  - destruct add_zeros as [-> _]. pose proof (ok_nodup _ _ Hok) as Hnd. rewrite Hz in Hnd. by apply NoDup_cons in Hnd as [_ Hnd].
  - destruct add_zeros as [-> _]. intros q Hq. destruct (ok_zeros _ _ Hok q) as [Hvq Hnq]; [rewrite Hz; by constructor|].
    destruct (ok_dir _ _ Hok) as (dir & Hd & _). split; [done|]. rewrite add_tables, !decide_False; [done|congruence..].
Qed.

(** The table is empty, so no page is mapped by it. *)
Lemma add_look n : look s' cr3 n = look s cr3 n.
Proof.
  destruct add_page as (Hv & Hn & Hne & Hnl & Hw & Hs & Hwd). unfold look. rewrite add_ent. case_decide as Hj.
  - rewrite Hj, He. cbn [mbind option_bind]. rewrite Hbit. apply andb_prop in Hs as [-> H7].
    destruct (Z.testbit w 7); [done|]. cbn [negb]. rewrite Hw, add_tables, decide_False, decide_True by done.
    cbn [mbind option_bind]. rewrite zero_get; [done|]. pose proof (Z.mod_pos_bound n (2 ^ 10)). lia.
  - destruct (dir_ent s cr3 (n / 2 ^ 10)) as [e'|] eqn:He'; [|done]. cbn [mbind option_bind].
    destruct (Z.testbit e' 0) eqn:H0; [|done]. destruct (Z.testbit e' 7) eqn:H7; [done|]. cbn [negb].
    assert (small e' = true) as Hs' by (unfold small; by rewrite H0, H7).
    destruct (ok_tab _ _ Hok _ e' He' Hs') as (Hd & t & Ht & Htw).
    rewrite add_tables, !decide_False by eauto using add_other. done.
Qed.
End add_table.

Section put_word.
Context (s : pst) (cr3 i j e w : Z) (t : list Z).
Context (Hok : dir_ok s cr3) (Hj : 0 <= j < 2 ^ 10) (He : dir_ent s cr3 i = Some e) (Hs : small e = true).
Context (Ht : tables s !! tab e = Some t) (Hw : word w).
Let s' := with_tables (<[tab e := updZ t j w]> (tables s)) s.

Lemma put_ent k : dir_ent s' cr3 k = dir_ent s cr3 k.
Proof. unfold dir_ent. cbn. destruct (ok_tab _ _ Hok i e He Hs) as [Hne _]. by rewrite lookup_insert_ne. Qed.

Lemma put_ok : dir_ok s' cr3.
Proof.
  destruct (ok_tab _ _ Hok i e He Hs) as (Hne & t' & Ht' & Htw). rewrite Ht in Ht'. injection Ht' as <-. split.
  - destruct (ok_dir _ _ Hok) as (dir & Hd & Hdw). exists dir. cbn. by rewrite lookup_insert_ne.
  - intros k e'. rewrite put_ent. intros Hk Hs'. destruct (ok_tab _ _ Hok k e' Hk Hs') as (Hne' & t' & Ht' & Htw').
    split; [done|]. cbn. destruct (decide (tab e = tab e')) as [<-|Hd].
    + rewrite lookup_insert_eq. eauto using words_upd.
    + rewrite lookup_insert_ne by done. eauto.
  - intros k l ek el. rewrite !put_ent. by apply ok_inj.
  - apply (ok_nodup _ _ Hok).
  - intros p Hp. destruct (ok_zeros _ _ Hok p Hp) as [Hv Hn]. split; [done|]. cbn.
    rewrite lookup_insert_ne; [done|congruence].
Qed.

Lemma put_look n : look s' cr3 n = if decide (n = i * 2 ^ 10 + j) then Some (inl w) else look s cr3 n.
Proof.
  unfold look. rewrite put_ent. pose proof Hs as Hs'. apply andb_prop in Hs' as [H0 H7]. apply negb_true_iff in H7.
  destruct (ok_tab _ _ Hok i e He Hs) as (_ & t' & Ht' & [Hl _]). rewrite Ht in Ht'. injection Ht' as <-. case_decide as Hn.
  - apply page_split in Hn as [-> ->]; [|done]. rewrite He. cbn [mbind option_bind]. rewrite H0, H7. cbn.
    rewrite lookup_insert_eq. cbn. rewrite nthZ_upd_eq by lia. done.
  - destruct (dir_ent s cr3 (n / 2 ^ 10)) as [e'|] eqn:He'; [|done]. cbn [mbind option_bind].
    destruct (Z.testbit e' 0) eqn:H0'; [|done]. destruct (Z.testbit e' 7) eqn:H7'; [done|]. cbn.
    destruct (decide (tab e = tab e')) as [Hd|Hd]; [|by rewrite lookup_insert_ne].
    rewrite <- Hd, lookup_insert_eq, Ht. cbn. rewrite nthZ_upd_ne; [done|]. intros Hmod. apply Hn, page_split; [done|].
    split; [|done]. symmetry. eapply (ok_inj _ _ Hok); [done..|unfold small; by rewrite H0', H7'|done].
Qed.
End put_word.

Lemma lor_bound a b n : 0 <= n → 0 <= a < 2 ^ n → 0 <= b < 2 ^ n → 0 <= Z.lor a b < 2 ^ n.
Proof.
  intros Hn Ha Hb. assert (Z.lor a b = Z.lor a b mod 2 ^ n) as ->; [|apply Z.mod_pos_bound; lia].
  apply Z.bits_inj'. intros k Hk. destruct (decide (k < n)).
  - by rewrite Z.mod_pow2_bits_low by lia.
  - rewrite Z.mod_pow2_bits_high, Z.lor_spec by lia.
    by rewrite <- (Z.mod_small a (2 ^ n)), <- (Z.mod_small b (2 ^ n)), !Z.mod_pow2_bits_high by lia.
Qed.

(** How many entries of the list of areas are free. *)
Definition vm_room (l : list vm_t) : nat := length (filter (λ x, vm_base x = 0) l).

Lemma vm_put_ok v l : (1 <= vm_room l)%nat → vm_base v ≠ 0 →
  ∃ l', vm_put v l = Done l' ∧ Datatypes.S (vm_room l') = vm_room l.
Proof.
  unfold vm_room. intros Hl Hv. induction l as [|x l IH]; [cbn in Hl; lia|]. cbn [vm_put].
  rewrite filter_cons in *. destruct (Z.eqb_spec (vm_base x) 0) as [Hx|Hx].
  - rewrite decide_True in * by done. exists (v :: l). split; [done|]. by rewrite filter_cons, decide_False by done.
  - rewrite decide_False in * by done. destruct (IH Hl) as (l' & -> & Hr). exists (x :: l'). split; [done|].
    by rewrite filter_cons, decide_False by done.
Qed.

(** What mapping does to the rest of the store: the tables that are new were empty pages. *)
Record grown (s s' : pst) (cr3 : Z) : Prop := {
  ext_zeros : zeros s' `suffix_of` zeros s;
  ext_same q : ¬ is_tab s cr3 q → q ∉ zeros s → tables s' !! q = tables s !! q;
  ext_tab q : is_tab s' cr3 q → is_tab s cr3 q ∨ q ∈ zeros s }.

Lemma grown_trans s s1 s2 cr3 : grown s s1 cr3 → grown s1 s2 cr3 → grown s s2 cr3.
Proof.
  intros [Z1 S1 T1] [Z2 S2 T2]. assert (∀ q, q ∈ zeros s1 → q ∈ zeros s) as Hz.
  { intros q. destruct Z1 as [k ->]. rewrite elem_of_app. by right. }
  split; [by etrans|..].
  - intros q Hq Hz'. rewrite S2, S1; [done..| |by eauto]. intros Ht. by destruct (T1 q Ht).
  - intros q Hq. destruct (T2 q Hq); eauto.
Qed.

Definition fl_ok (f : Z) : Prop := 0 <= f < 2 ^ 12 ∧ Z.testbit f 0 = true ∧ Z.testbit f 7 = false.

(** A page that [map_page] accepts: its word names no frame. *)
Definition unmapped (s : pst) (cr3 n : Z) : Prop := ∃ w, look s cr3 n = Some (inl w) ∧ w / 2 ^ 12 = 0.

Lemma rd_ok p i s t w : tables s !! p = Some t → nthZ t i = Some w → rd p i s = Done w.
Proof. intros Ht Hw. unfold rd. by rewrite Ht; cbn; rewrite Hw. Qed.

Lemma wr_ok p i v s t w : tables s !! p = Some t → nthZ t i = Some w →
  wr p i v s = Done (with_tables (<[p := updZ t i v]> (tables s)) s).
Proof. intros Ht Hw. unfold wr. by rewrite Ht; cbn; rewrite Hw. Qed.

Lemma rd_ent cr3 i s e : dir_ent s cr3 i = Some e → rd (VA cr3) i s = Done e.
Proof. unfold dir_ent, rd. destruct (tables s !! VA cr3); [|done]. cbn. by intros ->. Qed.

(** The second half of [map_page], with the table at hand. *)
Lemma put_run s cr3 va e v : dir_ok s cr3 → word va → word v → dir_ent s cr3 (va / 2 ^ 22) = Some e → small e = true →
  unmapped s cr3 (va / 2 ^ 12) →
  ∃ s', (old ← rd (tab e) (PTE_INDEX va) s; if negb (Z.land old FRAME =? 0) then Fail Panic else
         s ← wr (tab e) (PTE_INDEX va) v s; Done (0, s)) = Done (0, s') ∧ dir_ok s' cr3 ∧
    (∀ n, look s' cr3 n = if decide (n = va / 2 ^ 12) then Some (inl v) else look s cr3 n) ∧
    zeros s' = zeros s ∧ vm_page s' = vm_page s ∧ grown s s' cr3.
Proof.
  intros Hok Hva Hv He Hs (w & Hw & Hw0). rewrite pte_index.
  pose proof (Z.mod_pos_bound (va / 2 ^ 12) (2 ^ 10)) as Hj. set (j := va / 2 ^ 12 mod 2 ^ 10) in *.
  destruct (ok_tab _ _ Hok _ e He Hs) as (Hne & t & Ht & Htw). destruct (words_get t j Htw) as (w' & Hw' & Hww); [lia|].
  assert (va / 2 ^ 12 = va / 2 ^ 22 * 2 ^ 10 + j) as Hsp.
  { apply page_split; [lia|]. by rewrite Z.div_div by lia. }
  assert (w' = w) as ->.
  { unfold look in Hw. rewrite Z.div_div in Hw by lia. change (2 ^ 12 * 2 ^ 10) with (2 ^ 22) in Hw. rewrite He in Hw.
    pose proof Hs as Hs'. apply andb_prop in Hs' as [H0 H7]. apply negb_true_iff in H7. cbn [mbind option_bind] in Hw.
    rewrite H0, H7, Ht in Hw. cbn [negb mbind option_bind] in Hw. fold j in Hw. rewrite Hw' in Hw. by injection Hw. }
  rewrite (rd_ok _ _ _ _ _ Ht Hw'). rewrite bind_done, land_frame, Hw0 by done. cbn [negb Z.mul Z.eqb].
  rewrite (wr_ok _ _ _ _ _ _ Ht Hw'), bind_done. eexists. split; [done|]. split; [by eapply put_ok|]. split.
  { intros n. rewrite Hsp. eapply put_look; (done || lia). }
  split; [done|]. split; [done|]. split; [done|..].
  - intros q Hq _. cbn. rewrite lookup_insert_ne; [done|]. intros <-. apply Hq. right. eauto.
  - intros q Hq. left. destruct Hq as [->|(k & e' & Hk & Hs' & <-)]; [by left|]. right. exists k, e'.
    erewrite put_ent in Hk by done. done.
Qed.

Lemma add_grown s cr3 i e p f l : dir_ok s cr3 → 0 <= i < 1024 → dir_ent s cr3 i = Some e → zeros s = p :: l → fl_ok f →
  grown s (add_table s cr3 i (PA p + f)) cr3.
Proof.
  intros Hok Hi He Hz (Hf & H0 & H7). pose proof (add_page s cr3 i p f l Hok Hz Hf H0 H7) as (_ & _ & _ & _ & Hw & _ & _).
  destruct (add_zeros s cr3 i p f l Hok Hz) as [Hz' _]. split.
  - rewrite Hz', Hz. by exists [p].
  - intros q Hq Hqz. rewrite (add_tables s cr3 i p f l), !decide_False; [done|..|done|done].
    + intros ->. apply Hqz. rewrite Hz. by constructor.
    + intros ->. apply Hq. by left.
  - intros q [->|(k & e' & Hk & Hs & <-)]; [by left; left|]. rewrite (add_ent s cr3 i e p f l) in Hk by done.
    case_decide; [|left; right; eauto]. injection Hk as <-. right. rewrite Hw, Hz. by constructor.
Qed.

Lemma vm_insert_ok (base len flag : Z) (s : pst) : (1 <= vm_room (vm_page s))%nat → base ≠ 0 →
  ∃ v, vm_insert base len flag s = Done (with_vm v s) ∧ Datatypes.S (vm_room v) = vm_room (vm_page s).
Proof.
  intros Hr Hb. destruct (vm_put_ok (mk_vm base len flag) (vm_page s) Hr Hb) as (v & Hv & Hr'). exists v.
  unfold vm_insert. by rewrite Hv.
Qed.

(** The list of areas says nothing of the tables. *)
Lemma with_vm_ok v s cr3 : dir_ok s cr3 → dir_ok (with_vm v s) cr3.
Proof. intros [Hd Ht Hi Hn Hz]. split; [exact Hd|exact Ht|exact Hi|exact Hn|exact Hz]. Qed.
Lemma with_vm_grown s v s' cr3 : grown (with_vm v s) s' cr3 → grown s s' cr3.
Proof. intros [Hz Hs Ht]. split; [exact Hz|exact Hs|exact Ht]. Qed.
Lemma with_vm_look v s cr3 n : look (with_vm v s) cr3 n = look s cr3 n.
Proof. done. Qed.

Lemma table_flags p f : vpage p → fl_ok f → Z.lor (Z.lor (PA p) PAGE_RW) f = PA p + Z.lor PAGE_RW f ∧ fl_ok (Z.lor PAGE_RW f).
Proof.
  intros Hp (Hf & H0 & H7). destruct (PA_page p Hp) as [_ Hm]. unfold PAGE_RW.
  assert (0 <= Z.lor 2 f < 2 ^ 12) as Hb by (apply lor_bound; lia). rewrite <- Z.lor_assoc. split; [by apply lor_flags|].
  split; [done|]. rewrite !Z.lor_spec, H0, H7. by split.
Qed.

Lemma add_run s cr3 i e p l v : dir_ok s cr3 → dir_ent s cr3 i = Some e → zeros s = p :: l →
  wr (VA cr3) i v (next_zero_page s).2 = Done (add_table s cr3 i v).
Proof.
  intros Hok He Hz. unfold next_zero_page, add_table. destruct (ok_dir _ _ Hok) as (dir & Hd & _).
  destruct (ok_zeros _ _ Hok p) as [_ Hn]; [rewrite Hz; by constructor|]. rewrite Hd, Hz. cbn [snd].
  unfold dir_ent in He. rewrite Hd in He. cbn in He. erewrite wr_ok; [done| |done]. cbn.
  rewrite lookup_insert_ne; [done|congruence].
Qed.

(** The tables an operation may still take, and the room in the list of areas for them. *)
Definition supply (n : nat) (proc : bool) (s : pst) : Prop :=
  (n <= length (zeros s))%nat ∧ (proc = true → (n <= vm_room (vm_page s))%nat).

Lemma area_run k (proc : bool) base len flag s : base ≠ 0 → (proc = true → (Datatypes.S k <= vm_room (vm_page s))%nat) →
  ∃ v, (if proc then vm_insert base len flag s else Done s) = Done (with_vm v s) ∧ (proc = true → (k <= vm_room v)%nat).
Proof.
  intros Hb Hr. destruct proc.
  - specialize (Hr eq_refl). destruct (vm_insert_ok base len flag s ltac:(lia) Hb) as (v & Hv & Hr'). exists v. split; [done|]. lia.
  - exists (vm_page s). by destruct s.
Qed.

(** [map_page]: the page is mapped, no other page is touched. *)
Lemma map_page_spec s cr3 va pa f proc k : dir_ok s cr3 → word va → word (pa + f) → pa mod 2 ^ 12 = 0 → fl_ok f →
  unmapped s cr3 (va / 2 ^ 12) → supply (Datatypes.S k) proc s →
  ∃ s', map_page va pa cr3 f proc s = Done (0, s') ∧ dir_ok s' cr3 ∧
    (∀ n, look s' cr3 n = if decide (n = va / 2 ^ 12) then Some (inl (pa + f)) else look s cr3 n) ∧
    supply k proc s' ∧ grown s s' cr3.
Proof.
  intros Hok Hva Hpa Hal Hfl Hun [Hs1 Hs2]. pose proof Hfl as (Hf & H0 & H7).
  assert (0 <= va / 2 ^ 22 < 1024) as Hi.
  { unfold word in Hva. split; [apply Z.div_pos; lia|]. apply Z.div_lt_upper_bound; lia. }
  destruct (dir_ent_some s cr3 _ Hok Hi) as (e & He & Hwe). unfold map_page. rewrite pde_index by done.
  change PAGE_PSE with (2 ^ 7). rewrite land_pow2_testbit, H7, (rd_ent _ _ _ _ He), bind_done by done.
  change PAGE_PRE with (2 ^ 0). rewrite <- (negb_involutive (Z.land e (2 ^ 0) =? 0)), land_pow2_testbit by done.
  rewrite (lor_flags pa f) by done. rewrite land_low, Hal. cbn [Z.eqb assert_]. destruct (Z.testbit e 0) eqn:He0; cbn [negb].
  - rewrite bind_done, tab_code, bind_done by done. assert (small e = true) as Hs.
    { unfold small. rewrite He0. destruct (Z.testbit e 7) eqn:He7; [|done]. destruct Hun as (w & Hw & _). unfold look in Hw.
      rewrite Z.div_div in Hw by lia. change (2 ^ 12 * 2 ^ 10) with (2 ^ 22) in Hw. rewrite He in Hw.
      cbn [mbind option_bind] in Hw. by rewrite He0, He7 in Hw. }
    destruct (put_run s cr3 va e (pa + f) Hok Hva Hpa He Hs Hun) as (s' & -> & Hok' & Hl & Hz' & Hv & Hext).
    exists s'. split; [done|]. split; [done|]. split; [done|]. split; [|done]. split; [rewrite Hz'; lia|].
    rewrite Hv. intros Hp. specialize (Hs2 Hp). lia.
  - destruct (zeros s) as [|p l] eqn:Hz; [by cbn in Hs1; lia|]. unfold next_zero_page. rewrite Hz.
    destruct (ok_zeros _ _ Hok p) as [Hp _]; [rewrite Hz; by constructor|]. destruct (table_flags p f Hp Hfl) as [-> Hg].
    set (g := Z.lor PAGE_RW f) in *. pose proof Hg as (Hgf & Hg0 & Hg7).
    destruct (add_page s cr3 0 p g l Hok Hz Hgf Hg0 Hg7) as (_ & _ & _ & _ & Ht & Hsm & _).
    pose proof (add_run s cr3 _ e p l (PA p + g) Hok He Hz) as Hrun. unfold next_zero_page in Hrun. rewrite Hz in Hrun.
    cbn [snd] in Hrun. rewrite Hrun, bind_done. set (s1 := add_table s cr3 (va / 2 ^ 22) (PA p + g)) in *.
    destruct (add_zeros s cr3 (va / 2 ^ 22) p g l Hok Hz) as [Hz1 Hv1]. fold s1 in Hz1, Hv1.
    destruct (area_run k proc p PAGE_SIZE VM_PGT s1) as (v & -> & Hr).
    { destruct Hp as [Hp _]. unfold PAGE_OFFSET in Hp. lia. }
    { by rewrite Hv1. }
    rewrite !bind_done. rewrite <- Ht.
    destruct (put_run (with_vm v s1) cr3 va (PA p + g) (pa + f)) as (s' & -> & Hok' & Hl & Hz' & Hv & Hext); try done.
    + by apply with_vm_ok, (add_ok s cr3 _ e p g l).
    + change (dir_ent s1 cr3 (va / 2 ^ 22) = Some (PA p + g)). unfold s1.
      by rewrite (add_ent s cr3 _ e p g l), decide_True.
    + destruct Hun as (w & Hw & Hw0). exists w. split; [|done]. rewrite with_vm_look. unfold s1.
      by rewrite (add_look s cr3 _ e p g l).
    + exists s'. split; [done|]. split; [done|]. split; [|split; [split|]].
      * intros n. rewrite Hl, with_vm_look. unfold s1. by rewrite (add_look s cr3 _ e p g l).
      * rewrite Hz'. cbn. rewrite Hz1. cbn in Hs1. lia.
      * by rewrite Hv.
      * eapply grown_trans; [|by eapply with_vm_grown]. by apply (add_grown s cr3 _ e p g l).
Qed.

(** Taking an empty page for data. *)
Lemma get_ok s cr3 p l : dir_ok s cr3 → zeros s = p :: l →
  ∃ s1, next_zero_page s = (p, s1) ∧ dir_ok s1 cr3 ∧ zeros s1 = l ∧ vm_page s1 = vm_page s ∧ vpage p ∧
    (∀ n, look s1 cr3 n = look s cr3 n) ∧ grown s s1 cr3 ∧
    tables s1 !! p = Some (replicate 1024 0) ∧ ¬ is_tab s1 cr3 p ∧ p ∉ l.
Proof.
  intros Hok Hz. unfold next_zero_page. rewrite Hz. eexists. split; [done|]. set (s1 := mk_pst _ _ _).
  destruct (ok_zeros _ _ Hok p) as [Hv Hn]; [rewrite Hz; by constructor|]. destruct (ok_dir _ _ Hok) as (dir & Hd & Hw).
  pose proof (ok_nodup _ _ Hok) as Hnd. rewrite Hz in Hnd. apply NoDup_cons in Hnd as [Hnl Hnd].
  assert (∀ q, is_Some (tables s !! q) → tables s1 !! q = tables s !! q) as Hs.
  { intros q [t Ht]. unfold s1. cbn. rewrite lookup_insert_ne; [done|congruence]. }
  assert (∀ i, dir_ent s1 cr3 i = dir_ent s cr3 i) as He by (intros i; unfold dir_ent; rewrite Hs; eauto).
  assert (∀ q, is_tab s1 cr3 q ↔ is_tab s cr3 q) as Ht by (intros q; unfold is_tab; by setoid_rewrite He).
  assert (dir_ok s1 cr3) as Hok1.
  { split.
    - exists dir. split; [rewrite Hs; eauto|done].
    - intros i e. rewrite He. intros Hi Hsm. destruct (ok_tab _ _ Hok i e Hi Hsm) as (Hne & t & Ht' & Htw).
      rewrite Hs; eauto.
    - intros i j e e'. rewrite !He. by apply ok_inj.
    - done.
    - intros q Hq. destruct (ok_zeros _ _ Hok q) as [Hvq Hnq]; [rewrite Hz; by constructor|]. split; [done|].
      unfold s1. cbn. rewrite lookup_insert_ne; [done|]. by intros ->. }
  assert (∀ n, look s1 cr3 n = look s cr3 n) as Hl.
  { intros n. unfold look. rewrite He. destruct (dir_ent s cr3 (n / 2 ^ 10)) as [e|] eqn:Hi; [|done]. cbn [mbind option_bind].
    destruct (Z.testbit e 0) eqn:H0; [|done]. destruct (Z.testbit e 7) eqn:H7; [done|]. cbn [negb].
    destruct (ok_tab _ _ Hok _ e Hi) as (_ & t & Ht' & _); [unfold small; by rewrite H0, H7|]. by rewrite Hs by eauto. }
  split; [done|]. split; [done|]. split; [done|]. split; [done|]. split; [done|]. split; [|split; [|split; [|done]]].
  - split; [rewrite Hz; by exists [p]| |].
    + intros q _ Hq. unfold s1. cbn. rewrite lookup_insert_ne; [done|]. intros ->. apply Hq. rewrite Hz. by constructor.
    + intros q. rewrite Ht. by left.
  - unfold s1. cbn. by rewrite lookup_insert_eq.
  - rewrite Ht. intros [->|(i & e & Hi & Hsm & <-)]; [congruence|]. destruct (ok_tab _ _ Hok i e Hi Hsm) as (_ & t & Ht' & _). congruence.
Qed.

(** A page of data stays what it is. *)
Lemma ext_data s s' cr3 p : grown s s' cr3 → ¬ is_tab s cr3 p → p ∉ zeros s →
  tables s' !! p = tables s !! p ∧ ¬ is_tab s' cr3 p ∧ p ∉ zeros s'.
Proof.
  intros [[k Hz] Hs Ht] Hp Hq. split; [by apply Hs|]. split.
  - intros H. by destruct (Ht p H).
  - intros H. apply Hq. rewrite Hz, elem_of_app. by right.
Qed.

(** One round of [map_pages]. *)
Lemma round_spec s cr3 dest f proc k : dir_ok s cr3 → word dest → fl_ok f → unmapped s cr3 (dest / 2 ^ 12) →
  supply (Datatypes.S (Datatypes.S k)) proc s →
  ∃ p s', p ∈ zeros s ∧ (∀ n, map_loop (Datatypes.S n) dest cr3 f proc s = map_loop n (u32 (dest + PAGE_SIZE)) cr3 f proc s') ∧
    dir_ok s' cr3 ∧ supply k proc s' ∧ grown s s' cr3 ∧
    (∀ n, look s' cr3 n = if decide (n = dest / 2 ^ 12) then Some (inl (PA p + f)) else look s cr3 n) ∧
    vpage p ∧ tables s' !! p = Some (replicate 1024 0) ∧ ¬ is_tab s' cr3 p ∧ p ∉ zeros s'.
Proof.
  intros Hok Hd Hf Hun [Hs1 Hs2]. destruct (zeros s) as [|p l] eqn:Hz; [cbn in Hs1; lia|].
  destruct (get_ok s cr3 p l Hok Hz) as (s1 & Hg & Hok1 & Hz1 & Hv1 & Hp & Hl1 & He1 & Ht1 & Hn1 & Hnl).
  assert (p ≠ 0) as Hp0 by (destruct Hp as [Hp _]; unfold PAGE_OFFSET in Hp; lia).
  destruct (area_run (Datatypes.S k) proc p PAGE_SIZE VM_COMMON s1 Hp0) as (v & Hins & Hr); [by rewrite Hv1|].
  destruct (PA_page p Hp) as [Hpw Hpm].
  destruct (map_page_spec (with_vm v s1) cr3 dest (PA p) f proc k) as (s' & Hm & Hok' & Hl' & Hs' & He'); [..|].
  - by apply with_vm_ok.
  - done.
  - destruct Hf as [Hf _]. destruct Hp as [Hp _]. unfold word, PA, PAGE_OFFSET in *. rewrite u32_small in * by lia. lia.
  - done.
  - done.
  - destruct Hun as (w & Hw & Hw0). exists w. by rewrite with_vm_look, Hl1.
  - split; [cbn; rewrite Hz1; cbn in Hs1; lia|done].
  - apply with_vm_grown in He'. destruct (ext_data s1 s' cr3 p He' Hn1) as (Hd1 & Hd2 & Hd3); [by rewrite Hz1|].
    exists p, s'. split; [by constructor|]. split.
    { intros n. cbn [map_loop]. rewrite Hg. rewrite (proj2 (Z.eqb_neq p 0)) by done. cbn [negb assert_].
      rewrite bind_done, Hins, bind_done, Hm. done. }
    split; [done|]. split; [done|]. split; [by eapply grown_trans|]. split; [|by rewrite Hd1].
    intros n. by rewrite Hl', with_vm_look, Hl1.
Qed.

Lemma nthZ_cons {A} (x : A) l i : nthZ (x :: l) i = if decide (i = 0) then Some x else nthZ l (i - 1).
Proof.
  unfold nthZ. case_decide as Hi; [|by rewrite !decide_False by lia]. case_decide as H0; [by subst|].
  rewrite decide_True by lia. replace (Z.to_nat i) with (S (Z.to_nat (i - 1))) by lia. done.
Qed.

Lemma map_loop_spec n : ∀ s cr3 dest f proc, dir_ok s cr3 → fl_ok f → 0 <= dest → dest mod 2 ^ 12 = 0 →
  dest + Z.of_nat n * 2 ^ 12 < 2 ^ 32 →
  (∀ m, dest / 2 ^ 12 <= m < dest / 2 ^ 12 + Z.of_nat n → unmapped s cr3 m) → supply (2 * n) proc s →
  ∃ s' ps, map_loop n dest cr3 f proc s = Done (0, s') ∧ dir_ok s' cr3 ∧ grown s s' cr3 ∧
    length ps = n ∧ NoDup ps ∧
    (∀ p, p ∈ ps → p ∈ zeros s ∧ vpage p ∧ tables s' !! p = Some (replicate 1024 0) ∧ ¬ is_tab s' cr3 p ∧ p ∉ zeros s') ∧
    (∀ m, look s' cr3 m = match nthZ ps (m - dest / 2 ^ 12) with Some p => Some (inl (PA p + f)) | None => look s cr3 m end).
Proof.
  induction n as [|n IH]; intros s cr3 dest f proc Hok Hf Hd0 Hda Hdn Hun Hsup.
  { exists s, []. cbn. split_and!; try done.
    - split; [done|done|by left].
    - constructor.
    - by intros p ?%not_elem_of_nil.
    - intros m. unfold nthZ. by case_decide. }
  assert (u32 (dest + PAGE_SIZE) = dest + 2 ^ 12) as Hnx by (unfold PAGE_SIZE; rewrite u32_small; lia).
  assert ((dest + 2 ^ 12) / 2 ^ 12 = dest / 2 ^ 12 + 1) as Hdiv by (by rewrite <- (Z.div_add dest 1 (2 ^ 12)) by lia).
  replace (2 * S n)%nat with (S (S (2 * n))) in Hsup by lia.
  destruct (round_spec s cr3 dest f proc (2 * n)) as (p & s1 & Hpz & Hrun & Hok1 & Hsup1 & He1 & Hl1 & Hv & Ht & Hnt & Hnz); try done.
  { unfold word. lia. }
  { apply Hun. lia. }
  destruct (IH s1 cr3 (dest + 2 ^ 12) f proc) as (s' & ps & Hm & Hok' & He' & Hlen & Hnd & Hps & Hl'); try done; [lia|..].
  - rewrite <- Z.add_mod_idemp_l, Hda by lia. done.
  - lia.
  - intros m Hm. rewrite Hdiv in Hm. destruct (Hun m) as (w & Hw & Hw0); [lia|]. exists w. split; [|done].
    rewrite Hl1, decide_False; [done|lia].
  - destruct (ext_data _ _ _ _ He' Hnt Hnz) as (Hd1 & Hd2 & Hd3).
    exists s', (p :: ps). split; [by rewrite Hrun, Hnx|]. split; [done|]. split; [by eapply grown_trans|].
    split; [by cbn; rewrite Hlen|]. split; [|split].
    + constructor; [|done]. intros Hin. destruct (Hps p Hin) as [Hz _]. done.
    + intros q [->|Hq]%elem_of_cons.
      * split; [done|]. split; [done|]. split; [by rewrite Hd1|done].
      * destruct (Hps q Hq) as (Hz & Hrest). split; [|done]. destruct (ext_zeros _ _ _ He1) as [k ->].
        rewrite elem_of_app. by right.
    + intros m. rewrite Hl', Hl1, Hdiv, nthZ_cons. replace (m - (dest / 2 ^ 12 + 1)) with (m - dest / 2 ^ 12 - 1) by lia.
      case_decide as Hm0; case_decide as Hm1; try lia; [|done]. rewrite Hm1. by unfold nthZ; rewrite decide_False by lia.
Qed.

(** ** The mapping of an area *)

Lemma page_align x : 0 <= x <= 2 ^ 32 - 2 ^ 12 → PAGE_ALIGN x = (x + 4095) / 2 ^ 12 * 2 ^ 12.
Proof. intros Hx. unfold PAGE_ALIGN, PAGE_SIZE. rewrite land_frame by apply u32_range. rewrite u32_small by lia. do 2 f_equal. lia. Qed.

(** The pages that an area has bytes in, unless it is a number of pages long and starts within one. *)
Lemma nr_pages_covers va size : 0 <= va → 0 < size <= 2 ^ 32 - 2 ^ 12 → (size mod 2 ^ 12 ≠ 0 ∨ va mod 2 ^ 12 = 0) →
  nr_pages va size = (va + size - 1) / 2 ^ 12 - va / 2 ^ 12 + 1.
Proof.
  intros Hva Hsz Hal. unfold nr_pages. rewrite land_low, page_align, Z.shiftr_div_pow2, Z.div_mul by lia.
  change PAGE_SIZE with (2 ^ 12).
  pose proof (Z.div_mod va (2 ^ 12)). pose proof (Z.div_mod size (2 ^ 12)).
  pose proof (Z.mod_pos_bound va (2 ^ 12)). pose proof (Z.mod_pos_bound size (2 ^ 12)).
  set (v := va / 2 ^ 12) in *. set (r := va mod 2 ^ 12) in *. set (q := size / 2 ^ 12) in *. set (t := size mod 2 ^ 12) in *.
  destruct (Z.ltb_spec (2 ^ 12) (r + t)).
  - rewrite <- (Z.div_unique_pos (size + 4095) (2 ^ 12) (q + 1) (t - 1)) by lia.
    rewrite <- (Z.div_unique_pos (va + size - 1) (2 ^ 12) (v + q + 1) (r + t - 1 - 2 ^ 12)); lia.
  - destruct (decide (t = 0)) as [Ht|Ht].
    + rewrite <- (Z.div_unique_pos (size + 4095) (2 ^ 12) q 4095) by lia.
      rewrite <- (Z.div_unique_pos (va + size - 1) (2 ^ 12) (v + q - 1) 4095); lia.
    + rewrite <- (Z.div_unique_pos (size + 4095) (2 ^ 12) (q + 1) (t - 1)) by lia.
      rewrite <- (Z.div_unique_pos (va + size - 1) (2 ^ 12) (v + q) (r + t - 1)); lia.
Qed.

(** The flags of the pages of an area. *)
Definition page_flags (va flag : Z) : Z :=
  if va <? PAGE_OFFSET then Z.lor (Z.lor flag PAGE_PRE) PAGE_USR else Z.lor flag PAGE_PRE.

Lemma page_flags_ok va flag : 0 <= flag < 2 ^ 12 → Z.testbit flag 7 = false → fl_ok (page_flags va flag).
Proof.
  intros Hf H7. unfold page_flags, PAGE_PRE, PAGE_USR. assert (0 <= Z.lor flag 1 < 2 ^ 12) by (apply lor_bound; lia).
  case_match; (split; [try apply lor_bound; lia|]); rewrite !Z.lor_spec, H7; split; try done; by rewrite ?orb_true_r.
Qed.

Lemma translate_mapped s cr3 a p f : dir_ok s cr3 → 0 <= a < 2 ^ 32 → vpage p → fl_ok f →
  look s cr3 (a / 2 ^ 12) = Some (inl (PA p + f)) → translate s cr3 a = Some (PA p + a mod 2 ^ 12).
Proof.
  intros Hok Ha Hp (Hf & H0 & _) Hl. destruct (PA_page p Hp) as [_ Hm]. rewrite translate_look, Hl by done.
  by rewrite flags_bit, H0, div_flags by (done || lia).
Qed.

(** Frames tell the pages and the offsets apart. *)
Lemma frame_inj p q x y : vpage p → vpage q → 0 <= x < 2 ^ 12 → 0 <= y < 2 ^ 12 → PA p + x = PA q + y → p = q ∧ x = y.
Proof.
  intros Hp Hq Hx Hy He. destruct (PA_page p Hp) as [_ Hpm], (PA_page q Hq) as [_ Hqm].
  assert (x = y) as ->.
  { rewrite <- (Z.mod_small x (2 ^ 12)), <- (Z.mod_small y (2 ^ 12)) by lia.
    rewrite <- (Z.add_0_l x), <- (Z.add_0_l y), <- Hpm at 1. rewrite Z.add_mod_idemp_l, He by lia.
    rewrite <- Hqm at 1. by rewrite Z.add_mod_idemp_l by lia. }
  split; [|done]. destruct Hp as [Hp _], Hq as [Hq _]. unfold PA, PAGE_OFFSET in *. rewrite !u32_small in He by lia. lia.
Qed.

Lemma nthZ_elem {A} (l : list A) i x : nthZ l i = Some x → x ∈ l.
Proof. unfold nthZ. case_decide; [|done]. apply list_elem_of_lookup_2. Qed.

Lemma nthZ_inj {A} (l : list A) i j x : NoDup l → nthZ l i = Some x → nthZ l j = Some x → i = j.
Proof.
  unfold nthZ. intros Hnd Hi Hj. repeat case_decide; try done. pose proof (NoDup_lookup _ _ _ _ Hnd Hi Hj). lia.
Qed.

(** C36: [map_pages] over an area below 4G - 4K whose pages are unmapped, with flags of 12 bits without [PAGE_PSE], when the allocator has two
    empty pages for every page of the area and, for a process, its list of areas as many free places ([supply]), and the directory is well formed: it returns 0 and maps every
    byte of the area, unless the area is a number of whole pages long and starts within a page (then [nr_pages_short]): each page gets a frame of
    its own, which was an empty page, is all zeros and is no page table; the addresses of
    other pages translate as before, and the directory stays well formed.  ([map_page_no_memory] is what happens without memory.) *)
Theorem map_pages_maps s va size flag proc_cr3 cur :
  let cr3 := default cur proc_cr3 in
  dir_ok s cr3 → 0 <= va → 0 < size → va + size < 2 ^ 32 - 2 ^ 12 →
  (size mod 2 ^ 12 ≠ 0 ∨ va mod 2 ^ 12 = 0) → 0 <= flag < 2 ^ 12 → Z.testbit flag 7 = false →
  (∀ n, va / 2 ^ 12 <= n <= (va + size - 1) / 2 ^ 12 → unmapped s cr3 n) →
  supply (2 * Z.to_nat (nr_pages va size)) (bool_decide (is_Some proc_cr3)) s →
  ∃ s', map_pages va size flag proc_cr3 cur s = Done (0, s') ∧ dir_ok s' cr3 ∧
    (∀ a, va <= a < va + size → ∃ p, p ∈ zeros s ∧ tables s' !! p = Some (replicate 1024 0) ∧ ¬ is_tab s' cr3 p ∧
       translate s' cr3 a = Some (PA p + a mod 2 ^ 12)) ∧
    (∀ a b, va <= a < va + size → va <= b < va + size → translate s' cr3 a = translate s' cr3 b → a = b) ∧
    (∀ a, 0 <= a < 2 ^ 32 → ¬ va / 2 ^ 12 <= a / 2 ^ 12 <= (va + size - 1) / 2 ^ 12 → translate s' cr3 a = translate s cr3 a).
Proof.
  intros cr3 Hok Hva Hsz Hend Hal Hfl H7 Hun Hsup. pose proof (nr_pages_covers va size Hva ltac:(lia) Hal) as Hnr.
  pose proof (Z.div_le_mono va (va + size - 1) (2 ^ 12)) as Hle.
  pose proof (Z.div_mod (va + size - 1) (2 ^ 12)). pose proof (Z.mod_pos_bound (va + size - 1) (2 ^ 12)).
  pose proof (Z.div_pos va (2 ^ 12)). pose proof (page_flags_ok va flag Hfl H7) as Hf.
  assert (∀ a, va <= a < va + size → va / 2 ^ 12 <= a / 2 ^ 12 <= (va + size - 1) / 2 ^ 12) as Hin.
  { intros a Ha. split; apply Z.div_le_mono; lia. }
  destruct (map_loop_spec (Z.to_nat (nr_pages va size)) s cr3 (va / 2 ^ 12 * 2 ^ 12) (page_flags va flag)
    (bool_decide (is_Some proc_cr3))) as (s' & ps & Hm & Hok' & He & Hlen & Hnd & Hps & Hl); try done.
  { lia. } { by rewrite Z.mod_mul by lia. } { lia. } { rewrite Z.div_mul by lia. intros n Hn. apply Hun. lia. }
  rewrite Z.div_mul in Hl by lia.
  assert (∀ a, va <= a < va + size → ∃ p, nthZ ps (a / 2 ^ 12 - va / 2 ^ 12) = Some p ∧ p ∈ ps ∧ vpage p ∧
    translate s' cr3 a = Some (PA p + a mod 2 ^ 12)) as Htr.
  { intros a Ha. specialize (Hin a Ha). destruct (nthZ_is_Some ps (a / 2 ^ 12 - va / 2 ^ 12)) as [p Hp]; [lia|].
    assert (p ∈ ps) as Hpin by (apply nthZ_elem in Hp; done). destruct (Hps p Hpin) as (_ & Hv & _).
    exists p. split; [done|]. split; [done|]. split; [done|]. eapply translate_mapped; try done; [lia|]. by rewrite Hl, Hp. }
  exists s'. split; [|split; [done|split; [|split]]].
  - unfold map_pages. fold cr3. rewrite land_frame by lia. unfold page_flags in Hm. by case_match.
  - intros a Ha. destruct (Htr a Ha) as (p & _ & Hpin & _ & Ht). destruct (Hps p Hpin) as (? & _ & ? & ? & _). eauto 10.
  - intros a b Ha Hb. destruct (Htr a Ha) as (p & Hp & _ & Hpv & ->), (Htr b Hb) as (q & Hq & _ & Hqv & ->).
    intros [= Heq]. apply frame_inj in Heq as [<- Hmod]; [|done|done|by apply Z.mod_pos_bound..].
    pose proof (nthZ_inj _ _ _ _ Hnd Hp Hq). pose proof (Z.div_mod a (2 ^ 12)). pose proof (Z.div_mod b (2 ^ 12)). lia.
  - intros a Ha Hout. rewrite !translate_look, Hl by done. destruct (nthZ ps _) eqn:Hp; [|done].
    apply nthZ_Some in Hp. lia.
Qed.

(** A directory with nothing in it. *)
Definition bare (cr3 : Z) (l : list Z) (v : list vm_t) : pst := mk_pst {[VA cr3 := replicate 1024 0]} l v.

Lemma bare_ent cr3 l v i e : dir_ent (bare cr3 l v) cr3 i = Some e → e = 0 ∧ 0 <= i < 1024.
Proof.
  unfold dir_ent, bare. cbn [tables]. rewrite lookup_singleton_eq. cbn [mbind option_bind]. intros H.
  pose proof (nthZ_Some _ _ _ H) as Hi. rewrite length_replicate in Hi. rewrite zero_get in H by lia. by injection H as <-.
Qed.

Lemma bare_ok cr3 l v : NoDup l → Forall vpage l → VA cr3 ∉ l → dir_ok (bare cr3 l v) cr3.
Proof.
  intros Hnd Hl Hn. split.
  - exists (replicate 1024 0). split; [apply lookup_singleton_eq|apply words_zero].
  - by intros i e [-> _]%bare_ent.
  - by intros i j e e' [-> _]%bare_ent.
  - done.
  - intros p Hp. split; [by eapply Forall_forall in Hl|]. apply lookup_singleton_ne. intros Hq. by rewrite <- Hq in Hp.
Qed.

Lemma bare_unmapped cr3 l v n : 0 <= n < 2 ^ 20 → unmapped (bare cr3 l v) cr3 n.
Proof.
  intros Hn. exists 0. split; [|done]. unfold look, dir_ent, bare. cbn [tables]. rewrite lookup_singleton_eq. cbn [mbind option_bind].
  rewrite zero_get; [done|]. split; [apply Z.div_pos; lia|]. apply Z.div_lt_upper_bound; lia.
Qed.

Definition page_list (p : Z) (n : nat) : list Z := (λ k, p + 4096 * Z.of_nat k) <$> seq 0 n.

Lemma map_pages_maps_witness :
  let s := bare 4096 (page_list (PAGE_OFFSET + 8192) 4) (replicate 4 (mk_vm 0 0 0)) in
  ∃ s', map_pages 134513000 4200 PAGE_RW (Some 4096) 0 s = Done (0, s') ∧ dir_ok s' 4096 ∧
    (∀ a, 134513000 <= a < 134513000 + 4200 → ∃ p, p ∈ zeros s ∧ tables s' !! p = Some (replicate 1024 0) ∧
       ¬ is_tab s' 4096 p ∧ translate s' 4096 a = Some (PA p + a mod 2 ^ 12)) ∧
    (∀ a b, 134513000 <= a < 134513000 + 4200 → 134513000 <= b < 134513000 + 4200 →
       translate s' 4096 a = translate s' 4096 b → a = b) ∧
    (∀ a, 0 <= a < 2 ^ 32 → ¬ 134513000 / 2 ^ 12 <= a / 2 ^ 12 <= (134513000 + 4200 - 1) / 2 ^ 12 →
       translate s' 4096 a = translate s 4096 a).
Proof.
  intros s. apply (map_pages_maps s 134513000 4200 PAGE_RW (Some 4096) 0).
  - apply bare_ok.
    + apply (bool_decide_eq_true_1 (NoDup _)). by vm_compute.
    + apply (bool_decide_eq_true_1 (Forall (λ p, PAGE_OFFSET <= p < 2 ^ 32 ∧ p mod 2 ^ 12 = 0) _)). by vm_compute.
    + apply (bool_decide_eq_true_1 (_ ∉ _)). by vm_compute.
  - lia.
  - lia.
  - lia.
  - left. by vm_compute.
  - unfold PAGE_RW. lia.
  - done.
  - intros n Hn. apply bare_unmapped. split; [etrans; [|apply Hn]; done|].
    eapply Z.le_lt_trans; [apply Hn|done].
  - split; [|intros _]; by apply Nat.leb_le; vm_compute.
Defined.

(** ** Checks of user addresses *)

Lemma probe_for_write_spec s cr3 addr size : dir_ok s cr3 → 0 <= addr → 0 <= size → addr + size < 2 ^ 32 →
  probe_for_write addr size cr3 s =
    Done (if bool_decide (addr + size <= PAGE_OFFSET) && bool_decide (is_Some (translate s cr3 addr)) then 0 else -1).
Proof.
  intros Hok Ha Hs Hb. unfold probe_for_write. rewrite u32_small by lia.
  destruct (Z.ltb_spec PAGE_OFFSET (addr + size)); [by rewrite (bool_decide_eq_false_2 (addr + size <= _)) by lia|].
  rewrite (bool_decide_eq_true_2 (addr + size <= _)) by lia. cbn [andb].
  assert (word addr) as Hw by (unfold word; lia). rewrite pde_index, translate_look by done.
  unfold word in Hw. assert (0 <= addr / 2 ^ 22 < 1024) as Hi.
  { split; [apply Z.div_pos; lia|]. apply Z.div_lt_upper_bound; lia. }
  destruct (dir_ent_some s cr3 _ Hok Hi) as (e & He & Hwe). rewrite (rd_ent _ _ _ _ He), bind_done.
  unfold look. rewrite Z.div_div by lia. change (2 ^ 12 * 2 ^ 10) with (2 ^ 22). rewrite He. cbn [mbind option_bind].
  destruct (Z.eqb_spec e 0) as [->|_]; [done|].
  change PAGE_PRE with (2 ^ 0). rewrite <- (negb_involutive (Z.land e (2 ^ 0) =? 0)), land_pow2_testbit by done.
  destruct (Z.testbit e 0) eqn:H0; [|done]. cbn [negb].
  change PAGE_PSE with (2 ^ 7). rewrite <- (negb_involutive (Z.land e (2 ^ 7) =? 0)), land_pow2_testbit by done.
  destruct (Z.testbit e 7) eqn:H7; [done|]. cbn [negb]. rewrite tab_code, pte_index by done.
  destruct (ok_tab _ _ Hok _ e He) as (_ & t & Ht & Htw); [unfold small; by rewrite H0, H7|].
  pose proof (Z.mod_pos_bound (addr / 2 ^ 12) (2 ^ 10)).
  destruct (words_get t (addr / 2 ^ 12 mod 2 ^ 10) Htw) as (w & Hwt & _); [lia|].
  rewrite (rd_ok _ _ _ _ _ Ht Hwt), bind_done, Ht. cbn [mbind option_bind]. rewrite Hwt. cbn [mbind option_bind].
  destruct (Z.eqb_spec w 0) as [->|_]; [done|].
  rewrite <- (negb_involutive (Z.land w (2 ^ 0) =? 0)), land_pow2_testbit by done. by destruct (Z.testbit w 0).
Qed.

(** Whether an address is mapped depends on its page only. *)
Lemma translate_page s cr3 a b : dir_ok s cr3 → 0 <= a < 2 ^ 32 → 0 <= b < 2 ^ 32 → a / 2 ^ 12 = b / 2 ^ 12 →
  is_Some (translate s cr3 a) → is_Some (translate s cr3 b).
Proof.
  intros Hok Ha Hb Hab. rewrite !translate_look by done. rewrite Hab. destruct (look _ _ _) as [[w|e]|]; [|eauto..].
  destruct (Z.testbit w 0); [eauto|]. by intros [? [=]].
Qed.

Definition writable (s : pst) (cr3 a : Z) : Prop := a < PAGE_OFFSET ∧ is_Some (translate s cr3 a).

Lemma probe_pages_spec n : ∀ s cr3 addr, dir_ok s cr3 → 0 <= addr → addr mod 2 ^ 12 = 0 → addr + Z.of_nat n * 2 ^ 12 < 2 ^ 32 →
  (probe_pages n addr cr3 s = Done tt ∧ ∀ k, 0 <= k < Z.of_nat n → writable s cr3 (addr + k * 2 ^ 12)) ∨
  (probe_pages n addr cr3 s = Fail Panic ∧ ∃ k, 0 <= k < Z.of_nat n ∧ ¬ writable s cr3 (addr + k * 2 ^ 12)).
Proof.
  induction n as [|n IH]; intros s cr3 addr Hok Ha Hal Hn; [left; split; [done|lia]|]. cbn [probe_pages].
  rewrite probe_for_write_spec, bind_done by (done || unfold PAGE_SIZE; lia). unfold PAGE_SIZE.
  assert (addr + 4096 <= PAGE_OFFSET ↔ addr < PAGE_OFFSET) as Hpo.
  { unfold PAGE_OFFSET. pose proof (Z.div_mod addr (2 ^ 12)). lia. }
  destruct (decide (writable s cr3 addr)) as [[H1 H2]|Hw].
  - rewrite (bool_decide_eq_true_2 (_ <= _)), (bool_decide_eq_true_2 (is_Some _)) by (done || by apply Hpo).
    cbn [andb Z.ltb Z.compare]. rewrite u32_small by lia.
    destruct (IH s cr3 (addr + 4096) Hok) as [[-> Hk]|[-> (k & Hk & Hk')]]; [lia| |lia|left|right].
    + rewrite <- Z.add_mod_idemp_l, Hal by lia. done.
    + split; [done|]. intros k Hk'. destruct (decide (k = 0)) as [->|]; [by rewrite Z.add_0_r|].
      replace (addr + k * 2 ^ 12) with (addr + 4096 + (k - 1) * 2 ^ 12) by lia. apply Hk. lia.
    + split; [done|]. exists (k + 1). split; [lia|].
      by replace (addr + (k + 1) * 2 ^ 12) with (addr + 4096 + k * 2 ^ 12) by lia.
  - right. split; [|exists 0; split; [lia|by rewrite Z.add_0_r]].
    destruct (decide (addr < PAGE_OFFSET)).
    + rewrite (bool_decide_eq_false_2 (is_Some _)) by (by intros ?; apply Hw). by rewrite andb_false_r.
    + by rewrite (bool_decide_eq_false_2 (_ <= _)) by (rewrite Hpo; lia).
Qed.

(** ** The copy *)

Section copied.
Context (s : pst) (cr3 : Z).
Implicit Types m : Z → Z.
(** The physical address. *)
Definition phys (a : Z) : Z := default 0 (translate s cr3 a).
(** [n] bytes that are mapped. *)
Definition mapped (a n : Z) : Prop := a + n < 2 ^ 32 ∧ ∀ i, 0 <= i < n → is_Some (translate s cr3 (a + i)).

Lemma mapped_drop a n k : 0 <= k <= n → mapped a n → mapped (a + k) (n - k).
Proof. intros Hk [Hb Hm]. split; [lia|]. intros i Hi. rewrite <- Z.add_assoc. apply Hm. lia. Qed.
Lemma mapped_first a n : 0 < n → mapped a n → translate s cr3 a = Some (phys a).
Proof. intros Hn [_ Hm]. destruct (Hm 0 ltac:(lia)) as [p Hp]. rewrite Z.add_0_r in Hp. unfold phys. by rewrite Hp. Qed.

Lemma cpu_rd_spec n a m : 0 <= a → mapped a (Z.of_nat n) → cpu_rd n a cr3 s m = Done (map (λ i, m (phys (a + i))) (seqZ 0 (Z.of_nat n))).
Proof.
  revert a. induction n as [|n IH]; intros a Ha Hm; [done|]. cbn [cpu_rd]. rewrite (mapped_first a (Z.of_nat (Datatypes.S n)) ltac:(lia) Hm). cbn [deref]. rewrite bind_done.
  pose proof Hm as [Hb _]. rewrite u32_small, IH, bind_done by (lia || (replace (Z.of_nat n) with (Z.of_nat (Datatypes.S n) - 1) by lia; apply mapped_drop; [lia|done])).
  rewrite (seqZ_cons 0 (Z.of_nat (Datatypes.S n))) by lia. cbn [map]. rewrite Z.add_0_r. do 2 f_equal. replace (Z.pred (Z.of_nat (Datatypes.S n))) with (Z.of_nat n) by lia.
  change (Z.succ 0) with (1 + 0). rewrite <- (fmap_add_seqZ 1 0). rewrite <- list_fmap_compose. apply map_ext. intros i. cbn. by rewrite Z.add_assoc.
Qed.

(** Distinct addresses, distinct bytes. *)
Definition apart (a n : Z) : Prop := ∀ i j, 0 <= i < n → 0 <= j < n → phys (a + i) = phys (a + j) → i = j.
Lemma apart_drop a n k : 0 <= k <= n → apart a n → apart (a + k) (n - k).
Proof. intros Hk Hp i j Hi Hj E. rewrite <- !Z.add_assoc in E. apply Hp in E; lia. Qed.
Lemma apart_take a n k : 0 <= k <= n → apart a n → apart a k.
Proof. intros Hk Hp i j Hi Hj E. apply Hp in E; lia. Qed.

Lemma cpu_wr_spec l : ∀ a m, 0 <= a → mapped a (Z.of_nat (length l)) → apart a (Z.of_nat (length l)) →
  ∃ m', cpu_wr l a cr3 s m = Done m' ∧ (∀ (i : nat) b, l !! i = Some b → m' (phys (a + Z.of_nat i)) = b) ∧
    ∀ q, (∀ i, 0 <= i < Z.of_nat (length l) → q ≠ phys (a + i)) → m' q = m q.
Proof.
  induction l as [|b l IH]; intros a m Ha Hm Hp; [by exists m|]. cbn [cpu_wr length] in *. rewrite (mapped_first a (Z.of_nat (Datatypes.S (length l))) ltac:(lia) Hm). cbn [deref]. rewrite bind_done.
  pose proof Hm as [Hb _]. rewrite u32_small by lia. assert (Hl : Z.of_nat (length l) = Z.of_nat (Datatypes.S (length l)) - 1) by lia.
  destruct (IH (a + 1) (λ q, if q =? phys a then b else m q)) as (m' & -> & Hin & Hout); [lia|rewrite Hl; apply mapped_drop; [lia|done]|rewrite Hl; apply apart_drop; [lia|done]|].
  exists m'. split; [done|]. split.
  - intros [|i] c Hi; cbn in Hi.
    + injection Hi as <-. rewrite Hout; [by rewrite Z.add_0_r, Z.eqb_refl|]. intros j Hj E. rewrite <- Z.add_assoc in E. apply Hp in E; lia.
    + rewrite <- (Hin i c Hi). do 2 f_equal. lia.
  - intros q Hq. rewrite Hout.
    + rewrite (proj2 (Z.eqb_neq q _)); [done|]. specialize (Hq 0 ltac:(lia)). by rewrite Z.add_0_r in Hq.
    + intros i Hi. rewrite <- Z.add_assoc. apply Hq. lia.
Qed.

(** The destination has what the source had, and nothing else has changed. *)
Definition copied (d src n : Z) m m' : Prop :=
  (∀ i, 0 <= i < n → m' (phys (d + i)) = m (phys (src + i))) ∧ ∀ q, (∀ i, 0 <= i < n → q ≠ phys (d + i)) → m' q = m q.

Lemma cpu_moves_spec ws : ∀ d src m, let n := Z.of_nat (sum_list ws) in 0 <= d → 0 <= src → mapped d n → mapped src n → apart d n →
  (∀ i j, 0 <= i < n → 0 <= j < n → phys (src + i) ≠ phys (d + j)) → ∃ m', cpu_moves ws d src cr3 s m = Done m' ∧ copied d src n m m'.
Proof.
  induction ws as [|w ws IH]; intros d src m n Hd Hs Hmd Hms Hap Hdis; [exists m; split; [done|]; split; [intros i Hi; unfold n in Hi; cbn in Hi; lia|done]|]. cbn [cpu_moves].
  set (k := Z.of_nat w). assert (Hn : n - k = Z.of_nat (sum_list ws)) by (unfold n, k; cbn; unfold id; lia).
  assert (Hk : 0 <= k <= n) by lia. assert (Htake : ∀ a, mapped a n → mapped a k) by (intros a [? Hm]; split; [lia|intros; apply Hm; lia]).
  rewrite cpu_rd_spec, bind_done by auto. set (l := map _ _).
  assert (Hll : Z.of_nat (length l) = k) by (unfold l; rewrite length_map, length_seqZ; lia).
  destruct (cpu_wr_spec l d m) as (m1 & -> & Hin & Hout); [done|rewrite Hll; auto|rewrite Hll; by eapply apart_take|]. rewrite bind_done. rewrite Hll in Hout.
  pose proof Hmd as [Hbd _]. pose proof Hms as [Hbs _]. rewrite !u32_small by lia.
  destruct (IH (d + k) (src + k) m1) as (m' & -> & Hc & Ho); try (rewrite <- Hn; first [by apply mapped_drop|by apply apart_drop|idtac]); [lia|lia| |].
  { intros i j Hi Hj. rewrite <- !Z.add_assoc. apply Hdis; lia. }
  rewrite <- Hn in Hc, Ho. exists m'. split; [done|]. split.
  - intros i Hi. destruct (decide (i < k)).
    + rewrite Ho; [|intros j Hj E; rewrite <- Z.add_assoc in E; apply Hap in E; lia]. replace i with (Z.of_nat (Z.to_nat i)) at 1 by lia. apply Hin.
      unfold l. rewrite list_lookup_fmap, lookup_seqZ_lt by lia. cbn. do 3 f_equal. lia.
    + specialize (Hc (i - k) ltac:(lia)). rewrite <- !Z.add_assoc in Hc. replace (k + (i - k)) with i in Hc by lia. rewrite Hc. apply Hout. intros j Hj. apply Hdis; lia.
  - intros q Hq. rewrite Ho, Hout; [done| |]; intros i Hi; [apply Hq; lia|]. rewrite <- Z.add_assoc. apply Hq. lia.
Qed.

Lemma copy_widths_sum d size : 0 <= size → Z.of_nat (sum_list (copy_widths d size)) = size.
Proof.
  intros Hs. unfold copy_widths. destruct (Z.eqb_spec size 1) as [->|_]; [done|]. destruct (Z.eqb_spec size 2) as [->|_]; [done|]. destruct (Z.eqb_spec size 4) as [->|_]; [done|].
  destruct (Z.eqb_spec size 6) as [->|_]; [done|]. destruct (Z.eqb_spec size 8) as [->|_]; [done|]. by apply copy_moves_sum.
Qed.
End copied.

(** C37: [copy_to_user] of [size > 0] bytes to an address at the start of a page, ending below 4G - 4K, from memory that is mapped, in a well-formed page
    directory, when no two bytes of the destination are the same in the physical memory and none is one of the source.  With a null pointer it returns 0 and changes nothing.  Otherwise, when
    every byte of the destination is below the kernel's part of the address space and mapped, it returns [size], each byte of the destination is
    the source's, and no other byte of the physical memory has changed; when one is not, the kernel stops before anything is copied. *)
Theorem copy_to_user_checks s cr3 dest src size m :
  dir_ok s cr3 → 0 <= dest → dest mod 2 ^ 12 = 0 → 0 <= src → 0 < size → dest + size < 2 ^ 32 - 2 ^ 12 → mapped s cr3 src size → apart s cr3 dest size →
  (∀ i j, 0 <= i < size → 0 <= j < size → phys s cr3 (src + i) ≠ phys s cr3 (dest + j)) →
  if (dest =? 0) || (src =? 0) then copy_to_user dest src size cr3 s m = Done (0, m) else
  (∃ m', copy_to_user dest src size cr3 s m = Done (size, m') ∧ copied s cr3 dest src size m m' ∧ ∀ a, dest <= a < dest + size → writable s cr3 a) ∨
  (copy_to_user dest src size cr3 s m = Fail Panic ∧ ∃ a, dest <= a < dest + size ∧ ¬ writable s cr3 a).
Proof.
  intros Hok Hd Hal Hsrc Hs Hb Hms Hap Hdis. unfold copy_to_user, to_user_checks. rewrite (proj2 (Z.ltb_ge size 0)), (proj2 (Z.eqb_neq size 0)) by lia.
  destruct (_ || _) eqn:E0; [done|]. apply orb_false_iff in E0 as [Ed Es]. apply Z.eqb_neq in Ed, Es.
  rewrite page_align, Z.shiftr_div_pow2, Z.div_mul by lia.
  pose proof (Z.div_mod (size + 4095) (2 ^ 12)). pose proof (Z.mod_pos_bound (size + 4095) (2 ^ 12)).
  destruct (probe_pages_spec (Z.to_nat ((size + 4095) / 2 ^ 12)) s cr3 dest Hok) as [[-> Hk]|[-> (k & Hk & Hw)]]; [lia|done|lia|left|right].
  - assert (Hall : ∀ a, dest <= a < dest + size → writable s cr3 a).
    { intros a Ha. set (k := (a - dest) / 2 ^ 12). pose proof (Z.div_mod (a - dest) (2 ^ 12)) as Hdm.
      pose proof (Z.mod_pos_bound (a - dest) (2 ^ 12)). fold k in Hdm. destruct (Hk k) as [Hlt Htr]; [lia|].
      pose proof (Z.div_mod dest (2 ^ 12)). assert ((dest + k * 2 ^ 12) / 2 ^ 12 = dest / 2 ^ 12 + k) as Hq by (by rewrite Z.div_add by lia).
      assert (a / 2 ^ 12 = dest / 2 ^ 12 + k) as Hqa by (symmetry; apply (Z.div_unique_pos _ _ _ ((a - dest) mod 2 ^ 12)); lia).
      split; [unfold PAGE_OFFSET in *; lia|]. eapply translate_page; [..|exact Htr]; [done|lia|lia|congruence]. }
    assert (Hmd : mapped s cr3 dest size) by (split; [lia|intros i Hi; apply Hall; lia]).
    pose proof (copy_widths_sum dest size ltac:(lia)) as Hsum. rewrite !bind_done.
    destruct (cpu_moves_spec s cr3 (copy_widths dest size) dest src m) as (m' & -> & Hc); rewrite ?Hsum; try done.
    rewrite Hsum in Hc. by exists m'.
  - split; [done|]. exists (dest + k * 2 ^ 12). split; [lia|done].
Qed.

(** A directory in which the first [n] pages from [0x8048000] on are mapped. *)
Definition user_pages (n : nat) : pst :=
  match map_loop n 134512640 4096 7 false (bare 4096 (page_list (PAGE_OFFSET + 8192) 4) []) with
  | Done (_, s) => s
  | Fail _ => bare 4096 [] []
  end.
Definition one_page : pst := user_pages 1.

Lemma user_pages_ok n : (n <= 2)%nat → dir_ok (user_pages n) 4096.
Proof.
  intros Hn. destruct (map_loop_spec n (bare 4096 (page_list (PAGE_OFFSET + 8192) 4) []) 4096 134512640 7 false) as (s' & ps & Hm & Hok & _).
  - apply bare_ok.
    + apply (bool_decide_eq_true_1 (NoDup _)). by vm_compute.
    + apply (bool_decide_eq_true_1 (Forall (λ p, PAGE_OFFSET <= p < 2 ^ 32 ∧ p mod 2 ^ 12 = 0) _)). by vm_compute.
    + apply (bool_decide_eq_true_1 (_ ∉ _)). by vm_compute.
  - split; [lia|by split].
  - lia.
  - done.
  - lia.
  - intros m Hm. apply bare_unmapped. change (134512640 / 2 ^ 12) with 32840 in Hm. lia.
  - split; [|done]. change (2 * n <= 4)%nat. lia.
  - unfold user_pages. by rewrite Hm.
Qed.

(** Six bytes, from the second page to the first. *)
Lemma demo_mapped : mapped (user_pages 2) 4096 134516736 6.
Proof.
  split; [lia|]. assert (Forall (λ i, is_Some (translate (user_pages 2) 4096 (134516736 + i))) (seqZ 0 6)) as HF
    by (apply (bool_decide_eq_true_1 _); by vm_compute).
  rewrite Forall_forall in HF. intros i Hi. apply HF, elem_of_seqZ. lia.
Qed.
Lemma demo_apart : apart (user_pages 2) 4096 134512640 6 ∧
  ∀ i j, 0 <= i < 6 → 0 <= j < 6 → phys (user_pages 2) 4096 (134516736 + i) ≠ phys (user_pages 2) 4096 (134512640 + j).
Proof.
  assert (Forall (λ i, Forall (λ j, (phys (user_pages 2) 4096 (134512640 + i) = phys (user_pages 2) 4096 (134512640 + j) → i = j) ∧
    phys (user_pages 2) 4096 (134516736 + i) ≠ phys (user_pages 2) 4096 (134512640 + j)) (seqZ 0 6)) (seqZ 0 6)) as HF
    by (apply (bool_decide_eq_true_1 _); by vm_compute).
  rewrite Forall_forall in HF. split; intros i j Hi Hj; specialize (HF i ltac:(apply elem_of_seqZ; lia)); rewrite Forall_forall in HF; apply HF, elem_of_seqZ; lia.
Qed.

Lemma copy_to_user_checks_witness : let m := λ a, a mod 251 in
  (∃ m', copy_to_user 134512640 134516736 6 4096 (user_pages 2) m = Done (6, m') ∧ copied (user_pages 2) 4096 134512640 134516736 6 m m' ∧
    ∀ a, 134512640 <= a < 134512640 + 6 → writable (user_pages 2) 4096 a) ∨
  (copy_to_user 134512640 134516736 6 4096 (user_pages 2) m = Fail Panic ∧
    ∃ a, 134512640 <= a < 134512640 + 6 ∧ ¬ writable (user_pages 2) 4096 a).
Proof.
  intros m. apply (copy_to_user_checks (user_pages 2) 4096 134512640 134516736 6 m);
    [by apply user_pages_ok|lia|done|lia|lia|lia|apply demo_mapped|apply demo_apart|apply demo_apart].
Defined.

(** The first disjunct of it: the pages are there. *)
Lemma copy_to_user_done : ('(ret, m) ← copy_to_user 134512640 134516736 6 4096 (user_pages 2) (λ a, a mod 251);
    l ← cpu_rd 8 134512640 4096 (user_pages 2) m; l' ← cpu_rd 6 134516736 4096 (user_pages 2) (λ a, a mod 251); Done (ret, take 6 l, drop 6 l)) =
  (l ← cpu_rd 8 134512640 4096 (user_pages 2) (λ a, a mod 251); l' ← cpu_rd 6 134516736 4096 (user_pages 2) (λ a, a mod 251); Done (6, l', drop 6 l)).
Proof. by vm_compute. Qed.

(** ** The mapping the kernel starts with *)

Definition huge (i : Z) : Z := Z.lor ((i - 768) * 2 ^ 22) (PAGE_PRE + PAGE_RW + PAGE_PSE + PAGE_GLOBAL).

Lemma init_loop_spec n : ∀ pgd mem dir, 768 <= pgd <= 1024 → 1024 - pgd < Z.of_nat n → length dir = 1024%nat →
  let '(top, dir') := init_loop n pgd ((pgd - 768) * 2 ^ 22) mem dir in
  pgd <= top <= 1024 ∧ (top = 1024 ∨ mem <= (top - 768) * 2 ^ 22) ∧
  ∀ i, nthZ dir' i = if decide (pgd <= i < top) then Some (huge i) else nthZ dir i.
Proof.
  induction n as [|n IH]; intros pgd mem dir Hp Hn Hl; [lia|]. cbn [init_loop].
  destruct (Z.ltb_spec pgd 1024), (Z.ltb_spec ((pgd - 768) * 2 ^ 22) mem); cbn [andb];
    [|split; [lia|split; [lia|intros i; by rewrite decide_False by lia]]..].
  replace (u32 ((pgd - 768) * 2 ^ 22 + 4194304)) with ((pgd + 1 - 768) * 2 ^ 22) by (rewrite u32_small; lia).
  fold (huge pgd). specialize (IH (pgd + 1) mem (updZ dir pgd (huge pgd))).
  destruct (init_loop n _ _ _ _) as [top dir']. destruct IH as (Ht & Hm & Hi); [lia|lia|by rewrite updZ_length|].
  split; [lia|]. split; [done|]. intros i. rewrite Hi. destruct (decide (i = pgd)) as [->|Hne].
  - rewrite decide_False, decide_True by lia. apply nthZ_upd_eq. lia.
  - rewrite nthZ_upd_ne by done. by repeat case_decide; try lia.
Qed.

Lemma huge_bits i : Z.testbit (huge i) 0 = true ∧ Z.testbit (huge i) 7 = true ∧ huge i / 2 ^ 22 * 2 ^ 22 = (i - 768) * 2 ^ 22.
Proof.
  unfold huge, PAGE_PRE, PAGE_RW, PAGE_PSE, PAGE_GLOBAL. change (1 + 2 + 128 + 256) with 387.
  rewrite !Z.lor_spec. change (Z.testbit 387 0) with true. change (Z.testbit 387 7) with true.
  split; [apply orb_true_r|]. split; [apply orb_true_r|].
  f_equal. rewrite <- !Z.shiftr_div_pow2, Z.shiftr_lor by lia. rewrite Z.shiftr_div_pow2, Z.div_mul by lia.
  change (Z.shiftr 387 22) with 0. apply Z.lor_0_r.
Qed.

(** An address under a big page of the directory. *)
Lemma translate_huge s cr3 dir va i : tables s !! VA cr3 = Some dir → 768 <= i →
  nthZ dir (va / 2 ^ 22) = Some (huge i) → 
  translate s cr3 va = Some ((i - 768) * 2 ^ 22 + va mod 2 ^ 22).
Proof.
  intros Hd Hi Hn. destruct (huge_bits i) as (H0 & H7 & Hq). unfold translate. rewrite Hd. cbn [mbind option_bind].
  rewrite Hn. cbn [mbind option_bind]. by rewrite H0, H7, Hq.
Qed.

(** The directory of [paging_init] maps the physical memory, up to one gigabyte of it,
    from [__PAGE_OFFSET] upwards, so that [VA] and [PA] are what the processor does, and the
    first four megabytes at their physical addresses, too. *)
Theorem paging_init_direct kb pa : 0 < kb → kb * 1024 < 2 ^ 32 → 0 <= pa < kb * 1024 → pa < 2 ^ 30 →
  let s := mk_pst {[VA 0 := (paging_init kb).2]} [] [] in
  translate s 0 (VA pa) = Some pa ∧ PA (VA pa) = pa ∧ (pa < 2 ^ 22 → translate s 0 pa = Some pa).
Proof.
  intros Hk Hkb Hpa Hp s. assert (VA pa = pa + PAGE_OFFSET) as Hva by (unfold VA, PAGE_OFFSET; rewrite u32_small; lia).
  pose proof (init_loop_spec 257 768 (kb * 1024) (replicate 1024 0)) as Hi. unfold s, paging_init.
  change (Z.shiftr PAGE_OFFSET 22) with 768. rewrite (u32_small (kb * 1024)) by lia.
  change ((768 - 768) * 2 ^ 22) with 0 in Hi.
  destruct (init_loop 257 768 0 _ _) as [top dir] eqn:Hd. destruct Hi as (Ht & Htop & Hi); [lia|lia|apply length_replicate|]. cbn [snd].
  pose proof (Z.div_mod pa (2 ^ 22)). pose proof (Z.mod_pos_bound pa (2 ^ 22)). pose proof (Z.div_pos pa (2 ^ 22)).
  set (j := pa / 2 ^ 22) in *. set (dir' := updZ dir 0 _).
  assert (nthZ dir 768 = Some (huge 768)) as H768 by (rewrite Hi, decide_True; [done|lia]).
  assert (nthZ dir' 0 = Some (huge 768)) as Hd0.
  { unfold dir'. rewrite H768. apply nthZ_upd_eq. apply nthZ_Some in H768. lia. }
  assert (nthZ dir' (768 + j) = Some (huge (768 + j))) as Hj.
  { unfold dir'. rewrite nthZ_upd_ne, Hi, decide_True by lia. done. }
  split; [|split].
  - assert ((pa + PAGE_OFFSET) / 2 ^ 22 = 768 + j ∧ (pa + PAGE_OFFSET) mod 2 ^ 22 = pa mod 2 ^ 22) as [Hq Hr].
    { replace (pa + PAGE_OFFSET) with (pa + 768 * 2 ^ 22) by (unfold PAGE_OFFSET; lia).
      split; [rewrite Z.div_add by lia; fold j; lia|by rewrite Z.mod_add by lia]. }
    rewrite Hva, (translate_huge _ 0 dir' _ (768 + j)), Hr; [f_equal; lia|apply lookup_singleton_eq|lia|by rewrite Hq].
  - rewrite Hva. unfold PA. rewrite u32_small; lia.
  - intros Hsm. rewrite (translate_huge _ 0 dir' _ 768); [rewrite Z.mod_small by lia; f_equal; lia|apply lookup_singleton_eq|lia|].
    by rewrite Z.div_small by lia.
Qed.

Lemma paging_init_direct_witness :
  let s := mk_pst {[VA 0 := (paging_init 65536).2]} [] [] in
  translate s 0 (VA 1048576) = Some 1048576 ∧ PA (VA 1048576) = 1048576 ∧
  (1048576 < 2 ^ 22 → translate s 0 1048576 = Some 1048576).
Proof. apply (paging_init_direct 65536 1048576); lia. Defined.

(** ** What the code does not do *)

(** A whole number of pages from within a page: the last page is left out. *)
Lemma nr_pages_short va size : 0 <= va → 0 < size <= 2 ^ 32 - 2 ^ 12 → size mod 2 ^ 12 = 0 → va mod 2 ^ 12 ≠ 0 →
  nr_pages va size = (va + size - 1) / 2 ^ 12 - va / 2 ^ 12.
Proof.
  intros Hva Hsz Hs Hal. unfold nr_pages. rewrite land_low, page_align, Z.shiftr_div_pow2, Z.div_mul by lia.
  change PAGE_SIZE with (2 ^ 12). rewrite Hs.
  pose proof (Z.div_mod va (2 ^ 12)). pose proof (Z.div_mod size (2 ^ 12)). pose proof (Z.mod_pos_bound va (2 ^ 12)).
  rewrite (proj2 (Z.ltb_ge _ _)) by lia. set (v := va / 2 ^ 12) in *. set (r := va mod 2 ^ 12) in *. set (q := size / 2 ^ 12) in *.
  rewrite <- (Z.div_unique_pos (size + 4095) (2 ^ 12) q 4095) by lia.
  rewrite <- (Z.div_unique_pos (va + size - 1) (2 ^ 12) (v + q) (r - 1)); lia.
Qed.

(** The sum of address and size wraps: the kernel's own pages are taken for the user's. *)
Lemma probe_wraps : probe_for_read (2 ^ 32 - 4096) 8192 = 0.
Proof. reflexivity. Qed.

(** Only the pages that the size alone would need are checked: the second one of this copy is not there. *)
Lemma copy_misses_a_page m :
  to_user_checks (134512640 + 4092) 134512640 8 4096 one_page = Done (8, 8) ∧ translate one_page 4096 (134512640 + 4096) = None ∧
  copy_to_user (134512640 + 4092) 134512640 8 4096 one_page m = Fail BadPtr.
Proof. by vm_compute. Qed.

(** A null pointer is no error. *)
Lemma copy_null size cr3 s m : 0 <= size → copy_from_user 0 1 size cr3 s m = Done (0, m).
Proof. intros Hs. unfold copy_from_user, from_user_checks. rewrite (proj2 (Z.ltb_ge _ _)) by lia. by destruct (size =? 0). Qed.

(** Giving memory back asks for the rest of the address space. *)
Lemma sbrk_negative : sbrk_pages 134520832 (- 4096) = 2 ^ 20 - 1.
Proof. reflexivity. Qed.

(** Without a page for the table the word goes to address 0. *)
Lemma map_page_no_memory : map_page 134512640 0 4096 7 false (bare 4096 [] []) = Fail BadPtr.
Proof. by vm_compute. Qed.

(** No area has the flag: the element behind the list is returned. *)
Lemma vm_search_none l flag s : vm_page s = l → Forall (λ x, Z.land (vm_flag x) flag = 0) l →
  vm_search_flag flag s = Z.of_nat (length l).
Proof.
  intros <-. unfold vm_search_flag. induction 1 as [|x l Hx _ IH]; [done|]. cbn [vm_search length]. rewrite Hx, IH. cbn. lia.
Qed.
