(* ===== verification/Checksum.v ===== *)
(** * The Internet checksum ([Kernel/netinet/check_sum.c])

    [in_cksum] sums the 16-bit words of the first [len] bytes of an mbuf chain.  An mbuf
    is the address of its data ([m_data]; only its parity matters) and its bytes
    ([m_len] of them): a word read past them is a fault.  The sum is a 32-bit [int];
    the words are little endian; a word may straddle two mbufs, and data that begins at
    an odd address is summed shifted by eight bits. *)

From S2P Require Import Prelude.

(** ** The code *)

Record mbuf : Type := mk_mbuf { m_data : Z; m_bytes : list Z }.
Definition m_len (m : mbuf) : Z := Z.of_nat (length (m_bytes m)).

(** [*(u8 * )w] and [*w] at offset [w] of the data. *)
Definition byte_at (m : mbuf) (w : Z) : outcome Z := deref (nthZ (m_bytes m) w).
Definition word_at (m : mbuf) (w : Z) : outcome Z :=
  b0 ← byte_at m w; b1 ← byte_at m (w + 1); Done (b0 + 256 * b1).

(** [REDUCE]: the two halves of [sum], [ADDCARRY] included. *)
Definition REDUCE (sum : Z) : Z :=
  let l := u32 sum in
  let s := s32 (l mod 2 ^ 16 + l / 2 ^ 16) in
  if 65535 <? s then s - 65535 else s.

(** [n] times [sum += *w++]. *)
Fixpoint add_words (n : nat) (m : mbuf) (w sum : Z) : outcome (Z * Z) :=
  match n with
  | O => Done (w, sum)
  | S n => x ← word_at m w; add_words n m (w + 2) (s32 (sum + x))
  end.

(** [while ((mlen -= 2 * k) >= 0) { sum += k words }]: offset, sum and [mlen] after
    the loop. *)
Fixpoint block_loop (fuel : nat) (k : nat) (m : mbuf) (w sum mlen : Z) : outcome (Z * Z * Z) :=
  match fuel with
  | O => Fail Diverge
  | S fuel =>
      let mlen := s32 (mlen - 2 * Z.of_nat k) in
      if 0 <=? mlen then
        '(w, sum) ← add_words k m w sum;
        block_loop fuel k m w sum mlen
      else Done (w, sum, mlen)
  end.
Definition words_loop (k : nat) (m : mbuf) (w sum mlen : Z) : outcome (Z * Z * Z) :=
  block_loop (S (Z.to_nat mlen)) k m w sum mlen.

(** The variables of the loop over the chain; [c0] is [s_util.c[0]] ([s_util.c[1]] is
    written just before it is read). *)
Record ckst : Type := mk_ck { sum : Z; mlen : Z; c0 : Z; len : Z }.

(** The body for one mbuf with data, from the test of the address on: [w] is the offset
    reached in the data. *)
Definition cksum_body (m : mbuf) (w sum mlen c0 len : Z) : outcome ckst :=
  '(w, sum, mlen, c0, byte_swapped) ←
    (if negb (Z.land 1 (m_data m + w) =? 0) && (0 <? mlen) then
       b ← byte_at m w;
       Done (w + 1, s32 (REDUCE sum * 2 ^ 8), s32 (mlen - 1), b, true)
     else Done (w, sum, mlen, c0, false));
  '(w, sum, mlen) ← words_loop 16 m w sum mlen;
  let mlen := s32 (mlen + 32) in
  '(w, sum, mlen) ← words_loop 4 m w sum mlen;
  let mlen := s32 (mlen + 8) in
  if (mlen =? 0) && negb byte_swapped then Done (mk_ck sum mlen c0 len) else
  '(w, sum, mlen) ← words_loop 1 m w (REDUCE sum) mlen;
  if (byte_swapped : bool) then
    let sum := s32 (REDUCE sum * 2 ^ 8) in
    if mlen =? -1 then
      c1 ← byte_at m w;
      Done (mk_ck (s32 (sum + (c0 + 256 * c1))) 0 c0 len)
    else Done (mk_ck sum (-1) c0 len)
  else if mlen =? -1 then
    b ← byte_at m w; Done (mk_ck sum mlen b len)
  else Done (mk_ck sum mlen c0 len).

Definition cksum_mbuf (m : mbuf) (st : ckst) : outcome ckst :=
  '(w, sum, mlen, len) ←
    (if mlen st =? -1 then
       c1 ← byte_at m 0;
       Done (1, s32 (sum st + (c0 st + 256 * c1)), s32 (m_len m - 1), s32 (len st - 1))
     else Done (0, sum st, m_len m, len st));
  let mlen := if len <? mlen then len else mlen in
  cksum_body m w sum mlen (c0 st) (s32 (len - mlen)).

(** [for (; m && len; m = m->m_next)] *)
Fixpoint cksum_loop (ms : list mbuf) (st : ckst) : outcome ckst :=
  match ms with
  | [] => Done st
  | m :: ms =>
      if len st =? 0 then Done st
      else if m_len m =? 0 then cksum_loop ms st
      else st ← cksum_mbuf m st; cksum_loop ms st
  end.

Definition in_cksum (ms : list mbuf) (len0 : Z) : outcome Z :=
  st ← cksum_loop ms (mk_ck 0 0 0 len0);
  _ ← assert_ (len st =? 0);  (* [panic("chsum: out of data")] *)
  let s := if mlen st =? -1 then s32 (sum st + c0 st) else sum st in
  Done (Z.land (Z.lnot (REDUCE s)) 65535).

(** ** The reference (RFC 1071)

    The one's complement sum, with end-around carry, of the 16-bit little endian words
    of the bytes, the last one padded with a zero byte; the checksum is its
    complement. *)
Definition oc_add (a b : Z) : Z := if 65535 <? a + b then a + b - 65535 else a + b.
Fixpoint words (bs : list Z) : list Z :=
  match bs with
  | [] => []
  | [b] => [b]
  | b0 :: b1 :: bs => (b0 + 256 * b1) :: words bs
  end.
Definition rfc1071 (bs : list Z) : Z := 65535 - foldl oc_add 0 (words bs).

Definition is_byte (b : Z) : Prop := 0 <= b < 256.
Definition chain_bytes (ms : list mbuf) : list Z := flat_map m_bytes ms.

(** ** Sums modulo 65535 *)

(** The weighted sum of the bytes: odd positions count 256 times. *)
Fixpoint wsum (bs : list Z) : Z :=
  match bs with [] => 0 | b :: bs => b + 256 * wsum bs end.

(** Two sums stand for the same one's complement number: they agree modulo 65535, and
    only zero stands for (positive) zero. *)
Definition oc_eq (s x : Z) : Prop := 0 <= s ∧ 0 <= x ∧ s mod 65535 = x mod 65535 ∧ (s = 0 ↔ x = 0).

#[export] Instance oc_eq_sym : Symmetric oc_eq.
Proof. unfold oc_eq. intros x y (? & ? & ? & ?). by split_and!. Qed.
#[export] Instance oc_eq_trans : Transitive oc_eq.
Proof. unfold oc_eq. intros x y z (? & ? & ? & Hx) (? & ? & ? & Hy). split_and!; try done; [congruence|]. by rewrite Hx. Qed.

Lemma oc_eq_refl s : 0 <= s → oc_eq s s.
Proof. intros. by split_and!. Qed.

Lemma oc_eq_add s x t y : oc_eq s x → oc_eq t y → oc_eq (s + t) (x + y).
Proof.
  intros (? & ? & Es & Hs) (? & ? & Et & Ht). split; [lia|]. split; [lia|]. split; [|lia].
  rewrite Zplus_mod, Es, Et, <- Zplus_mod. done.
Qed.

Lemma oc_eq_mul s x k : 0 < k → oc_eq s x → oc_eq (k * s) (k * x).
Proof.
  intros Hk (? & ? & Es & Hs). split; [lia|]. split; [lia|]. split; [|nia].
  rewrite Zmult_mod, Es, <- Zmult_mod. done.
Qed.

(** Two byte shifts are the identity. *)
Lemma oc_eq_swap2 x : 0 <= x → oc_eq (256 * (256 * x)) x.
Proof.
  intros. split; [lia|]. split; [lia|]. split; [|lia].
  replace (256 * (256 * x)) with (x + x * 65535) by lia. apply Z_mod_plus_full.
Qed.

Lemma oc_eq_pow x (n : nat) : 0 <= x → Nat.even n = true → oc_eq (256 ^ Z.of_nat n * x) x.
Proof.
  intros Hx [k ->]%Nat.even_spec. induction k as [|k IH].
  - change (256 ^ Z.of_nat (2 * 0) * x) with (1 * x). rewrite Z.mul_1_l. by apply oc_eq_refl.
  - replace (Z.of_nat (2 * S k)) with (2 + Z.of_nat (2 * k)) by lia. rewrite Z.pow_add_r by lia.
    transitivity (256 ^ Z.of_nat (2 * k) * x); [|done].
    replace (256 ^ 2 * 256 ^ Z.of_nat (2 * k) * x) with (256 * (256 * (256 ^ Z.of_nat (2 * k) * x))) by lia.
    apply oc_eq_swap2. apply Z.mul_nonneg_nonneg; [apply Z.pow_nonneg|]; lia.
Qed.

(** The representative between 0 and 65535. *)
Lemma oc_eq_unique s x : oc_eq s x → s <= 65535 → x <= 65535 → s = x.
Proof.
  intros (? & ? & Hm & Hz) ? ?. destruct (decide (s = 65535)) as [->|], (decide (x = 65535)) as [->|]; try done.
  - rewrite Z_mod_same_full, Z.mod_small in Hm by lia. lia.
  - rewrite Z_mod_same_full, Z.mod_small in Hm by lia. lia.
  - by rewrite !Z.mod_small in Hm by lia.
Qed.

Lemma REDUCE_spec s : 0 <= s < 2 ^ 31 → oc_eq (REDUCE s) s ∧ 0 <= REDUCE s <= 65535.
Proof.
  intros Hs. unfold REDUCE. rewrite (u32_small s) by lia.
  pose proof (Z.mod_pos_bound s (2 ^ 16) ltac:(lia)). pose proof (Z_div_mod_eq_full s (2 ^ 16)) as Hdm.
  assert (0 <= s / 2 ^ 16 <= 2 ^ 15 - 1) by lia. rewrite (s32_small (_ + _)) by lia.
  set (h := s / 2 ^ 16) in *. set (l := s mod 2 ^ 16) in *. unfold oc_eq.
  assert (Hc : (l + h) mod 65535 = s mod 65535).
  { rewrite Hdm. replace (2 ^ 16 * h + l) with (l + h + h * 65535) by lia. by rewrite Z_mod_plus_full. }
  destruct (Z.ltb_spec 65535 (l + h)); [|lia].
  split; [|lia]. split; [lia|]. split; [lia|]. split; [|lia].
  rewrite <- Hc. replace (l + h) with (l + h - 65535 + 1 * 65535) at 2 by lia. by rewrite Z_mod_plus_full.
Qed.

(** ** The reference as a weighted sum *)

Lemma wsum_app xs ys : wsum (xs ++ ys) = wsum xs + 256 ^ Z.of_nat (length xs) * wsum ys.
Proof.
  induction xs as [|x xs IH]; [cbn; lia|]. cbn [wsum app length]. rewrite IH.
  replace (Z.of_nat (S (length xs))) with (1 + Z.of_nat (length xs)) by lia. rewrite Z.pow_add_r by lia. lia.
Qed.

Lemma wsum_nonneg bs : Forall is_byte bs → 0 <= wsum bs.
Proof. induction 1 as [|b bs Hb _ IH]; cbn; unfold is_byte in *; lia. Qed.

(** Bytes appended after an even number of bytes. *)
Lemma wsum_even xs ys : Forall is_byte xs → Forall is_byte ys → Nat.even (length xs) = true →
  oc_eq (wsum xs + wsum ys) (wsum (xs ++ ys)).
Proof.
  intros Hx Hy He. rewrite wsum_app. pose proof (wsum_nonneg _ Hx). pose proof (wsum_nonneg _ Hy).
  apply oc_eq_add; [by apply oc_eq_refl|]. symmetry. by apply oc_eq_pow.
Qed.

(** ... and after an odd number. *)
Lemma wsum_odd xs ys : Forall is_byte xs → Forall is_byte ys → Nat.even (length xs) = false →
  oc_eq (wsum xs + 256 * wsum ys) (wsum (xs ++ ys)).
Proof.
  intros Hx Hy He. rewrite wsum_app. pose proof (wsum_nonneg _ Hx). pose proof (wsum_nonneg _ Hy).
  apply oc_eq_add; [by apply oc_eq_refl|]. symmetry.
  destruct xs as [|x xs]; [done|]. cbn [length] in *. rewrite Nat.even_succ, <- Nat.negb_even in He.
  apply negb_false_iff in He. replace (Z.of_nat (S (length xs))) with (Z.of_nat (length xs) + 1) by lia.
  rewrite Z.pow_add_r by lia. replace (256 ^ Z.of_nat (length xs) * 256 ^ 1 * wsum ys)
    with (256 * (256 ^ Z.of_nat (length xs) * wsum ys)) by lia.
  apply oc_eq_mul; [lia|]. by apply oc_eq_pow.
Qed.

Lemma words_ind (P : list Z → Prop) : P [] → (∀ b, P [b]) → (∀ b0 b1 bs, P bs → P (b0 :: b1 :: bs)) → ∀ bs, P bs.
Proof.
  intros H0 H1 H2. assert (H : ∀ bs, P bs ∧ ∀ b, P (b :: bs)); [|apply H].
  induction bs as [|b bs [IH1 IH2]]; [by split|]. split; [done|]. intros b'. by apply H2.
Qed.

Lemma oc_add_spec a w : 0 <= a <= 65535 → 0 <= w <= 65535 → oc_eq (oc_add a w) (a + w) ∧ 0 <= oc_add a w <= 65535.
Proof.
  intros Ha Hw. unfold oc_add. destruct (Z.ltb_spec 65535 (a + w)); [|by split; [apply oc_eq_refl|]; lia].
  split; [|lia]. split; [lia|]. split; [lia|]. split; [|lia].
  replace (a + w) with (a + w - 65535 + 1 * 65535) at 2 by lia. by rewrite Z_mod_plus_full.
Qed.

Lemma rfc_sum bs : ∀ a, 0 <= a <= 65535 → Forall is_byte bs →
  oc_eq (foldl oc_add a (words bs)) (a + wsum bs) ∧ 0 <= foldl oc_add a (words bs) <= 65535.
Proof.
  induction bs as [|b|b0 b1 bs IH] using words_ind; intros a Ha Hb.
  - cbn [words foldl wsum]. rewrite Z.add_0_r. split; [apply oc_eq_refl|]; lia.
  - apply Forall_cons in Hb as [Hb _]. cbn [words foldl wsum]. unfold is_byte in Hb.
        destruct (oc_add_spec a b Ha ltac:(lia)). by rewrite Z.mul_0_r, Z.add_0_r.
  - apply Forall_cons in Hb as [Hb0 [Hb1 Hb]%Forall_cons]. unfold is_byte in Hb0, Hb1.
    cbn [words foldl wsum]. destruct (oc_add_spec a (b0 + 256 * b1) Ha ltac:(lia)) as [He Hr].
    destruct (IH _ Hr Hb) as [IHe IHr]. split; [|done]. etransitivity; [exact IHe|].
    pose proof (wsum_nonneg _ Hb).
    replace (a + (b0 + 256 * (b1 + 256 * wsum bs))) with (a + (b0 + 256 * b1) + 256 * (256 * wsum bs)) by lia.
    apply oc_eq_add; [done|]. symmetry. by apply oc_eq_swap2.
Qed.

(** ** The loops *)

Lemma byte_at_spec m pre b post : m_bytes m = pre ++ b :: post → byte_at m (Z.of_nat (length pre)) = Done b.
Proof.
  intros Hm. unfold byte_at, nthZ. rewrite decide_True, Nat2Z.id, Hm, list_lookup_middle by lia. done.
Qed.

(** [ws] is read after [pre]: its words go into the sum. *)
Definition sum_ok (B sum n : Z) : Prop := 0 <= sum ∧ sum + 32768 * n <= B ∧ 0 <= n ∧ B < 2 ^ 31.

Lemma add_words_spec n : ∀ m pre ws post sum B, m_bytes m = pre ++ ws ++ post → length ws = (2 * n)%nat →
  Forall is_byte ws → sum_ok B sum (Z.of_nat (length ws)) →
  ∃ S, add_words n m (Z.of_nat (length pre)) sum = Done (Z.of_nat (length (pre ++ ws)), sum + S) ∧
    oc_eq S (wsum ws) ∧ S <= 32768 * Z.of_nat (length ws).
Proof.
  induction n as [|n IH]; intros m pre ws post sum B Hm Hl Hb Hs.
  - destruct ws; [|done]. exists 0. cbn [add_words]. rewrite app_nil_r, Z.add_0_r. split; [done|]. by split; [apply oc_eq_refl|].
  - destruct ws as [|b0 [|b1 ws]]; [cbn in Hl; lia..|].
    apply Forall_cons in Hb as [Hb0 [Hb1 Hb]%Forall_cons]. unfold is_byte in Hb0, Hb1. unfold sum_ok in Hs. cbn [length] in *.
    cbn [add_words]. unfold word_at.
    rewrite (byte_at_spec m pre b0 (b1 :: ws ++ post)) by done. rewrite bind_done.
    replace (Z.of_nat (length pre) + 1) with (Z.of_nat (length (pre ++ [b0]))) by (rewrite length_app; cbn; lia).
    rewrite (byte_at_spec m (pre ++ [b0]) b1 (ws ++ post)) by (by rewrite Hm, <- app_assoc). rewrite !bind_done.
    rewrite s32_small by lia.
    replace (Z.of_nat (length pre) + 2) with (Z.of_nat (length (pre ++ [b0; b1]))) by (rewrite length_app; cbn; lia).
    destruct (IH m (pre ++ [b0; b1]) ws post (sum + (b0 + 256 * b1)) B) as (S & -> & He & Hr);
      [by rewrite Hm, <- app_assoc|lia|done|unfold sum_ok; lia|].
    exists (b0 + 256 * b1 + S). split; [|split].
    + rewrite <- app_assoc. cbn [app]. do 2 f_equal. lia.
    + cbn [wsum]. pose proof (wsum_nonneg _ Hb).
      replace (b0 + 256 * (b1 + 256 * wsum ws)) with (b0 + 256 * b1 + 256 * (256 * wsum ws)) by lia.
      apply oc_eq_add; [apply oc_eq_refl; lia|]. etransitivity; [done|]. symmetry. by apply oc_eq_swap2.
    + lia.
Qed.

(** What is left of [ws] when the loop ends: less than one block. *)
Lemma block_loop_spec k fuel : ∀ m pre ws post sum B, m_bytes m = pre ++ ws ++ post → (0 < k <= 16)%nat →
  (length ws < fuel)%nat → Forall is_byte ws → sum_ok B sum (Z.of_nat (length ws)) →
  ∃ ws1 ws2 S, ws = ws1 ++ ws2 ∧ (length ws2 < 2 * k)%nat ∧ Nat.even (length ws1) = true ∧
    block_loop fuel k m (Z.of_nat (length pre)) sum (Z.of_nat (length ws)) =
      Done (Z.of_nat (length (pre ++ ws1)), sum + S, Z.of_nat (length ws2) - 2 * Z.of_nat k) ∧
    oc_eq S (wsum ws1) ∧ S <= 32768 * Z.of_nat (length ws1).
Proof.
  induction fuel as [|fuel IH]; intros m pre ws post sum B Hm Hk Hf Hb Hs; [lia|].
  cbn [block_loop]. unfold sum_ok in Hs. rewrite (s32_small (Z.of_nat _ - _)) by lia.
  destruct (Z.leb_spec 0 (Z.of_nat (length ws) - 2 * Z.of_nat k)) as [Hle|Hlt].
  - set (w := take (2 * k) ws). set (r := drop (2 * k) ws).
    assert (Hwr : ws = w ++ r) by (symmetry; apply take_drop).
    assert (Hlw : length w = (2 * k)%nat) by (unfold w; rewrite length_take; lia).
    assert (Hlr : length ws = (2 * k + length r)%nat) by (rewrite Hwr at 1; rewrite length_app; lia).
    rewrite Hwr in Hb. apply Forall_app in Hb as [Hbw Hbr].
    destruct (add_words_spec k m pre w (r ++ post) sum B) as (S & -> & He & Hr);
      [by rewrite Hm, Hwr, <- app_assoc|done|done|unfold sum_ok; lia|]. rewrite bind_done.
    pose proof (proj1 He).
    destruct (IH m (pre ++ w) r post (sum + S) B) as (w1 & w2 & S' & Er & Hl2 & He1 & E & Hoc & Hr');
      [by rewrite Hm, Hwr, <- !app_assoc|lia|lia|done|unfold sum_ok; lia|].
    replace (Z.of_nat (length ws) - 2 * Z.of_nat k) with (Z.of_nat (length r)) by lia.
    exists (w ++ w1), w2, (S + S'). split; [by rewrite Hwr, Er, app_assoc|]. split; [done|]. split; [|split; [|split]].
    + rewrite length_app, Nat.even_add, He1, Hlw, Nat.even_mul. done.
    + rewrite E, app_assoc, Z.add_assoc. done.
    + etransitivity; [by apply oc_eq_add|]. apply wsum_even; [done| |].
      * rewrite Er in Hbr. by apply Forall_app in Hbr as [? _].
      * by rewrite Hlw, Nat.even_mul.
    + rewrite length_app. lia.
  - exists [], ws, 0. rewrite app_nil_r, Z.add_0_r. split; [done|]. split; [lia|]. split; [done|].
    split; [done|]. by split; [apply oc_eq_refl|].
Qed.

Lemma words_loop_spec k m pre ws post sum B : m_bytes m = pre ++ ws ++ post → (0 < k <= 16)%nat →
  Forall is_byte ws → sum_ok B sum (Z.of_nat (length ws)) →
  ∃ ws1 ws2 S, ws = ws1 ++ ws2 ∧ (length ws2 < 2 * k)%nat ∧ Nat.even (length ws1) = true ∧
    words_loop k m (Z.of_nat (length pre)) sum (Z.of_nat (length ws)) =
      Done (Z.of_nat (length (pre ++ ws1)), S, Z.of_nat (length ws2) - 2 * Z.of_nat k) ∧
    oc_eq S (sum + wsum ws1) ∧ S <= sum + 32768 * Z.of_nat (length ws1).
Proof.
  intros Hm Hk Hb Hs. destruct (block_loop_spec k (Datatypes.S (Z.to_nat (Z.of_nat (length ws)))) m pre ws post sum B)
    as (w1 & w2 & S & E & Hl & He & Er & Ho & Hr); try done; [lia|].
  exists w1, w2, (sum + S). split_and!; try done; [|lia]. apply oc_eq_add; [|done]. apply oc_eq_refl. apply Hs.
Qed.

Lemma two_loops_spec m pre ws post sum B : m_bytes m = pre ++ ws ++ post →
  Forall is_byte ws → sum_ok B sum (Z.of_nat (length ws)) →
  ∃ a r w1 sum1 mlen1 S mlen2, ws = a ++ r ∧ (length r < 8)%nat ∧ Nat.even (length a) = true ∧
    words_loop 16 m (Z.of_nat (length pre)) sum (Z.of_nat (length ws)) = Done (w1, sum1, mlen1) ∧
    words_loop 4 m w1 sum1 (s32 (mlen1 + 32)) = Done (Z.of_nat (length (pre ++ a)), S, mlen2) ∧
    s32 (mlen2 + 8) = Z.of_nat (length r) ∧
    oc_eq S (sum + wsum a) ∧ S <= sum + 32768 * Z.of_nat (length a).
Proof.
  intros Hm Hb Hs.
  destruct (words_loop_spec 16 m pre ws post sum B Hm ltac:(lia) Hb Hs) as (a & r & S & -> & Hl & He & E & Ho & Hr).
  apply Forall_app in Hb as [Hba Hbr]. unfold sum_ok in Hs. rewrite length_app in Hs. pose proof (proj1 Ho).
  destruct (words_loop_spec 4 m (pre ++ a) r post S B) as (b & r' & S' & -> & Hl' & He' & E' & Ho' & Hr');
    [by rewrite Hm, <- !app_assoc|lia|done|unfold sum_ok; lia|].
  apply Forall_app in Hbr as [Hbb _]. rewrite (length_app b r') in Hl, Hs.
  exists (a ++ b), r', (Z.of_nat (length (pre ++ a))), S, (Z.of_nat (length (b ++ r')) - 2 * Z.of_nat 16), S',
    (Z.of_nat (length r') - 2 * Z.of_nat 4).
  split; [by rewrite app_assoc|]. split; [lia|]. split; [by rewrite length_app, Nat.even_add, He, He'|].
  split; [done|]. split.
  { replace (s32 _) with (Z.of_nat (length (b ++ r'))) by (rewrite s32_small; rewrite length_app; lia). by rewrite E', app_assoc. }
  split; [rewrite s32_small; lia|]. rewrite (length_app a b). split; [|lia].
  etransitivity; [exact Ho'|]. etransitivity; [apply oc_eq_add; [exact Ho|apply oc_eq_refl; by apply wsum_nonneg]|].
  rewrite <- Z.add_assoc. apply oc_eq_add; [apply oc_eq_refl; lia|]. by apply wsum_even.
Qed.

Lemma one_loop_spec m pre ws post sum B : m_bytes m = pre ++ ws ++ post →
  Forall is_byte ws → sum_ok B sum (Z.of_nat (length ws)) →
  ∃ c d S, ws = c ++ d ∧ (d = [] ∨ ∃ b, d = [b]) ∧ Nat.even (length c) = true ∧
    words_loop 1 m (Z.of_nat (length pre)) sum (Z.of_nat (length ws)) =
      Done (Z.of_nat (length (pre ++ c)), S, Z.of_nat (length d) - 2) ∧
    oc_eq S (sum + wsum c) ∧ S <= sum + 32768 * Z.of_nat (length c).
Proof.
  intros Hm Hb Hs.
  destruct (words_loop_spec 1 m pre ws post sum B Hm ltac:(lia) Hb Hs) as (c & d & S & -> & Hl & He & E & Ho & Hr).
  exists c, d, S. split; [done|]. split; [|by split_and!].
  destruct d as [|b [|? ?]]; [by left|right; by exists b|cbn in Hl; lia].
Qed.

(** ** The state between two mbufs

    [bs]: the bytes summed up to now.  After an odd number of them the last word is
    incomplete: [mlen] is -1 and the byte that completes it will weigh 256. *)
Definition SUM0 := 16776960.  (* 65535 * 256 *)
Definition MAXLEN := 65000.

Definition cinv (bs : list Z) (st : ckst) : Prop :=
  if decide (mlen st = -1)
  then Nat.even (length bs) = false ∧ oc_eq (sum st + c0 st) (wsum bs) ∧ is_byte (c0 st) ∧
    0 <= sum st <= SUM0 + 32768 * (Z.of_nat (length bs) - 1)
  else Nat.even (length bs) = true ∧ oc_eq (sum st) (wsum bs) ∧ sum st <= SUM0 + 32768 * Z.of_nat (length bs).

Lemma cinv_even bs sum mlen c0 len : mlen ≠ -1 → Nat.even (length bs) = true → oc_eq sum (wsum bs) →
  sum <= SUM0 + 32768 * Z.of_nat (length bs) → cinv bs (mk_ck sum mlen c0 len).
Proof. intros. unfold cinv. cbn [Checksum.sum Checksum.mlen]. by rewrite decide_False. Qed.

Lemma cinv_odd bs sum c0 len : Nat.even (length bs) = false → is_byte c0 → 0 <= sum → oc_eq (sum + c0) (wsum bs) →
  sum <= SUM0 + 32768 * (Z.of_nat (length bs) - 1) → cinv bs (mk_ck sum (-1) c0 len).
Proof. intros. unfold cinv. cbn [Checksum.sum Checksum.mlen Checksum.c0]. rewrite decide_True by done. by split_and!. Qed.

Lemma even_app (xs ys : list Z) : Nat.even (length (xs ++ ys)) = Bool.eqb (Nat.even (length xs)) (Nat.even (length ys)).
Proof. by rewrite length_app, Nat.even_add. Qed.

(** [bs] is even, [ws] is what this mbuf contributes, at an even address. *)
Lemma body_even m pre ws post sum c0 len bs : m_bytes m = pre ++ ws ++ post →
  negb (Z.land 1 (m_data m + Z.of_nat (length pre)) =? 0) && (0 <? Z.of_nat (length ws)) = false →
  Forall is_byte bs → Forall is_byte ws → Nat.even (length bs) = true → oc_eq sum (wsum bs) →
  sum <= SUM0 + 32768 * Z.of_nat (length bs) → Z.of_nat (length (bs ++ ws)) <= MAXLEN →
  ∃ st, cksum_body m (Z.of_nat (length pre)) sum (Z.of_nat (length ws)) c0 len = Done st ∧
    Checksum.len st = len ∧ cinv (bs ++ ws) st.
Proof.
  intros Hm Hodd Hbb Hbw He Ho Hr Hlen. unfold cksum_body. rewrite Hodd, bind_done. unfold SUM0, MAXLEN in *.
  rewrite length_app in Hlen. pose proof (proj1 Ho).
  destruct (two_loops_spec m pre ws post sum (SUM0 + 32768 * MAXLEN) Hm Hbw) as (a & r & w1 & s1 & l1 & S & l2 & -> & Hl & Hea & E1 & E2 & El & HoS & HrS).
  { unfold sum_ok, SUM0, MAXLEN. lia. }
  apply Forall_app in Hbw as [Hba Hbr]. rewrite (length_app a r) in Hlen.
  rewrite E1, bind_done, E2, bind_done, El.
  assert (HoSa : oc_eq S (wsum (bs ++ a))).
  { etransitivity; [exact HoS|]. etransitivity; [apply oc_eq_add; [exact Ho|apply oc_eq_refl; by apply wsum_nonneg]|]. by apply wsum_even. }
  destruct (Z.eqb_spec (Z.of_nat (length r)) 0) as [Hr0|Hr0]; cbn [andb negb].
  { destruct r; [|done]. eexists. split; [reflexivity|]. split; [done|].
    rewrite app_nil_r. apply cinv_even; [done|by rewrite even_app, He, Hea|done|]. unfold SUM0. rewrite length_app. lia. }
  pose proof (proj1 HoS). destruct (REDUCE_spec S ltac:(lia)) as [HoR HrR].
  destruct (one_loop_spec m (pre ++ a) r post (REDUCE S) (2 ^ 30)) as (c & d & T & -> & Hd & Hec & E3 & HoT & HrT);
    [by rewrite Hm, <- !app_assoc|done|unfold sum_ok; lia|].
  rewrite E3, bind_done. apply Forall_app in Hbr as [Hbc Hbd]. rewrite (length_app c d) in Hlen.
  assert (Hlong : oc_eq T (wsum (bs ++ a ++ c))).
  { etransitivity; [exact HoT|]. rewrite app_assoc.
    etransitivity; [apply oc_eq_add; [etransitivity; [exact HoR|exact HoSa]|apply oc_eq_refl; by apply wsum_nonneg]|].
    apply wsum_even; [by apply Forall_app|done|by rewrite even_app, He, Hea]. }
  assert (Heven : Nat.even (length (bs ++ a ++ c)) = true) by (by rewrite !even_app, He, Hea, Hec).
  destruct Hd as [->|[b ->]].
  - cbn [length]. change (Z.of_nat 0 - 2 =? -1) with false. cbv iota. eexists. split; [reflexivity|]. split; [done|].
    rewrite app_nil_r. apply cinv_even; [done|done|done|]. unfold SUM0. rewrite !length_app. lia.
  - change (Z.of_nat (length [b]) - 2) with (-1). cbn [Z.eqb Pos.eqb].
    rewrite (byte_at_spec m ((pre ++ a) ++ c) b post) by (by rewrite Hm, <- !app_assoc). rewrite bind_done.
    apply Forall_cons in Hbd as [Hb _]. unfold is_byte in Hb. pose proof (proj1 HoT).
    assert (Has : bs ++ a ++ c ++ [b] = (bs ++ a ++ c) ++ [b]) by (by rewrite <- !app_assoc).
    eexists. split; [reflexivity|]. split; [done|]. rewrite Has.
    apply cinv_odd; [by rewrite even_app, Heven|done|done| |].
    + etransitivity; [|apply wsum_even; [| |done]].
      * apply oc_eq_add; [done|]. cbn [wsum]. rewrite Z.mul_0_r, Z.add_0_r. apply oc_eq_refl. lia.
      * apply Forall_app. split; [done|]. by apply Forall_app.
      * by apply Forall_cons.
    + unfold SUM0. rewrite !length_app. cbn [length]. lia.
Qed.

(** The data begins at an odd address: the sum is shifted while it is read. *)
Lemma body_odd m pre b0 ws post sum c0 len bs : m_bytes m = pre ++ b0 :: ws ++ post →
  negb (Z.land 1 (m_data m + Z.of_nat (length pre)) =? 0) = true →
  Forall is_byte bs → is_byte b0 → Forall is_byte ws → Nat.even (length bs) = true → oc_eq sum (wsum bs) →
  sum <= SUM0 + 32768 * Z.of_nat (length bs) → Z.of_nat (length (bs ++ b0 :: ws)) <= MAXLEN →
  ∃ st, cksum_body m (Z.of_nat (length pre)) sum (Z.of_nat (length (b0 :: ws))) c0 len = Done st ∧
    Checksum.len st = len ∧ cinv (bs ++ b0 :: ws) st.
Proof.
  intros Hm Hodd Hbb Hb0 Hbw He Ho Hr Hlen. unfold cksum_body. unfold SUM0, MAXLEN in *.
  rewrite length_app in Hlen. cbn [length] in *. rewrite Hodd, (proj2 (Z.ltb_lt 0 _)) by lia. cbn [andb].
  rewrite (byte_at_spec m pre b0 (ws ++ post)) by done. rewrite !bind_done.
  replace (Z.of_nat (length pre) + 1) with (Z.of_nat (length (pre ++ [b0]))) by (rewrite length_app; cbn; lia).
  pose proof (proj1 Ho). destruct (REDUCE_spec sum ltac:(lia)) as [HoR HrR].
  rewrite (s32_small (REDUCE sum * 2 ^ 8)), (s32_small (Z.of_nat _ - 1)) by lia.
  replace (Z.of_nat (Datatypes.S (length ws)) - 1) with (Z.of_nat (length ws)) by lia.
  assert (Ho0 : oc_eq (REDUCE sum * 2 ^ 8) (256 * wsum bs)).
  { replace (REDUCE sum * 2 ^ 8) with (256 * REDUCE sum) by lia. apply oc_eq_mul; [lia|]. by etransitivity. }
  assert (Hr0 : REDUCE sum * 2 ^ 8 <= 16776960) by lia. set (sum0 := REDUCE sum * 2 ^ 8) in *. clearbody sum0.
  destruct (two_loops_spec m (pre ++ [b0]) ws post sum0 (SUM0 + 32768 * MAXLEN)) as (a & r & w1 & s1 & l1 & S & l2 & -> & Hl & Hea & E1 & E2 & El & HoS & HrS).
  { by rewrite Hm, <- app_assoc. }
  { done. }
  { unfold sum_ok, SUM0, MAXLEN. pose proof (proj1 Ho0). lia. }
  apply Forall_app in Hbw as [Hba Hbr]. rewrite (length_app a r) in Hlen.
  rewrite E1, bind_done, E2, bind_done, El. cbn [negb]. rewrite andb_false_r.
  pose proof (proj1 HoS). destruct (REDUCE_spec S ltac:(lia)) as [HoR' HrR'].
  destruct (one_loop_spec m ((pre ++ [b0]) ++ a) r post (REDUCE S) (2 ^ 30)) as (c & d & T & -> & Hd & Hec & E3 & HoT & HrT);
    [by rewrite Hm, <- !app_assoc|done|unfold sum_ok; lia|].
  rewrite E3, bind_done. apply Forall_app in Hbr as [Hbc Hbd]. rewrite (length_app c d) in Hlen.
  pose proof (proj1 HoT). destruct (REDUCE_spec T ltac:(lia)) as [HoF HrF].
  rewrite (s32_small (REDUCE T * 2 ^ 8)) by lia.
  pose proof (wsum_nonneg _ Hba). pose proof (wsum_nonneg _ Hbc). pose proof (wsum_nonneg _ Hbb).
  assert (Hbac : Forall is_byte (a ++ c)) by (by apply Forall_app). pose proof (wsum_nonneg _ Hbac).
  assert (HoT' : oc_eq (REDUCE T * 2 ^ 8) (wsum bs + 256 * wsum (a ++ c))).
  { replace (REDUCE T * 2 ^ 8) with (256 * REDUCE T) by lia.
    transitivity (256 * (256 * wsum bs + wsum (a ++ c))).
    - apply oc_eq_mul; [lia|]. etransitivity; [exact HoF|]. etransitivity; [exact HoT|].
      transitivity (256 * wsum bs + wsum a + wsum c).
      + apply oc_eq_add; [|by apply oc_eq_refl]. etransitivity; [exact HoR'|]. etransitivity; [exact HoS|].
        apply oc_eq_add; [done|by apply oc_eq_refl].
      + rewrite <- Z.add_assoc. apply oc_eq_add; [apply oc_eq_refl; lia|by apply wsum_even].
    - rewrite Z.mul_add_distr_l. apply oc_eq_add; [by apply oc_eq_swap2|apply oc_eq_refl; lia]. }
  assert (Heac : Nat.even (length (a ++ c)) = true) by (by rewrite even_app, Hea, Hec).
  unfold is_byte in Hb0. pose proof (proj1 HoT').
  destruct Hd as [->|[e ->]].
  - cbn [length]. change (Z.of_nat 0 - 2 =? -1) with false. cbv iota. eexists. split; [reflexivity|]. split; [done|].
    rewrite app_nil_r. apply cinv_odd; [|done|done| |].
    + by rewrite even_app, He; cbn [length]; rewrite Nat.even_succ, <- Nat.negb_even, Heac.
    + transitivity (wsum bs + wsum (b0 :: a ++ c)); [|apply wsum_even; [done|by constructor|done]]. cbn [wsum].
      replace (wsum bs + (b0 + 256 * wsum (a ++ c))) with (wsum bs + 256 * wsum (a ++ c) + b0) by lia.
      apply oc_eq_add; [done|apply oc_eq_refl; lia].
    + unfold SUM0. rewrite length_app. cbn [length]. lia.
  - change (Z.of_nat (length [e]) - 2) with (-1). cbn [Z.eqb Pos.eqb].
    rewrite (byte_at_spec m (((pre ++ [b0]) ++ a) ++ c) e post) by (by rewrite Hm, <- !app_assoc). rewrite bind_done.
    apply Forall_cons in Hbd as [Hb _]. unfold is_byte in Hb. rewrite s32_small by lia.
    assert (Hbe : Forall is_byte [e]) by (by apply Forall_cons).
    eexists. split; [reflexivity|]. split; [done|]. rewrite (app_assoc a c [e]).
    apply cinv_even; [done| | |].
    + by rewrite even_app, He; cbn [length]; rewrite Nat.even_succ, <- Nat.negb_even, even_app, Heac.
    + transitivity (wsum bs + wsum (b0 :: (a ++ c) ++ [e])).
      2: { apply wsum_even; [done|constructor; [done|by apply Forall_app]|done]. }
      cbn [wsum]. transitivity (wsum bs + 256 * wsum (a ++ c) + (b0 + 256 * e)).
      { apply oc_eq_add; [done|apply oc_eq_refl; lia]. }
      replace (wsum bs + 256 * wsum (a ++ c) + (b0 + 256 * e)) with (wsum bs + b0 + 256 * (wsum (a ++ c) + e)) by lia.
      rewrite Z.add_assoc. apply oc_eq_add; [apply oc_eq_refl; lia|]. apply oc_eq_mul; [lia|].
      pose proof (wsum_even (a ++ c) [e] Hbac Hbe Heac) as Hw. cbn [wsum] in Hw. by rewrite Z.mul_0_r, Z.add_0_r in Hw.
    + unfold SUM0. rewrite length_app. cbn [length]. rewrite !length_app. cbn [length]. lia.
Qed.

Lemma body_spec m pre ws post sum c0 len bs : m_bytes m = pre ++ ws ++ post →
  Forall is_byte bs → Forall is_byte ws → Nat.even (length bs) = true → oc_eq sum (wsum bs) →
  sum <= SUM0 + 32768 * Z.of_nat (length bs) → Z.of_nat (length (bs ++ ws)) <= MAXLEN →
  ∃ st, cksum_body m (Z.of_nat (length pre)) sum (Z.of_nat (length ws)) c0 len = Done st ∧
    Checksum.len st = len ∧ cinv (bs ++ ws) st.
Proof.
  intros. destruct (negb (Z.land 1 (m_data m + Z.of_nat (length pre)) =? 0) && (0 <? Z.of_nat (length ws))) eqn:Ec.
  - apply andb_true_iff in Ec as [Eo Ew%Z.ltb_lt]. destruct ws as [|b0 ws]; [cbn in Ew; lia|].
    assert (is_byte b0 ∧ Forall is_byte ws) as [? ?] by (by apply Forall_cons). by eapply body_odd.
  - by eapply body_even.
Qed.

(** The bytes of the first [n]. *)
Definition firstn_z (n : Z) (bs : list Z) : list Z := take (Z.to_nat n) bs.

Lemma take_split (n : Z) (bs : list Z) : 0 <= n →
  ∃ ws post, bs = ws ++ post ∧ firstn_z n bs = ws ∧
    Z.of_nat (length ws) = (if n <? Z.of_nat (length bs) then n else Z.of_nat (length bs)).
Proof.
  intros Hn. exists (firstn_z n bs), (drop (Z.to_nat n) bs). unfold firstn_z. rewrite take_drop. split_and!; try done.
  rewrite length_take. destruct (Z.ltb_spec n (Z.of_nat (length bs))); lia.
Qed.

Lemma cksum_mbuf_spec m st bs : cinv bs st → Forall is_byte bs → Forall is_byte (m_bytes m) → m_bytes m ≠ [] →
  0 < len st → Z.of_nat (length bs) + len st <= MAXLEN → m_len m < 2 ^ 31 →
  ∃ st', cksum_mbuf m st = Done st' ∧ cinv (bs ++ firstn_z (len st) (m_bytes m)) st' ∧
    len st' = len st - Z.of_nat (length (firstn_z (len st) (m_bytes m))).
Proof.
  intros Hc Hb Hd Hne Hl Hmax Hml. unfold cksum_mbuf, m_len in *. unfold MAXLEN in *.
  unfold cinv in Hc. destruct (decide (mlen st = -1)) as [Em|Em].
  - destruct Hc as (He & Ho & Hc0 & Hs). rewrite Em. cbn [Z.eqb Pos.eqb].
    destruct (m_bytes m) as [|c1 rest] eqn:Edata; [done|]. apply Forall_cons in Hd as [Hc1 Hrest].
    assert (E0 : byte_at m 0 = Done c1) by (by apply (byte_at_spec m [] c1 rest)). rewrite E0, !bind_done.
    unfold is_byte, SUM0 in *. assert (Hpos : (0 < length bs)%nat) by (destruct bs; [done|cbn; lia]).
    cbn [length] in *. rewrite (s32_small (len st - 1)), (s32_small (Z.of_nat _ - 1)), (s32_small (sum st + _)) by lia.
    destruct (take_split (len st - 1) rest) as (ws & post & Er & Ef & Ew); [lia|].
    replace (Z.of_nat (Datatypes.S (length rest)) - 1) with (Z.of_nat (length rest)) by lia. rewrite <- Ew.
    assert (Efull : firstn_z (len st) (c1 :: rest) = c1 :: ws).
    { unfold firstn_z in *. replace (Z.to_nat (len st)) with (Datatypes.S (Z.to_nat (len st - 1))) by lia. cbn [take]. by rewrite Ef. }
    rewrite Efull. assert (Hlw : Z.of_nat (length ws) <= len st - 1) by (rewrite Ew; destruct (Z.ltb_spec (len st - 1) (Z.of_nat (length rest))); lia).
    rewrite Er in Hrest. apply Forall_app in Hrest as [Hw _]. rewrite s32_small by lia.
    destruct (body_spec m [c1] ws post (sum st + (c0 st + 256 * c1)) (c0 st) (len st - 1 - Z.of_nat (length ws)) (bs ++ [c1]))
      as (st' & E & El & Hinv).
    + by rewrite Edata, Er.
    + apply Forall_app. split; [done|]. by apply Forall_cons.
    + done.
    + by rewrite even_app, He.
    + etransitivity; [|apply wsum_odd; [done|by apply Forall_cons|done]].
      rewrite Z.add_assoc. apply oc_eq_add; [done|]. cbn [wsum]. rewrite Z.mul_0_r, Z.add_0_r. apply oc_eq_refl. lia.
    + rewrite length_app. unfold SUM0. cbn [length]. lia.
    + rewrite !length_app. unfold MAXLEN. cbn [length]. lia.
    + exists st'. change 1 with (Z.of_nat (length [c1])). split; [exact E|]. rewrite <- app_assoc in Hinv.
      split; [done|]. rewrite El. cbn [length]. lia.
  - destruct Hc as (He & Ho & Hs). rewrite (proj2 (Z.eqb_neq _ _) Em), bind_done.
    destruct (take_split (len st) (m_bytes m)) as (ws & post & Er & Ef & Ew); [lia|]. rewrite Ef, <- Ew.
    assert (Hlw : Z.of_nat (length ws) <= len st) by (rewrite Ew; destruct (Z.ltb_spec (len st) (Z.of_nat (length (m_bytes m)))); lia).
    rewrite Er in Hd. apply Forall_app in Hd as [Hw _]. rewrite s32_small by lia.
    destruct (body_spec m [] ws post (sum st) (c0 st) (len st - Z.of_nat (length ws)) bs) as (st' & E & El & Hinv); try done.
    { rewrite length_app. unfold MAXLEN. lia. }
    exists st'. by split_and!.
Qed.

Lemma cksum_loop_spec ms : ∀ bs st, cinv bs st → Forall is_byte bs → Forall (λ m, Forall is_byte (m_bytes m) ∧ m_len m < 2 ^ 31) ms →
  0 <= len st → Z.of_nat (length bs) + len st <= MAXLEN →
  ∃ st', cksum_loop ms st = Done st' ∧ len st' = len st - Z.of_nat (length (firstn_z (len st) (chain_bytes ms))) ∧ cinv (bs ++ firstn_z (len st) (chain_bytes ms)) st'.
Proof.
  induction ms as [|m ms IH]; intros bs st Hc Hb Hms Hl Hmax.
  - cbn [chain_bytes flat_map length] in *. exists st. unfold firstn_z. rewrite take_nil, app_nil_r.
    split; [done|]. cbn [length]. split; [lia|done].
  - apply Forall_cons in Hms as [[Hm Hml] Hms]. cbn [cksum_loop chain_bytes flat_map] in *.
    destruct (Z.eqb_spec (len st) 0) as [E0|E0].
    { exists st. rewrite E0. unfold firstn_z. cbn [Z.to_nat take]. rewrite app_nil_r. by split_and!. }
    destruct (Z.eqb_spec (m_len m) 0) as [Em|Em].
    { unfold m_len in Em. destruct (m_bytes m) eqn:Eb; [|cbn in Em; lia]. cbn [app] in *. by apply IH. }
    assert (Hne : m_bytes m ≠ []) by (intros E; unfold m_len in Em; by rewrite E in Em).
    destruct (cksum_mbuf_spec m st bs Hc Hb Hm Hne ltac:(lia) Hmax Hml) as (st1 & -> & Hc1 & El1). rewrite bind_done.
    set (w := firstn_z (len st) (m_bytes m)) in *.
    assert (Hlw : length w = Nat.min (Z.to_nat (len st)) (length (m_bytes m))) by (unfold w, firstn_z; by rewrite length_take).
    assert (Hbw : Forall is_byte w) by (by apply Forall_take).
    fold (chain_bytes ms) in *.
    destruct (IH (bs ++ w) st1) as (st2 & -> & El2 & Hc2); [done|by apply Forall_app|done|lia|rewrite length_app; lia|].
    exists st2. split; [done|]. rewrite <- app_assoc in Hc2.
    assert (Ew : firstn_z (len st) (m_bytes m ++ chain_bytes ms) = w ++ firstn_z (len st1) (chain_bytes ms)).
    { unfold firstn_z, w. rewrite take_app. f_equal. f_equal. unfold w in *. unfold firstn_z in *. lia. }
    rewrite Ew, length_app. split; [lia|done].
Qed.

(** ** The theorems *)

Definition chain_ok (ms : list mbuf) : Prop := Forall (λ m, Forall is_byte (m_bytes m) ∧ m_len m < 2 ^ 31) ms.

Lemma rfc_oc bs : Forall is_byte bs → oc_eq (65535 - rfc1071 bs) (wsum bs) ∧ 0 <= rfc1071 bs <= 65535.
Proof.
  intros Hb. destruct (rfc_sum bs 0 ltac:(lia) Hb) as [Ho Hr]. unfold rfc1071.
  replace (65535 - (65535 - foldl oc_add 0 (words bs))) with (foldl oc_add 0 (words bs)) by lia. split; [done|lia].
Qed.

Lemma low_not r : 0 <= r <= 65535 → Z.land (Z.lnot r) 65535 = 65535 - r.
Proof.
  intros Hr. change 65535 with (Z.ones 16) at 1. rewrite Z.land_ones by lia. unfold Z.lnot. change (2 ^ 16) with 65536.
  replace (Z.pred (- r)) with (65535 - r + (-1) * 65536) by lia. rewrite Z_mod_plus_full. apply Z.mod_small. lia.
Qed.

Lemma in_cksum_spec ms len0 : chain_ok ms → 0 <= len0 <= MAXLEN →
  in_cksum ms len0 =
    if len0 <=? Z.of_nat (length (chain_bytes ms)) then Done (rfc1071 (firstn_z len0 (chain_bytes ms))) else Fail Panic.
Proof.
  intros Hms Hl. unfold in_cksum. set (ck0 := mk_ck 0 0 0 len0).
  assert (Hc0 : cinv [] ck0) by (apply cinv_even; [done|done|by apply oc_eq_refl|done]).
  destruct (cksum_loop_spec ms [] ck0 Hc0 ltac:(constructor) Hms) as (st & -> & El & Hc); [cbn; lia|cbn in *; lia|].
  rewrite bind_done. cbn [app ck0 len] in *. set (bs := firstn_z len0 (chain_bytes ms)) in *.
  assert (Hlb : length bs = Nat.min (Z.to_nat len0) (length (chain_bytes ms))) by (unfold bs, firstn_z; by rewrite length_take).
  assert (Hb : Forall is_byte bs).
  { apply Forall_take. unfold chain_bytes. apply Forall_flat_map. eapply Forall_impl; [exact Hms|]. by intros m [? _]. }
  rewrite El. destruct (Z.leb_spec len0 (Z.of_nat (length (chain_bytes ms)))) as [Hle|Hlt].
  2: { by rewrite (proj2 (Z.eqb_neq (len0 - Z.of_nat (length bs)) 0)) by lia. }
  rewrite (proj2 (Z.eqb_eq (len0 - Z.of_nat (length bs)) 0)) by lia. unfold assert_. rewrite bind_done.
  destruct (rfc_oc bs Hb) as [Hrfc Hrr]. unfold cinv, SUM0, MAXLEN in *.
  assert (Hfin : ∀ s, 0 <= s < 2 ^ 31 → oc_eq s (wsum bs) → Z.land (Z.lnot (REDUCE s)) 65535 = rfc1071 bs).
  { intros s Hs Ho. destruct (REDUCE_spec s Hs) as [HoR HrR]. rewrite low_not by done.
    assert (REDUCE s = 65535 - rfc1071 bs); [|lia]. apply oc_eq_unique; [|lia..].
    etransitivity; [exact HoR|]. etransitivity; [exact Ho|]. by symmetry. }
  case_decide as Em.
  - destruct Hc as (_ & Ho & Hcb & Hs). unfold is_byte in Hcb. rewrite Em. cbn [Z.eqb Pos.eqb].
    rewrite s32_small by lia. by rewrite Hfin by (done || lia).
  - destruct Hc as (_ & Ho & Hs). rewrite (proj2 (Z.eqb_neq _ _) Em). pose proof (proj1 Ho). by rewrite Hfin by (done || lia).
Qed.

Lemma in_cksum_ok ms len0 : chain_ok ms → len0 <= MAXLEN → len0 = Z.of_nat (length (chain_bytes ms)) →
  in_cksum ms len0 = Done (rfc1071 (chain_bytes ms)).
Proof.
  intros Hms Hmax Hl. rewrite in_cksum_spec, (proj2 (Z.leb_le _ _)) by (done || lia).
  unfold firstn_z. by rewrite Hl, Nat2Z.id, firstn_all.
Qed.

(** C18: [in_cksum] is the Internet checksum.  On any chain of mbufs, cut and aligned in any
    way (empty mbufs, words across mbufs, data at odd addresses), it returns the RFC 1071
    checksum of the first [len] bytes, for every [len] up to 65000 that the chain
    has; when the chain is shorter it panics. *)
Theorem in_cksum_rfc1071 ms len0 : chain_ok ms → 0 <= len0 <= MAXLEN →
  in_cksum ms len0 =
    if len0 <=? Z.of_nat (length (chain_bytes ms)) then Done (rfc1071 (firstn_z len0 (chain_bytes ms))) else Fail Panic.
Proof. apply in_cksum_spec. Qed.

Lemma chain_is_bytes ms : chain_ok ms → Forall is_byte (chain_bytes ms).
Proof. intros Hms. unfold chain_bytes. apply Forall_flat_map. eapply Forall_impl; [exact Hms|]. by intros m [? _]. Qed.

(** A packet that carries its checksum verifies.  A sender computes [c] over the packet
    with zeros in the 16-bit checksum field (at any even offset) and stores it there;
    the receiver, however the packet is cut into mbufs on its side, computes 0 over the
    same bytes. *)
Theorem checksum_verifies ms ms' pre post len0 c : chain_ok ms → chain_ok ms' →
  chain_bytes ms = pre ++ [0; 0] ++ post → Nat.even (length pre) = true →
  len0 = Z.of_nat (length (chain_bytes ms)) → len0 <= MAXLEN → in_cksum ms len0 = Done c →
  chain_bytes ms' = pre ++ [c mod 256; c / 256] ++ post → in_cksum ms' len0 = Done 0.
Proof.
  intros Hms Hms' Hb He Hl Hmax Hc Hb'.
  assert (Hl' : len0 = Z.of_nat (length (chain_bytes ms'))) by (rewrite Hl, Hb, Hb', !length_app; done).
  pose proof (in_cksum_ok ms len0 Hms Hmax Hl) as Hc1. rewrite Hc in Hc1. injection Hc1 as Hc1.
  rewrite (in_cksum_ok ms' len0 Hms' Hmax Hl'). f_equal.
  destruct (rfc_oc _ (chain_is_bytes _ Hms)) as [Ho Hr]. destruct (rfc_oc _ (chain_is_bytes _ Hms')) as [Ho' Hr'].
  rewrite <- Hc1 in Ho, Hr. assert (Hcd : c mod 256 + 256 * (c / 256) = c) by (pose proof (Z_div_mod_eq_full c 256); lia).
  pose proof (chain_is_bytes _ Hms) as Hbs. rewrite Hb in Hbs. apply Forall_app in Hbs as [Hpre [_ Hpost]%Forall_app].
  pose proof (wsum_nonneg _ Hpre). pose proof (wsum_nonneg _ Hpost).
  assert (Hw : oc_eq (wsum (chain_bytes ms')) 65535).
  { rewrite Hb', wsum_app. cbn [app wsum].
    replace (c mod 256 + 256 * (c / 256 + 256 * wsum post)) with (c + (0 + 256 * (0 + 256 * wsum post))) by lia.
    rewrite Z.mul_add_distr_l, (Z.add_comm (256 ^ _ * c)), Z.add_assoc.
    replace 65535 with (65535 - c + c) by lia. apply oc_eq_add; [|by apply oc_eq_pow; [lia|]].
    transitivity (wsum (chain_bytes ms)); [|by symmetry]. rewrite Hb, wsum_app. cbn [app wsum].
    apply oc_eq_refl. pose proof (Z.pow_nonneg 256 (Z.of_nat (length pre)) ltac:(lia)). nia. }
  assert (65535 - rfc1071 (chain_bytes ms') = 65535); [|lia].
  apply oc_eq_unique; [by etransitivity|lia..].
Qed.

(** A UDP-like packet in three mbufs, cut inside words, the second one at an odd address. *)
Definition demo_chain : list mbuf :=
  [mk_mbuf 4096 [18; 52; 86]; mk_mbuf 8193 [120; 0; 0; 255; 255; 1]; mk_mbuf 0 []; mk_mbuf 12288 [2; 3]].
Definition demo_chain' : list mbuf := [mk_mbuf 16385 [18; 52; 86; 120; 147; 81; 255; 255; 1; 2; 3]].

Lemma demo_chain_ok : chain_ok demo_chain ∧ chain_ok demo_chain'.
Proof. split; repeat (apply Forall_cons; split); try done; split; try done; repeat (apply Forall_cons; split; [unfold is_byte; lia|]); done. Qed.

Lemma in_cksum_rfc1071_witness : in_cksum demo_chain 11 = Done (rfc1071 (chain_bytes demo_chain)).
Proof.
  etransitivity; [apply in_cksum_rfc1071; [exact (proj1 demo_chain_ok)|unfold MAXLEN; lia]|]. reflexivity.
Defined.

Lemma checksum_verifies_witness : in_cksum demo_chain 11 = Done 20883 ∧ in_cksum demo_chain' 11 = Done 0.
Proof.
  split; [vm_compute; reflexivity|].
  apply (checksum_verifies demo_chain demo_chain' [18; 52; 86; 120] [255; 255; 1; 2; 3] 11 20883).
  - exact (proj1 demo_chain_ok).
  - exact (proj2 demo_chain_ok).
  - reflexivity.
  - reflexivity.
  - reflexivity.
  - unfold MAXLEN; lia.
  - vm_compute. reflexivity.
  - vm_compute. reflexivity.
Defined.
