(* ===== verification/Mbuf.v ===== *)
(** * Network buffers ([Kernel/mbuf.c])

    A packet is a chain of mbufs, linked by [m_next].  An mbuf keeps its bytes in its own
    area of 108 bytes, or in a cluster of 2048 bytes outside of it that several mbufs may
    share; [m_data] points at the first byte in use, [m_len] counts them.  The store has
    the mbufs and the clusters by address, and what the next calls of [kzalloc] return.

    The members that the C union lays over the bytes of an mbuf ([m_pkthdr] over the
    first eight, [m_ext] over the twelve behind them) are kept apart from the bytes: data of an
    mbuf with a packet header is behind it, and an mbuf with a cluster has its data there. *)

From S2P Require Import Prelude.

Notation bytes := (list Z).

Definition MCLBYTES := 2048.
Definition MHLEN := 100.
Definition MINCLSIZE := 208.
Definition MLEN := 108.
Definition MAXMCLBYTES := 65536.
Definition M_EXT := 4.
Definition M_PKTHDR := 16.
Definition M_CLUSTER := 32.
Definition M_COPYFLAGS := 27.
Definition MT_DATA := 1.
Definition M_COPYALL := 1000000000.

(** An address in the area of an mbuf ([m_dat] is offset 0, [m_pktdat] is offset 8), or in a
    cluster. *)
Inductive addr : Type := InMbuf (i off : Z) | InClus (c off : Z).
Definition shift (p : addr) (k : Z) : addr :=
  match p with InMbuf i off => InMbuf i (off + k) | InClus c off => InClus c (off + k) end.
Definition addr_off (p : addr) : Z := match p with InMbuf _ off | InClus _ off => off end.

Record mbuf : Type := mk_mbuf {
  m_next : option Z; m_nextpkt : option Z; m_len : Z; m_data : addr; m_type : Z; m_flags : Z;
  pkt_len : Z; rcvif : Z; ext_buf : option Z; m_extrefcnt : Z; m_dat : bytes }.
Record mst : Type := mk_mst {
  mbufs : gmap Z mbuf; clusters : gmap Z bytes; mbuf_allocated : Z; mcl_allocated : Z; memory : list (option Z) }.

Definition set_next p m := mk_mbuf p (m_nextpkt m) (m_len m) (m_data m) (m_type m) (m_flags m) (pkt_len m) (rcvif m) (ext_buf m) (m_extrefcnt m) (m_dat m).
Definition set_len n m := mk_mbuf (m_next m) (m_nextpkt m) (s32 n) (m_data m) (m_type m) (m_flags m) (pkt_len m) (rcvif m) (ext_buf m) (m_extrefcnt m) (m_dat m).
Definition set_data p m := mk_mbuf (m_next m) (m_nextpkt m) (m_len m) p (m_type m) (m_flags m) (pkt_len m) (rcvif m) (ext_buf m) (m_extrefcnt m) (m_dat m).
Definition set_flags f m := mk_mbuf (m_next m) (m_nextpkt m) (m_len m) (m_data m) (m_type m) f (pkt_len m) (rcvif m) (ext_buf m) (m_extrefcnt m) (m_dat m).
Definition set_pkthdr n r m := mk_mbuf (m_next m) (m_nextpkt m) (m_len m) (m_data m) (m_type m) (m_flags m) (s32 n) r (ext_buf m) (m_extrefcnt m) (m_dat m).
Definition set_ext c n m := mk_mbuf (m_next m) (m_nextpkt m) (m_len m) (m_data m) (m_type m) (m_flags m) (pkt_len m) (rcvif m) c (u32 n) (m_dat m).
Definition set_dat b m := mk_mbuf (m_next m) (m_nextpkt m) (m_len m) (m_data m) (m_type m) (m_flags m) (pkt_len m) (rcvif m) (ext_buf m) (m_extrefcnt m) b.
Definition has (f : Z) (m : mbuf) : bool := negb (Z.land (m_flags m) f =? 0).

Definition with_mbufs h s := mk_mst h (clusters s) (mbuf_allocated s) (mcl_allocated s) (memory s).
Definition with_clusters h s := mk_mst (mbufs s) h (mbuf_allocated s) (mcl_allocated s) (memory s).
Definition load (i : Z) (s : mst) : outcome mbuf := deref (mbufs s !! i).
(** [i] may be NULL. *)
Definition load_opt (p : option Z) (s : mst) : outcome mbuf := i ← deref p; load i s.
Definition upd (i : Z) (f : mbuf → mbuf) (s : mst) : outcome mst :=
  m ← load i s; Done (with_mbufs (<[i := f m]> (mbufs s)) s).

(** [memcpy] out of and into the bytes at an address. *)
Definition bytes_at (p : addr) (s : mst) : outcome bytes :=
  match p with InMbuf i _ => m ← load i s; Done (m_dat m) | InClus c _ => deref (clusters s !! c) end.
Definition copy_out (p : addr) (n : Z) (s : mst) : outcome bytes := b ← bytes_at p s; sub_buf b (addr_off p) (u32 n).
Definition copy_in (p : addr) (x : bytes) (s : mst) : outcome mst :=
  b ← bytes_at p s;
  b ← put_buf b (addr_off p) x;
  match p with InMbuf i _ => upd i (set_dat b) s | InClus c _ => Done (with_clusters (<[c := b]> (clusters s)) s) end.

(** ** Allocation *)

Definition kzalloc (s : mst) : option Z * mst :=
  match memory s with
  | [] => (None, s)
  | a :: l => (a, mk_mst (mbufs s) (clusters s) (mbuf_allocated s) (mcl_allocated s) l)
  end.

(** [MBUF_INIT] on zeroed memory. *)
Definition mbuf_init (i : Z) (pkthdr : bool) (type : Z) : mbuf :=
  mk_mbuf None None 0 (InMbuf i (if pkthdr then 8 else 0)) type (if pkthdr then M_PKTHDR else 0) 0 0 None 0 (replicate 108 0).
Definition new_mbuf (pkthdr : bool) (type : Z) (s : mst) : option Z * mst :=
  let '(a, s) := kzalloc s in
  match a with
  | None => (None, s)
  | Some i => (Some i, mk_mst (<[i := mbuf_init i pkthdr type]> (mbufs s)) (clusters s) (u32 (mbuf_allocated s + 1)) (mcl_allocated s) (memory s))
  end.
Definition m_get := new_mbuf false.
Definition m_gethdr := new_mbuf true.

Definition m_free (m : option Z) (s : mst) : outcome (option Z * mst) :=
  i ← deref m;
  x ← load i s;
  s ← (if has M_EXT x then
         let n := u32 (m_extrefcnt x - 1) in
         s ← upd i (set_ext (ext_buf x) n) s;
         if n =? 0 then
           (* [MCLFREE]: [kfree(NULL)] is not modelled *)
           c ← deref (ext_buf x); _ ← deref (clusters s !! c);
           Done (mk_mst (mbufs s) (delete c (clusters s)) (mbuf_allocated s) (u32 (mcl_allocated s - 1)) (memory s))
         else Done s
       else Done s);
  Done (m_next x, mk_mst (delete i (mbufs s)) (clusters s) (u32 (mbuf_allocated s - 1)) (mcl_allocated s) (memory s)).

Fixpoint m_freem (fuel : nat) (m : option Z) (s : mst) : outcome mst :=
  match fuel with
  | O => Fail Diverge
  | S fuel =>
      x ← load_opt m s;
      '(_, s) ← m_free m s;
      match m_next x with None => Done s | Some n => m_freem fuel (Some n) s end
  end.
(** Enough turns for a chain without a cycle. *)
Definition turns (s : mst) : nat := Datatypes.S (size (mbufs s)).
Definition freem (m : option Z) (s : mst) : outcome mst := m_freem (turns s) m s.

(** The cluster's address becomes [m_data]. *)
Definition m_clget (m : option Z) (s : mst) : outcome (option Z * mst) :=
  let '(m0, m1, s) := match m with
    | None => let '(m0, s) := m_gethdr MT_DATA s in (m0, m0, s)
    | Some i => (None, Some i, s) end in
  match m, m1 with
  | None, None => Done (None, s)
  | _, _ =>
      i ← deref m1;
      let '(c, s) := kzalloc s in
      s ← upd i (λ x, set_ext c (m_extrefcnt x) x) s;
      match c with
      | None => '(_, s) ← m_free m0 s; Done (None, s)
      | Some c =>
          let s := mk_mst (mbufs s) (<[c := replicate 2048 0]> (clusters s)) (mbuf_allocated s) (u32 (mcl_allocated s + 1)) (memory s) in
          s ← upd i (λ x, set_ext (Some c) (m_extrefcnt x + 1) (set_flags (Z.lor (m_flags x) M_EXT) (set_data (InClus c 0) x))) s;
          Done (Some i, s)
      end
  end.

Definition m_getclr (type : Z) (s : mst) : outcome (option Z * mst) :=
  let '(m, s) := m_get type s in
  match m with
  | None => Done (None, s)
  | Some i => x ← load i s; s ← copy_in (m_data x) (replicate 108 0) s; Done (Some i, s)
  end.

(** ** Reading *)

(** [m_copydata]: the mbuf that has byte [off], and the loop; [count] is [unsigned], its minimum is
    taken of [int]s. *)
Fixpoint skip_off (fuel : nat) (m : option Z) (off : Z) (s : mst) : outcome (option Z * Z) :=
  match fuel with
  | O => Fail Diverge
  | S fuel =>
      if 0 <? off then
        x ← load_opt m s;
        if off <? m_len x then Done (m, off) else skip_off fuel (m_next x) (off - m_len x) s
      else Done (m, off)
  end.
Fixpoint copy_loop (fuel : nat) (m : option Z) (off len : Z) (s : mst) : outcome bytes :=
  match fuel with
  | O => Fail Diverge
  | S fuel =>
      if 0 <? len then
        x ← load_opt m s;
        let count := if len <? m_len x - off then len else m_len x - off in
        b ← copy_out (shift (m_data x) off) count s;
        rest ← copy_loop fuel (m_next x) 0 (s32 (u32 (len - u32 count))) s;
        Done (b ++ rest)
      else Done []
  end.
(** What is stored at [cp]. *)
Definition m_copydata (m : option Z) (off len : Z) (s : mst) : outcome bytes :=
  '(m, off) ← skip_off (Datatypes.S (turns s)) m off s;
  x ← load_opt m s;
  if has M_EXT x then copy_out (m_data x) (if MCLBYTES <? len then MCLBYTES else len) s
  else copy_loop (Datatypes.S (turns s)) m off len s.

Fixpoint getptr_loop (fuel : nat) (i loc : Z) (s : mst) : outcome (option (Z * Z)) :=
  match fuel with
  | O => Fail Diverge
  | S fuel =>
      if loc <? 0 then Done None else
      x ← load i s;
      if loc <? m_len x then Done (Some (i, loc)) else
      let loc := loc - m_len x in
      match m_next x with
      | None => Done (if loc =? 0 then Some (i, m_len x) else None)
      | Some n => getptr_loop fuel n loc s
      end
  end.
(** The mbuf and the offset in it. *)
Definition m_getptr (m : option Z) (loc : Z) (s : mst) : outcome (option (Z * Z)) :=
  if loc <? 0 then Done None else i ← deref m; getptr_loop (turns s) i loc s.

Definition m_leadingspace (m : Z) (s : mst) : outcome Z :=
  x ← load m s;
  Done (if has M_EXT x then addr_off (m_data x)
        else if has M_PKTHDR x then addr_off (m_data x) - 8 else addr_off (m_data x)).

(** ** Changing a chain *)

Definition MOVE_PKTHDR (to from : Z) (s : mst) : outcome mst :=
  f ← load from s;
  s ← upd to (λ t, set_flags (Z.lor (Z.land (m_flags t) (Z.lor M_EXT M_CLUSTER)) (Z.land (m_flags f) M_COPYFLAGS)) t) s;
  s ← upd to (set_pkthdr (pkt_len f) (rcvif f)) s;
  s ← upd from (λ f, set_flags (Z.land (m_flags f) (Z.lnot M_PKTHDR)) f) s;
  upd to (λ t, if has M_EXT t then t else set_data (InMbuf to 8) t) s.

(** The loop of [m_pullup]: the rest of the chain, what is missing. *)
Fixpoint pull_loop (fuel : nat) (m n len : Z) (s : mst) : outcome (option Z * Z * mst) :=
  match fuel with
  | O => Fail Diverge
  | S fuel =>
      x ← load n s; t ← load m s;
      let count := if m_len x <? len then m_len x else len in
      b ← copy_out (m_data x) count s;
      s ← copy_in (shift (m_data t) (m_len t)) b s;
      s ← upd m (λ t, set_len (m_len t + count) t) s;
      s ← upd n (λ x, set_len (m_len x - count) x) s;
      x ← load n s;
      '(n, s) ← (if negb (m_len x =? 0) then s ← upd n (λ x, set_data (shift (m_data x) count) x) s; Done (Some n, s)
                 else s ← freem (Some n) s; Done (None, s));
      let len := len - count in
      match n with
      | Some n' => if 0 <? len then pull_loop fuel m n' len s else Done (n, len, s)
      | None => Done (None, len, s)
      end
  end.

Definition pull_bad (n : option Z) (s : mst) : outcome (option Z * mst) :=
  match n with Some _ => s ← freem n s; Done (None, s) | None => Done (None, s) end.

(** From the [do] on. *)
Definition pull_rest (m : Z) (n : option Z) (len : Z) (s : mst) : outcome (option Z * mst) :=
  n ← deref n;
  '(n, len, s) ← pull_loop (turns s) m n len s;
  if 0 <? len then s ← freem (Some m) s; pull_bad n s
  else s ← upd m (set_next n) s; Done (Some m, s).

Definition m_pullup (n : Z) (len : Z) (s : mst) : outcome (option Z * mst) :=
  x ← load n s;
  let next := match m_next x with Some _ => true | None => false end in
  if (negb (has M_EXT x) && next && (addr_off (m_data x) + len <? MLEN)) ||
     (has M_EXT x && (MHLEN <? len) && next && (addr_off (m_data x) + len <? MCLBYTES)) then
    if len <=? m_len x then Done (Some n, s) else pull_rest n (m_next x) (len - m_len x) s
  else if MAXMCLBYTES <? len then pull_bad (Some n) s else
    let '(m, s) := m_get (m_type x) s in
    match m with
    | None => pull_bad (Some n) s
    | Some m =>
        s ← (if MHLEN <? len then '(_, s) ← m_clget (Some m) s; Done s else Done s);
        s ← upd m (set_len 0) s;
        s ← (if has M_PKTHDR x then MOVE_PKTHDR m n s else Done s);
        pull_rest m (Some n) len s
    end.

Definition m_prepend (m : Z) (len : Z) (s : mst) : outcome (option Z * mst) :=
  x ← load m s;
  room ← m_leadingspace m s;
  '(r, s) ← (if len <=? room then
      s ← upd m (λ x, set_len (m_len x + len) (set_data (shift (m_data x) (- len)) x)) s; Done (Some m, s)
    else
      let '(mn, s) := m_get (m_type x) s in
      match mn with
      | None => s ← freem (Some m) s; Done (None, s)
      | Some mn =>
          s ← (if has M_PKTHDR x then MOVE_PKTHDR mn m s else Done s);
          s ← upd mn (set_next (Some m)) s;
          (* [MH_ALIGN] *)
          s ← upd mn (λ x, set_len len (set_data (shift (m_data x) (Z.land (MHLEN - len) (Z.lnot 3))) x)) s;
          Done (Some mn, s)
      end);
  match r with
  | None => Done (None, s)
  | Some m =>
      x ← load m s;
      s ← (if has M_PKTHDR x then upd m (set_pkthdr (pkt_len x + len) (rcvif x)) s else Done s);
      Done (Some m, s)
  end.

Definition m_dup_pkthdr (to from : Z) (s : mst) : outcome mst :=
  f ← load from s;
  _ ← assert_ (has M_PKTHDR f);
  s ← upd to (λ t, set_flags (Z.lor (Z.land (m_flags t) (Z.lor M_EXT M_CLUSTER)) (Z.land (m_flags f) M_COPYFLAGS)) t) s;
  s ← upd to (set_pkthdr (pkt_len f) (rcvif f)) s;
  upd to (λ t, if has M_EXT t then t else set_data (InMbuf to 8) t) s.

(** [*np = n]: [None] is [&top]. *)
Definition link (np : option Z) (n : option Z) (top : option Z) (s : mst) : outcome (option Z * mst) :=
  match np with None => Done (n, s) | Some p => s ← upd p (set_next n) s; Done (top, s) end.

(** The bytes of one copied mbuf; [None] when a cluster is missing, with which the code goes on. *)
Definition copy_data (n m : Z) (offset len : Z) (deep : bool) (s : mst) : outcome mst :=
  x ← load m s;
  s ← upd n (set_len (if m_len x - offset <? len then m_len x - offset else len)) s;
  if has M_EXT x then
    if negb deep then
      s ← upd n (λ y, set_ext (ext_buf x) (m_extrefcnt x) (set_data (m_data x) y)) s;
      s ← upd m (λ x, set_ext (ext_buf x) (m_extrefcnt x + 1) x) s;
      upd n (λ y, set_flags (Z.lor (m_flags y) (Z.land (m_flags x) (Z.lor M_EXT M_CLUSTER))) y) s
    else
      '(n, s) ← m_clget (Some n) s;
      n ← deref n;
      let l := if len <? MCLBYTES then len else MCLBYTES in
      let l := if m_len x - offset <? l then m_len x - offset else l in
      s ← upd n (set_len l) s;
      b ← copy_out (shift (m_data x) offset) l s;
      y ← load n s; copy_in (m_data y) b s
  else
    y ← load n s;
    b ← copy_out (shift (m_data x) offset) (m_len y) s;
    copy_in (m_data y) b s.

Fixpoint copym_loop (fuel : nat) (m : option Z) (offset len : Z) (copyhdr deep : bool) (np top : option Z) (s : mst)
    : outcome (option Z * mst) :=
  match fuel with
  | O => Fail Diverge
  | S fuel =>
      if len <=? 0 then Done (top, s) else
      match m with
      | None => Done (top, s)
      | Some m =>
          x ← load m s;
          let '(n, s) := m_get (m_type x) s in
          '(top, s) ← link np n top s;
          match n with
          | None => s ← freem top s; Done (None, s)
          | Some n =>
              s ← (if copyhdr then
                     s ← m_dup_pkthdr n m s;
                     if negb (len =? M_COPYALL) then upd n (λ y, set_pkthdr len (rcvif y) y) s else Done s
                   else Done s);
              s ← copy_data n m offset len deep s;
              y ← load n s; x ← load m s;
              copym_loop fuel (m_next x) 0 (if negb (len =? M_COPYALL) then len - m_len y else len) false deep (Some n) top s
          end
      end
  end.

Definition _m_copym (m0 : Z) (offset len : Z) (deep : bool) (s : mst) : outcome (option Z * mst) :=
  if (offset <? 0) || (len <? 0) then Done (None, s) else
  x ← load m0 s;
  let copyhdr := (offset =? 0) && has M_PKTHDR x in
  r ← m_getptr (Some m0) offset s;
  match r with
  | None => Done (None, s)
  | Some (m, offset) => copym_loop (Datatypes.S (turns s)) (Some m) offset len copyhdr deep None None s
  end.
Definition m_copym (m off len : Z) (s : mst) := _m_copym m off len false s.

Fixpoint last_mbuf (fuel : nat) (m : Z) (s : mst) : outcome Z :=
  match fuel with
  | O => Fail Diverge
  | S fuel => x ← load m s; match m_next x with Some n => last_mbuf fuel n s | None => Done m end
  end.
Fixpoint cat_loop (fuel : nat) (m : Z) (n : option Z) (s : mst) : outcome mst :=
  match fuel with
  | O => Fail Diverge
  | S fuel =>
      match n with
      | None => Done s
      | Some n =>
          t ← load m s; x ← load n s;
          if has M_EXT t || (MLEN <=? addr_off (m_data t) + m_len t + m_len x) then upd m (set_next (Some n)) s
          else
            b ← copy_out (m_data x) (m_len x) s;
            s ← copy_in (shift (m_data t) (m_len t)) b s;
            s ← upd m (λ t, set_len (m_len t + m_len x) t) s;
            '(n, s) ← m_free (Some n) s;
            cat_loop fuel m n s
      end
  end.
Definition m_cat (m : Z) (n : option Z) (s : mst) : outcome mst :=
  m ← last_mbuf (turns s) m s; cat_loop (turns s) m n s.

(** ** Trimming *)

Fixpoint trim_head (fuel : nat) (m : option Z) (len : Z) (s : mst) : outcome (Z * mst) :=
  match fuel with
  | O => Fail Diverge
  | S fuel =>
      match m with
      | Some i =>
          if 0 <? len then
            x ← load i s;
            if m_len x <=? len then s ← upd i (set_len 0) s; trim_head fuel (m_next x) (len - m_len x) s
            else s ← upd i (λ x, set_data (shift (m_data x) len) (set_len (m_len x - len) x)) s; trim_head fuel m 0 s
          else Done (len, s)
      | None => Done (len, s)
      end
  end.
(** The last mbuf and the sum of the lengths. *)
Fixpoint count_chain (fuel : nat) (m count : Z) (s : mst) : outcome (Z * Z) :=
  match fuel with
  | O => Fail Diverge
  | S fuel =>
      x ← load m s;
      let count := s32 (count + m_len x) in
      match m_next x with None => Done (m, count) | Some n => count_chain fuel n count s end
  end.
(** The mbuf that keeps the last byte; [None] if the loop runs out of mbufs. *)
Fixpoint keep_loop (fuel : nat) (m : option Z) (count : Z) (s : mst) : outcome (option Z * mst) :=
  match fuel with
  | O => Fail Diverge
  | S fuel =>
      match m with
      | None => Done (None, s)
      | Some i =>
          x ← load i s;
          if count <=? m_len x then s ← upd i (set_len count) s; Done (Some i, s)
          else keep_loop fuel (m_next x) (count - m_len x) s
      end
  end.
Fixpoint toss_loop (fuel : nat) (m : option Z) (s : mst) : outcome mst :=
  match fuel with
  | O => Fail Diverge
  | S fuel =>
      match m with
      | None => Done s
      | Some i => s ← upd i (set_len 0) s; x ← load i s; toss_loop fuel (m_next x) s
      end
  end.

Definition m_adj (mp : option Z) (req_len : Z) (s : mst) : outcome mst :=
  match mp with
  | None => Done s
  | Some mp =>
      if 0 <=? req_len then
        '(len, s) ← trim_head (Datatypes.S (turns s)) (Some mp) req_len s;
        x ← load mp s;
        if has M_PKTHDR x then upd mp (set_pkthdr (pkt_len x - (req_len - len)) (rcvif x)) s else Done s
      else
        let len := s32 (- req_len) in
        '(m, count) ← count_chain (turns s) mp 0 s;
        x ← load m s;
        if len <=? m_len x then
          s ← upd m (set_len (m_len x - len)) s;
          x ← load mp s;
          if has M_PKTHDR x then upd mp (set_pkthdr (pkt_len x - len) (rcvif x)) s else Done s
        else
          let count := if s32 (count - len) <? 0 then 0 else s32 (count - len) in
          x ← load mp s;
          s ← (if has M_PKTHDR x then upd mp (set_pkthdr count (rcvif x)) s else Done s);
          '(m, s) ← keep_loop (turns s) (Some mp) count s;
          x ← load_opt m s;
          toss_loop (turns s) (m_next x) s
  end.

(** ** From a device *)

Section devget.
Context (max_linkhdr : Z) (ifp : Z).

(** One mbuf: a cluster if much is left, room for a link header in the first, and the bytes; [first]
    is [top == NULL], [len] the room. *)
Definition devget_fill (m : Z) (first : bool) (off len : Z) (data : bytes) (s : mst) : outcome (Z * Z * mst) :=
  let totlen := Z.of_nat (length data) in
  '(m, len, s) ←
    (if MINCLSIZE <=? totlen + off then
       '(m, s) ← m_clget (Some m) s;
       m ← deref m;
       x ← load m s;
       Done (m, (if has M_EXT x then MCLBYTES else len), s)
     else if first && (totlen + off + max_linkhdr <=? len) then
       s ← upd m (λ x, set_data (shift (m_data x) max_linkhdr) x) s; Done (m, len - max_linkhdr, s)
     else Done (m, len, s));
  '(len, s) ← (if negb (off =? 0) then s ← upd m (λ x, set_data (shift (m_data x) off) x) s; Done (len - off, s)
               else Done (len, s));
  let len := if len <? totlen then len else totlen in
  s ← upd m (set_len len) s;
  x ← load m s;
  b ← sub_buf data 0 (u32 len);
  s ← copy_in (m_data x) b s;
  Done (m, len, s).

(** The loop: [m] is the mbuf at hand, [top] and [mp] as in the code, [data] what is left. *)
Fixpoint devget_loop (fuel : nat) (m : Z) (top mp : option Z) (off len : Z) (data : bytes) (s : mst) : outcome (option Z * mst) :=
  match fuel with
  | O => Fail Diverge
  | S fuel =>
      if Z.of_nat (length data) <=? 0 then Done (top, s) else
      r ← (match top with
           | None => Done (inr (m, len, s))
           | Some _ =>
               let '(m, s) := m_get MT_DATA s in
               match m with None => s ← freem top s; Done (inl s) | Some m => Done (inr (m, MLEN, s)) end
           end);
      match r with
      | inl s => Done (None, s)
      | inr (m, len, s) =>
          '(m, len, s) ← devget_fill m (bool_decide (top = None)) off len data s;
          '(top, s) ← link mp (Some m) top s;
          devget_loop fuel m top (Some m) 0 len (drop (Z.to_nat len) data) s
      end
  end.

Definition m_devget (data : bytes) (off : Z) (s : mst) : outcome (option Z * mst) :=
  if (off <? 0) || (MHLEN <? off) then Done (None, s) else
  let '(m, s) := m_gethdr MT_DATA s in
  match m with
  | None => Done (None, s)
  | Some m =>
      s ← upd m (set_pkthdr (Z.of_nat (length data)) ifp) s;
      devget_loop (Datatypes.S (Datatypes.S (length data))) m None None off MHLEN data s
  end.
End devget.

(** ** Chains *)

(** The mbufs reached from [p]. *)
Inductive linked (h : gmap Z mbuf) : option Z → list (Z * mbuf) → Prop :=
| linked_nil : linked h None []
| linked_cons i m l : h !! i = Some m → linked h (m_next m) l → linked h (Some i) ((i, m) :: l).

Lemma linked_det h p l l' : linked h p l → linked h p l' → l = l'.
Proof.
  intros H. revert l'. induction H as [|i m l Hi Hl IH]; intros l' H'; inversion H' as [|? m' l2 Hi' Hl']; subst; [done|].
  rewrite Hi in Hi'. injection Hi' as <-. by rewrite (IH l2).
Qed.

Lemma linked_suffix h p l j m : linked h p l → (j, m) ∈ l → ∃ l1 l2, l = l1 ++ (j, m) :: l2 ∧ linked h (Some j) ((j, m) :: l2).
Proof.
  induction 1 as [|i x l Hi Hl IH]; intros Hin; [by apply not_elem_of_nil in Hin|].
  apply elem_of_cons in Hin as [[= -> ->]|Hin]; [exists [], l; split; [done|by constructor]|].
  destruct (IH Hin) as (l1 & l2 & -> & H2). by exists ((i, x) :: l1), l2.
Qed.

Lemma linked_lookup h p l j m : linked h p l → (j, m) ∈ l → h !! j = Some m.
Proof. intros H Hin. destruct (linked_suffix h p l j m H Hin) as (_ & l2 & _ & H2). by inversion H2. Qed.

(** No mbuf comes twice. *)
Lemma linked_NoDup h p l : linked h p l → NoDup l.*1.
Proof.
  induction 1 as [|i m l Hi Hl IH]; [constructor|]. simpl. constructor; [|done]. intros Hin.
  apply list_elem_of_fmap in Hin as ([j x] & -> & Hin). simpl in *.
  destruct (linked_suffix h _ l j x Hl Hin) as (l1 & l2 & -> & H2).
  assert (Hj := linked_lookup h _ _ j x Hl Hin). rewrite Hi in Hj. injection Hj as <-.
  assert (Heq := linked_det h (Some j) _ _ (linked_cons h j m _ Hi Hl) H2).
  apply (f_equal length) in Heq. simpl in Heq. rewrite length_app in Heq. simpl in Heq. lia.
Qed.

Lemma linked_turns s p l : linked (mbufs s) p l → (length l < turns s)%nat.
Proof.
  intros H. pose proof (linked_NoDup _ _ _ H) as Hnd. unfold turns. rewrite <- (length_fmap fst).
  assert (size (list_to_set (C := gset Z) l.*1) = length l.*1) as <- by (by apply size_list_to_set).
  apply Nat.lt_succ_r. rewrite <- (size_dom (D := gset Z) (mbufs s)). apply subseteq_size.
  intros i Hi. apply elem_of_list_to_set, list_elem_of_fmap in Hi as ([j x] & -> & Hin).
  apply elem_of_dom. exists x. by apply (linked_lookup _ p l).
Qed.

(** Storing a list of mbufs. *)
Fixpoint put_all (l : list (Z * mbuf)) (h : gmap Z mbuf) : gmap Z mbuf :=
  match l with [] => h | (i, m) :: l => put_all l (<[i := m]> h) end.

Lemma put_all_other l h j : j ∉ l.*1 → put_all l h !! j = h !! j.
Proof.
  revert h. induction l as [|[i m] l IH]; intros h Hj; [done|]. simpl in *. rewrite not_elem_of_cons in Hj. destruct Hj.
  rewrite IH by done. by rewrite lookup_insert_ne.
Qed.

Lemma linked_insert h p l i m : linked h p l → i ∉ l.*1 → linked (<[i := m]> h) p l.
Proof.
  induction 1 as [|j x l Hj Hl IH]; intros Hi; [constructor|]. simpl in Hi. rewrite not_elem_of_cons in Hi. destruct Hi.
  constructor; [by rewrite lookup_insert_ne|auto].
Qed.

(** Mbufs changed in place, but for their links. *)
Definition relinked (a b : Z * mbuf) : Prop := a.1 = b.1 ∧ m_next a.2 = m_next b.2 ∧ m_dat a.2 = m_dat b.2.

Lemma linked_put_all h p l l' : linked h p l → Forall2 relinked l l' → linked (put_all l' h) p l'.
Proof.
  intros Hl HF. pose proof (linked_NoDup _ _ _ Hl) as Hnd. revert h p Hl Hnd.
  induction HF as [|[i m] [i' m'] l l' (Hi & Hn & _) HF IH]; intros h p Hl Hnd; inversion Hl; subst; [constructor|].
  simpl in *. subst i'. apply NoDup_cons in Hnd as [Hni Hnd].
  assert (l'.*1 = l.*1) as Hids by (clear -HF; induction HF as [|a b ?? (E & _)]; csimpl; congruence).
  constructor; [rewrite put_all_other, lookup_insert_eq by (by rewrite Hids); done|].
  rewrite <- Hn. apply IH; [by apply linked_insert|done].
Qed.

(** The bytes of an mbuf, and of a chain. *)
Definition area (s : mst) (m : mbuf) : bytes := match bytes_at (m_data m) s with Done b => b | Fail _ => [] end.
Definition mbytes (s : mst) (m : mbuf) : bytes := take (Z.to_nat (m_len m)) (drop (Z.to_nat (addr_off (m_data m))) (area s m)).
Definition contents (s : mst) (l : list (Z * mbuf)) : bytes := concat (map (λ a, mbytes s a.2) l).
Definition total (l : list (Z * mbuf)) : Z := foldr (λ a n, m_len a.2 + n) 0 l.
Definition mbuf_ok (s : mst) (m : mbuf) : Prop :=
  0 <= m_len m < 2 ^ 31 ∧ 0 <= addr_off (m_data m) ∧ addr_off (m_data m) + m_len m <= Z.of_nat (length (area s m)) ∧
  bytes_at (m_data m) s = Done (area s m).

(** A packet: its mbufs' data lie in their areas, and the header, if there is one, has the length of all. *)
Record packet (s : mst) (i : Z) (l : list (Z * mbuf)) : Prop := mk_packet {
  pk_linked : linked (mbufs s) (Some i) l;
  pk_ok : Forall (λ a, mbuf_ok s a.2) l;
  pk_total : total l < 2 ^ 31;
  pk_header m l' : l = (i, m) :: l' → has M_PKTHDR m = true → pkt_len m = total l;
}.

Lemma mbytes_length s m : mbuf_ok s m → Z.of_nat (length (mbytes s m)) = m_len m.
Proof. intros (? & ? & ? & _). unfold mbytes. rewrite length_take, length_drop. lia. Qed.
Lemma contents_length s l : Forall (λ a, mbuf_ok s a.2) l → Z.of_nat (length (contents s l)) = total l.
Proof.
  induction 1 as [|[i m] l Hm _ IH]; [done|]. unfold contents in *. simpl. rewrite length_app. simpl in Hm.
  rewrite Nat2Z.inj_add, IH, mbytes_length by done. done.
Qed.
Lemma total_nonneg s l : Forall (λ a, mbuf_ok s a.2) l → 0 <= total l.
Proof. intros H. rewrite <- (contents_length s l H). lia. Qed.

(** *** Trimming, on lists *)

Definition trim_one (len : Z) (m : mbuf) : mbuf := set_data (shift (m_data m) len) (set_len (m_len m - len) m).
Fixpoint trimmed (len : Z) (l : list (Z * mbuf)) : list (Z * mbuf) :=
  match l with
  | [] => []
  | (i, m) :: l =>
      if 0 <? len then
        if m_len m <=? len then (i, set_len 0 m) :: trimmed (len - m_len m) l else (i, trim_one len m) :: l
      else (i, m) :: l
  end.
Fixpoint kept (count : Z) (l : list (Z * mbuf)) : list (Z * mbuf) :=
  match l with
  | [] => []
  | (i, m) :: l =>
      if count <=? m_len m then (i, set_len count m) :: map (λ a, (a.1, set_len 0 a.2)) l
      else (i, m) :: kept (count - m_len m) l
  end.

Lemma put_all_id h p l : linked h p l → put_all l h = h.
Proof. induction 1 as [|i m l Hi Hl IH]; [done|]. simpl. by rewrite insert_id. Qed.

Lemma upd_spec i f s m : mbufs s !! i = Some m → upd i f s = Done (with_mbufs (<[i := f m]> (mbufs s)) s).
Proof. intros Hm. unfold upd, load. by rewrite Hm. Qed.

Lemma load_spec i s m : mbufs s !! i = Some m → load i s = Done m.
Proof. intros Hm. unfold load. by rewrite Hm. Qed.

Lemma with_mbufs_twice h h' s : with_mbufs h (with_mbufs h' s) = with_mbufs h s.
Proof. done. Qed.
Lemma with_mbufs_id s : with_mbufs (mbufs s) s = s.
Proof. by destruct s. Qed.

(** The bytes an address designates do not change while mbufs keep theirs. *)
Definition same_bytes (s s' : mst) : Prop :=
  clusters s' = clusters s ∧ ∀ i, m_dat <$> mbufs s' !! i = m_dat <$> mbufs s !! i.

Lemma same_at s s' p : same_bytes s s' → bytes_at p s' = bytes_at p s.
Proof.
  intros [Hc Hd]. destruct p as [i off|c off]; simpl; [|by rewrite Hc]. unfold load. specialize (Hd i).
  destruct (mbufs s !! i) as [m|], (mbufs s' !! i) as [m'|]; simpl in *; try done. by injection Hd as ->.
Qed.
Lemma same_ok s s' m : same_bytes s s' → mbuf_ok s m → mbuf_ok s' m.
Proof. intros H. unfold mbuf_ok, area. by rewrite (same_at s s'). Qed.
Lemma same_mbytes s s' m : same_bytes s s' → mbytes s' m = mbytes s m.
Proof. intros H. unfold mbytes, area. by rewrite (same_at s s'). Qed.
Lemma same_contents s s' l : same_bytes s s' → contents s' l = contents s l.
Proof. intros H. unfold contents. f_equal. apply map_ext. intros a. by apply same_mbytes. Qed.

Lemma same_upd s i m m' : mbufs s !! i = Some m → m_dat m' = m_dat m → same_bytes s (with_mbufs (<[i := m']> (mbufs s)) s).
Proof.
  intros Hm Hd. split; [done|]. intros j. cbn [with_mbufs mbufs]. destruct (decide (i = j)) as [<-|].
  - by rewrite lookup_insert_eq, Hm; simpl; rewrite Hd.
  - by rewrite lookup_insert_ne.
Qed.
Lemma same_put_all s p l l' : linked (mbufs s) p l → Forall2 relinked l l' → same_bytes s (with_mbufs (put_all l' (mbufs s)) s).
Proof.
  intros Hl HF. split; [done|]. pose proof (linked_NoDup _ _ _ Hl) as Hnd. intros j. cbn [with_mbufs mbufs].
  revert Hl Hnd. generalize (mbufs s) as h. intros h. revert p h.
  induction HF as [|[i m] [i' m'] l l' (Hi & Hn & Hd) HF IH]; intros p h Hl Hnd; inversion Hl as [|? ? ? Hi0 Hl0]; subst; [done|].
  simpl in *. subst i'. apply NoDup_cons in Hnd as [Hni Hnd]. rewrite (IH (m_next m)); [|by apply linked_insert|done].
  destruct (decide (i = j)) as [<-|]; [rewrite lookup_insert_eq, Hi0; simpl; by rewrite Hd|by rewrite lookup_insert_ne].
Qed.

Lemma trim_head_spec fuel l p len s : linked (mbufs s) p l → (length l < fuel)%nat → Forall (λ a, mbuf_ok s a.2) l →
  trim_head fuel p len s = Done (if 0 <? len then Z.max 0 (len - total l) else len, with_mbufs (put_all (trimmed len l) (mbufs s)) s).
Proof.
  revert l p len s. induction fuel as [|fuel IH]; intros l p len s Hl Hf Hok; [lia|]. cbn [trim_head].
  pose proof (linked_NoDup _ _ _ Hl) as Hnd. destruct Hl as [|i m l Hi Hl].
  { simpl. rewrite with_mbufs_id. destruct (Z.ltb_spec 0 len); do 2 f_equal; lia. }
  inversion_clear Hok as [|?? Hm Hok']. simpl in Hf, Hm, Hnd. apply NoDup_cons in Hnd as [Hni Hnd].
  cbn [trimmed total foldr snd]. fold (total l). destruct (Z.ltb_spec 0 len) as [Hlen|Hlen].
  - rewrite (load_spec i s m), bind_done by done. destruct Hm as (Hm0 & _). destruct (Z.leb_spec (m_len m) len).
    + rewrite (upd_spec i _ s m), bind_done by done. pose proof (total_nonneg s l Hok') as Ht.
      rewrite (IH l); [|cbn [with_mbufs mbufs]; by apply linked_insert|lia|].
      * rewrite with_mbufs_twice. cbn [with_mbufs mbufs]. cbn [put_all]. do 2 f_equal.
        destruct (Z.ltb_spec 0 (len - m_len m)); lia.
      * eapply Forall_impl; [exact Hok'|]. intros a. apply same_ok. by apply same_upd with m.
    + rewrite (upd_spec i _ s m), bind_done by done. destruct fuel as [|fuel]; [lia|]. cbn [trim_head Z.ltb Z.compare].
      cbn [put_all]. rewrite (put_all_id (<[i := _]> (mbufs s)) (m_next m)) by (by apply linked_insert).
      do 2 f_equal. pose proof (total_nonneg s l Hok'). lia.
  - cbn [put_all]. rewrite insert_id by done. rewrite (put_all_id _ (m_next m)) by done. by rewrite with_mbufs_id.
Qed.

Lemma bytes_at_shift p k s : bytes_at (shift p k) s = bytes_at p s.
Proof. by destruct p. Qed.
Lemma addr_off_shift p k : addr_off (shift p k) = addr_off p + k.
Proof. by destruct p. Qed.

Lemma set_len_bytes s m n : mbuf_ok s m → 0 <= n <= m_len m →
  mbuf_ok s (set_len n m) ∧ mbytes s (set_len n m) = take (Z.to_nat n) (mbytes s m).
Proof.
  intros (Hl & Ho & Ha & Hb) Hn. unfold mbuf_ok, mbytes, area in *. cbn [set_len m_len m_data]. rewrite s32_small by lia.
  split; [do 2 (split; [lia|]); split; [lia|done]|]. rewrite take_take. f_equal. lia.
Qed.

Lemma trim_one_bytes s m n : mbuf_ok s m → 0 <= n <= m_len m →
  mbuf_ok s (trim_one n m) ∧ mbytes s (trim_one n m) = drop (Z.to_nat n) (mbytes s m).
Proof.
  intros (Hl & Ho & Ha & Hb) Hn. unfold mbuf_ok, mbytes, area, trim_one in *. cbn [set_len set_data m_len m_data].
  rewrite s32_small, bytes_at_shift, addr_off_shift by lia.
  split; [do 2 (split; [lia|]); split; [lia|done]|]. rewrite skipn_firstn_comm, drop_drop. f_equal; [lia|]. f_equal. lia.
Qed.

Lemma total_cons i m l : total ((i, m) :: l) = m_len m + total l.
Proof. done. Qed.
Lemma contents_cons s i m l : contents s ((i, m) :: l) = mbytes s m ++ contents s l.
Proof. done. Qed.

Lemma trimmed_spec s l n : Forall (λ a, mbuf_ok s a.2) l → 0 <= n →
  Forall2 relinked l (trimmed n l) ∧ Forall (λ a, mbuf_ok s a.2) (trimmed n l) ∧
  contents s (trimmed n l) = drop (Z.to_nat n) (contents s l).
Proof.
  intros Hok. revert n. induction Hok as [|[i m] l Hm Hok IH]; intros n Hn.
  { split; [constructor|]. split; [constructor|]. simpl. by destruct (Z.to_nat n). }
  cbn [trimmed]. simpl in Hm. pose proof (mbytes_length s m Hm) as Hlm. pose proof Hm as (Hl0 & _).
  assert (Hrefl : ∀ l0 : list (Z * mbuf), Forall2 relinked l0 l0) by (intros l0; apply Forall_Forall2_diag, Forall_true; done).
  destruct (Z.ltb_spec 0 n).
  - destruct (Z.leb_spec (m_len m) n) as [Hle|Hlt].
    + destruct (IH (n - m_len m) ltac:(lia)) as (H1 & H2 & H3). destruct (set_len_bytes s m 0 Hm ltac:(lia)) as [Hok0 Hb0].
      split; [by constructor|]. split; [by constructor|]. rewrite !contents_cons, Hb0, H3, drop_app_ge by lia.
      change (take (Z.to_nat 0) (mbytes s m)) with (@nil Z). cbn [app]. f_equal. lia.
    + destruct (trim_one_bytes s m n Hm ltac:(lia)) as [Hok0 Hb0]. split; [constructor; [done|apply Hrefl]|].
      split; [by constructor|]. rewrite !contents_cons, Hb0. rewrite drop_app_le by lia. done.
  - assert (n = 0) as -> by lia. split; [apply Hrefl|]. split; [by constructor|]. done.
Qed.

Lemma zeroed_spec s l : Forall (λ a, mbuf_ok s a.2) l →
  Forall2 relinked l (map (λ a, (a.1, set_len 0 a.2)) l) ∧ Forall (λ a, mbuf_ok s a.2) (map (λ a, (a.1, set_len 0 a.2)) l) ∧
  contents s (map (λ a, (a.1, set_len 0 a.2)) l) = [].
Proof.
  induction 1 as [|[i m] l Hm Hok (H1 & H2 & H3)]; [done|]. simpl in Hm. pose proof Hm as (? & _).
  destruct (set_len_bytes s m 0 Hm ltac:(lia)) as [Hok0 Hb0]. split; [by constructor|]. split; [by constructor|].
  cbn [map fst snd]. by rewrite contents_cons, Hb0, H3.
Qed.

Lemma kept_spec s l n : Forall (λ a, mbuf_ok s a.2) l → 0 <= n <= total l →
  Forall2 relinked l (kept n l) ∧ Forall (λ a, mbuf_ok s a.2) (kept n l) ∧
  contents s (kept n l) = take (Z.to_nat n) (contents s l).
Proof.
  intros Hok. revert n. induction Hok as [|[i m] l Hm Hok IH]; intros n Hn.
  { split; [constructor|]. split; [constructor|]. simpl. by destruct (Z.to_nat n). }
  cbn [kept]. simpl in Hm, Hn. pose proof (mbytes_length s m Hm) as Hlm. fold (total l) in Hn.
  destruct (Z.leb_spec n (m_len m)) as [Hle|Hlt].
  - destruct (set_len_bytes s m n Hm ltac:(lia)) as [Hok0 Hb0]. destruct (zeroed_spec s l Hok) as (H1 & H2 & H3).
    split; [by constructor|]. split; [by constructor|]. rewrite !contents_cons, Hb0, H3, app_nil_r.
    by rewrite take_app_le by lia.
  - destruct (IH (n - m_len m) ltac:(lia)) as (H1 & H2 & H3). split; [by constructor|]. split; [by constructor|].
    rewrite !contents_cons, H3, take_app_ge by lia. do 2 f_equal. lia.
Qed.

(** *** The loops of the other direction *)

Lemma count_chain_spec fuel l i m l' c s : l = (i, m) :: l' → linked (mbufs s) (Some i) l → (length l <= fuel)%nat →
  Forall (λ a, mbuf_ok s a.2) l → 0 <= c → c + total l < 2 ^ 31 →
  ∃ l0 j x, l = l0 ++ [(j, x)] ∧ m_next x = None ∧ count_chain fuel i c s = Done (j, c + total l).
Proof.
  revert l i m l' c. induction fuel as [|fuel IH]; intros l i m l' c -> Hl Hf Hok Hc Ht; [simpl in Hf; lia|].
  inversion Hl as [|? ? ? Hi Hl']; subst. inversion_clear Hok as [|?? Hm Hok']. simpl in Hm, Hf, Ht. fold (total l') in Ht.
  cbn [count_chain]. rewrite (load_spec i s m), bind_done by done. pose proof (total_nonneg s l' Hok'). destruct Hm as (Hm0 & _).
  rewrite s32_small by lia. destruct l' as [|[j x] l2].
  - inversion Hl' as [Hn|]; subst. exists [], i, m. split; [done|]. split; [done|]. do 2 f_equal. simpl. lia.
  - assert (m_next m = Some j) as Hn by (inversion Hl'; congruence). rewrite Hn in *.
    destruct (IH ((j, x) :: l2) j x l2 (c + m_len m) eq_refl) as (l0 & k & y & Heq & Hy & Hrun); try done; try lia.
    exists ((i, m) :: l0), k, y. rewrite Heq. split; [done|]. split; [done|]. rewrite Hrun, Heq. do 2 f_equal.
    rewrite <- Heq, (total_cons i m). lia.
Qed.

Lemma toss_loop_spec fuel l p s : linked (mbufs s) p l → (length l < fuel)%nat →
  toss_loop fuel p s = Done (with_mbufs (put_all (map (λ a, (a.1, set_len 0 a.2)) l) (mbufs s)) s).
Proof.
  revert l p s. induction fuel as [|fuel IH]; intros l p s Hl Hf; [lia|]. cbn [toss_loop].
  pose proof (linked_NoDup _ _ _ Hl) as Hnd. destruct Hl as [|i m l Hi Hl]; [simpl; by rewrite with_mbufs_id|].
  simpl in Hf. csimpl in Hnd. apply NoDup_cons in Hnd as [Hni Hnd].
  rewrite (upd_spec i _ s m), bind_done by done. set (s1 := with_mbufs _ s).
  rewrite (load_spec i s1 (set_len 0 m)), bind_done by (apply lookup_insert_eq).
  by rewrite (IH l) by ((by apply linked_insert) || lia).
Qed.

Lemma keep_toss_spec fuel l p count s : linked (mbufs s) p l → (length l <= fuel)%nat →
  l ≠ [] → Forall (λ a, mbuf_ok s a.2) l → count <= total l →
  ('(m, s) ← keep_loop fuel p count s; x ← load_opt m s; toss_loop (turns s) (m_next x) s) =
  Done (with_mbufs (put_all (kept count l) (mbufs s)) s).
Proof.
  revert l p count s. induction fuel as [|fuel IH]; intros l p count s Hl Hf Hne Hok Hc; [by destruct l; simpl in Hf; [|lia]|].
  pose proof (linked_NoDup _ _ _ Hl) as Hnd. destruct Hl as [|i m l Hi Hl]; [done|]. cbn [keep_loop kept].
  simpl in Hf. csimpl in Hnd. apply NoDup_cons in Hnd as [Hni Hnd]. inversion_clear Hok as [|?? Hm Hok'].
  rewrite (load_spec i s m), bind_done by done. rewrite total_cons in Hc. destruct (Z.leb_spec count (m_len m)).
  - rewrite (upd_spec i _ s m), bind_done, bind_done by done. set (s1 := with_mbufs _ s).
    change (load_opt (Some i) s1) with (load i s1). rewrite (load_spec i s1 (set_len count m)), bind_done by (apply lookup_insert_eq).
    cbn [set_len m_next]. assert (Hl1 : linked (mbufs s1) (m_next m) l) by (by apply linked_insert).
    by rewrite (toss_loop_spec _ l) by (done || by apply (linked_turns s1 (m_next m))).
  - rewrite (IH l); try done; try lia.
    + cbn [put_all]. by rewrite insert_id.
    + intros ->. simpl in Hc. lia.
Qed.

(** *** The trimmed packet *)

Lemma store_list s i l l' : linked (mbufs s) (Some i) l → Forall2 relinked l l' → Forall (λ a, mbuf_ok s a.2) l' →
  let s' := with_mbufs (put_all l' (mbufs s)) s in
  linked (mbufs s') (Some i) l' ∧ Forall (λ a, mbuf_ok s' a.2) l' ∧ contents s' l' = contents s l' ∧ same_bytes s s'.
Proof.
  intros Hl HF Hok' s'. pose proof (same_put_all s _ l l' Hl HF) as Hs.
  split; [by apply linked_put_all with l|]. split; [|split; [by apply same_contents|done]].
  eapply Forall_impl; [exact Hok'|]. intros a. by apply same_ok.
Qed.

(** The length in the packet header, after the mbufs were stored: [upd] of the first one. *)
Definition header_len (n : Z) (l : list (Z * mbuf)) : list (Z * mbuf) :=
  match l with
  | [] => []
  | (i, m) :: l => (i, if has M_PKTHDR m then set_pkthdr n (rcvif m) m else m) :: l
  end.

Lemma header_total n l : total (header_len n l) = total l.
Proof. destruct l as [|[i m] l]; [done|]. simpl. by destruct (has M_PKTHDR m). Qed.

Lemma header_store s i l n : linked (mbufs s) (Some i) l → Forall (λ a, mbuf_ok s a.2) l →
  ∃ s', (x ← load i s; if has M_PKTHDR x then upd i (set_pkthdr n (rcvif x)) s else Done s) = Done s' ∧
    linked (mbufs s') (Some i) (header_len n l) ∧ Forall (λ a, mbuf_ok s' a.2) (header_len n l) ∧
    contents s' (header_len n l) = contents s l ∧ same_bytes s s'.
Proof.
  intros Hl Hok. pose proof (linked_NoDup _ _ _ Hl) as Hnd. inversion Hl as [|? m l0 Hi Hl0]; subst.
  rewrite (load_spec i s m), bind_done by done. cbn [header_len]. destruct (has M_PKTHDR m) eqn:Eh; [|by exists s].
  rewrite (upd_spec i _ s m) by done. eexists. split; [done|].
  set (m' := set_pkthdr _ _ m). assert (Hs : same_bytes s (with_mbufs (<[i := m']> (mbufs s)) s)) by (by apply same_upd with m).
  csimpl in Hnd. apply NoDup_cons in Hnd as [Hni Hnd]. inversion_clear Hok as [|?? Hm Hok'].
  split; [|split; [|split; [|done]]].
  - constructor; [by apply lookup_insert_eq|]. by apply linked_insert.
  - constructor; [by apply (same_ok s)|]. eapply Forall_impl; [exact Hok'|]. intros a. by apply same_ok.
  - by rewrite (same_contents s).
Qed.

(** The first mbuf of a chain has this flag and this header. *)
Definition headed (f : bool) (n : Z) (l : list (Z * mbuf)) : Prop :=
  ∃ i m l', l = (i, m) :: l' ∧ has M_PKTHDR m = f ∧ (f = true → pkt_len m = n).

Lemma packet_headed s i l : packet s i l → ∃ f, headed f (total l) l.
Proof.
  intros [Hl _ _ Hh]. inversion Hl as [|? m l0 Hi Hl0]; subst. exists (has M_PKTHDR m), i, m, l0. split; [done|]. split; [done|].
  by apply (Hh m l0).
Qed.

Lemma trimmed_headed f n k l : headed f n l → headed f n (trimmed k l).
Proof.
  intros (i & m & l' & -> & Hf & Hn). cbn [trimmed]. destruct (0 <? k); [destruct (m_len m <=? k)|]; by eexists _, _, _.
Qed.
Lemma kept_headed f n k l : headed f n l → headed f n (kept k l).
Proof. intros (i & m & l' & -> & Hf & Hn). cbn [kept]. destruct (k <=? m_len m); by eexists _, _, _. Qed.

(** Storing the changed mbufs and then the length in the header makes a packet again. *)
Lemma finish_packet s i l f k : linked (mbufs s) (Some i) l → Forall (λ a, mbuf_ok s a.2) l → total l < 2 ^ 31 →
  headed f (total l + k) l →
  ∃ s', (x ← load i s; if has M_PKTHDR x then upd i (set_pkthdr (pkt_len x - k) (rcvif x)) s else Done s) = Done s' ∧
    packet s' i (header_len (total l) l) ∧ contents s' (header_len (total l) l) = contents s l.
Proof.
  intros Hl Hok Ht (i' & m & l' & -> & Hf & Hn). pose proof (total_nonneg _ _ Hok) as Ht0.
  destruct (header_store s i _ (total ((i', m) :: l')) Hl Hok) as (s' & Hrun & Hl' & Hok' & Hc & _).
  assert (i' = i ∧ mbufs s !! i = Some m) as [-> Hi] by (by inversion Hl).
  exists s'. rewrite (load_spec i s m), bind_done in Hrun |- * by done.
  split.
  - rewrite <- Hrun. destruct (has M_PKTHDR m); [|done]. by rewrite (Hn (eq_sym Hf)), Z.add_simpl_r.
  - split; [|done]. split; [done|done|by rewrite header_total|]. rewrite header_total. intros m1 l1 He Hh.
    cbn [header_len] in He. injection He as <- <-. destruct (has M_PKTHDR m) eqn:E; [|congruence].
    cbn [set_pkthdr pkt_len]. rewrite total_cons in *. rewrite s32_small by (split; [|exact Ht]; lia). done.
Qed.

Lemma total_app l l' : total (l ++ l') = total l + total l'.
Proof. induction l as [|[i m] l IH]; [done|]. cbn [app]. rewrite !total_cons, IH. lia. Qed.
Lemma contents_app s l l' : contents s (l ++ l') = contents s l ++ contents s l'.
Proof. unfold contents. by rewrite map_app, concat_app. Qed.

Lemma relinked_refl l : Forall2 relinked l l.
Proof. apply Forall_Forall2_diag, Forall_true. done. Qed.

Lemma put_all_snoc h p l j x x' : linked h p (l ++ [(j, x)]) → put_all (l ++ [(j, x')]) h = <[j := x']> h.
Proof.
  revert h p. induction l as [|[i m] l IH]; intros h p Hl; [done|]. cbn [app] in *. inversion Hl as [|? ? ? Hi Hl']; subst.
  cbn [put_all]. rewrite insert_id by done. by apply (IH _ (m_next m)).
Qed.

(** The last mbuf shortened. *)
Lemma shorten_last s l j x n : Forall (λ a, mbuf_ok s a.2) (l ++ [(j, x)]) → 0 <= n <= m_len x →
  let l' := l ++ [(j, set_len (m_len x - n) x)] in
  Forall2 relinked (l ++ [(j, x)]) l' ∧ Forall (λ a, mbuf_ok s a.2) l' ∧
  contents s l' = take (Z.to_nat (total (l ++ [(j, x)]) - n)) (contents s (l ++ [(j, x)])).
Proof.
  intros Hok Hn l'. apply Forall_app in Hok as [Hok1 Hok2]. inversion_clear Hok2 as [|?? Hx _]. simpl in Hx.
  destruct (set_len_bytes s x (m_len x - n) Hx ltac:(lia)) as [Hx' Hb]. split; [apply Forall2_app; [apply relinked_refl|by repeat constructor]|].
  split; [apply Forall_app; split; [done|by constructor; [|constructor]]|]. pose proof (mbytes_length s x Hx) as Hlx.
  unfold l'. rewrite !contents_app, total_app, !contents_cons, Hb. pose proof (contents_length s l Hok1) as Hlc.
  rewrite total_cons. change (total []) with 0. change (contents s []) with (@nil Z). rewrite !app_nil_r.
  rewrite take_app_ge by lia. do 2 f_equal. lia.
Qed.

Lemma shorten_headed f n l j x k : headed f n (l ++ [(j, x)]) → headed f n (l ++ [(j, set_len k x)]).
Proof.
  intros (i & m & l' & He & Hf & Hn). destruct l as [|[i0 m0] l]; simpl in *; injection He as -> -> <-; by eexists _, _, _.
Qed.

(** *** [m_adj] *)

Definition adj_result (s : mst) (i : Z) (l : list (Z * mbuf)) (x : bytes) (r : outcome mst) : Prop :=
  ∃ s' l', r = Done s' ∧ packet s' i l' ∧ contents s' l' = x.

Lemma adj_head s i l req : packet s i l → 0 <= req < 2 ^ 31 →
  adj_result s i l (drop (Z.to_nat req) (contents s l)) (m_adj (Some i) req s).
Proof.
  intros Hp Hreq. pose proof Hp as [Hl Hok Ht _]. destruct (packet_headed _ _ _ Hp) as [f Hh].
  destruct (trimmed_spec s l req Hok ltac:(lia)) as (HF & Hok1 & Hc).
  pose proof (contents_length s _ Hok) as Hlc. pose proof (contents_length s _ Hok1) as Hlc1. rewrite Hc, length_drop in Hlc1.
  unfold m_adj. rewrite (proj2 (Z.leb_le 0 req)) by lia.
  rewrite (trim_head_spec _ l), bind_done by (done || (pose proof (linked_turns s _ l Hl); lia)).
  destruct (store_list s i l (trimmed req l) Hl HF Hok1) as (Hl1 & Hok1' & Hc1 & Hs).
  set (s1 := with_mbufs _ s) in *. set (k := req - _).
  assert (Hk : total (trimmed req l) + k = total l) by (unfold k; destruct (Z.ltb_spec 0 req); lia).
  destruct (finish_packet s1 i _ f k Hl1 Hok1' ltac:(lia)) as (s2 & Hrun & Hp2 & Hc2).
  { rewrite Hk. by apply trimmed_headed. }
  exists s2, (header_len (total (trimmed req l)) (trimmed req l)). split; [done|]. split; [done|]. by rewrite Hc2, Hc1, Hc.
Qed.

Lemma adj_tail_last s i l0 j x n : packet s i (l0 ++ [(j, x)]) → 0 <= n <= m_len x →
  adj_result s i (l0 ++ [(j, x)]) (take (Z.to_nat (total (l0 ++ [(j, x)]) - n)) (contents s (l0 ++ [(j, x)])))
    (s ← upd j (set_len (m_len x - n)) s;
     x ← load i s; if has M_PKTHDR x then upd i (set_pkthdr (pkt_len x - n) (rcvif x)) s else Done s).
Proof.
  intros Hp Hn. pose proof Hp as [Hl Hok Ht _]. destruct (packet_headed _ _ _ Hp) as [f Hh].
  destruct (shorten_last s l0 j x n Hok Hn) as (HF & Hok1 & Hc). set (l1 := l0 ++ [(j, set_len _ x)]) in *.
  pose proof (contents_length s _ Hok) as Hlc. pose proof (contents_length s _ Hok1) as Hlc1. rewrite Hc, length_take in Hlc1.
  assert (Hn' : n <= total (l0 ++ [(j, x)])) by (apply Forall_app in Hok as [Hok0 _]; pose proof (total_nonneg s l0 Hok0);
    rewrite total_app, total_cons; change (total []) with 0; lia).
  rewrite (upd_spec j _ s x), bind_done by (apply (linked_lookup _ _ _ _ _ Hl); set_solver).
  destruct (store_list s i _ l1 Hl HF Hok1) as (Hl1 & Hok1' & Hc1 & Hs).
  unfold l1 in Hl1, Hok1', Hc1 at 1. rewrite (put_all_snoc _ _ l0 j x _ Hl) in Hl1, Hok1', Hc1. fold l1 in Hl1, Hok1', Hc1.
  destruct (finish_packet _ i _ f n Hl1 Hok1' ltac:(lia)) as (s2 & Hrun & Hp2 & Hc2).
  { replace (total l1 + n) with (total (l0 ++ [(j, x)])) by lia. by apply shorten_headed. }
  exists s2, (header_len (total l1) l1). split; [done|]. split; [done|]. by rewrite Hc2, Hc1, Hc.
Qed.

Lemma adj_tail_far s i l n : packet s i l → 0 <= n <= total l →
  adj_result s i l (take (Z.to_nat n) (contents s l))
    (x ← load i s;
     s ← (if has M_PKTHDR x then upd i (set_pkthdr n (rcvif x)) s else Done s);
     '(m, s) ← keep_loop (turns s) (Some i) n s;
     x ← load_opt m s;
     toss_loop (turns s) (m_next x) s).
Proof.
  intros [Hl Hok Ht _] Hn. rewrite bind_assoc.
  destruct (header_store s i l n Hl Hok) as (s1 & -> & Hl1 & Hok1 & Hc1 & _). rewrite bind_done. set (l1 := header_len n l) in *.
  assert (Ht1 : total l1 = total l) by apply header_total.
  assert (Hh : ∃ f, headed f n l1).
  { inversion Hl as [|? m l' Hi Hl' Hp Hl0]; subst. exists (has M_PKTHDR m). unfold l1. cbn [header_len].
    destruct (has M_PKTHDR m) eqn:E; eexists _, _, _; (split; [done|]); (split; [done|]); [|done].
    intros _. cbn [set_pkthdr pkt_len]. by rewrite s32_small by lia. }
  destruct Hh as [f Hh]. destruct (kept_spec s1 l1 n Hok1 ltac:(lia)) as (HF & Hok2 & Hc2).
  pose proof (contents_length s1 _ Hok1) as Hlc. pose proof (contents_length s1 _ Hok2) as Hlc2. rewrite Hc2, length_take in Hlc2.
  rewrite (keep_toss_spec _ l1) by (done || lia || (pose proof (linked_turns _ _ _ Hl1); lia) || (intros ->; by inversion Hl1)).
  destruct (store_list s1 i l1 (kept n l1) Hl1 HF Hok2) as (Hl2 & Hok2' & Hc2' & _).
  eexists _, (kept n l1). split; [done|]. split; [split; [done|done|lia|]|by rewrite Hc2', Hc2, Hc1].
  intros m l' He Hm. destruct (kept_headed f n n l1 Hh) as (i2 & m2 & l2 & He2 & Hf & Hpl). rewrite He in He2.
  injection He2 as -> -> ->. rewrite Hpl by congruence. lia.
Qed.

(** C22: m_adj trims a packet: a positive request drops that many bytes from the front of the chain, a
    negative one from its end, everything if there are fewer; the mbufs stay linked with their data in their
    areas, and the length in the packet header is again the number of bytes in the chain. *)
Theorem m_adj_trims s i l req (Hp : packet s i l) (Hreq : - 2 ^ 31 < req < 2 ^ 31) :
  ∃ s' l', m_adj (Some i) req s = Done s' ∧ packet s' i l' ∧
    contents s' l' = if 0 <=? req then drop (Z.to_nat req) (contents s l)
                     else take (Z.to_nat (total l + req)) (contents s l).
Proof.
  destruct (Z.leb_spec 0 req) as [H0|H0]; [apply adj_head; [done|lia]|]. pose proof Hp as [Hl Hok Ht _].
  unfold m_adj. rewrite (proj2 (Z.leb_gt 0 req)) by lia. rewrite (s32_small (- req)) by lia.
  assert (∃ m l0, l = (i, m) :: l0) as (m & l0 & El) by (inversion Hl; eauto).
  destruct (count_chain_spec (turns s) l i m l0 0 s El Hl ltac:(pose proof (linked_turns _ _ _ Hl); lia) Hok ltac:(lia) ltac:(lia))
    as (l1 & j & x & -> & _ & ->).
  assert (Hx : mbufs s !! j = Some x) by (apply (linked_lookup _ _ _ _ _ Hl); set_solver).
  assert (Hnn : 0 <= total (l1 ++ [(j, x)])) by (by apply (total_nonneg s)).
  rewrite bind_done, Z.add_0_l, (load_spec j s x), bind_done by done. destruct (Z.leb_spec (- req) (m_len x)) as [Hle|Hgt].
  - replace (total (l1 ++ [(j, x)]) + req) with (total (l1 ++ [(j, x)]) - - req) by lia. apply adj_tail_last; [done|lia].
  - rewrite s32_small by lia. set (n := if _ <? 0 then _ else _).
    assert (Hn : n = Z.max 0 (total (l1 ++ [(j, x)]) + req)) by (unfold n; destruct (Z.ltb_spec (total (l1 ++ [(j, x)]) - - req) 0); lia).
    replace (Z.to_nat (total (l1 ++ [(j, x)]) + req)) with (Z.to_nat n) by lia. apply adj_tail_far; [done|lia].
Qed.

(** *** [m_copydata] *)

Lemma copy_out_spec s m off n : mbuf_ok s m → 0 <= off → 0 <= n → off + n <= m_len m →
  copy_out (shift (m_data m) off) n s = Done (take (Z.to_nat n) (drop (Z.to_nat off) (mbytes s m))).
Proof.
  intros (Hl & Ho & Ha & Hb) Hoff Hn Hle. unfold copy_out. rewrite bytes_at_shift, Hb, bind_done, addr_off_shift, u32_small by lia.
  rewrite sub_buf_ok by lia. unfold mbytes. rewrite skipn_firstn_comm, drop_drop, take_take. do 2 f_equal; [lia|]. f_equal. lia.
Qed.

Lemma copy_loop_spec fuel l p off len s : linked (mbufs s) p l → (length l < fuel)%nat → Forall (λ a, mbuf_ok s a.2) l →
  0 <= off → 0 <= len → off + len <= total l → total l < 2 ^ 31 → (0 < len → ∀ i m l', l = (i, m) :: l' → off <= m_len m) →
  copy_loop fuel p off len s = Done (take (Z.to_nat len) (drop (Z.to_nat off) (contents s l))).
Proof.
  revert l p off len. induction fuel as [|fuel IH]; intros l p off len Hl Hf Hok Hoff Hlen Ht Ht31 Hhd; [lia|]. cbn [copy_loop].
  destruct (Z.ltb_spec 0 len) as [Hp|Hp]; [|by assert (len = 0) as -> by lia].
  destruct Hl as [|i m l Hi Hl]; [simpl in Ht; lia|]. specialize (Hhd Hp i m l eq_refl). rewrite total_cons in Ht, Ht31.
  inversion_clear Hok as [|?? Hm Hok']. simpl in Hm, Hf. pose proof (total_nonneg s l Hok') as Htl. pose proof Hm as (Hm31 & _).
  pose proof (mbytes_length s m Hm) as Hlm. pose proof (contents_length s l Hok') as Hlc.
  change (load_opt (Some i) s) with (load i s). rewrite (load_spec i s m), bind_done by done.
  set (c := if len <? m_len m - off then len else m_len m - off).
  assert (Hc : c = Z.min len (m_len m - off)) by (unfold c; destruct (Z.ltb_spec len (m_len m - off)); lia).
  rewrite copy_out_spec, bind_done by (done || lia). rewrite (u32_small c), (u32_small (len - c)), s32_small by lia.
  rewrite (IH l), bind_done; [|done|lia|done|lia|lia|lia|lia|].
  - f_equal. rewrite contents_cons, drop_app_le by lia. change (drop (Z.to_nat 0) (contents s l)) with (contents s l).
    destruct (Z.le_gt_cases len (m_len m - off)).
    + assert (Z.to_nat (len - c) = 0%nat) as -> by lia. rewrite take_app_le by (rewrite length_drop; lia).
      cbn [take]. rewrite app_nil_r. f_equal. lia.
    + rewrite take_app_ge by (rewrite length_drop; lia). rewrite (take_ge (drop _ _)) by (rewrite length_drop; lia).
      rewrite length_drop. do 2 f_equal. lia.
  - intros _ j x l' ->. inversion_clear Hok' as [|?? Hx _]. destruct Hx as (? & _). simpl in *. lia.
Qed.

Lemma skip_off_spec fuel l p off s : linked (mbufs s) p l → (length l < fuel)%nat → Forall (λ a, mbuf_ok s a.2) l → 0 <= off < total l →
  ∃ l1 i m l2 off', l = l1 ++ (i, m) :: l2 ∧ linked (mbufs s) (Some i) ((i, m) :: l2) ∧ off = total l1 + off' ∧ 0 <= off' <= m_len m ∧
    skip_off fuel p off s = Done (Some i, off').
Proof.
  revert l p off. induction fuel as [|fuel IH]; intros l p off Hl Hf Hok Ho; [lia|]. cbn [skip_off].
  destruct Hl as [|i m l Hi Hl]; [simpl in Ho; lia|]. inversion_clear Hok as [|?? Hm Hok']. simpl in Hm, Hf. pose proof Hm as (Hm31 & _).
  rewrite total_cons in Ho. destruct (Z.ltb_spec 0 off) as [Hpos|].
  - change (load_opt (Some i) s) with (load i s). rewrite (load_spec i s m), bind_done by done.
    destruct (Z.ltb_spec off (m_len m)); [exists [], i, m, l, off; simpl; split; [done|]; split; [by constructor|]; split; [lia|]; split; [lia|done]|].
    destruct (IH l (m_next m) (off - m_len m)) as (l1 & j & x & l2 & off' & -> & Hl2 & Hoff & Hx & Hrun); [done|lia|done|lia|].
    exists ((i, m) :: l1), j, x, l2, off'. rewrite total_cons. split; [done|]. split; [done|]. split; [lia|]. done.
  - exists [], i, m, l, 0. assert (off = 0) as -> by lia. split; [done|]. split; [by constructor|]. split; [done|]. split; [lia|done].
Qed.

(** M_copydata copies exactly the bytes off, off + 1, ..., off + len - 1 of a chain, across its mbufs
    and past empty ones, if none of them has a cluster and the bytes are there. *)
Theorem m_copydata_copies s i l off len (Hp : packet s i l) (Hext : Forall (λ a, has M_EXT a.2 = false) l)
    (Hoff : 0 <= off < total l) (Hlen : 0 <= len) (Hin : off + len <= total l) :
  m_copydata (Some i) off len s = Done (take (Z.to_nat len) (drop (Z.to_nat off) (contents s l))).
Proof.
  destruct Hp as [Hl Hok Ht _]. pose proof (linked_turns _ _ _ Hl) as Hf.
  destruct (skip_off_spec (Datatypes.S (turns s)) l (Some i) off s Hl ltac:(lia) Hok Hoff) as (l1 & j & x & l2 & off' & -> & Hl2 & Ho & Hx & Hrun).
  unfold m_copydata. rewrite Hrun, bind_done. change (load_opt (Some j) s) with (load j s).
  assert (Hj : (j, x) ∈ l1 ++ (j, x) :: l2) by set_solver.
  rewrite (load_spec j s x), bind_done by (by apply (linked_lookup _ _ _ _ _ Hl)).
  rewrite Forall_forall in Hext. pose proof (Hext _ Hj) as Hx0. simpl in Hx0. rewrite Hx0.
  apply Forall_app in Hok as [Hok1 Hok2]. rewrite total_app, total_cons in *. pose proof (contents_length s l1 Hok1) as Hlc.
  rewrite (copy_loop_spec _ ((j, x) :: l2)); try done; try lia.
  - rewrite contents_app, drop_app_ge by lia. do 3 f_equal. lia.
  - rewrite length_app in Hf. simpl in *. lia.
  - rewrite total_cons. lia.
  - rewrite total_cons. pose proof (total_nonneg s l1 Hok1). lia.
  - intros _ i1 m1 l' [= <- <- <-]. lia.
Qed.

(** *** [m_devget] *)

(** The next [kzalloc]s succeed, with addresses that are not in use. *)
Definition fresh (s : mst) (ids : list Z) : Prop :=
  (∃ rest, memory s = map Some ids ++ rest) ∧ NoDup ids ∧ Forall (λ i, mbufs s !! i = None ∧ clusters s !! i = None) ids.

(** Nothing that was there before is touched. *)
Definition extends (s s' : mst) : Prop := ∀ p b, bytes_at p s = Done b → bytes_at p s' = Done b.

Lemma extends_ok s s' m : extends s s' → mbuf_ok s m → mbuf_ok s' m ∧ mbytes s' m = mbytes s m.
Proof.
  intros H (? & ? & ? & Hb). pose proof (H _ _ Hb) as Hb'.
  assert (area s' m = area s m) as Ha by (unfold area at 1; by rewrite Hb'). unfold mbuf_ok, mbytes. by rewrite Ha.
Qed.
Lemma extends_all s s' l : extends s s' → Forall (λ a, mbuf_ok s a.2) l → Forall (λ a, mbuf_ok s' a.2) l ∧ contents s' l = contents s l.
Proof.
  intros H. induction 1 as [|[i m] l Hm Hok [IH1 IH2]]; [done|]. destruct (extends_ok s s' m H Hm) as [Hm' Hb].
  split; [by constructor|]. by rewrite !contents_cons, Hb, IH2.
Qed.
Lemma same_extends s s' : same_bytes s s' → extends s s'.
Proof. intros H p b. by rewrite (same_at s s'). Qed.
Lemma extends_trans s s' s'' : extends s s' → extends s' s'' → extends s s''.
Proof. unfold extends. eauto. Qed.

Lemma fresh_new s i ids pk type : fresh s (i :: ids) →
  ∃ s', new_mbuf pk type s = (Some i, s') ∧ mbufs s' = <[i := mbuf_init i pk type]> (mbufs s) ∧ clusters s' = clusters s ∧
    fresh s' ids ∧ extends s s'.
Proof.
  intros [[rest Hm] [Hnd Hf]]. inversion_clear Hf as [|?? [Hi Hc] Hf']. apply NoDup_cons in Hnd as [Hni Hnd].
  unfold new_mbuf, kzalloc. rewrite Hm. cbn [map app]. eexists. split; [done|]. split; [done|]. split; [done|]. split.
  - split; [by exists rest|]. split; [done|]. rewrite Forall_forall in *. intros j Hj. cbn [mbufs clusters].
    rewrite lookup_insert_ne by (intros ->; done). by apply Hf'.
  - intros [j off|c off] b; [|done]. simpl. unfold load. cbn [mbufs]. destruct (decide (i = j)) as [->|]; [by rewrite Hi|].
    by rewrite lookup_insert_ne.
Qed.

(** Only the bytes of mbuf [m] and of clusters that are not in [s0] may change. *)
Definition keeps (s0 : mst) (m : Z) (s s' : mst) : Prop :=
  (∀ i, i ≠ m → mbufs s' !! i = mbufs s !! i) ∧ (∀ c b, clusters s0 !! c = Some b → clusters s !! c = Some b → clusters s' !! c = Some b).

(** [m] is an mbuf without a link, with room for [len] bytes at its [m_data], of which nothing is used. *)
Record room (s : mst) (m : Z) (x : mbuf) (len : Z) (b : bytes) : Prop := mk_room {
  rm_mbuf : mbufs s !! m = Some x;
  rm_next : m_next x = None;
  rm_bytes : bytes_at (m_data x) s = Done b;
  rm_own i off : m_data x = InMbuf i off → i = m;
  rm_len : 0 <= addr_off (m_data x) ∧ 0 <= len ∧ addr_off (m_data x) + len <= Z.of_nat (length b) ∧ Z.of_nat (length b) <= 2048;
}.

(** What an mbuf is after its bytes were copied in. *)
Record filled (s0 s s' : mst) (m : Z) (x x' : mbuf) (data : bytes) (n : Z) : Prop := mk_filled {
  fi_len : m_len x' = n ∧ 0 <= n <= Z.of_nat (length data);
  fi_mbuf : mbufs s' !! m = Some x' ∧ m_next x' = None;
  fi_head : has M_PKTHDR x' = has M_PKTHDR x ∧ pkt_len x' = pkt_len x;
  fi_ok : mbuf_ok s' x' ∧ mbytes s' x' = take (Z.to_nat n) data;
  fi_keeps : keeps s0 m s s';
  fi_memory : memory s' = memory s;
  fi_new c : clusters s !! c = None → clusters s' !! c = None;
}.

Lemma put_middle (b x : bytes) (off : nat) : (off + length x <= length b)%nat →
  take (length x) (drop off (take off b ++ x ++ drop (off + length x) b)) = x.
Proof. intros H. rewrite drop_app_length' by (rewrite length_take; lia). by rewrite take_app_length. Qed.

(** How an mbuf holds its bytes: whether in a cluster, from where on, and how many. *)
Definition shape (x : mbuf) : bool * Z * Z := (has M_EXT x, addr_off (m_data x), m_len x).

(** The mbuf for the next [left] bytes of a packet, the first or another, with [off] bytes to be left out before them: a
    cluster when it pays, else the mbuf's own area, in the first behind the packet header and, when everything fits with it,
    behind the room for a link header. *)
Definition devget_place (max_linkhdr : Z) (first : bool) (off left : Z) : bool * Z * Z :=
  if MINCLSIZE <=? left + off then (true, off, Z.min (MCLBYTES - off) left) else
  let len := if first then MHLEN else MLEN in
  let room := if first && (left + off + max_linkhdr <=? len) then max_linkhdr else 0 in
  (false, MLEN - len + room + off, Z.min (len - room - off) left).

(** The mbufs of a packet of [left] bytes, one after the other, until no byte is left. *)
Fixpoint devget_shape (max_linkhdr : Z) (first : bool) (off left : Z) (ps : list (bool * Z * Z)) : Prop :=
  match ps with
  | [] => left = 0
  | p :: ps => 0 < left ∧ p = devget_place max_linkhdr first off left ∧ devget_shape max_linkhdr false 0 (left - p.2) ps
  end.

(** The stores behind the choice of the room. *)
Definition fill_tail (m off len : Z) (data : bytes) (s : mst) : outcome (Z * Z * mst) :=
  '(len, s) ← (if negb (off =? 0) then s ← upd m (λ x, set_data (shift (m_data x) off) x) s; Done (len - off, s)
               else Done (len, s));
  let len := if len <? Z.of_nat (length data) then len else Z.of_nat (length data) in
  s ← upd m (set_len len) s;
  x ← load m s;
  b ← sub_buf data 0 (u32 len);
  s ← copy_in (m_data x) b s;
  Done (m, len, s).

Lemma shift_off m off len s x : mbufs s !! m = Some x →
  (if negb (off =? 0) then s ← upd m (λ x, set_data (shift (m_data x) off) x) s; Done (len - off, s) else Done (len, s)) =
  Done (len - off, with_mbufs (<[m := set_data (shift (m_data x) off) x]> (mbufs s)) s).
Proof.
  intros Hx. destruct (Z.eqb_spec off 0) as [->|Hne]; cbn [negb]; [|by rewrite (upd_spec m _ s x) by done].
  rewrite Z.sub_0_r. assert (set_data (shift (m_data x) 0) x = x) as ->; [|by rewrite insert_id, with_mbufs_id].
  destruct x as [? ? ? p]. unfold set_data; simpl. destruct p; simpl; by rewrite Z.add_0_r.
Qed.

Lemma copy_in_spec s0 m x3 s b v off : mbufs s !! m = Some x3 → bytes_at (m_data x3) s = Done b → addr_off (m_data x3) = off →
  (∀ i o, m_data x3 = InMbuf i o → i = m) → (∀ c o, m_data x3 = InClus c o → clusters s0 !! c = None) →
  0 <= off → off + Z.of_nat (length v) <= Z.of_nat (length b) →
  let b' := take (Z.to_nat off) b ++ v ++ drop (Z.to_nat off + length v) b in
  ∃ s' x4, copy_in (m_data x3) v s = Done s' ∧ mbufs s' !! m = Some x4 ∧ (x4 = x3 ∨ x4 = set_dat b' x3) ∧
    bytes_at (m_data x3) s' = Done b' ∧ keeps s0 m s s' ∧ memory s' = memory s ∧
    ∀ c, clusters s !! c = None → clusters s' !! c = None.
Proof.
  intros Hm Hb Ho Hown Hc0 Hoff Hfit b'. unfold copy_in. rewrite Hb, bind_done, put_buf_ok, bind_done by lia. rewrite Ho. fold b'.
  destruct (m_data x3) as [i o|c o] eqn:Ed; simpl in Ho; subst o.
  - rewrite (Hown i off eq_refl) in *. rewrite (upd_spec m _ s x3) by done. eexists _, (set_dat b' x3). split; [done|].
    split; [apply lookup_insert_eq|]. split; [by right|]. split; [simpl; unfold load; cbn; by rewrite lookup_insert_eq|].
    split; [|done]. split; [|done]. intros j Hj. cbn. by rewrite lookup_insert_ne.
  - simpl in Hb. apply deref_Done in Hb. eexists _, x3. split; [done|]. split; [done|]. split; [by left|]. split; [simpl; by rewrite lookup_insert_eq|].
    split; [split; [done|]|split; [done|]].
    + intros c' b0 Hc' Hb0. cbn. rewrite lookup_insert_ne; [done|]. intros <-. by rewrite (Hc0 c off eq_refl) in Hc'.
    + intros c' Hc'. cbn. rewrite lookup_insert_ne; [done|]. intros <-. by rewrite Hb in Hc'.
Qed.

Lemma fill_tail_spec s0 s m x off len data b : room s m x len b → 0 <= off <= len → Z.of_nat (length data) < 2 ^ 31 →
  (∀ c o, m_data x = InClus c o → clusters s0 !! c = None) →
  let n := Z.min (len - off) (Z.of_nat (length data)) in
  ∃ s' x', fill_tail m off len data s = Done (m, n, s') ∧ filled s0 s s' m x x' data n ∧
    shape x' = (has M_EXT x, addr_off (m_data x) + off, n).
Proof.
  intros [Hm Hnx Hb Hown (Ho & Hl & Hfit & H2048)] Hoff H31 Hc0 n. unfold fill_tail.
  rewrite (shift_off m off len s x Hm), bind_done. set (x1 := set_data _ x). set (s1 := with_mbufs _ s).
  set (n' := if _ <? _ then _ else _).
  assert (n' = n) as -> by (unfold n', n; destruct (Z.ltb_spec (len - off) (Z.of_nat (length data))); lia).
  assert (Hm1 : mbufs s1 !! m = Some x1) by apply lookup_insert_eq.
  rewrite (upd_spec m _ s1 x1), bind_done by done. set (x2 := set_len n x1). set (s2 := with_mbufs _ s1).
  assert (Hm2 : mbufs s2 !! m = Some x2) by apply lookup_insert_eq.
  rewrite (load_spec m s2 x2), bind_done by done. rewrite u32_small by lia. rewrite sub_buf_ok, bind_done by lia.
  change (drop (Z.to_nat 0) data) with data. set (v := take (Z.to_nat n) data).
  assert (Hlv : length v = Z.to_nat n) by (unfold v; rewrite length_take; lia).
  assert (Hsb : same_bytes s s2).
  { split; [done|]. intros j. unfold s2, s1. cbn. rewrite insert_insert_eq. destruct (decide (m = j)) as [<-|];
      [by rewrite lookup_insert_eq, Hm|by rewrite lookup_insert_ne]. }
  assert (Hd2 : m_data x2 = shift (m_data x) off) by done.
  destruct (copy_in_spec s0 m x2 s2 b v (addr_off (m_data x) + off)) as (s' & x' & Hrun & Hm' & Hx' & Hb' & Hk & Hmem & Hnew); try done; try lia.
  { rewrite Hd2, bytes_at_shift, (same_at s s2) by done. done. }
  { by rewrite Hd2, addr_off_shift. }
  { intros i o Hio. rewrite Hd2 in Hio. destruct (m_data x) as [i0 o0|] eqn:E; [|done]. injection Hio as <- _. by apply (Hown i0 o0). }
  { intros c o Hco. rewrite Hd2 in Hco. destruct (m_data x) as [|c0 o0] eqn:E; [done|]. injection Hco as <- _. by apply (Hc0 c0 o0). }
  rewrite Hrun, bind_done. exists s', x'. split; [done|].
  assert (Hsame : m_len x' = n ∧ m_next x' = None ∧ m_data x' = m_data x2 ∧ m_flags x' = m_flags x ∧ pkt_len x' = pkt_len x).
  { destruct Hx' as [-> | ->]; (split; [by unfold x2; cbn; rewrite s32_small by lia|]); done. }
  destruct Hsame as (Hln & Hnx' & Hdx & Hfl & Hpl).
  split; [|by unfold shape, has; rewrite Hfl, Hdx, Hd2, addr_off_shift, Hln].
  set (b' := take _ b ++ v ++ _) in *.
  assert (Hlb : length b' = length b) by (unfold b'; rewrite !length_app, length_take, length_drop; lia).
  assert (Ha : area s' x' = b') by (unfold area; by rewrite Hdx, Hb').
  split; [split; [done|lia]|done|split; [unfold has; by rewrite Hfl|done]| |
    |by rewrite Hmem|by intros c Hc; apply Hnew].
  - unfold mbuf_ok, mbytes. rewrite Ha, Hln, Hdx, Hb'.
    assert (addr_off (m_data x2) = addr_off (m_data x) + off) as -> by (by rewrite Hd2, addr_off_shift).
    split; [split; [lia|]; split; [lia|]; split; [lia|done]|].
    change (take (Z.to_nat n) data) with v. unfold b'. rewrite <- Hlv. apply put_middle. lia.
  - destruct Hk as [Hk1 Hk2]. split; [|done]. intros j Hj. rewrite Hk1 by done. unfold s2, s1. cbn. by rewrite !lookup_insert_ne.
Qed.

Lemma keeps_refl s0 m s : keeps s0 m s s.
Proof. by split. Qed.
Lemma keeps_trans s0 m s1 s2 s3 : keeps s0 m s1 s2 → keeps s0 m s2 s3 → keeps s0 m s1 s3.
Proof. intros [H1 H2] [H3 H4]. split; [intros i Hi; rewrite H3, H1 by done; done|]. intros c b H0 Hb. apply H4; [done|]. by apply H2. Qed.

Lemma fresh_keeps s s' m ids : fresh s ids → memory s' = memory s → (∀ i, i ≠ m → mbufs s' !! i = mbufs s !! i) →
  m ∉ ids → (∀ i, i ∈ ids → clusters s' !! i = clusters s !! i) → fresh s' ids.
Proof.
  intros [[rest Hm] [Hnd Hf]] Hmem Hmb Hni Hcl. split; [exists rest; by rewrite Hmem|]. split; [done|].
  rewrite Forall_forall in *. intros i Hi. rewrite Hmb by (intros ->; done). rewrite Hcl by done. by apply Hf.
Qed.

Lemma has_or_ext f x : Z.land f M_EXT = 0 → has f (set_flags (Z.lor (m_flags x) M_EXT) x) = has f x.
Proof. intros Hf. unfold has. cbn [set_flags m_flags]. by rewrite Z.land_lor_distr_l, (Z.land_comm M_EXT), Hf, Z.lor_0_r. Qed.
Lemma has_ext x : has M_EXT (set_flags (Z.lor (m_flags x) M_EXT) x) = true.
Proof.
  unfold has. cbn [set_flags m_flags]. rewrite Z.land_lor_distr_l. change (Z.land M_EXT M_EXT) with (2 ^ 2).
  destruct (Z.eqb_spec (Z.lor (Z.land (m_flags x) M_EXT) (2 ^ 2)) 0) as [E|]; [|done].
  apply Z.lor_eq_0_iff in E as [_ E]. discriminate.
Qed.

(** What [m_clget] does to an mbuf that is there. *)
Lemma clget_spec s m x c ids : mbufs s !! m = Some x → m_next x = None → fresh s (c :: ids) →
  ∃ s' x', m_clget (Some m) s = Done (Some m, s') ∧ room s' m x' MCLBYTES (replicate 2048 0) ∧ m_data x' = InClus c 0 ∧
    has M_EXT x' = true ∧ has M_PKTHDR x' = has M_PKTHDR x ∧ pkt_len x' = pkt_len x ∧
    (∀ i, i ≠ m → mbufs s' !! i = mbufs s !! i) ∧ (∀ i, i ≠ c → clusters s' !! i = clusters s !! i) ∧
    (∃ rest, memory s = Some c :: rest ∧ memory s' = rest).
Proof.
  intros Hm Hnx [[rest Hmem] [Hnd Hf]]. unfold m_clget. cbn [deref]. rewrite bind_done. unfold kzalloc. rewrite Hmem. cbn [map app].
  set (s1 := mk_mst _ _ _ _ _). rewrite (upd_spec m _ s1 x), bind_done by done. set (x1 := set_ext (Some c) _ x).
  set (s2 := mk_mst _ _ _ _ _). assert (Hm2 : mbufs s2 !! m = Some x1) by apply lookup_insert_eq.
  rewrite (upd_spec m _ s2 x1), bind_done by done. eexists _, _. split; [done|]. split.
  - split; [apply lookup_insert_eq|done| |done|rewrite length_replicate; change (addr_off (m_data _)) with 0; unfold MCLBYTES; lia].
    cbn -[replicate]. by rewrite lookup_insert_eq.
  - split; [done|]. split; [apply (has_ext x1)|]. split; [by apply (has_or_ext M_PKTHDR x1)|]. split; [done|]. split; [|split].
    + intros i Hi. cbn. by rewrite !lookup_insert_ne.
    + intros i Hi. cbn. by rewrite lookup_insert_ne.
    + eexists. split; [done|]. done.
Qed.

(** The two kinds of room. *)
Lemma room_cluster s m x c ids : mbufs s !! m = Some x → m_next x = None → fresh s (c :: ids) → m ∉ c :: ids →
  ∃ s1 x1, m_clget (Some m) s = Done (Some m, s1) ∧ room s1 m x1 MCLBYTES (replicate 2048 0) ∧
    (∀ c o, m_data x1 = InClus c o → clusters s !! c = None) ∧ (has M_EXT x1 = true ∧ addr_off (m_data x1) = 0) ∧
    has M_PKTHDR x1 = has M_PKTHDR x ∧ pkt_len x1 = pkt_len x ∧ keeps s m s s1 ∧ fresh s1 ids.
Proof.
  intros Hm Hnx Hfr Hni. pose proof Hfr as [[rest Hmem] [Hnd Hf]]. rewrite not_elem_of_cons in Hni. destruct Hni as [Hmc Hni].
  apply NoDup_cons in Hnd as [Hci Hnd]. inversion_clear Hf as [|?? [Hcm Hcc] Hf'].
  destruct (clget_spec s m x c ids Hm Hnx Hfr) as (s1 & x1 & Hrun & Hr1 & Hd1 & He & Hh & Hp & Hmb & Hcl & (rest' & Hm1 & Hm2)).
  exists s1, x1. split; [done|]. split; [done|]. split; [rewrite Hd1; by intros c0 o0 [= <- _]|].
  split; [by rewrite Hd1|]. do 2 (split; [done|]). split.
  - split; [done|]. intros c0 b0 _ Hb0. rewrite Hcl; [done|]. intros ->. congruence.
  - rewrite Hmem in Hm1. cbn [map app] in Hm1. split; [exists rest; congruence|]. split; [done|]. rewrite Forall_forall in *.
    intros i Hi. rewrite Hmb, Hcl by (intros ->; done). by apply Hf'.
Qed.

Lemma room_inside s m x o len k c ids : mbufs s !! m = Some x → m_next x = None → m_data x = InMbuf m o →
  length (m_dat x) = 108%nat → 0 <= o → o + len = 108 → 0 <= k <= len → fresh s (c :: ids) → m ∉ c :: ids →
  let x1 := set_data (shift (m_data x) k) x in
  let s1 := with_mbufs (<[m := x1]> (mbufs s)) s in
  room s1 m x1 (len - k) (m_dat x) ∧ keeps s m s s1 ∧ fresh s1 (c :: ids).
Proof.
  intros Hm Hnx Hd Hl Ho Hlen Hk Hfr Hni x1 s1. split; [|split].
  - split; [apply lookup_insert_eq|done| | |]; unfold x1; cbn [set_data m_data]; rewrite Hd; cbn [shift].
    + cbn. unfold load. cbn. by rewrite lookup_insert_eq.
    + by intros i o0 [= <- _].
    + cbn. lia.
  - split; [|done]. intros i Hi. cbn. by rewrite lookup_insert_ne.
  - apply (fresh_keeps s _ m); try done. intros i Hi. cbn. by rewrite lookup_insert_ne.
Qed.

Section fill.
Context (max_linkhdr ifp : Z) (Hlh : 0 <= max_linkhdr).

(** One mbuf of [m_devget]: the bytes that fit are in it; the next address of the memory may be used. *)
Lemma fill_spec s m x o len (first : bool) off data c ids : mbufs s !! m = Some x → m_next x = None → m_data x = InMbuf m o →
  length (m_dat x) = 108%nat → 0 <= o → o + len = 108 → 0 <= off <= len → Z.of_nat (length data) < 2 ^ 31 →
  fresh s (c :: ids) → m ∉ c :: ids → has M_EXT x = false → len = (if first then MHLEN else MLEN) →
  ∃ n s1 s' x1 x' ids', devget_fill max_linkhdr m first off len data s = Done (m, n, s') ∧ filled s s1 s' m x1 x' data n ∧
    has M_PKTHDR x1 = has M_PKTHDR x ∧ pkt_len x1 = pkt_len x ∧ keeps s m s s1 ∧ fresh s' ids' ∧ (ids' = ids ∨ ids' = c :: ids) ∧
    (off < len → (0 < length data)%nat → 0 < n) ∧ shape x' = devget_place max_linkhdr first off (Z.of_nat (length data)) ∧ m_len x' = n.
Proof.
  intros Hm Hnx Hd Hl Ho Hlen Hoff H31 Hfr Hni Hne Hfl.
  assert (∃ s1 x1 len1 b1 ids', devget_fill max_linkhdr m first off len data s = fill_tail m off len1 data s1 ∧
    room s1 m x1 len1 b1 ∧ off <= len1 ∧ (off < len → (0 < length data)%nat → off < len1) ∧
    (∀ c o, m_data x1 = InClus c o → clusters s !! c = None) ∧
    has M_PKTHDR x1 = has M_PKTHDR x ∧ pkt_len x1 = pkt_len x ∧ keeps s m s s1 ∧ fresh s1 ids' ∧ (ids' = ids ∨ ids' = c :: ids) ∧
    (has M_EXT x1, addr_off (m_data x1) + off, Z.min (len1 - off) (Z.of_nat (length data))) =
      devget_place max_linkhdr first off (Z.of_nat (length data)))
    as (s1 & x1 & len1 & b1 & ids' & Hrun & Hroom & Hoff1 & Hpos & Hc0 & Hhas & Hpl & Hk & Hfr1 & Hids & Hplace).
  { unfold devget_fill, devget_place. rewrite <- Hfl. destruct (Z.leb_spec MINCLSIZE (Z.of_nat (length data) + off)) as [Hbig|Hsmall].
    - destruct (room_cluster s m x c ids Hm Hnx Hfr Hni) as (s1 & x1 & -> & Hr1 & Hd1 & [He Hoff0] & Hh & Hp & Hk & Hf1).
      rewrite !bind_done. cbn [deref]. rewrite bind_done, (load_spec m s1 x1), bind_done by apply Hr1. rewrite He.
      exists s1, x1, MCLBYTES, (replicate 2048 0), ids. split; [done|]. split; [done|]. unfold MCLBYTES. split; [lia|]. split; [lia|].
      split; [done|]. repeat (split; [done|]). split; [by left|]. rewrite He. rewrite Hoff0. done.
    - destruct (first && _) eqn:Ef.
      + apply andb_true_iff in Ef as [_ Ef%Z.leb_le]. rewrite (upd_spec m _ s x), !bind_done by done.
        destruct (room_inside s m x o len max_linkhdr c ids Hm Hnx Hd Hl Ho Hlen ltac:(lia) Hfr Hni) as (Hr1 & Hk & Hf1).
        eexists _, _, (len - max_linkhdr), (m_dat x), (c :: ids). split; [done|]. split; [done|]. split; [lia|]. split; [lia|].
        split; [by rewrite Hd|]. repeat (split; [done|]). split; [by right|].
        cbn [set_data m_data]. rewrite Hd. cbn [shift addr_off]. change (has M_EXT (set_data _ x)) with (has M_EXT x). rewrite Hne.
        unfold MLEN. repeat f_equal; lia.
      + rewrite bind_done. exists s, x, len, (m_dat x), (c :: ids). split; [done|]. split.
        { split; [done|done| |rewrite Hd; by intros ? ? [= <- _]|rewrite Hd; cbn; lia]. rewrite Hd. cbn. unfold load. by rewrite Hm. }
        split; [lia|]. split; [done|]. split; [by rewrite Hd|]. repeat (split; [done|]). split; [by right|].
        rewrite Hne, Hd. cbn [addr_off]. unfold MLEN. repeat f_equal; lia. }
  destruct (fill_tail_spec s s1 m x1 off len1 data b1 Hroom ltac:(lia) H31 Hc0) as (s' & x' & Htail & Hfi & Hsh).
  exists (Z.min (len1 - off) (Z.of_nat (length data))), s1, s', x1, x', ids'. rewrite Hrun. do 5 (split; [done|]).
  split; [|split; [done|split; [lia|split; [by rewrite Hsh|apply Hfi]]]]. destruct Hfi as [_ _ _ _ [Hk1 _] Hmem Hnew].
  destruct Hfr1 as [[rest Hm1] [Hnd Hf1]]. split; [exists rest; by rewrite Hmem|]. split; [done|]. rewrite Forall_forall in *.
  intros i Hi. destruct (Hf1 i Hi) as [H1 H2]. split; [|by apply Hnew]. rewrite Hk1; [done|].
  intros ->. rewrite not_elem_of_cons in Hni. destruct Hids as [-> | ->]; [tauto|]. rewrite elem_of_cons in Hi. tauto.
Qed.

(** The last mbuf gets a successor. *)
Lemma linked_snoc h p l j x i y : linked h p (l ++ [(j, x)]) → h !! i = None → m_next y = None →
  linked (<[j := set_next (Some i) x]> (<[i := y]> h)) p (l ++ [(j, set_next (Some i) x); (i, y)]).
Proof.
  intros Hl Hi Hy. assert (Hj : h !! j = Some x) by (apply (linked_lookup h p (l ++ [(j, x)])); [done|set_solver]).
  revert p Hl. induction l as [|[k z] l IH]; intros p Hl; cbn [app] in *; inversion Hl as [|? ? ? Hk Hl']; subst.
  - constructor; [apply lookup_insert_eq|]. cbn [set_next m_next]. constructor; [rewrite lookup_insert_ne by congruence; apply lookup_insert_eq|].
    rewrite Hy. constructor.
  - constructor; [|by apply IH]. pose proof (linked_NoDup _ _ _ Hl) as Hnd. csimpl in Hnd. apply NoDup_cons in Hnd as [Hnk _].
    rewrite !lookup_insert_ne; [done|congruence|]. intros ->. apply Hnk. rewrite fmap_app. set_solver.
Qed.

(** A new mbuf, its packet header perhaps set, filled. *)
Lemma devget_step s m c ids data (pk first : bool) off o len sA x k r : fresh s (m :: c :: ids) → (0 < length data)%nat →
  Z.of_nat (length data) < 2 ^ 31 → o = (if pk then 8 else 0) → o + len = 108 → 0 <= off <= len → len = (if first then MHLEN else MLEN) →
  new_mbuf pk MT_DATA s = (Some m, sA) →
  x = (if pk then set_pkthdr k r (mbuf_init m pk MT_DATA) else mbuf_init m pk MT_DATA) →
  ∃ n s' x' ids', devget_fill max_linkhdr m first off len data (with_mbufs (<[m := x]> (mbufs sA)) sA) = Done (m, n, s') ∧
    0 <= n <= Z.of_nat (length data) ∧ (off < len → 0 < n) ∧ mbufs s' !! m = Some x' ∧ m_next x' = None ∧
    has M_PKTHDR x' = pk ∧ pkt_len x' = pkt_len x ∧ mbuf_ok s' x' ∧ mbytes s' x' = take (Z.to_nat n) data ∧
    extends s s' ∧ (∀ i, i ≠ m → mbufs s' !! i = mbufs s !! i) ∧ fresh s' ids' ∧ (ids' = ids ∨ ids' = c :: ids) ∧
    shape x' = devget_place max_linkhdr first off (Z.of_nat (length data)) ∧ m_len x' = n.
Proof.
  intros Hfr Hd H31 Ho Hlen Hoff Hfl Hnew Hx.
  destruct (fresh_new s m (c :: ids) pk MT_DATA Hfr) as (sA' & Hnew' & HbA & HcA & HfA & HeA).
  rewrite Hnew in Hnew'. injection Hnew' as <-. set (s0 := with_mbufs _ sA).
  pose proof Hfr as [_ [Hnd HF]]. apply NoDup_cons in Hnd as [Hmc Hnd]. apply Forall_cons in HF as [[Hm0 _] HF].
  assert (Hf0 : fresh s0 (c :: ids)).
  { apply (fresh_keeps sA _ m); try done. intros i Hi. cbn. by rewrite lookup_insert_ne. }
  destruct (fill_spec s0 m x o len first off data c ids) as (n & s1 & s' & x1 & x' & ids' & Hrun & [Hn [Hm' Hnx'] [Hh Hp] [Hok Hb] [Hk1 Hk2] _ _] &
    Hh1 & Hp1 & [Hk3 Hk4] & Hf' & Hids & Hpos & Hsh & Hln); try done; try (rewrite Hx; destruct pk; done); try lia.
  { apply lookup_insert_eq. }
  { rewrite Hx, Ho. by destruct pk. }
  { destruct pk; lia. }
  exists n, s', x', ids'. split; [done|]. destruct Hn as [_ Hn]. do 4 (split; [lia || done || auto|]).
  split; [rewrite Hh, Hh1, Hx; by destruct pk|]. split; [congruence|]. do 2 (split; [done|]). split; [|split; [|done]].
  - intros [i oi|ci oi] bi; simpl; unfold load.
    + intros Hi. assert (i ≠ m) by (intros ->; by rewrite Hm0 in Hi). rewrite Hk1, Hk3 by done. unfold s0. cbn.
      rewrite lookup_insert_ne, HbA, lookup_insert_ne by done. done.
    + intros Hi%deref_Done. assert (clusters s0 !! ci = Some bi) by (unfold s0; cbn; by rewrite HcA).
      by rewrite (Hk2 ci bi) by (try done; by apply Hk4).
  - intros i Hi. rewrite Hk1, Hk3 by done. unfold s0. cbn. by rewrite lookup_insert_ne, HbA, lookup_insert_ne.
Qed.

Lemma link_next s j x i top : mbufs s !! j = Some x →
  link (Some j) (Some i) (Some top) s = Done (Some top, with_mbufs (<[j := set_next (Some i) x]> (mbufs s)) s).
Proof. intros Hj. unfold link. by rewrite (upd_spec j _ s x). Qed.

(** The new mbuf at the end of the chain. *)
Lemma append_mbuf s s' t l j x m y : linked (mbufs s) (Some t) (l ++ [(j, x)]) → Forall (λ a, mbuf_ok s a.2) (l ++ [(j, x)]) →
  mbufs s !! m = None → extends s s' → (∀ i, i ≠ m → mbufs s' !! i = mbufs s !! i) →
  mbufs s' !! m = Some y → m_next y = None → mbuf_ok s' y →
  let s2 := with_mbufs (<[j := set_next (Some m) x]> (mbufs s')) s' in
  let l2 := (l ++ [(j, set_next (Some m) x)]) ++ [(m, y)] in
  linked (mbufs s2) (Some t) l2 ∧ Forall (λ a, mbuf_ok s2 a.2) l2 ∧ contents s2 l2 = contents s (l ++ [(j, x)]) ++ mbytes s' y ∧
  extends s s2.
Proof.
  intros Hl Hok Hm He Hmb Hy Hny Hoky s2 l2.
  assert (Hjx : mbufs s !! j = Some x) by (apply (linked_lookup _ _ _ _ _ Hl); set_solver).
  assert (Hjm : j ≠ m) by congruence. assert (Hj' : mbufs s' !! j = Some x) by (by rewrite Hmb).
  assert (Hs' : mbufs s' = <[m := y]> (mbufs s)).
  { apply map_eq. intros i. destruct (decide (i = m)) as [->|]; [by rewrite lookup_insert_eq|]. by rewrite lookup_insert_ne, Hmb. }
  assert (Hsb : same_bytes s' s2) by (by apply same_upd with x).
  assert (He2 : extends s s2) by (apply (extends_trans s s'); [done|by apply same_extends]).
  destruct (extends_all s s2 _ He2 Hok) as [Hok2 Hc2]. split; [|split; [|split; [|done]]].
  - unfold s2, l2. cbn. rewrite Hs', <- app_assoc. by apply linked_snoc.
  - unfold l2. apply Forall_app. split; [|constructor; [by apply (same_ok s')|constructor]].
    apply Forall_app in Hok2 as [H1 H2]. apply Forall_app. split; [done|]. inversion_clear H2. by constructor; [|constructor].
  - unfold l2. rewrite contents_app. f_equal; [|rewrite contents_cons, (same_mbytes s' s2) by done; apply app_nil_r].
    rewrite <- Hc2, !contents_app. done.
Qed.

Lemma devget_rest fuel data s l t j xl m0 len0 ids : linked (mbufs s) (Some t) (l ++ [(j, xl)]) →
  Forall (λ a, mbuf_ok s a.2) (l ++ [(j, xl)]) → fresh s ids → (2 * length data <= length ids)%nat → Z.of_nat (length data) < 2 ^ 31 →
  (length data < fuel)%nat →
  ∃ s' l', devget_loop max_linkhdr fuel m0 (Some t) (Some j) 0 len0 data s = Done (Some t, s') ∧
    linked (mbufs s') (Some t) l' ∧ Forall (λ a, mbuf_ok s' a.2) l' ∧ contents s' l' = contents s (l ++ [(j, xl)]) ++ data ∧
    (∀ f n, headed f n (l ++ [(j, xl)]) → headed f n l') ∧
    ∃ ps, map (λ a, shape a.2) l' = map (λ a, shape a.2) (l ++ [(j, xl)]) ++ ps ∧
      devget_shape max_linkhdr false 0 (Z.of_nat (length data)) ps.
Proof.
  revert data s l j xl m0 len0 ids. induction fuel as [|fuel IH]; intros data s l j xl m0 len0 ids Hl Hok Hfr Hids H31 Hf; [lia|].
  cbn [devget_loop]. destruct (Z.leb_spec (Z.of_nat (length data)) 0) as [H0|Hpos].
  { exists s, (l ++ [(j, xl)]). assert (data = []) as -> by (by destruct data; [|simpl in H0; lia]). rewrite app_nil_r. do 5 (split; [done|]).
    exists []. by rewrite app_nil_r. }
  destruct ids as [|m [|c ids]]; [simpl in Hids; lia..|].
  destruct (fresh_new s m (c :: ids) false MT_DATA Hfr) as (sA & Hnew & HbA & _). unfold m_get. rewrite Hnew, bind_done.
  destruct (devget_step s m c ids data false (bool_decide (Some t = None)) 0 0 MLEN sA (mbuf_init m false MT_DATA) 0 0 Hfr)
    as (n & s1 & y & ids' & Hrun & Hn & Hnpos & Hy & Hny & _ & _ & Hoky & Hby & He & Hmb & Hf1 & Hids' & Hsh & Hln); try done; try lia.
  rewrite HbA, insert_insert_eq, <- HbA, with_mbufs_id in Hrun. rewrite Hrun, bind_done.
  assert (Hm0 : mbufs s !! m = None) by (destruct Hfr as [_ [_ HF]]; by apply Forall_cons in HF as [[? _] _]).
  assert (Hjx : mbufs s !! j = Some xl) by (apply (linked_lookup _ _ _ _ _ Hl); set_solver).
  rewrite (link_next s1 j xl), bind_done by (rewrite Hmb by congruence; done).
  destruct (append_mbuf s s1 t l j xl m y Hl Hok Hm0 He Hmb Hy Hny Hoky) as (Hl2 & Hok2 & Hc2 & He2). set (s2 := with_mbufs _ s1) in *.
  destruct (IH (drop (Z.to_nat n) data) s2 _ m y m n ids' Hl2 Hok2) as (s' & l' & Hloop & Hl' & Hok' & Hc' & Hh' & ps & Hps & Hshape).
  - apply (fresh_keeps s1 _ j); try done; [intros i Hi; cbn; by rewrite lookup_insert_ne|]. intros Hin. 
    destruct Hfr as [_ [_ HF]]. rewrite Forall_forall in HF. destruct (HF j) as [HN _]; [|congruence].
    destruct Hids' as [-> | ->]; set_solver.
  - rewrite length_drop. simpl in Hids. unfold MLEN in Hnpos. destruct Hids' as [-> | ->]; simpl; lia.
  - rewrite length_drop. lia.
  - rewrite length_drop. unfold MLEN in Hnpos. lia.
  - exists s', l'. split; [done|]. split; [done|]. split; [done|]. split.
    + by rewrite Hc', Hc2, Hby, <- app_assoc, take_drop.
    + split; [|exists (shape y :: ps); split; [rewrite Hps, !map_app; cbn [map snd]; by rewrite <- !app_assoc|]].
      2:{ cbn [devget_shape]. split; [lia|]. split; [done|]. rewrite length_drop in Hshape. unfold shape. cbn [snd]. rewrite Hln.
        replace (Z.of_nat (length data) - n) with (Z.of_nat (length data - Z.to_nat n)) by lia. done. }
      intros f k (i & z & l3 & Heq & Hz). apply Hh'. destruct l as [|[i0 z0] l]; simpl in Heq; injection Heq as -> -> <-; by eexists _, _, _.
Qed.
End fill.

(** C23: m_devget makes a packet of the bytes of a received frame. Given at least one byte, an offset between 0 and the room behind a
    packet header, and memory for what it may allocate, it returns a chain whose contents are exactly the bytes given, each
    mbuf's data within its area, whose packet header has their number, and whose mbufs are, one after the other until no byte is
    left: a cluster when the bytes left and the offset are 208 or more, else the mbuf itself, filled as far as it goes, from the
    offset on in the first, and in a small first mbuf that takes all the bytes behind room for a link header. (A frame without
    bytes gives NULL and an mbuf lost, [devget_leaks].) *)
Theorem m_devget_packet max_linkhdr ifp data off s ids (Hlh : 0 <= max_linkhdr) (Hoff : 0 <= off <= MHLEN)
    (Hd : (0 < length data)%nat) (H31 : Z.of_nat (length data) < 2 ^ 31) (Hfr : fresh s ids)
    (Hids : (2 * length data + 2 <= length ids)%nat) :
  ∃ t s' l, m_devget max_linkhdr ifp data off s = Done (Some t, s') ∧ packet s' t l ∧ contents s' l = data ∧
    headed true (Z.of_nat (length data)) l ∧
    devget_shape max_linkhdr true off (Z.of_nat (length data)) (map (λ a, shape a.2) l).
Proof.
  destruct ids as [|m [|c ids]]; [simpl in Hids; lia..|].
  destruct (fresh_new s m (c :: ids) true MT_DATA Hfr) as (sA & Hnew & HbA & _). unfold m_devget.
  rewrite (proj2 (Z.ltb_ge off 0)), (proj2 (Z.ltb_ge MHLEN off)) by lia. cbn [orb]. unfold m_gethdr. rewrite Hnew.
  rewrite (upd_spec m _ sA (mbuf_init m true MT_DATA)), bind_done by (rewrite HbA; apply lookup_insert_eq).
  set (x := set_pkthdr _ ifp _). cbn [devget_loop]. rewrite (proj2 (Z.leb_gt _ 0)), bind_done by lia.
  destruct (devget_step max_linkhdr Hlh s m c ids data true (bool_decide (None = None (A := Z))) off 8 MHLEN sA x (Z.of_nat (length data)) ifp Hfr Hd H31)
    as (n & s1 & y & ids' & Hrun & Hn & _ & Hy & Hny & Hhas & Hpl & Hoky & Hby & He & Hmb & Hf1 & Hids' & Hsh & Hln); try done.
  change (bool_decide (None = None)) with (bool_decide (None = None (A := Z))) in *. rewrite Hrun, bind_done. cbn [link]. rewrite bind_done.
  assert (Hl1 : linked (mbufs s1) (Some m) ([] ++ [(m, y)])) by (constructor; [done|rewrite Hny; constructor]).
  destruct (devget_rest max_linkhdr Hlh (Datatypes.S (length data)) (drop (Z.to_nat n) data) s1 [] m m y m n ids' Hl1)
    as (s' & l' & Hloop & Hl' & Hok' & Hc' & Hh' & ps & Hps & Hshape); try done.
  - by constructor; [|constructor].
  - rewrite length_drop. simpl in Hids. destruct Hids' as [-> | ->]; simpl; lia.
  - rewrite length_drop. lia.
  - rewrite length_drop. lia.
  - assert (Hc : contents s' l' = data) by (rewrite Hc'; cbn [app]; rewrite contents_cons, Hby; cbn; rewrite app_nil_r; apply take_drop).
    assert (Hhd : headed true (Z.of_nat (length data)) l').
    { apply Hh'. exists m, y, []. split; [done|]. split; [done|]. intros _. rewrite Hpl. unfold x. cbn [set_pkthdr pkt_len]. by rewrite s32_small by lia. }
    assert (Ht : total l' = Z.of_nat (length data)) by (rewrite <- (contents_length s') by done; by rewrite Hc).
    exists m, s', l'. split; [exact Hloop|]. split.
    2:{ do 2 (split; [done|]). rewrite Hps. cbn [app map snd devget_shape]. split; [lia|]. split; [done|]. rewrite length_drop in Hshape.
      unfold shape. cbn [snd]. rewrite Hln. by replace (Z.of_nat (length data) - n) with (Z.of_nat (length data - Z.to_nat n)) by lia. }
    split; [done|done|lia|]. intros z l2 -> _.
    destruct Hhd as (i & z' & l3 & [= -> -> ->] & _ & Hz). rewrite Ht. by apply Hz.
Qed.

(** *** A packet of two mbufs *)

Definition demo_head : mbuf := mk_mbuf (Some 2) None 3 (InMbuf 1 8) MT_DATA M_PKTHDR 5 0 None 0 (replicate 8 0 ++ [1; 2; 3] ++ replicate 97 0).
Definition demo_next : mbuf := mk_mbuf None None 2 (InMbuf 2 0) MT_DATA 0 0 0 None 0 ([4; 5] ++ replicate 106 0).
Definition demo_mst : mst := mk_mst (<[1 := demo_head]> (<[2 := demo_next]> ∅)) ∅ 2 0 [].
Definition demo_chain : list (Z * mbuf) := [(1, demo_head); (2, demo_next)].

Lemma demo_packet : packet demo_mst 1 demo_chain.
Proof.
  split.
  - do 2 (constructor; [reflexivity|]). constructor.
  - repeat constructor; vm_compute; intuition congruence.
  - reflexivity.
  - intros m l' [= <- <-] _. reflexivity.
Qed.

Lemma m_adj_trims_witness :
  ∃ s' l', m_adj (Some 1) (-3) demo_mst = Done s' ∧ packet s' 1 l' ∧ contents s' l' = [1; 2].
Proof.
  refine (m_adj_trims demo_mst 1 demo_chain (-3) demo_packet _). split; reflexivity.
Defined.

Lemma m_copydata_copies_witness : m_copydata (Some 1) 1 3 demo_mst = Done [2; 3; 4].
Proof.
  refine (m_copydata_copies demo_mst 1 demo_chain 1 3 demo_packet _ _ _ _).
  - repeat constructor.
  - split; [discriminate|reflexivity].
  - discriminate.
  - vm_compute. discriminate.
Defined.

Lemma m_devget_packet_witness :
  let s := mk_mst ∅ ∅ 0 0 (map Some [1; 2; 3; 4; 5; 6; 7; 8]) in
  ∃ t s' l, m_devget 16 9 [10; 20; 30] 2 s = Done (Some t, s') ∧ packet s' t l ∧ contents s' l = [10; 20; 30] ∧ headed true 3 l ∧
    devget_shape 16 true 2 3 (map (λ a, shape a.2) l).
Proof.
  refine (m_devget_packet 16 9 [10; 20; 30] 2 (mk_mst ∅ ∅ 0 0 (map Some [1; 2; 3; 4; 5; 6; 7; 8])) [1; 2; 3; 4; 5; 6; 7; 8] _ _ _ _ _ _).
  - discriminate.
  - split; discriminate.
  - simpl. lia.
  - reflexivity.
  - split; [exists []; reflexivity|]. split; [apply NoDup_ListNoDup; repeat constructor; simpl; lia|].
    apply Forall_true. intros i. split; reflexivity.
  - simpl. lia.
Defined.

(** *** What the code does not get right *)

(** A chain whose first mbuf has a cluster of four bytes in use, and a copy of it freed: the cluster is
    gone, since the count that both of them decrement is in the mbufs. *)
Definition shared_mst : mst :=
  mk_mst (<[1 := mk_mbuf None None 4 (InClus 5 0) MT_DATA M_EXT 0 0 (Some 5) 1 (replicate 108 0)]> ∅)
    (<[5 := replicate 2048 7]> ∅) 1 1 [Some 9; Some 10].
Lemma copym_then_free :
  ('(n, s) ← m_copym 1 0 4 shared_mst; s ← freem n s; m_copydata (Some 1) 0 4 s) = Fail BadPtr ∧
  m_copydata (Some 1) 0 4 shared_mst = Done [7; 7; 7; 7].
Proof. split; vm_compute; reflexivity. Qed.

(** [m_pullup] frees the rest of the chain with the first mbuf it has emptied. *)
Definition three_mst : mst :=
  let m i n b := mk_mbuf n None 2 (InMbuf i 0) MT_DATA 0 0 0 None 0 (b ++ replicate 106 0) in
  mk_mst (<[1 := m 1 (Some 2) [1; 2]]> (<[2 := m 2 (Some 3) [3; 4]]> (<[3 := m 3 None [5; 6]]> ∅))) ∅ 3 0 [].
Lemma pullup_loses_the_rest :
  ('(n, s) ← m_pullup 1 4 three_mst; Done (n, (λ m, (m_len m, m_next m)) <$> mbufs s !! 1, mbufs s !! 3)) =
  Done (Some 1, Some (4, None), None).
Proof. vm_compute. reflexivity. Qed.

(** The offset into an mbuf with a cluster is not looked at. *)
Definition cluster_mst : mst :=
  mk_mst (<[1 := mk_mbuf None None 4 (InClus 5 0) MT_DATA M_EXT 0 0 (Some 5) 1 (replicate 108 0)]> ∅)
    (<[5 := [1; 2; 3; 4] ++ replicate 2044 0]> ∅) 1 1 [].
Lemma copydata_ignores_offset : m_copydata (Some 1) 2 2 cluster_mst = Done [1; 2].
Proof. vm_compute. reflexivity. Qed.

(** Without memory for a cluster, or for the first mbuf of a copy, NULL is freed. *)
Lemma clget_frees_null : m_clget (Some 1) demo_mst = Fail BadPtr.
Proof. vm_compute. reflexivity. Qed.
Lemma copym_frees_null : m_copym 1 0 4 demo_mst = Fail BadPtr.
Proof. vm_compute. reflexivity. Qed.
(** A frame without bytes takes an mbuf that nobody gets. *)
Lemma devget_leaks : 
  ('(t, s) ← m_devget 16 9 [] 0 (mk_mst ∅ ∅ 0 0 [Some 1]); Done (t, mbuf_allocated s)) = Done (None, 1).
Proof. vm_compute. reflexivity. Qed.
