(* ===== verification/Sockbuf.v ===== *)
(** * Socket buffers ([Kernel/net/uipc_socket2.c], [Include/kernel/sys/socketval.h])

    A socket buffer is a queue of records linked by [m_nextpkt] of their first mbufs; a
    record is a chain of mbufs.  [sb_cc] counts the bytes, [sb_mbcnt] the memory of the
    mbufs.  Data comes in at the last record ([sbappend], unless that record is closed by
    [M_EOR]) or as a record of its own, and goes out at the front.

    The functions are proved to implement a queue of byte strings: [queue] relates a
    buffer and the store to its records, [abs] reads the bytes, [sockbuf_refines] compares each
    operation with its counterpart on lists.  Sleeping and waking ([sbwait], [sb_lock],
    [sb_wakeup]) is not modelled here. *)

From S2P Require Import Prelude Mbuf.

Definition M_EOR := 2.
Definition MSIZE := 128.
Definition MT_SONAME := 8.
Definition SB_MAX := 262144.
Definition SB_LOCK := 1.
(** [sb_max], which nothing changes. *)
Definition sb_max := SB_MAX.

Record sockbuf : Type := mk_sockbuf {
  sb_cc : Z; sb_hiwat : Z; sb_mbcnt : Z; sb_mbmax : Z; sb_lowat : Z; sb_mb : option Z; sb_flags : Z }.
Definition set_counts c n b := mk_sockbuf (u32 c) (sb_hiwat b) (u32 n) (sb_mbmax b) (sb_lowat b) (sb_mb b) (sb_flags b).
Definition set_mb p b := mk_sockbuf (sb_cc b) (sb_hiwat b) (sb_mbcnt b) (sb_mbmax b) (sb_lowat b) p (sb_flags b).
Definition set_marks hi mx lo b := mk_sockbuf (sb_cc b) hi (sb_mbcnt b) mx lo (sb_mb b) (sb_flags b).
Definition set_nextpkt p m := mk_mbuf (m_next m) p (m_len m) (m_data m) (m_type m) (m_flags m) (pkt_len m) (rcvif m) (ext_buf m) (m_extrefcnt m) (m_dat m).

(** ** Space *)

Definition mb_size (m : mbuf) : Z := MSIZE + if has M_EXT m then MCLBYTES else 0.
Definition sballoc (b : sockbuf) (m : mbuf) : sockbuf := set_counts (sb_cc b + m_len m) (sb_mbcnt b + mb_size m) b.
Definition sbfree (b : sockbuf) (m : mbuf) : sockbuf := set_counts (sb_cc b - m_len m) (sb_mbcnt b - mb_size m) b.
Definition sbspace (b : sockbuf) : Z := Z.min (s32 (u32 (sb_hiwat b - sb_cc b))) (s32 (u32 (sb_mbmax b - sb_mbcnt b))).

(** [sb_lowat] is a [long], compared with a [u32] as one. *)
Definition sbreserve (b : sockbuf) (cc : Z) : bool * sockbuf :=
  if u32 (sb_max * MCLBYTES) / (MSIZE + MCLBYTES) <? cc then (false, b)
  else (true, set_marks cc (Z.min (u32 (cc * 2)) sb_max) (if cc <? u32 (sb_lowat b) then s32 cc else sb_lowat b) b).

(** ** Going out *)

Fixpoint drop_loop (fuel : nat) (b : sockbuf) (m next : option Z) (len : Z) (s : mst)
    : outcome (sockbuf * option Z * option Z * mst) :=
  match fuel with
  | O => Fail Diverge
  | S fuel =>
      if 0 <? len then
        match m with
        | None =>
            match next with
            | None => Fail Panic
            | Some n => y ← load n s; drop_loop fuel b (Some n) (m_nextpkt y) len s
            end
        | Some i =>
            x ← load i s;
            if len <? m_len x then
              s ← upd i (λ x, set_data (shift (m_data x) len) (set_len (m_len x - len) x)) s;
              Done (set_counts (sb_cc b - len) (sb_mbcnt b) b, m, next, s)
            else
              '(mn, s) ← m_free m s;
              drop_loop fuel (sbfree b x) mn next (len - m_len x) s
        end
      else Done (b, m, next, s)
  end.
(** The mbufs that have become empty. *)
Fixpoint drop_empty (fuel : nat) (b : sockbuf) (m : option Z) (s : mst) : outcome (sockbuf * option Z * mst) :=
  match fuel with
  | O => Fail Diverge
  | S fuel =>
      match m with
      | None => Done (b, m, s)
      | Some i =>
          x ← load i s;
          if m_len x =? 0 then '(mn, s) ← m_free m s; drop_empty fuel (sbfree b x) mn s
          else Done (b, m, s)
      end
  end.
Definition sbdrop (b : sockbuf) (len : Z) (s : mst) : outcome (sockbuf * mst) :=
  next ← (match sb_mb b with None => Done None | Some i => x ← load i s; Done (m_nextpkt x) end);
  '(b, m, next, s) ← drop_loop (turns s + turns s) b (sb_mb b) next len s;
  '(b, m, s) ← drop_empty (turns s) b m s;
  match m with
  | Some i => s ← upd i (set_nextpkt next) s; Done (set_mb m b, s)
  | None => Done (set_mb next b, s)
  end.

Fixpoint flush_loop (fuel : nat) (b : sockbuf) (s : mst) : outcome (sockbuf * mst) :=
  match fuel with
  | O => Fail Diverge
  | S fuel => if sb_mbcnt b =? 0 then Done (b, s) else '(b, s) ← sbdrop b (s32 (sb_cc b)) s; flush_loop fuel b s
  end.
Definition sbflush (b : sockbuf) (s : mst) : outcome (sockbuf * mst) :=
  _ ← assert_ (Z.land (sb_flags b) SB_LOCK =? 0);
  '(b, s) ← flush_loop (turns s) b s;
  _ ← assert_ ((sb_cc b =? 0) && bool_decide (sb_mb b = None));
  Done (b, s).
Definition sbrelease (b : sockbuf) (s : mst) : outcome (sockbuf * mst) :=
  '(b, s) ← sbflush b s; Done (set_marks 0 0 (sb_lowat b) b, s).

Fixpoint droprecord_loop (fuel : nat) (b : sockbuf) (i : Z) (s : mst) : outcome (sockbuf * mst) :=
  match fuel with
  | O => Fail Diverge
  | S fuel =>
      x ← load i s;
      '(mn, s) ← m_free (Some i) s;
      match mn with None => Done (sbfree b x, s) | Some i => droprecord_loop fuel (sbfree b x) i s end
  end.
Definition sbdroprecord (b : sockbuf) (s : mst) : outcome (sockbuf * mst) :=
  match sb_mb b with
  | None => Done (b, s)
  | Some i => x ← load i s; droprecord_loop (turns s) (set_mb (m_nextpkt x) b) i s
  end.

(** ** Coming in *)

(** An empty mbuf is dropped unless it is needed to carry the end of the record. *)
Definition droppable (x : mbuf) (n : option Z) (eor : Z) (s : mst) : outcome bool :=
  if negb (m_len x =? 0) then Done false else
  if eor =? 0 then Done true else
  match (match m_next x with None => n | o => o end) with
  | None => Done false
  | Some o => y ← load o s; Done (m_type y =? m_type x)
  end.
(** The bytes of [x] fit behind those of [n]. *)
Definition fits (x : mbuf) (n : option Z) (s : mst) : outcome bool :=
  match n with
  | None => Done false
  | Some j =>
      y ← load j s;
      Done ((Z.land (m_flags y) (Z.lor M_EXT M_EOR) =? 0) && (addr_off (m_data y) + m_len y + m_len x <? MLEN) && (m_type y =? m_type x))
  end.

Definition merge_into (j : Z) (x : mbuf) (s : mst) : outcome mst :=
  y ← load j s;
  d ← copy_out (m_data x) (m_len x) s;
  s ← copy_in (shift (m_data y) (m_len y)) d s;
  upd j (λ y, set_len (m_len y + m_len x) y) s.
Definition link_last (b : sockbuf) (n : option Z) (i : Z) (s : mst) : outcome (sockbuf * mst) :=
  match n with
  | Some j => s ← upd j (set_next (Some i)) s; Done (b, s)
  | None => Done (set_mb (Some i) b, s)
  end.

Fixpoint compress_loop (fuel : nat) (b : sockbuf) (m n : option Z) (eor : Z) (s : mst)
    : outcome (sockbuf * option Z * Z * mst) :=
  match fuel with
  | O => Fail Diverge
  | S fuel =>
      match m with
      | None => Done (b, n, eor, s)
      | Some i =>
          x ← load i s;
          let eor := Z.lor eor (Z.land (m_flags x) M_EOR) in
          d ← droppable x n eor s;
          if (d : bool) then '(m, s) ← m_free m s; compress_loop fuel b m n eor s else
          f ← fits x n s;
          if (f : bool) then
            j ← deref n;
            s ← merge_into j x s;
            '(m, s) ← m_free m s;
            compress_loop fuel (set_counts (sb_cc b + m_len x) (sb_mbcnt b) b) m n eor s
          else
            '(b, s) ← link_last b n i s;
            x ← load i s;
            s ← upd i (λ x, set_flags (Z.land (m_flags x) (Z.lnot M_EOR)) x) s;
            s ← upd i (set_next None) s;
            compress_loop fuel (sballoc b x) (m_next x) m eor s
      end
  end.
Definition sbcompress (b : sockbuf) (m n : option Z) (s : mst) : outcome (sockbuf * mst) :=
  '(b, n, eor, s) ← compress_loop (turns s) b m n 0 s;
  if eor =? 0 then Done (b, s) else
  match n with
  | Some j => s ← upd j (λ y, set_flags (Z.lor (m_flags y) eor) y) s; Done (b, s)
  | None => Done (b, s)
  end.

(** The first mbuf of the last record. *)
Fixpoint last_record (fuel : nat) (m : Z) (s : mst) : outcome Z :=
  match fuel with
  | O => Fail Diverge
  | S fuel => x ← load m s; match m_nextpkt x with Some n => last_record fuel n s | None => Done m end
  end.
(** Chains a record behind the last one. *)
Definition link_record (b : sockbuf) (m0 : Z) (s : mst) : outcome (sockbuf * mst) :=
  match sb_mb b with
  | Some m => m ← last_record (turns s) m s; s ← upd m (set_nextpkt (Some m0)) s; Done (b, s)
  | None => Done (set_mb (Some m0) b, s)
  end.

(** The end of a record moves from its first mbuf [x], which is unlinked, to the next one. *)
Definition pass_eor (i : Z) (x : mbuf) (s : mst) : outcome mst :=
  match m_next x with
  | Some m =>
      if has M_EOR x then
        s ← upd i (λ x, set_flags (Z.land (m_flags x) (Z.lnot M_EOR)) x) s;
        upd m (λ y, set_flags (Z.lor (m_flags y) M_EOR) y) s
      else Done s
  | None => Done s
  end.
Definition sbappendrecord (b : sockbuf) (m0 : option Z) (s : mst) : outcome (sockbuf * mst) :=
  match m0 with
  | None => Done (b, s)
  | Some i =>
      x ← load i s;
      '(b, s) ← link_record (sballoc b x) i s;
      x ← load i s;
      s ← upd i (set_next None) s;
      s ← pass_eor i x s;
      sbcompress b (m_next x) m0 s
  end.

(** Walks the last record: [inl] at an mbuf with [M_EOR], [inr] with the last mbuf. *)
Fixpoint find_eor (fuel : nat) (n : Z) (s : mst) : outcome (unit + Z) :=
  match fuel with
  | O => Fail Diverge
  | S fuel =>
      x ← load n s;
      if has M_EOR x then Done (inl tt) else
      match m_next x with Some n => find_eor fuel n s | None => Done (inr n) end
  end.
Definition sbappend (b : sockbuf) (m : option Z) (s : mst) : outcome (sockbuf * mst) :=
  match m with
  | None => Done (b, s)
  | Some _ =>
      match sb_mb b with
      | None => sbcompress b m None s
      | Some n =>
          n ← last_record (turns s) n s;
          r ← find_eor (turns s) n s;
          match r with inl _ => sbappendrecord b m s | inr n => sbcompress b m (Some n) s end
      end
  end.

(** The last mbuf of [control] and [space] with its lengths. *)
Fixpoint control_space (fuel : nat) (n : option Z) (space : Z) (s : mst) : outcome (option Z * Z) :=
  match fuel with
  | O => Fail Diverge
  | S fuel =>
      match n with
      | None => Done (None, space)
      | Some i =>
          x ← load i s;
          let space := s32 (space + m_len x) in
          match m_next x with None => Done (n, space) | p => control_space fuel p space s end
      end
  end.
Fixpoint sballoc_all (fuel : nat) (b : sockbuf) (n : option Z) (s : mst) : outcome sockbuf :=
  match fuel with
  | O => Fail Diverge
  | S fuel => match n with None => Done b | Some i => x ← load i s; sballoc_all fuel (sballoc b x) (m_next x) s end
  end.
(** [asa] are the bytes at the address; the first one is [sa_len]. *)
Definition sbappendaddr (b : sockbuf) (asa : bytes) (m0 control : option Z) (s : mst) : outcome (bool * sockbuf * mst) :=
  sa_len ← deref (head asa);
  space ← (match m0 with
           | None => Done sa_len
           | Some i => x ← load i s; if negb (has M_PKTHDR x) then Fail Panic else Done (s32 (sa_len + pkt_len x))
           end);
  '(n, space) ← control_space (Datatypes.S (turns s)) control space s;
  if sbspace b <? space then Done (false, b, s) else
  if MLEN <? sa_len then Done (false, b, s) else
  let '(m, s) := m_get MT_SONAME s in
  match m with
  | None => Done (false, b, s)
  | Some i =>
      s ← upd i (set_len sa_len) s;
      d ← sub_buf asa 0 sa_len;
      x ← load i s;
      s ← copy_in (m_data x) d s;
      '(control, s) ← (match n with
                       | Some j => s ← upd j (set_next m0) s; Done (control, s)
                       | None => Done (m0, s)
                       end);
      s ← upd i (set_next control) s;
      b ← sballoc_all (Datatypes.S (turns s)) b m s;
      '(b, s) ← link_record b i s;
      Done (true, b, s)
  end.

(** ** Mbufs that share nothing

    [private s l]: the mbufs of [l] are in the store, no two are the same or use the same bytes. *)

Definition own (a : Z * mbuf) : Prop :=
  if has M_EXT a.2 then ∃ c off, m_data a.2 = InClus c off ∧ ext_buf a.2 = Some c else ∃ off, m_data a.2 = InMbuf a.1 off ∧ Z.of_nat (length (m_dat a.2)) = MLEN.
Definition cl (a : Z * mbuf) : list Z :=
  if has M_EXT a.2 then match ext_buf a.2 with Some c => [c] | None => [] end else [].
Record private (s : mst) (l : list (Z * mbuf)) : Prop := mk_private {
  pr_store : Forall (λ a, mbufs s !! a.1 = Some a.2) l;
  pr_ids : NoDup l.*1;
  pr_ok : Forall (λ a, mbuf_ok s a.2) l;
  pr_own : Forall own l;
  pr_clus : NoDup (l ≫= cl);
}.
(** The bytes of the mbufs of [l] are the same in both. *)
Definition same (s s' : mst) (l : list (Z * mbuf)) : Prop := Forall (λ a, mbytes s' a.2 = mbytes s a.2) l.

#[export] Instance private_perm s : Proper ((≡ₚ) ==> iff) (private s).
Proof.
  assert (∀ l l', l ≡ₚ l' → private s l → private s l') as Hp.
  { intros l l' Hl [Hst Hi Ho Hw Hc]. split; by rewrite <- Hl. }
  intros l l' Hl. split; by apply Hp.
Qed.
#[export] Instance same_perm s s' : Proper ((≡ₚ) ==> iff) (same s s').
Proof. intros l l' Hl. unfold same. by rewrite Hl. Qed.

Lemma private_app s l l' : private s (l ++ l') → private s l ∧ private s l'.
Proof.
  intros [Hst Hi Ho Hw Hc]. rewrite fmap_app, bind_app in *. apply Forall_app in Hst, Ho, Hw. apply NoDup_app in Hi, Hc.
  split; split; naive_solver.
Qed.
Lemma same_app s s' l l' : same s s' (l ++ l') ↔ same s s' l ∧ same s s' l'.
Proof. apply Forall_app. Qed.
Lemma same_refl s l : same s s l.
Proof. by apply Forall_true. Qed.
Lemma same_trans s1 s2 s3 l : same s1 s2 l → same s2 s3 l → same s1 s3 l.
Proof. unfold same. rewrite !Forall_forall. intros H1 H2 a Ha. by rewrite H2, H1. Qed.
Lemma same_contents_of s s' l : same s s' l → contents s' l = contents s l.
Proof. unfold same, contents. induction 1 as [|a l Ha _ IH]; [done|]. simpl. by rewrite Ha, IH. Qed.
Lemma private_ok s l : private s l → Forall (λ a, mbuf_ok s a.2) l.
Proof. by intros []. Qed.

Lemma private_at s i m l : private s ((i, m) :: l) →
  mbufs s !! i = Some m ∧ mbuf_ok s m ∧ own (i, m) ∧ i ∉ l.*1 ∧ (∀ c, c ∈ cl (i, m) → c ∉ l ≫= cl) ∧ private s l.
Proof.
  intros [Hst Hi Ho Hw Hc]. inversion_clear Hst. inversion_clear Ho. inversion_clear Hw. rewrite fmap_cons, NoDup_cons in Hi.
  simpl in Hc. apply NoDup_app in Hc as (_ & Hcd & Hc). destruct Hi as [Hni Hi]. repeat (split; [done|]). by split.
Qed.

(** A mbuf's bytes are its own, so that it keeps them when others change. *)
Lemma own_bytes s s' a : own a → mbuf_ok s a.2 → mbufs s' !! a.1 = mbufs s !! a.1 → (∀ c, c ∈ cl a → clusters s' !! c = clusters s !! c) →
  bytes_at (m_data a.2) s' = bytes_at (m_data a.2) s.
Proof.
  intros Hw _ Hi Hc. unfold own in Hw. destruct (has M_EXT a.2) eqn:E.
  - destruct Hw as (c & off & -> & Hb). simpl. rewrite Hc; [done|]. unfold cl. rewrite E, Hb. set_solver.
  - destruct Hw as (off & -> & _). simpl. unfold load. by rewrite Hi.
Qed.
Lemma bytes_ok s s' m : bytes_at (m_data m) s' = bytes_at (m_data m) s → mbuf_ok s m → mbuf_ok s' m ∧ mbytes s' m = mbytes s m.
Proof. intros Hb. unfold mbuf_ok, mbytes, area. by rewrite Hb. Qed.

Lemma frame_keep s s' l (ids cs : list Z) : private s l → (∀ i, i ∉ ids → mbufs s' !! i = mbufs s !! i) →
  (∀ c, c ∉ cs → clusters s' !! c = clusters s !! c) → (∀ i, i ∈ ids → i ∉ l.*1) → (∀ c, c ∈ cs → c ∉ l ≫= cl) →
  private s' l ∧ same s s' l.
Proof.
  intros [Hst Hi Ho Hw Hc] Hm Hcl Hni Hnc.
  assert (Hk : ∀ a, a ∈ l → mbufs s' !! a.1 = Some a.2 ∧ mbuf_ok s' a.2 ∧ mbytes s' a.2 = mbytes s a.2).
  { intros a Ha. rewrite Forall_forall in Hst, Ho, Hw. assert (a.1 ∈ l.*1) by (apply list_elem_of_fmap; eauto).
    assert (a.1 ∉ ids) by (intros Hx; by apply (Hni _ Hx)).
    rewrite Hm by done. split; [by apply Hst|]. apply bytes_ok; [|by apply Ho].
    apply own_bytes; [by apply Hw|by apply Ho|by rewrite Hm by done|].
    intros c Hca. apply Hcl. intros Hcc. apply (Hnc c Hcc). apply list_elem_of_bind. eauto. }
  split; [split; try done|]; apply Forall_forall; intros a Ha; by destruct (Hk a Ha) as (? & ? & ?).
Qed.

Lemma private_cons s i m l : mbufs s !! i = Some m → mbuf_ok s m → own (i, m) → i ∉ l.*1 → NoDup (cl (i, m) ++ l ≫= cl) →
  private s l → private s ((i, m) :: l).
Proof. intros H1 H2 H3 H4 H5 [Hst Hi Ho Hw Hc]. split; [by constructor|rewrite fmap_cons; by constructor|by constructor|by constructor|done]. Qed.

(** The fields that say where the bytes are. *)
Definition same_area (m m' : mbuf) : Prop :=
  has M_EXT m' = has M_EXT m ∧ ext_buf m' = ext_buf m ∧ m_dat m' = m_dat m.
Lemma same_area_cl i m m' : same_area m m' → cl (i, m') = cl (i, m).
Proof. intros (E1 & E2 & _). unfold cl. simpl. by rewrite E1, E2. Qed.

(** Changing one mbuf, but for its bytes. *)
Lemma private_upd s i m l g : private s ((i, m) :: l) → same_area m (g m) → own (i, g m) →
  let s' := with_mbufs (<[i := g m]> (mbufs s)) s in
  mbuf_ok s (g m) →
  upd i g s = Done s' ∧ private s' ((i, g m) :: l) ∧ same s s' l ∧ mbytes s' (g m) = mbytes s (g m).
Proof.
  intros Hp Ha Hw s' Hok. destruct (private_at _ _ _ _ Hp) as (Hi & _ & _ & Hni & _ & Hl). split; [by apply upd_spec|].
  pose proof (same_upd s i m (g m) Hi (proj2 (proj2 Ha))) as Hsb. fold s' in Hsb.
  destruct (frame_keep s s' l [i] [] Hl) as [Hl' Hs]; [|done|set_solver|set_solver|].
  { intros j Hj. unfold s'. cbn. rewrite lookup_insert_ne; [done|]. set_solver. }
  split; [|split; [done|by apply same_mbytes]]. apply private_cons; try done.
  - unfold s'. cbn. by rewrite lookup_insert_eq.
  - by apply (same_ok s).
  - destruct Hp as [_ _ _ _ Hc]. rewrite (same_area_cl i m) by done. done.
Qed.

(** Its links, its flags. *)
Lemma private_set s i m l g : private s ((i, m) :: l) → same_area m (g m) → m_data (g m) = m_data m → m_len (g m) = m_len m →
  ∃ s', upd i g s = Done s' ∧ private s' ((i, g m) :: l) ∧ same s s' l ∧ mbytes s' (g m) = mbytes s m.
Proof.
  intros Hp Ha Hd Hl. destruct (private_at _ _ _ _ Hp) as (Hi & Hok & Hw & _).
  assert (Hok' : mbuf_ok s (g m)) by (unfold mbuf_ok, area in *; by rewrite Hd, Hl).
  assert (Hw' : own (i, g m)) by (unfold own in *; simpl in *; destruct Ha as (-> & -> & ->); by rewrite Hd).
  eexists. destruct (private_upd s i m l g Hp Ha Hw' Hok') as (E & H1 & H2 & H3). split; [exact E|]. split; [done|]. split; [done|].
  rewrite H3. unfold mbytes, area. by rewrite Hd, Hl.
Qed.

Lemma private_free s i m l : private s ((i, m) :: l) → ∃ s', m_free (Some i) s = Done (m_next m, s') ∧ private s' l ∧ same s s' l.
Proof.
  intros Hp. destruct (private_at _ _ _ _ Hp) as (Hi & Hok & Hw & Hni & Hnc & Hl).
  unfold m_free. cbn [deref]. rewrite bind_done, (load_spec i s m), bind_done by done. destruct (has M_EXT m) eqn:E.
  - unfold own in Hw. simpl in Hw. rewrite E in Hw. destruct Hw as (c & off & Hd & Hb). rewrite (upd_spec i _ s m), bind_done by done.
    set (s1 := with_mbufs _ s). destruct Hok as (_ & _ & _ & Hc). rewrite Hd in Hc. simpl in Hc. apply deref_Done in Hc.
    destruct (u32 (m_extrefcnt m - 1) =? 0).
    + rewrite Hb. cbn [deref]. rewrite bind_done. assert (clusters s1 !! c = Some (area s m)) as -> by done. cbn [deref]. rewrite !bind_done.
      eexists. split; [done|]. apply (frame_keep s _ l [i] [c]); try done.
      * intros j Hj. unfold s1. cbn. rewrite lookup_delete_ne, lookup_insert_ne; [done|set_solver|set_solver].
      * intros c' Hc'. cbn. rewrite lookup_delete_ne; [done|]. set_solver.
      * set_solver.
      * intros c' Hc'. apply list_elem_of_singleton in Hc' as ->. apply Hnc. unfold cl. simpl. rewrite E, Hb. set_solver.
    + rewrite bind_done. eexists. split; [done|]. apply (frame_keep s _ l [i] []); try done; try set_solver.
      intros j Hj. unfold s1. cbn. rewrite lookup_delete_ne, lookup_insert_ne; [done|set_solver|set_solver].
  - rewrite bind_done. eexists. split; [done|]. apply (frame_keep s _ l [i] []); try done; try set_solver.
    intros j Hj. cbn. rewrite lookup_delete_ne; [done|set_solver].
Qed.

(** Bytes taken off the front. *)
Lemma private_trim s i m l n : private s ((i, m) :: l) → 0 <= n <= m_len m →
  ∃ s', upd i (trim_one n) s = Done s' ∧ private s' ((i, trim_one n m) :: l) ∧ same s s' l ∧
    mbytes s' (trim_one n m) = drop (Z.to_nat n) (mbytes s m).
Proof.
  intros Hp Hn. destruct (private_at _ _ _ _ Hp) as (Hi & Hok & Hw & _). destruct (trim_one_bytes s m n Hok Hn) as [Hok' Hb].
  assert (Hw' : own (i, trim_one n m)).
  { unfold own in *. simpl in *. destruct (has M_EXT m) eqn:E; [destruct Hw as (c & off & Hd & He)|destruct Hw as (off & Hd & ?)];
      unfold trim_one, has in *; simpl in *; rewrite E, Hd; simpl; eauto. }
  eexists. destruct (private_upd s i m l (trim_one n) Hp ltac:(by split) Hw' Hok') as (E & H1 & H2 & H3).
  split; [exact E|]. split; [done|]. split; [done|]. by rewrite H3.
Qed.

(** The bytes of one put behind those of another. *)
Lemma private_merge s j y i x l : private s ((j, y) :: (i, x) :: l) → has M_EXT y = false →
  addr_off (m_data y) + m_len y + m_len x < MLEN →
  ∃ s' y', merge_into j x s = Done s' ∧ private s' ((j, y') :: (i, x) :: l) ∧ same s s' ((i, x) :: l) ∧
    mbytes s' y' = mbytes s y ++ mbytes s x ∧ m_len y' = m_len y + m_len x ∧ m_next y' = m_next y ∧
    m_nextpkt y' = m_nextpkt y ∧ m_flags y' = m_flags y.
Proof.
  intros Hp He Hfit. destruct (private_at _ _ _ _ Hp) as (Hj & Hoky & Hw & Hni & _ & Hl). destruct (private_at _ _ _ _ Hl) as (Hi & Hokx & _).
  unfold own in Hw. simpl in Hw. rewrite He in Hw. destruct Hw as (off & Hd & Hlen).
  pose proof (mbytes_length s y Hoky) as Hly. pose proof (mbytes_length s x Hokx) as Hlx.
  unfold MLEN in *. destruct Hoky as (Hy0 & Hyo & Hya & Hyb). pose proof Hokx as (Hx0 & _). rewrite Hd in *. simpl in Hfit, Hyo, Hya.
  assert (Harea : area s y = m_dat y) by (unfold area; rewrite Hd; simpl; by rewrite (load_spec j s y)).
  unfold merge_into. rewrite (load_spec j s y), bind_done by done.
  assert (copy_out (m_data x) (m_len x) s = Done (mbytes s x)) as ->.
  { replace (m_data x) with (shift (m_data x) 0) by (destruct (m_data x); simpl; by rewrite Z.add_0_r).
    rewrite copy_out_spec by (done || lia). f_equal. change (drop (Z.to_nat 0) (mbytes s x)) with (mbytes s x). rewrite take_ge; [done|lia]. }
  rewrite bind_done. unfold copy_in. rewrite Hd. cbn [shift bytes_at]. rewrite (load_spec j s y), !bind_done by done. cbn [addr_off].
  rewrite put_buf_ok, bind_done by lia. set (b' := _ ++ _). rewrite (upd_spec j _ s y), bind_done by done.
  set (s1 := with_mbufs _ s). rewrite (upd_spec j _ s1 (set_dat b' y)) by apply lookup_insert_eq.
  set (y' := set_len (m_len (set_dat b' y) + m_len x) (set_dat b' y)). eexists _, y'. split; [reflexivity|].
  assert (Hlb : length b' = length (m_dat y)) by (unfold b'; rewrite !length_app, length_take, length_drop; lia).
  unfold s1. rewrite with_mbufs_twice. cbn [with_mbufs mbufs]. rewrite insert_insert_eq. set (s' := with_mbufs _ s).
  assert (Hy' : mbufs s' !! j = Some y') by apply lookup_insert_eq.
  assert (Hd' : m_data y' = InMbuf j off) by done. assert (Hl' : m_len y' = m_len y + m_len x) by (unfold y'; cbn; by rewrite s32_small by lia).
  assert (Harea' : area s' y' = b') by (unfold area; rewrite Hd'; simpl; by rewrite (load_spec j s' y')).
  destruct (frame_keep s s' ((i, x) :: l) [j] [] Hl) as [Hl2 Hs]; [|done|set_solver|set_solver|].
  { intros k Hk. unfold s'. cbn. rewrite lookup_insert_ne; [done|set_solver]. }
  assert (Hok' : mbuf_ok s' y').
  { unfold mbuf_ok. rewrite Harea', Hd', Hl', Hlb. simpl. rewrite (load_spec j s' y') by done.
    split; [lia|]. split; [lia|]. split; [lia|done]. }
  assert (Hcl : cl (j, y') = cl (j, y)) by done.
  split; [|split; [done|split; [|done]]].
  - apply private_cons; try done; [|rewrite Hcl; by apply (pr_clus _ _ Hp)].
    unfold own. simpl. assert (has M_EXT y' = false) as -> by done. exists off. split; [done|]. unfold y', MLEN. cbn. lia.
  - unfold mbytes at 1. rewrite Harea', Hd', Hl'. cbn [addr_off]. unfold mbytes at 1 in Hly. unfold mbytes at 1. rewrite Hd, Harea in *. cbn [addr_off] in *.
    unfold b'. replace (Z.to_nat (off + m_len y)) with (Z.to_nat off + Z.to_nat (m_len y))%nat by lia.
    rewrite <- take_take_drop, <- app_assoc, drop_app_length' by (rewrite length_take; lia).
    rewrite app_assoc. apply take_app_length'. rewrite length_app. lia.
Qed.

(** ** Chains and records *)

Definition hd_id (l : list (Z * mbuf)) : option Z := match l with [] => None | (i, _) :: _ => Some i end.
Definition last_id (l : list (Z * mbuf)) : option Z := match last l with Some a => Some a.1 | None => None end.
Definition nextpkt_of (l : list (Z * mbuf)) : option Z := match l with [] => None | (_, m) :: _ => m_nextpkt m end.
Fixpoint nexts (l : list (Z * mbuf)) : Prop :=
  match l with [] => True | (_, m) :: l => m_next m = hd_id l ∧ nexts l end.
Definition eors (l : list (Z * mbuf)) : bool := existsb (λ a, has M_EOR a.2) l.
(** Only the last mbuf of a record may have the mark of its end. *)
Definition one_eor (l : list (Z * mbuf)) : Prop := eors (removelast l) = false.
Definition mb_total (l : list (Z * mbuf)) : Z := foldr (λ a n, mb_size a.2 + n) 0 l.
Definition first (rs : list (list (Z * mbuf))) : option Z := match rs with [] => None | r :: _ => hd_id r end.
Fixpoint recs_ok (rs : list (list (Z * mbuf))) : Prop :=
  match rs with [] => True | r :: rs => r ≠ [] ∧ nexts r ∧ nextpkt_of r = first rs ∧ recs_ok rs end.

(** What the counters count. *)
Definition counts (b : sockbuf) (l : list (Z * mbuf)) : Prop := sb_cc b = u32 (total l) ∧ sb_mbcnt b = u32 (mb_total l).
Definition same_marks (b b' : sockbuf) : Prop :=
  sb_hiwat b' = sb_hiwat b ∧ sb_mbmax b' = sb_mbmax b ∧ sb_lowat b' = sb_lowat b ∧ sb_flags b' = sb_flags b.

Lemma same_marks_trans b1 b2 b3 : same_marks b1 b2 → same_marks b2 b3 → same_marks b1 b3.
Proof. unfold same_marks. intuition congruence. Qed.
Lemma mb_size_pos m : MSIZE <= mb_size m.
Proof. unfold mb_size, MCLBYTES. destruct (has M_EXT m); lia. Qed.
Lemma u32_add x y : u32 (u32 x + y) = u32 (x + y).
Proof. unfold u32. by rewrite Zplus_mod_idemp_l. Qed.
Lemma u32_sub x y : u32 (u32 x - y) = u32 (x - y).
Proof. unfold u32. by rewrite Zminus_mod_idemp_l. Qed.

Lemma mb_total_app l l' : mb_total (l ++ l') = mb_total l + mb_total l'.
Proof. unfold mb_total. induction l as [|a l IH]; [done|]. simpl. rewrite IH. lia. Qed.
Lemma mb_total_cons a l : mb_total (a :: l) = mb_size a.2 + mb_total l.
Proof. done. Qed.
Lemma eors_app l l' : eors (l ++ l') = eors l || eors l'.
Proof. apply existsb_app. Qed.
Lemma eors_none l : eors l = false → one_eor l.
Proof.
  unfold one_eor. destruct l as [|a l] using rev_ind; [done|]. rewrite removelast_last, eors_app. by intros [-> _]%orb_false_iff.
Qed.
Lemma hd_id_app l l' : l ≠ [] → hd_id (l ++ l') = hd_id l.
Proof. by destruct l as [|[] ?]. Qed.
Lemma nextpkt_of_app l l' : l ≠ [] → nextpkt_of (l ++ l') = nextpkt_of l.
Proof. by destruct l as [|[] ?]. Qed.
Lemma last_id_snoc l j y : last_id (l ++ [(j, y)]) = Some j.
Proof. unfold last_id. by rewrite last_snoc. Qed.
Lemma last_id_nil l : last_id l = None → l = [].
Proof. unfold last_id. destruct (last l) eqn:E; [done|]. intros _. by apply last_None. Qed.
Lemma snoc_case (l : list (Z * mbuf)) : l = [] ∨ ∃ l0 j y, l = l0 ++ [(j, y)].
Proof. destruct l as [|[j y] l0] using rev_ind; eauto 10. Qed.

Lemma counts_alloc b l i x : counts b l → counts (sballoc b x) (l ++ [(i, x)]).
Proof.
  intros [Hc Hm]. unfold counts, sballoc. cbn. rewrite Hc, Hm, !u32_add, total_app, mb_total_app. split; f_equal; [simpl; lia|].
  unfold mb_total. simpl. lia.
Qed.

Lemma nexts_snoc l j y : nexts (l ++ [(j, y)]) → m_next y = None.
Proof. induction l as [|[i x] l IH]; simpl; [by intros []|]. intros []. auto. Qed.
(** Changes to the last mbuf. *)
Lemma nexts_last l j y z : m_next z = m_next y → nexts (l ++ [(j, y)]) → nexts (l ++ [(j, z)]).
Proof.
  intros Hz. induction l as [|[i x] l IH]; simpl; [by rewrite Hz|]. intros [Hx H]. split; [|auto].
  rewrite Hx. by destruct l as [|[] ?].
Qed.
Lemma nexts_link l j y z i x : m_next z = Some i → m_next x = None → nexts (l ++ [(j, y)]) → nexts (l ++ [(j, z); (i, x)]).
Proof.
  intros Hz Hx. induction l as [|[k w] l IH]; simpl; [done|]. intros [Hw Hl]. split; [|auto]. rewrite Hw. by destruct l as [|[] ?].
Qed.
Lemma nexts_linked s l : private s l → nexts l → linked (mbufs s) (hd_id l) l.
Proof.
  intros Hp. induction l as [|[i m] l IH]; simpl; [constructor|]. intros [Hm Hl].
  destruct (private_at _ _ _ _ Hp) as (Hi & _ & _ & _ & _ & Hp'). constructor; [done|]. rewrite Hm. auto.
Qed.
Lemma private_turns s l : private s l → (length l < turns s)%nat.
Proof.
  intros [Hst Hi _ _ _]. unfold turns. rewrite <- (length_fmap fst).
  assert (size (list_to_set (C := gset Z) l.*1) = length l.*1) as <- by (by apply size_list_to_set).
  apply Nat.lt_succ_r. rewrite <- (size_dom (D := gset Z) (mbufs s)). apply subseteq_size.
  intros i Hin. apply elem_of_list_to_set, list_elem_of_fmap in Hin as (a & -> & Ha). rewrite Forall_forall in Hst.
  apply elem_of_dom. exists a.2. by apply Hst.
Qed.
Lemma private_mid s l1 i m l2 : private s (l1 ++ (i, m) :: l2) ↔ private s ((i, m) :: l1 ++ l2).
Proof. by rewrite Permutation_middle. Qed.

(** *** Flags *)

Lemma has_eor m : Z.land (m_flags m) M_EOR = if has M_EOR m then M_EOR else 0.
Proof. unfold has. change M_EOR with (2 ^ 1). rewrite land_pow2_testbit by lia. by apply land_pow2. Qed.
Lemma has_land f g m : Z.land f g = g → has g (set_flags (Z.land (m_flags m) f) m) = has g m.
Proof. intros E. unfold has. cbn [m_flags set_flags]. by rewrite <- Z.land_assoc, E. Qed.
Lemma has_land_not f g m : Z.land f g = 0 → has g (set_flags (Z.land (m_flags m) f) m) = false.
Proof. intros E. unfold has. cbn [m_flags set_flags]. by rewrite <- Z.land_assoc, E, Z.land_0_r. Qed.
Lemma has_lor f g m : Z.land f g = 0 → has g (set_flags (Z.lor (m_flags m) f) m) = has g m.
Proof. intros E. unfold has. cbn [m_flags set_flags]. by rewrite Z.land_lor_distr_l, E, Z.lor_0_r. Qed.
Lemma has_lor_eor m : has M_EOR (set_flags (Z.lor (m_flags m) M_EOR) m) = true.
Proof.
  unfold has. cbn [m_flags set_flags]. change M_EOR with (2 ^ 1). rewrite land_pow2_testbit by lia.
  by rewrite Z.lor_spec, Z.pow2_bits_true, orb_true_r by lia.
Qed.
Lemma no_ext_eor m : Z.land (m_flags m) (Z.lor M_EXT M_EOR) = 0 → has M_EXT m = false.
Proof.
  intros E. unfold has. change M_EXT with (Z.land (Z.lor M_EXT M_EOR) M_EXT). by rewrite Z.land_assoc, E, Z.land_0_l.
Qed.

(** ** [sbcompress] *)

(** Part of [lm] has moved behind [L]; [e]: the mbufs that are gone had the end of the record. *)
Record moved (f : list (Z * mbuf)) (e : bool) (b b' : sockbuf) (s s' : mst) (L lm L' lm' : list (Z * mbuf)) : Prop := mk_moved {
  mv_private : private s' (L' ++ lm' ++ f);
  mv_nexts : nexts L' ∧ nexts lm';
  mv_pkts : Forall (λ a, m_nextpkt a.2 = None) lm';
  mv_bytes : contents s' L' ++ contents s' lm' = contents s L ++ contents s lm;
  mv_same : same s s' f;
  mv_none : L' = [] ∧ contents s' lm' = [] ∧ e = false ↔ L = [] ∧ contents s lm = [] ∧ e = false;
  mv_head : L ≠ [] → L' ≠ [] ∧ hd_id L' = hd_id L ∧ nextpkt_of L' = nextpkt_of L ∧ sb_mb b' = sb_mb b;
  mv_empty : L = [] → nextpkt_of L' = None ∧ (sb_mb b = None → sb_mb b' = hd_id L');
  mv_eors : eors L = false → eors L' = false;
  mv_counts pre : counts b (pre ++ L) → counts b' (pre ++ L');
  mv_marks : same_marks b b';
}.

Lemma moved_refl f e b s L lm : private s (L ++ lm ++ f) → nexts L → nexts lm → Forall (λ a, m_nextpkt a.2 = None) lm →
  moved f e b b s s L lm L lm.
Proof. intros. split; try done; [apply same_refl|]. by intros ->. Qed.

Lemma moved_trans f e b1 b2 b3 s1 s2 s3 L1 l1 L2 l2 L3 l3 :
  moved f e b1 b2 s1 s2 L1 l1 L2 l2 → moved f e b2 b3 s2 s3 L2 l2 L3 l3 → moved f e b1 b3 s1 s3 L1 l1 L3 l3.
Proof.
  intros [_ _ _ B1 S1 N1 H1 E1 O1 C1 M1] [P2 X2 K2 B2 S2 N2 H2 E2 O2 C2 M2]. split; auto.
  - by rewrite B2.
  - by apply same_trans with s2.
  - by rewrite N2.
  - intros Hne. destruct (H1 Hne) as (Hne2 & <- & <- & <-). auto.
  - intros ->. destruct (E1 eq_refl) as [Hn Hm]. destruct (decide (L2 = [])) as [->|Hne]; [by destruct (E2 eq_refl); auto|].
    destruct (H2 Hne) as (_ & -> & -> & ->). auto.
  - by apply (same_marks_trans _ _ _ M1 M2).
Qed.

(** One turn: an empty mbuf is dropped. *)
Lemma move_drop f e b s L i x lm : private s (L ++ ((i, x) :: lm) ++ f) → nexts L → nexts ((i, x) :: lm) →
  Forall (λ a, m_nextpkt a.2 = None) ((i, x) :: lm) → m_len x = 0 →
  ∃ s', m_free (Some i) s = Done (hd_id lm, s') ∧ moved f e b b s s' L ((i, x) :: lm) L lm.
Proof.
  intros Hp HL [Hx Hlm] Hk Hl. pose proof Hp as Hp1. cbn [app] in Hp1. rewrite private_mid in Hp1.
  destruct (private_free _ _ _ _ Hp1) as (s' & E & Hp' & Hs). exists s'. split; [by rewrite E, Hx|].
  apply same_app in Hs as [HsL Hs]. apply same_app in Hs as [Hsl Hsf]. inversion_clear Hk.
  assert (Hb : contents s ((i, x) :: lm) = contents s lm).
  { rewrite contents_cons. destruct (private_at _ _ _ _ Hp1) as (_ & Hok & _). pose proof (mbytes_length s x Hok).
    destruct (mbytes s x); [done|simpl in *; lia]. }
  rewrite <- (same_contents_of s s' lm Hsl) in Hb. split; try done.
  - by rewrite Hb, (same_contents_of s s' L).
  - by rewrite Hb.
  - by intros ->.
Qed.

(** One turn: the bytes of an mbuf are put behind those of the last one, and it is freed. *)
Lemma move_merge f e b s L0 j y i x lm : private s ((L0 ++ [(j, y)]) ++ ((i, x) :: lm) ++ f) → nexts (L0 ++ [(j, y)]) →
  nexts ((i, x) :: lm) → Forall (λ a, m_nextpkt a.2 = None) ((i, x) :: lm) →
  has M_EXT y = false → addr_off (m_data y) + m_len y + m_len x < MLEN →
  ∃ s1 s' y', merge_into j x s = Done s1 ∧ m_free (Some i) s1 = Done (hd_id lm, s') ∧
    moved f e b (set_counts (sb_cc b + m_len x) (sb_mbcnt b) b) s s' (L0 ++ [(j, y)]) ((i, x) :: lm) (L0 ++ [(j, y')]) lm.
Proof.
  intros Hp HL [Hx Hlm] Hk He Hfit. assert (Hp1 : private s ((j, y) :: (i, x) :: L0 ++ lm ++ f)).
  { eapply private_perm; [|exact Hp]. solve_Permutation. }
  destruct (private_merge _ _ _ _ _ _ Hp1 He Hfit) as (s1 & y' & E1 & Hp2 & Hs1 & Hb & Hly & Hny & Hky & Hfy).
  rewrite Permutation_swap in Hp2. destruct (private_free _ _ _ _ Hp2) as (s' & E2 & Hp3 & Hs2). exists s1, s', y'.
  split; [done|]. split; [by rewrite E2, Hx|]. inversion_clear Hk.
  apply Forall_cons in Hs2 as [Hby Hs2], Hs1 as [_ Hs1]. simpl in Hby. pose proof (same_trans _ _ _ _ Hs1 Hs2) as Hs.
  apply same_app in Hs as [HsL Hs]. apply same_app in Hs as [Hsl Hsf].
  assert (Hsz : mb_size y' = mb_size y) by (unfold mb_size, has; by rewrite Hfy).
  split; try done.
  - eapply private_perm; [|exact Hp3]. solve_Permutation.
  - split; [|done]. by apply nexts_last with y.
  - rewrite !contents_app, (same_contents_of _ _ _ HsL), (same_contents_of _ _ _ Hsl), !contents_cons, Hby, Hb.
    cbn. by rewrite !app_nil_r, !app_assoc.
  - split; intros (Hn & _); by destruct L0.
  - intros _. split; [by destruct L0|]. destruct L0 as [|[] ?]; by simpl.
  - intros Hn. by destruct L0.
  - rewrite !eors_app. simpl. unfold has. by rewrite Hfy.
  - intros pre [Hc Hm]. unfold counts. cbn. rewrite Hc, Hm, u32_add, !app_assoc, !total_app, !mb_total_app, u32_idem.
    cbn. rewrite Hly, Hsz. split; f_equal; lia.
Qed.

(** What becomes of the mbufs before. *)
Record linked_last (b b1 : sockbuf) (s s1 : mst) (L L1 : list (Z * mbuf)) (i : Z) (x : mbuf) (l : list (Z * mbuf)) : Prop := mk_linked_last {
  ll_private : private s1 ((i, x) :: L1 ++ l);
  ll_same : same s s1 ((i, x) :: l);
  ll_bytes : contents s1 L1 = contents s L;
  ll_nexts z : m_next z = None → nexts (L1 ++ [(i, z)]);
  ll_totals : eors L1 = eors L ∧ total L1 = total L ∧ mb_total L1 = mb_total L;
  ll_head : L ≠ [] → L1 ≠ [] ∧ hd_id L1 = hd_id L ∧ nextpkt_of L1 = nextpkt_of L ∧ b1 = b;
  ll_empty : L = [] → L1 = [] ∧ b1 = set_mb (Some i) b;
}.
Lemma link_last_spec b s L i x l : private s (L ++ (i, x) :: l) → nexts L →
  ∃ b1 s1 L1, link_last b (last_id L) i s = Done (b1, s1) ∧ linked_last b b1 s s1 L L1 i x l.
Proof.
  intros Hp HL. destruct (snoc_case L) as [->|(L0 & j & y & ->)].
  - eexists _, s, []. split; [done|]. split; try done; apply same_refl.
  - unfold link_last. rewrite last_id_snoc. assert (Hp1 : private s ((j, y) :: L0 ++ (i, x) :: l)).
    { eapply private_perm; [|exact Hp]. solve_Permutation. }
    destruct (private_set _ _ _ _ (set_next (Some i)) Hp1 ltac:(done) ltac:(done) ltac:(done)) as (s1 & -> & Hp2 & Hs & Hb). rewrite bind_done.
    apply same_app in Hs as [HsL Hs]. eexists b, s1, (L0 ++ [(j, set_next (Some i) y)]). split; [done|]. split.
    + eapply private_perm; [|exact Hp2]. solve_Permutation.
    + done.
    + by rewrite !contents_app, (same_contents_of _ _ _ HsL), !contents_cons, Hb.
    + intros z Hz. rewrite <- app_assoc. by apply nexts_link with y.
    + by rewrite !eors_app, !total_app, !mb_total_app.
    + intros _. by destruct L0 as [|[] ?].
    + by destruct L0.
Qed.

(** One turn: an mbuf becomes the last one. *)
Lemma move_link f e b s L i x lm : private s (L ++ ((i, x) :: lm) ++ f) → nexts L → nexts ((i, x) :: lm) →
  Forall (λ a, m_nextpkt a.2 = None) ((i, x) :: lm) → (m_len x = 0 → e = true) →
  ∃ b1 s1 s2 s3 L', link_last b (last_id L) i s = Done (b1, s1) ∧ load i s1 = Done x ∧
    upd i (λ x, set_flags (Z.land (m_flags x) (Z.lnot M_EOR)) x) s1 = Done s2 ∧ upd i (set_next None) s2 = Done s3 ∧
    last_id L' = Some i ∧ moved f e b (sballoc b1 x) s s3 L ((i, x) :: lm) L' lm.
Proof.
  intros Hp HL [Hx Hlm] Hk Hex.
  destruct (link_last_spec b s L i x (lm ++ f) Hp HL) as (b1 & s1 & L1 & E1 & [Hp1 Hs1 Hb1 Hn1 (He1 & Ht1 & Hm1) Hne Hnil]).
  destruct (private_at _ _ _ _ Hp1) as (Hi & Hok & _).
  pose proof (has_land (Z.lnot M_EOR) M_EXT x eq_refl) as Hext. set (x1 := set_flags (Z.land (m_flags x) (Z.lnot M_EOR)) x) in *.
  destruct (private_set _ _ _ _ (λ x, set_flags (Z.land (m_flags x) (Z.lnot M_EOR)) x) Hp1 ltac:(by split) ltac:(done) ltac:(done)) as (s2 & E2 & Hp2 & Hs2 & Hb2).
  fold x1 in Hp2, Hb2. destruct (private_set _ _ _ _ (set_next None) Hp2 ltac:(done) ltac:(done) ltac:(done)) as (s3 & E3 & Hp3 & Hs3 & Hb3).
  set (x2 := set_next None x1) in *. exists b1, s1, s2, s3, (L1 ++ [(i, x2)]).
  split; [done|]. split; [by apply load_spec|]. split; [done|]. split; [done|]. split; [apply last_id_snoc|].
  pose proof (same_trans _ _ _ _ Hs2 Hs3) as Hs. apply same_app in Hs as [HsL Hs]. apply Forall_cons in Hs1 as [Hbx Hs1]. simpl in Hbx.
  pose proof (same_trans _ _ _ _ Hs1 Hs) as Hs4. apply same_app in Hs4 as [Hsl Hsf]. inversion_clear Hk as [|?? Hkx Hk']. simpl in Hkx.
  pose proof (mbytes_length _ _ Hok) as Hlx. split; try done.
  - eapply private_perm; [|exact Hp3]. solve_Permutation.
  - split; [|done]. by apply Hn1.
  - rewrite !contents_app, (same_contents_of _ _ _ HsL), (same_contents_of _ _ _ Hsl), !contents_cons, Hb3, Hb2, Hbx, Hb1.
    cbn. by rewrite app_nil_r, !app_assoc.
  - split; [intros (Hn & _); by destruct L1|]. intros (_ & Hn & ->). rewrite contents_cons in Hn. apply app_nil in Hn as [Hn _].
    rewrite Hbx, Hn in Hlx. by discriminate Hex.
  - intros H. destruct (Hne H) as (H1 & <- & <- & ->). rewrite hd_id_app, nextpkt_of_app by done. split; [by destruct L1|done].
  - intros H. destruct (Hnil H) as [-> ->]. by split.
  - intros H. rewrite eors_app, He1, H. simpl. rewrite orb_false_r. change (has M_EOR x2) with (has M_EOR x1). by apply has_land_not.
  - intros pre Hc. rewrite app_assoc. assert (Hc1 : counts b1 (pre ++ L1)).
    { destruct (decide (L = [])) as [H|H]; [destruct (Hnil H) as [-> ->]; by rewrite H in Hc|].
      destruct (Hne H) as (_ & _ & _ & ->). unfold counts in *. by rewrite total_app, mb_total_app, Ht1, Hm1, <- total_app, <- mb_total_app. }
    apply (counts_alloc _ _ i x) in Hc1. unfold counts in *. rewrite !total_app, !mb_total_app in *. cbn in *.
    unfold mb_size. change (has M_EXT x2) with (has M_EXT x1). by rewrite Hext.
  - destruct (decide (L = [])) as [H|H]; [by destruct (Hnil H) as [-> ->]|by destruct (Hne H) as (_ & _ & _ & ->)].
Qed.

Lemma droppable_spec s x L i lm f (e0 : bool) : private s (L ++ ((i, x) :: lm) ++ f) → m_next x = hd_id lm →
  ∃ d, droppable x (last_id L) (if e0 then M_EOR else 0) s = Done d ∧
    (d = true → m_len x = 0 ∧ (e0 = true → L ≠ [] ∨ lm ≠ [])) ∧ (d = false → m_len x = 0 → e0 = true).
Proof.
  intros Hp Hx. unfold droppable. destruct (Z.eqb_spec (m_len x) 0) as [Hl|Hl]; cbn [negb]; [|exists false; split; [done|]; by split].
  destruct e0; cbn [Z.eqb M_EOR]; [|exists true; split; [done|]; by split].
  rewrite Hx. destruct lm as [|[k z] lm]; cbn [hd_id].
  - destruct (snoc_case L) as [->|(L0 & j & y & ->)]; [exists false; split; [done|]; by split|]. rewrite last_id_snoc.
    rewrite <- app_assoc in Hp. cbn [app] in Hp. rewrite private_mid in Hp. destruct (private_at _ _ _ _ Hp) as (Hj & _).
    rewrite (load_spec j s y), bind_done by done. eexists. split; [done|]. split; [|done]. intros _. split; [done|]. intros _. left. by destruct L0.
  - assert (Hp' : private s ((k, z) :: (i, x) :: L ++ lm ++ f)).
    { eapply private_perm; [|exact Hp]. solve_Permutation. }
    destruct (private_at _ _ _ _ Hp') as (Hj & _).
    rewrite (load_spec k s z), bind_done by done. eexists. split; [done|]. split; [|done]. intros _. split; [done|]. intros _. by right.
Qed.

Lemma fits_spec s x L l : private s (L ++ l) →
  ∃ d, fits x (last_id L) s = Done d ∧
    (d = true → ∃ L0 j y, L = L0 ++ [(j, y)] ∧ has M_EXT y = false ∧ addr_off (m_data y) + m_len y + m_len x < MLEN).
Proof.
  intros Hp. destruct (snoc_case L) as [->|(L0 & j & y & ->)]; [by exists false|]. rewrite last_id_snoc. cbn [fits].
  rewrite <- app_assoc in Hp. cbn [app] in Hp. rewrite private_mid in Hp. destruct (private_at _ _ _ _ Hp) as (Hj & _). rewrite (load_spec j s y), bind_done by done.
  eexists. split; [done|]. intros [[Hf Hfit]%andb_true_iff _]%andb_true_iff. exists L0, j, y. split; [done|].
  apply Z.eqb_eq in Hf. apply Z.ltb_lt in Hfit. split; [by apply no_ext_eor|done].
Qed.

Lemma lor_eor (e0 : bool) x : Z.lor (if e0 then M_EOR else 0) (Z.land (m_flags x) M_EOR) = if e0 || has M_EOR x then M_EOR else 0.
Proof. rewrite has_eor. by destruct e0, (has M_EOR x). Qed.

Lemma compress_loop_spec fuel lm f (e0 : bool) b s L : private s (L ++ lm ++ f) → nexts L → nexts lm →
  Forall (λ a, m_nextpkt a.2 = None) lm → (length lm < fuel)%nat → (e0 = true → L ≠ [] ∨ lm ≠ []) →
  let e := e0 || eors lm in
  ∃ b' s' L', compress_loop fuel b (hd_id lm) (last_id L) (if e0 then M_EOR else 0) s =
      Done (b', last_id L', (if e then M_EOR else 0), s') ∧
    moved f e b b' s s' L lm L' [] ∧ (e = true → L' ≠ []).
Proof.
  revert lm e0 b s L. induction fuel as [|fuel IH]; intros lm e0 b s L Hp HL Hlm Hk Hf He e; [lia|]. cbn [compress_loop].
  destruct lm as [|[i x] lm]; cbn [hd_id].
  { exists b, s, L. unfold e. cbn [eors existsb]. rewrite orb_false_r. split; [done|]. split; [by apply moved_refl|]. naive_solver. }
  simpl in Hf. pose proof Hp as Hp1. cbn [app] in Hp1. rewrite private_mid in Hp1.
  destruct (private_at _ _ _ _ Hp1) as (Hi & _). clear Hp1. rewrite (load_spec i s x), bind_done by done. rewrite lor_eor.
  assert (Hee : e = (e0 || has M_EOR x) || eors lm) by (unfold e; cbn; by rewrite orb_assoc).
  destruct (droppable_spec s x L i lm f (e0 || has M_EOR x) Hp (proj1 Hlm)) as (d & -> & Hdt & Hdf). rewrite bind_done. destruct d.
  - destruct (Hdt eq_refl) as [Hl0 He'].
    destruct (move_drop f e b s L i x lm) as (s1 & -> & Hm); try done. rewrite bind_done.
    destruct Hm as [Hp1 [_ Hlm1] Hk1]. destruct (IH lm (e0 || has M_EOR x) b s1 L) as (b' & s' & L' & E & Hm' & Hne); try done; [lia|].
    exists b', s', L'. rewrite Hee. split; [done|]. split; [|done]. rewrite Hee in *. eapply moved_trans; [|exact Hm']. by split.
  - destruct (fits_spec s x L _ Hp) as (d & -> & Hft). rewrite bind_done. destruct d.
    + destruct (Hft eq_refl) as (L0 & j & y & -> & Hext & Hfit).
      destruct (move_merge f e b s L0 j y i x lm) as (s1 & s2 & y' & E1 & E2 & Hm); try done.
      rewrite last_id_snoc. cbn [deref]. rewrite bind_done, E1, bind_done, E2, bind_done. pose proof Hm as [Hp1 [HL1 Hlm1] Hk1 _ _ _ _ _ _ _ _].
      destruct (IH lm (e0 || has M_EOR x) (set_counts (sb_cc b + m_len x) (sb_mbcnt b) b) s2 (L0 ++ [(j, y')])) as (b' & s' & L' & E & Hm' & Hne);
        try done; [lia|intros _; left; by destruct L0|].
      rewrite last_id_snoc in E. exists b', s', L'. rewrite Hee. split; [done|]. split; [|done]. rewrite Hee in *. by eapply moved_trans.
    + destruct (move_link f e b s L i x lm) as (b1 & s1 & s2 & s3 & L1 & E1 & E2 & E3 & E4 & El & Hm); try done.
      { intros Hl. rewrite Hee. by rewrite Hdf. }
      rewrite E1, bind_done, E2, bind_done, E3, bind_done, E4, bind_done. pose proof Hm as [Hp1 [HL1 Hlm1] Hk1 _ _ _ _ _ _ _ _].
      rewrite (proj1 Hlm). assert (L1 ≠ []) by (intros ->; done).
      destruct (IH lm (e0 || has M_EOR x) (sballoc b1 x) s3 L1) as (b' & s' & L' & E & Hm' & Hne); try done; [lia|by left|].
      rewrite El in E. exists b', s', L'. rewrite Hee. split; [done|]. split; [|done]. rewrite Hee in *. by eapply moved_trans.
Qed.

(** The chain [lm] has been put behind [L], which it has made [L']. *)
Record grown (f : list (Z * mbuf)) (b b' : sockbuf) (s s' : mst) (L lm L' : list (Z * mbuf)) : Prop := mk_grown {
  gr_private : private s' (L' ++ f);
  gr_nexts : nexts L';
  gr_bytes : contents s' L' = contents s L ++ contents s lm;
  gr_same : same s s' f;
  gr_eors : eors L' = eors L || eors lm;
  gr_last : one_eor L';
  gr_none : L' = [] ↔ L = [] ∧ contents s lm = [] ∧ eors lm = false;
  gr_head : L ≠ [] → L' ≠ [] ∧ hd_id L' = hd_id L ∧ nextpkt_of L' = nextpkt_of L ∧ sb_mb b' = sb_mb b;
  gr_empty : L = [] → nextpkt_of L' = None ∧ (sb_mb b = None → sb_mb b' = hd_id L');
  gr_counts pre : counts b (pre ++ L) → counts b' (pre ++ L');
  gr_marks : same_marks b b';
}.

(** Closing the last mbuf with the end of the record. *)
Lemma close_last f b b' s s' L lm L0 j y : moved f true b b' s s' L lm (L0 ++ [(j, y)]) [] → eors lm = true → eors L = false →
  ∃ s2, upd j (λ y, set_flags (Z.lor (m_flags y) M_EOR) y) s' = Done s2 ∧
    grown f b b' s s2 L lm (L0 ++ [(j, set_flags (Z.lor (m_flags y) M_EOR) y)]).
Proof.
  intros [Hp [HL _] _ Hb Hs Hn Hh He Ho Hc Hm] Hlm HeL. rewrite <- app_assoc in Hp. cbn [app] in Hp. rewrite private_mid in Hp.
  pose proof (has_lor M_EOR M_EXT y eq_refl) as Hext.
  destruct (private_set _ _ _ _ (λ y, set_flags (Z.lor (m_flags y) M_EOR) y) Hp ltac:(by split) ltac:(done) ltac:(done)) as (s2 & E & Hp2 & Hs2 & Hb2).
  exists s2. split; [done|]. apply same_app in Hs2 as [HsL Hsf]. set (y' := set_flags _ y) in *. split; try done.
  - rewrite <- app_assoc. cbn [app]. by rewrite private_mid.
  - by apply nexts_last with y.
  - rewrite <- Hb, !contents_app, (same_contents_of _ _ _ HsL). unfold contents. cbn. by rewrite Hb2, !app_nil_r.
  - by apply same_trans with s'.
  - rewrite eors_app, Hlm. cbn [eors existsb snd]. unfold y'. by rewrite has_lor_eor, !orb_true_r.
  - unfold one_eor. rewrite removelast_last. specialize (Ho HeL). rewrite eors_app in Ho. by apply orb_false_iff in Ho as [? _].
  - split; [by destruct L0|]. rewrite Hlm. by intros (_ & _ & ?).
  - intros H. destruct (Hh H) as (_ & <- & <- & <-). by destruct L0 as [|[] ?].
  - intros H. destruct (He H) as [<- Hmb]. split; [by destruct L0 as [|[] ?]|]. intros H0. rewrite Hmb by done. by destruct L0 as [|[] ?].
  - intros pre H. specialize (Hc pre H). unfold counts in *. rewrite !total_app, !mb_total_app in *. cbn in *. unfold mb_size in *. by rewrite Hext.
Qed.

Lemma sbcompress_spec f b s L lm : private s (L ++ lm ++ f) → nexts L → nexts lm → Forall (λ a, m_nextpkt a.2 = None) lm →
  eors L = false →
  ∃ b' s' L', sbcompress b (hd_id lm) (last_id L) s = Done (b', s') ∧ grown f b b' s s' L lm L'.
Proof.
  intros Hp HL Hlm Hk He. unfold sbcompress. pose proof (private_turns _ _ Hp) as Hf. rewrite !length_app in Hf.
  destruct (compress_loop_spec (turns s) lm f false b s L) as (b' & s' & L' & E & Hm & Hne); try done; [lia|].
  cbn [orb] in *. rewrite E, bind_done. destruct (eors lm) eqn:El.
  - cbn [Z.eqb M_EOR]. specialize (Hne eq_refl). destruct (snoc_case L') as [->|(L0 & j & y & ->)]; [done|]. rewrite last_id_snoc.
    destruct (close_last _ _ _ _ _ _ _ _ _ _ Hm El He) as (s2 & -> & Hg). rewrite bind_done. eauto.
  - cbn [Z.eqb]. exists b', s', L'. split; [done|]. destruct Hm as [Hp' [HL' _] _ Hb Hs Hn Hh Hem Ho Hc Hma].
    split; try done.
    + cbn in Hb. by rewrite app_nil_r in Hb.
    + by rewrite Ho, He, El.
    + by apply eors_none, Ho.
    + rewrite El, <- Hn. split; [done|]. by intros (? & _).
Qed.

(** ** The queue of records *)

Record queue (s : mst) (b : sockbuf) (rs : list (list (Z * mbuf))) (f : list (Z * mbuf)) : Prop := mk_queue {
  q_private : private s (concat rs ++ f);
  q_recs : recs_ok rs;
  q_eors : Forall one_eor rs;
  q_first : sb_mb b = first rs;
  q_counts : counts b (concat rs);
}.
(** The bytes of each record, and whether it is closed. *)
Definition abs (s : mst) (rs : list (list (Z * mbuf))) : list (bytes * bool) := map (λ r, (contents s r, eors r)) rs.

Lemma same_abs s s' rs : same s s' (concat rs) → abs s' rs = abs s rs.
Proof.
  unfold abs. induction rs as [|r rs IH]; [done|]. cbn [concat map]. rewrite same_app. intros [Hr Hrs].
  by rewrite (same_contents_of _ _ _ Hr), IH.
Qed.
Lemma contents_abs s rs : contents s (concat rs) = concat (map fst (abs s rs)).
Proof. induction rs as [|r rs IH]; [done|]. cbn [concat abs map fst]. rewrite contents_app, IH. done. Qed.
Lemma abs_app s rs rs' : abs s (rs ++ rs') = abs s rs ++ abs s rs'.
Proof. apply map_app. Qed.

Lemma recs_ok_last rs r r' : recs_ok (rs ++ [r]) → nexts r' → r' ≠ [] → nextpkt_of r' = nextpkt_of r → (rs ≠ [] → hd_id r' = hd_id r) →
  recs_ok (rs ++ [r']).
Proof.
  intros Hr Hn Hne Hk Hh. induction rs as [|r0 rs IH]; cbn in *; [rewrite Hk; naive_solver|].
  destruct Hr as (? & ? & Hx & Hr). repeat (split; [done|]). split; [|apply IH; [done|auto]]. rewrite Hx. destruct rs; [|done]. cbn. by rewrite Hh.
Qed.
Lemma recs_ok_snoc rs r : recs_ok (rs ++ [r]) → r ≠ [] ∧ nexts r ∧ nextpkt_of r = None.
Proof. induction rs as [|r0 rs IH]; cbn; [naive_solver|]. intros (_ & _ & _ & Hr). auto. Qed.
Lemma first_last rs r r' : hd_id r' = hd_id r → first (rs ++ [r']) = first (rs ++ [r]).
Proof. by destruct rs. Qed.
Lemma recs_length rs : recs_ok rs → (length rs <= length (concat rs))%nat.
Proof. induction rs as [|[|a r] rs IH]; cbn; [lia|by intros []|]. intros (_ & _ & _ & H). rewrite length_app. specialize (IH H). lia. Qed.
Lemma hd_id_Some r : r ≠ [] → ∃ i x r', r = (i, x) :: r' ∧ hd_id r = Some i.
Proof. destruct r as [|[i x] r']; [done|]. eauto 10. Qed.

Lemma first_Some rs : recs_ok rs → rs ≠ [] → ∃ i, first rs = Some i.
Proof. destruct rs as [|r rs]; [done|]. intros (H & _) _. destruct (hd_id_Some _ H) as (i & ? & ? & _ & ?). by exists i. Qed.

Lemma last_record_spec fuel rs r f s i : private s (concat (rs ++ [r]) ++ f) → recs_ok (rs ++ [r]) → first (rs ++ [r]) = Some i →
  (length rs < fuel)%nat → ∃ j, last_record fuel i s = Done j ∧ hd_id r = Some j.
Proof.
  revert rs i. induction fuel as [|fuel IH]; intros rs i Hp Hr Hi Hf; [lia|]. cbn [last_record].
  destruct rs as [|r0 rs]; cbn in Hp, Hr, Hi, Hf; destruct Hr as (Hne & _ & Hx & Hr);
    destruct (hd_id_Some _ Hne) as (k & x & r1 & -> & Hk); rewrite Hk in Hi; injection Hi as ->; cbn in Hp, Hx;
    destruct (private_at _ _ _ _ Hp) as (Hl & _); rewrite (load_spec i s x), bind_done by done; rewrite Hx; [by exists i|].
  assert (rs ++ [r] ≠ []) as Hn by by destruct rs. destruct (rs ++ [r]) as [|r2 rs2] eqn:E; [done|].
  destruct (first_Some _ Hr Hn) as [n Hn2].
  rewrite Hn2. rewrite <- E in Hn2. apply IH with rs; [| by rewrite E|done|lia]. rewrite E.
  rewrite <- app_assoc in Hp. apply (private_app s ((i, x) :: r1)) in Hp. by destruct Hp.
Qed.

Lemma find_eor_spec fuel r f s i : private s (r ++ f) → nexts r → hd_id r = Some i → (length r <= fuel)%nat →
  find_eor fuel i s = Done (if eors r then inl tt else match last_id r with Some j => inr j | None => inl tt end).
Proof.
  revert r i. induction fuel as [|fuel IH]; intros r i Hp Hn Hi Hf; (destruct r as [|[k x] r]; [done|]); simpl in Hf; [lia|].
  injection Hi as ->. destruct Hn as [Hx Hn]. cbn in Hp. destruct (private_at _ _ _ _ Hp) as (Hl & _ & _ & _ & _ & Hp1).
  cbn [find_eor]. rewrite (load_spec i s x), bind_done by done. cbn [eors existsb snd].
  destruct (has M_EOR x); [done|]. cbn [orb]. rewrite Hx. destruct r as [|[k x2] r]; [done|]. cbn [hd_id]. rewrite (IH ((k, x2) :: r)); try done. lia.
Qed.

(** *** A record of its own *)

Lemma recs_ok_link rs r r' q : recs_ok (rs ++ [r]) → nexts r' → r' ≠ [] → hd_id r' = hd_id r → nextpkt_of r' = hd_id q →
  q ≠ [] → nexts q → nextpkt_of q = None → recs_ok ((rs ++ [r']) ++ [q]).
Proof.
  intros Hr Hn Hne Hh Hk Hq1 Hq2 Hq3. induction rs as [|r0 rs IH]; cbn in *; [by repeat split|].
  destruct Hr as (? & ? & Hx & Hr). repeat (split; [done|]). split; [|by apply IH]. rewrite Hx. destruct rs; [|done]. cbn. by rewrite Hh.
Qed.

(** The mbuf [i] is about to begin a new record. *)
Record linked_rec (b b' : sockbuf) (s s' : mst) (rs rs' : list (list (Z * mbuf))) (i : Z) (f : list (Z * mbuf)) : Prop := mk_linked_rec {
  lr_private : private s' (concat rs' ++ f);
  lr_same : same s s' f;
  lr_abs : abs s' rs' = abs s rs;
  lr_eors : Forall one_eor rs → Forall one_eor rs';
  lr_recs r : r ≠ [] → nexts r → hd_id r = Some i → nextpkt_of r = None → recs_ok (rs' ++ [r]) ∧ sb_mb b' = first (rs' ++ [r]);
  lr_counts l : counts b (concat rs ++ l) → counts b' (concat rs' ++ l);
  lr_marks : same_marks b b';
}.
Lemma link_record_spec b s rs i f : private s (concat rs ++ f) → recs_ok rs → sb_mb b = first rs →
  ∃ b' s' rs', link_record b i s = Done (b', s') ∧ linked_rec b b' s s' rs rs' i f.
Proof.
  intros Hp Hr Hb. unfold link_record. destruct rs as [|r rs0 _] using rev_ind; cbn in Hb; rewrite Hb.
  { eexists _, s, []. split; [done|]. split; try done. apply same_refl. }
  destruct (recs_ok_snoc _ _ Hr) as (Hne & Hnx & _).
  destruct (first_Some _ Hr) as [k Hk]; [by destruct rs0|].
  rewrite Hk. pose proof (private_turns _ _ Hp) as Hf. pose proof (recs_length _ Hr) as Hlen. rewrite !length_app in Hf, Hlen. simpl in Hlen.
  destruct (last_record_spec (turns s) rs0 r f s k Hp Hr Hk ltac:(lia)) as (j & -> & Hj). rewrite bind_done.
  destruct r as [|[j' z] r]; [done|]. injection Hj as ->. rewrite concat_app in Hp. cbn [concat] in Hp. rewrite app_nil_r in Hp.
  assert (Hp1 : private s ((j, z) :: concat rs0 ++ r ++ f)) by (eapply private_perm; [|exact Hp]; solve_Permutation).
  destruct (private_set _ _ _ _ (set_nextpkt (Some i)) Hp1 ltac:(done) ltac:(done) ltac:(done)) as (s' & -> & Hp2 & Hs & Hbz). rewrite bind_done.
  apply same_app in Hs as [Hs0 Hs]. apply same_app in Hs as [Hsr Hsf].
  set (z' := set_nextpkt (Some i) z) in *. exists b, s', (rs0 ++ [(j, z') :: r]). split; [done|]. split; try done.
  - rewrite concat_app. cbn [concat]. rewrite app_nil_r. eapply private_perm; [|exact Hp2]. solve_Permutation.
  - rewrite !abs_app, (same_abs _ _ _ Hs0). f_equal. unfold abs. cbn [map]. by rewrite !contents_cons, Hbz, (same_contents_of _ _ _ Hsr).
  - rewrite !Forall_app, !Forall_singleton. intros [? Hz]. split; [done|]. by destruct r.
  - intros q Hq1 Hq2 Hq3 Hq4. split; [by apply recs_ok_link with ((j, z) :: r)|]. rewrite Hb. by destruct rs0.
  - intros l. unfold counts. by rewrite !concat_app, !total_app, !mb_total_app.
Qed.

Record passed (s s' : mst) (i : Z) (x x' : mbuf) (lm lm' f : list (Z * mbuf)) : Prop := mk_passed {
  ps_private : private s' ((i, x') :: lm' ++ f);
  ps_same : same s s' f;
  ps_bytes : mbytes s' x' = mbytes s x ∧ contents s' lm' = contents s lm;
  ps_chain : hd_id lm' = hd_id lm ∧ (nexts lm → nexts lm') ∧
    (Forall (λ a, m_nextpkt a.2 = None) lm → Forall (λ a, m_nextpkt a.2 = None) lm');
  ps_eor : has M_EOR x' || eors lm' = has M_EOR x || eors lm ∧ (lm' ≠ [] → has M_EOR x' = false);
  ps_rest : m_next x' = m_next x ∧ m_nextpkt x' = m_nextpkt x ∧ mb_size x' = mb_size x ∧ m_len x' = m_len x;
}.
Lemma pass_eor_spec s i x0 x lm f : private s ((i, x) :: lm ++ f) → m_next x0 = hd_id lm → m_flags x0 = m_flags x →
  ∃ s' x' lm', pass_eor i x0 s = Done s' ∧ passed s s' i x x' lm lm' f.
Proof.
  intros Hp Hn Hfl. unfold pass_eor. rewrite Hn. destruct lm as [|[k z] lm]; cbn [hd_id].
  { exists s, x, []. split; [done|]. split; try done. apply same_refl. }
  assert (has M_EOR x0 = has M_EOR x) as -> by (unfold has; by rewrite Hfl). destruct (has M_EOR x) eqn:E.
  2:{ exists s, x, ((k, z) :: lm). split; [done|]. split; try done. apply same_refl. }
  pose proof (has_land (Z.lnot M_EOR) M_EXT x eq_refl) as Hext.
  destruct (private_set _ _ _ _ (λ x, set_flags (Z.land (m_flags x) (Z.lnot M_EOR)) x) Hp ltac:(by split) ltac:(done) ltac:(done)) as (s1 & -> & Hp1 & Hs1 & Hb1).
  rewrite bind_done. set (x' := set_flags _ x) in *. cbn [app] in Hp1. rewrite Permutation_swap in Hp1.
  pose proof (has_lor M_EOR M_EXT z eq_refl) as Hextz.
  destruct (private_set _ _ _ _ (λ y, set_flags (Z.lor (m_flags y) M_EOR) y) Hp1 ltac:(by split) ltac:(done) ltac:(done)) as (s2 & -> & Hp2 & Hs2 & Hb2).
  set (z' := set_flags _ z) in *. rewrite Permutation_swap in Hp2.
  apply Forall_cons in Hs1 as [Hbz Hs1], Hs2 as [Hbx Hs2]. simpl in Hbz, Hbx. pose proof (same_trans _ _ _ _ Hs1 Hs2) as Hs.
  apply same_app in Hs as [Hsl Hsf]. exists s2, x', ((k, z') :: lm). split; [done|]. split; try done.
  - rewrite Hbx, Hb1. split; [done|]. by rewrite !contents_cons, (same_contents_of _ _ _ Hsl), Hb2, Hbz.
  - split; [done|]. split; [done|]. intros [? ?]%Forall_cons. by constructor.
  - assert (has M_EOR x' = false) as -> by (by apply has_land_not). cbn [eors existsb snd]. unfold z'. by rewrite has_lor_eor, E.
  - split; [done|]. split; [done|]. split; [|done]. unfold mb_size. by rewrite Hext.
Qed.

(** What an operation leaves behind: a queue whose records read [q]. *)
Definition leaves (q : list (bytes * bool)) (f : list (Z * mbuf)) (b : sockbuf) (s : mst) (r : outcome (sockbuf * mst)) : Prop :=
  ∃ b' s' rs', r = Done (b', s') ∧ queue s' b' rs' f ∧ abs s' rs' = q ∧ same s s' f ∧ same_marks b b'.

(** The argument of the operations: a chain that is not yet part of any queue. *)
Definition packet_chain (lm : list (Z * mbuf)) : Prop := lm ≠ [] ∧ nexts lm ∧ Forall (λ a, m_nextpkt a.2 = None) lm.

Lemma last_id_one i x : last_id [(i, x)] = Some i.
Proof. done. Qed.

Lemma counts_move b l i x x' l' : mb_size x' = mb_size x → m_len x' = m_len x → counts b (l ++ (i, x) :: l') → counts b (l ++ (i, x') :: l').
Proof. intros H1 H2. unfold counts. rewrite !total_app, !mb_total_app, !total_cons, !mb_total_cons. cbn [snd]. by rewrite H1, H2. Qed.

(** [sbcompress] of what follows the first mbuf of a new record. *)
Lemma compress_rest b s f rs i x lm : private s ((i, x) :: lm ++ concat rs ++ f) → nexts lm → Forall (λ a, m_nextpkt a.2 = None) lm →
  m_next x = None → m_nextpkt x = None → (lm ≠ [] → has M_EOR x = false) →
  Forall one_eor rs → counts b (concat rs ++ [(i, x)]) → (∀ r, r ≠ [] → nexts r → hd_id r = Some i → nextpkt_of r = None → recs_ok (rs ++ [r]) ∧ sb_mb b = first (rs ++ [r])) →
  leaves (abs s rs ++ [(mbytes s x ++ contents s lm, has M_EOR x || eors lm)]) f b s (sbcompress b (hd_id lm) (Some i) s).
Proof.
  intros Hp Hn Hk Hx1 Hx2 He Ho Hc Hr. destruct lm as [|a lm].
  - assert (sbcompress b (hd_id []) (Some i) s = Done (b, s)) as -> by done.
    destruct (Hr [(i, x)]) as [Hr1 Hr2]; try done. eexists b, s, (rs ++ [[(i, x)]]). split; [done|]. split.
    { split; try done; rewrite ?Forall_app, ?Forall_singleton, ?concat_app; cbn; [|done|done].
      eapply private_perm; [|exact Hp]. solve_Permutation. }
    rewrite abs_app. split; [|by split; [apply same_refl|]]. unfold abs at 2, contents. cbn. by rewrite orb_false_r.
  - assert (He' : eors [(i, x)] = false) by (cbn; by rewrite He).
    destruct (sbcompress_spec (concat rs ++ f) b s [(i, x)] (a :: lm)) as (b' & s' & L' & E & [Hp' Hn' Hb' Hs' Ho' Hl' _ Hh' _ Hc' Hm']); try done.
    rewrite last_id_one in E. rewrite E. destruct Hh' as (Hne & Hh & Hx & Hmb); [done|].
    destruct (Hr L') as [Hr1 Hr2]; try done; [by rewrite Hx|]. apply same_app in Hs' as [Hs1 Hs2].
    eexists b', s', (rs ++ [L']). split; [done|]. split.
    { split; rewrite ?concat_app; cbn [concat]; rewrite ?app_nil_r; [|done|by apply Forall_app_2; [|apply Forall_singleton]|by rewrite Hmb|by apply Hc'].
      eapply private_perm; [|exact Hp']. solve_Permutation. }
    rewrite abs_app, (same_abs _ _ _ Hs1). split; [|done]. unfold abs at 2. cbn [map]. rewrite Hb', Ho', He', contents_cons.
    unfold contents at 1. cbn [map concat]. rewrite app_nil_r. by rewrite (He ltac:(done)).
Qed.

Lemma sbappendrecord_spec b s rs lm f : queue s b rs (lm ++ f) → packet_chain lm →
  leaves (abs s rs ++ [(contents s lm, eors lm)]) f b s (sbappendrecord b (hd_id lm) s).
Proof.
  intros [Hp Hr Ho Hb Hc] (Hne & Hn & Hk). destruct lm as [|[i x] lm]; [done|]. cbn [hd_id sbappendrecord].
  assert (Hp0 : private s ((i, x) :: concat rs ++ lm ++ f)) by (eapply private_perm; [|exact Hp]; solve_Permutation).
  destruct (private_at _ _ _ _ Hp0) as (Hi & _). rewrite (load_spec i s x), bind_done by done.
  destruct (link_record_spec (sballoc b x) s rs i (((i, x) :: lm) ++ f)) as (b1 & s1 & rs1 & -> & [Hp1 Hs1 Ha1 Ho1 Hr1 Hc1 Hm1]); try done.
  rewrite bind_done. assert (Hp1' : private s1 ((i, x) :: concat rs1 ++ lm ++ f)) by (eapply private_perm; [|exact Hp1]; solve_Permutation).
  destruct (private_at _ _ _ _ Hp1') as (Hi1 & _). rewrite (load_spec i s1 x), bind_done by done.
  destruct (private_set _ _ _ _ (set_next None) Hp1' ltac:(done) ltac:(done) ltac:(done)) as (s2 & -> & Hp2 & Hs2 & Hb2). rewrite bind_done.
  set (x1 := set_next None x) in *. destruct Hn as [Hx Hn].
  destruct (pass_eor_spec s2 i x x1 lm (concat rs1 ++ f)) as (s3 & x2 & lm2 & -> & [Hp3 Hs3 [Hb3 Hl3] (Hh3 & Hn3 & Hk3) [He3 He3'] (Hx3 & Hk3' & Hz3 & Hln3)]); try done.
  { eapply private_perm; [|exact Hp2]. solve_Permutation. }
  rewrite bind_done, Hx, <- Hh3. inversion_clear Hk as [|?? Hkx Hkl]. simpl in Hkx.
  apply Forall_cons in Hs1 as [Hsx Hs1]. simpl in Hsx. apply same_app in Hs1 as [Hsl1 Hsf1], Hs2 as [Hsr2 Hs2], Hs3 as [Hsr3 Hsf3].
  apply same_app in Hs2 as [Hsl2 Hsf2].
  destruct (compress_rest b1 s3 f rs1 i x2 lm2) as (b' & s' & rs' & E & Hq & Ha & Hs & Hm); try done; auto.
  { by rewrite Hk3'. }
  { apply counts_move with x; [by rewrite Hz3|by rewrite Hln3|]. apply Hc1, counts_alloc, Hc. }
  exists b', s', rs'. split; [done|]. split; [done|]. split; [|split].
  - rewrite Ha, (same_abs _ _ _ (same_trans _ _ _ _ Hsr2 Hsr3)), Ha1, He3, Hb3, Hl3, Hb2, Hsx.
    by rewrite (same_contents_of _ _ _ (same_trans _ _ _ _ Hsl1 Hsl2)), contents_cons.
  - do 3 (eapply same_trans; [eassumption|]). done.
  - by apply (same_marks_trans _ _ _ Hm1 Hm).
Qed.

(** *** [sbappend] *)

(** A queue of byte strings, the last of which may be open. *)
Definition q_append (x : bytes * bool) (q : list (bytes * bool)) : list (bytes * bool) :=
  match last q with
  | Some (y, false) => removelast q ++ [(y ++ x.1, x.2)]
  | Some (_, true) => q ++ [x]
  | None => if bool_decide (x.1 = []) && negb x.2 then [] else [x]
  end.

Lemma q_append_bytes x q : concat (map fst (q_append x q)) = concat (map fst q) ++ x.1.
Proof.
  unfold q_append. destruct (last q) as [[y e]|] eqn:E;
    [|apply last_None in E as ->; destruct x as [[|? ?] []]; cbn; by rewrite ?app_nil_r].
  apply last_Some in E as [q' ->]. rewrite removelast_last. destruct e; rewrite !map_app, !concat_app; cbn; rewrite ?app_nil_r; [done|by rewrite app_assoc].
Qed.
Lemma append_empty b s lm f : queue s b [] (lm ++ f) → packet_chain lm →
  leaves (q_append (contents s lm, eors lm) []) f b s (sbcompress b (hd_id lm) None s).
Proof.
  intros [Hp Hr Ho Hb Hc] (Hne & Hn & Hk).
  destruct (sbcompress_spec f b s [] lm) as (b' & s' & L' & E & [Hp' Hn' Hb' Hs' Ho' Hl' Hno' _ Hem' Hc' Hm']); try done.
  change (last_id []) with (@None Z) in E. rewrite E. destruct Hem' as [Hk' Hmb]; [done|]. cbn in Ho', Hb'.
  unfold q_append. cbn [last fst snd]. destruct (decide (L' = [])) as [->|HL].
  + destruct (proj1 Hno' eq_refl) as (_ & -> & ->). rewrite bool_decide_true by done. exists b', s', []. split; [done|].
    split; [split; [done|done|done|by rewrite Hmb|by apply (Hc' [])]|]. done.
  + exists b', s', [L']. split; [done|]. split; [|split; [|done]].
    * split; cbn; rewrite ?app_nil_r; [done|done|by apply Forall_singleton|by rewrite Hmb|by apply (Hc' [])].
    * unfold abs. cbn [map]. rewrite Hb', Ho'. case_bool_decide as Hd; [|done]. destruct (eors lm) eqn:El; [done|].
      exfalso. apply HL. by apply Hno'.
Qed.

Lemma append_open b s rs r lm f : queue s b (rs ++ [r]) (lm ++ f) → packet_chain lm → eors r = false →
  leaves (abs s rs ++ [(contents s r ++ contents s lm, eors lm)]) f b s (sbcompress b (hd_id lm) (last_id r) s).
Proof.
  intros [Hp Hr Ho Hb Hc] (Hne & Hn & Hk) Er. destruct (recs_ok_snoc _ _ Hr) as (Hrne & Hrn & Hrk).
  rewrite concat_app in Hp, Hc. cbn [concat] in Hp, Hc. rewrite app_nil_r in Hp, Hc.
  destruct (sbcompress_spec (concat rs ++ f) b s r lm) as (b' & s' & L' & E & [Hp' Hn' Hb' Hs' Ho' Hl' _ Hh' _ Hc' Hm']); try done.
  { eapply private_perm; [|exact Hp]. solve_Permutation. }
  rewrite E.
  destruct (Hh' Hrne) as (HL & Hh & Hkk & Hmb). apply same_app in Hs' as [Hs1 Hs2].
  exists b', s', (rs ++ [L']). split; [done|]. split; [|split; [|done]].
  * split; rewrite ?concat_app; cbn [concat]; rewrite ?app_nil_r; [| | |by rewrite Hmb, Hb; apply first_last|by apply Hc'].
    { eapply private_perm; [|exact Hp']. solve_Permutation. }
    { by apply recs_ok_last with r. }
    apply Forall_app in Ho as [Ho _]. by apply Forall_app_2; [|apply Forall_singleton].
  * rewrite abs_app, (same_abs _ _ _ Hs1). cbn [abs map]. by rewrite Hb', Ho', Er.
Qed.

Lemma sbappend_spec b s rs lm f : queue s b rs (lm ++ f) → packet_chain lm →
  leaves (q_append (contents s lm, eors lm) (abs s rs)) f b s (sbappend b (hd_id lm) s).
Proof.
  intros Hq Hlm. pose proof Hq as [Hp Hr Ho Hb Hc]. pose proof Hlm as (Hne & Hn & Hk). destruct (hd_id_Some _ Hne) as (i & x & lm' & Elm & Hi).
  unfold sbappend. rewrite Hi, <- Hi. destruct rs as [|r rs _] using rev_ind.
  - cbn [first] in Hb. rewrite Hb. by apply append_empty.
  - destruct (recs_ok_snoc _ _ Hr) as (Hrne & Hrn & Hrk).
    destruct (first_Some _ Hr) as [k Hfk]; [by destruct rs|].
    rewrite Hb, Hfk. pose proof (private_turns _ _ Hp) as Hf. pose proof (recs_length _ Hr) as Hlen. rewrite !length_app in Hf, Hlen. simpl in Hlen.
    destruct (last_record_spec (turns s) rs r _ s k Hp Hr Hfk ltac:(lia)) as (j & -> & Hj). rewrite bind_done.
    rewrite concat_app in Hp, Hc, Hf. cbn [concat] in Hp, Hc, Hf. rewrite app_nil_r in Hp, Hc, Hf. rewrite length_app in Hf.
    rewrite (find_eor_spec _ r (concat rs ++ lm ++ f) s j), bind_done; try done; [|eapply private_perm; [|exact Hp]; solve_Permutation|lia].
    unfold q_append. rewrite abs_app. cbn [abs map]. rewrite last_snoc, removelast_last. destruct (eors r) eqn:Er.
    + destruct (sbappendrecord_spec b s (rs ++ [r]) lm f Hq Hlm) as (b' & s' & rs' & E & H1 & H2 & H3). exists b', s', rs'. split; [done|]. split; [done|].
      split; [|done]. rewrite H2, abs_app. cbn [abs map]. by rewrite Er.
    + destruct (append_open b s rs r lm f Hq Hlm Er) as (b' & s' & rs' & E & H3). destruct (snoc_case r) as [->|(r0 & l & y & ->)]; [done|].
      rewrite last_id_snoc in *. by exists b', s', rs'.
Qed.

(** ** [sbdrop] *)

(** The first [n] bytes off the front; a record of which nothing is left goes, the next one stays even if it is empty. *)
Fixpoint q_drop (n : Z) (q : list (bytes * bool)) : list (bytes * bool) :=
  match q with
  | [] => []
  | (x, e) :: q =>
      let l := Z.of_nat (length x) in
      if n <? l then (drop (Z.to_nat n) x, e) :: q else if n =? l then q else q_drop (n - l) q
  end.
Definition front (s : mst) (r : list (Z * mbuf)) (rs : list (list (Z * mbuf))) := (contents s r, eors r) :: abs s rs.

(** Mbufs have been taken from the front. *)
Record dropped (f : list (Z * mbuf)) (b b' : sockbuf) (s s' : mst) (r : list (Z * mbuf)) (rs : list (list (Z * mbuf)))
    (r' : list (Z * mbuf)) (rs' : list (list (Z * mbuf))) : Prop := mk_dropped {
  dr_private : private s' (r' ++ concat rs' ++ f);
  dr_nexts : nexts r' ∧ one_eor r';
  dr_recs : recs_ok rs' ∧ Forall one_eor rs';
  dr_same : same s s' f;
  dr_counts : counts b (r ++ concat rs) → counts b' (r' ++ concat rs');
  dr_less : total (r' ++ concat rs') <= total (r ++ concat rs) ∧ mb_total (r' ++ concat rs') <= mb_total (r ++ concat rs);
  dr_marks : same_marks b b';
}.
Lemma dropped_trans f b1 b2 b3 s1 s2 s3 r1 l1 r2 l2 r3 l3 :
  dropped f b1 b2 s1 s2 r1 l1 r2 l2 → dropped f b2 b3 s2 s3 r2 l2 r3 l3 → dropped f b1 b3 s1 s3 r1 l1 r3 l3.
Proof.
  intros [_ _ _ S1 C1 L1 M1] [P2 N2 R2 S2 C2 L2 M2]. split; auto; [by apply same_trans with s2|lia|].
  by apply (same_marks_trans _ _ _ M1 M2).
Qed.

Lemma counts_free b i x l : counts b ((i, x) :: l) → counts (sbfree b x) l.
Proof. intros [Hc Hm]. unfold counts, sbfree. cbn. rewrite Hc, Hm, !u32_sub, total_cons, mb_total_cons. split; f_equal; simpl; lia. Qed.

Lemma one_eor_tail a l : one_eor (a :: l) → one_eor l ∧ (l ≠ [] → has M_EOR a.2 = false).
Proof. unfold one_eor. destruct l as [|b l]; [done|]. cbn. by intros [-> ->]%orb_false_iff. Qed.

(** The first mbuf is freed. *)
Lemma drop_one f b s i x r rs : private s (((i, x) :: r) ++ concat rs ++ f) → nexts ((i, x) :: r) → one_eor ((i, x) :: r) →
  recs_ok rs → Forall one_eor rs →
  ∃ s', m_free (Some i) s = Done (hd_id r, s') ∧ dropped f b (sbfree b x) s s' ((i, x) :: r) rs r rs ∧
    front s ((i, x) :: r) rs = (mbytes s x ++ contents s' r, has M_EOR x || eors r) :: abs s' rs ∧ Z.of_nat (length (mbytes s x)) = m_len x.
Proof.
  intros Hp [Hx Hn] Ho Hr Hrs. cbn [app] in Hp. destruct (private_at _ _ _ _ Hp) as (_ & Hok & _).
  destruct (private_free _ _ _ _ Hp) as (s' & E & Hp' & Hs). apply same_app in Hs as [Hs1 Hs]. apply same_app in Hs as [Hs2 Hs3].
  exists s'. split; [by rewrite E, Hx|]. split; [split; try done|].
  - split; [done|]. by apply one_eor_tail in Ho as [? _].
  - by intros ?%counts_free.
  - cbn [app]. rewrite total_cons, mb_total_cons. pose proof (mb_size_pos x). destruct Hok as (? & _). unfold MSIZE in *. cbn [snd] in *. lia.
  - split; [|by apply mbytes_length]. unfold front. by rewrite contents_cons, (same_contents_of _ _ _ Hs1), (same_abs _ _ _ Hs2).
Qed.

(** Leading mbufs with no bytes do not matter, nor does the record they leave. *)
Lemma q_drop_nil n e e' q : 0 <= n → q_drop n (([], e) :: q) = q_drop n (([], e') :: q).
Proof. intros Hn. cbn [q_drop length]. change (Z.of_nat 0) with 0. destruct (Z.ltb_spec n 0); [lia|done]. Qed.
Lemma q_drop_skip n e q : 0 < n → q_drop n (([], e) :: q) = q_drop n q.
Proof.
  intros Hn. cbn [q_drop length]. change (Z.of_nat 0) with 0. destruct (Z.ltb_spec n 0), (Z.eqb_spec n 0); try lia. f_equal. lia.
Qed.
Lemma q_drop_app n x y e q : Z.of_nat (length x) <= n → q_drop n ((x ++ y, e) :: q) = q_drop (n - Z.of_nat (length x)) ((y, e) :: q).
Proof.
  intros Hn. cbn [q_drop]. rewrite length_app, Nat2Z.inj_add.
  destruct (Z.ltb_spec n (Z.of_nat (length x) + Z.of_nat (length y))), (Z.ltb_spec (n - Z.of_nat (length x)) (Z.of_nat (length y))); try lia.
  - rewrite drop_app_ge by lia. do 3 f_equal. lia.
  - destruct (Z.eqb_spec n (Z.of_nat (length x) + Z.of_nat (length y))), (Z.eqb_spec (n - Z.of_nat (length x)) (Z.of_nat (length y))); try lia; [done|].
    f_equal. lia.
Qed.

Lemma total_concat s rs f : private s (concat rs ++ f) → 0 <= total (concat rs).
Proof. intros [Hp _]%private_app. by apply (total_nonneg s), private_ok. Qed.

(** Dropping from a front of which the first mbuf is freed. *)
Lemma front_free s s' i x r rs n : 0 <= m_len x <= n → one_eor ((i, x) :: r) → Z.of_nat (length (mbytes s x)) = m_len x →
  front s ((i, x) :: r) rs = (mbytes s x ++ contents s' r, has M_EOR x || eors r) :: abs s' rs →
  q_drop n (front s ((i, x) :: r) rs) = q_drop (n - m_len x) (front s' r rs).
Proof.
  intros Hn Ho Hl ->. rewrite q_drop_app, Hl by lia. unfold front. apply one_eor_tail in Ho as [_ Ho].
  destruct r as [|a r]; [apply q_drop_nil; lia|].
  cbn [snd] in Ho. by rewrite Ho.
Qed.

(** The first mbuf loses bytes. *)
Lemma drop_trim f b s i x r rs len : private s (((i, x) :: r) ++ concat rs ++ f) → nexts ((i, x) :: r) → one_eor ((i, x) :: r) →
  recs_ok rs → Forall one_eor rs → 0 < len < m_len x → total (((i, x) :: r) ++ concat rs) < 2 ^ 31 →
  ∃ b' s' r', upd i (λ x, set_data (shift (m_data x) len) (set_len (m_len x - len) x)) s = Done s' ∧
    Done (set_counts (sb_cc b - len) (sb_mbcnt b) b, Some i, first rs, s') = Done (b', hd_id r', first rs, s') ∧
    dropped f b b' s s' ((i, x) :: r) rs r' rs ∧ q_drop 0 (front s' r' rs) = q_drop len (front s ((i, x) :: r) rs).
Proof.
  intros Hp Hn Ho Hr Hrs Hlen H31. cbn [app] in Hp, H31. destruct (private_at _ _ _ _ Hp) as (Hi & Hok & _). pose proof Hok as (Hx0 & _).
  destruct (private_trim s i x _ len Hp ltac:(lia)) as (s' & E & Hp2 & Hs & Hbx).
  apply same_app in Hs as [Hs1 Hs]. apply same_app in Hs as [Hs2 Hs3].
  eexists _, s', ((i, trim_one len x) :: r). split; [done|]. split; [done|]. split.
  * split; try done; [split; [done|by destruct r]| |].
    2:{ cbn [app]. rewrite !total_cons, !mb_total_cons. cbn. rewrite s32_small by lia. split; [lia|done]. }
    intros [Hc Hm]. unfold counts. cbn. rewrite Hc, Hm, u32_sub, u32_idem, s32_small by lia.
    split; [|done]. f_equal. cbn [app]. rewrite total_cons. fold (total (r ++ concat rs)). lia.
  * unfold front. rewrite !contents_cons, Hbx, (same_contents_of _ _ _ Hs1), (same_abs _ _ _ Hs2).
    pose proof (mbytes_length s x Hok) as Hl. cbn [q_drop]. rewrite !length_app, length_drop.
    destruct (Z.ltb_spec 0 (Z.of_nat (length (mbytes s x) - Z.to_nat len + length (contents s r)))); [|lia].
    destruct (Z.ltb_spec len (Z.of_nat (length (mbytes s x) + length (contents s r)))); [|lia].
    change (Z.to_nat 0) with 0%nat. by rewrite drop_0, drop_app_le by lia.
Qed.

Lemma drop_loop_spec fuel f r rs b len s : private s (r ++ concat rs ++ f) → nexts r → one_eor r → recs_ok rs → Forall one_eor rs →
  0 <= len <= total (r ++ concat rs) → total (r ++ concat rs) < 2 ^ 31 → (length r + length (concat rs) + length rs < fuel)%nat →
  ∃ b' s' r' rs', drop_loop fuel b (hd_id r) (first rs) len s = Done (b', hd_id r', first rs', s') ∧
    dropped f b b' s s' r rs r' rs' ∧ q_drop 0 (front s' r' rs') = q_drop len (front s r rs).
Proof.
  revert r rs b len s. induction fuel as [|fuel IH]; intros r rs b len s Hp Hn Ho Hr Hrs Hlen H31 Hf; [lia|]. cbn [drop_loop].
  destruct (Z.ltb_spec 0 len) as [Hpos|Hpos].
  2:{ assert (len = 0) as -> by lia. exists b, s, r, rs. split; [done|]. split; [|done]. split; try done. apply same_refl. }
  destruct r as [|[i x] r]; cbn [hd_id].
  - destruct rs as [|r rs]; [simpl in Hlen; lia|]. destruct Hr as (Hne & Hnr & Hk & Hr). cbn [first concat] in *.
    destruct r as [|[i x] r]; [done|]. cbn [hd_id]. cbn [app] in Hp. destruct (private_at _ _ _ _ Hp) as (Hi & _).
    rewrite (load_spec i s x), bind_done by done. cbn [nextpkt_of] in Hk. rewrite Hk. apply Forall_cons in Hrs as [Hor Hrs].
    cbn [app length] in Hlen, H31, Hf.
    destruct (IH ((i, x) :: r) rs b len s) as (b' & s' & r' & rs' & E & Hd & Hq); try done.
    { cbn [app length] in *. by rewrite <- app_assoc in Hp. }
    { cbn [app length] in *. rewrite length_app in Hf. lia. }
    exists b', s', r', rs'. split; [done|]. split.
    { destruct Hd. by split. }
    rewrite Hq. symmetry. by apply (q_drop_skip len false (abs s (((i, x) :: r) :: rs))).
  - pose proof Hp as Hp1. cbn [app] in Hp1. destruct (private_at _ _ _ _ Hp1) as (Hi & Hok & _). pose proof Hok as (Hx0 & _).
    rewrite (load_spec i s x), bind_done by done. cbn [app] in Hlen, H31. rewrite total_cons in Hlen, H31. destruct (Z.ltb_spec len (m_len x)) as [Hlt|Hge].
    + destruct (drop_trim f b s i x r rs len) as (b' & s' & r' & E & Hb & Hd & Hq); try done. rewrite E, bind_done, Hb.
      by exists b', s', r', rs.
    + destruct (drop_one f b s i x r rs) as (s1 & E & Hd & Hfr & Hlx); try done. rewrite E, bind_done.
      pose proof Hd as [Hp2 [Hn2 Ho2] _ Hs2 Hc2 Hl2 Hm2].
      destruct (IH r rs (sbfree b x) (len - m_len x) s1) as (b' & s' & r' & rs' & E' & Hd' & Hq); try done; [lia|lia|simpl in Hf; lia|].
      exists b', s', r', rs'. split; [done|]. split.
      * by eapply dropped_trans.
      * rewrite Hq. symmetry. apply front_free; [lia|done..].
Qed.

Lemma drop_empty_spec fuel f r rs b s : private s (r ++ concat rs ++ f) → nexts r → one_eor r → recs_ok rs → Forall one_eor rs →
  (length r < fuel)%nat →
  ∃ b' s' r', drop_empty fuel b (hd_id r) s = Done (b', hd_id r', s') ∧ dropped f b b' s s' r rs r' rs ∧
    abs s' (match r' with [] => rs | _ => r' :: rs end) = q_drop 0 (front s r rs).
Proof.
  revert r b s. induction fuel as [|fuel IH]; intros r b s Hp Hn Ho Hr Hrs Hf; [lia|]. cbn [drop_empty].
  destruct r as [|[i x] r]; cbn [hd_id].
  { exists b, s, []. split; [done|]. split; [|done]. split; try done. apply same_refl. }
  pose proof Hp as Hp1. cbn [app] in Hp1. destruct (private_at _ _ _ _ Hp1) as (Hi & Hok & _ & _ & _ & Hp2). pose proof Hok as (Hx0 & _).
  rewrite (load_spec i s x), bind_done by done. destruct (Z.eqb_spec (m_len x) 0) as [Hz|Hz].
  - destruct (drop_one f b s i x r rs) as (s1 & E & Hd & Hfr & Hlx); try done. rewrite E, bind_done.
    pose proof Hd as [Hp3 [Hn3 Ho3] _ Hs3 Hc3 Hl3 Hm3].
    destruct (IH r (sbfree b x) s1) as (b' & s' & r' & E' & Hd' & Ha); try done; [simpl in Hf; lia|].
    exists b', s', r'. split; [done|]. split; [by eapply dropped_trans|].
    rewrite Ha. symmetry. rewrite (front_free s s1) by (done || lia). f_equal. lia.
  - exists b, s, ((i, x) :: r). split; [done|]. split; [split; try done; apply same_refl|].
    unfold front. cbn [abs map q_drop]. rewrite contents_cons, length_app. pose proof (mbytes_length s x Hok).
    destruct (Z.ltb_spec 0 (Z.of_nat (length (mbytes s x) + length (contents s r)))); [|lia].
    change (Z.to_nat 0) with 0%nat. by rewrite drop_0.
Qed.

Lemma sbdrop_spec b s rs f len : queue s b rs f → 0 <= len <= total (concat rs) → total (concat rs) < 2 ^ 31 →
  ∃ b' s' rs', sbdrop b len s = Done (b', s') ∧ queue s' b' rs' f ∧ abs s' rs' = q_drop len (abs s rs) ∧ same s s' f ∧ same_marks b b' ∧
    total (concat rs') <= total (concat rs) ∧ mb_total (concat rs') <= mb_total (concat rs).
Proof.
  intros [Hp Hr Ho Hb Hc] Hlen H31. unfold sbdrop. rewrite Hb. destruct rs as [|r rs].
  { cbn in Hlen. assert (len = 0) as -> by lia. cbn [first]. rewrite bind_done. unfold turns. cbn.
    eexists _, s, []. split; [done|]. split; [by split|]. split; [done|]. split; [apply same_refl|done]. }
  destruct Hr as (Hne & Hn & Hk & Hr). apply Forall_cons in Ho as [Hor Ho]. cbn [first concat] in *. rewrite <- app_assoc in Hp.
  destruct r as [|[i x] r]; [done|]. cbn [hd_id]. pose proof Hp as Hp1. cbn [app] in Hp1. destruct (private_at _ _ _ _ Hp1) as (Hi & _).
  rewrite (load_spec i s x), !bind_done by done. cbn [nextpkt_of] in Hk. rewrite Hk.
  pose proof (private_turns _ _ Hp) as Hf. pose proof (recs_length _ Hr) as Hln. rewrite !length_app in Hf.
  destruct (drop_loop_spec (turns s + turns s) f ((i, x) :: r) rs b len s) as (b1 & s1 & r1 & rs1 & E & Hd & Hq1); try done; [lia|].
  change (Some i) with (hd_id ((i, x) :: r)). rewrite E, bind_done. pose proof Hd as [Hp2 [Hn2 Ho2] [Hr2 Hrs2] Hs2 Hc2 Hl2 Hm2].
  pose proof (private_turns _ _ Hp2) as Hf2. rewrite !length_app in Hf2.
  destruct (drop_empty_spec (turns s1) f r1 rs1 b1 s1) as (b2 & s2 & r2 & E2 & Hd2 & Hq2); try done; [lia|].
  rewrite E2, bind_done. rewrite Hq1 in Hq2. destruct (dropped_trans _ _ _ _ _ _ _ _ _ _ _ _ _ Hd Hd2) as [Hp3 [Hn3 Ho3] [Hr3 Hrs3] Hs3 Hc3 Hl3 Hm3].
  destruct r2 as [|[j y] r2]; cbn [hd_id].
  - exists (set_mb (first rs1) b2), s2, rs1. split; [done|]. split; [split; try done; by apply Hc3|]. done.
  - cbn [app] in Hp3. destruct (private_set _ _ _ _ (set_nextpkt (first rs1)) Hp3 ltac:(done) ltac:(done) ltac:(done)) as (s3 & -> & Hp4 & Hs4 & Hby).
    rewrite bind_done. set (y' := set_nextpkt (first rs1) y) in *. rewrite app_assoc in Hs4. apply same_app in Hs4 as [Hs4 Hsf].
    apply same_app in Hs4 as [Hs4 Hs5].
    exists (set_mb (Some j) b2), s3, (((j, y') :: r2) :: rs1). split; [done|]. split.
    { split; cbn [concat]; [by rewrite <- app_assoc|done|constructor; [by destruct r2|done]|done|by apply Hc3]. }
    split; [|split; [by apply same_trans with s2|done]]. trans (abs s2 (((j, y) :: r2) :: rs1)); [|exact Hq2].
    unfold abs. cbn [map]. fold (abs s3 rs1) (abs s2 rs1). by rewrite (same_abs _ _ _ Hs5), !contents_cons, Hby, (same_contents_of _ _ _ Hs4).
Qed.

(** ** [sbflush] and [sbdroprecord] *)

Lemma q_drop_shorter q n : q ≠ [] → n = Z.of_nat (length (concat q.*1)) → (length (q_drop n q) < length q)%nat.
Proof.
  revert n. induction q as [|[x e] q IH]; intros n Hne ->; [done|]. cbn [q_drop fmap list_fmap concat fst length]. rewrite length_app.
  destruct (Z.ltb_spec (Z.of_nat (length x + length (concat q.*1))) (Z.of_nat (length x))); [lia|].
  destruct (Z.eqb_spec (Z.of_nat (length x + length (concat q.*1))) (Z.of_nat (length x))); [lia|].
  destruct q as [|a q]; [simpl in *; lia|]. specialize (IH (Z.of_nat (length (concat (a :: q).*1))) ltac:(done) eq_refl).
  replace (Z.of_nat (length x + length (concat (a :: q).*1)) - Z.of_nat (length x)) with (Z.of_nat (length (concat (a :: q).*1))) by lia. lia.
Qed.

Lemma abs_bytes s rs f : private s (concat rs ++ f) → Z.of_nat (length (concat (abs s rs).*1)) = total (concat rs).
Proof.
  intros [Hp _]%private_app. induction rs as [|r rs IH]; [done|]. cbn in Hp. apply private_app in Hp as [Hr Hrs].
  unfold abs in *. cbn [map fmap list_fmap concat fst]. rewrite length_app, Nat2Z.inj_add, total_app, contents_length by (by apply private_ok).
  by rewrite <- IH.
Qed.

Lemma mb_total_pos l : MSIZE * Z.of_nat (length l) <= mb_total l.
Proof.
  induction l as [|a l IH]; [done|]. rewrite mb_total_cons. pose proof (mb_size_pos a.2). cbn [length]. unfold MSIZE in *. lia.
Qed.

Lemma flush_loop_spec fuel b s rs f : queue s b rs f → total (concat rs) < 2 ^ 31 → mb_total (concat rs) < 2 ^ 32 → (length rs < fuel)%nat →
  leaves [] f b s (flush_loop fuel b s).
Proof.
  revert b s rs. induction fuel as [|fuel IH]; intros b s rs Hq H31 H32 Hf; [lia|]. cbn [flush_loop].
  pose proof Hq as [Hp Hr Ho Hb [Hc Hm]]. pose proof (recs_length _ Hr) as Hln. pose proof (mb_total_pos (concat rs)) as Hpos. unfold MSIZE in Hpos.
  rewrite Hm, u32_small by lia. destruct (Z.eqb_spec (mb_total (concat rs)) 0) as [Hz|Hz].
  - destruct rs as [|r rs]; [|exfalso; cbn [length] in Hln; lia]. exists b, s, []. split; [done|]. split; [done|]. split; [done|]. split; [apply same_refl|done].
  - pose proof (total_concat _ _ _ Hp) as H0. rewrite Hc, s32_u32, s32_small by lia.
    destruct (sbdrop_spec b s rs f (total (concat rs))) as (b1 & s1 & rs1 & E & Hq1 & Ha1 & Hs1 & Hm1 & Hl1 & Hl1'); try done.
    rewrite E, bind_done. assert (length rs1 < length rs)%nat as Hlt.
    { rewrite <- (length_map (λ r, (contents s1 r, eors r)) rs1), <- (length_map (λ r, (contents s r, eors r)) rs).
      change (length (abs s1 rs1) < length (abs s rs))%nat. rewrite Ha1. apply q_drop_shorter; [by destruct rs|]. by rewrite (abs_bytes s rs f). }
    destruct (IH b1 s1 rs1) as (b2 & s2 & rs2 & E2 & Hq2 & Ha2 & Hs2 & Hm2); try done; [lia|lia|lia|].
    exists b2, s2, rs2. split; [done|]. split; [done|]. split; [done|]. split; [by eapply same_trans|].
    by apply (same_marks_trans _ _ _ Hm1 Hm2).
Qed.

Lemma abs_nil s rs : abs s rs = [] → rs = [].
Proof. by destruct rs. Qed.

Lemma sbflush_spec b s rs f : queue s b rs f → total (concat rs) < 2 ^ 31 → mb_total (concat rs) < 2 ^ 32 →
  Z.land (sb_flags b) SB_LOCK = 0 → leaves [] f b s (sbflush b s).
Proof.
  intros Hq H31 H32 Hlk. unfold sbflush. rewrite Hlk. change (assert_ (0 =? 0)) with (Done tt). rewrite bind_done. pose proof Hq as [Hp Hr _ _ _].
  pose proof (private_turns _ _ Hp) as Hf. pose proof (recs_length _ Hr) as Hln. rewrite length_app in Hf.
  destruct (flush_loop_spec (turns s) b s rs f) as (b' & s' & rs' & -> & Hq' & Ha & Hs & Hm); try done; [lia|].
  rewrite bind_done. apply abs_nil in Ha. subst rs'. pose proof Hq' as [_ _ _ Hb [Hc _]]. rewrite Hc, Hb. cbn. by exists b', s', [].
Qed.

Lemma droprecord_loop_spec fuel f i x r b s : private s (((i, x) :: r) ++ f) → nexts ((i, x) :: r) → (length r < fuel)%nat →
  ∃ b' s', droprecord_loop fuel b i s = Done (b', s') ∧ private s' f ∧ same s s' f ∧ sb_mb b' = sb_mb b ∧ same_marks b b' ∧
    ∀ l, counts b (((i, x) :: r) ++ l) → counts b' l.
Proof.
  revert i x r b s. induction fuel as [|fuel IH]; intros i x r b s Hp [Hx Hn] Hf; [lia|]. cbn [droprecord_loop app] in *.
  destruct (private_at _ _ _ _ Hp) as (Hi & _). rewrite (load_spec i s x), bind_done by done.
  destruct (private_free _ _ _ _ Hp) as (s1 & -> & Hp1 & Hs1). rewrite bind_done, Hx. destruct r as [|[j y] r]; cbn [hd_id].
  - eexists _, s1. do 5 (split; [done|]). by intros l ?%counts_free.
  - destruct (IH j y r (sbfree b x) s1) as (b' & s' & E & Hp' & Hs' & Hb & Hm & Hc); try done; [simpl in Hf; lia|].
    exists b', s'. split; [done|]. split; [done|]. apply (same_app s s1 ((j, y) :: r)) in Hs1 as [_ Hs1].
    split; [by eapply same_trans|]. split; [done|]. split; [done|]. by intros l ?%counts_free%Hc.
Qed.

Lemma sbdroprecord_spec b s rs f : queue s b rs f → leaves (tail (abs s rs)) f b s (sbdroprecord b s).
Proof.
  intros Hq. pose proof Hq as [Hp Hr Ho Hb Hc]. unfold sbdroprecord. rewrite Hb. destruct rs as [|r rs].
  { exists b, s, []. split; [done|]. split; [done|]. split; [done|]. split; [apply same_refl|done]. }
  destruct Hr as (Hne & Hn & Hk & Hr). apply Forall_cons in Ho as [_ Ho]. destruct r as [|[i x] r]; [done|].
  cbn [first hd_id concat] in *. rewrite <- app_assoc in Hp. pose proof Hp as Hp1. cbn [app] in Hp1.
  destruct (private_at _ _ _ _ Hp1) as (Hi & _). rewrite (load_spec i s x), bind_done by done.
  pose proof (private_turns _ _ Hp) as Hf. rewrite length_app in Hf. cbn [length] in Hf. cbn [nextpkt_of] in Hk. rewrite Hk.
  destruct (droprecord_loop_spec (turns s) (concat rs ++ f) i x r (set_mb (first rs) b) s) as (b' & s' & -> & Hp' & Hs & Hb' & Hm & Hc'); try done; [lia|].
  apply same_app in Hs as [Hs1 Hs2]. exists b', s', rs. split; [done|]. split; [split; try done; by apply Hc'|].
  split; [by apply same_abs|]. by split.
Qed.

(** ** All operations *)

Inductive sb_op : Type := Append (m : option Z) | AppendRecord (m : option Z) | Drop (len : Z) | DropRecord | Flush.
Definition sb_run (o : sb_op) (b : sockbuf) (s : mst) : outcome (sockbuf * mst) :=
  match o with
  | Append m => sbappend b m s
  | AppendRecord m => sbappendrecord b m s
  | Drop len => sbdrop b len s
  | DropRecord => sbdroprecord b s
  | Flush => sbflush b s
  end.
(** On byte strings; [x] is what the argument's chain has. *)
Definition q_run (o : sb_op) (x : bytes * bool) (q : list (bytes * bool)) : list (bytes * bool) :=
  match o with
  | Append _ => q_append x q
  | AppendRecord _ => q ++ [x]
  | Drop len => q_drop len q
  | DropRecord => tail q
  | Flush => []
  end.
Definition op_ok (o : sb_op) (lm : list (Z * mbuf)) (b : sockbuf) (rs : list (list (Z * mbuf))) : Prop :=
  match o with
  | Append m | AppendRecord m => packet_chain lm ∧ m = hd_id lm
  | Drop len => lm = [] ∧ 0 <= len <= total (concat rs) ∧ total (concat rs) < 2 ^ 31
  | DropRecord => lm = []
  | Flush => lm = [] ∧ total (concat rs) < 2 ^ 31 ∧ mb_total (concat rs) < 2 ^ 32 ∧ Z.land (sb_flags b) SB_LOCK = 0
  end.

(** C24: Every operation on a socket buffer does to the records what its counterpart does to a list of byte strings:
    data is appended to the last record unless that one is closed by the mark of its end, dropping takes exactly the bytes
    at the front, a flush ends with an empty buffer; sb_cc and sb_mbcnt keep counting the bytes and the memory, and the bytes of
    mbufs that are not in the buffer do not change. *)
Theorem sockbuf_refines o lm b s rs f (Hq : queue s b rs (lm ++ f)) (Hop : op_ok o lm b rs) :
  ∃ b' s' rs', sb_run o b s = Done (b', s') ∧ queue s' b' rs' f ∧ abs s' rs' = q_run o (contents s lm, eors lm) (abs s rs) ∧
    same s s' f ∧ same_marks b b'.
Proof.
  destruct o; cbn [sb_run q_run op_ok] in *.
  - destruct Hop as [Hop ->]. by apply sbappend_spec.
  - destruct Hop as [Hop ->]. by apply sbappendrecord_spec.
  - destruct Hop as (-> & Hlen & H31). destruct (sbdrop_spec b s rs f len Hq Hlen H31) as (b' & s' & rs' & ? & ? & ? & ? & ? & _). by exists b', s', rs'.
  - subst lm. by apply sbdroprecord_spec.
  - destruct Hop as (-> & H31 & H32 & Hlk). by apply sbflush_spec with rs.
Qed.

(** ** [sbappendaddr] *)

Lemma control_space_spec fuel lc l s n : private s (lc ++ l) → nexts lc → (length lc < fuel)%nat → 0 <= n → n + total lc < 2 ^ 31 →
  control_space fuel (hd_id lc) n s = Done (last_id lc, n + total lc).
Proof.
  revert lc n. induction fuel as [|fuel IH]; intros lc n Hp Hn Hf H0 H31; [lia|]. cbn [control_space]. destruct lc as [|[i x] lc]; cbn [hd_id].
  { rewrite Z.add_0_r. done. }
  cbn [app] in Hp. destruct (private_at _ _ _ _ Hp) as (Hi & Hok & _ & _ & _ & Hp1). rewrite (load_spec i s x), bind_done by done.
  destruct Hn as [Hx Hn]. rewrite total_cons in *. pose proof Hok as (Hx0 & _). pose proof (private_app _ _ _ Hp1) as [Hp2 _].
  pose proof (total_nonneg s lc (private_ok _ _ Hp2)). rewrite s32_small by lia. rewrite Hx. destruct lc as [|[j y] lc]; cbn [hd_id].
  - change (total []) with 0. do 2 f_equal. lia.
  - change (Some j) with (hd_id ((j, y) :: lc)). rewrite IH; [|done|done|cbn [length] in *; lia|lia|lia].
    do 2 f_equal. lia.
Qed.

Lemma sballoc_all_spec fuel r l b s : private s (r ++ l) → nexts r → (length r < fuel)%nat →
  ∃ b', sballoc_all fuel b (hd_id r) s = Done b' ∧ (∀ pre, counts b pre → counts b' (pre ++ r)) ∧ sb_mb b' = sb_mb b ∧ same_marks b b'.
Proof.
  revert r b. induction fuel as [|fuel IH]; intros r b Hp Hn Hf; [lia|]. cbn [sballoc_all]. destruct r as [|[i x] r]; cbn [hd_id].
  { exists b. split; [done|]. split; [|done]. intros pre. by rewrite app_nil_r. }
  cbn [app] in Hp. destruct (private_at _ _ _ _ Hp) as (Hi & _ & _ & _ & _ & Hp1). rewrite (load_spec i s x), bind_done by done.
  destruct Hn as [Hx Hn]. rewrite Hx. destruct (IH r (sballoc b x)) as (b' & E & Hc & Hb & Hm); [done|done|simpl in Hf; lia|].
  exists b'. split; [done|]. split; [|by split]. intros pre H. rewrite (cons_middle (i, x)), app_assoc. by apply Hc, counts_alloc.
Qed.

(** The mbuf with the name, filled. *)
Lemma name_mbuf s i rest l d : memory s = Some i :: rest → mbufs s !! i = None → private s l → Z.of_nat (length d) <= MLEN →
  ∃ s0 s1 s2 x0 x, m_get MT_SONAME s = (Some i, s0) ∧ upd i (set_len (Z.of_nat (length d))) s0 = Done s1 ∧ load i s1 = Done x0 ∧
    copy_in (m_data x0) d s1 = Done s2 ∧ private s2 ((i, x) :: l) ∧ same s s2 l ∧ mbytes s2 x = d ∧
    has M_EOR x = false ∧ m_nextpkt x = None.
Proof.
  intros Hmem Hi Hp Hd. unfold MLEN in Hd. unfold m_get, new_mbuf, kzalloc. rewrite Hmem. set (x1 := mbuf_init i false MT_SONAME).
  set (s0 := mk_mst (<[i := x1]> _) _ _ _ _). set (x0 := set_len (Z.of_nat (length d)) x1).
  assert (Hs0 : mbufs s0 !! i = Some x1) by apply lookup_insert_eq. set (s1 := with_mbufs (<[i := x0]> (mbufs s0)) s0).
  assert (Hs1 : mbufs s1 !! i = Some x0) by apply lookup_insert_eq. set (d' := d ++ drop (length d) (m_dat x0)). set (x := set_dat d' x0).
  exists s0, s1, (with_mbufs (<[i := x]> (mbufs s1)) s1), x0, x. split; [done|]. split; [by apply upd_spec|]. split; [by apply load_spec|].
  assert (Hl : length d' = 108%nat) by (unfold d'; rewrite length_app, length_drop; cbn [x0 x1 set_len mbuf_init m_dat]; rewrite length_replicate; lia).
  split.
  { unfold copy_in. change (m_data x0) with (InMbuf i 0). cbn [bytes_at]. rewrite (load_spec i s1 x0), !bind_done by done. cbn [addr_off].
    rewrite put_buf_ok, bind_done; [|lia|cbn [x0 x1 set_len mbuf_init m_dat]; rewrite length_replicate; lia]. by apply upd_spec. }
  set (s2 := with_mbufs _ s1). assert (Hs2 : mbufs s2 !! i = Some x) by apply lookup_insert_eq.
  assert (Hni : i ∉ l.*1).
  { intros Hin. apply list_elem_of_fmap in Hin as (a & -> & Ha). destruct Hp as [Hst _ _ _ _]. rewrite Forall_forall in Hst. rewrite Hst in Hi; done. }
  destruct (frame_keep s s2 l [i] [] Hp) as [Hp2 Hs]; [|done|set_solver|set_solver|].
  { intros j Hj. unfold s2, s1, s0. cbn. rewrite !lookup_insert_ne; [done|set_solver..]. }
  assert (Hlen : m_len x = Z.of_nat (length d)) by (unfold x, x0; cbn; by rewrite s32_small by lia).
  assert (Hb : bytes_at (m_data x) s2 = Done d') by (change (m_data x) with (InMbuf i 0); cbn [bytes_at]; by rewrite (load_spec i s2 x)).
  assert (Harea : area s2 x = d') by (unfold area; by rewrite Hb).
  split; [|split; [done|split; [|done]]].
  - apply private_cons; try done; [| |by apply (pr_clus _ _ Hp2)].
    + unfold mbuf_ok. rewrite Harea, Hlen, Hl. change (m_data x) with (InMbuf i 0) at 1 2. cbn [addr_off]. split; [lia|]. split; [lia|]. split; [lia|done].
    + exists 0. split; [done|]. cbn [snd]. change (m_dat x) with d'. unfold MLEN. lia.
  - unfold mbytes. rewrite Harea, Hlen. change (drop (Z.to_nat (addr_off (m_data x))) d') with d'. unfold d'. rewrite Nat2Z.id. apply take_app_length.
Qed.

Lemma nexts_join l j y l2 : nexts (l ++ [(j, y)]) → nexts l2 → nexts (l ++ (j, set_next (hd_id l2) y) :: l2).
Proof.
  intros Hn H2. induction l as [|[i x] l IH]; cbn in *; [done|]. destruct Hn as [Hx Hn]. split; [|auto]. rewrite Hx. by destruct l as [|[] ?].
Qed.

Lemma one_eor_cons a l : has M_EOR a.2 = false → one_eor l → one_eor (a :: l).
Proof. unfold one_eor. destruct l as [|b l]; [done|]. cbn. by intros -> ->. Qed.
Lemma one_eor_last l j y y' l2 : m_flags y' = m_flags y → one_eor ((l ++ [(j, y)]) ++ l2) → one_eor ((l ++ [(j, y')]) ++ l2).
Proof.
  intros Hy. unfold one_eor. destruct l2 as [|a l2 _] using rev_ind; [by rewrite !app_nil_r, !removelast_last|].
  rewrite !(app_assoc _ l2), !removelast_last, !eors_app. cbn. unfold has. by rewrite Hy.
Qed.

(** The control data and the data become one chain. *)
Lemma join_chain s lc lm l : private s (lc ++ lm ++ l) → nexts lc → nexts lm →
  ∃ s' lc', (match last_id lc with Some j => s ← upd j (set_next (hd_id lm)) s; Done (hd_id lc, s) | None => Done (hd_id lm, s) end) =
      Done (hd_id (lc' ++ lm), s') ∧ private s' (lc' ++ lm ++ l) ∧ nexts (lc' ++ lm) ∧ same s s' (lm ++ l) ∧ contents s' lc' = contents s lc ∧
    total lc' = total lc ∧ eors lc' = eors lc ∧ (one_eor (lc ++ lm) → one_eor (lc' ++ lm)).
Proof.
  intros Hp Hc Hm. destruct (snoc_case lc) as [->|(l0 & j & y & ->)].
  { exists s, []. split; [done|]. split; [done|]. split; [done|]. split; [apply same_refl|done]. }
  rewrite last_id_snoc. assert (Hp1 : private s ((j, y) :: l0 ++ lm ++ l)) by (eapply private_perm; [|exact Hp]; solve_Permutation).
  destruct (private_set _ _ _ _ (set_next (hd_id lm)) Hp1 ltac:(done) ltac:(done) ltac:(done)) as (s' & -> & Hp2 & Hs & Hb). rewrite bind_done.
  apply same_app in Hs as [Hs0 Hs]. exists s', (l0 ++ [(j, set_next (hd_id lm) y)]).
  split; [by destruct l0 as [|[] ?]|]. split; [eapply private_perm; [|exact Hp2]; solve_Permutation|].
  split; [rewrite <- app_assoc; by apply nexts_join|]. split; [done|].
  split; [by rewrite !contents_app, (same_contents_of _ _ _ Hs0), !contents_cons, Hb|]. rewrite !total_app, !eors_app.
  do 2 (split; [done|]). by apply one_eor_last.
Qed.

Definition has_header (lm : list (Z * mbuf)) : Prop :=
  match lm with [] => True | (_, m) :: _ => has M_PKTHDR m = true ∧ pkt_len m = total lm end.

(** What is left to do once the name is in its mbuf [i]. *)
Lemma append_name b s rs i x lc lm f : private s ((i, x) :: concat rs ++ lc ++ lm ++ f) → recs_ok rs → Forall one_eor rs →
  sb_mb b = first rs → counts b (concat rs) → nexts lc → nexts lm → one_eor (lc ++ lm) → has M_EOR x = false → m_nextpkt x = None →
  ∃ b' s' rs', ('(control, s) ← (match last_id lc with
                       | Some j => s ← upd j (set_next (hd_id lm)) s; Done (hd_id lc, s)
                       | None => Done (hd_id lm, s)
                       end);
      s ← upd i (set_next control) s;
      b ← sballoc_all (Datatypes.S (turns s)) b (Some i) s;
      '(b, s) ← link_record b i s;
      Done (true, b, s)) = Done (true, b', s') ∧ queue s' b' rs' f ∧
    abs s' rs' = abs s rs ++ [(mbytes s x ++ contents s lc ++ contents s lm, eors (lc ++ lm))] ∧ same s s' f ∧ same_marks b b'.
Proof.
  intros Hp Hr Ho Hb Hc Hnc Hnm Hoc Hx Hk.
  destruct (join_chain s lc lm ((i, x) :: concat rs ++ f)) as (s1 & lc' & -> & Hp1 & Hn1 & Hs1 & Hb1 & Ht1 & He1 & Ho1); try done.
  { eapply private_perm; [|exact Hp]. solve_Permutation. }
  rewrite bind_done. assert (Hp1' : private s1 ((i, x) :: lc' ++ lm ++ concat rs ++ f)) by (eapply private_perm; [|exact Hp1]; solve_Permutation).
  destruct (private_set _ _ _ _ (set_next (hd_id (lc' ++ lm))) Hp1' ltac:(done) ltac:(done) ltac:(done)) as (s2 & -> & Hp2 & Hs2 & Hbx).
  rewrite bind_done. set (x' := set_next _ x) in *. set (r := (i, x') :: lc' ++ lm).
  assert (Hpr : private s2 (r ++ concat rs ++ f)) by (unfold r; cbn [app]; by rewrite <- app_assoc).
  assert (Hnr : nexts r) by done. pose proof (private_turns _ _ Hpr) as Hf. rewrite length_app in Hf.
  destruct (sballoc_all_spec (Datatypes.S (turns s2)) r (concat rs ++ f) b s2 Hpr Hnr ltac:(lia)) as (b1 & E & Hc1 & Hb1' & Hm1).
  change (Some i) with (hd_id r). rewrite E, bind_done.
  destruct (link_record_spec b1 s2 rs i (r ++ f)) as (b2 & s3 & rs3 & -> & [Hp3 Hs3 Ha3 Ho3 Hr3 Hc3 Hm3]); [eapply private_perm; [|exact Hpr]; solve_Permutation|done|by rewrite Hb1'|].
  rewrite bind_done. destruct (Hr3 r) as [Hr4 Hb4]; try done. exists b2, s3, (rs3 ++ [r]). split; [done|].
  apply same_app in Hs1 as [Hsm1 Hs1]. apply Forall_cons in Hs1 as [Hbx1 Hs1]. simpl in Hbx1. apply same_app in Hs1 as [Hsr1 Hsf1].
  apply same_app in Hs2 as [Hsc2 Hs2]. apply same_app in Hs2 as [Hsm2 Hs2]. apply same_app in Hs2 as [Hsr2 Hsf2].
  apply same_app in Hs3 as [Hsr3 Hsf3]. assert (Hee : eors (lc' ++ lm) = eors (lc ++ lm)) by (by rewrite !eors_app, He1).
  split; [|split; [|split]].
  - split; try done; rewrite ?concat_app; cbn [concat]; rewrite ?app_nil_r; [by rewrite <- app_assoc| |by apply Hc3, Hc1].
    apply Forall_app_2; [by apply Ho3|]. apply Forall_singleton. apply one_eor_cons; [done|by apply Ho1].
  - rewrite abs_app, Ha3, (same_abs _ _ _ (same_trans _ _ _ _ Hsr1 Hsr2)). f_equal. unfold abs. cbn [map].
    rewrite (same_contents_of _ _ _ Hsr3). unfold r. rewrite contents_cons, contents_app, Hbx, Hbx1, (same_contents_of _ _ _ Hsc2), Hb1.
    rewrite (same_contents_of _ _ _ (same_trans _ _ _ _ Hsm1 Hsm2)). cbn [eors existsb snd]. fold (eors (lc' ++ lm)). rewrite Hee.
    change (has M_EOR x') with (has M_EOR x). by rewrite Hx.
  - do 2 (eapply same_trans; [eassumption|]). done.
  - by apply (same_marks_trans _ _ _ Hm1 Hm3).
Qed.

(** C25: A datagram is appended with the address it comes from and its control data as one record, or, if it does
    not fit into the space left or the address is longer than an mbuf, not at all and the buffer stays as it is. *)
Theorem sbappendaddr_all_or_nothing asa sa_len lc lm b s rs f i rest (Hq : queue s b rs (lc ++ lm ++ f))
    (Hasa : head asa = Some sa_len) (Hlen : 0 <= sa_len <= Z.of_nat (length asa)) (Hlc : nexts lc) (Hlm : nexts lm)
    (Heor : one_eor (lc ++ lm)) (Hhd : has_header lm) (H31 : sa_len + total lm + total lc < 2 ^ 31)
    (Hmem : memory s = Some i :: rest) (Hi : mbufs s !! i = None) :
  if (sa_len + total lm + total lc <=? sbspace b) && (sa_len <=? MLEN) then
    ∃ b' s' rs', sbappendaddr b asa (hd_id lm) (hd_id lc) s = Done (true, b', s') ∧ queue s' b' rs' f ∧
      abs s' rs' = abs s rs ++ [(take (Z.to_nat sa_len) asa ++ contents s lc ++ contents s lm, eors (lc ++ lm))] ∧
      same s s' f ∧ same_marks b b'
  else sbappendaddr b asa (hd_id lm) (hd_id lc) s = Done (false, b, s).
Proof.
  pose proof Hq as [Hp Hr Ho Hb Hc]. assert (Hpc : private s (lc ++ lm ++ concat rs ++ f)) by (eapply private_perm; [|exact Hp]; solve_Permutation).
  pose proof (private_app _ _ _ Hpc) as [Hpc1 Hpc2]. pose proof (private_app _ _ _ Hpc2) as [Hpm _].
  pose proof (total_nonneg s lc (private_ok _ _ Hpc1)). pose proof (total_nonneg s lm (private_ok _ _ Hpm)).
  pose proof (private_turns _ _ Hpc1) as Hf. unfold sbappendaddr. rewrite Hasa. cbn [deref]. rewrite bind_done.
  assert ((match hd_id lm with
           | None => Done sa_len
           | Some i => x ← load i s; if negb (has M_PKTHDR x) then Fail Panic else Done (s32 (sa_len + pkt_len x))
           end) = Done (sa_len + total lm)) as ->.
  { destruct lm as [|[j y] lm]; cbn [hd_id]; [by rewrite Z.add_0_r|]. cbn [app] in Hpm. destruct (private_at _ _ _ _ Hpm) as (Hj & _).
    destruct Hhd as [Hh1 Hh2]. rewrite (load_spec j s y), bind_done, Hh1, Hh2 by done. cbn [negb]. by rewrite s32_small by lia. }
  rewrite bind_done, (control_space_spec _ lc _ s _ Hpc Hlc), bind_done by lia.
  rewrite (Z.leb_antisym (sbspace b)). destruct (sbspace b <? sa_len + total lm + total lc); [done|]. cbn [negb andb].
  rewrite (Z.leb_antisym MLEN). destruct (Z.ltb_spec MLEN sa_len) as [|HM]; [done|]. cbn [negb].
  set (d := take (Z.to_nat sa_len) asa). assert (Hd : Z.of_nat (length d) = sa_len) by (unfold d; rewrite length_take; lia).
  destruct (name_mbuf s i rest _ d Hmem Hi Hp) as (s0 & s1 & s2 & x0 & x & -> & E1 & E2 & E3 & Hp2 & Hs2 & Hbx & Hxe & Hxk); [lia|].
  rewrite Hd in E1. rewrite E1, bind_done, sub_buf_ok, bind_done by lia. change (drop (Z.to_nat 0) asa) with asa. fold d.
  rewrite E2, bind_done, E3, bind_done. apply same_app in Hs2 as [Hsr Hs2]. apply same_app in Hs2 as [Hsc Hs2]. apply same_app in Hs2 as [Hsm Hsf].
  destruct (append_name b s2 rs i x lc lm f) as (b' & s' & rs' & E & Hq' & Ha & Hs & Hm); try done.
  exists b', s', rs'. split; [exact E|]. split; [done|]. split; [|split; [by eapply same_trans|done]].
  by rewrite Ha, (same_abs _ _ _ Hsr), Hbx, (same_contents_of _ _ _ Hsc), (same_contents_of _ _ _ Hsm).
Qed.

(** ** Space *)

(** The limits [sbreserve] sets: what is asked for, at most twice as much memory. *)
Lemma sbreserve_limits b cc : 0 <= cc < 2 ^ 32 → - 2 ^ 31 <= sb_lowat b < 2 ^ 31 → sb_hiwat b < 2 ^ 32 →
  sbreserve b cc = (if cc <=? 246723 then (true, set_marks cc (Z.min (2 * cc) SB_MAX) (if cc <? u32 (sb_lowat b) then cc else sb_lowat b) b) else (false, b)).
Proof.
  intros Hcc Hlo Hhi. unfold sbreserve. change (u32 (sb_max * MCLBYTES) / (MSIZE + MCLBYTES)) with 246723.
  rewrite (Z.leb_antisym 246723 cc). destruct (Z.ltb_spec 246723 cc); [done|]. cbn [negb]. rewrite u32_small, s32_small by lia.
  by rewrite (Z.mul_comm cc 2).
Qed.

(** While bytes and memory are within their limits, [sbspace] is what may still come. *)
Lemma sbspace_room b n : 0 <= n <= sbspace b → 0 <= sb_cc b <= sb_hiwat b → 0 <= sb_mbcnt b <= sb_mbmax b →
  sb_hiwat b < 2 ^ 31 → sb_mbmax b < 2 ^ 31 → sb_cc b + n <= sb_hiwat b.
Proof. unfold sbspace. intros Hn Hc Hm H1 H2. rewrite !u32_small, !s32_small in Hn by lia. lia. Qed.

(** ** Witnesses *)

(** A buffer with the bytes 1, 2, 3; a chain with 4, 5. *)
Definition demo_1 : mbuf := mk_mbuf None None 3 (InMbuf 1 8) MT_DATA M_PKTHDR 3 0 None 0 (replicate 8 0 ++ [1; 2; 3] ++ replicate 97 0).
Definition demo_2 : mbuf := mk_mbuf None None 2 (InMbuf 2 8) MT_DATA M_PKTHDR 2 0 None 0 (replicate 8 0 ++ [4; 5] ++ replicate 98 0).
Definition demo_store : mst := mk_mst (<[1 := demo_1]> (<[2 := demo_2]> ∅)) ∅ 2 0 [Some 3].
Definition demo_sb : sockbuf := mk_sockbuf 3 8192 128 16384 1 (Some 1) 0.

Lemma demo_queue : queue demo_store demo_sb [[(1, demo_1)]] [(2, demo_2)].
Proof.
  split; [split| | | |]; try done.
  - by repeat constructor.
  - apply (bool_decide_eq_true_1 _). by vm_compute.
  - unfold mbuf_ok. repeat constructor; vm_compute; congruence.
  - repeat constructor; by eexists 8.
  - by repeat constructor.
  - by repeat constructor.
Qed.

Lemma sockbuf_refines_witness : ∃ b' s' rs', sbappend demo_sb (Some 2) demo_store = Done (b', s') ∧ queue s' b' rs' [] ∧
  abs s' rs' = [([1; 2; 3; 4; 5], false)] ∧ same demo_store s' [] ∧ same_marks demo_sb b'.
Proof.
  apply (sockbuf_refines (Append (Some 2)) [(2, demo_2)] demo_sb demo_store [[(1, demo_1)]] []).
  - rewrite app_nil_r. apply demo_queue.
  - split; [|done]. split; [done|]. split; [done|]. by repeat constructor.
Defined.

Lemma sbappendaddr_all_or_nothing_witness : ∃ b' s' rs', sbappendaddr demo_sb [4; 2; 0; 7] (Some 2) None demo_store = Done (true, b', s') ∧
  queue s' b' rs' [] ∧ abs s' rs' = [([1; 2; 3], false); ([4; 2; 0; 7; 4; 5], false)] ∧ same demo_store s' [] ∧ same_marks demo_sb b'.
Proof.
  apply (sbappendaddr_all_or_nothing [4; 2; 0; 7] 4 [] [(2, demo_2)] demo_sb demo_store [[(1, demo_1)]] [] 3 []); try done.
  apply demo_queue.
Defined.
