(* ===== verification/Socket.v ===== *)
(** * Sockets and their accept queues ([Kernel/net/uipc_socket.c], [uipc_socket2.c], [uipc_domain.c])

    Sockets by address, with the two queues of a listening one: [so_q0] links the connections that
    are not complete yet, [so_q] those that wait for [accept].  The protocol below is an
    interface ([ProtoOps]); the mbufs and the socket buffers are those of [Mbuf] and [Sockbuf].

    A wake-up of the sleepers on a wait queue is an event of the model ([woken]); where the code would
    go to sleep (for the lock of a buffer, or in [soclose] for a connection that lingers) the functions
    end with [Diverge].  No domain of the kernel has a [dom_dispose]. *)

From S2P Require Import Prelude Mbuf Sockbuf.

Definition EPROTONOSUPPORT := 93.
Definition EPROTOTYPE := 91.
Definition EOPNOTSUPP := 95.
Definition EISCONN := 106.
Definition ENOTCONN := 107.
Definition EALREADY := 114.
Definition SOCK_RAW := 3.
Definition SO_ACCEPTCONN := 2.
Definition SO_BROADCAST := 32.
Definition SO_LINGER := 128.
Definition SOMAXCONN := 5.
Definition SS_NOFDREF := 1.
Definition SS_ISCONNECTED := 2.
Definition SS_ISCONNECTING := 4.
Definition SS_ISDISCONNECTING := 8.
Definition SS_CANTSENDMORE := 16.
Definition SS_CANTRCVMORE := 32.
Definition SS_PRIV := 128.
Definition SS_NBIO := 256.
Definition SS_ISCONFIRMING := 1024.
Definition SB_WANT := 2.
Definition SB_WAIT := 4.
Definition SB_SEL := 8.
Definition SB_NOINTR := 64.
Definition PR_CONNREQUIRED := 4.
Definition PRU_ATTACH := 0.
Definition PRU_DETACH := 1.
Definition PRU_BIND := 2.
Definition PRU_LISTEN := 3.
Definition PRU_CONNECT := 4.
Definition PRU_ACCEPT := 5.
Definition PRU_DISCONNECT := 6.
Definition PRU_SHUTDOWN := 7.
Definition PRU_ABORT := 10.
Definition PRU_CONNECT2 := 17.

(** ** Protocols *)

Record protosw : Type := mk_protosw { pr_type : Z; pr_protocol : Z; pr_flags : Z; pr_has_usrreq : bool; pr_has_ctloutput : bool }.
(** [dom_family], [dom_protosw]. *)
Record domain : Type := mk_domain { dom_family : Z; dom_protosw : list protosw }.

Definition find_domain (family : Z) (ds : list domain) : option domain := head (filter (λ d, dom_family d = family) ds).
Definition pffindtype (ds : list domain) (family type : Z) : option protosw :=
  d ← find_domain family ds; head (filter (λ pr, pr_type pr ≠ 0 ∧ pr_type pr = type) (dom_protosw d)).
(** The loop of [pffindproto]: [maybe] is the first raw protocol for everything. *)
Fixpoint find_proto (l : list protosw) (protocol type : Z) (maybe : option protosw) : option protosw :=
  match l with
  | [] => maybe
  | pr :: l =>
      if (pr_protocol pr =? protocol) && (pr_type pr =? type) then Some pr else
      find_proto l protocol type
        (if (type =? SOCK_RAW) && (pr_type pr =? SOCK_RAW) && (pr_protocol pr =? 0) && bool_decide (maybe = None) then Some pr else maybe)
  end.
Definition pffindproto (ds : list domain) (family protocol type : Z) : option protosw :=
  if family =? 0 then None else d ← find_domain family ds; find_proto (dom_protosw d) protocol type None.

(** ** Sockets *)

Record socket : Type := mk_socket {
  so_type : Z; so_options : Z; so_linger : Z; so_state : Z; so_pcb : option Z; so_proto : protosw;
  so_head : option Z; so_q0 : option Z; so_q : option Z; so_q0len : Z; so_qlen : Z; so_qlimit : Z;
  so_timeo : Z; so_error : Z; so_pgid : Z; so_oobmark : Z; so_rcv : sockbuf; so_snd : sockbuf; rcv_timeo : Z; snd_timeo : Z }.

Definition with_state f x := mk_socket (so_type x) (so_options x) (so_linger x) f (so_pcb x) (so_proto x) (so_head x) (so_q0 x) (so_q x) (so_q0len x) (so_qlen x) (so_qlimit x) (so_timeo x) (so_error x) (so_pgid x) (so_oobmark x) (so_rcv x) (so_snd x) (rcv_timeo x) (snd_timeo x).
Definition with_options f x := mk_socket (so_type x) f (so_linger x) (so_state x) (so_pcb x) (so_proto x) (so_head x) (so_q0 x) (so_q x) (so_q0len x) (so_qlen x) (so_qlimit x) (so_timeo x) (so_error x) (so_pgid x) (so_oobmark x) (so_rcv x) (so_snd x) (rcv_timeo x) (snd_timeo x).
Definition with_linger f x := mk_socket (so_type x) (so_options x) f (so_state x) (so_pcb x) (so_proto x) (so_head x) (so_q0 x) (so_q x) (so_q0len x) (so_qlen x) (so_qlimit x) (so_timeo x) (so_error x) (so_pgid x) (so_oobmark x) (so_rcv x) (so_snd x) (rcv_timeo x) (snd_timeo x).
Definition with_head h x := mk_socket (so_type x) (so_options x) (so_linger x) (so_state x) (so_pcb x) (so_proto x) h (so_q0 x) (so_q x) (so_q0len x) (so_qlen x) (so_qlimit x) (so_timeo x) (so_error x) (so_pgid x) (so_oobmark x) (so_rcv x) (so_snd x) (rcv_timeo x) (snd_timeo x).
Definition with_queues p0 p n0 n x := mk_socket (so_type x) (so_options x) (so_linger x) (so_state x) (so_pcb x) (so_proto x) (so_head x) p0 p n0 n (so_qlimit x) (so_timeo x) (so_error x) (so_pgid x) (so_oobmark x) (so_rcv x) (so_snd x) (rcv_timeo x) (snd_timeo x).
Definition with_qlimit n x := mk_socket (so_type x) (so_options x) (so_linger x) (so_state x) (so_pcb x) (so_proto x) (so_head x) (so_q0 x) (so_q x) (so_q0len x) (so_qlen x) n (so_timeo x) (so_error x) (so_pgid x) (so_oobmark x) (so_rcv x) (so_snd x) (rcv_timeo x) (snd_timeo x).
Definition with_error n x := mk_socket (so_type x) (so_options x) (so_linger x) (so_state x) (so_pcb x) (so_proto x) (so_head x) (so_q0 x) (so_q x) (so_q0len x) (so_qlen x) (so_qlimit x) (so_timeo x) n (so_pgid x) (so_oobmark x) (so_rcv x) (so_snd x) (rcv_timeo x) (snd_timeo x).
Definition with_oobmark n x := mk_socket (so_type x) (so_options x) (so_linger x) (so_state x) (so_pcb x) (so_proto x) (so_head x) (so_q0 x) (so_q x) (so_q0len x) (so_qlen x) (so_qlimit x) (so_timeo x) (so_error x) (so_pgid x) n (so_rcv x) (so_snd x) (rcv_timeo x) (snd_timeo x).
Definition with_rcv b x := mk_socket (so_type x) (so_options x) (so_linger x) (so_state x) (so_pcb x) (so_proto x) (so_head x) (so_q0 x) (so_q x) (so_q0len x) (so_qlen x) (so_qlimit x) (so_timeo x) (so_error x) (so_pgid x) (so_oobmark x) b (so_snd x) (rcv_timeo x) (snd_timeo x).
Definition with_snd b x := mk_socket (so_type x) (so_options x) (so_linger x) (so_state x) (so_pcb x) (so_proto x) (so_head x) (so_q0 x) (so_q x) (so_q0len x) (so_qlen x) (so_qlimit x) (so_timeo x) (so_error x) (so_pgid x) (so_oobmark x) (so_rcv x) b (rcv_timeo x) (snd_timeo x).
Definition with_timeos r n x := mk_socket (so_type x) (so_options x) (so_linger x) (so_state x) (so_pcb x) (so_proto x) (so_head x) (so_q0 x) (so_q x) (so_q0len x) (so_qlen x) (so_qlimit x) (so_timeo x) (so_error x) (so_pgid x) (so_oobmark x) (so_rcv x) (so_snd x) r n.
Definition set_sbflags f b := mk_sockbuf (sb_cc b) (sb_hiwat b) (sb_mbcnt b) (sb_mbmax b) (sb_lowat b) (sb_mb b) f.
Definition zero_sockbuf : sockbuf := mk_sockbuf 0 0 0 0 0 None 0.
Definition sohas (f : Z) (x : socket) : bool := negb (Z.land (so_state x) f =? 0).
Definition isset (f x : Z) : bool := negb (Z.land x f =? 0).
Definition clear (f x : Z) : Z := Z.land x (Z.lnot f).

(** The wait queues of a socket: [timoq], [waitq] and [lockq] of [so_rcv], and of [so_snd]. *)
Inductive waitq : Set := Timo (so : Z) | RcvWait (so : Z) | RcvLock (so : Z) | SndWait (so : Z) | SndLock (so : Z).

Record nst (P : Type) : Type := mk_nst { socks : gmap Z socket; net_mem : mst; woken : list waitq; proto : P }.
Arguments mk_nst {P} _ _ _ _.
Arguments socks {P} _.
Arguments net_mem {P} _.
Arguments woken {P} _.
Arguments proto {P} _.

(** What a protocol does for a socket: [pr_usrreq] with [so], the request, [m], [nam] and [opt], which are pointers or
    numbers. *)
Class ProtoOps (P : Type) := {
  usrreq : Z → Z → option Z → option Z → option Z → nst P → outcome (Z * nst P);
}.

Section socket.
Context {P : Type} `{ProtoOps P}.

Definition load_so (i : Z) (st : nst P) : outcome socket := deref (socks st !! i).
Definition set_socks h (st : nst P) := mk_nst h (net_mem st) (woken st) (proto st).
Definition set_mem m (st : nst P) := mk_nst (socks st) m (woken st) (proto st).
Definition upd_so (i : Z) (f : socket → socket) (st : nst P) : outcome (nst P) :=
  x ← load_so i st; Done (set_socks (<[i := f x]> (socks st)) st).
(** [sb_wakeup] of a wait queue. *)
Definition sb_wakeup (w : waitq) (st : nst P) : nst P := mk_nst (socks st) (net_mem st) (woken st ++ [w]) (proto st).

(** *** States *)

Definition sowakeup_sb (b : sockbuf) : sockbuf := set_sbflags (clear SB_WAIT (clear SB_SEL (sb_flags b))) b.
Definition sorwakeup (i : Z) (st : nst P) : outcome (nst P) :=
  x ← load_so i st;
  st ← upd_so i (λ x, with_rcv (sowakeup_sb (so_rcv x)) x) st;
  Done (if isset SB_WAIT (clear SB_SEL (sb_flags (so_rcv x))) then sb_wakeup (RcvWait i) st else st).
Definition sowwakeup (i : Z) (st : nst P) : outcome (nst P) :=
  x ← load_so i st;
  st ← upd_so i (λ x, with_snd (sowakeup_sb (so_snd x)) x) st;
  Done (if isset SB_WAIT (clear SB_SEL (sb_flags (so_snd x))) then sb_wakeup (SndWait i) st else st).

Definition soisconnecting (i : Z) (st : nst P) : outcome (nst P) :=
  upd_so i (λ x, with_state (Z.lor (clear (Z.lor SS_ISCONNECTED SS_ISDISCONNECTING) (so_state x)) SS_ISCONNECTING) x) st.
Definition soisdisconnecting (i : Z) (st : nst P) : outcome (nst P) :=
  st ← upd_so i (λ x, with_state (Z.lor (clear SS_ISCONNECTING (so_state x)) (Z.lor SS_ISDISCONNECTING (Z.lor SS_CANTRCVMORE SS_CANTSENDMORE))) x) st;
  let st := sb_wakeup (Timo i) st in
  st ← sowwakeup i st; sorwakeup i st.
Definition soisdisconnected (i : Z) (st : nst P) : outcome (nst P) :=
  st ← upd_so i (λ x, with_state (Z.lor (clear (Z.lor SS_ISCONNECTING (Z.lor SS_ISCONNECTED SS_ISDISCONNECTING)) (so_state x)) (Z.lor SS_CANTRCVMORE SS_CANTSENDMORE)) x) st;
  let st := sb_wakeup (Timo i) st in
  st ← sowwakeup i st; sorwakeup i st.
Definition socantsendmore (i : Z) (st : nst P) : outcome (nst P) :=
  st ← upd_so i (λ x, with_state (Z.lor (so_state x) SS_CANTSENDMORE) x) st; sowwakeup i st.
Definition socantrcvmore (i : Z) (st : nst P) : outcome (nst P) :=
  st ← upd_so i (λ x, with_state (Z.lor (so_state x) SS_CANTRCVMORE) x) st; sorwakeup i st.

(** *** The accept queues; [q] chooses [so_q] *)

Definition qlink (q : bool) (x : socket) : option Z := if q then so_q x else so_q0 x.
Definition set_qlink (q : bool) (p : option Z) (x : socket) : socket :=
  if q then with_queues (so_q0 x) p (so_q0len x) (so_qlen x) x else with_queues p (so_q x) (so_q0len x) (so_qlen x) x.
Definition add_qlen (q : bool) (n : Z) (x : socket) : socket :=
  if q then with_queues (so_q0 x) (so_q x) (so_q0len x) (s16 (so_qlen x + n)) x else with_queues (so_q0 x) (so_q x) (s16 (so_q0len x + n)) (so_qlen x) x.

(** The socket whose link is NULL, from [k] on. *)
Fixpoint q_last (fuel : nat) (q : bool) (k : Z) (st : nst P) : outcome Z :=
  match fuel with
  | O => Fail Diverge
  | S fuel => x ← load_so k st; match qlink q x with None => Done k | Some n => q_last fuel q n st end
  end.
Definition so_turns (st : nst P) : nat := Datatypes.S (size (socks st)).
Definition soqinsque (head so : Z) (q : bool) (st : nst P) : outcome (nst P) :=
  st ← upd_so so (with_head (Some head)) st;
  st ← upd_so head (add_qlen q 1) st;
  st ← upd_so so (set_qlink q None) st;
  k ← q_last (so_turns st) q head st;
  upd_so k (set_qlink q (Some so)) st.

(** The socket before [so]; [None] if it is not on the queue. *)
Fixpoint q_prev (fuel : nat) (q : bool) (prev so : Z) (st : nst P) : outcome (option Z) :=
  match fuel with
  | O => Fail Diverge
  | S fuel =>
      x ← load_so prev st;
      match qlink q x with
      | None => Done None
      | Some n => if n =? so then Done (Some prev) else q_prev fuel q n so st
      end
  end.
Definition soqremque (so : Z) (q : bool) (st : nst P) : outcome (bool * nst P) :=
  x ← load_so so st;
  head ← deref (so_head x);
  p ← q_prev (so_turns st) q head so st;
  match p with
  | None => Done (false, st)
  | Some prev =>
      st ← upd_so prev (set_qlink q (qlink q x)) st;
      st ← upd_so head (add_qlen q (-1)) st;
      st ← upd_so so (λ x, with_head None (with_queues None None (so_q0len x) (so_qlen x) x)) st;
      Done (true, st)
  end.

Definition soisconnected (i : Z) (st : nst P) : outcome (nst P) :=
  x ← load_so i st;
  st ← upd_so i (λ x, with_state (Z.lor (clear (Z.lor SS_ISCONNECTING (Z.lor SS_ISDISCONNECTING SS_ISCONFIRMING)) (so_state x)) SS_ISCONNECTED) x) st;
  '(r, st) ← (match so_head x with Some _ => soqremque i false st | None => Done (false, st) end);
  match so_head x, r with
  | Some h, true => st ← soqinsque h i true st; st ← sorwakeup h st; Done (sb_wakeup (Timo h) st)
  | _, _ => let st := sb_wakeup (Timo i) st in st ← sorwakeup i st; sowwakeup i st
  end.

(** *** Creation *)

Definition soreserve (i : Z) (sndcc rcvcc : Z) (st : nst P) : outcome (Z * nst P) :=
  x ← load_so i st;
  let '(ok, b) := sbreserve (so_snd x) sndcc in
  if negb ok then Done (- ENOBUFS, st) else
  st ← upd_so i (with_snd b) st;
  let '(ok, b) := sbreserve (so_rcv x) rcvcc in
  if negb ok then
    x ← load_so i st;
    '(b, m) ← sbrelease (so_snd x) (net_mem st);
    st ← upd_so i (with_snd b) (set_mem m st);
    Done (- ENOBUFS, st)
  else
    st ← upd_so i (with_rcv (if sb_lowat b =? 0 then set_marks (sb_hiwat b) (sb_mbmax b) 1 b else b)) st;
    st ← upd_so i (λ x, let b := so_snd x in with_snd (if sb_lowat b =? 0 then set_marks (sb_hiwat b) (sb_mbmax b) MCLBYTES b else b) x) st;
    st ← upd_so i (λ x, let b := so_snd x in
           with_snd (if sb_hiwat b <? u32 (sb_lowat b) then set_marks (sb_hiwat b) (sb_mbmax b) (s32 (sb_hiwat b)) b else b) x) st;
    Done (0, st).

(** [kmalloc] and [bzero]; [None] is NULL. *)
Definition alloc_so (x : socket) (st : nst P) : option Z * nst P :=
  let '(a, m) := kzalloc (net_mem st) in
  match a with
  | None => (None, set_mem m st)
  | Some i => (Some i, mk_nst (<[i := x]> (socks st)) m (woken st) (proto st))
  end.
Definition free_so (i : Z) (st : nst P) : outcome (nst P) := _ ← load_so i st; Done (set_socks (delete i (socks st)) st).

Definition sonewconn1 (head : Z) (connstatus : Z) (st : nst P) : outcome (option Z * nst P) :=
  h ← load_so head st;
  let soqueue := negb (connstatus =? 0) in
  if Z.quot (3 * so_qlimit h) 2 <? so_qlen h + so_q0len h then Done (None, st) else
  let '(so, st) := alloc_so (mk_socket (so_type h) (clear SO_ACCEPTCONN (so_options h)) (so_linger h) (Z.lor (so_state h) SS_NOFDREF)
                               None (so_proto h) None None None 0 0 0 (so_timeo h) 0 (so_pgid h) 0 zero_sockbuf zero_sockbuf 0 0) st in
  match so with
  | None => Done (None, st)
  | Some so =>
      '(_, st) ← soreserve so (sb_hiwat (so_snd h)) (sb_hiwat (so_rcv h)) st;
      st ← soqinsque head so soqueue st;
      '(e, st) ← usrreq so PRU_ATTACH None None None st;
      if negb (e =? 0) then
        '(_, st) ← soqremque so soqueue st;
        st ← free_so so st;
        Done (None, st)
      else if soqueue then
        st ← sorwakeup head st;
        let st := sb_wakeup (Timo head) st in
        st ← upd_so so (λ x, with_state (Z.lor (so_state x) connstatus) x) st;
        Done (Some so, st)
      else Done (Some so, st)
  end.

(** *** The life of a socket *)

(** [sblock] with [M_WAITOK]: a buffer that is locked would put the caller to sleep. *)
Definition sblock_wait (b : sockbuf) : outcome sockbuf :=
  if isset SB_LOCK (sb_flags b) then Fail Diverge else Done (set_sbflags (Z.lor (sb_flags b) SB_LOCK) b).
(** [sbunlock]; the sleepers for the lock are woken if there may be one. *)
Definition unlocked (b : sockbuf) : sockbuf := set_sbflags (clear SB_WANT (clear SB_LOCK (sb_flags b))) b.
Definition unlock_rcv (i : Z) (st : nst P) : outcome (nst P) :=
  x ← load_so i st;
  st ← upd_so i (λ x, with_rcv (unlocked (so_rcv x)) x) st;
  Done (if isset SB_WANT (clear SB_LOCK (sb_flags (so_rcv x))) then sb_wakeup (RcvLock i) st else st).
Definition unlock_snd (i : Z) (st : nst P) : outcome (nst P) :=
  x ← load_so i st;
  st ← upd_so i (λ x, with_snd (unlocked (so_snd x)) x) st;
  Done (if isset SB_WANT (clear SB_LOCK (sb_flags (so_snd x))) then sb_wakeup (SndLock i) st else st).

Definition sorflush (i : Z) (st : nst P) : outcome (nst P) :=
  x ← load_so i st;
  b ← sblock_wait (set_sbflags (Z.lor (sb_flags (so_rcv x)) SB_NOINTR) (so_rcv x));
  st ← upd_so i (with_rcv b) st;
  st ← socantrcvmore i st;
  st ← unlock_rcv i st;
  x ← load_so i st;
  let asb := so_rcv x in
  st ← upd_so i (with_rcv zero_sockbuf) st;
  '(_, m) ← sbrelease asb (net_mem st);
  Done (set_mem m st).

Definition sofree (i : Z) (st : nst P) : outcome (nst P) :=
  x ← load_so i st;
  if bool_decide (so_pcb x ≠ None) || negb (sohas SS_NOFDREF x) then Done st else
  st ← (match so_head x with
        | None => Done st
        | Some _ =>
            '(r, st) ← soqremque i false st;
            '(_, st) ← (if (r : bool) then Done (true, st) else soqremque i true st);
            upd_so i (with_head None) st
        end);
  x ← load_so i st;
  '(b, m) ← sbrelease (so_snd x) (net_mem st);
  st ← upd_so i (with_snd b) (set_mem m st);
  st ← sorflush i st;
  free_so i st.

(** [socreate]; [kzalloc] failing faults. *)
Definition socreate (ds : list domain) (dom type protocol : Z) (st : nst P) : outcome (Z * option Z * nst P) :=
  let prp := if negb (protocol =? 0) then pffindproto ds dom protocol type else pffindtype ds dom type in
  match prp with
  | None => Done (- EPROTONOSUPPORT, None, st)
  | Some pr =>
      if negb (pr_has_usrreq pr) then Done (- EPROTONOSUPPORT, None, st) else
      if negb (pr_type pr =? type) then Done (- EPROTOTYPE, None, st) else
      let '(so, st) := alloc_so (mk_socket type SO_BROADCAST 0 SS_PRIV None pr None None None 0 0 0 0 0 0 0 zero_sockbuf zero_sockbuf 0 0) st in
      so ← deref so;
      '(e, st) ← usrreq so PRU_ATTACH None (if protocol =? 0 then None else Some protocol) None st;
      if negb (e =? 0) then
        st ← upd_so so (λ x, with_state (Z.lor (so_state x) SS_NOFDREF) x) st;
        st ← sofree so st;
        Done (e, None, st)
      else Done (0, Some so, st)
  end.

Definition sobind (i : Z) (nam : option Z) (st : nst P) : outcome (Z * nst P) := _ ← load_so i st; usrreq i PRU_BIND None nam None st.
Definition solisten (i : Z) (backlog : Z) (st : nst P) : outcome (Z * nst P) :=
  _ ← load_so i st;
  '(e, st) ← usrreq i PRU_LISTEN None None None st;
  if negb (e =? 0) then Done (e, st) else
  st ← upd_so i (λ x, if bool_decide (so_q x = None) then with_options (Z.lor (so_options x) SO_ACCEPTCONN) x else x) st;
  st ← upd_so i (with_qlimit (Z.min (Z.max backlog 0) SOMAXCONN)) st;
  Done (0, st).
Definition soabort (i : Z) (st : nst P) : outcome (Z * nst P) := _ ← load_so i st; usrreq i PRU_ABORT None None None st.
Definition sodisconnect (i : Z) (st : nst P) : outcome (Z * nst P) :=
  x ← load_so i st;
  if negb (sohas SS_ISCONNECTED x) then Done (- ENOTCONN, st) else
  if sohas SS_ISDISCONNECTING x then Done (- EALREADY, st) else usrreq i PRU_DISCONNECT None None None st.
Definition soaccept (i : Z) (nam : option Z) (st : nst P) : outcome (Z * nst P) :=
  st ← upd_so i (λ x, with_state (clear SS_NOFDREF (so_state x)) x) st; usrreq i PRU_ACCEPT None nam None st.
Definition soconnect (i : Z) (nam : option Z) (st : nst P) : outcome (Z * nst P) :=
  x ← load_so i st;
  if isset SO_ACCEPTCONN (so_options x) then Done (- EOPNOTSUPP, st) else
  '(refused, st) ← (if sohas (Z.lor SS_ISCONNECTED SS_ISCONNECTING) x then
                      if isset PR_CONNREQUIRED (pr_flags (so_proto x)) then Done (true, st)
                      else '(e, st) ← sodisconnect i st; Done (negb (e =? 0), st)
                    else Done (false, st));
  if (refused : bool) then Done (- EISCONN, st) else usrreq i PRU_CONNECT None nam None st.
Definition soconnect2 (so1 so2 : Z) (st : nst P) : outcome (Z * nst P) := _ ← load_so so1 st; usrreq so1 PRU_CONNECT2 None (Some so2) None st.
Definition soshutdown (i : Z) (how : Z) (st : nst P) : outcome (Z * nst P) :=
  let how := how + 1 in
  _ ← load_so i st;
  st ← (if isset 1 how then sorflush i st else Done st);
  if isset 2 how then usrreq i PRU_SHUTDOWN None None None st else Done (0, st).

(** Connections that nobody has accepted are aborted; the protocol takes them off the queue. *)
Fixpoint abort_all (fuel : nat) (q : bool) (i : Z) (st : nst P) : outcome (nst P) :=
  match fuel with
  | O => Fail Diverge
  | S fuel =>
      x ← load_so i st;
      match qlink q x with None => Done st | Some n => '(_, st) ← soabort n st; abort_all fuel q i st end
  end.
(** [inl]: on to [drop] with an error. *)
Definition close_connected (i : Z) (st : nst P) : outcome (Z * nst P) :=
  x ← load_so i st;
  if negb (sohas SS_ISCONNECTED x) then Done (0, st) else
  '(e, st) ← (if negb (sohas SS_ISDISCONNECTING x) then sodisconnect i st else Done (0, st));
  if negb (e =? 0) then Done (e, st) else
  x ← load_so i st;
  if isset SO_LINGER (so_options x) then
    if sohas SS_ISDISCONNECTING x && sohas SS_NBIO x then Done (0, st)
    else if sohas SS_ISCONNECTED x then Fail Diverge (* sleeps until it is disconnected *) else Done (0, st)
  else Done (0, st).
Definition soclose (i : Z) (st : nst P) : outcome (Z * nst P) :=
  x ← load_so i st;
  st ← (if isset SO_ACCEPTCONN (so_options x) then
          st ← abort_all (so_turns st) false i st; abort_all (so_turns st) true i st
        else Done st);
  x ← load_so i st;
  '(e, st) ← (match so_pcb x with
              | None => Done (0, st)
              | Some _ =>
                  '(e, st) ← close_connected i st;
                  x ← load_so i st;
                  match so_pcb x with
                  | None => Done (e, st)
                  | Some _ => '(e2, st) ← usrreq i PRU_DETACH None None None st; Done (if e =? 0 then e2 else e, st)
                  end
              end);
  st ← upd_so i (λ x, with_state (Z.lor (so_state x) SS_NOFDREF) x) st;
  st ← sofree i st;
  Done (e, st).

(** ** The accept queues are lists *)

(** From [k] on, the links [q] lead through [l] and end there. *)
Fixpoint qchain (h : gmap Z socket) (q : bool) (k : Z) (l : list Z) : Prop :=
  ∃ x, h !! k = Some x ∧ match l with [] => qlink q x = None | a :: l => qlink q x = Some a ∧ qchain h q a l end.

(** The queues of [hd]: [ls false] are the connections that are not complete, [ls true] the others. *)
Definition pending (ls : bool → list Z) : list Z := ls false ++ ls true.
Definition upd_q (q : bool) (l : list Z) (ls : bool → list Z) (q' : bool) : list Z := if Bool.eqb q q' then l else ls q'.
Definition qlen (q : bool) (x : socket) : Z := if q then so_qlen x else so_q0len x.
Record accepting (h : gmap Z socket) (hd : Z) (ls : bool → list Z) : Prop := mk_accepting {
  ac_chain q : qchain h q hd (ls q);
  ac_distinct : NoDup (hd :: pending ls);
  ac_members i : i ∈ pending ls → so_head <$> h !! i = Some (Some hd);
  ac_lens q : qlen q <$> h !! hd = Some (Z.of_nat (length (ls q)));
  ac_small : Z.of_nat (length (pending ls)) < 2 ^ 15;
}.
(** What is not about queues. *)
Definition body (x : socket) : socket := with_head None (with_queues None None 0 0 x).

Lemma qchain_other h q k l i x : i ∉ k :: l → qchain (<[i := x]> h) q k l ↔ qchain h q k l.
Proof.
  revert k. induction l as [|a l IH]; intros k Hi; cbn; (rewrite lookup_insert_ne; [|set_solver]); [done|].
  split; intros (y & Hy & Ha & Hc); exists y; (split; [done|split; [done|]]); apply IH in Hc; set_solver.
Qed.
Lemma qchain_same h q k l i x x' : h !! i = Some x → qlink q x' = qlink q x → qchain h q k l → qchain (<[i := x']> h) q k l.
Proof.
  intros Hi Hx. revert k. induction l as [|a l IH]; intros k (y & Hy & Hc); cbn; (destruct (decide (i = k)) as [->|Hne];
    [rewrite lookup_insert_eq; exists x'; rewrite Hi in Hy; injection Hy as <-; rewrite Hx|rewrite lookup_insert_ne by done; exists y]);
    (split; [done|]); [done|done| |]; destruct Hc as [? ?]; auto.
Qed.
Lemma qchain_head h q k l : qchain h q k l → ∃ x, h !! k = Some x.
Proof. destruct l; intros (x & ? & _); eauto. Qed.
Lemma qchain_dom h q k l i : qchain h q k l → i ∈ k :: l → ∃ x, h !! i = Some x.
Proof.
  revert k. induction l as [|a l IH]; intros k Hc Hi.
  - apply list_elem_of_singleton in Hi as ->. by apply qchain_head in Hc.
  - apply elem_of_cons in Hi as [->|Hi]; [by apply qchain_head in Hc|]. destruct Hc as (_ & _ & _ & Hc). by apply (IH a).
Qed.

Lemma load_so_spec i st x : socks st !! i = Some x → load_so i st = Done x.
Proof. intros Hx. unfold load_so. by rewrite Hx. Qed.
Lemma upd_so_spec i f st x : socks st !! i = Some x → upd_so i f st = Done (set_socks (<[i := f x]> (socks st)) st).
Proof. intros Hx. unfold upd_so. by rewrite (load_so_spec i st x). Qed.

Lemma q_last_spec fuel q k l p j st : qchain (socks st) q k l → k :: l = p ++ [j] → (length l < fuel)%nat → q_last fuel q k st = Done j.
Proof.
  revert k l p. induction fuel as [|fuel IH]; intros k l p Hc Hp Hf; [lia|]. cbn [q_last]. destruct l as [|a l]; destruct Hc as (x & Hx & Hc).
  - rewrite (load_so_spec _ _ _ Hx), bind_done, Hc. destruct p as [|? [|??]]; by injection Hp as ->.
  - destruct Hc as [Hl Hc]. rewrite (load_so_spec _ _ _ Hx), bind_done, Hl. destruct p as [|b p]; [done|]. injection Hp as -> Hp.
    apply (IH a l p); [done|done|simpl in Hf; lia].
Qed.

(** The socket is put behind the last one. *)
Lemma qchain_snoc h q k l p j so x y : qchain h q k l → k :: l = p ++ [j] → NoDup (so :: k :: l) → h !! j = Some x → h !! so = Some y →
  qlink q y = None → qchain (<[j := set_qlink q (Some so) x]> h) q k (l ++ [so]).
Proof.
  intros Hc Hp Hd Hx Hy Hn. revert k p Hc Hp Hd. induction l as [|a l IH]; intros k p Hc Hp Hd.
  - assert (k = j) as -> by (destruct p as [|? [|??]]; by injection Hp). cbn. rewrite lookup_insert_eq. eexists. split; [done|].
    split; [by destruct q|]. exists y. rewrite lookup_insert_ne; [done|]. intros ->. inversion_clear Hd. set_solver.
  - destruct Hc as (z & Hz & Hl & Hc). destruct p as [|b p]; [done|]. injection Hp as <- Hp. cbn. exists z.
    assert (j ∈ a :: l) by (rewrite Hp; set_solver). apply NoDup_cons in Hd as [Hso Hd]. pose proof Hd as [Hk Hd']%NoDup_cons.
    rewrite lookup_insert_ne by set_solver. split; [done|]. split; [done|]. apply (IH a p); try done. constructor; [set_solver|done].
Qed.

(** A socket is found by the one before it, *)
Lemma q_prev_spec fuel q k a so b p j st : qchain (socks st) q k (a ++ so :: b) → k :: a = p ++ [j] → so ∉ a →
  (length a < fuel)%nat → q_prev fuel q k so st = Done (Some j).
Proof.
  revert k a p. induction fuel as [|fuel IH]; intros k a p Hc Hp Hso Hf; [lia|]. cbn [q_prev]. destruct a as [|c a]; destruct Hc as (x & Hx & Hl & Hc);
    rewrite (load_so_spec _ _ _ Hx), bind_done, Hl.
  - rewrite Z.eqb_refl. destruct p as [|? [|??]]; by injection Hp as ->.
  - rewrite (proj2 (Z.eqb_neq c so)) by set_solver. destruct p as [|d p]; [done|]. injection Hp as -> Hp.
    apply (IH c a p); [done|done|set_solver|simpl in Hf; lia].
Qed.
Lemma q_prev_none fuel q k l so st : qchain (socks st) q k l → so ∉ l → (length l < fuel)%nat → q_prev fuel q k so st = Done None.
Proof.
  revert k l. induction fuel as [|fuel IH]; intros k l Hc Hso Hf; [lia|]. cbn [q_prev]. destruct l as [|a l]; destruct Hc as (x & Hx & Hc);
    rewrite (load_so_spec _ _ _ Hx), bind_done; [by rewrite Hc|]. destruct Hc as [-> Hc]. rewrite (proj2 (Z.eqb_neq a so)) by set_solver.
  apply (IH a l); [done|set_solver|simpl in Hf; lia].
Qed.
(** and taken out there. *)
Lemma qchain_del h q k a so b p j x y : qchain h q k (a ++ so :: b) → k :: a = p ++ [j] → NoDup (k :: a ++ so :: b) → h !! j = Some x → h !! so = Some y →
  qchain (<[j := set_qlink q (qlink q y) x]> h) q k (a ++ b).
Proof.
  intros Hc Hp Hd Hx Hy. revert k p Hc Hp Hd. induction a as [|c a IH]; intros k p Hc Hp Hd.
  - assert (k = j) as -> by (destruct p as [|? [|??]]; by injection Hp). cbn [app] in *. apply NoDup_cons in Hd as [Hj Hd].
    destruct b as [|d b]; destruct Hc as (z & Hz & Hl & (w & Hw & Hc)); rewrite Hy in Hw; injection Hw as <-; cbn; rewrite lookup_insert_eq.
    + eexists. split; [done|]. rewrite Hc. by destruct q.
    + destruct Hc as [-> Hc]. eexists. split; [done|]. split; [by destruct q|]. apply qchain_other; [set_solver|done].
  - destruct Hc as (z & Hz & Hl & Hc). destruct p as [|e p]; [done|]. injection Hp as <- Hp. cbn. exists z.
    assert (j ∈ c :: a) by (rewrite Hp; set_solver). pose proof Hd as [Hk Hd']%NoDup_cons.
    rewrite lookup_insert_ne by set_solver. split; [done|]. split; [done|]. by apply (IH c p).
Qed.

Lemma s16_small z : - 2 ^ 15 <= z < 2 ^ 15 → s16 z = z.
Proof. intros. unfold s16. rewrite Z.mod_small; lia. Qed.
Lemma upd_q_eq q l ls : upd_q q l ls q = l.
Proof. unfold upd_q. by rewrite eqb_reflx. Qed.
Lemma upd_q_ne q q' l ls : q ≠ q' → upd_q q l ls q' = ls q'.
Proof. unfold upd_q. by destruct q, q'. Qed.
Lemma pending_upd q l ls i : i ∈ pending (upd_q q l ls) ↔ i ∈ l ∨ i ∈ ls (negb q).
Proof. unfold pending, upd_q. destruct q; cbn; set_solver. Qed.
Lemma pending_in q ls i : i ∈ ls q → i ∈ pending ls.
Proof. unfold pending. destruct q; set_solver. Qed.
Lemma pending_perm q ls : pending ls ≡ₚ ls q ++ ls (negb q).
Proof. unfold pending. destruct q; [by rewrite Permutation_app_comm|done]. Qed.
Lemma chain_turns st q k l : qchain (socks st) q k l → NoDup (k :: l) → (length (k :: l) < so_turns st)%nat.
Proof.
  intros Hc Hd. unfold so_turns. assert (size (list_to_set (C := gset Z) (k :: l)) = length (k :: l)) as <- by (by apply size_list_to_set).
  apply Nat.lt_succ_r. rewrite <- (size_dom (D := gset Z) (socks st)). apply subseteq_size. intros i Hi. apply elem_of_list_to_set in Hi.
  destruct (qchain_dom _ _ _ _ _ Hc Hi) as [x Hx]. apply elem_of_dom. by exists x.
Qed.
Lemma last_of (k : Z) l : ∃ p j, k :: l = p ++ [j].
Proof. destruct l as [|j p _] using rev_ind; [by exists [], k|by exists (k :: p), j]. Qed.
Lemma body_link q p x : body (set_qlink q p x) = body x.
Proof. by destruct q. Qed.
Lemma body_len q n x : body (add_qlen q n x) = body x.
Proof. by destruct q. Qed.
Lemma head_link q p x : so_head (set_qlink q p x) = so_head x.
Proof. by destruct q. Qed.
Lemma head_len q n x : so_head (add_qlen q n x) = so_head x.
Proof. by destruct q. Qed.
Lemma link_eq q p x : qlink q (set_qlink q p x) = p.
Proof. by destruct q. Qed.
Lemma link_ne q q' p x : q ≠ q' → qlink q' (set_qlink q p x) = qlink q' x.
Proof. by destruct q, q'. Qed.
Lemma link_len q q' n x : qlink q' (add_qlen q n x) = qlink q' x.
Proof. by destruct q, q'. Qed.
Lemma len_link q q' p x : qlen q' (set_qlink q p x) = qlen q' x.
Proof. by destruct q, q'. Qed.
Lemma len_len q q' n x : qlen q' (add_qlen q n x) = if Bool.eqb q q' then s16 (qlen q' x + n) else qlen q' x.
Proof. by destruct q, q'. Qed.

(** The sockets that are not concerned, and of the others what is not about queues. *)
Definition untouched (st st' : nst P) (is_q : list Z) : Prop :=
  (∀ i, body <$> socks st' !! i = body <$> socks st !! i) ∧ (∀ i, i ∉ is_q → socks st' !! i = socks st !! i) ∧
  net_mem st' = net_mem st ∧ woken st' = woken st ∧ proto st' = proto st.

Lemma insert_same {A} (f : socket → A) (h : gmap Z socket) i x x' j : h !! i = Some x → f x' = f x → f <$> (<[i := x']> h) !! j = f <$> h !! j.
Proof. intros Hi Hb. destruct (decide (i = j)) as [<-|]; [by rewrite lookup_insert_eq, Hi; cbn; rewrite Hb|by rewrite lookup_insert_ne]. Qed.

Lemma soqinsque_spec hd so q st ls y : accepting (socks st) hd ls → so ∉ hd :: pending ls → socks st !! so = Some y →
  Z.of_nat (length (pending ls)) < 2 ^ 15 - 1 →
  ∃ st', soqinsque hd so q st = Done st' ∧ accepting (socks st') hd (upd_q q (ls q ++ [so]) ls) ∧ untouched st st' (so :: hd :: pending ls).
Proof.
  intros [Hc Hd Hm Hn Hs] Hso Hy Hsmall. unfold soqinsque. rewrite (upd_so_spec _ _ _ _ Hy), bind_done.
  set (y1 := with_head (Some hd) y). set (st1 := set_socks _ st). destruct (qchain_head _ _ _ _ (Hc q)) as [x Hx].
  assert (Hne : so ≠ hd) by set_solver. assert (Hx1 : socks st1 !! hd = Some x) by (cbn; by rewrite lookup_insert_ne).
  rewrite (upd_so_spec _ _ _ _ Hx1), bind_done. set (x2 := add_qlen q 1 x). set (st2 := set_socks _ st1).
  assert (Hy2 : socks st2 !! so = Some y1) by (cbn; by rewrite lookup_insert_ne, lookup_insert_eq).
  rewrite (upd_so_spec _ _ _ _ Hy2), bind_done. set (y3 := set_qlink q None y1). set (st3 := set_socks _ st2).
  assert (Hy3 : socks st3 !! so = Some y3) by apply lookup_insert_eq.
  assert (Hx3 : socks st3 !! hd = Some x2) by (cbn; by rewrite lookup_insert_ne, lookup_insert_eq by done).
  assert (Hc3 : ∀ q', qchain (socks st3) q' hd (ls q')).
  { intros q'. assert (so ∉ hd :: ls q') by (pose proof (pending_in q' ls so); set_solver). apply qchain_other; [done|].
    apply qchain_same with x; [done|apply link_len|]. by apply qchain_other. }
  assert (Hso3 : ∀ i, i ≠ so → i ≠ hd → socks st3 !! i = socks st !! i) by (intros i ? ?; cbn; by rewrite !lookup_insert_ne by done).
  destruct (last_of hd (ls q)) as (p & j & Hp).
  assert (Hdq : NoDup (hd :: ls q)) by (rewrite (pending_perm q), app_comm_cons in Hd; by apply NoDup_app in Hd as [? _]).
  rewrite (q_last_spec _ _ _ _ _ _ _ (Hc3 q) Hp), bind_done by (pose proof (chain_turns st3 q _ _ (Hc3 q) Hdq); simpl in *; lia).
  assert (Hjin : j ∈ hd :: ls q) by (rewrite Hp; set_solver). destruct (qchain_dom _ _ _ _ _ (Hc3 q) Hjin) as [xj Hxj].
  assert (Hjso : j ≠ so) by (pose proof (pending_in q ls so); set_solver).
  rewrite (upd_so_spec _ _ _ _ Hxj). eexists. split; [done|]. split; [split|].
  - intros q'. destruct (decide (q = q')) as [<-|Hq].
    + rewrite upd_q_eq. cbn. apply (qchain_snoc _ _ _ _ p j so xj y3); try done; [|by apply link_eq].
      constructor; [pose proof (pending_in q ls so); set_solver|done].
    + rewrite upd_q_ne by done. cbn. apply qchain_same with xj; [done|by apply link_ne|apply Hc3].
  - assert (hd :: pending (upd_q q (ls q ++ [so]) ls) ≡ₚ so :: hd :: pending ls) as ->.
    { rewrite (pending_perm q (upd_q _ _ _)), (pending_perm q ls), upd_q_eq, upd_q_ne by (by destruct q). solve_Permutation. }
    by constructor.
  - intros i Hi. cbn [socks set_socks]. rewrite (insert_same so_head _ j xj) by (done || by apply head_link).
    assert (i = so ∨ i ∈ pending ls) as [->|Hi'].
    { apply pending_upd in Hi as [Hi|Hi]; [|right; by apply (pending_in (negb q))].
      apply elem_of_app in Hi as [Hi|Hi]; [right; by apply (pending_in q)|left; set_solver]. }
    + rewrite Hy3. cbn. unfold y3. by rewrite head_link.
    + rewrite Hso3; [by apply Hm|set_solver|]. intros ->. by apply NoDup_cons in Hd as [? _].
  - intros q'. cbn [socks set_socks]. rewrite (insert_same (qlen q') _ j xj) by (done || by apply len_link). rewrite Hx3. cbn [fmap option_fmap option_map].
    specialize (Hn q'). rewrite Hx in Hn. injection Hn as Hn. unfold x2. rewrite len_len, Hn. unfold upd_q. destruct (Bool.eqb q q') eqn:Eq; [|done].
    apply eqb_prop in Eq as <-. pose proof (pending_perm q ls) as Hpp. apply Permutation_length in Hpp. rewrite length_app in Hpp.
    rewrite length_app. cbn [length]. rewrite s16_small by lia. f_equal. lia.
  - rewrite (Permutation_length (pending_perm q (upd_q q (ls q ++ [so]) ls))), upd_q_eq, upd_q_ne by (by destruct q).
    pose proof (Permutation_length (pending_perm q ls)) as Hpp. rewrite !length_app in *. cbn [length]. lia.
  - split; [|split; [|done]].
    + intros i. cbn [socks set_socks]. rewrite (insert_same body _ j xj) by (done || by apply body_link). unfold st3, st2, st1. cbn [socks set_socks].
      rewrite (insert_same body _ so y1) by (try apply body_link; by rewrite lookup_insert_ne, lookup_insert_eq by done).
      rewrite (insert_same body _ hd x) by (try apply body_len; by rewrite lookup_insert_ne by done). by apply (insert_same body _ so y).
    + intros i Hi. cbn [socks set_socks]. rewrite lookup_insert_ne, Hso3; [done|set_solver|set_solver|].
      intros ->. apply elem_of_cons in Hjin as [->|Hjin]; [set_solver|]. apply (pending_in q) in Hjin. set_solver.
Qed.

Lemma qlen_unique q ls hd a so b : NoDup (hd :: pending ls) → ls q = a ++ so :: b →
  so ≠ hd ∧ so ∉ a ∧ so ∉ b ∧ so ∉ ls (negb q) ∧ NoDup (hd :: a ++ so :: b) ∧ hd :: pending ls ≡ₚ so :: hd :: pending (upd_q q (a ++ b) ls).
Proof.
  intros Hd Hq. assert (hd :: pending ls ≡ₚ so :: hd :: pending (upd_q q (a ++ b) ls)) as Hp.
  { rewrite (pending_perm q ls), (pending_perm q (upd_q _ _ _)), upd_q_eq, upd_q_ne, Hq by (by destruct q). solve_Permutation. }
  assert (NoDup (hd :: a ++ so :: b)) by (rewrite (pending_perm q), Hq, app_comm_cons in Hd; by apply NoDup_app in Hd as [? _]).
  pose proof Hd as Hd'. rewrite Hp in Hd'. apply NoDup_cons in Hd' as [Hso _]. rewrite (pending_perm q), upd_q_eq, upd_q_ne in Hso by (by destruct q).
  set_solver.
Qed.

Lemma soqremque_spec hd so q st ls a b : accepting (socks st) hd ls → ls q = a ++ so :: b →
  ∃ st', soqremque so q st = Done (true, st') ∧ accepting (socks st') hd (upd_q q (a ++ b) ls) ∧ untouched st st' (hd :: pending ls) ∧
    ∃ y, socks st' !! so = Some y ∧ so_head y = None ∧ ∀ q', qlink q' y = None.
Proof.
  intros [Hc Hd Hm Hn Hs] Hq. destruct (qlen_unique _ _ _ _ _ _ Hd Hq) as (Hne & Hsa & Hsb & Hsn & Hdq & Hperm).
  assert (Hin : so ∈ pending ls) by (apply (pending_in q); rewrite Hq; set_solver). pose proof (Hm so Hin) as Hhd.
  destruct (socks st !! so) as [y|] eqn:Hy; [|done]. injection Hhd as Hhd. unfold soqremque. rewrite (load_so_spec _ _ _ Hy), bind_done, Hhd.
  cbn [deref]. rewrite bind_done. destruct (last_of hd a) as (p & j & Hp). pose proof (Hc q) as Hcq. rewrite Hq in Hcq.
  pose proof (chain_turns st q _ _ Hcq Hdq) as Hturns. cbn [length] in Hturns. rewrite length_app in Hturns.
  rewrite (q_prev_spec _ _ _ _ _ _ _ _ _ Hcq Hp Hsa), bind_done by lia.
  assert (Hj : j ∈ hd :: a) by (rewrite Hp; set_solver). assert (Hjso : j ≠ so) by set_solver.
  destruct (qchain_dom _ _ _ _ j Hcq) as [xj Hxj]; [set_solver|]. rewrite (upd_so_spec _ _ _ _ Hxj), bind_done.
  set (st1 := set_socks _ st). pose proof (qchain_del _ _ _ _ _ _ _ _ _ _ Hcq Hp Hdq Hxj Hy) as Hc1.
  assert (Hc1' : ∀ q', q ≠ q' → qchain (socks st1) q' hd (ls q')) by (intros q' Hqq; apply qchain_same with xj; [done|by apply link_ne|apply Hc]).
  destruct (qchain_head _ _ _ _ Hc1) as [x Hx]. change (socks st1 !! hd = Some x) in Hx. rewrite (upd_so_spec _ _ _ _ Hx), bind_done.
  set (st2 := set_socks _ st1). assert (Hy2 : socks st2 !! so = Some y) by (cbn; by rewrite !lookup_insert_ne by done).
  rewrite (upd_so_spec _ _ _ _ Hy2), bind_done. eexists. split; [done|]. cbn [socks set_socks].
  assert (Hins : ∀ {A} (f : socket → A) i, f (set_qlink q (qlink q y) xj) = f xj → i ≠ so → f (add_qlen q (-1) x) = f x →
    f <$> (<[so := with_head None (with_queues None None (so_q0len y) (so_qlen y) y)]> (<[hd := add_qlen q (-1) x]>
      (<[j := set_qlink q (qlink q y) xj]> (socks st)))) !! i = f <$> socks st !! i).
  { intros A f i H1 Hi H2. rewrite lookup_insert_ne by done. rewrite (insert_same f _ hd x) by done. by rewrite (insert_same f _ j xj). }
  split; [split|split].
  - intros q'. apply qchain_other; [destruct (decide (q = q')) as [<-|Hqq]; [rewrite upd_q_eq; set_solver|rewrite upd_q_ne by done]|].
    { replace q' with (negb q) by (by destruct q, q'). set_solver. }
    apply qchain_same with x; [done|apply link_len|]. destruct (decide (q = q')) as [<-|Hqq]; [by rewrite upd_q_eq|rewrite upd_q_ne by done; auto].
  - rewrite Hperm in Hd. by apply NoDup_cons in Hd as [_ ?].
  - intros i Hi. assert (Hi' : i ∈ hd :: pending ls) by (rewrite Hperm; set_solver). assert (i ≠ hd ∧ i ≠ so) as [? ?].
    { rewrite Hperm in Hd. apply NoDup_cons in Hd as [? Hd]. apply NoDup_cons in Hd as [? _]. set_solver. }
    rewrite (Hins _ so_head); [apply Hm; set_solver|apply head_link|done|apply head_len].
  - intros q'. unfold st2. cbn [socks set_socks]. rewrite lookup_insert_ne, lookup_insert_eq by done. cbn. rewrite len_len.
    assert (qlen q' x = Z.of_nat (length (ls q'))) as ->.
    { specialize (Hn q'). assert (qlen q' <$> socks st1 !! hd = Some (Z.of_nat (length (ls q')))) as E.
      { rewrite <- Hn. apply (insert_same (qlen q') _ j xj); [done|apply len_link]. } rewrite Hx in E. by injection E. }
    unfold upd_q. destruct (Bool.eqb q q') eqn:Eq; [|done]. apply eqb_prop in Eq as <-. pose proof (Permutation_length (pending_perm q ls)) as Hpp.
    rewrite Hq, !length_app in *. cbn [length] in *. rewrite s16_small by lia. f_equal. lia.
  - apply Permutation_length in Hperm. cbn [length] in Hperm. lia.
  - split; [|split; [|done]].
    + intros i. unfold st2, st1. cbn [socks set_socks]. rewrite (insert_same body _ so y); [|by rewrite !lookup_insert_ne by done|done].
      rewrite (insert_same body _ hd x); [|done|apply body_len]. apply (insert_same body _ j xj); [done|apply body_link].
    + intros i Hi. unfold st2, st1. cbn [socks set_socks]. assert (i ≠ so ∧ i ≠ hd ∧ i ≠ j) as (? & ? & ?).
      { pose proof (pending_in q ls) as Hpi. rewrite Hq in Hpi. set_solver. }
      by rewrite !lookup_insert_ne by done.
  - eexists. split; [apply lookup_insert_eq|]. split; [done|]. by intros [].
Qed.

Lemma soqremque_absent hd so q st ls y : accepting (socks st) hd ls → so ∉ ls q → socks st !! so = Some y → so_head y = Some hd →
  soqremque so q st = Done (false, st).
Proof.
  intros [Hc Hd Hm Hn Hs] Hso Hy Hh. unfold soqremque. rewrite (load_so_spec _ _ _ Hy), bind_done, Hh. cbn [deref]. rewrite bind_done.
  assert (Hdq : NoDup (hd :: ls q)) by (rewrite (pending_perm q), app_comm_cons in Hd; by apply NoDup_app in Hd as [? _]).
  pose proof (chain_turns st q _ _ (Hc q) Hdq). cbn [length] in *. by rewrite (q_prev_none _ _ _ _ _ _ (Hc q) Hso), bind_done by lia.
Qed.

(** What the queues depend on. *)
Definition qview (x : socket) := (so_head x, so_q0 x, so_q x, so_q0len x, so_qlen x, so_qlimit x).

Lemma qview_Some (h h' : gmap Z socket) i x : qview <$> h' !! i = qview <$> h !! i → h !! i = Some x →
  ∃ x', h' !! i = Some x' ∧ so_head x' = so_head x ∧ (∀ q, qlink q x' = qlink q x) ∧ (∀ q, qlen q x' = qlen q x) ∧ so_qlimit x' = so_qlimit x.
Proof.
  intros Hv Hi. rewrite Hi in Hv. destruct (h' !! i) as [x'|]; [|done]. injection Hv as H1 H2 H3 H4 H5 H6. exists x'.
  split; [done|]. split; [done|]. split; [by intros []|]. split; [by intros []|done].
Qed.
Lemma qchain_view h h' q k l : (∀ i, i ∈ k :: l → qview <$> h' !! i = qview <$> h !! i) → qchain h q k l → qchain h' q k l.
Proof.
  revert k. induction l as [|a l IH]; intros k Hv (x & Hx & Hc); destruct (qview_Some _ _ _ _ (Hv k ltac:(set_solver)) Hx) as (x' & Hx' & _ & Hl & _);
    exists x'; (split; [done|]); rewrite Hl; [done|]. destruct Hc as [? Hc]. split; [done|]. apply IH; [|done]. intros i Hi. apply Hv. set_solver.
Qed.
Lemma accepting_view h h' hd ls : (∀ i, i ∈ hd :: pending ls → qview <$> h' !! i = qview <$> h !! i) → accepting h hd ls → accepting h' hd ls.
Proof.
  intros Hv [Hc Hd Hm Hn Hs]. split; try done.
  - intros q. apply qchain_view with h; [|done]. intros i Hi. apply Hv. pose proof (pending_in q ls i). set_solver.
  - intros i Hi. specialize (Hm i Hi). destruct (h !! i) as [x|] eqn:Hx; [|done]. destruct (qview_Some _ _ _ _ (Hv i ltac:(set_solver)) Hx) as (x' & -> & Hh & _).
    cbn in *. by rewrite Hh.
  - intros q. specialize (Hn q). destruct (h !! hd) as [x|] eqn:Hx; [|done]. destruct (qview_Some _ _ _ _ (Hv hd ltac:(set_solver)) Hx) as (x' & -> & _ & _ & Hl & _).
    cbn in *. by rewrite Hl.
Qed.
Lemma view_insert (h : gmap Z socket) i x x' : h !! i = Some x → qview x' = qview x → ∀ j, qview <$> (<[i := x']> h) !! j = qview <$> h !! j.
Proof. intros Hi Hx j. by apply (insert_same qview _ i x). Qed.
Lemma accepting_set h i x x' hd ls : h !! i = Some x → qview x' = qview x → accepting h hd ls → accepting (<[i := x']> h) hd ls.
Proof. intros Hi Hx. apply accepting_view. intros j _. by apply view_insert with x. Qed.

Lemma sorwakeup_spec i st x : socks st !! i = Some x →
  sorwakeup i st = Done (let st := set_socks (<[i := with_rcv (sowakeup_sb (so_rcv x)) x]> (socks st)) st in
    if isset SB_WAIT (clear SB_SEL (sb_flags (so_rcv x))) then sb_wakeup (RcvWait i) st else st).
Proof. intros Hx. unfold sorwakeup. by rewrite (load_so_spec _ _ _ Hx), bind_done, (upd_so_spec _ _ _ _ Hx), bind_done. Qed.

(** Nobody waits for data where nobody has asked for it. *)
Definition rcv_waits (x : socket) : bool := isset SB_WAIT (clear SB_SEL (sb_flags (so_rcv x))).
Definition connected_state (s : Z) : Z := Z.lor (clear (Z.lor SS_ISCONNECTING (Z.lor SS_ISDISCONNECTING SS_ISCONFIRMING)) s) SS_ISCONNECTED.

(** C26: When a connection that a listening socket has pending is complete, wherever it stands among the incomplete ones, it leaves
    them, becomes the last of those to be accepted, is marked connected, and the sleepers in accept are woken. *)
Theorem soisconnected_moves hd so st ls a b x y (Ha : accepting (socks st) hd ls) (Hq : ls false = a ++ so :: b)
    (Hx : socks st !! hd = Some x) (Hy : socks st !! so = Some y) :
  ∃ st', soisconnected so st = Done st' ∧ accepting (socks st') hd (λ q, if q then ls true ++ [so] else a ++ b) ∧
    so_state <$> socks st' !! so = Some (connected_state (so_state y)) ∧
    woken st' = woken st ++ (if rcv_waits x then [RcvWait hd] else []) ++ [Timo hd] ∧ net_mem st' = net_mem st ∧
    ∀ i, i ∉ hd :: pending ls → socks st' !! i = socks st !! i.
Proof.
  pose proof Ha as [_ Hd Hm _ Hs]. destruct (qlen_unique _ _ _ _ _ _ Hd Hq) as (Hne & _ & _ & _ & _ & Hperm).
  assert (Hin : so ∈ pending ls) by (apply (pending_in false); rewrite Hq; set_solver). pose proof (Hm so Hin) as Hh. rewrite Hy in Hh. injection Hh as Hh.
  unfold soisconnected. rewrite (load_so_spec _ _ _ Hy), bind_done, Hh, (upd_so_spec _ _ _ _ Hy), bind_done. fold (connected_state (so_state y)).
  set (y1 := with_state _ y). set (st1 := set_socks _ st).
  assert (Ha1 : accepting (socks st1) hd ls) by (by apply accepting_set with y).
  destruct (soqremque_spec hd so false st1 ls a b Ha1 Hq) as (st2 & -> & Ha2 & (Hb2 & Hu2 & Hm2 & Hw2 & _) & y2 & Hy2 & Hh2 & Hl2). rewrite bind_done.
  set (ls2 := upd_q false (a ++ b) ls) in *. pose proof (Permutation_length Hperm) as Hlen. cbn [length] in Hlen. fold ls2 in Hlen, Hperm.
  destruct (soqinsque_spec hd so true st2 ls2 y2 Ha2) as (st3 & -> & Ha3 & Hb3 & Hu3 & Hm3 & Hw3 & _); [|done|lia|].
  { rewrite Hperm in Hd. by apply NoDup_cons in Hd as [? _]. }
  rewrite bind_done. destruct (qchain_head _ _ _ _ (ac_chain _ _ _ Ha3 true)) as [x3 Hx3].
  rewrite (sorwakeup_spec _ _ _ Hx3), bind_done. set (x4 := with_rcv _ x3). eexists. split; [done|].
  assert (Hxx : body x3 = body x).
  { specialize (Hb3 hd). rewrite Hx3, Hb2 in Hb3. unfold st1 in Hb3. cbn [socks set_socks] in Hb3.
    rewrite lookup_insert_ne, Hx in Hb3 by done. by apply (inj Some) in Hb3. }
  assert (Hrw : isset SB_WAIT (clear SB_SEL (sb_flags (so_rcv x3))) = rcv_waits x).
  { unfold rcv_waits. change (so_rcv x3) with (so_rcv (body x3)). by rewrite Hxx. }
  assert (Hst3 : so_state <$> socks st3 !! so = Some (connected_state (so_state y))).
  { specialize (Hb3 so). rewrite Hb2 in Hb3. unfold st1 in Hb3. cbn [socks set_socks] in Hb3. rewrite lookup_insert_eq in Hb3.
    destruct (socks st3 !! so) as [y3|]; [|done]. apply (inj Some) in Hb3. cbn. change (so_state y3) with (so_state (body y3)). by rewrite Hb3. }
  rewrite Hrw. split; [|split; [|split; [|split]]].
  - apply accepting_view with (socks st3).
    { intros i _. destruct (rcv_waits x); cbn; by apply view_insert with x3. }
    clear -Ha3. destruct Ha3 as [Hc Hd Hm Hn Hs]. split.
    + intros []; [apply (Hc true)|apply (Hc false)].
    + exact Hd.
    + exact Hm.
    + intros []; [apply (Hn true)|apply (Hn false)].
    + exact Hs.
  - rewrite <- Hst3. destruct (rcv_waits x); cbn; by rewrite lookup_insert_ne by done.
  - destruct (rcv_waits x); cbn; rewrite Hw3, Hw2; unfold st1; cbn; by rewrite <- ?app_assoc.
  - destruct (rcv_waits x); cbn; by rewrite Hm3, Hm2.
  - intros i Hi. destruct (rcv_waits x); cbn; (rewrite lookup_insert_ne by set_solver; rewrite Hu3 by (by rewrite <- Hperm); rewrite Hu2 by done;
      unfold st1; cbn; rewrite lookup_insert_ne by (intros ->; apply Hi; set_solver); done).
Qed.

(** ** New connections *)

Lemma sbrelease_empty hi mx lo m : ∃ b, sbrelease (set_marks hi mx lo zero_sockbuf) m = Done (b, m).
Proof. unfold sbrelease, sbflush, turns. cbn. eauto. Qed.

Lemma sbreserve_zero cc : ∃ ok hi mx lo, sbreserve zero_sockbuf cc = (ok, set_marks hi mx lo zero_sockbuf).
Proof. unfold sbreserve. destruct (_ <? cc); [by exists false, 0, 0, 0|]. eexists true, _, _, _. done. Qed.

Lemma view_snd b x : qview (with_snd b x) = qview x.
Proof. done. Qed.

(** Reserving space for a socket whose buffers are empty. *)
Lemma soreserve_spec so a b st x : socks st !! so = Some x → so_rcv x = zero_sockbuf → so_snd x = zero_sockbuf →
  ∃ r st' x', soreserve so a b st = Done (r, st') ∧ st' = set_socks (<[so := x']> (socks st)) st ∧ qview x' = qview x.
Proof.
  intros Hx Hr Hs. unfold soreserve. rewrite (load_so_spec _ _ _ Hx), bind_done, Hs, Hr.
  destruct (sbreserve_zero a) as (ok & hi & mx & lo & ->). destruct ok; cbn [negb].
  2:{ eexists _, _, x. split; [done|]. split; [|done]. by destruct st; cbn in *; unfold set_socks; cbn; rewrite insert_id. }
  rewrite (upd_so_spec _ _ _ _ Hx), bind_done. destruct (sbreserve_zero b) as (ok & hi2 & mx2 & lo2 & ->). destruct ok; cbn [negb].
  - do 3 (rewrite (upd_so_spec so _ _ _ (lookup_insert_eq _ _ _)), bind_done; cbn [socks set_socks]).
    eexists _, _, _. split; [done|]. split; [unfold set_socks; cbn; by rewrite !insert_insert_eq|done].
  - rewrite (load_so_spec so _ _ (lookup_insert_eq _ _ _)), bind_done. change (so_snd (with_snd (set_marks hi mx lo zero_sockbuf) x)) with (set_marks hi mx lo zero_sockbuf).
    destruct (sbrelease_empty hi mx lo (net_mem st)) as [b' Hb]. cbn [net_mem set_socks]. rewrite Hb, bind_done.
    rewrite (upd_so_spec so _ _ _ (lookup_insert_eq _ _ _)), bind_done. eexists _, _, _. split; [done|].
    split; [unfold set_socks, set_mem; cbn; by rewrite insert_insert_eq|done].
Qed.
End socket.

(** What a protocol does not do when a socket is attached: change accept queues. *)
Class ProtoLaws (P : Type) `{ProtoOps P} := {
  attach_law (so : Z) (st : nst P) : is_Some (socks st !! so) →
    ∃ e st', usrreq so PRU_ATTACH None None None st = Done (e, st') ∧ ∀ i, qview <$> socks st' !! i = qview <$> socks st !! i;
}.

Section newconn.
Context {P : Type} `{ProtoLaws P}.
Implicit Types st : nst P.

Lemma upd_q_remove q so (ls : bool → list Z) : ∀ q', upd_q q (ls q) (upd_q q (ls q ++ [so]) ls) q' = ls q'.
Proof. intros q'. unfold upd_q. destruct (Bool.eqb q q') eqn:E; [by apply eqb_prop in E as ->|done]. Qed.
Lemma accepting_ext h hd ls ls' : (∀ q, ls q = ls' q) → accepting h hd ls → accepting h hd ls'.
Proof.
  intros E [Hc Hd Hm Hn Hs]. assert (Hp : pending ls = pending ls') by (unfold pending; by rewrite !E). rewrite Hp in *.
  split; try done; intros q; by rewrite <- E.
Qed.

Lemma upd_q_pending q so (ls : bool → list Z) : length (pending (upd_q q (ls q ++ [so]) ls)) = Datatypes.S (length (pending ls)).
Proof. unfold pending, upd_q. destruct q; simpl; rewrite !length_app; simpl; lia. Qed.

(** The part of [sonewconn1] behind the allocation. *)
Lemma newconn_attach hd so st ls q cs : accepting (socks st) hd ls → so ∉ hd :: pending ls → is_Some (socks st !! so) →
  Z.of_nat (length (pending ls)) < 2 ^ 15 - 1 →
  ∃ st1 e st2 st', usrreq so PRU_ATTACH None None None st1 = Done (e, st2) ∧ accepting (socks st1) hd (upd_q q (ls q ++ [so]) ls) ∧
    (st ← soqinsque hd so q st;
      '(e, st) ← usrreq so PRU_ATTACH None None None st;
      if negb (e =? 0) then
        '(_, st) ← soqremque so q st;
        st ← free_so so st;
        Done (None, st)
      else if (q : bool) then
        st ← sorwakeup hd st;
        let st := sb_wakeup (Timo hd) st in
        st ← upd_so so (λ x, with_state (Z.lor (so_state x) cs) x) st;
        Done (Some so, st)
      else Done (Some so, st)) = Done (if e =? 0 then Some so else None, st') ∧
    accepting (socks st') hd (if e =? 0 then upd_q q (ls q ++ [so]) ls else ls).
Proof.
  intros Ha Hso [y Hy] Hlen. destruct (soqinsque_spec hd so q st ls y Ha Hso Hy Hlen) as (st1 & -> & Ha1 & Hu1 & _). rewrite bind_done.
  destruct (attach_law so st1) as (e & st2 & He & Hv2).
  { specialize (Hu1 so). rewrite Hy in Hu1. destruct (socks st1 !! so); [by eexists|done]. }
  assert (Ha2 : accepting (socks st2) hd (upd_q q (ls q ++ [so]) ls)) by (apply accepting_view with (socks st1); auto).
  exists st1, e, st2. rewrite He, bind_done. destruct (e =? 0); cbn [negb].
  2:{ destruct (soqremque_spec hd so q st2 _ (ls q) [] Ha2) as (st3 & -> & Ha3 & _ & y3 & Hy3 & _); [by rewrite upd_q_eq|].
    rewrite bind_done. unfold free_so. rewrite (load_so_spec _ _ _ Hy3), !bind_done. eexists. do 3 (split; [done|]).
    rewrite app_nil_r in Ha3. apply (accepting_ext _ _ _ _ (upd_q_remove q so ls)) in Ha3. apply accepting_view with (socks st3); [|done].
    intros i Hi. cbn. rewrite lookup_delete_ne; [done|]. by intros ->. }
  destruct q; [|by exists st2].
  destruct (qchain_head _ _ _ _ (ac_chain _ _ _ Ha2 true)) as [x2 Hx2]. rewrite (sorwakeup_spec _ _ _ Hx2), bind_done.
  set (st3 := sb_wakeup (Timo hd) _). cbv zeta. assert (Hv3 : ∀ i, qview <$> socks st3 !! i = qview <$> socks st2 !! i).
  { intros i. unfold st3. destruct (isset _ _); cbn; by apply view_insert with x2. }
  destruct (qchain_dom _ _ _ _ so (ac_chain _ _ _ Ha2 true)) as [y2 Hy2]; [rewrite upd_q_eq; set_solver|].
  destruct (qview_Some _ _ _ _ (Hv3 so) Hy2) as (y3 & Hy3 & _). rewrite (upd_so_spec _ _ _ _ Hy3), bind_done. eexists.
  do 3 (split; [done|]). apply accepting_view with (socks st2); [|done]. intros i _. cbn. rewrite <- Hv3. by apply view_insert with y3.
Qed.

(** C27: A new connection of a listening socket whose limit is at most SOMAXCONN is refused, with nothing changed, when more than
    one and a half times the limit, rounded down, are pending already, complete and incomplete together. Otherwise, when [kzalloc]
    has no memory for the socket, NULL is returned and the queues are as they were. When it gives memory not in use, the new
    socket becomes the last of the queue its status chooses, and the protocol, which when attaching leaves the accept queues
    alone, is asked to attach it: if it accepts, the socket stays there and is returned; if it refuses, the socket is taken out
    again, the queues are as they were, and NULL is returned. So no call leaves more than one and a half times the limit, plus
    one, pending that did not find more than that. *)
Theorem sonewconn1_backlog hd cs st ls x a rest (Ha : accepting (socks st) hd ls) (Hx : socks st !! hd = Some x)
    (Hlim : 0 <= so_qlimit x <= SOMAXCONN) (Hmem : memory (net_mem st) = a :: rest) (Hfresh : ∀ so, a = Some so → socks st !! so = None) :
  let q := negb (cs =? 0) in
  if 3 * so_qlimit x / 2 <? Z.of_nat (length (pending ls)) then sonewconn1 hd cs st = Done (None, st)
  else match a with
    | None => ∃ st', sonewconn1 hd cs st = Done (None, st') ∧ accepting (socks st') hd ls
    | Some so =>
        let ls1 := upd_q q (ls q ++ [so]) ls in
        ∃ st1 e st2 st', usrreq so PRU_ATTACH None None None st1 = Done (e, st2) ∧ accepting (socks st1) hd ls1 ∧
          sonewconn1 hd cs st = Done (if e =? 0 then Some so else None, st') ∧
          accepting (socks st') hd (if e =? 0 then ls1 else ls) ∧
          Z.of_nat (length (pending (if e =? 0 then ls1 else ls))) <= 3 * so_qlimit x / 2 + 1
    end.
Proof.
  intros q. pose proof Ha as [Hc Hd Hm Hn Hs]. unfold sonewconn1. rewrite (load_so_spec _ _ _ Hx), bind_done. unfold SOMAXCONN in Hlim.
  rewrite Z.quot_div_nonneg by lia. pose proof (Hn true) as Ht. pose proof (Hn false) as Hf. rewrite Hx in Ht, Hf. injection Ht as Ht. injection Hf as Hf.
  cbn in Ht, Hf. rewrite Ht, Hf. unfold pending. rewrite length_app, Nat2Z.inj_add, (Z.add_comm (Z.of_nat (length (ls true)))).
  destruct (Z.ltb_spec (3 * so_qlimit x / 2) (Z.of_nat (length (ls false)) + Z.of_nat (length (ls true)))) as [|Hle]; [done|].
  assert (Hsm : Z.of_nat (length (pending ls)) < 2 ^ 15 - 1).
  { unfold pending. rewrite length_app. assert (3 * so_qlimit x / 2 < 8) by (apply Z.div_lt_upper_bound; lia). lia. }
  unfold alloc_so, kzalloc. rewrite Hmem. destruct a as [so|].
  2:{ by eexists. }
  set (y := mk_socket _ _ _ _ _ _ _ _ _ _ _ _ _ _ _ _ _ _ _ _). set (st1 := mk_nst _ _ _ _).
  assert (Hy : socks st1 !! so = Some y) by apply lookup_insert_eq.
  destruct (soreserve_spec so (sb_hiwat (so_snd x)) (sb_hiwat (so_rcv x)) st1 y Hy) as (r & st2 & y2 & -> & -> & Hv); [done|done|]. rewrite bind_done.
  assert (Hnew : so ∉ hd :: pending ls).
  { intros Hin. specialize (Hfresh so eq_refl). apply elem_of_cons in Hin as [->|Hin]; [by rewrite Hx in Hfresh|].
    specialize (Hm so Hin). by rewrite Hfresh in Hm. }
  destruct (newconn_attach hd so (set_socks (<[so := y2]> (socks st1)) st1) ls q cs) as (st1' & e & st2' & st' & He & Ha1 & E & Ha'); [| done | |done|].
  - apply accepting_view with (socks st); [|done]. intros i Hi. cbn. rewrite insert_insert_eq, lookup_insert_ne; [done|]. by intros ->.
  - cbn. rewrite lookup_insert_eq. by eexists.
  - exists st1', e, st2', st'. do 4 (split; [done|]). pose proof (upd_q_pending q so ls) as Hp.
    unfold pending in Hle, Hp |- *. destruct (e =? 0); rewrite ?Hp, length_app; lia.
Qed.
End newconn.

(** ** A protocol without state, and witnesses *)

#[export] Instance null_proto : ProtoOps unit := {| usrreq _ _ _ _ _ st := Done (0, st) |}.
#[export] Instance null_proto_laws : ProtoLaws unit.
Proof. split. intros so st _. by exists 0, st. Qed.

Definition demo_tcp : protosw := mk_protosw 1 6 12 true false.
(** Socket 1 listens; connection 2 is not complete, 3 is. *)
Definition demo_listen : socket := mk_socket 1 2 0 0 (Some 100) demo_tcp None (Some 2) (Some 3) 1 1 5 0 0 0 0
  (mk_sockbuf 0 8192 0 16384 1 None SB_WAIT) zero_sockbuf 0 0.
Definition demo_conn (state : Z) : socket := mk_socket 1 0 0 state None demo_tcp (Some 1) None None 0 0 0 0 0 0 0 zero_sockbuf zero_sockbuf 0 0.
Definition demo_net : nst unit :=
  mk_nst (<[1 := demo_listen]> (<[2 := demo_conn SS_ISCONNECTING]> (<[3 := demo_conn SS_ISCONNECTED]> ∅))) (mk_mst ∅ ∅ 0 0 [Some 9]) [] tt.
Definition demo_queues (q : bool) : list Z := if q then [3] else [2].

Lemma demo_accepting : accepting (socks demo_net) 1 demo_queues.
Proof.
  split.
  - by intros []; (eexists; split; [done|]; split; [done|]; eexists; split; [done|]).
  - by apply (bool_decide_eq_true_1 _).
  - intros i Hi. unfold pending, demo_queues in Hi. set_unfold. by destruct Hi as [->|[->|?]].
  - by intros [].
  - done.
Qed.

Lemma soisconnected_moves_witness :
  ∃ st', soisconnected 2 demo_net = Done st' ∧ accepting (socks st') 1 (λ q, if q then [3; 2] else []) ∧
    so_state <$> socks st' !! 2 = Some (connected_state SS_ISCONNECTING) ∧
    woken st' = [RcvWait 1; Timo 1] ∧ net_mem st' = net_mem demo_net ∧ ∀ i, i ∉ [1; 2; 3] → socks st' !! i = socks demo_net !! i.
Proof. by apply (soisconnected_moves 1 2 demo_net demo_queues [] [] demo_listen (demo_conn SS_ISCONNECTING) demo_accepting). Defined.

Lemma sonewconn1_backlog_witness :
  ∃ st1 e st2 st', usrreq 9 PRU_ATTACH None None None st1 = Done (e, st2) ∧ accepting (socks st1) 1 (upd_q false [2; 9] demo_queues) ∧
    sonewconn1 1 0 demo_net = Done (if e =? 0 then Some 9 else None, st') ∧
    accepting (socks st') 1 (if e =? 0 then upd_q false [2; 9] demo_queues else demo_queues) ∧
    Z.of_nat (length (pending (if e =? 0 then upd_q false [2; 9] demo_queues else demo_queues))) <= 8.
Proof.
  apply (sonewconn1_backlog 1 0 demo_net demo_queues demo_listen (Some 9) []); try done.
  - apply demo_accepting.
  - by intros so [= <-].
Defined.
