(* ===== verification/SockIo.v ===== *)
(** * Reading from and writing to sockets ([Kernel/net/uipc_socket.c], [uipc_syscall.c], [Kernel/uio.c])

    [soreceive] takes what a socket's receive buffer has at its front: the bytes of a stream, or
    one datagram with its address.  [uiomove] puts the bytes where the caller's [uio] says, and takes what
    [copy_to_user] returns for an error, as the code does ([soreceive_user_loses]).  The memory of
    the caller is an interface ([UserMem]), the protocol another one ([ProtoOps] of [Socket]).

    A call that has to sleep ends with [Asleep]: the buffer is unlocked and [SB_WAIT] is set; it is
    made again when it is woken ([goto restart]).  What follows the sleep in the middle of a transfer with
    [MSG_WAITALL] is not modelled.  No domain of the kernel has a [dom_externalize], the call is left out. *)

From S2P Require Import Prelude Mbuf Sockbuf Socket.

Definition EWOULDBLOCK := 11.
Definition EPIPE := 32.
Definition EDESTADDRREQ := 89.
Definition EMSGSIZE := 90.
Definition SO_DONTROUTE := 16.
Definition SS_RCVATMARK := 64.
Definition MT_CONTROL := 14.
Definition MT_OOBDATA := 15.
Definition MSG_OOB := 1.
Definition MSG_PEEK := 2.
Definition MSG_DONTROUTE := 4.
Definition MSG_EOR := 8.
Definition MSG_TRUNC := 16.
Definition MSG_WAITALL := 64.
Definition MSG_DONTWAIT := 128.
Definition PR_ATOMIC := 1.
Definition PR_ADDR := 2.
Definition PR_WANTRCVD := 8.
Definition PRU_RCVD := 8.
Definition PRU_SEND := 9.
Definition PRU_RCVOOB := 13.
Definition PRU_SENDOOB := 14.

(** ** [uiomove] *)

Definition UIO_USERSPACE := 0.
Definition UIO_SYSSPACE := 1.
Definition UIO_USERISPACE := 2.

(** The memory an [iovec] points into, by [uio_segflg]; [None]: [probe_for_write] or [probe_for_read] refuses the address,
    or, in kernel space, it is not mapped. *)
Class UserMem (U : Type) := {
  u_write : Z → Z → bytes → U → option U;
  u_read : Z → Z → Z → U → option bytes;
}.

Record uio (U : Type) : Type := mk_uio { uio_iov : list (Z * Z); uio_offset : Z; uio_resid : Z; uio_segflg : Z; uio_mem : U }.
Arguments mk_uio {U} _ _ _ _ _.
Arguments uio_iov {U} _.
Arguments uio_offset {U} _.
Arguments uio_resid {U} _.
Arguments uio_segflg {U} _.
Arguments uio_mem {U} _.

Section uio.
Context {U : Type} `{UserMem U}.

Definition io_skip (l : list (Z * Z)) (io : uio U) : uio U := mk_uio l (uio_offset io) (uio_resid io) (uio_segflg io) (uio_mem io).
Definition io_step (b l : Z) (rest : list (Z * Z)) (cnt : Z) (u : U) (io : uio U) : uio U :=
  mk_uio ((u32 (b + cnt), u32 (l - cnt)) :: rest) (uio_offset io + cnt) (s32 (uio_resid io - cnt)) (uio_segflg io) u.

Definition io_set (u : U) (io : uio U) : uio U := mk_uio (uio_iov io) (uio_offset io) (uio_resid io) (uio_segflg io) u.
Definition io_user (seg : Z) : bool := (seg =? UIO_USERSPACE) || (seg =? UIO_USERISPACE).

(** The [switch]: the error that the copy at [p] gives.  [copy_to_user] returns the number of bytes copied, and stops the kernel for an
    address it refuses; [copy_from_user] returns 0, or [-EFAULT]; all of them do nothing with a null pointer. *)
Definition io_put (seg p : Z) (d : bytes) (u : U) : outcome (Z * U) :=
  if negb (io_user seg || (seg =? UIO_SYSSPACE)) || (p =? 0) then Done (0, u) else
  match u_write seg p d u with
  | None => Fail (if io_user seg then Panic else BadPtr)
  | Some u => Done (if io_user seg then Z.of_nat (length d) else 0, u)
  end.
(** [old]: what is there; what is there afterwards. *)
Definition io_get (seg p : Z) (old : bytes) (u : U) : outcome (Z * bytes) :=
  if negb (io_user seg || (seg =? UIO_SYSSPACE)) || (p =? 0) then Done (0, old) else
  match u_read seg p (Z.of_nat (length old)) u with
  | None => if io_user seg then Done (- EFAULT, old) else Fail BadPtr
  | Some d => Done (0, d)
  end.

(** With [UIO_READ]: the bytes [d] go out.  Anything but 0 ends the loop before the area is advanced. *)
Fixpoint move_out (fuel : nat) (d : bytes) (io : uio U) : outcome (Z * uio U) :=
  match fuel with
  | O => Fail Diverge
  | S fuel =>
      if (0 <? Z.of_nat (length d)) && negb (uio_resid io =? 0) then
        match uio_iov io with
        | [] => Fail BadPtr
        | (b, l) :: rest =>
            if l =? 0 then move_out fuel d (io_skip rest io) else
            let cnt := Z.min l (Z.of_nat (length d)) in
            '(e, u) ← io_put (uio_segflg io) b (take (Z.to_nat cnt) d) (uio_mem io);
            if negb (e =? 0) then Done (e, io_set u io) else move_out fuel (drop (Z.to_nat cnt) d) (io_step b l rest cnt u io)
        end
      else Done (0, io)
  end.
Definition uiomove_out (d : bytes) (io : uio U) : outcome (Z * uio U) := move_out (Datatypes.S (2 * length (uio_iov io))) d io.

(** With [UIO_WRITE]: bytes come in, over the bytes [old]. *)
Fixpoint move_in (fuel : nat) (old : bytes) (io : uio U) : outcome (Z * bytes * uio U) :=
  match fuel with
  | O => Fail Diverge
  | S fuel =>
      if (0 <? Z.of_nat (length old)) && negb (uio_resid io =? 0) then
        match uio_iov io with
        | [] => Fail BadPtr
        | (b, l) :: rest =>
            if l =? 0 then move_in fuel old (io_skip rest io) else
            let cnt := Z.min l (Z.of_nat (length old)) in
            '(e, d) ← io_get (uio_segflg io) b (take (Z.to_nat cnt) old) (uio_mem io);
            if negb (e =? 0) then Done (e, d ++ drop (Z.to_nat cnt) old, io) else
            '(e, d', io) ← move_in fuel (drop (Z.to_nat cnt) old) (io_step b l rest cnt (uio_mem io) io);
            Done (e, d ++ d', io)
        end
      else Done (0, old, io)
  end.
Definition uiomove_in (old : bytes) (io : uio U) : outcome (Z * bytes * uio U) := move_in (Datatypes.S (2 * length (uio_iov io))) old io.
End uio.

(** ** [soreceive] *)

Section soreceive.
Context {P U : Type} `{ProtoOps P} `{UserMem U}.
Implicit Types st : nst P.

(** A pointer to where a chain is built: NULL, the caller's variable, or [m_next] of an mbuf. *)
Definition mbuf_slot : Type := option (option Z).

(** [*p = v]; [top] is the caller's variable. *)
Definition store_slot (p : mbuf_slot) (v top : option Z) (s : mst) : outcome (option Z * mst) :=
  match p with None => Fail BadPtr | Some np => link np v top s end.

(** The local variables: [m], [nextrecord], [flags], [moff], [offset], [error], the caller's [*paddr], [*mp0] and
    [*controlp]. *)
Record rvars : Type := mk_rvars {
  v_m : option Z; v_nextrecord : option Z; v_flags : Z; v_moff : Z; v_offset : Z; v_error : Z; v_orig : Z;
  v_mp : mbuf_slot; v_addr : option Z; v_top : option Z; v_control : option Z; v_io : uio U }.
Definition set_m p v := mk_rvars p (v_nextrecord v) (v_flags v) (v_moff v) (v_offset v) (v_error v) (v_orig v) (v_mp v) (v_addr v) (v_top v) (v_control v) (v_io v).
Definition set_nextrecord p v := mk_rvars (v_m v) p (v_flags v) (v_moff v) (v_offset v) (v_error v) (v_orig v) (v_mp v) (v_addr v) (v_top v) (v_control v) (v_io v).
Definition set_vflags f v := mk_rvars (v_m v) (v_nextrecord v) f (v_moff v) (v_offset v) (v_error v) (v_orig v) (v_mp v) (v_addr v) (v_top v) (v_control v) (v_io v).
Definition set_moff n v := mk_rvars (v_m v) (v_nextrecord v) (v_flags v) n (v_offset v) (v_error v) (v_orig v) (v_mp v) (v_addr v) (v_top v) (v_control v) (v_io v).
Definition set_offset n v := mk_rvars (v_m v) (v_nextrecord v) (v_flags v) (v_moff v) n (v_error v) (v_orig v) (v_mp v) (v_addr v) (v_top v) (v_control v) (v_io v).
Definition set_error n v := mk_rvars (v_m v) (v_nextrecord v) (v_flags v) (v_moff v) (v_offset v) n (v_orig v) (v_mp v) (v_addr v) (v_top v) (v_control v) (v_io v).
Definition set_orig n v := mk_rvars (v_m v) (v_nextrecord v) (v_flags v) (v_moff v) (v_offset v) (v_error v) n (v_mp v) (v_addr v) (v_top v) (v_control v) (v_io v).
Definition set_mp p t v := mk_rvars (v_m v) (v_nextrecord v) (v_flags v) (v_moff v) (v_offset v) (v_error v) (v_orig v) p (v_addr v) t (v_control v) (v_io v).
Definition set_addr p v := mk_rvars (v_m v) (v_nextrecord v) (v_flags v) (v_moff v) (v_offset v) (v_error v) (v_orig v) (v_mp v) p (v_top v) (v_control v) (v_io v).
Definition set_control p v := mk_rvars (v_m v) (v_nextrecord v) (v_flags v) (v_moff v) (v_offset v) (v_error v) (v_orig v) (v_mp v) (v_addr v) (v_top v) p (v_io v).
Definition set_io io v := mk_rvars (v_m v) (v_nextrecord v) (v_flags v) (v_moff v) (v_offset v) (v_error v) (v_orig v) (v_mp v) (v_addr v) (v_top v) (v_control v) io.
Definition vhas (f : Z) (v : rvars) : bool := isset f (v_flags v).

(** [Returns]: at the end, where [*flagsp |= flags]; [Released]: [goto release] or out-of-band data, [*flagsp] is as it was. *)
Inductive rcv_end : Type := Returns | Released | Asleep | AsleepInside.

(** Changing the receive buffer and the mbufs. *)
Definition set_rcv (i : Z) (b : sockbuf) (st : nst P) : outcome (nst P) := upd_so i (with_rcv b) st.
Definition on_mem {A} (f : mst → outcome (A * mst)) (st : nst P) : outcome (A * nst P) :=
  '(a, s) ← f (net_mem st); Done (a, set_mem s st).
Definition upd_mem (f : mst → outcome mst) (st : nst P) : outcome (nst P) := s ← f (net_mem st); Done (set_mem s st).

(** [MFREE(m, so->so_rcv.sb_mb); m = so->so_rcv.sb_mb] behind [sbfree]. *)
Definition free_front (i m : Z) (x : mbuf) (v : rvars) (st : nst P) : outcome (rvars * nst P) :=
  so ← load_so i st;
  '(n, st) ← on_mem (m_free (Some m)) st;
  st ← set_rcv i (set_mb n (sbfree (so_rcv so) x)) st;
  Done (set_m n v, st).
(** The mbuf is taken off the buffer: [sb_mb = m->m_next; m->m_next = 0; m = sb_mb]. *)
Definition take_front (i m : Z) (x : mbuf) (v : rvars) (st : nst P) : outcome (rvars * nst P) :=
  so ← load_so i st;
  st ← set_rcv i (set_mb (m_next x) (sbfree (so_rcv so) x)) st;
  st ← upd_mem (upd m (set_next None)) st;
  Done (set_m (m_next x) v, st).

(** The address in front of a datagram. *)
Definition rcv_addr (i : Z) (want : bool) (v : rvars) (st : nst P) : outcome (rvars * nst P) :=
  so ← load_so i st;
  if negb (isset PR_ADDR (pr_flags (so_proto so))) then Done (v, st) else
  let v := set_orig 0 v in
  m ← deref (v_m v);
  x ← load m (net_mem st);
  if vhas MSG_PEEK v then
    '(a, st) ← (if want then on_mem (m_copym m 0 (m_len x)) st else Done (v_addr v, st));
    Done (set_m (m_next x) (set_addr a v), st)
  else if want then take_front i m x (set_addr (Some m) v) st
  else free_front i m x v st.

(** The control mbufs behind it; [p] is [controlp]. *)
Fixpoint rcv_control (fuel : nat) (i : Z) (p : mbuf_slot) (v : rvars) (st : nst P) : outcome (rvars * nst P) :=
  match fuel with
  | O => Fail Diverge
  | S fuel =>
      match v_m v with
      | None => Done (v, st)
      | Some m =>
          x ← load m (net_mem st);
          if negb ((m_type x =? MT_CONTROL) && (v_error v =? 0)) then Done (v, st) else
          '(c, v, st) ←
            (if vhas MSG_PEEK v then
               '(c, st) ← (match p with None => Done (None, st) | Some _ => on_mem (m_copym m 0 (m_len x)) st end);
               '(t, st) ← (match p with None => Done (v_control v, st) | Some _ => on_mem (store_slot p c (v_control v)) st end);
               Done (c, set_m (m_next x) (set_control t v), st)
             else
               match p with
               | Some _ =>
                   '(t, st) ← on_mem (store_slot p (Some m) (v_control v)) st;
                   '(v, st) ← take_front i m x (set_control t v) st;
                   Done (Some m, v, st)
               | None => '(v, st) ← free_front i m x v st; Done (None, v, st)
               end);
          match p with
          | None => rcv_control fuel i p v st
          | Some _ => c ← deref c; rcv_control fuel i (Some (Some c)) (set_orig 0 v) st
          end
      end
  end.

(** One mbuf's turn; [true]: [break]. *)
Definition rcv_step (i m : Z) (x : mbuf) (v : rvars) (st : nst P) : outcome (bool * rvars * nst P) :=
  st ← upd_so i (λ so, with_state (clear SS_RCVATMARK (so_state so)) so) st;
  so ← load_so i st;
  let len := uio_resid (v_io v) in
  let len := if negb (so_oobmark so =? 0) && (u32 (so_oobmark so - v_offset v) <? len) then s32 (u32 (so_oobmark so - v_offset v)) else len in
  let len := if m_len x - v_moff v <? len then m_len x - v_moff v else len in
  v ← (match v_mp v with
       | None =>
           d ← copy_out (shift (m_data x) (v_moff v)) len (net_mem st);
           '(e, io) ← uiomove_out d (v_io v);
           Done (set_error e (set_io io v))
       | Some _ =>
           let io := v_io v in
           Done (set_io (mk_uio (uio_iov io) (uio_offset io) (s32 (uio_resid io - len)) (uio_segflg io) (uio_mem io)) v)
       end);
  '(v, st) ←
    (if len =? m_len x - v_moff v then
       let v := if has M_EOR x then set_vflags (Z.lor (v_flags v) MSG_EOR) v else v in
       if vhas MSG_PEEK v then Done (set_moff 0 (set_m (m_next x) v), st)
       else
         let v := set_nextrecord (m_nextpkt x) v in
         '(v, st) ←
           (match v_mp v with
            | Some _ =>
                '(t, st) ← on_mem (store_slot (v_mp v) (Some m) (v_top v)) st;
                take_front i m x (set_mp (Some (Some m)) t v) st
            | None => free_front i m x v st
            end);
         st ← (match v_m v with
               | Some n => upd_mem (upd n (set_nextpkt (v_nextrecord v))) st
               | None => Done st
               end);
         Done (v, st)
     else if vhas MSG_PEEK v then Done (set_moff (v_moff v + len) v, st)
     else
       '(v, st) ← (match v_mp v with
                   | Some _ =>
                       '(c, st) ← on_mem (m_copym m 0 len) st;
                       '(t, st) ← on_mem (store_slot (v_mp v) c (v_top v)) st;
                       Done (set_mp (v_mp v) t v, st)
                   | None => Done (v, st)
                   end);
       st ← upd_mem (upd m (λ x, set_len (m_len x - len) (set_data (shift (m_data x) len) x))) st;
       st ← upd_so i (λ so, with_rcv (set_counts (sb_cc (so_rcv so) - len) (sb_mbcnt (so_rcv so)) (so_rcv so)) so) st;
       Done (v, st));
  so ← load_so i st;
  if negb (so_oobmark so =? 0) then
    if negb (vhas MSG_PEEK v) then
      st ← upd_so i (with_oobmark (u32 (so_oobmark so - len))) st;
      if u32 (so_oobmark so - len) =? 0 then
        st ← upd_so i (λ so, with_state (Z.lor (so_state so) SS_RCVATMARK) so) st; Done (true, v, st)
      else Done (vhas MSG_EOR v, v, st)
    else
      let v := set_offset (v_offset v + len) v in
      Done ((u32 (v_offset v) =? so_oobmark so) || vhas MSG_EOR v, v, st)
  else Done (vhas MSG_EOR v, v, st).

(** The loop over the data; [type] is the type of the first mbuf. *)
Fixpoint rcv_data (fuel : nat) (i type : Z) (v : rvars) (st : nst P) : outcome (rcv_end * rvars * nst P) :=
  match fuel with
  | O => Fail Diverge
  | S fuel =>
      match v_m v with
      | None => Done (Returns, v, st)
      | Some m =>
          if negb ((0 <? uio_resid (v_io v)) && (v_error v =? 0)) then Done (Returns, v, st) else
          x ← load m (net_mem st);
          if xorb (m_type x =? MT_OOBDATA) (type =? MT_OOBDATA) then Done (Returns, v, st) else
          '(stop, v, st) ← rcv_step i m x v st;
          if (stop : bool) then Done (Returns, v, st) else
          so ← load_so i st;
          (* the wait for more, with MSG_WAITALL *)
          if vhas MSG_WAITALL v && bool_decide (v_m v = None) && (0 <? uio_resid (v_io v)) &&
             negb (isset PR_ATOMIC (pr_flags (so_proto so))) && bool_decide (v_nextrecord v = None) &&
             (so_error so =? 0) && negb (sohas SS_CANTRCVMORE so) then
            st ← upd_so i (λ so, with_rcv (set_sbflags (Z.lor (sb_flags (so_rcv so)) SB_WAIT) (so_rcv so)) so) st;
            Done (AsleepInside, v, st)
          else rcv_data fuel i type v st
      end
  end.

(** Whether there is enough to return with: [inl] an error to release with, [inr true] go on, [inr false] sleep. *)
Fixpoint find_end (fuel : nat) (m : option Z) (s : mst) : outcome bool :=
  match fuel with
  | O => Fail Diverge
  | S fuel =>
      match m with
      | None => Done false
      | Some i => x ← load i s; if (m_type x =? MT_OOBDATA) || has M_EOR x then Done true else find_end fuel (m_next x) s
      end
  end.
Definition rcv_ready (i : Z) (v : rvars) (st : nst P) : outcome (Z + bool) * nst P :=
  match load_so i st with
  | Fail f => (Fail f, st)
  | Done so =>
      let b := so_rcv so in
      let resid := uio_resid (v_io v) in
      let short := match sb_mb b with
        | None => Done true
        | Some m =>
            x ← load m (net_mem st);
            Done (negb (vhas MSG_DONTWAIT v) && (sb_cc b <? u32 resid) &&
              ((sb_cc b <? u32 (sb_lowat b)) || (vhas MSG_WAITALL v && (u32 resid <=? sb_hiwat b))) &&
              bool_decide (m_nextpkt x = None) && negb (isset PR_ATOMIC (pr_flags (so_proto so))))
        end in
      match short with
      | Fail f => (Fail f, st)
      | Done false => (Done (inr true), st)
      | Done true =>
          if negb (so_error so =? 0) then
            match sb_mb b with
            | Some _ => (Done (inr true), st)
            | None =>
                (Done (inl (so_error so)),
                 if vhas MSG_PEEK v then st else set_socks (<[i := with_error 0 so]> (socks st)) st)
            end
          else if sohas SS_CANTRCVMORE so then
            (match sb_mb b with Some _ => Done (inr true) | None => Done (inl (v_error v)) end, st)
          else
            (e ← find_end (turns (net_mem st)) (sb_mb b) (net_mem st);
             if (e : bool) then Done (inr true) else
             if negb (sohas (Z.lor SS_ISCONNECTED SS_ISCONNECTING) so) && isset PR_CONNREQUIRED (pr_flags (so_proto so)) then Done (inl (- ENOTCONN)) else
             if resid =? 0 then Done (inl (v_error v)) else
             if sohas SS_NBIO so || vhas MSG_DONTWAIT v then Done (inl (- EWOULDBLOCK)) else Done (inr false), st)
      end
  end.

(** Behind the data: what is left of a datagram is dropped, and the protocol hears of the room. *)
Definition rcv_drop (i : Z) (v : rvars) (st : nst P) : outcome (rvars * nst P) :=
  so ← load_so i st;
  '(v, st) ← (if bool_decide (v_m v ≠ None) && isset PR_ATOMIC (pr_flags (so_proto so)) then
                st ← (if vhas MSG_PEEK v then Done st
                      else '(b, s) ← sbdroprecord (so_rcv so) (net_mem st); set_rcv i b (set_mem s st));
                Done (set_vflags (Z.lor (v_flags v) MSG_TRUNC) v, st)
              else Done (v, st));
  so ← load_so i st;
  st ← (if negb (vhas MSG_PEEK v) && bool_decide (v_m v = None) then set_rcv i (set_mb (v_nextrecord v) (so_rcv so)) st else Done st);
  Done (v, st).
Definition rcv_tell (i : Z) (v : rvars) (st : nst P) : outcome (nst P) :=
  so ← load_so i st;
  if negb (vhas MSG_PEEK v) && isset PR_WANTRCVD (pr_flags (so_proto so)) && bool_decide (so_pcb so ≠ None) then
    '(_, st) ← usrreq i PRU_RCVD None (if v_flags v =? 0 then None else Some (v_flags v)) None st; Done st
  else Done st.

Definition lock_rcv (i : Z) (st : nst P) : outcome (nst P) :=
  upd_so i (λ so, with_rcv (set_sbflags (Z.lor (sb_flags (so_rcv so)) SB_LOCK) (so_rcv so)) so) st.

(** From the type of the first data mbuf to the release of the buffer; [true]: [goto restart]. *)
Definition rcv_record (i : Z) (v : rvars) (st : nst P) : outcome (rcv_end * bool * rvars * nst P) :=
  '(type, v, st) ← (match v_m v with
                    | None => Done (0, v, st)
                    | Some m =>
                        st ← (if vhas MSG_PEEK v then Done st else upd_mem (upd m (set_nextpkt (v_nextrecord v))) st);
                        x ← load m (net_mem st);
                        Done (m_type x, (if m_type x =? MT_OOBDATA then set_vflags (Z.lor (v_flags v) MSG_OOB) v else v), st)
                    end);
  '(r, v, st) ← rcv_data (turns (net_mem st)) i type (set_moff 0 (set_offset 0 v)) st;
  match r with
  | Returns =>
      '(v, st) ← rcv_drop i v st;
      st ← rcv_tell i v st;
      so ← load_so i st;
      st ← unlock_rcv i st;
      Done (Returns, (v_orig v =? uio_resid (v_io v)) && negb (v_orig v =? 0) && negb (vhas MSG_EOR v) && negb (sohas SS_CANTRCVMORE so), v, st)
  | r => Done (r, false, v, st)
  end.

(** From [restart] on; [c] is [controlp].  [sblock] is 0 whatever happens (the comma operator), a locked buffer
    puts to sleep unless [MSG_DONTWAIT]. *)
Fixpoint rcv_restart (fuel : nat) (i : Z) (want : bool) (c : mbuf_slot) (v : rvars) (st : nst P) : outcome (rcv_end * rvars * nst P) :=
  match fuel with
  | O => Fail Diverge
  | S fuel =>
      so ← load_so i st;
      if isset SB_LOCK (sb_flags (so_rcv so)) && negb (vhas MSG_DONTWAIT v) then
        st ← upd_so i (λ so, with_rcv (set_sbflags (Z.lor (sb_flags (so_rcv so)) SB_WANT) (so_rcv so)) so) st;
        Done (Asleep, v, st)
      else
        st ← lock_rcv i st;
        let v := set_error 0 v in
        let '(r, st) := rcv_ready i v st in
        r ← r;
        match r with
        | inl e => st ← unlock_rcv i st; Done (Released, set_error e v, st)
        | inr false =>
            st ← unlock_rcv i st;
            st ← upd_so i (λ so, with_rcv (set_sbflags (Z.lor (sb_flags (so_rcv so)) SB_WAIT) (so_rcv so)) so) st;
            Done (Asleep, v, st)
        | inr true =>
            so ← load_so i st;
            m ← deref (sb_mb (so_rcv so));
            x ← load m (net_mem st);
            let v := set_nextrecord (m_nextpkt x) (set_m (Some m) v) in
            '(v, st) ← rcv_addr i want v st;
            '(v, st) ← rcv_control (turns (net_mem st)) i c v st;
            '(r, again, v, st) ← rcv_record i v st;
            if (again : bool) then rcv_restart fuel i want c v st else Done (r, v, st)
        end
  end.

(** Out-of-band data, which the protocol has put into [m]. *)
Fixpoint rcv_oob (fuel : nat) (m : option Z) (v : rvars) (st : nst P) : outcome (rcv_end * rvars * nst P) :=
  match fuel with
  | O => Fail Diverge
  | S fuel =>
      j ← deref m;
      x ← load j (net_mem st);
      d ← copy_out (m_data x) (Z.min (uio_resid (v_io v)) (m_len x)) (net_mem st);
      '(e, io) ← uiomove_out d (v_io v);
      let v := set_error e (set_io io v) in
      '(m, st) ← on_mem (m_free m) st;
      if negb (uio_resid io =? 0) && (e =? 0) && bool_decide (m ≠ None) then rcv_oob fuel m v st
      else st ← (match m with None => Done st | Some _ => upd_mem (freem m) st end); Done (Released, v, st)
  end.

(** [flags = None]: [flagsp] is NULL.  [error], which the code leaves uninitialised until [sblock], does not matter. *)
Definition soreceive (fuel : nat) (i : Z) (want : bool) (io : uio U) (mp c : mbuf_slot) (flags : option Z) (st : nst P)
    : outcome (rcv_end * rvars * nst P) :=
  so ← load_so i st;
  let fl := match flags with None => 0 | Some f => clear MSG_EOR f end in
  let v := mk_rvars None None fl 0 0 0 (uio_resid io) mp None None None io in
  if isset MSG_OOB fl then
    let '(m, s) := m_get MT_DATA (net_mem st) in
    let st := set_mem s st in
    '(e, st) ← usrreq i PRU_RCVOOB m (if isset MSG_PEEK fl then Some MSG_PEEK else None) None st;
    if negb (e =? 0) then
      st ← (match m with None => Done st | Some _ => upd_mem (freem m) st end);
      Done (Released, set_error e v, st)
    else rcv_oob (turns (net_mem st)) m v st
  else
    '(_, st) ← (if sohas SS_ISCONFIRMING so && negb (uio_resid io =? 0) then usrreq i PRU_RCVD None None None st else Done (0, st));
    rcv_restart fuel i want c v st.
End soreceive.

(** ** Where the bytes of [uiomove] go *)

(** The memory of the caller, written piece by piece. *)
Class UserMemLaws (U : Type) `{UserMem U} := {
  u_write_nil s p u : u_write s p [] u = Some u;
  u_write_app s p a b u : u_write s p (a ++ b) u = (u1 ← u_write s p a u; u_write s (u32 (p + Z.of_nat (length a))) b u1);
}.

Section scatter.
Context {U : Type} `{UserMemLaws U}.

(** [d] is laid out over the areas one after the other; the areas that are left. *)
Fixpoint scatter (l : list (Z * Z)) (seg : Z) (d : bytes) (u : U) : option (list (Z * Z) * U) :=
  match l with
  | [] => match d with [] => Some ([], u) | _ => None end
  | (b, n) :: l' =>
      match d with
      | [] => Some (l, u)
      | _ =>
          u1 ← u_write seg b (take (Z.to_nat n) d) u;
          if Z.of_nat (length d) <=? n then Some ((u32 (b + Z.of_nat (length d)), n - Z.of_nat (length d)) :: l', u1)
          else scatter l' seg (drop (Z.to_nat n) d) u1
      end
  end.

Definition io_moved (k : Z) (l : list (Z * Z)) (u : U) (io : uio U) : uio U :=
  mk_uio l (uio_offset io + k) (uio_resid io - k) (uio_segflg io) u.
(** No null pointer, no area past the end of the address space. *)
Definition areas_ok (l : list (Z * Z)) : Prop := Forall (λ a, 0 < a.1 ∧ 0 <= a.2 ∧ a.1 + a.2 < 2 ^ 32) l.
(** Areas of the kernel's. *)
Definition io_ok (io : uio U) : Prop := areas_ok (uio_iov io) ∧ uio_segflg io = UIO_SYSSPACE.
Lemma io_put_sys p d u u1 : 0 < p → u_write UIO_SYSSPACE p d u = Some u1 → io_put UIO_SYSSPACE p d u = Done (0, u1).
Proof. intros Hp Hw. unfold io_put. by rewrite (proj2 (Z.eqb_neq p 0)), Hw by lia. Qed.

Lemma scatter_nil l seg u : scatter l seg [] u = Some (l, u).
Proof. by destruct l as [|[b n] l]. Qed.
Lemma scatter_cons b n l seg d u : 0 <= n → scatter ((b, n) :: l) seg d u =
  (if Z.of_nat (length d) <=? n then u1 ← u_write seg b d u; Some (if decide (d = []) then (b, n) :: l else (u32 (b + Z.of_nat (length d)), n - Z.of_nat (length d)) :: l, u1)
   else u1 ← u_write seg b (take (Z.to_nat n) d) u; scatter l seg (drop (Z.to_nat n) d) u1).
Proof.
  intros Hn. destruct d as [|x d]; cbn [scatter].
  - cbn [length]. rewrite (proj2 (Z.leb_le _ _)) by lia. by rewrite u_write_nil.
  - destruct (Z.leb_spec (Z.of_nat (length (x :: d))) n); [|done]. by rewrite take_ge by lia.
Qed.

Lemma scatter_app l seg a b u : areas_ok l → scatter l seg (a ++ b) u = ('(l1, u1) ← scatter l seg a u; scatter l1 seg b u1).
Proof.
  revert a u. induction l as [|[p n] l IH]; intros a u Hok.
  - destruct a; [by destruct b|done].
  - inversion_clear Hok as [|?? Hn Hok']. cbn in Hn. rewrite (scatter_cons _ _ _ _ a), (scatter_cons _ _ _ _ (a ++ b)), length_app, Nat2Z.inj_add by lia.
    destruct (decide (a = [])) as [->|Hne].
    { cbn [length app]. rewrite u_write_nil. rewrite (proj2 (Z.leb_le (Z.of_nat 0) n)) by lia. cbn [mbind option_bind]. rewrite scatter_cons by lia. done. }
    destruct (Z.leb_spec (Z.of_nat (length a)) n) as [Ha|Ha].
    + destruct (Z.leb_spec (Z.of_nat (length a) + Z.of_nat (length b)) n) as [Hb|Hb].
      * rewrite u_write_app. destruct (u_write seg p a u) as [u1|]; [|done]. cbn [mbind option_bind].
        rewrite decide_False by (by destruct a). rewrite scatter_cons by lia. rewrite (proj2 (Z.leb_le _ _)) by lia.
        destruct (u_write seg _ b u1) as [u2|]; [|done]. cbn [mbind option_bind]. destruct (decide (b = [])) as [->|].
        { cbn [length]. by rewrite Nat2Z.inj_0, !Z.add_0_r. }
        rewrite <- (Z.sub_add_distr n), u32_add. by rewrite Z.add_assoc.
      * rewrite take_app_ge, u_write_app by lia. destruct (u_write seg p a u) as [u1|]; [|done]. cbn [mbind option_bind].
        rewrite scatter_cons by lia. rewrite (proj2 (Z.leb_gt _ _)) by lia. rewrite drop_app_ge by lia.
        replace (Z.to_nat (n - Z.of_nat (length a))) with (Z.to_nat n - length a)%nat by lia. done.
    + rewrite (proj2 (Z.leb_gt _ _)) by lia. rewrite take_app_le, drop_app_le by lia.
      destruct (u_write seg p (take (Z.to_nat n) a) u) as [u1|]; [|done]. cbn [mbind option_bind]. by apply IH.
Qed.

Lemma scatter_areas l seg d u l1 u1 : areas_ok l → scatter l seg d u = Some (l1, u1) → areas_ok l1.
Proof.
  revert d u. induction l as [|[p n] l IH]; intros d u Hok; [by destruct d; intros [= <- <-]|].
  pose proof Hok as Hok0. inversion_clear Hok0 as [|?? Hn Hok']. cbn in Hn. rewrite scatter_cons by lia.
  destruct (Z.leb_spec (Z.of_nat (length d)) n).
  - destruct (u_write _ _ _ _); [|done]. intros [= <- <-]. destruct (decide (d = [])); [done|]. constructor; [cbn; rewrite u32_small; lia|done].
  - destruct (u_write _ _ _ _) as [u2|]; [|done]. cbn [mbind option_bind]. by apply IH.
Qed.

Lemma io_moved_twice a b l1 u1 l u io : io_moved b l u (io_moved a l1 u1 io) = io_moved (a + b) l u io.
Proof. unfold io_moved. cbn. by rewrite Z.add_assoc, Z.sub_add_distr. Qed.

Lemma move_out_scatter l : ∀ fuel d io l' u, uio_iov io = l → uio_segflg io = UIO_SYSSPACE → areas_ok l → Z.of_nat (length d) <= uio_resid io < 2 ^ 31 → (2 * length l < fuel)%nat →
  scatter l (uio_segflg io) d (uio_mem io) = Some (l', u) → move_out fuel d io = Done (0, io_moved (Z.of_nat (length d)) l' u io).
Proof.
  assert (Hnil : ∀ fuel io, (0 < fuel)%nat → move_out fuel [] io = Done (0, io)) by (intros [] io Hf; [lia|done]).
  induction l as [|[b n] rest IH]; intros fuel d io l' u El Hsys Hok Hr Hf Hs; (destruct (decide (d = [])) as [->|Hne];
    [rewrite scatter_nil in Hs; injection Hs as <- <-; rewrite Hnil by lia; unfold io_moved; destruct io; cbn in *; by rewrite El, Z.add_0_r, Z.sub_0_r|]).
  { by destruct d. }
  assert (0 < Z.of_nat (length d)) by (destruct d; [done|cbn; lia]). destruct fuel as [|fuel]; [lia|]. cbn [move_out length] in *.
  rewrite (proj2 (Z.ltb_lt _ _)), (proj2 (Z.eqb_neq (uio_resid io) 0)) by lia. cbn [negb andb]. rewrite El.
  inversion_clear Hok as [|?? Hn Hok']. cbn in Hn. rewrite scatter_cons in Hs by lia. rewrite Hsys in Hs |- *. destruct (Z.eqb_spec n 0) as [->|Hn0].
  - rewrite (proj2 (Z.leb_gt _ _)) in Hs by lia. change (take (Z.to_nat 0) d) with (@nil Z) in Hs. rewrite u_write_nil in Hs. cbn [mbind option_bind] in Hs.
    rewrite (IH fuel d (io_skip rest io) l' u); [done|done|done|done|done|lia|cbn; by rewrite Hsys].
  - destruct (Z.leb_spec (Z.of_nat (length d)) n) as [Hle|Hgt].
    + rewrite Z.min_r, Nat2Z.id, take_ge by lia. destruct (u_write _ b d _) as [u1|] eqn:Ew; [|done]. rewrite (io_put_sys b d _ u1), bind_done by (done || lia).
      cbn [Z.eqb negb]. cbn [mbind option_bind] in Hs.
      rewrite decide_False in Hs by done. injection Hs as <- <-.
      rewrite drop_ge, Hnil by lia. unfold io_step. by rewrite s32_small, (u32_small (n - _)) by lia.
    + rewrite Z.min_l by lia. destruct (u_write _ b (take _ d) _) as [u1|] eqn:Ew; [|done]. rewrite (io_put_sys b _ _ u1), bind_done by (done || lia).
      cbn [Z.eqb negb]. cbn [mbind option_bind] in Hs.
      unfold io_step. rewrite Z.sub_diag. change (u32 0) with 0. rewrite s32_small by lia. set (d' := drop (Z.to_nat n) d) in *.
      assert (Hd' : Z.of_nat (length d') = Z.of_nat (length d) - n) by (unfold d'; rewrite length_drop; lia).
      destruct fuel as [|fuel]; [lia|]. cbn [move_out uio_resid uio_iov uio_segflg uio_mem].
      rewrite (proj2 (Z.ltb_lt _ _)), (proj2 (Z.eqb_neq (uio_resid io - n) 0)) by lia. cbn [negb andb]. rewrite Z.eqb_refl.
      unfold io_skip. cbn [uio_offset uio_resid uio_segflg uio_mem].
      etrans; [apply (IH fuel d' (io_moved n rest u1 io) l' u); [done|done|done|cbn; lia|lia|cbn; by rewrite Hsys]|]. rewrite io_moved_twice. do 3 f_equal. lia.
Qed.

(** A move that does not fail leaves the areas that [scatter] leaves. *)
Lemma uiomove_scatter d io l u : io_ok io → Z.of_nat (length d) <= uio_resid io < 2 ^ 31 →
  scatter (uio_iov io) (uio_segflg io) d (uio_mem io) = Some (l, u) → uiomove_out d io = Done (0, io_moved (Z.of_nat (length d)) l u io).
Proof. intros [Hok Hsys] Hr Hs. unfold uiomove_out. apply (move_out_scatter (uio_iov io)); try done. lia. Qed.
End scatter.

(** ** Receiving *)

Section receive.
Context {P U : Type} `{ProtoOps P} `{UserMemLaws U}.
Implicit Types (st : nst P) (v : rvars (U := U)).

(** What reading changes of a socket. *)
Definition with_buf (b : sockbuf) (x : socket) : socket := with_rcv b (with_state (clear SS_RCVATMARK (so_state x)) x).

(** The buffer of a socket in the middle of a read: [r] is left of the first record, behind it are [rs]. *)
Record reading (st : nst P) (i : Z) (so : socket) (r : list (Z * mbuf)) (rs : list (list (Z * mbuf))) (f : list (Z * mbuf)) : Prop := mk_reading {
  rd_so : socks st !! i = Some so;
  rd_private : private (net_mem st) (r ++ concat rs ++ f);
  rd_nexts : nexts r;
  rd_next : r ≠ [] → nextpkt_of r = first rs;
  rd_mb : sb_mb (so_rcv so) = hd_id r;
  rd_counts : counts (so_rcv so) (r ++ concat rs);
}.
(** An ordinary read: no peeking, nothing out of band, the bytes go to the caller. *)
Definition plain (v : rvars (U := U)) : Prop :=
  vhas MSG_PEEK v = false ∧ vhas MSG_EOR v = false ∧ vhas MSG_WAITALL v = false ∧ v_mp v = None ∧ v_moff v = 0.
Definition plain_data (l : list (Z * mbuf)) : Prop := Forall (λ a, has M_EOR a.2 = false ∧ m_type a.2 ≠ MT_OOBDATA) l.

Record stepped (st st' : nst P) (i : Z) (so so' : socket) (r : list (Z * mbuf)) (r' : list (Z * mbuf)) (rs : list (list (Z * mbuf))) (f : list (Z * mbuf)) (n : nat) : Prop := mk_stepped {
  sp_reading : reading st' i so' r' rs f;
  sp_so : so' = with_buf (so_rcv so') so ∧ same_marks (so_rcv so) (so_rcv so');
  sp_bytes : contents (net_mem st') r' = drop n (contents (net_mem st) r);
  sp_same : same (net_mem st) (net_mem st') (concat rs ++ f);
  sp_data : plain_data r → plain_data r';
  sp_others j : j ≠ i → socks st' !! j = socks st !! j;
  sp_proto : proto st' = proto st ∧ woken st' = woken st;
}.

Lemma stepped_trans st1 st2 st3 i so1 so2 so3 r1 r2 r3 rs f a b : stepped st1 st2 i so1 so2 r1 r2 rs f a → stepped st2 st3 i so2 so3 r2 r3 rs f b →
  stepped st1 st3 i so1 so3 r1 r3 rs f (a + b).
Proof.
  intros [_ [E1 M1] B1 S1 D1 O1 P1] [R2 [E2 M2] B2 S2 D2 O2 P2]. split; auto.
  - split; [|by eapply same_marks_trans]. rewrite E2 at 1. rewrite E1 at 1. unfold with_buf, with_rcv, with_state, clear. cbn.
    by rewrite <- Z.land_assoc.
  - by rewrite B2, B1, drop_drop.
  - by eapply same_trans.
  - intros j Hj. by rewrite O2, O1.
  - destruct P1 as [? ?], P2 as [? ?]. split; by etrans.
Qed.

(** The local variables a step leaves alone. *)
Definition keeps_vars (v v' : rvars (U := U)) : Prop :=
  v_flags v' = v_flags v ∧ v_moff v' = v_moff v ∧ v_orig v' = v_orig v ∧ v_mp v' = v_mp v ∧ v_addr v' = v_addr v ∧ v_top v' = v_top v ∧ v_control v' = v_control v.

(** The head of the rest gets the link to the next record. *)
Lemma relink_front s r p l : private s (r ++ l) → nexts r →
  ∃ s' r', (match hd_id r with Some n => upd n (set_nextpkt p) s | None => Done s end) = Done s' ∧ private s' (r' ++ l) ∧ nexts r' ∧
    hd_id r' = hd_id r ∧ (r' ≠ [] → nextpkt_of r' = p) ∧ contents s' r' = contents s r ∧ same s s' l ∧ total r' = total r ∧ mb_total r' = mb_total r ∧
    (plain_data r → plain_data r') ∧ length r' = length r.
Proof.
  intros Hp Hn. destruct r as [|[k y] r]; cbn [hd_id].
  { exists s, []. split; [done|]. split; [done|]. split; [done|]. split; [done|]. split; [done|]. split; [done|]. split; [apply same_refl|done]. }
  cbn [app] in Hp. destruct (private_set _ _ _ _ (set_nextpkt p) Hp ltac:(done) ltac:(done) ltac:(done)) as (s' & -> & Hp' & Hs & Hb).
  apply same_app in Hs as [Hs1 Hs2]. exists s', ((k, set_nextpkt p y) :: r). split; [done|]. split; [done|]. split; [done|]. split; [done|]. split; [done|].
  split; [by rewrite !contents_cons, Hb, (same_contents_of _ _ _ Hs1)|]. split; [done|]. split; [done|]. split; [done|]. split; [|done].
  intros [? ?]%Forall_cons. by constructor.
Qed.

Lemma step_whole st i so m x r rs f v : reading st i so ((m, x) :: r) rs f → v_nextrecord v = first rs →
  ∃ st' so' r', ('(v, st) ← free_front i m x v st;
       st ← (match v_m v with Some n => upd_mem (upd n (set_nextpkt (v_nextrecord v))) st | None => Done st end);
       Done (v, st)) = Done (set_m (hd_id r') v, st') ∧
    reading st' i so' r' rs f ∧ so' = with_rcv (so_rcv so') so ∧ same_marks (so_rcv so) (so_rcv so') ∧
    contents (net_mem st') r' = drop (Z.to_nat (m_len x)) (contents (net_mem st) ((m, x) :: r)) ∧ same (net_mem st) (net_mem st') (concat rs ++ f) ∧
    (plain_data r → plain_data r') ∧ (∀ j, j ≠ i → socks st' !! j = socks st !! j) ∧ proto st' = proto st ∧ woken st' = woken st ∧ length r' = length r.
Proof.
  intros [Hso Hp [Hx Hn] Hk Hmb Hc] Hv. cbn [app] in Hp. unfold free_front. rewrite (load_so_spec _ _ _ Hso), bind_done.
  destruct (private_at _ _ _ _ Hp) as (_ & Hok & _). pose proof (mbytes_length _ _ Hok) as Hlx.
  destruct (private_free _ _ _ _ Hp) as (s1 & E & Hp1 & Hs1). unfold on_mem. rewrite E, !bind_done. unfold set_rcv.
  rewrite (upd_so_spec i _ _ so) by done. rewrite !bind_done. set (b' := set_mb (m_next x) _). cbn [v_m set_m v_nextrecord]. rewrite Hx, Hv.
  destruct (relink_front s1 r (first rs) _ Hp1 Hn) as (s2 & r' & E2 & Hp2 & Hn2 & Hh2 & Hk2 & Hb2 & Hs2 & Ht2 & Hm2 & Hd2 & Hl2).
  set (st1 := set_socks _ _). assert (Hst1 : net_mem st1 = s1) by done.
  exists (set_mem s2 st1), (with_rcv b' so), r'. split.
  { rewrite Hh2. destruct (hd_id r) as [k|]; unfold upd_mem.
    - by rewrite Hst1, E2, !bind_done.
    - rewrite bind_done. by injection E2 as <-. }
  apply same_app in Hs1 as [Hsr Hs1]. split; [split|].
  - cbn. by rewrite lookup_insert_eq.
  - done.
  - done.
  - done.
  - unfold b'. cbn. by rewrite Hx.
  - cbn. unfold b'. cbn [app] in Hc. apply counts_free in Hc. unfold counts in *. cbn. rewrite total_app, mb_total_app, Ht2, Hm2, <- total_app, <- mb_total_app. done.
  - split; [done|]. split; [done|]. split.
    { cbn [net_mem set_mem]. rewrite Hb2, (same_contents_of _ _ _ Hsr), contents_cons, drop_app_ge by lia.
      assert (Z.to_nat (m_len x) - length (mbytes (net_mem st) x) = 0)%nat as -> by lia. by rewrite drop_0. }
    split; [by eapply same_trans|]. split; [done|]. split; [|done]. intros j Hj. cbn. by rewrite lookup_insert_ne.
Qed.

Lemma step_part st i so m x r rs f n : reading st i so ((m, x) :: r) rs f → 0 <= n <= m_len x →
  ∃ st' so', (st ← upd_mem (upd m (λ x, set_len (m_len x - n) (set_data (shift (m_data x) n) x))) st;
       upd_so i (λ so, with_rcv (set_counts (sb_cc (so_rcv so) - n) (sb_mbcnt (so_rcv so)) (so_rcv so)) so) st) = Done st' ∧
    reading st' i so' ((m, trim_one n x) :: r) rs f ∧ so' = with_rcv (so_rcv so') so ∧ same_marks (so_rcv so) (so_rcv so') ∧
    contents (net_mem st') ((m, trim_one n x) :: r) = drop (Z.to_nat n) (contents (net_mem st) ((m, x) :: r)) ∧
    same (net_mem st) (net_mem st') (concat rs ++ f) ∧ (∀ j, j ≠ i → socks st' !! j = socks st !! j) ∧ proto st' = proto st ∧ woken st' = woken st.
Proof.
  intros [Hso Hp [Hx Hn] Hk Hmb [Hc Hm]] Hlen. cbn [app] in Hp. destruct (private_at _ _ _ _ Hp) as (_ & Hok & _).
  pose proof (mbytes_length _ _ Hok) as Hlx. pose proof Hok as (Hx0 & _).
  destruct (private_trim _ m x _ n Hp Hlen) as (s' & E & Hp' & Hs & Hb). unfold upd_mem.
  assert (upd m (λ x, set_len (m_len x - n) (set_data (shift (m_data x) n) x)) (net_mem st) = Done s') as -> by (rewrite <- E; done).
  rewrite !bind_done, (upd_so_spec i _ _ so) by done.
  eexists _, (with_rcv (set_counts (sb_cc (so_rcv so) - n) (sb_mbcnt (so_rcv so)) (so_rcv so)) so).
  split; [done|]. apply same_app in Hs as [Hsr Hs]. split; [split; try done|].
  - cbn. by rewrite lookup_insert_eq.
  - intros _. by apply Hk.
  - cbn [app] in Hc, Hm. unfold counts. cbn. rewrite Hc, Hm, u32_sub, u32_idem, s32_small by lia. split; [|done]. f_equal. rewrite total_cons.
    fold (total (r ++ concat rs)). lia.
  - split; [done|]. split; [done|]. split; [|split; [done|split; [|done]]].
    + cbn [net_mem set_mem set_socks]. rewrite !contents_cons, Hb, (same_contents_of _ _ _ Hsr), drop_app_le by lia. done.
    + intros j Hj. cbn. by rewrite lookup_insert_ne.
Qed.

Lemma mbytes_take s x n : mbuf_ok s x → 0 <= n <= m_len x → copy_out (m_data x) n s = Done (take (Z.to_nat n) (mbytes s x)).
Proof.
  intros Hok Hn. replace (m_data x) with (shift (m_data x) 0) by (destruct (m_data x); cbn; by rewrite Z.add_0_r). by rewrite copy_out_spec by (done || lia).
Qed.

Lemma rcv_step_spec st i so m x r rs f v l u : reading st i so ((m, x) :: r) rs f → so_oobmark so = 0 → plain v → has M_EOR x = false →
  v_nextrecord v = first rs → v_m v = Some m → io_ok (v_io v) → 0 < uio_resid (v_io v) < 2 ^ 31 →
  let n := Z.min (uio_resid (v_io v)) (m_len x) in
  scatter (uio_iov (v_io v)) (uio_segflg (v_io v)) (take (Z.to_nat n) (mbytes (net_mem st) x)) (uio_mem (v_io v)) = Some (l, u) →
  ∃ st' so' r' v', rcv_step i m x v st = Done (false, v', st') ∧ stepped st st' i so so' ((m, x) :: r) r' rs f (Z.to_nat n) ∧
    keeps_vars v v' ∧ v_m v' = hd_id r' ∧ v_nextrecord v' = first rs ∧ v_error v' = 0 ∧ v_io v' = io_moved n l u (v_io v) ∧
    (n = m_len x → length r' = length r) ∧ (n < m_len x → uio_resid (v_io v') = 0).
Proof.
  intros Hr Hoob (Hpk & Heo & Hwa & Hmp & Hmo) Hxe Hnr Hvm Hio Hres n Hsc. unfold rcv_step.
  rewrite (upd_so_spec i _ _ so) by apply Hr. rewrite bind_done. set (st1 := set_socks _ st). set (so1 := with_state _ so) in *.
  assert (Hr1 : reading st1 i so1 ((m, x) :: r) rs f) by (destruct Hr; split; try done; apply lookup_insert_eq).
  assert (Ho1 : ∀ j, j ≠ i → socks st1 !! j = socks st !! j) by (intros j Hj; cbn; by rewrite lookup_insert_ne).
  rewrite (load_so_spec i _ so1) by apply Hr1. rewrite bind_done. change (so_oobmark so1) with (so_oobmark so). rewrite Hoob. cbn [Z.eqb negb andb].
  rewrite Hmo, Hmp, Z.sub_0_r. destruct (private_at _ _ _ _ (rd_private _ _ _ _ _ _ Hr)) as (_ & Hok & _). pose proof Hok as (Hx0 & _).
  pose proof (mbytes_length _ _ Hok) as Hlx.
  assert ((if m_len x <? uio_resid (v_io v) then m_len x else uio_resid (v_io v)) = n) as -> by (unfold n; destruct (Z.ltb_spec (m_len x) (uio_resid (v_io v))); lia).
  replace (shift (m_data x) 0) with (m_data x) by (destruct (m_data x); cbn; by rewrite Z.add_0_r).
  change (net_mem st1) with (net_mem st). rewrite mbytes_take, bind_done by (done || lia).
  rewrite (uiomove_scatter _ _ l u) by (try done; rewrite length_take; lia). rewrite !bind_done.
  rewrite length_take, Nat.min_l, Z2Nat.id by lia. set (v1 := set_error 0 (set_io (io_moved n l u (v_io v)) v)).
  change (v_moff v1) with (v_moff v). rewrite Hmo, Z.sub_0_r. destruct (Z.eqb_spec n (m_len x)) as [En|En].
  - rewrite Hxe. change (vhas MSG_PEEK v1) with (vhas MSG_PEEK v). rewrite Hpk.
    destruct (step_whole st1 i so1 m x r rs f (set_nextrecord (m_nextpkt x) v1) Hr1) as (st2 & so2 & r2 & E & Hr2 & Es2 & Hm2 & Hb2 & Hs2 & Hd2 & Ho2 & Hp2 & Hw2 & Hl2).
    { by apply (rd_next _ _ _ _ _ _ Hr). }
    cbv zeta. change (v_mp (set_nextrecord (m_nextpkt x) v1)) with (v_mp v). rewrite Hmp.
    rewrite E, bind_done. rewrite (load_so_spec i _ so2), bind_done by apply Hr2. assert (so_oobmark so2 = 0) as -> by (by rewrite Es2).
    cbn [Z.eqb negb]. eexists st2, so2, r2, _. split; [by change (vhas MSG_EOR _) with (vhas MSG_EOR v); rewrite Heo|].
    split; [|split; [done|split; [done|split; [by apply (rd_next _ _ _ _ _ _ Hr)|split; [done|split; [done|split; [done|lia]]]]]]].
    split; try done.
    + by rewrite Hb2, En.
    + intros [_ ?]%Forall_cons. auto.
    + intros j Hj. by rewrite Ho2, Ho1.
  - destruct (step_part st1 i so1 m x r rs f n Hr1 ltac:(lia)) as (st2 & so2 & E & Hr2 & Es2 & Hm2 & Hb2 & Hs2 & Ho2 & Hp2 & Hw2).
    change (vhas MSG_PEEK v1) with (vhas MSG_PEEK v). change (v_mp v1) with (v_mp v). rewrite Hpk, Hmp, bind_done.
    destruct (upd_mem _ st1) as [st1'|] eqn:Eu; [|done]. rewrite bind_done in E. rewrite !bind_done, E, !bind_done.
    rewrite (load_so_spec i _ so2), bind_done by apply Hr2. assert (so_oobmark so2 = 0) as -> by (by rewrite Es2).
    cbn [Z.eqb negb]. eexists st2, so2, ((m, trim_one n x) :: r), _. split; [by change (vhas MSG_EOR _) with (vhas MSG_EOR v); rewrite Heo|].
    split; [|split; [done|split; [done|split; [done|split; [done|split; [done|split; [lia|cbn; lia]]]]]]].
    split; try done.
    + intros [[? ?] ?]%Forall_cons. by constructor.
    + intros j Hj. by rewrite Ho2, Ho1.
Qed.

Lemma contents_private s r l : private s (r ++ l) → Z.of_nat (length (contents s r)) = total r ∧ 0 <= total r.
Proof. intros [Hp _]%private_app. apply private_ok in Hp. split; [by apply contents_length|by apply (total_nonneg s)]. Qed.

(** [n] bytes have been read. *)
Record read_bytes (i : Z) (rs : list (list (Z * mbuf))) (f : list (Z * mbuf)) (n : Z) (l : list (Z * Z)) (u : U)
    (st : nst P) (so : socket) (r : list (Z * mbuf)) (v : rvars (U := U)) (st' : nst P) (so' : socket) (r' : list (Z * mbuf)) (v' : rvars (U := U)) : Prop := mk_read_bytes {
  rb_reading : reading st' i so' r' rs f;
  rb_so : so' = with_rcv (so_rcv so') (with_state (so_state so') so) ∧ same_marks (so_rcv so) (so_rcv so');
  rb_state : so_state so' = so_state so ∨ so_state so' = clear SS_RCVATMARK (so_state so);
  rb_bytes : contents (net_mem st') r' = drop (Z.to_nat n) (contents (net_mem st) r);
  rb_same : same (net_mem st) (net_mem st') (concat rs ++ f);
  rb_data : plain_data r → plain_data r';
  rb_others j : j ≠ i → socks st' !! j = socks st !! j;
  rb_proto : proto st' = proto st ∧ woken st' = woken st;
  rb_vars : keeps_vars v v' ∧ v_m v' = hd_id r' ∧ v_nextrecord v' = first rs ∧ v_error v' = 0;
  rb_io : v_io v' = io_moved n l u (v_io v);
  rb_end : hd_id r' = None ∨ uio_resid (v_io v') = 0;
}.

Lemma read_nothing i rs f l u st so r v : reading st i so r rs f → v_m v = hd_id r → v_nextrecord v = first rs → v_error v = 0 →
  (hd_id r = None ∨ uio_resid (v_io v) = 0) →
  scatter (uio_iov (v_io v)) (uio_segflg (v_io v)) [] (uio_mem (v_io v)) = Some (l, u) → read_bytes i rs f 0 l u st so r v st so r v.
Proof.
  intros Hr Hm Hn He Hend Hs. rewrite scatter_nil in Hs. injection Hs as <- <-. split; try done.
  - split; [by destruct so|done].
  - by left.
  - apply same_refl.
  - unfold io_moved. destruct (v_io v). cbn. by rewrite Z.add_0_r, Z.sub_0_r.
Qed.

Lemma read_step i rs f k n l1 u1 l u st so r v st1 so1 r1 v1 st' so' r' v' : stepped st st1 i so so1 r r1 rs f (Z.to_nat k) → 0 <= k → 0 <= n →
  keeps_vars v v1 → v_io v1 = io_moved k l1 u1 (v_io v) → read_bytes i rs f n l u st1 so1 r1 v1 st' so' r' v' → read_bytes i rs f (k + n) l u st so r v st' so' r' v'.
Proof.
  intros [_ [E1 M1] B1 S1 D1 O1 P1] Hk Hn Hkv Hio [Hr [E2 M2] T2 B2 S2 D2 O2 P2 (K2 & HV2) I2 L2]. split; try done.
  - split; [|by eapply same_marks_trans]. rewrite E2 at 1. rewrite E1 at 1. done.
  - right. assert (so_state so1 = clear SS_RCVATMARK (so_state so)) as Hs1 by (by rewrite E1). rewrite Hs1 in T2. destruct T2 as [->| ->]; [done|].
    unfold clear. by rewrite <- Z.land_assoc.
  - rewrite B2, B1, drop_drop. f_equal. lia.
  - by eapply same_trans.
  - auto.
  - intros j Hj. by rewrite O2, O1.
  - destruct P1 as [? ?], P2 as [? ?]. split; by etrans.
  - split; [|done]. unfold keeps_vars in *. intuition congruence.
  - by rewrite I2, Hio, io_moved_twice.
Qed.

Lemma rcv_data_stops fuel i type st v m : v_m v = m → (m = None ∨ uio_resid (v_io v) = 0) → rcv_data (Datatypes.S fuel) i type v st = Done (Returns, v, st).
Proof. intros Hm Hs. cbn [rcv_data]. rewrite Hm. destruct m; [|done]. destruct Hs as [?| ->]; [done|]. done. Qed.

(** The loop moves what the caller asked for, or what the record has. *)
Lemma rcv_data_spec fuel i type st so r rs f v l u : reading st i so r rs f → so_oobmark so = 0 → plain v → plain_data r → type ≠ MT_OOBDATA →
  v_nextrecord v = first rs → v_m v = hd_id r → v_error v = 0 → io_ok (v_io v) → 0 <= uio_resid (v_io v) < 2 ^ 31 →
  (length r < fuel)%nat →
  let n := Z.min (uio_resid (v_io v)) (total r) in
  scatter (uio_iov (v_io v)) (uio_segflg (v_io v)) (take (Z.to_nat n) (contents (net_mem st) r)) (uio_mem (v_io v)) = Some (l, u) →
  ∃ st' so' r' v', rcv_data fuel i type v st = Done (Returns, v', st') ∧ read_bytes i rs f n l u st so r v st' so' r' v'.
Proof.
  revert st so r v l u. induction fuel as [|fuel IH]; intros st so r v l u Hr Hoob Hpl Hpd Hty Hnr Hvm Hve Hio Hres Hf n Hsc; [lia|].
  destruct (contents_private _ _ _ (rd_private _ _ _ _ _ _ Hr)) as [Hct Ht0].
  destruct (decide (hd_id r = None ∨ uio_resid (v_io v) = 0)) as [Hs|Hs].
  { rewrite (rcv_data_stops fuel i type st v _ Hvm Hs). assert (n = 0) as En by (destruct Hs as [Hs|Hs]; [destruct r as [|[] ?]; [unfold n; cbn; lia|done]|lia]).
    rewrite En in *. exists st, so, r, v. split; [done|]. by apply read_nothing. }
  cbn [rcv_data]. rewrite Hvm. destruct r as [|[m x] r]; cbn [hd_id]; [by destruct Hs; left|].
  assert (Hpos : 0 < uio_resid (v_io v)) by (destruct (decide (uio_resid (v_io v) = 0)); [by destruct Hs; right|lia]).
  rewrite (proj2 (Z.ltb_lt _ _) Hpos), Hve. cbn [andb negb Z.eqb].
  pose proof (rd_private _ _ _ _ _ _ Hr) as Hp. cbn [app] in Hp. destruct (private_at _ _ _ _ Hp) as (Hm & Hok & _). pose proof Hok as (Hx0 & _).
  pose proof (mbytes_length _ _ Hok) as Hlx. rewrite (load_spec _ _ x), bind_done by done. pose proof Hpd as Hpd0. apply Forall_cons in Hpd0 as [[Hxe Hxt] _].
  cbn [snd] in Hxe, Hxt. rewrite (proj2 (Z.eqb_neq (m_type x) _)), (proj2 (Z.eqb_neq type _)) by done. cbn [xorb].
  assert (En0 : n = Z.min (uio_resid (v_io v)) (m_len x + total r)) by (unfold n; by rewrite total_cons). clearbody n. rewrite total_cons in *.
  set (k := Z.min (uio_resid (v_io v)) (m_len x)). assert (0 <= total r) by (apply (contents_private (net_mem st) r (concat rs ++ f)); by apply private_at in Hp as (_ & _ & _ & _ & _ & ?)).
  assert (Hsplit : take (Z.to_nat n) (contents (net_mem st) ((m, x) :: r)) = take (Z.to_nat k) (mbytes (net_mem st) x) ++ take (Z.to_nat (n - k)) (drop (Z.to_nat k) (contents (net_mem st) ((m, x) :: r)))).
  { replace (Z.to_nat n) with (Z.to_nat k + Z.to_nat (n - k))%nat by lia. rewrite <- take_take_drop, contents_cons. by rewrite (take_app_le (mbytes _ _)) by lia. }
  rewrite Hsplit, scatter_app in Hsc by apply Hio.
  destruct (scatter (uio_iov (v_io v)) _ (take (Z.to_nat k) _) _) as [[l1 u1]|] eqn:Es1; [|done]. cbn [mbind option_bind] in Hsc.
  destruct (rcv_step_spec st i so m x r rs f v l1 u1) as (st1 & so1 & r1 & v1 & -> & Hst & Hkv & Hv1 & Hn1 & He1 & Hio1 & Hl1 & Hz1); try done; [lia|].
  rewrite bind_done. pose proof Hst as [Hr1 [Eso Hm1] Hb1 Hs1 Hd1 Ho1 _]. rewrite (load_so_spec i _ so1), bind_done by apply Hr1.
  destruct Hpl as (Hpk & Heo & Hwa & Hmp & Hmo). pose proof Hkv as (Kf & Ko & Kg & Kp & _). assert (vhas MSG_WAITALL v1 = false) as -> by (unfold vhas; by rewrite Kf).
  cbn [andb]. fold k in Hst, Hb1, Hl1, Hz1, Hio1. assert (Hres1 : uio_resid (v_io v1) = uio_resid (v_io v) - k) by (by rewrite Hio1).
  destruct (contents_private _ _ _ (rd_private _ _ _ _ _ _ Hr1)) as [Hct1 Ht1].
  assert (Htot1 : total r1 = m_len x + total r - k) by (rewrite <- Hct1, Hb1, length_drop; lia).
  assert (En : Z.min (uio_resid (v_io v1)) (total r1) = n - k) by lia. assert (n = k + (n - k)) as -> by lia.
  destruct fuel as [|fuel]; [cbn [length] in Hf; lia|]. destruct (decide (hd_id r1 = None ∨ uio_resid (v_io v1) = 0)) as [Hs1'|Hs1'].
  - rewrite (rcv_data_stops fuel i type st1 v1 _ Hv1 Hs1'). exists st1, so1, r1, v1. split; [done|]. eapply read_step; [done|lia|lia|done|done|].
    assert (n - k = 0) as E0 by (rewrite <- En; destruct Hs1' as [Hs1'|Hs1']; [destruct r1 as [|[] ?]; [cbn; lia|done]|lia]). rewrite E0 in *.
    apply read_nothing; try done. by rewrite Hio1.
  - destruct (IH st1 so1 r1 v1 l u) as (st' & so' & r' & v' & E & Hrb); try done.
    + by rewrite Eso.
    + unfold plain, vhas in *. by rewrite Kf, Ko, Kp.
    + auto.
    + rewrite Hio1. split; [by eapply scatter_areas; [apply Hio|]|apply Hio].
    + lia.
    + rewrite Hl1; [cbn [length] in Hf; lia|]. destruct (decide (k = m_len x)); [done|]. destruct Hs1'. right. apply Hz1. lia.
    + rewrite Hio1 in *. cbn [io_moved uio_iov uio_segflg uio_mem]. by rewrite En, Hb1.
    + exists st', so', r', v'. split; [done|]. rewrite En in Hrb. eapply read_step; [done|lia|lia|done|done|done].
Qed.

Lemma plain_eors l : plain_data l → eors l = false.
Proof. induction 1 as [|a l [Ha _] _ IH]; [done|]. cbn. by rewrite Ha. Qed.

(** From the type of the first data mbuf to the end, when nobody sleeps: what is left of the record is [r']. *)
Lemma rcv_body st i so r rs f v l u : socks st !! i = Some so → private (net_mem st) (r ++ concat rs ++ f) → nexts r →
  sb_mb (so_rcv so) = hd_id r → counts (so_rcv so) (r ++ concat rs) → so_oobmark so = 0 → plain v → plain_data r →
  v_nextrecord v = first rs → v_m v = hd_id r → v_error v = 0 → io_ok (v_io v) → 0 <= uio_resid (v_io v) < 2 ^ 31 →
  let n := Z.min (uio_resid (v_io v)) (total r) in
  scatter (uio_iov (v_io v)) (uio_segflg (v_io v)) (take (Z.to_nat n) (contents (net_mem st) r)) (uio_mem (v_io v)) = Some (l, u) →
  ∃ st1 type v1 st' so' r' v', (match v_m v with
     | None => Done (0, v, st)
     | Some m =>
         st ← (if vhas MSG_PEEK v then Done st else upd_mem (upd m (set_nextpkt (v_nextrecord v))) st);
         x ← load m (net_mem st);
         Done (m_type x, (if m_type x =? MT_OOBDATA then set_vflags (Z.lor (v_flags v) MSG_OOB) v else v), st)
     end) = Done (type, v1, st1) ∧ rcv_data (turns (net_mem st1)) i type (set_moff 0 (set_offset 0 v1)) st1 = Done (Returns, v', st') ∧
    read_bytes i rs f n l u st so r v st' so' r' v'.
Proof.
  intros Hso Hp Hn Hmb Hc Hoob Hpl Hpd Hnr Hvm Hve Hio Hres n Hsc. pose proof Hpl as (Hpk & Heo & Hwa & Hmp & Hmo).
  destruct (relink_front (net_mem st) r (first rs) _ Hp Hn) as (s1 & r1 & E1 & Hp1 & Hn1 & Hh1 & Hk1 & Hb1 & Hs1 & Ht1 & Hm1 & Hd1 & Hl1).
  set (st1 := set_mem s1 st).
  assert (∃ type, (match v_m v with
     | None => Done (0, v, st)
     | Some m =>
         st ← (if vhas MSG_PEEK v then Done st else upd_mem (upd m (set_nextpkt (v_nextrecord v))) st);
         x ← load m (net_mem st);
         Done (m_type x, (if m_type x =? MT_OOBDATA then set_vflags (Z.lor (v_flags v) MSG_OOB) v else v), st)
     end) = Done (type, v, st1) ∧ type ≠ MT_OOBDATA) as (type & E & Hty).
  { rewrite Hvm. destruct r1 as [|[m x] r1]; cbn [hd_id] in Hh1; rewrite <- Hh1 in *.
    - exists 0. split; [|done]. injection E1 as <-. unfold st1. by destruct st.
    - rewrite Hpk, Hnr. unfold upd_mem. rewrite E1, !bind_done. cbn [app] in Hp1. destruct (private_at _ _ _ _ Hp1) as (Hx & _).
      cbn [net_mem set_mem]. rewrite (load_spec _ _ _ Hx), bind_done. exists (m_type x). apply Hd1, Forall_cons in Hpd as [[_ Hty] _]. cbn in Hty.
      by rewrite (proj2 (Z.eqb_neq _ _) Hty). }
  assert (Hr : reading st1 i so r1 rs f).
  { split; try done; [by rewrite Hmb|]. unfold counts in *. by rewrite total_app, mb_total_app, Ht1, Hm1, <- total_app, <- mb_total_app. }
  assert (Ev : set_moff 0 (set_offset 0 v) = set_offset 0 v) by (unfold set_offset, set_moff; cbn; by rewrite Hmo).
  destruct (rcv_data_spec (turns (net_mem st1)) i type st1 so r1 rs f (set_offset 0 v) l u) as (st' & so' & r' & v' & E2 & Hrb); try done; auto.
  { by rewrite Hh1. }
  { pose proof (private_turns _ _ Hp1) as Hf. rewrite length_app in Hf. cbn. lia. }
  { change (net_mem st1) with s1. cbn [v_io set_offset]. by rewrite Ht1, Hb1. }
  exists st1, type, v, st', so', r', v'. split; [done|]. split; [by rewrite Ev|]. cbn [v_io set_offset] in Hrb. rewrite Ht1 in Hrb.
  destruct Hrb as [Hr' Hso' Hst' Hb' Hs' Hd' Ho' Hp' Hv' Hio' Hl']. split; try done.
  - rewrite Hb'. change (net_mem st1) with s1. by rewrite Hb1.
  - by apply (same_trans _ _ _ _ Hs1).
  - auto.
Qed.

Lemma queue_flags s b rs f fl : queue s b rs f → queue s (set_sbflags fl b) rs f.
Proof. by intros [? ? ? ? ?]. Qed.

(** The end: what a datagram has left is dropped, the rest of a stream stays. *)
Lemma rcv_drop_spec st i so r rs f v : reading st i so r rs f → recs_ok rs → Forall one_eor rs → plain_data r → vhas MSG_PEEK v = false →
  v_m v = hd_id r → v_nextrecord v = first rs →
  let atomic := isset PR_ATOMIC (pr_flags (so_proto so)) in
  ∃ st' b' rs', rcv_drop i v st =
      Done (if bool_decide (hd_id r ≠ None) && atomic then set_vflags (Z.lor (v_flags v) MSG_TRUNC) v else v, st') ∧
    socks st' !! i = Some (with_rcv b' so) ∧ queue (net_mem st') b' rs' f ∧
    abs (net_mem st') rs' = (if atomic || bool_decide (r = []) then abs (net_mem st) rs else abs (net_mem st) (r :: rs)) ∧ same (net_mem st) (net_mem st') f ∧
    same_marks (so_rcv so) b' ∧ (∀ j, j ≠ i → socks st' !! j = socks st !! j) ∧ proto st' = proto st ∧ woken st' = woken st.
Proof.
  intros [Hso Hp Hn Hk Hmb Hc] Hrs Ho Hpd Hpk Hvm Hnr atomic. unfold rcv_drop. rewrite (load_so_spec _ _ _ Hso), bind_done, Hvm. fold atomic.
  assert (Hqr : r ≠ [] → queue (net_mem st) (so_rcv so) (r :: rs) f).
  { intros Hne. split; cbn [concat]; [by rewrite <- app_assoc|by repeat split; auto|constructor; [by apply eors_none, plain_eors|done]|done|done]. }
  destruct r as [|a r].
  - cbn [hd_id]. rewrite bool_decide_false by (intros Hx; by apply Hx). cbn [andb]. rewrite bind_done, Hpk, (load_so_spec _ _ _ Hso), bind_done, Hvm.
    rewrite (bool_decide_true (hd_id [] = None)) by done. cbn [negb andb]. unfold set_rcv. rewrite (upd_so_spec _ _ _ _ Hso), bind_done, Hnr.
    eexists _, _, rs. split; [done|]. split; [apply lookup_insert_eq|]. split; [by split|]. rewrite orb_true_r. split; [done|]. split; [apply same_refl|].
    split; [done|]. split; [|done]. intros j Hj. cbn. by rewrite lookup_insert_ne.
  - assert (Hne : hd_id (a :: r) ≠ None) by by destruct a. rewrite bool_decide_true by done. cbn [andb]. destruct atomic eqn:Ea.
    + rewrite Hpk. destruct (sbdroprecord_spec (so_rcv so) (net_mem st) ((a :: r) :: rs) f) as (b' & s' & rs' & E & Hq & Hab & Hs & Hm); [by apply Hqr|].
      rewrite E, bind_done. unfold set_rcv. rewrite (upd_so_spec i _ _ so) by done. rewrite !bind_done.
      rewrite (load_so_spec i _ (with_rcv b' so)), bind_done by apply lookup_insert_eq. cbn [v_m set_vflags].
      rewrite Hvm, (bool_decide_false (hd_id (a :: r) = None)), andb_false_r, bind_done by done.
      eexists _, b', rs'. split; [done|]. split; [apply lookup_insert_eq|]. split; [done|]. split; [done|]. split; [done|]. split; [done|]. split; [|done].
      intros j Hj. cbn. by rewrite lookup_insert_ne.
    + rewrite bind_done, Hpk, (load_so_spec _ _ _ Hso), bind_done, Hvm, (bool_decide_false (hd_id (a :: r) = None)), andb_false_r, bind_done by done.
      exists st, (so_rcv so), ((a :: r) :: rs). split; [done|]. split; [by destruct so|]. split; [by apply Hqr|]. split; [done|]. split; [apply same_refl|done].
Qed.

(** A protocol that hears of the room changes neither the receive buffer nor the state of the socket. *)
Class ReadLaws : Prop := {
  rcvd_law (i : Z) (nam : option Z) (st : nst P) (so : socket) (rs : list (list (Z * mbuf))) :
    socks st !! i = Some so → queue (net_mem st) (so_rcv so) rs [] →
    ∃ e st' so', usrreq i PRU_RCVD None nam None st = Done (e, st') ∧ socks st' !! i = Some so' ∧ so_rcv so' = so_rcv so ∧ so_state so' = so_state so ∧
      queue (net_mem st') (so_rcv so) rs [] ∧ same (net_mem st) (net_mem st') (concat rs);
}.
(** It does not hear of it, or only the buffer matters. *)
Definition told (so : socket) : bool := isset PR_WANTRCVD (pr_flags (so_proto so)) && bool_decide (so_pcb so ≠ None).

Lemma rcv_tell_spec `{!ReadLaws} st i so rs f v : socks st !! i = Some so → queue (net_mem st) (so_rcv so) rs f → vhas MSG_PEEK v = false → told so = false ∨ f = [] →
  ∃ st' so', rcv_tell i v st = Done st' ∧ socks st' !! i = Some so' ∧ so_rcv so' = so_rcv so ∧ so_state so' = so_state so ∧ queue (net_mem st') (so_rcv so) rs f ∧
    abs (net_mem st') rs = abs (net_mem st) rs ∧ same (net_mem st) (net_mem st') f ∧ (told so = false → st' = st).
Proof.
  intros Hso Hq Hpk Hf. unfold rcv_tell. rewrite (load_so_spec _ _ _ Hso), bind_done, Hpk. cbn [negb andb]. fold (told so). destruct (told so) eqn:Et.
  - destruct Hf as [?| ->]; [done|]. destruct (rcvd_law i (if v_flags v =? 0 then None else Some (v_flags v)) st so rs Hso Hq) as (e & st' & so' & -> & Hso' & Hb & Hst & Hq' & Hs).
    rewrite bind_done. exists st', so'. split; [done|]. repeat (split; [done|]). split; [by apply same_abs|]. split; [constructor|done].
  - exists st, so. repeat (split; [done|]). split; [apply same_refl|done].
Qed.
End receive.
Arguments ReadLaws P {_}.

Section reads.
Context {P U : Type} `{ReadLaws P} `{UserMemLaws U}.
Implicit Types (st : nst P) (v : rvars (U := U)).

(** A read that has returned [n] bytes of the first record. *)
Record received (i : Z) (atomic : bool) (n : Z) (l : list (Z * Z)) (u : U) (st : nst P) (so : socket) (r : list (Z * mbuf))
    (rs : list (list (Z * mbuf))) (f : list (Z * mbuf)) (v : rvars (U := U)) (st' : nst P) (so' : socket) (rs' : list (list (Z * mbuf))) (v' : rvars (U := U)) : Prop := mk_received {
  rv_so : socks st' !! i = Some so';
  rv_queue : queue (net_mem st') (so_rcv so') rs' f;
  rv_left : if atomic then abs (net_mem st') rs' = abs (net_mem st) rs
            else contents (net_mem st') (concat rs') = drop (Z.to_nat n) (contents (net_mem st) (r ++ concat rs));
  rv_frame : same (net_mem st) (net_mem st') f;
  rv_state : so_state so' = so_state so ∨ so_state so' = clear SS_RCVATMARK (so_state so);
  rv_flags : sb_flags (so_rcv so') = clear SB_WANT (clear SB_LOCK (sb_flags (so_rcv so)));
  rv_others : told so = false → (∀ j, j ≠ i → socks st' !! j = socks st !! j) ∧ proto st' = proto st;
  rv_addr : v_addr v' = v_addr v ∧ v_error v' = 0;
  rv_io : v_io v' = io_moved n l u (v_io v);
  rv_whole : total r < uio_resid (v_io v) → v_flags v' = v_flags v;
  rv_trunc : atomic = true → uio_resid (v_io v) < total r → v_flags v' = Z.lor (v_flags v) MSG_TRUNC;
}.

Lemma isset_lor x y f : Z.land y f = 0 → isset f (Z.lor x y) = isset f x.
Proof. intros Hy. unfold isset. by rewrite Z.land_lor_distr_l, Hy, Z.lor_0_r. Qed.
Lemma unlock_rcv_spec st i so : socks st !! i = Some so →
  ∃ w, unlock_rcv i st = Done (mk_nst (<[i := with_rcv (unlocked (so_rcv so)) so]> (socks st)) (net_mem st) w (proto st)).
Proof.
  intros Hso. unfold unlock_rcv. rewrite (load_so_spec _ _ _ Hso), bind_done, (upd_so_spec _ _ _ _ Hso), bind_done.
  destruct (isset _ _); eexists; done.
Qed.

(** The bytes that a read leaves in the buffer. *)
Lemma bytes_left n s s' s3 r rs rs' r' : Z.of_nat (length (contents s r)) = total r → n <= total r → contents s' r' = drop (Z.to_nat n) (contents s r) →
  abs s' rs = abs s rs → abs s3 rs' = (if bool_decide (r' = []) then abs s' rs else abs s' (r' :: rs)) →
  contents s3 (concat rs') = drop (Z.to_nat n) (contents s (r ++ concat rs)).
Proof.
  intros Hl Hn Hr Hrs Ha. rewrite contents_app, drop_app_le, <- Hr by lia. rewrite (contents_abs s rs), <- Hrs, <- contents_abs, <- contents_app.
  change (r' ++ concat rs) with (concat (r' :: rs)). rewrite !contents_abs, Ha. case_bool_decide as E; [subst r'|]; done.
Qed.
(** What a read finds when it has passed the address and the control mbufs: [r] is the data of the first record. *)
Record at_record (st : nst P) (i : Z) (so : socket) (r : list (Z * mbuf)) (rs : list (list (Z * mbuf))) (f : list (Z * mbuf)) (v : rvars (U := U)) : Prop := mk_at_record {
  ar_so : socks st !! i = Some so;
  ar_private : private (net_mem st) (r ++ concat rs ++ f);
  ar_nexts : nexts r;
  ar_recs : recs_ok rs;
  ar_eors : Forall one_eor rs;
  ar_mb : sb_mb (so_rcv so) = hd_id r;
  ar_counts : counts (so_rcv so) (r ++ concat rs);
  ar_oob : so_oobmark so = 0;
  ar_told : told so = false ∨ f = [];
  ar_plain : plain v;
  ar_data : plain_data r;
  ar_next : v_nextrecord v = first rs;
  ar_m : v_m v = hd_id r;
  ar_error : v_error v = 0;
  ar_areas : io_ok (v_io v);
  ar_resid : 0 <= uio_resid (v_io v) < 2 ^ 31;
}.

Lemma rcv_record_spec st i so r rs f v l u : at_record st i so r rs f v →
  let n := Z.min (uio_resid (v_io v)) (total r) in let atomic := isset PR_ATOMIC (pr_flags (so_proto so)) in
  scatter (uio_iov (v_io v)) (uio_segflg (v_io v)) (take (Z.to_nat n) (contents (net_mem st) r)) (uio_mem (v_io v)) = Some (l, u) →
  v_orig v = 0 ∨ (v_orig v = uio_resid (v_io v) ∧ 0 < n) →
  ∃ st' so' rs' v', rcv_record i v st = Done (Returns, false, v', st') ∧ received i atomic n l u st so r rs f v st' so' rs' v'.
Proof.
  intros [Hso Hp Hn Hrs Ho Hmb Hc Hoob Htold Hpl Hpd Hnr Hvm Hve Hio Hres] n atomic Hsc Horig.
  destruct (rcv_body st i so r rs f v l u) as (st1 & type & v1 & st2 & so2 & r2 & v2 & E1 & E2 & Hrb); try done.
  destruct (contents_private _ _ _ Hp) as [Hct Ht0].
  destruct Hrb as [Hr2 [Eso2 Hm2] Hst2 Hb2 Hs2 Hd2 Ho2 [Hp2 _] ((Hf2 & _ & Hor2 & _ & Ha2 & _) & Hvm2 & Hnr2 & He2) Hio2 Hend2].
  assert (Hpr : so_proto so2 = so_proto so ∧ told so2 = told so) by (by rewrite Eso2). destruct Hpr as [Hpr Htl].
  assert (Hpk2 : vhas MSG_PEEK v2 = false) by (unfold vhas; rewrite Hf2; apply Hpl).
  destruct (rcv_drop_spec st2 i so2 r2 rs f v2 Hr2) as (st3 & b3 & rs3 & E3 & Hso3 & Hq3 & Ha3 & Hs3 & Hm3 & Ho3 & Hp3 & _); auto.
  rewrite Hpr in E3, Ha3. fold atomic in E3, Ha3.
  set (v3 := if bool_decide (hd_id r2 ≠ None) && atomic then set_vflags (Z.lor (v_flags v2) MSG_TRUNC) v2 else v2) in *.
  assert (Hv3 : v_orig v3 = v_orig v ∧ v_io v3 = io_moved n l u (v_io v) ∧ v_addr v3 = v_addr v ∧ v_error v3 = 0 ∧ vhas MSG_PEEK v3 = false).
  { unfold v3. destruct (bool_decide _ && atomic); cbn; rewrite Hor2, Hio2, Ha2, He2; repeat (split; [done|]); [|done].
    change (vhas MSG_PEEK (set_vflags (Z.lor (v_flags v2) MSG_TRUNC) v2)) with (isset MSG_PEEK (Z.lor (v_flags v2) MSG_TRUNC)). by rewrite isset_lor. }
  destruct Hv3 as (Hor3 & Hio3 & Ha3' & He3 & Hpk3).
  destruct (rcv_tell_spec st3 i (with_rcv b3 so2) rs3 f v3 Hso3 Hq3 Hpk3) as (st4 & so4 & E4 & Hso4 & Hb4 & Hst4 & Hq4 & Ha4 & Hs4 & Hun4).
  { change (told (with_rcv b3 so2)) with (told so2). by rewrite Htl. }
  destruct (unlock_rcv_spec st4 i so4 Hso4) as [w E5].
  unfold rcv_record. rewrite E1, bind_done, E2, bind_done, E3, bind_done, E4, bind_done, (load_so_spec _ _ _ Hso4), bind_done, E5, bind_done. clear E1 E2 E3 E4 E5.
  apply same_app in Hs2 as [Hs2r Hs2f].
  assert ((v_orig v3 =? uio_resid (v_io v3)) && negb (v_orig v3 =? 0) = false) as ->.
  { rewrite Hor3, Hio3. cbn. destruct Horig as [-> | [-> Hn0]]; [by rewrite andb_false_r|]. by rewrite (proj2 (Z.eqb_neq _ (_ - n))) by lia. }
  eexists _, _, rs3, v3. split; [done|]. split.
  - apply lookup_insert_eq.
  - rewrite Hb4. by apply queue_flags.
  - cbn [net_mem]. destruct atomic; cbn [orb] in Ha3; [by rewrite Ha4, Ha3, (same_abs _ _ _ Hs2r)|].
    apply (bytes_left n _ (net_mem st2) _ r rs rs3 r2); try done; [lia|by apply same_abs|by rewrite Ha4].
  - eapply same_trans; [done|]. by eapply same_trans.
  - cbn. rewrite Hst4. done.
  - destruct Hm2 as (_ & _ & _ & Hm2), Hm3 as (_ & _ & _ & Hm3). cbn. rewrite Hb4. cbn. by rewrite Hm3, Hm2.
  - intros Ht. rewrite Hun4 by (change (told (with_rcv b3 so2)) with (told so2); by rewrite Htl). split; [|by cbn; rewrite Hp3].
    intros j Hj. cbn. rewrite lookup_insert_ne, Ho3, Ho2 by done. done.
  - done.
  - done.
  - intros Hlt. unfold v3. destruct Hend2 as [->|Hend2]; [cbn; by rewrite Hf2|]. rewrite Hio2 in Hend2. cbn in Hend2. lia.
  - intros Hat Hlt. unfold v3. rewrite Hat, bool_decide_true; [cbn; by rewrite Hf2|]. destruct r2 as [|[] ?]; [|done].
    cbn in Hb2. apply (f_equal length) in Hb2. rewrite length_drop in Hb2. cbn in Hb2. lia.
Qed.
End reads.

Section soreceive.
Context {P U : Type} `{ReadLaws P} `{UserMemLaws U}.
Implicit Types (st : nst P) (v : rvars (U := U)).

(** The flags that the read works with, and the ordinary ones. *)
Definition rflags (flags : option Z) : Z := match flags with None => 0 | Some f => clear MSG_EOR f end.
Definition ordinary (fl : Z) : Prop := isset MSG_OOB fl = false ∧ isset MSG_PEEK fl = false ∧ isset MSG_WAITALL fl = false.
(** Nobody else reads, and there is no mark of urgent data. *)
Definition idle (so : socket) : Prop := isset SB_LOCK (sb_flags (so_rcv so)) = false ∧ so_oobmark so = 0 ∧ sohas SS_ISCONFIRMING so = false.
Definition data_record (l : list (Z * mbuf)) : Prop := plain_data l ∧ Forall (λ a, m_type a.2 ≠ MT_CONTROL) l.

Lemma rflags_eor flags : isset MSG_EOR (rflags flags) = false.
Proof. destruct flags as [f|]; [|done]. unfold rflags, clear, isset. rewrite <- Z.land_assoc. change (Z.land (Z.lnot MSG_EOR) MSG_EOR) with 0. by rewrite Z.land_0_r. Qed.

(** What [soreceive] sets out with. *)
Definition start (io : uio U) (flags : option Z) : rvars (U := U) := mk_rvars None None (rflags flags) 0 0 0 (uio_resid io) None None None None io.

Lemma lock_rcv_spec st i so : socks st !! i = Some so →
  lock_rcv i st = Done (set_socks (<[i := with_rcv (set_sbflags (Z.lor (sb_flags (so_rcv so)) SB_LOCK) (so_rcv so)) so]> (socks st)) st).
Proof. intros Hso. unfold lock_rcv. by rewrite (upd_so_spec _ _ _ _ Hso). Qed.

(** The address is taken off the buffer and handed to the caller. *)
Lemma take_front_spec st i so m x r l f v : socks st !! i = Some so → private (net_mem st) ((m, x) :: r ++ l ++ f) → nexts ((m, x) :: r) →
  counts (so_rcv so) ((m, x) :: r ++ l) →
  ∃ st' so', take_front i m x v st = Done (set_m (hd_id r) v, st') ∧ socks st' = <[i := so']> (socks st) ∧
    private (net_mem st') (r ++ l ++ (m, set_next None x) :: f) ∧
    so' = with_rcv (so_rcv so') so ∧ same_marks (so_rcv so) (so_rcv so') ∧ sb_mb (so_rcv so') = hd_id r ∧ counts (so_rcv so') (r ++ l) ∧
    same (net_mem st) (net_mem st') (r ++ l ++ f) ∧ mbytes (net_mem st') (set_next None x) = mbytes (net_mem st) x ∧ proto st' = proto st.
Proof.
  intros Hso Hp [Hx Hn] Hc. unfold take_front. rewrite (load_so_spec _ _ _ Hso), bind_done. unfold set_rcv. rewrite (upd_so_spec _ _ _ _ Hso), bind_done.
  destruct (private_set _ _ _ _ (set_next None) Hp ltac:(done) ltac:(done) ltac:(done)) as (s' & E & Hp' & Hs & Hb).
  unfold upd_mem. cbn [net_mem set_socks]. rewrite E, !bind_done, Hx. eexists _, _. split; [done|]. split; [done|]. split.
  { cbn [net_mem set_mem set_socks]. by rewrite !app_assoc, <- Permutation_middle, <- app_assoc. }
  split; [done|]. split; [done|]. split; [done|]. split; [exact (counts_free _ _ _ _ Hc)|done].
Qed.

(** Behind the lock and the test for enough data. *)
Lemma rcv_restart_go fuel st i want so v m : socks st !! i = Some so → isset SB_LOCK (sb_flags (so_rcv so)) = false → sb_mb (so_rcv so) = Some m →
  let so' := with_rcv (set_sbflags (Z.lor (sb_flags (so_rcv so)) SB_LOCK) (so_rcv so)) so in
  let st' := set_socks (<[i := so']> (socks st)) st in
  rcv_ready i (set_error 0 v) st' = (Done (inr true), st') →
  rcv_restart (Datatypes.S fuel) i want None v st =
    (x ← load m (net_mem st);
     '(v, st) ← rcv_addr i want (set_nextrecord (m_nextpkt x) (set_m (Some m) (set_error 0 v))) st';
     '(v, st) ← rcv_control (turns (net_mem st)) i None v st;
     '(r, again, v, st) ← rcv_record i v st;
     if (again : bool) then rcv_restart fuel i want None v st else Done (r, v, st)).
Proof.
  intros Hso Hl Hm so' st' Hr. cbn [rcv_restart]. rewrite (load_so_spec _ _ _ Hso), bind_done, Hl. cbn [andb].
  rewrite (lock_rcv_spec _ _ _ Hso), bind_done. fold so'. fold st'. rewrite Hr. cbv iota beta. rewrite bind_done, (load_so_spec i _ so'), bind_done by apply lookup_insert_eq.
  unfold so'. cbn [so_rcv with_rcv sb_mb set_sbflags]. rewrite Hm. cbn [deref]. by rewrite bind_done.
Qed.
Lemma rcv_control_none st i p v m r : v_m v = hd_id r → private (net_mem st) (r ++ m) → Forall (λ a, m_type a.2 ≠ MT_CONTROL) r →
  rcv_control (turns (net_mem st)) i p v st = Done (v, st).
Proof.
  intros Hm Hp Hc. unfold turns. cbn [rcv_control]. rewrite Hm. destruct r as [|[k x] r]; [done|]. cbn [hd_id app] in *.
  destruct (private_at _ _ _ _ Hp) as (Hk & _). rewrite (load_spec _ _ _ Hk), bind_done. apply Forall_cons in Hc as [Hc _]. cbn in Hc.
  by rewrite (proj2 (Z.eqb_neq _ _) Hc).
Qed.
Lemma rcv_ready_enough i v st so m x : socks st !! i = Some so → sb_mb (so_rcv so) = Some m → mbufs (net_mem st) !! m = Some x →
  isset PR_ATOMIC (pr_flags (so_proto so)) = true ∨
    (vhas MSG_WAITALL v = false ∧ (u32 (uio_resid (v_io v)) <= sb_cc (so_rcv so) ∨ u32 (sb_lowat (so_rcv so)) <= sb_cc (so_rcv so))) →
  rcv_ready i v st = (Done (inr true), st).
Proof.
  intros Hso Hm Hx He. unfold rcv_ready. rewrite (load_so_spec _ _ _ Hso), Hm, (load_spec _ _ _ Hx), bind_done.
  destruct He as [->|[-> Hle]]; [by rewrite andb_false_r|]. rewrite andb_false_l, orb_false_r.
  destruct Hle as [Hle%Z.ltb_ge|Hle%Z.ltb_ge]; rewrite Hle; by rewrite andb_false_r.
Qed.
Lemma clear_locked f : isset SB_LOCK f = false → clear SB_LOCK (Z.lor f SB_LOCK) = f.
Proof.
  unfold clear, isset. intros Hf%negb_false_iff%Z.eqb_eq. apply Z.bits_inj'. intros n Hn0.
  assert (Z.testbit (Z.land f SB_LOCK) n = false) as Hn by (by rewrite Hf, Z.bits_0). rewrite Z.land_spec in Hn.
  rewrite Z.land_spec, Z.lnot_spec, Z.lor_spec by lia. destruct (Z.testbit f n), (Z.testbit SB_LOCK n); done.
Qed.

(** C28: [soreceive] on a datagram socket ([PR_ATOMIC], [PR_ADDR], a protocol that does not ask to be told of reads) that nobody else reads, into non-null areas of the
    kernel's that take the bytes (a [uio] with [UIO_SYSSPACE]; a process's areas make [copy_to_user] report an error, see [soreceive_user_loses]), without [MSG_OOB], [MSG_PEEK]
    and [MSG_WAITALL], when the first record is an address followed by plain data: the mbuf with the sender's address is handed to the caller, the
    bytes of the datagram, as many as the caller asked for, are laid out over the areas, what is left of it is
    dropped with [MSG_TRUNC] set, the error is 0, and all the other datagrams stay as they were. *)
Theorem soreceive_datagram st i so j nm r rs f io flags l u :
  socks st !! i = Some so → queue (net_mem st) (so_rcv so) (((j, nm) :: r) :: rs) f → idle so → data_record r →
  isset PR_ADDR (pr_flags (so_proto so)) = true → isset PR_ATOMIC (pr_flags (so_proto so)) = true → told so = false →
  ordinary (rflags flags) → io_ok io → 0 <= uio_resid io < 2 ^ 31 →
  let n := Z.min (uio_resid io) (total r) in
  scatter (uio_iov io) (uio_segflg io) (take (Z.to_nat n) (contents (net_mem st) r)) (uio_mem io) = Some (l, u) →
  ∃ st' so' rs' v', soreceive 1 i true io None None flags st = Done (Returns, v', st') ∧
    v_error v' = 0 ∧ v_addr v' = Some j ∧ v_io v' = io_moved n l u io ∧
    (total r < uio_resid io → v_flags v' = rflags flags) ∧ (uio_resid io < total r → v_flags v' = Z.lor (rflags flags) MSG_TRUNC) ∧
    socks st' !! i = Some so' ∧ queue (net_mem st') (so_rcv so') rs' ((j, set_next None nm) :: f) ∧ abs (net_mem st') rs' = abs (net_mem st) rs ∧
    mbytes (net_mem st') (set_next None nm) = mbytes (net_mem st) nm ∧ same (net_mem st) (net_mem st') f ∧
    sb_flags (so_rcv so') = clear SB_WANT (sb_flags (so_rcv so)).
Proof.
  intros Hso Hq (Hl & Hoob & Hcf) [Hpd Hnc] Had Hat Ht (Hno & Hnp & Hnw) Hio Hres n Hsc. pose proof Hq as [Hp (_ & Hn & Hk & Hrs) [_ Ho]%Forall_cons Hmb Hc].
  cbn [concat hd_id nextpkt_of first] in *. cbn [app] in Hp, Hc. rewrite <- app_assoc in Hp.
  destruct (private_at _ _ _ _ Hp) as (Hj & _). unfold soreceive. rewrite (load_so_spec _ _ _ Hso), bind_done. fold (rflags flags). rewrite Hno, Hcf. cbn [andb]. rewrite bind_done.
  rewrite (rcv_restart_go 0 st i true so _ j); [|done|done|done|eapply rcv_ready_enough; [apply lookup_insert_eq|done|done|by left]].
  rewrite (load_spec _ _ _ Hj), bind_done. set (so1 := with_rcv _ so). set (st1 := set_socks _ st).
  assert (Hso1 : socks st1 !! i = Some so1) by apply lookup_insert_eq.
  unfold rcv_addr. rewrite (load_so_spec _ _ _ Hso1), bind_done. change (so_proto so1) with (so_proto so). rewrite Had. cbn [negb v_m set_orig set_nextrecord set_m deref].
  rewrite bind_done. change (net_mem st1) with (net_mem st). rewrite (load_spec _ _ _ Hj), bind_done.
  set (v0 := mk_rvars _ _ _ _ _ _ _ _ _ _ _ io). set (v1 := set_addr _ _).
  assert (Hpk1 : vhas MSG_PEEK v0 = false) by done. change (vhas MSG_PEEK _) with (vhas MSG_PEEK v0). rewrite Hpk1.
  destruct (take_front_spec st1 i so1 j nm r (concat rs) f v1 Hso1 Hp Hn Hc) as (st2 & so2 & E2 & Hso2 & Hp2 & Eso2 & Hm2 & Hmb2 & Hc2 & Hs2 & Hb2 & Hpr2).
  rewrite E2, bind_done. rewrite (rcv_control_none st2 i _ _ (concat rs ++ (j, set_next None nm) :: f) r), bind_done by done.
  assert (Hlk : socks st2 !! i = Some so2) by (rewrite Hso2; apply lookup_insert_eq).
  assert (Hcon : contents (net_mem st2) r = contents (net_mem st) r) by (apply same_app in Hs2 as [Hs2 _]; by apply same_contents_of).
  assert (Hpr : so_proto so2 = so_proto so ∧ told so2 = told so ∧ so_oobmark so2 = so_oobmark so) by (by rewrite Eso2). destruct Hpr as (Hpr & Htl & Hoo).
  destruct (rcv_record_spec st2 i so2 r rs ((j, set_next None nm) :: f) (set_m (hd_id r) v1) l u) as (st3 & so3 & rs3 & v3 & E3 & Hrv).
  { split; try done; [by apply Hn|by rewrite Hoo|by rewrite Htl; left|]. split; [done|]. split; [apply rflags_eor|done]. }
  { by rewrite Hcon. }
  { by left. }
  rewrite E3, bind_done. destruct Hrv as [Hso3 Hq3 Hl3 Hf3 _ Hfl3 _ [Ha3 He3] Hi3 Hw3 Ht3]. apply Forall_cons in Hf3 as [Hnm3 Hf3].
  rewrite app_assoc in Hs2. apply same_app in Hs2 as [Hs2 Hsf2]. apply same_app in Hs2 as [_ Hs2].
  exists st3, so3, rs3, v3. rewrite Hpr, Hat in *. split; [done|]. split; [done|]. split; [done|]. split; [done|]. split; [done|]. split; [by apply Ht3|].
  split; [done|]. split; [done|]. split; [by rewrite Hl3, (same_abs _ _ _ Hs2)|]. split; [cbn in Hnm3; by rewrite Hnm3|]. split; [by eapply same_trans|].
  rewrite Hfl3. destruct Hm2 as (_ & _ & _ & ->). unfold so1. cbn [so_rcv with_rcv sb_flags set_sbflags]. by rewrite clear_locked.
Qed.

(** C29: [soreceive] on a stream socket that nobody else reads and that has no urgent mark, into non-null areas of the kernel's that take the bytes (a [uio] with [UIO_SYSSPACE]),
    without [MSG_OOB], [MSG_PEEK] and [MSG_WAITALL], when the first record is plain data with at least one byte, and the buffer has what the caller
    asked for, or its low water mark: the call does not sleep; the bytes returned are the first ones of that record (a stream's buffer has no other), laid out over the areas in order, the buffer keeps
    exactly the rest of the stream, and the error is 0, whether or not the protocol is told of the room. *)
Theorem soreceive_stream st i so r rs want io flags l u :
  socks st !! i = Some so → queue (net_mem st) (so_rcv so) (r :: rs) [] → idle so → data_record r → 0 < total r →
  isset PR_ADDR (pr_flags (so_proto so)) = false → isset PR_ATOMIC (pr_flags (so_proto so)) = false →
  u32 (uio_resid io) <= sb_cc (so_rcv so) ∨ u32 (sb_lowat (so_rcv so)) <= sb_cc (so_rcv so) →
  ordinary (rflags flags) → io_ok io → 0 <= uio_resid io < 2 ^ 31 →
  let n := Z.min (uio_resid io) (total r) in
  scatter (uio_iov io) (uio_segflg io) (take (Z.to_nat n) (contents (net_mem st) (concat (r :: rs)))) (uio_mem io) = Some (l, u) →
  ∃ st' so' rs' v', soreceive 1 i want io None None flags st = Done (Returns, v', st') ∧ v_error v' = 0 ∧ v_io v' = io_moved n l u io ∧
    socks st' !! i = Some so' ∧ queue (net_mem st') (so_rcv so') rs' [] ∧
    contents (net_mem st') (concat rs') = drop (Z.to_nat n) (contents (net_mem st) (concat (r :: rs))) ∧
    sb_flags (so_rcv so') = clear SB_WANT (sb_flags (so_rcv so)).
Proof.
  intros Hso Hq (Hl & Hoob & Hcf) [Hpd Hnc] Ht0 Had Hat Hen (Hno & Hnp & Hnw) Hio Hres n Hsc. pose proof Hq as [Hp (Hne & Hn & Hk & Hrs) [_ Ho]%Forall_cons Hmb Hc].
  cbn [concat first] in *. rewrite <- app_assoc in Hp. destruct (contents_private _ _ _ Hp) as [Hct _].
  rewrite contents_app, take_app_le in Hsc by lia.
  assert (∃ j x r0, r = (j, x) :: r0) as (j & x & r0 & Er) by (destruct r as [|[j x] r0]; [done|by exists j, x, r0]).
  assert (Hj : mbufs (net_mem st) !! j = Some x) by (rewrite Er in Hp; by apply (private_at _ _ _ _ Hp)).
  assert (Hmj : sb_mb (so_rcv so) = Some j) by (by rewrite Hmb, Er).
  unfold soreceive. rewrite (load_so_spec _ _ _ Hso), bind_done. fold (rflags flags). rewrite Hno, Hcf. cbn [andb]. rewrite bind_done.
  rewrite (rcv_restart_go 0 st i want so _ j); [|done..|eapply rcv_ready_enough; [apply lookup_insert_eq|done|done|by right]].
  rewrite (load_spec _ _ _ Hj), bind_done. set (so1 := with_rcv _ so). set (st1 := set_socks _ st).
  assert (Hso1 : socks st1 !! i = Some so1) by apply lookup_insert_eq.
  unfold rcv_addr. rewrite (load_so_spec _ _ _ Hso1), bind_done. change (so_proto so1) with (so_proto so). rewrite Had. cbn [negb]. rewrite bind_done.
  rewrite (rcv_control_none st1 i _ _ (concat rs ++ []) r), bind_done by (done || by rewrite Er).
  set (v1 := set_nextrecord _ _).
  destruct (rcv_record_spec st1 i so1 r rs [] v1 l u) as (st3 & so3 & rs3 & v3 & E3 & Hrv).
  { split; try done; [by right| |by rewrite Er in Hk|by rewrite Er]. split; [done|]. split; [apply rflags_eor|done]. }
  { done. }
  { cbn. destruct (decide (uio_resid io = 0)); [by left|right; split; [done|lia]]. }
  rewrite E3, bind_done. destruct Hrv as [Hso3 Hq3 Hl3 Hf3 _ Hfl3 _ [Ha3 He3] Hi3 _ _].
  change (so_proto so1) with (so_proto so) in Hl3. rewrite Hat in Hl3.
  exists st3, so3, rs3, v3. split; [done|]. split; [done|]. split; [done|]. split; [done|]. split; [done|]. split; [done|].
  rewrite Hfl3. unfold so1. cbn [so_rcv with_rcv sb_flags set_sbflags]. by rewrite clear_locked.
Qed.
End soreceive.

(** ** A memory, and two sockets *)

(** A process's memory, byte by byte; an address without an entry is not mapped. *)
Fixpoint poke (p : Z) (d : bytes) (u : gmap Z Z) : option (gmap Z Z) :=
  match d with [] => Some u | b :: d => _ ← u !! u32 p; poke (p + 1) d (<[u32 p := b]> u) end.
Definition peek (p n : Z) (u : gmap Z Z) : option bytes := mapM (λ k, u !! u32 (p + k)) (seqZ 0 n).
#[export] Instance user_map : UserMem (gmap Z Z) := {| u_write _ p d u := poke p d u; u_read _ p n u := peek p n u |}.

Lemma poke_u32 p q d u : u32 p = u32 q → poke p d u = poke q d u.
Proof.
  revert p q u. induction d as [|b d IH]; intros p q u Hpq; [done|]. cbn [poke]. rewrite Hpq. destruct (u !! u32 q); [|done]. apply IH.
  by rewrite <- (u32_add p), <- (u32_add q), Hpq.
Qed.
#[export] Instance user_map_laws : UserMemLaws (gmap Z Z).
Proof.
  split; [done|]. intros s p a b u. cbn [u_write user_map]. revert p u. induction a as [|x a IH]; intros p u.
  - cbn [app poke mbind option_bind length]. apply poke_u32. by rewrite u32_idem, Z.add_0_r.
  - cbn [app poke]. destruct (u !! u32 p); [|done]. cbn [mbind option_bind]. rewrite IH. destruct (poke (p + 1) a _); [|done]. cbn [mbind option_bind].
    apply poke_u32. rewrite !u32_idem. f_equal. cbn [length]. lia.
Qed.
#[export] Instance null_reads : ReadLaws unit.
Proof. split. intros i nam st so rs Hso Hq. exists 0, st, so. repeat (split; [done|]). apply same_refl. Qed.

(** A datagram with the bytes 4, 5 and its address; the same mbuf as a stream. *)
Definition demo_name : mbuf := mk_mbuf (Some 2) None 2 (InMbuf 1 0) MT_SONAME 0 0 0 None 0 ([10; 1] ++ replicate 106 0).
Definition demo_bytes : mbuf := mk_mbuf None None 2 (InMbuf 2 0) MT_DATA 0 0 0 None 0 ([4; 5] ++ replicate 106 0).
Definition demo_mem : mst := mk_mst (<[1 := demo_name]> (<[2 := demo_bytes]> ∅)) ∅ 2 0 [].
Definition demo_udp : protosw := mk_protosw 2 17 (Z.lor PR_ATOMIC PR_ADDR) true false.
Definition demo_rcv (cc mbcnt mb : Z) : sockbuf := mk_sockbuf cc 8192 mbcnt 16384 1 (Some mb) 0.
Definition demo_so (p : protosw) (b : sockbuf) : socket := mk_socket 2 0 0 SS_ISCONNECTED (Some 100) p None None None 0 0 0 0 0 0 0 b zero_sockbuf 0 0.
Definition demo_reader (p : protosw) (b : sockbuf) : nst unit := mk_nst {[1 := demo_so p b]} demo_mem [] tt.
Definition demo_user : gmap Z Z := {[1000 := 0; 2000 := 0; 2001 := 0]}.
Definition demo_io (resid : Z) : uio (gmap Z Z) := mk_uio [(1000, 1); (2000, 2)] 0 resid UIO_SYSSPACE demo_user.
Lemma demo_io_ok resid : io_ok (demo_io resid).
Proof. split; [|done]. repeat constructor; cbn; lia. Qed.

Lemma demo_datagram : queue demo_mem (demo_rcv 4 256 1) [[(1, demo_name); (2, demo_bytes)]] [].
Proof.
  split; [split| | | |]; try done.
  - by repeat constructor.
  - apply (bool_decide_eq_true_1 _). by vm_compute.
  - unfold mbuf_ok. repeat constructor; vm_compute; congruence.
  - repeat constructor; by eexists 0.
  - by repeat constructor.
  - by repeat constructor.
Qed.
Lemma demo_stream : queue demo_mem (demo_rcv 2 128 2) [[(2, demo_bytes)]] [].
Proof.
  split; [split| | | |]; try done.
  - by repeat constructor.
  - apply (bool_decide_eq_true_1 _). by vm_compute.
  - unfold mbuf_ok. repeat constructor; vm_compute; congruence.
  - repeat constructor; by eexists 0.
  - by repeat constructor.
  - by repeat constructor.
Qed.

Lemma soreceive_datagram_witness : ∃ st' so' rs' v', soreceive 1 1 true (demo_io 1) None None None (demo_reader demo_udp (demo_rcv 4 256 1)) = Done (Returns, v', st') ∧
  v_error v' = 0 ∧ v_addr v' = Some 1 ∧ v_io v' = io_moved 1 [(1001, 0); (2000, 2)] (<[1000 := 4]> demo_user) (demo_io 1) ∧
  (2 < 1 → v_flags v' = 0) ∧ (1 < 2 → v_flags v' = MSG_TRUNC) ∧
  socks st' !! 1 = Some so' ∧ queue (net_mem st') (so_rcv so') rs' [(1, set_next None demo_name)] ∧ abs (net_mem st') rs' = [] ∧
  mbytes (net_mem st') (set_next None demo_name) = [10; 1] ∧ same demo_mem (net_mem st') [] ∧ sb_flags (so_rcv so') = 0.
Proof.
  apply (soreceive_datagram (demo_reader demo_udp (demo_rcv 4 256 1)) 1 (demo_so demo_udp (demo_rcv 4 256 1)) 1 demo_name [(2, demo_bytes)] [] [] (demo_io 1) None
    [(1001, 0); (2000, 2)] (<[1000 := 4]> demo_user)); try done.
  - apply demo_datagram.
  - by repeat constructor.
  - apply demo_io_ok.
Defined.

Lemma soreceive_stream_witness : ∃ st' so' rs' v', soreceive 1 1 false (demo_io 3) None None None (demo_reader demo_tcp (demo_rcv 2 128 2)) = Done (Returns, v', st') ∧
  v_error v' = 0 ∧ v_io v' = io_moved 2 [(2001, 1)] (<[2000 := 5]> (<[1000 := 4]> demo_user)) (demo_io 3) ∧
  socks st' !! 1 = Some so' ∧ queue (net_mem st') (so_rcv so') rs' [] ∧ contents (net_mem st') (concat rs') = [] ∧ sb_flags (so_rcv so') = 0.
Proof.
  apply (soreceive_stream (demo_reader demo_tcp (demo_rcv 2 128 2)) 1 (demo_so demo_tcp (demo_rcv 2 128 2)) [(2, demo_bytes)] [] false (demo_io 3) None
    [(2001, 1)] (<[2000 := 5]> (<[1000 := 4]> demo_user))); try done.
  - apply demo_stream.
  - by repeat constructor.
  - by right.
  - apply demo_io_ok.
Defined.

(** The same read for a process: [copy_to_user] returns 2, which [uiomove] takes for an error, so the [uio] is not advanced.  The bytes have been copied and are
    dropped from the buffer; [soreceive] finds that nothing was transferred, starts again, and sleeps for more. *)
Definition user_io (resid : Z) : uio (gmap Z Z) := mk_uio [(2000, 2)] 0 resid UIO_USERSPACE demo_user.
Lemma soreceive_user_loses :
  uiomove_out [4; 5] (user_io 2) = Done (2, io_set (<[2001 := 5]> (<[2000 := 4]> demo_user)) (user_io 2)) ∧
  ('(r, v, st) ← soreceive 2 1 false (user_io 2) None None None (demo_reader demo_tcp (demo_rcv 2 128 2));
   so ← load_so 1 st; Done (r, v_error v, uio_resid (v_io v), sb_cc (so_rcv so), sb_mb (so_rcv so))) = Done (Asleep, 0, 2, 0, None).
Proof. by vm_compute. Qed.
