(* ===== verification/SoSend.v ===== *)
(** * Writing to sockets ([Kernel/net/uipc_socket.c])

    [sosend] cuts the bytes of the caller's [uio] into mbufs and hands them to the protocol with [PRU_SEND]: one mbuf at a
    time for a stream, one packet for a protocol with [PR_ATOMIC].  As in [SockIo], a call that has to wait for room ends with
    [Asleep] and is made again.

    [MCLGET] that fails leaves [m] NULL: the next access faults, as in the code.  [max_hdr] is a parameter; a protocol with the laws
    [SendLaws] is what the theorem needs of [PRU_SEND], and [log_proto] is one. *)

From S2P Require Import Prelude Mbuf Sockbuf Socket SockIo.

Section sosend.
Context {P U : Type} `{ProtoOps P} `{UserMem U} (max_hdr : Z).
Implicit Types st : nst P.

(** The local variables: [top], [mp] ([None] is [&top]), [resid], [space], [clen], [control], and [uio]. *)
Record svars : Type := mk_svars {
  w_top : option Z; w_mp : option Z; w_resid : Z; w_space : Z; w_clen : Z; w_control : option Z; w_io : option (uio U) }.
Definition set_wtop t p v := mk_svars t p (w_resid v) (w_space v) (w_clen v) (w_control v) (w_io v).
Definition set_wresid r v := mk_svars (w_top v) (w_mp v) r (w_space v) (w_clen v) (w_control v) (w_io v).
Definition set_wspace n v := mk_svars (w_top v) (w_mp v) (w_resid v) n (w_clen v) (w_control v) (w_io v).
Definition set_wio io v := mk_svars (w_top v) (w_mp v) (w_resid v) (w_space v) (w_clen v) (w_control v) io.
Definition set_sent v := mk_svars None None (w_resid v) (w_space v) 0 None (w_io v).

(** How the call ends. *)
Inductive snd_end : Type := Sent | Waits.

Definition sosendallatonce (so : socket) : bool := isset PR_ATOMIC (pr_flags (so_proto so)).

(** A new mbuf and the room in it: its length is what will be put there. *)
Definition send_room (atomic : bool) (v : svars) (s : mst) : outcome (Z * Z * svars * mst) :=
  let first := bool_decide (w_top v = None) in
  '(m, mlen, s) ← (if first then
                     let '(m, s) := m_gethdr MT_DATA s in m ← deref m; s ← upd m (set_pkthdr 0 0) s; Done (m, MHLEN, s)
                   else let '(m, s) := m_get MT_DATA s in m ← deref m; Done (m, MLEN, s));
  '(ext, m, s) ← (if (MINCLSIZE <=? w_resid v) && (MCLBYTES <=? w_space v) then
                    '(c, s) ← m_clget (Some m) s; m ← deref c; x ← load m s; Done (has M_EXT x, m, s)
                  else Done (false, m, s));
  if (ext : bool) then
    '(len, s) ← (if atomic && first then s ← upd m (λ x, set_data (shift (m_data x) max_hdr) x) s; Done (Z.min (MCLBYTES - max_hdr) (w_resid v), s)
                 else Done (Z.min MCLBYTES (w_resid v), s));
    Done (m, len, set_wspace (u32 (w_space v - MCLBYTES)) v, s)
  else
    let len := Z.min (Z.min mlen (w_resid v)) (w_space v) in
    s ← (if atomic && first && (len <? mlen) then
           (* [MH_ALIGN] *)
           upd m (λ x, set_data (shift (m_data x) (Z.land (MHLEN - len) (Z.lnot 3))) x) s
         else Done s);
    Done (m, len, set_wspace (u32 (w_space v - len)) v, s).

(** One mbuf of the packet. *)
Definition send_one (atomic : bool) (io : uio U) (v : svars) (s : mst) : outcome (Z * svars * mst) :=
  '(m, len, v, s) ← send_room atomic v s;
  x ← load m s;
  old ← copy_out (m_data x) len s;
  '(e, d, io) ← uiomove_in old io;
  s ← copy_in (m_data x) d s;
  s ← upd m (set_len len) s;
  '(top, s) ← link (w_mp v) (Some m) (w_top v) s;
  t ← deref top;
  s ← upd t (λ x, set_pkthdr (pkt_len x + len) (rcvif x) x) s;
  Done (e, set_wtop top (Some m) (set_wresid (u32 (uio_resid io)) (set_wio (Some io) v)), s).
(** [if (flags & MSG_EOR) top->m_flags |= M_EOR]. *)
Definition mark_end (flags : Z) (v : svars) (s : mst) : outcome mst :=
  if isset MSG_EOR flags then t ← deref (w_top v); upd t (λ x, set_flags (Z.lor (m_flags x) M_EOR) x) s else Done s.
(** The innermost loop. *)
Fixpoint fill_loop (fuel : nat) (atomic : bool) (flags : Z) (io : uio U) (v : svars) (s : mst) : outcome (Z * svars * mst) :=
  match fuel with
  | O => Fail Diverge
  | S fuel =>
      '(e, v, s) ← send_one atomic io v s;
      if negb (e =? 0) then Done (e, v, s) else
      if w_resid v =? 0 then s ← mark_end flags v s; Done (0, v, s) else
      if negb (w_space v =? 0) && atomic then io ← deref (w_io v); fill_loop fuel atomic flags io v s else Done (0, v, s)
  end.

(** The loop over what there is room for. *)
Fixpoint send_loop (fuel : nat) (i : Z) (addr : option Z) (atomic dontroute : bool) (flags : Z) (v : svars) st : outcome (Z * svars * nst P) :=
  match fuel with
  | O => Fail Diverge
  | S fuel =>
      '(e, v, s) ← (match w_io v with
                    | None => s ← mark_end flags v (net_mem st); Done (0, set_wresid 0 v, s)
                    | Some io => fill_loop (Datatypes.S (Z.to_nat (w_resid v))) atomic flags io v (net_mem st)
                    end);
      let st := set_mem s st in
      if negb (e =? 0) then Done (e, v, st) else
      st ← (if (dontroute : bool) then upd_so i (λ x, with_options (Z.lor (so_options x) SO_DONTROUTE) x) st else Done st);
      '(e, st) ← usrreq i (if isset MSG_OOB flags then PRU_SENDOOB else PRU_SEND) (w_top v) addr (w_control v) st;
      st ← (if (dontroute : bool) then upd_so i (λ x, with_options (clear SO_DONTROUTE (so_options x)) x) st else Done st);
      let v := set_sent v in
      if negb (e =? 0) then Done (e, v, st) else
      if negb (w_resid v =? 0) && negb (w_space v =? 0) then send_loop fuel i addr atomic dontroute flags v st else Done (0, v, st)
  end.

(** Whether the socket takes anything: an error to release with, or the space; [None]: wait. *)
Definition send_ready (so : socket) (addr : option Z) (atomic : bool) (flags : Z) (v : svars) : Z + option Z :=
  if sohas SS_CANTSENDMORE so then inl (- EPIPE) else
  if negb (so_error so =? 0) then inl (so_error so) else
  if negb (sohas SS_ISCONNECTED so) && isset PR_CONNREQUIRED (pr_flags (so_proto so)) &&
     negb (sohas SS_ISCONFIRMING so) && negb ((w_resid v =? 0) && negb (w_clen v =? 0)) then inl (- ENOTCONN) else
  if negb (sohas SS_ISCONNECTED so) && negb (isset PR_CONNREQUIRED (pr_flags (so_proto so))) && bool_decide (addr = None) then inl (- EDESTADDRREQ) else
  let b := so_snd so in
  let space := u32 (sbspace b + (if isset MSG_OOB flags then 1024 else 0)) in
  if (atomic && (sb_hiwat b <? w_resid v)) || (sb_hiwat b <? u32 (w_clen v)) then inl (- EMSGSIZE) else
  if (space <? u32 (w_resid v + w_clen v)) && bool_decide (w_io v ≠ None) && (atomic || (space <? u32 (sb_lowat b)) || (space <? u32 (w_clen v))) then
    if sohas SS_NBIO so then inl (- EWOULDBLOCK) else inr None
  else inr (Some (u32 (space - w_clen v))).

(** From the lock on; the loop is left when [resid] is 0.  It ends with the error, or with [Waits]. *)
Fixpoint send_rounds (fuel : nat) (i : Z) (addr : option Z) (atomic dontroute : bool) (flags : Z) (v : svars) st : outcome (snd_end * Z * svars * nst P) :=
  match fuel with
  | O => Fail Diverge
  | S fuel =>
      so ← load_so i st;
      match send_ready so addr atomic flags v with
      | inl e => st ← unlock_snd i st; Done (Sent, e, v, st)
      | inr None =>
          st ← unlock_snd i st;
          st ← upd_so i (λ x, with_snd (set_sbflags (Z.lor (sb_flags (so_snd x)) SB_WAIT) (so_snd x)) x) st;
          Done (Waits, 0, v, st)
      | inr (Some space) =>
          '(e, v, st) ← send_loop (Datatypes.S (Z.to_nat (w_resid v))) i addr atomic dontroute flags (set_wspace space (set_wtop (w_top v) None v)) st;
          if negb (e =? 0) || (w_resid v =? 0) then st ← unlock_snd i st; Done (Sent, e, v, st)
          else send_rounds fuel i addr atomic dontroute flags v st
      end
  end.

(** [io = None] is a NULL [uio], with which [top] is a packet.  [sblock] as in [soreceive]. *)
Definition sosend (i : Z) (addr : option Z) (io : option (uio U)) (top control : option Z) (flags : Z) st : outcome (snd_end * Z * svars * nst P) :=
  so ← load_so i st;
  let atomic := sosendallatonce so || bool_decide (top ≠ None) in
  resid ← (match io with Some io => Done (u32 (uio_resid io)) | None => t ← load_opt top (net_mem st); Done (u32 (pkt_len t)) end);
  let dontroute := isset MSG_DONTROUTE flags && negb (isset SO_DONTROUTE (so_options so)) && isset PR_ATOMIC (pr_flags (so_proto so)) in
  clen ← (match control with Some c => x ← load c (net_mem st); Done (m_len x) | None => Done 0 end);
  let v := mk_svars top None resid 0 clen control io in
  if isset SB_LOCK (sb_flags (so_snd so)) && negb (isset MSG_DONTWAIT flags) then
    st ← upd_so i (λ x, with_snd (set_sbflags (Z.lor (sb_flags (so_snd x)) SB_WANT) (so_snd x)) x) st;
    Done (Waits, 0, v, st)
  else
    st ← upd_so i (λ x, with_snd (set_sbflags (Z.lor (sb_flags (so_snd x)) SB_LOCK) (so_snd x)) x) st;
    '(r, e, v, st) ← send_rounds (Datatypes.S (Z.to_nat resid)) i addr atomic dontroute flags v st;
    match r with
    | Waits => Done (Waits, e, v, st)
    | Sent =>
        st ← (match w_top v with Some _ => upd_mem (freem (w_top v)) st | None => Done st end);
        st ← (match w_control v with Some _ => upd_mem (freem (w_control v)) st | None => Done st end);
        Done (Sent, e, v, st)
    end.
End sosend.

(** ** What [uiomove] collects *)

Class UserReadLaws (U : Type) `{UserMem U} := {
  u_read_length s p n u d : 0 <= n → u_read s p n u = Some d → Z.of_nat (length d) = n;
  u_read_app s p m n u : 0 <= m → 0 <= n → u_read s p (m + n) u = (a ← u_read s p m u; b ← u_read s (u32 (p + m)) n u; Some (a ++ b));
}.

Section gather.
Context {U : Type} `{UserReadLaws U}.

(** The [n] bytes from the areas on, and the areas that are left. *)
Fixpoint gather (l : list (Z * Z)) (seg n : Z) (u : U) : option (bytes * list (Z * Z)) :=
  if n =? 0 then Some ([], l) else
  match l with
  | [] => None
  | (b, k) :: l' =>
      if k =? 0 then gather l' seg n u
      else if n <=? k then d ← u_read seg b n u; Some (d, (u32 (b + n), k - n) :: l')
      else d ← u_read seg b k u; '(d', r) ← gather l' seg (n - k) u; Some (d ++ d', r)
  end.

Lemma gather_zero l seg u : gather l seg 0 u = Some ([], l).
Proof. by destruct l as [|[]]. Qed.

Lemma gather_spec l seg n u d r : areas_ok l → 0 <= n → gather l seg n u = Some (d, r) → Z.of_nat (length d) = n ∧ areas_ok r.
Proof.
  revert n d. induction l as [|[b k] l IH]; intros n d Hok Hn; cbn [gather]; destruct (Z.eqb_spec n 0) as [->|Hn0]; [by intros [= <- <-]|done|by intros [= <- <-]|].
  pose proof Hok as Hok0. inversion_clear Hok0 as [|?? Hk Hok']. cbn in Hk. destruct (Z.eqb_spec k 0) as [->|Hk0]; [by apply IH|]. destruct (Z.leb_spec n k).
  - destruct (u_read seg b n u) as [e|] eqn:E; [|done]. intros [= <- <-]. apply u_read_length in E; [|done]. split; [done|]. constructor; [cbn; rewrite u32_small; lia|done].
  - destruct (u_read seg b k u) as [e|] eqn:E; [|done]. cbn [mbind option_bind]. destruct (gather l seg (n - k) u) as [[d' r']|] eqn:Eg; [|done]. intros [= <- <-].
    apply u_read_length in E; [|lia]. apply IH in Eg as [E2 ?]; [|done|lia]. rewrite length_app. split; [lia|done].
Qed.

(** Collecting [m + n] bytes is collecting [m] and then [n]; an area that is used up may be left with length 0. *)
Lemma gather_split l seg m n u d r : areas_ok l → 0 <= m → 0 < n → gather l seg (m + n) u = Some (d, r) →
  ∃ d1 l1 d2, gather l seg m u = Some (d1, l1) ∧ gather l1 seg n u = Some (d2, r) ∧ d = d1 ++ d2.
Proof.
  revert m d. induction l as [|[b k] l IH]; intros m d Hok Hm Hn.
  { cbn [gather]. by rewrite (proj2 (Z.eqb_neq (m + n) 0)) by lia. }
  destruct (decide (m = 0)) as [->|Hm0]; [intros E; exists [], ((b, k) :: l), d; by rewrite gather_zero|].
  pose proof Hok as Hok0. inversion_clear Hok0 as [|?? Hk Hok']. cbn in Hk. cbn [gather].
  rewrite (proj2 (Z.eqb_neq (m + n) 0)), (proj2 (Z.eqb_neq m 0)) by lia. destruct (Z.eqb_spec k 0) as [->|Hk0]; [by apply IH|].
  destruct (Z.leb_spec (m + n) k) as [Hle|Hgt].
  - rewrite (proj2 (Z.leb_le m k)) by lia. rewrite u_read_app by lia. destruct (u_read seg b m u) as [d1|]; [|done]. cbn [mbind option_bind].
    destruct (u_read seg _ n u) as [d2|] eqn:E2; [|done]. cbn [mbind option_bind]. intros [= <- <-]. exists d1, ((u32 (b + m), k - m) :: l), d2. split; [done|]. split; [|done].
    cbn [gather]. rewrite (proj2 (Z.eqb_neq n 0)), (proj2 (Z.eqb_neq (k - m) 0)), (proj2 (Z.leb_le n (k - m))), E2 by lia. cbn [mbind option_bind].
    by rewrite u32_add, <- Z.add_assoc, Z.sub_add_distr.
  - destruct (Z.leb_spec m k) as [Hmk|Hmk].
    + replace k with (m + (k - m)) at 1 by lia. rewrite u_read_app by lia. destruct (u_read seg b m u) as [d1|]; [|done]. cbn [mbind option_bind].
      destruct (u_read seg _ (k - m) u) as [d2|] eqn:E2; [|done]. cbn [mbind option_bind]. destruct (gather l seg (m + n - k) u) as [[d3 r']|] eqn:Eg; [|done]. intros [= <- <-].
      exists d1, ((u32 (b + m), k - m) :: l), (d2 ++ d3). split; [done|]. split; [|by rewrite app_assoc]. cbn [gather]. rewrite (proj2 (Z.eqb_neq n 0)) by lia.
      destruct (Z.eqb_spec (k - m) 0) as [E0|E0].
      * rewrite E0 in E2. apply u_read_length in E2; [|done]. destruct d2; [|cbn in E2; lia]. cbn [app]. replace (m + n - k) with n in Eg by lia. done.
      * rewrite (proj2 (Z.leb_gt n (k - m))), E2 by lia. cbn [mbind option_bind]. replace (n - (k - m)) with (m + n - k) by lia. by rewrite Eg.
    + destruct (u_read seg b k u) as [d1|]; [|done]. cbn [mbind option_bind]. destruct (gather l seg (m + n - k) u) as [[d3 r']|] eqn:Eg; [|done]. intros [= <- <-].
      replace (m + n - k) with (m - k + n) in Eg by lia. apply IH in Eg as (e1 & l1 & e2 & -> & E2 & ->); [|done|lia|done].
      exists (d1 ++ e1), l1, e2. split; [done|]. split; [done|]. by rewrite app_assoc.
Qed.

(** The values of [uio_seg]. *)
Definition io_known (seg : Z) : Prop := 0 <= seg <= UIO_USERISPACE.
Lemma io_get_known seg p old u d : io_known seg → 0 < p → u_read seg p (Z.of_nat (length old)) u = Some d → io_get seg p old u = Done (0, d).
Proof.
  intros Hs Hp Hd. unfold io_get. assert (io_user seg || (seg =? UIO_SYSSPACE) = true) as ->.
  { unfold io_user, io_known, UIO_USERSPACE, UIO_SYSSPACE, UIO_USERISPACE in *. assert (seg = 0 ∨ seg = 1 ∨ seg = 2) as [-> | [-> | ->]] by lia; done. }
  by rewrite (proj2 (Z.eqb_neq p 0)), Hd by lia.
Qed.

Lemma move_in_gather l : ∀ fuel n old io d r, uio_iov io = l → io_known (uio_segflg io) → areas_ok l → Z.of_nat (length old) = n → n <= uio_resid io → uio_resid io < 2 ^ 31 →
  (2 * length l < fuel)%nat → gather l (uio_segflg io) n (uio_mem io) = Some (d, r) →
  ∃ r', move_in fuel old io = Done (0, d, io_moved n r' (uio_mem io) io) ∧ areas_ok r' ∧ ∀ k u, 0 < k → gather r' (uio_segflg io) k u = gather r (uio_segflg io) k u.
Proof.
  assert (Hnil : ∀ fuel io, (0 < fuel)%nat → move_in fuel [] io = Done (0, [], io)) by (intros [] io Hf; [lia|done]).
  assert (Hio : ∀ io : uio U, io_moved 0 (uio_iov io) (uio_mem io) io = io) by (intros []; unfold io_moved; cbn; by rewrite Z.add_0_r, Z.sub_0_r).
  induction l as [|[b k] rest IH]; intros fuel n old io d r El Hseg Hok Hn Hr Hr31 Hf; (destruct (decide (n = 0)) as [->|Hne];
    [destruct old; [|cbn in Hn; lia]; rewrite gather_zero; intros [= <- <-]; rewrite Hnil by lia; eexists; rewrite <- El, Hio; by rewrite El|]).
  { cbn [gather]. by rewrite (proj2 (Z.eqb_neq n 0)). }
  inversion_clear Hok as [|?? Hk Hok']. cbn in Hk. cbn [gather]. rewrite (proj2 (Z.eqb_neq n 0)) by done. destruct fuel as [|fuel]; [lia|]. cbn [move_in length] in *.
  rewrite Hn, (proj2 (Z.ltb_lt 0 n)), (proj2 (Z.eqb_neq (uio_resid io) 0)) by lia. cbn [negb andb]. rewrite El. destruct (Z.eqb_spec k 0) as [->|Hk0].
  - intros Hg. destruct (IH fuel n old (io_skip rest io) d r) as (r' & -> & ? & ?); try done; [lia|]. by exists r'.
  - destruct (Z.leb_spec n k) as [Hle|Hgt].
    + rewrite Z.min_r by lia. rewrite take_ge, drop_ge by lia. destruct (u_read _ b n _) as [d1|] eqn:E1; [|done]. cbn [mbind option_bind]. intros [= <- <-].
      rewrite (io_get_known _ b old _ d1), bind_done by (done || lia || by rewrite Hn). cbn [Z.eqb negb].
      rewrite Hnil by lia. rewrite bind_done, app_nil_r. eexists. unfold io_step. rewrite s32_small, (u32_small (k - n)) by lia.
      split; [done|]. split; [|done]. constructor; [cbn; rewrite u32_small; lia|done].
    + rewrite Z.min_l by lia. destruct (u_read _ b k _) as [d1|] eqn:E1; [|done]. cbn [mbind option_bind].
      destruct (gather rest _ (n - k) _) as [[d2 r2]|] eqn:Eg; [|done]. intros [= <- <-].
      assert (Hlt : Z.of_nat (length (take (Z.to_nat k) old)) = k) by (rewrite length_take; lia).
      assert (Hld : Z.of_nat (length (drop (Z.to_nat k) old)) = n - k) by (rewrite length_drop; lia).
      rewrite (io_get_known _ b _ _ d1), bind_done by (done || lia || by rewrite Hlt). cbn [Z.eqb negb]. set (old' := drop _ old) in *.
      unfold io_step. rewrite Z.sub_diag. change (u32 0) with 0. rewrite s32_small by lia.
      destruct fuel as [|fuel]; [lia|]. cbn [move_in uio_resid uio_iov uio_segflg uio_mem].
      rewrite Hld, (proj2 (Z.ltb_lt 0 (n - k))), (proj2 (Z.eqb_neq (uio_resid io - k) 0)) by lia. cbn [negb andb]. rewrite Z.eqb_refl.
      unfold io_skip. cbn [uio_offset uio_resid uio_segflg uio_mem].
      destruct (IH fuel (n - k) old' (io_moved k rest (uio_mem io) io) d2 r2) as (r' & E & ? & ?); try done; [cbn; lia|cbn; lia|lia|].
      unfold io_moved in E at 1. rewrite E, bind_done. exists r'. rewrite io_moved_twice. split; [|done]. do 3 f_equal. lia.
Qed.
Lemma uiomove_gather n old io d r : areas_ok (uio_iov io) → io_known (uio_segflg io) → Z.of_nat (length old) = n → n <= uio_resid io → uio_resid io < 2 ^ 31 →
  gather (uio_iov io) (uio_segflg io) n (uio_mem io) = Some (d, r) →
  ∃ r', uiomove_in old io = Done (0, d, io_moved n r' (uio_mem io) io) ∧ areas_ok r' ∧ ∀ k u, 0 < k → gather r' (uio_segflg io) k u = gather r (uio_segflg io) k u.
Proof. intros. unfold uiomove_in. apply (move_in_gather (uio_iov io)); try done. lia. Qed.
End gather.

(** ** New mbufs *)

(** The memory gives no less than before. *)
Definition keeps_fresh (s s' : mst) : Prop := ∀ ids, fresh s ids → fresh s' ids.
Lemma keeps_fresh_same s s' : memory s' = memory s → (∀ i, mbufs s !! i = None → mbufs s' !! i = None) → (∀ c, clusters s !! c = None → clusters s' !! c = None) → keeps_fresh s s'.
Proof.
  intros Hm Hi Hc ids [[rest Hr] [Hd Hf]]. split; [exists rest; by rewrite Hm|]. split; [done|]. eapply Forall_impl; [exact Hf|]. intros i [? ?]. auto.
Qed.
Lemma keeps_fresh_upd i g s s' : upd i g s = Done s' → keeps_fresh s s'.
Proof.
  unfold upd, load. destruct (mbufs s !! i) as [m|] eqn:E; [|done]. cbn [deref]. rewrite bind_done. intros [= <-]. apply keeps_fresh_same; [done| |done].
  intros j Hj. cbn. rewrite lookup_insert_ne; [done|]. intros ->. congruence.
Qed.
Lemma fresh_tail s i ids : fresh s (i :: ids) → mbufs s !! i = None ∧ clusters s !! i = None ∧ i ∉ ids.
Proof. intros [_ [Hd Hf]]. apply NoDup_cons in Hd as [? _]. by inversion_clear Hf as [|?? [? ?] ?]. Qed.
Lemma fresh_not_in s i l : private s l → mbufs s !! i = None → i ∉ l.*1.
Proof. intros [Hst _ _ _ _] Hi Hin. apply list_elem_of_fmap in Hin as (a & -> & Ha). rewrite Forall_forall in Hst. rewrite (Hst a Ha) in Hi. done. Qed.
Lemma fresh_not_cl s c l : private s l → clusters s !! c = None → c ∉ l ≫= cl.
Proof.
  intros [_ _ Hok Hw _] Hc Hin. apply list_elem_of_bind in Hin as ([i m] & Hin & Ha). rewrite Forall_forall in Hok, Hw. specialize (Hok _ Ha). specialize (Hw _ Ha).
  unfold own, cl in *. cbn [fst snd] in *. destruct (has M_EXT m); [|by apply elem_of_nil in Hin]. destruct Hw as (c' & off & Ed & Eb). rewrite Eb in Hin.
  apply list_elem_of_singleton in Hin as ->. destruct Hok as (_ & _ & _ & Hb). rewrite Ed in Hb. cbn [bytes_at] in Hb. by rewrite Hc in Hb.
Qed.

Lemma new_private s i ids pk type f : fresh s (i :: ids) → private s f →
  ∃ s', new_mbuf pk type s = (Some i, s') ∧ private s' ((i, mbuf_init i pk type) :: f) ∧ same s s' f ∧ fresh s' ids.
Proof.
  intros Hf Hp. destruct (fresh_tail _ _ _ Hf) as (Hi & _ & _). destruct (fresh_new s i ids pk type Hf) as (s' & E & Hm & Hc & Hf' & _).
  pose proof (fresh_not_in _ _ _ Hp Hi) as Hni.
  destruct (frame_keep s s' f [i] [] Hp) as [Hp' Hs]; [|by rewrite Hc|by intros j ->%list_elem_of_singleton|by intros j ?%elem_of_nil|].
  { intros j [Hj _]%not_elem_of_cons. by rewrite Hm, lookup_insert_ne. }
  assert (Hb : bytes_at (m_data (mbuf_init i pk type)) s' = Done (replicate 108 0)) by (cbn [bytes_at m_data mbuf_init]; unfold load; by rewrite Hm, lookup_insert_eq).
  assert (Hext : has M_EXT (mbuf_init i pk type) = false) by (by destruct pk).
  exists s'. split; [done|]. split; [|done]. apply private_cons; try done.
  - by rewrite Hm, lookup_insert_eq.
  - unfold mbuf_ok, area. rewrite Hb. cbn [m_len mbuf_init m_data addr_off]. rewrite length_replicate. destruct pk; (split; [lia|]; split; [lia|]; split; [lia|done]).
  - unfold own. cbn [snd fst]. rewrite Hext. cbn [m_data mbuf_init m_dat]. eexists. split; [done|]. by rewrite length_replicate.
  - unfold cl. cbn [snd]. rewrite Hext. by apply (pr_clus _ _ Hp').
Qed.

(** The bits of the flags that do not say where the bytes are. *)
Definition like (m m' : mbuf) : Prop :=
  m_next m' = m_next m ∧ m_nextpkt m' = m_nextpkt m ∧ has M_PKTHDR m' = has M_PKTHDR m ∧ has M_EOR m' = has M_EOR m ∧ pkt_len m' = pkt_len m.

Lemma clget_private s m x c ids f : private s ((m, x) :: f) → has M_EXT x = false → m_len x = 0 → fresh s (c :: ids) →
  ∃ s' x', m_clget (Some m) s = Done (Some m, s') ∧ private s' ((m, x') :: f) ∧ same s s' f ∧ fresh s' ids ∧ like x x' ∧
    m_len x' = 0 ∧ has M_EXT x' = true ∧ m_data x' = InClus c 0 ∧ length (area s' x') = Z.to_nat MCLBYTES.
Proof.
  intros Hp Hx Hl Hf. destruct (private_at _ _ _ _ Hp) as (Hm & Hok & Hw & Hni & _ & Hpf). destruct (fresh_tail _ _ _ Hf) as (Hcm & Hcc & Hci).
  pose proof Hf as [[rest Hmem] [Hd Hfa]]. apply NoDup_cons in Hd as [_ Hd]. inversion_clear Hfa as [|?? _ Hfa'].
  unfold m_clget. cbn [deref]. rewrite bind_done. unfold kzalloc. rewrite Hmem. cbn [map app].
  set (s1 := mk_mst _ _ _ _ _). rewrite (upd_spec m _ s1 x), bind_done by done. set (x1 := set_ext (Some c) _ x).
  set (s2 := mk_mst _ _ _ _ _). assert (Hm2 : mbufs s2 !! m = Some x1) by apply lookup_insert_eq. rewrite (upd_spec m _ s2 x1), bind_done by done.
  set (x2 := set_ext _ _ _). set (s3 := with_mbufs _ s2).
  assert (Hcl : clusters s3 !! c = Some (replicate 2048 0)) by apply lookup_insert_eq.
  assert (Hb : bytes_at (m_data x2) s3 = Done (replicate 2048 0)) by (change (m_data x2) with (InClus c 0); cbn [bytes_at]; by rewrite Hcl).
  assert (Ha : area s3 x2 = replicate 2048 0) by (unfold area; by rewrite Hb).
  assert (Hx2 : has M_EXT x2 = true) by apply (has_ext x1).
  assert (Hc1 : cl (m, x2) = [c]) by (unfold cl; cbn [snd]; by rewrite Hx2).
  destruct (frame_keep s s3 f [m] [c] Hpf) as [Hp3 Hs3].
  { intros j [Hj _]%not_elem_of_cons. unfold s3, s2, s1. cbn. by rewrite !lookup_insert_ne. }
  { intros j [Hj _]%not_elem_of_cons. unfold s3, s2, s1. cbn. by rewrite lookup_insert_ne. }
  { by intros j ->%list_elem_of_singleton. }
  { intros j ->%list_elem_of_singleton. by apply (fresh_not_cl s). }
  exists s3, x2. split; [done|]. split.
  - apply private_cons; try done; [apply lookup_insert_eq| |unfold own; cbn [snd]; rewrite Hx2; by exists c, 0|].
    + unfold mbuf_ok. rewrite Ha, length_replicate. change (m_len x2) with (m_len x). rewrite Hl. change (addr_off (m_data x2)) with 0. split; [lia|]. split; [lia|]. split; [lia|done].
    + rewrite Hc1. cbn [app]. constructor; [by apply (fresh_not_cl s)|apply (pr_clus _ _ Hp3)].
  - split; [done|]. split.
    + split; [by exists rest|]. split; [done|]. rewrite Forall_forall in *. intros j Hj. destruct (Hfa' j Hj) as [? ?]. unfold s3, s2, s1. cbn.
      assert (j ≠ m) by congruence. assert (j ≠ c) by (by intros ->). by rewrite !lookup_insert_ne.
    + split; [|split; [done|split; [done|split; [done|by rewrite Ha, length_replicate]]]].
      split; [done|]. split; [done|]. split; [by apply (has_or_ext M_PKTHDR x1)|]. split; [by apply (has_or_ext M_EOR x1)|done].
Qed.

(** The bytes there are in an mbuf with room. *)
Lemma old_bytes s m x f n : private s ((m, x) :: f) → 0 <= n < 2 ^ 32 → addr_off (m_data x) + n <= Z.of_nat (length (area s x)) →
  ∃ old, copy_out (m_data x) n s = Done old ∧ Z.of_nat (length old) = n.
Proof.
  intros Hp Hn Hfit. destruct (private_at _ _ _ _ Hp) as (_ & (_ & Ho & _ & Hb) & _). unfold copy_out. rewrite Hb, bind_done, u32_small, sub_buf_ok by lia.
  eexists. split; [done|]. rewrite length_take, length_drop. lia.
Qed.
(** An empty mbuf takes the bytes that there is room for. *)
Lemma private_fill s m x d f : private s ((m, x) :: f) → m_len x = 0 → addr_off (m_data x) + Z.of_nat (length d) <= Z.of_nat (length (area s x)) → Z.of_nat (length d) < 2 ^ 31 →
  ∃ s1 s2 x', copy_in (m_data x) d s = Done s1 ∧ upd m (set_len (Z.of_nat (length d))) s1 = Done s2 ∧ private s2 ((m, x') :: f) ∧ same s s2 f ∧
    mbytes s2 x' = d ∧ like x x' ∧ m_len x' = Z.of_nat (length d) ∧ keeps_fresh s s2.
Proof.
  intros Hp Hl Hfit H31. destruct (private_at _ _ _ _ Hp) as (Hm & (_ & Ho & _ & Hb) & Hw & Hni & Hnc & Hpf).
  set (b := area s x) in *. set (off := addr_off (m_data x)) in *. set (b' := take (Z.to_nat off) b ++ d ++ drop (Z.to_nat off + length d) b).
  assert (Hlb : length b' = length b) by (unfold b'; rewrite !length_app, length_take, length_drop; lia).
  assert (Hput : put_buf b off d = Done b') by (apply put_buf_ok; lia).
  assert (∃ s1 x0, copy_in (m_data x) d s = Done s1 ∧ mbufs s1 !! m = Some x0 ∧ (x0 = x ∨ x0 = set_dat b' x) ∧ bytes_at (m_data x) s1 = Done b' ∧ own (m, x0) ∧
    (∀ j, j ≠ m → mbufs s1 !! j = mbufs s !! j) ∧ (∀ c, c ∉ cl (m, x) → clusters s1 !! c = clusters s !! c) ∧ keeps_fresh s s1)
    as (s1 & x0 & E1 & Hm1 & Hx0 & Hb1 & Hw1 & Ho1 & Hc1 & Hk1).
  { unfold copy_in. rewrite Hb, bind_done. fold off. rewrite Hput, bind_done. unfold own, cl in *. cbn [fst snd] in *. destruct (has M_EXT x) eqn:Ex.
    - destruct Hw as (c & o & Ed & Ee). rewrite Ed in *. cbn [bytes_at] in Hb. apply deref_Done in Hb. eexists _, x. split; [done|]. split; [done|]. split; [by left|].
      split; [cbn [bytes_at clusters with_clusters]; by rewrite lookup_insert_eq|]. split; [rewrite Ex; by exists c, o|]. split; [done|]. split.
      + intros j Hj. rewrite Ee in Hj. apply not_elem_of_cons in Hj as [Hj _]. cbn. by rewrite lookup_insert_ne.
      + apply keeps_fresh_same; [done|done|]. intros j Hj. cbn. rewrite lookup_insert_ne; [done|]. intros ->. congruence.
    - destruct Hw as (o & Ed & Ee). rewrite Ed in *. rewrite (upd_spec m _ s x) by done. eexists _, (set_dat b' x). split; [done|]. split; [apply lookup_insert_eq|]. split; [by right|].
      split; [cbn [bytes_at]; unfold load; cbn [mbufs with_mbufs]; by rewrite lookup_insert_eq|]. split.
      + change (has M_EXT (set_dat b' x)) with (has M_EXT x). rewrite Ex. exists o. split; [done|]. cbn [set_dat m_dat]. rewrite Hlb.
        assert (b = m_dat x) as ->; [|done]. cbn [bytes_at] in Hb. rewrite (load_spec m s x), bind_done in Hb by done. by injection Hb.
      + split; [intros j Hj; cbn; by rewrite lookup_insert_ne|]. split; [done|]. eapply keeps_fresh_upd. by apply (upd_spec m (set_dat b') s x). }
  set (n := Z.of_nat (length d)). set (x' := set_len n x0). exists s1, (with_mbufs (<[m := x']> (mbufs s1)) s1), x'. set (s2 := with_mbufs _ s1).
  assert (Hlike : like x x' ∧ m_data x' = m_data x ∧ cl (m, x') = cl (m, x)) by (destruct Hx0 as [-> | ->]; by repeat split). destruct Hlike as (Hlike & Hd & Hcl).
  assert (Hln : m_len x' = n) by (unfold x'; cbn; apply s32_small; lia).
  assert (Hb2 : bytes_at (m_data x') s2 = Done b').
  { rewrite Hd, <- Hb1. unfold own in Hw1. cbn [snd fst] in Hw1. destruct (m_data x) as [j o|c o]; [|done]. cbn [bytes_at]. unfold load, s2. cbn [mbufs with_mbufs].
    destruct (decide (j = m)) as [->|]; [|by rewrite lookup_insert_ne]. by rewrite lookup_insert_eq, Hm1. }
  assert (Ha2 : area s2 x' = b') by (unfold area; by rewrite Hb2).
  destruct (frame_keep s s2 f [m] (cl (m, x)) Hpf) as [Hp2 Hs2]; [|exact Hc1|by intros j ->%list_elem_of_singleton|exact Hnc|].
  { intros j [Hj _]%not_elem_of_cons. unfold s2. cbn. rewrite lookup_insert_ne by done. by apply Ho1. }
  split; [done|]. split; [by apply upd_spec|]. split; [|split; [done|split; [|split; [done|split; [done|]]]]].
  - apply private_cons; try done; [apply lookup_insert_eq| |rewrite Hcl; apply NoDup_app; split; [|split; [exact Hnc|apply (pr_clus _ _ Hp2)]]].
    + unfold mbuf_ok. rewrite Ha2, Hln, Hlb, Hd. fold off. split; [lia|]. split; [lia|]. split; [lia|]. by rewrite <- Hd.
    + pose proof (pr_clus _ _ Hp) as Hnd. cbn in Hnd. by apply NoDup_app in Hnd as [? _].
  - unfold mbytes. rewrite Ha2, Hln, Hd. fold off. unfold b', n. rewrite Nat2Z.id. apply put_middle. lia.
  - intros ids Hids. apply Hk1 in Hids. revert Hids. eapply keeps_fresh_upd. by apply (upd_spec m (set_len n) s1 x0).
Qed.

(** ** One mbuf of the packet *)

Section send.
Context {P U : Type} `{ProtoOps P} `{UserReadLaws U} (max_hdr : Z) (Hhdr : 0 <= max_hdr < MCLBYTES).
Implicit Types st : nst P.
Implicit Types v : svars (U := U).

(** What is still to be sent fits into the space; the first cluster of a packet is not used whole. *)
Definition spare (atomic : bool) v : Z := if atomic && bool_decide (w_top v = None) then max_hdr else 0.
Definition enough (atomic : bool) v : Prop := 0 <= w_resid v < 2 ^ 31 ∧ w_resid v + spare atomic v <= w_space v < 2 ^ 31.

(** An empty mbuf with room for [n] bytes. *)
Record roomy (s : mst) (x : mbuf) (first : bool) (n : Z) : Prop := mk_roomy {
  ro_len : m_len x = 0;
  ro_next : m_next x = None ∧ m_nextpkt x = None;
  ro_head : first = true → has M_PKTHDR x = true ∧ pkt_len x = 0;
  ro_eor : has M_EOR x = false;
  ro_room : addr_off (m_data x) + n <= Z.of_nat (length (area s x));
}.

Lemma align_range x : 0 <= x → 0 <= Z.land x (Z.lnot 3) <= x.
Proof.
  intros Hx. assert (Z.land x (Z.lnot 3) = x / 4 * 4) as ->.
  { rewrite <- Z.ldiff_land. change 3 with (Z.ones 2). rewrite Z.ldiff_ones_r by done. by rewrite Z.shiftr_div_pow2, Z.shiftl_mul_pow2 by done. }
  pose proof (Z.div_mod x 4 ltac:(lia)). pose proof (Z.mod_pos_bound x 4 ltac:(lia)). lia.
Qed.

(** The data of an empty mbuf may begin later. *)
Lemma private_start s m x k f : private s ((m, x) :: f) → m_len x = 0 → 0 <= k → addr_off (m_data x) + k <= Z.of_nat (length (area s x)) →
  ∃ s', upd m (λ x, set_data (shift (m_data x) k) x) s = Done s' ∧ private s' ((m, set_data (shift (m_data x) k) x) :: f) ∧ same s s' f ∧
    area s' (set_data (shift (m_data x) k) x) = area s x.
Proof.
  intros Hp Hl Hk Hr. destruct (private_at _ _ _ _ Hp) as (Hm & (Q1 & Q2 & Q3 & Q4) & Hw & _). set (g := λ x, set_data (shift (m_data x) k) x).
  assert (Ha : area s (g x) = area s x) by (unfold area, g; cbn [set_data m_data]; by rewrite bytes_at_shift).
  assert (Hok : mbuf_ok s (g x)).
  { unfold mbuf_ok. rewrite Ha. unfold g. cbn [set_data m_data m_len]. rewrite addr_off_shift, bytes_at_shift. rewrite Hl. split; [lia|]. split; [lia|]. split; [lia|done]. }
  assert (Hw' : own (m, g x)).
  { unfold own in *. cbn [fst snd g set_data m_data m_dat ext_buf] in *. change (has M_EXT (g x)) with (has M_EXT x). destruct (has M_EXT x).
    - destruct Hw as (c & o & -> & ->). by exists c, (o + k).
    - destruct Hw as (o & -> & ?). by exists (o + k). }
  destruct (private_upd s m x f g Hp ltac:(by split) Hw' Hok) as (E & Hp' & Hs & _). eexists. split; [exact E|]. split; [done|]. split; [done|].
  pose proof (same_upd s m x (g x) Hm eq_refl) as Hsb. transitivity (area s (g x)); [|done]. unfold area. by rewrite (same_at _ _ _ Hsb).
Qed.

Lemma roomy_new first i type s f : private s ((i, mbuf_init i first type) :: f) →
  roomy s (mbuf_init i first type) first (if first then MHLEN else MLEN) ∧ has M_EXT (mbuf_init i first type) = false ∧
  length (area s (mbuf_init i first type)) = 108%nat ∧ addr_off (m_data (mbuf_init i first type)) = (if first then 8 else 0).
Proof.
  intros Hp. destruct (private_at _ _ _ _ Hp) as (Hi & _). assert (Hl : length (area s (mbuf_init i first type)) = 108%nat).
  { unfold area. cbn [m_data mbuf_init bytes_at]. rewrite (load_spec i s _ Hi), bind_done. cbn [mbuf_init m_dat]. apply length_replicate. }
  split; [|by destruct first]. split; try done; [by destruct first..|]. rewrite Hl. by destruct first.
Qed.

(** The first half of [send_room]: a new mbuf, the header of which is cleared if it has one. *)
Lemma new_mbuf_spec s i ids f v : fresh s (i :: ids) → private s f →
  let first := bool_decide (w_top v = None) in
  ∃ s', (if first then let '(m, s) := m_gethdr MT_DATA s in m ← deref m; s ← upd m (set_pkthdr 0 0) s; Done (m, MHLEN, s)
         else let '(m, s) := m_get MT_DATA s in m ← deref m; Done (m, MLEN, s)) = Done (i, (if first then MHLEN else MLEN), s') ∧
    private s' ((i, mbuf_init i first MT_DATA) :: f) ∧ same s s' f ∧ fresh s' ids.
Proof.
  intros Hf Hp first. destruct (new_private s i ids first MT_DATA f Hf Hp) as (s1 & E & Hp1 & Hs1 & Hf1). unfold m_gethdr, m_get. destruct first; rewrite E; cbn [deref]; rewrite bind_done.
  - destruct (private_set _ _ _ _ (set_pkthdr 0 0) Hp1 ltac:(done) ltac:(done) ltac:(done)) as (s2 & E2 & Hp2 & Hs2 & _). rewrite E2, bind_done.
    exists s2. split; [done|]. split; [done|]. split; [by eapply same_trans|]. by apply (keeps_fresh_upd _ _ _ _ E2).
  - by exists s1.
Qed.

Lemma send_room_spec atomic v s i c ids f : enough atomic v → fresh s (i :: c :: ids) → private s f →
  ∃ m x n sp s' ids', send_room max_hdr atomic v s = Done (m, n, set_wspace sp v, s') ∧ private s' ((m, x) :: f) ∧ same s s' f ∧
    fresh s' ids' ∧ (ids' = ids ∨ ids' = c :: ids) ∧ roomy s' x (bool_decide (w_top v = None)) n ∧
    0 <= n <= w_resid v ∧ (0 < w_resid v → Z.min 100 (w_resid v) <= n ∨ 0 < n ∧ MINCLSIZE <= w_resid v) ∧ n <= MCLBYTES ∧ w_resid v - n <= sp < 2 ^ 31.
Proof.
  intros [Hr Hsp] Hf Hp. unfold spare in Hsp. unfold send_room. set (first := bool_decide (w_top v = None)) in *. unfold MCLBYTES in *.
  destruct (new_mbuf_spec s i (c :: ids) f v Hf Hp) as (s1 & E1 & Hp1 & Hs1 & Hf1). fold first in E1, Hp1. cbv zeta in E1. rewrite E1, bind_done.
  destruct (roomy_new first i MT_DATA s1 f Hp1) as ([Hl [Hn Hk] Hh He Hro] & Hex & Hal & Hao). set (x := mbuf_init i first MT_DATA) in *.
  destruct ((MINCLSIZE <=? w_resid v) && (2048 <=? w_space v)) eqn:Ec.
  - apply andb_true_iff in Ec as [Ec1%Z.leb_le Ec2%Z.leb_le].
    destruct (clget_private s1 i x c ids f Hp1 Hex Hl Hf1) as (s2 & x2 & -> & Hp2 & Hs2 & Hf2 & (L1 & L2 & L3 & L4 & L5) & Hl2 & Hx2 & Hd2 & Ha2).
    rewrite bind_done. cbn [deref]. rewrite bind_done. destruct (private_at _ _ _ _ Hp2) as (Hi2 & _). rewrite (load_spec i s2 x2), !bind_done by done. rewrite Hx2.
    assert (Hsp' : u32 (w_space v - 2048) = w_space v - 2048) by (apply u32_small; lia). rewrite Hsp'. unfold MINCLSIZE, MCLBYTES in *. destruct (atomic && first) eqn:Ea.
    + destruct (private_start s2 i x2 max_hdr f Hp2 Hl2 ltac:(lia)) as (s3 & E3 & Hp3 & Hs3 & Ha3); [rewrite Hd2, Ha2; cbn [addr_off]; lia|].
      rewrite E3, !bind_done. eexists i, _, (Z.min (2048 - max_hdr) (w_resid v)), _, s3, ids. split; [done|]. split; [done|].
      split; [by eapply same_trans, same_trans|]. split; [by apply (keeps_fresh_upd _ _ _ _ E3)|]. split; [by left|]. split; [|split; [lia|split; [right; lia|lia]]].
      split; try done.
      * intros Hfi. change (has M_PKTHDR x2 = true ∧ pkt_len x2 = 0). rewrite L3, L5. by apply Hh.
      * change (has M_EOR (set_data _ x2)) with (has M_EOR x2). by rewrite L4.
      * rewrite Ha3, Ha2. cbn [set_data m_data]. rewrite addr_off_shift, Hd2. cbn [addr_off]. lia.
    + rewrite bind_done. eexists i, x2, (Z.min 2048 (w_resid v)), _, s2, ids. split; [done|]. split; [done|].
      split; [by eapply same_trans|]. split; [done|]. split; [by left|]. split; [|split; [lia|split; [right; lia|lia]]].
      split; try done; [intros Hfi; rewrite L3, L5; by apply Hh|by rewrite L4|]. rewrite Hd2, Ha2. cbn [addr_off]. lia.
  - rewrite bind_done. set (mlen := if first then MHLEN else MLEN) in *. set (n := Z.min (Z.min mlen (w_resid v)) (w_space v)).
    assert (Hml : mlen = 100 ∨ mlen = 108) by (unfold mlen; destruct first; auto). assert (0 <= (if atomic && first then max_hdr else 0)) by (destruct (atomic && first); lia).
    assert (Hnn : n = Z.min mlen (w_resid v)) by (unfold n; lia). rewrite (u32_small (w_space v - n)) by lia.
    assert (Hmn : MINCLSIZE <= w_resid v → 0 < n) by (unfold MINCLSIZE; lia).
    assert (Hao' : addr_off (m_data x) + mlen = 108) by (rewrite Hao; unfold mlen; by destruct first).
    destruct (atomic && first && (n <? mlen)) eqn:Ea.
    + apply andb_true_iff in Ea as [Ea Elt%Z.ltb_lt]. apply andb_true_iff in Ea as [_ Efi]. assert (mlen = 100) as -> by (unfold mlen; by rewrite Efi).
      pose proof (align_range (100 - n) ltac:(lia)) as Hal'. unfold MHLEN. set (k := Z.land (100 - n) (Z.lnot 3)) in *.
      destruct (private_start s1 i x k f Hp1 Hl ltac:(lia)) as (s3 & E3 & Hp3 & Hs3 & Ha3); [lia|]. rewrite E3, bind_done.
      eexists i, _, n, _, s3, (c :: ids). split; [done|]. split; [done|]. split; [by eapply same_trans|]. split; [by apply (keeps_fresh_upd _ _ _ _ E3)|]. split; [by right|].
      split; [|split; [lia|split; [left; lia|lia]]]. split; try done. rewrite Ha3, Hal. cbn [set_data m_data]. rewrite addr_off_shift. lia.
    + rewrite bind_done. eexists i, x, n, _, s1, (c :: ids). split; [done|]. split; [done|]. split; [done|]. split; [done|]. split; [by right|].
      split; [|split; [lia|split; [left; lia|lia]]]. split; try done. rewrite Hal. lia.
Qed.

(** The packet as far as it is built: [L], with the bytes [d]. *)
Record sofar (s : mst) (f L : list (Z * mbuf)) (d : bytes) : Prop := mk_sofar {
  sf_private : private s (L ++ f);
  sf_nexts : nexts L;
  sf_pkts : Forall (λ a, m_nextpkt a.2 = None) L;
  sf_bytes : contents s L = d;
  sf_head : match L with [] => True | (_, x) :: _ => has M_PKTHDR x = true ∧ pkt_len x = total L end;
}.
(** The same mbuf but for its link. *)
Definition but_next (a b : Z * mbuf) : Prop :=
  b.1 = a.1 ∧ m_nextpkt b.2 = m_nextpkt a.2 ∧ has M_PKTHDR b.2 = has M_PKTHDR a.2 ∧ pkt_len b.2 = pkt_len a.2 ∧ m_len b.2 = m_len a.2.
Lemma but_next_refl l : Forall2 but_next l l.
Proof. induction l; constructor; [by split|done]. Qed.
Lemma but_next_pkts l l' : Forall2 but_next l l' → Forall (λ a, m_nextpkt a.2 = None) l → Forall (λ a, m_nextpkt a.2 = None) l'.
Proof. induction 1 as [|a b ?? (_ & E & _) _ IH]; [done|]. intros [? ?]%Forall_cons. constructor; [by rewrite E|auto]. Qed.
Lemma but_next_total l l' : Forall2 but_next l l' → total l' = total l.
Proof. induction 1 as [|[i x] [j y] ?? (_ & _ & _ & _ & E) _ IH]; [done|]. rewrite !total_cons, IH. cbn in E. by rewrite E. Qed.

Lemma link_chain s L m x f : private s ((m, x) :: L ++ f) → nexts L → m_next x = None →
  ∃ s' L1, link (last_id L) (Some m) (hd_id L) s = Done (hd_id (L1 ++ [(m, x)]), s') ∧ private s' ((L1 ++ [(m, x)]) ++ f) ∧ nexts (L1 ++ [(m, x)]) ∧
    contents s' (L1 ++ [(m, x)]) = contents s L ++ mbytes s x ∧ same s s' f ∧ keeps_fresh s s' ∧ Forall2 but_next L L1.
Proof.
  intros Hp Hn Hx. destruct (snoc_case L) as [->|(L0 & j & y & ->)].
  - exists s, []. split; [done|]. split; [done|]. split; [done|]. split; [cbn; by rewrite app_nil_r|]. split; [apply same_refl|]. split; [by intros ids|constructor].
  - rewrite last_id_snoc. unfold link. assert (Hp1 : private s ((j, y) :: (m, x) :: L0 ++ f)) by (eapply private_perm; [|exact Hp]; solve_Permutation).
    destruct (private_set _ _ _ _ (set_next (Some m)) Hp1 ltac:(done) ltac:(done) ltac:(done)) as (s' & E & Hp' & Hs & Hb). rewrite E, bind_done.
    apply Forall_cons in Hs as [Hbx Hs]. apply same_app in Hs as [HsL Hsf]. cbn [snd] in Hbx.
    exists s', (L0 ++ [(j, set_next (Some m) y)]). split; [|split; [|split; [|split; [|split; [done|split; [by apply (keeps_fresh_upd _ _ _ _ E)|]]]]]].
    + by destruct L0 as [|[] ?].
    + eapply private_perm; [|exact Hp']. solve_Permutation.
    + rewrite <- app_assoc. by apply nexts_link with y.
    + rewrite !contents_app, (same_contents_of _ _ _ HsL), !contents_cons, Hb, Hbx. cbn. by rewrite !app_nil_r.
    + apply Forall2_app; [apply but_next_refl|]. constructor; [by split|constructor].
Qed.

(** The length of a new packet's header grows. *)
Lemma grow_header s L m x f n : private s ((L ++ [(m, x)]) ++ f) → nexts (L ++ [(m, x)]) → Forall (λ a, m_nextpkt a.2 = None) (L ++ [(m, x)]) → m_len x = n → 0 <= n → 0 <= total L → total L + n < 2 ^ 31 →
  match L with [] => has M_PKTHDR x = true ∧ pkt_len x = 0 | (_, y) :: _ => has M_PKTHDR y = true ∧ pkt_len y = total L end →
  ∃ s' L' t, hd_id (L ++ [(m, x)]) = Some t ∧ upd t (λ x, set_pkthdr (pkt_len x + n) (rcvif x) x) s = Done s' ∧
    sofar s' f L' (contents s (L ++ [(m, x)])) ∧ same s s' f ∧ keeps_fresh s s' ∧ hd_id L' = Some t ∧ last_id L' = Some m ∧ total L' = total L + n.
Proof.
  intros Hp Hn Hk Hl Hn0 Ht0 H31 Hh.
  assert (∃ t y r, L ++ [(m, x)] = (t, y) :: r ∧ has M_PKTHDR y = true ∧ pkt_len y = total L) as (t & y & r & E & Hy & Hpl).
  { destruct L as [|[t y] r]; [by exists m, x, []|]. by exists t, y, (r ++ [(m, x)]). }
  assert (Ht : total ((t, y) :: r) = total L + n) by (rewrite <- E, total_app, total_cons; cbn; lia).
  rewrite E in *. cbn [app hd_id]. destruct Hn as [Hn1 Hn2]. apply Forall_cons in Hk as [Hk1 Hk2].
  destruct (private_set _ _ _ _ (λ x, set_pkthdr (pkt_len x + n) (rcvif x) x) Hp ltac:(done) ltac:(done) ltac:(done)) as (s' & Eu & Hp' & Hs & Hb).
  apply same_app in Hs as [Hsr Hsf]. exists s', ((t, set_pkthdr (pkt_len y + n) (rcvif y) y) :: r), t. split; [done|]. split; [done|].
  split; [|split; [done|split; [by apply (keeps_fresh_upd _ _ _ _ Eu)|split; [done|split; [|by rewrite <- Ht, !total_cons]]]]].
  - split; [done|done|by constructor|by rewrite !contents_cons, Hb, (same_contents_of _ _ _ Hsr)|]. split; [done|]. cbn [set_pkthdr pkt_len].
    rewrite Hpl, s32_small by lia. by rewrite <- Ht, !total_cons.
  - pose proof (last_id_snoc L m x) as El. rewrite E in El. unfold last_id in *. by destruct r.
Qed.

Lemma sofar_total s f L d : sofar s f L d → Z.of_nat (length d) = total L ∧ 0 <= total L.
Proof. intros [Hp _ _ <- _]. apply private_app in Hp as [Hp _]. apply private_ok in Hp. split; [by apply contents_length|by apply (total_nonneg s)]. Qed.

(** [send_one]: the packet has [n] bytes more. *)
Lemma send_one_spec atomic io v s L d0 f i c ids d r : enough atomic v → w_resid v = uio_resid io → w_top v = hd_id L → w_mp v = last_id L → sofar s f L d0 →
  fresh s (i :: c :: ids) → areas_ok (uio_iov io) → io_known (uio_segflg io) → gather (uio_iov io) (uio_segflg io) (w_resid v) (uio_mem io) = Some (d, r) → Z.of_nat (length d0) + w_resid v < 2 ^ 31 →
  ∃ n d1 d2 L' io' v' s' ids', send_one max_hdr atomic io v s = Done (0, v', s') ∧ d = d1 ++ d2 ∧ Z.of_nat (length d1) = n ∧ 0 <= n <= w_resid v ∧ n <= MCLBYTES ∧
    (0 < w_resid v → Z.min 100 (w_resid v) <= n ∨ 0 < n ∧ MINCLSIZE <= w_resid v) ∧
    sofar s' f L' (d0 ++ d1) ∧ L' ≠ [] ∧ same s s' f ∧ fresh s' ids' ∧ (ids' = ids ∨ ids' = c :: ids) ∧
    w_top v' = hd_id L' ∧ w_mp v' = last_id L' ∧ w_resid v' = w_resid v - n ∧ w_io v' = Some io' ∧ enough atomic v' ∧ w_clen v' = w_clen v ∧ w_control v' = w_control v ∧
    uio_resid io' = w_resid v - n ∧ areas_ok (uio_iov io') ∧ uio_mem io' = uio_mem io ∧ uio_segflg io' = uio_segflg io ∧
    (0 < w_resid v - n → gather (uio_iov io') (uio_segflg io') (w_resid v - n) (uio_mem io') = Some (d2, r)).
Proof.
  intros Hen Hres Htop Hmp Hso Hf Hio Hseg Hg H31. pose proof Hen as [Hr Hsp]. pose proof Hso as [Hp Hn Hk Hb Hh]. destruct (sofar_total _ _ _ _ Hso) as [Hd0 Ht0].
  assert (Hfirst : bool_decide (w_top v = None) = bool_decide (L = [])) by (rewrite Htop; by destruct L as [|[] ?]).
  destruct (send_room_spec atomic v s i c ids (L ++ f) Hen Hf Hp) as (m & x & n & sp & s1 & ids' & E1 & Hp1 & Hs1 & Hf1 & Hids & [Hl [Hx Hxk] Hxh _ Hro] & Hnr & Hpos & Hcl & Hsp').
  unfold send_one. rewrite E1, bind_done.
  assert (∃ d1 r1 d2, gather (uio_iov io) (uio_segflg io) n (uio_mem io) = Some (d1, r1) ∧ d = d1 ++ d2 ∧ (0 < w_resid v - n → gather r1 (uio_segflg io) (w_resid v - n) (uio_mem io) = Some (d2, r)))
    as (d1 & r1 & d2 & Hg1 & Hd & Hg2).
  { destruct (decide (n = w_resid v)) as [->|Hne]; [exists d, r, []; rewrite app_nil_r; repeat (split; [done|]); lia|].
    replace (w_resid v) with (n + (w_resid v - n)) in Hg by lia. apply gather_split in Hg as (d1 & r1 & d2 & ? & ? & ?); [|done|lia|lia]. by exists d1, r1, d2. }
  destruct (gather_spec _ _ n _ _ _ Hio (proj1 Hnr) Hg1) as [Hd1 _].
  destruct (private_at _ _ _ _ Hp1) as (Hm & _). rewrite (load_spec m s1 x), bind_done by done.
  destruct (old_bytes s1 m x _ n Hp1 ltac:(lia) Hro) as (old & -> & Hold). rewrite bind_done.
  destruct (uiomove_gather n old io d1 r1 Hio Hseg Hold ltac:(lia) ltac:(lia) Hg1) as (r' & -> & Hr' & Hgr). rewrite bind_done.
  destruct (private_fill s1 m x d1 (L ++ f) Hp1 Hl ltac:(lia) ltac:(lia)) as (s2 & s3 & x' & -> & E3 & Hp3 & Hs3 & Hb3 & (M1 & M2 & M3 & M4 & M5) & Hl3 & Hk3).
  rewrite bind_done. rewrite Hd1 in E3, Hl3. rewrite E3, bind_done. cbn [w_mp w_top set_wspace]. rewrite Hmp, Htop.
  apply same_app in Hs1 as [Hs1L Hs1f]. apply same_app in Hs3 as [Hs3L Hs3f]. assert (HsL : same s s3 L) by (by eapply same_trans).
  destruct (link_chain s3 L m x' f Hp3 Hn ltac:(by rewrite M1)) as (s4 & L1 & E4 & Hp4 & Hn4 & Hb4 & Hs4 & Hk4 & HL1). rewrite E4, bind_done.
  rewrite (same_contents_of _ _ _ HsL), Hb, Hb3 in Hb4. pose proof (but_next_total _ _ HL1) as HtL1.
  destruct (grow_header s4 L1 m x' f n Hp4 Hn4) as (s5 & L' & t & Et & E5 & Hso5 & Hs5 & Hk5 & HhL & HlL & _); try done; try lia.
  { apply Forall_app. split; [by eapply but_next_pkts|]. constructor; [cbn [snd]; by rewrite M2|done]. }
  { rewrite HtL1. destruct HL1 as [|[j a] [k b] L L1 (Ej & _ & Eh & Ep & _) HL1]; [|cbn in *; by rewrite Eh, Ep].
    rewrite M3, M5. apply Hxh. by rewrite Hfirst. }
  rewrite Et. cbn [deref]. rewrite bind_done, E5, bind_done. set (io' := io_moved n r' (uio_mem io) io). rewrite Hb4 in Hso5.
  assert (Hu : u32 (uio_resid io') = w_resid v - n) by (unfold io'; cbn [io_moved uio_resid]; rewrite <- Hres; apply u32_small; lia).
  exists n, d1, d2, L', io', (set_wtop (Some t) (Some m) (set_wresid (u32 (uio_resid io')) (set_wio (Some io') (set_wspace sp v)))), s5, ids'.
  split; [done|]. split; [done|]. split; [done|]. split; [done|]. split; [done|]. split; [done|]. split; [done|]. split; [by destruct L'|].
  split; [eapply same_trans; [exact Hs1f|]; eapply same_trans; [exact Hs3f|]; by eapply same_trans|]. split; [by apply Hk5, Hk4, Hk3|]. split; [done|].
  split; [done|]. split; [done|]. split; [exact Hu|]. split; [done|]. split.
  { split; [change (0 <= u32 (uio_resid io') < 2 ^ 31); rewrite Hu; lia|]. unfold spare. cbn [w_top set_wtop]. rewrite bool_decide_false, andb_false_r by done.
    change (u32 (uio_resid io') + 0 <= sp < 2 ^ 31). rewrite Hu. lia. }
  split; [done|]. split; [done|]. split; [unfold io'; cbn; lia|]. split; [done|]. split; [done|]. split; [done|].
  intros Hpos2. cbn [io' io_moved uio_iov uio_segflg uio_mem]. rewrite Hgr by done. auto.
Qed.
End send.

(** A protocol that takes what [PRU_SEND] brings: [sent] is what it has been given, packet by packet. *)
Class SendLaws (P : Type) `{ProtoOps P} := {
  sent : P → list bytes;
  send_takes i (st : nst P) so m lm d f : socks st !! i = Some so → hd_id lm = Some m → sofar (net_mem st) f lm d →
    ∃ st' so', usrreq i PRU_SEND (Some m) None None st = Done (0, st') ∧ sent (proto st') = sent (proto st) ++ [d] ∧
      private (net_mem st') f ∧ same (net_mem st) (net_mem st') f ∧ keeps_fresh (net_mem st) (net_mem st') ∧ socks st' !! i = Some so';
}.

Section sends.
Context {P U : Type} `{SendLaws P} `{UserReadLaws U} (max_hdr : Z) (Hhdr : 0 <= max_hdr < MCLBYTES).
Implicit Types st : nst P.
Implicit Types v : svars (U := U).

(** No MSG_OOB, MSG_DONTROUTE or MSG_EOR. *)
Definition plain_flags (flags : Z) : Prop := isset MSG_OOB flags = false ∧ isset MSG_DONTROUTE flags = false ∧ isset MSG_EOR flags = false.
(** What the caller still has: [d]. *)
Definition brings (io : uio U) v (d : bytes) : Prop :=
  w_io v = Some io ∧ w_resid v = uio_resid io ∧ (areas_ok (uio_iov io) ∧ io_known (uio_segflg io)) ∧ Z.of_nat (length d) = w_resid v ∧
  (0 < w_resid v → ∃ r, gather (uio_iov io) (uio_segflg io) (w_resid v) (uio_mem io) = Some (d, r)).
(** Two addresses for every byte are more than enough. *)
Definition supply (s : mst) (n : Z) : Prop := ∃ ids, fresh s ids ∧ 2 * n + 2 <= Z.of_nat (length ids).

Lemma brings_gather io v d : 0 <= w_resid v → brings io v d → ∃ r, gather (uio_iov io) (uio_segflg io) (w_resid v) (uio_mem io) = Some (d, r).
Proof.
  intros Hr (_ & _ & _ & Hl & Hg). destruct (decide (0 < w_resid v)); [auto|]. assert (w_resid v = 0) as E by lia. rewrite E in *. exists (uio_iov io).
  rewrite gather_zero. by destruct d.
Qed.

(** [send_one] in these terms. *)
Lemma one_more atomic io v s L d0 f d : enough max_hdr atomic v → brings io v d → w_top v = hd_id L → w_mp v = last_id L → sofar s f L d0 → supply s (w_resid v) →
  Z.of_nat (length d0) + w_resid v < 2 ^ 31 →
  ∃ d1 d2 L' io' v' s', send_one max_hdr atomic io v s = Done (0, v', s') ∧ d = d1 ++ d2 ∧ Z.of_nat (length d1) <= MCLBYTES ∧ (0 < w_resid v → d1 ≠ []) ∧
    sofar s' f L' (d0 ++ d1) ∧ L' ≠ [] ∧ same s s' f ∧ (0 < w_resid v → supply s' (w_resid v')) ∧ w_top v' = hd_id L' ∧ w_mp v' = last_id L' ∧
    enough max_hdr atomic v' ∧ brings io' v' d2 ∧ w_clen v' = w_clen v ∧ w_control v' = w_control v.
Proof.
  intros Hen Hbr Htop Hmp Hso (ids & Hf & Hids) H31. pose proof Hen as [Hr _]. destruct (brings_gather io v d (proj1 Hr) Hbr) as [r Hg]. destruct Hbr as (_ & Hres & [Hok Hkn] & Hl & _).
  destruct ids as [|i [|c ids]]; [cbn in Hids; lia..|].
  destruct (send_one_spec max_hdr Hhdr atomic io v s L d0 f i c ids d r) as (n & d1 & d2 & L' & io' & v' & s' & ids' & E & Hd & Hd1 & Hn & Hcl & Hpos & Hso' & Hne & Hs & Hf' & Hids' & Ht' & Hm' & Hr' & Hio' & Hen' & Hc1 & Hc2 & Hri & Hok' & _ & Hseg & Hg'); try done.
  assert (Hl2 : Z.of_nat (length d2) = w_resid v - n) by (rewrite <- Hl, Hd, length_app; lia).
  exists d1, d2, L', io', v', s'. split; [done|]. split; [done|]. split; [lia|]. split; [intros ? ->; cbn in Hd1; lia|]. split; [done|]. split; [done|]. split; [done|].
  split; [intros ?; exists ids'; split; [done|]; rewrite Hr'; cbn [length] in Hids; destruct Hids' as [-> | ->]; cbn [length]; lia|]. split; [done|]. split; [done|]. split; [done|].
  split; [|done]. split; [done|]. split; [by rewrite Hr', Hri|]. split; [split; [done|by rewrite Hseg]|]. split; [by rewrite Hr'|]. rewrite Hr'. intros Hpos2. exists r. by apply Hg'.
Qed.
Lemma mark_none flags v s : plain_flags flags → mark_end flags v s = Done s.
Proof. intros (_ & _ & Hf). unfold mark_end. by rewrite Hf. Qed.

(** The packet of a protocol with [PR_ATOMIC] is built whole. *)
Lemma fill_whole fuel flags io v s L d0 f d : plain_flags flags → enough max_hdr true v → brings io v d → w_top v = hd_id L → w_mp v = last_id L → sofar s f L d0 → supply s (w_resid v) →
  Z.of_nat (length d0) + w_resid v < 2 ^ 31 → w_resid v < Z.of_nat fuel →
  ∃ L' io' v' s', fill_loop max_hdr fuel true flags io v s = Done (0, v', s') ∧ sofar s' f L' (d0 ++ d) ∧ L' ≠ [] ∧ same s s' f ∧
    w_top v' = hd_id L' ∧ w_resid v' = 0 ∧ brings io' v' [] ∧ w_control v' = w_control v.
Proof.
  intros Hfl. revert io v s L d0 d. induction fuel as [|fuel IH]; intros io v s L d0 d Hen Hbr Htop Hmp Hso Hsup H31 Hf; [destruct Hen; lia|]. cbn [fill_loop].
  destruct (one_more true io v s L d0 f d Hen Hbr Htop Hmp Hso Hsup H31) as (d1 & d2 & L' & io' & v' & s' & -> & -> & _ & Hne & Hso' & HL' & Hs & Hsup' & Ht' & Hm' & Hen' & Hbr' & _ & Hc).
  rewrite bind_done. cbn [Z.eqb negb]. pose proof Hbr' as (Hio' & Hri & _ & Hl2 & _). pose proof Hbr as (_ & _ & _ & Hl & _). rewrite length_app in Hl.
  destruct (Z.eqb_spec (w_resid v') 0) as [E0|E0].
  - rewrite mark_none, bind_done by done. assert (d2 = []) as -> by (destruct d2; [done|cbn in Hl2; lia]). rewrite app_nil_r. by exists L', io', v', s'.
  - pose proof Hen' as [Hr' Hsp']. assert (0 <= spare max_hdr true v') by (unfold spare; destruct (_ && _); lia). rewrite (proj2 (Z.eqb_neq (w_space v') 0)) by lia.
    cbn [negb andb]. rewrite Hio'. cbn [deref]. rewrite bind_done.
    assert (0 < w_resid v) by lia. assert (length d1 ≠ 0%nat) by (intros ?%length_zero_iff_nil; by apply Hne).
    destruct (IH io' v' s' L' (d0 ++ d1) d2) as (L2 & io2 & v2 & s2 & E2 & Hso2 & HL2 & Hs2 & Ht2 & Hr2 & Hbr2 & Hc2); try done; [auto|rewrite length_app; lia|lia|].
    exists L2, io2, v2, s2. rewrite app_assoc. repeat (split; [done|]). split; [by eapply same_trans|]. repeat (split; [done|]). by rewrite Hc2.
Qed.

(** Between two packets. *)
Record between (i : Z) (f : list (Z * mbuf)) (io : uio U) (atomic : bool) v (d : bytes) st : Prop := mk_between {
  bt_socket : ∃ so, socks st !! i = Some so;
  bt_private : private (net_mem st) f;
  bt_enough : enough max_hdr atomic v;
  bt_brings : brings io v d;
  bt_vars : w_top v = None ∧ w_mp v = None ∧ w_control v = None;
  bt_supply : supply (net_mem st) (w_resid v);
}.
(** What the protocol has been given since. *)
Record handed (i : Z) (f : list (Z * mbuf)) st v (st' : nst P) (ps : list bytes) : Prop := mk_handed {
  ha_vars : w_top v = None ∧ w_control v = None;
  ha_sent : sent (proto st') = sent (proto st) ++ ps;
  ha_private : private (net_mem st') f;
  ha_same : same (net_mem st) (net_mem st') f;
  ha_socket : ∃ so, socks st' !! i = Some so;
}.

Lemma sofar_none s f : private s f → sofar s f [] [].
Proof. intros Hp. split; [done|constructor|constructor|done|done]. Qed.

(** The call of the protocol with the packet [L]. *)
Lemma hand_over i flags f v st s1 L d (fuel : nat) : plain_flags flags → (∃ so, socks st !! i = Some so) → sofar s1 f L d → L ≠ [] → same (net_mem st) s1 f → w_top v = hd_id L → w_control v = None →
  ∃ st', usrreq i (if isset MSG_OOB flags then PRU_SENDOOB else PRU_SEND) (w_top v) None (w_control v) (set_mem s1 st) = Done (0, st') ∧
    handed i f st (set_sent v) st' [d] ∧ keeps_fresh s1 (net_mem st').
Proof.
  intros (-> & _ & _) [so Hso] Hp HL Hs -> ->. destruct (hd_id_Some L HL) as (m & x & r & -> & Eh). rewrite Eh.
  destruct (send_takes i (set_mem s1 st) so m ((m, x) :: r) d f Hso Eh Hp) as (st' & so' & E & Hsent & Hpr & Hs' & Hk & Hso').
  exists st'. split; [done|]. split; [|done]. split; [done|done|done|by eapply same_trans|by exists so'].
Qed.

Lemma send_all fuel i flags f io atomic v d st : plain_flags flags → between i f io atomic v d st → w_resid v < Z.of_nat fuel →
  ∃ io' v' st' ps, send_loop max_hdr fuel i None atomic false flags v st = Done (0, v', st') ∧ handed i f st v' st' ps ∧ w_resid v' = 0 ∧
    w_io v' = Some io' ∧ uio_resid io' = 0 ∧ concat ps = d ∧ (if atomic then ps = [d] else Forall (λ p, Z.of_nat (length p) <= MCLBYTES) ps).
Proof.
  intros Hfl. revert io v d st. induction fuel as [|fuel IH]; intros io v d st [Hso Hp Hen Hbr (Ht & Hmp & Hctl) Hsup] Hf; [destruct Hen; lia|]. cbn [send_loop].
  pose proof Hbr as (Hio & Hres & _ & Hl & _). rewrite Hio. pose proof Hen as [Hr _]. pose proof (sofar_none _ _ Hp) as Hso0. destruct atomic.
  - destruct (fill_whole (Datatypes.S (Z.to_nat (w_resid v))) flags io v (net_mem st) [] [] f d) as (L & io1 & v1 & s1 & -> & Hso1 & HL & Hs1 & Ht1 & Hr1 & Hbr1 & Hc1); try done; [cbn; lia|lia|].
    rewrite bind_done. cbn [Z.eqb negb]. rewrite bind_done.
    destruct (hand_over i flags f v1 st s1 L d fuel Hfl Hso Hso1 HL Hs1 Ht1 ltac:(by rewrite Hc1)) as (st2 & -> & Hh & _). rewrite !bind_done. cbn [Z.eqb negb w_resid set_sent].
    rewrite Hr1. cbn [Z.eqb negb andb]. destruct Hbr1 as (Hi1 & Hri1 & _). exists io1, (set_sent v1), st2, [d]. split; [done|]. split; [done|]. split; [done|]. split; [done|].
    split; [congruence|]. split; [cbn; apply app_nil_r|done].
  - cbn [fill_loop]. destruct (one_more false io v (net_mem st) [] [] f d Hen Hbr Ht Hmp Hso0 Hsup ltac:(cbn; lia)) as (d1 & d2 & L & io1 & v1 & s1 & -> & -> & Hcl & Hne & Hso1 & HL & Hs1 & Hsup1 & Ht1 & Hm1 & Hen1 & Hbr1 & _ & Hc1).
    rewrite bind_done. cbn [Z.eqb negb]. assert ((if w_resid v1 =? 0 then s ← mark_end flags v1 s1; Done (0, v1, s)
      else if negb (w_space v1 =? 0) && false then io2 ← deref (w_io v1); fill_loop max_hdr (Z.to_nat (w_resid v)) false flags io2 v1 s1 else Done (0, v1, s1)) = Done (0, v1, s1)) as ->.
    { destruct (w_resid v1 =? 0); [by rewrite mark_none|by rewrite andb_false_r]. }
    rewrite bind_done. cbn [Z.eqb negb]. rewrite bind_done. cbn [app] in Hso1.
    destruct (hand_over i flags f v1 st s1 L d1 fuel Hfl Hso Hso1 HL Hs1 Ht1 ltac:(by rewrite Hc1)) as (st2 & -> & Hh & Hk). rewrite !bind_done. cbn [Z.eqb negb w_resid w_space set_sent].
    pose proof Hbr1 as (Hi1 & Hri1 & Hok1 & Hl2 & Hg1). rewrite length_app in Hl. destruct (Z.eqb_spec (w_resid v1) 0) as [E0|E0]; cbn [negb andb].
    + exists io1, (set_sent v1), st2, [d1]. assert (d2 = []) as -> by (destruct d2; [done|cbn in Hl2; lia]). split; [done|]. split; [done|]. split; [done|]. split; [done|].
      split; [congruence|]. split; [done|by repeat constructor].
    + pose proof Hen1 as [Hr1 Hsp1]. unfold spare in Hsp1. cbn [andb] in Hsp1. rewrite (proj2 (Z.eqb_neq (w_space v1) 0)) by lia. cbn [negb].
      assert (0 < w_resid v) by lia. assert (length d1 ≠ 0%nat) by (intros ?%length_zero_iff_nil; by apply Hne).
      destruct Hh as [_ Hsent Hp2 Hs2 Hso2]. destruct (IH io1 (set_sent v1) d2 st2) as (io3 & v3 & st3 & ps & -> & [Hv3 Hsent3 Hp3 Hs3 Hso3] & Hr3 & Hi3 & Hz3 & <- & Hps).
      { destruct (Hsup1 ltac:(done)) as (ids & Hids & ?). split; [done|done| |exact Hbr1|done|exists ids; split; [by apply Hk|done]].
        split; [done|]. unfold spare. cbn. lia. }
      { cbn. lia. }
      exists io3, v3, st3, (d1 :: ps). split; [done|]. split.
      { split; [done|by rewrite Hsent3, Hsent, <- app_assoc|done|by eapply same_trans|done]. }
      repeat (split; [done|]). by constructor.
Qed.

(** ** Sending on a socket that has the room *)

Lemma unlock_snd_spec st i so : socks st !! i = Some so →
  ∃ st', unlock_snd i st = Done st' ∧ net_mem st' = net_mem st ∧ proto st' = proto st ∧ socks st' !! i = Some (with_snd (unlocked (so_snd so)) so).
Proof.
  intros Hso. unfold unlock_snd. rewrite (load_so_spec _ _ _ Hso), bind_done, (upd_so_spec _ _ _ _ Hso), bind_done.
  destruct (isset _ _); eexists; (split; [done|]); repeat (split; [done|]); apply lookup_insert_eq.
Qed.
Lemma unlocked_free b : isset SB_LOCK (sb_flags (unlocked b)) = false.
Proof.
  unfold isset, unlocked, clear. cbn [set_sbflags sb_flags]. rewrite <- Z.land_assoc, (Z.land_comm (Z.lnot SB_WANT)), Z.land_assoc, <- (Z.land_assoc (sb_flags b)).
  change (Z.land (Z.lnot SB_LOCK) SB_LOCK) with 0. by rewrite Z.land_0_r.
Qed.

(** A connected socket that is open for writing and that nobody writes to, with room for [n] bytes. *)
Record writable (i : Z) (so : socket) (n : Z) st : Prop := mk_writable {
  wr_socket : socks st !! i = Some so;
  wr_open : sohas SS_CANTSENDMORE so = false ∧ so_error so = 0;
  wr_conn : sohas SS_ISCONNECTED so = true;
  wr_free : isset SB_LOCK (sb_flags (so_snd so)) = false;
  wr_hiwat : n <= sb_hiwat (so_snd so);
  wr_room : n + (if sosendallatonce so then max_hdr else 0) <= sbspace (so_snd so);
}.

Lemma sbspace_range b : sbspace b < 2 ^ 31.
Proof. unfold sbspace. pose proof (s32_range (u32 (sb_hiwat b - sb_cc b))). lia. Qed.

(** The lock does not count. *)
Lemma ready_open i so v st : writable i so (w_resid v) st → 0 <= w_resid v < 2 ^ 31 → w_clen v = 0 → ∀ fl flags, isset MSG_OOB flags = false →
  send_ready (with_snd (set_sbflags fl (so_snd so)) so) None (sosendallatonce so) flags v = inr (Some (sbspace (so_snd so))).
Proof.
  intros [_ [Hc He] Hcon _ Hhi Hroom] Hr Hcl fl flags Hoob. unfold send_ready, sohas, isset in *. cbn [with_snd set_sbflags so_state so_error so_proto so_snd sb_hiwat sb_lowat].
  rewrite Hc, He, Hcon. cbn [Z.eqb negb andb]. rewrite Hcl. change (u32 0) with 0. rewrite Hoob. change (sbspace (set_sbflags fl (so_snd so))) with (sbspace (so_snd so)).
  pose proof (sbspace_range (so_snd so)). assert (0 <= (if sosendallatonce so then max_hdr else 0)) by (destruct (sosendallatonce so); lia).
  rewrite !Z.add_0_r, Z.sub_0_r, u32_idem, (u32_small (sbspace _)), (u32_small (w_resid v)) by lia.
  rewrite (proj2 (Z.ltb_ge (sb_hiwat (so_snd so)) (w_resid v))), (proj2 (Z.ltb_ge (sb_hiwat (so_snd so)) 0)), (proj2 (Z.ltb_ge (sbspace (so_snd so)) (w_resid v))) by lia.
  by rewrite andb_false_r.
Qed.

(** C30: With room to spare a write takes everything.  The socket is connected, open for writing, without a pending error, and nobody else writes to it; the send
    buffer's space is at least the number of bytes, and for a protocol with [PR_ATOMIC] at least [max_hdr] more ([datagram_split] shows what happens without); the caller's areas
    are not null and can be read; none of [MSG_OOB], [MSG_DONTROUTE], [MSG_EOR] is set, there is no address, packet or control mbuf; the allocator has two fresh blocks for
    every byte, and two; and [PRU_SEND] takes what it is given ([SendLaws]).  Then [sosend] returns 0 with nothing left of the [uio], and what [PRU_SEND] has
    been given is, in order, the caller's bytes: one packet with all of them for a protocol with [PR_ATOMIC], otherwise pieces of at most a cluster.  Every loop of
    it ends, the mbufs of others keep their bytes, and the send buffer is not locked afterwards. *)
Theorem sosend_delivers st i so io flags d r f : writable i so (uio_resid io) st → plain_flags flags → areas_ok (uio_iov io) → io_known (uio_segflg io) → 0 <= uio_resid io < 2 ^ 31 →
  gather (uio_iov io) (uio_segflg io) (uio_resid io) (uio_mem io) = Some (d, r) → private (net_mem st) f → supply (net_mem st) (uio_resid io) →
  ∃ v io' st' so' ps, sosend max_hdr i None (Some io) None None flags st = Done (Sent, 0, v, st') ∧ w_io v = Some io' ∧ uio_resid io' = 0 ∧
    sent (proto st') = sent (proto st) ++ ps ∧ concat ps = d ∧ (if sosendallatonce so then ps = [d] else Forall (λ p, Z.of_nat (length p) <= MCLBYTES) ps) ∧
    private (net_mem st') f ∧ same (net_mem st) (net_mem st') f ∧ socks st' !! i = Some so' ∧ isset SB_LOCK (sb_flags (so_snd so')) = false.
Proof.
  intros Hw Hfl Hok Hseg Hr Hg Hp Hsup. pose proof Hw as [Hso _ _ Hfree _ Hroom]. pose proof Hfl as (Hoob & Hdr & _). unfold sosend.
  rewrite (load_so_spec _ _ _ Hso), !bind_done, Hdr, Hfree. rewrite bool_decide_false, orb_false_r by (intros Hn; by apply Hn). cbn [andb].
  rewrite (upd_so_spec _ _ _ _ Hso), bind_done, u32_small by lia. set (st1 := set_socks _ st).
  assert (Hso1 : socks st1 !! i = Some (with_snd (set_sbflags (Z.lor (sb_flags (so_snd so)) SB_LOCK) (so_snd so)) so)) by apply lookup_insert_eq.
  cbn [send_rounds]. rewrite (load_so_spec _ _ _ Hso1), bind_done. set (v := mk_svars None None (uio_resid io) 0 0 None (Some io)).
  rewrite (ready_open i so v st Hw Hr eq_refl _ flags Hoob). set (v1 := set_wspace _ _).
  pose proof (sbspace_range (so_snd so)). destruct (gather_spec _ _ _ _ _ _ Hok (proj1 Hr) Hg) as [Hl _].
  destruct (send_all (Datatypes.S (Z.to_nat (w_resid v))) i flags f io (sosendallatonce so) v1 d st1) as (io' & v' & st2 & ps & -> & [[Htop Hctl] Hsent Hp2 Hs2 [so2 Hso2]] & Hr2 & Hio2 & Hz & Hc & Hps); try done.
  { split; [by eexists|done| | |done|done].
    - split; [done|]. change (uio_resid io + spare max_hdr (sosendallatonce so) v1 <= sbspace (so_snd so) < 2 ^ 31). unfold spare. cbn [w_top v1 set_wspace set_wtop v].
      rewrite bool_decide_true, andb_true_r by done. lia.
    - split; [done|]. split; [done|]. split; [done|]. split; [done|]. intros _. by exists r. }
  { change (uio_resid io < Z.of_nat (Datatypes.S (Z.to_nat (uio_resid io)))). lia. }
  rewrite bind_done, Hr2. cbn [Z.eqb negb orb]. destruct (unlock_snd_spec st2 i so2 Hso2) as (st3 & -> & Em & Ep & Hso3).
  rewrite !bind_done, Htop, bind_done, Hctl, bind_done. exists v', io', st3, (with_snd (unlocked (so_snd so2)) so2), ps.
  rewrite Em, Ep. do 9 (split; [done|]). apply unlocked_free.
Qed.
End sends.

(** ** A protocol that keeps a log, and witnesses *)

Lemma mapM_app {A B} (g : A → option B) l k : mapM g (l ++ k) = (a ← mapM g l; b ← mapM g k; Some (a ++ b)).
Proof.
  induction l as [|x l IH]; cbn; [by destruct (mapM g k)|]. destruct (g x); [|done]. cbn. unfold mbind, option_bind in *. rewrite IH.
  destruct (mapM g l); [|done]. by destruct (mapM g k).
Qed.
Lemma mapM_shift {A} (g h : Z → option A) a m n : (∀ k, g (a + k) = h k) → mapM g (seqZ (a + m) n) = mapM h (seqZ m n).
Proof. intros Hg. rewrite <- fmap_add_seqZ. induction (seqZ m n) as [|x l IH]; [done|]. cbn. by rewrite Hg, IH. Qed.
#[export] Instance user_map_reads : UserReadLaws (gmap Z Z).
Proof.
  split; intros s p *; cbn [u_read user_map]; unfold peek.
  - intros Hn E%length_mapM. rewrite <- E, length_seqZ. lia.
  - intros Hm Hn. rewrite seqZ_app, mapM_app by done. replace (0 + m) with (m + 0) by lia.
    rewrite (mapM_shift _ (λ k, u !! u32 (u32 (p + m) + k)) m 0 n); [done|]. intros k. by rewrite u32_add, Z.add_assoc.
Qed.

(** The bytes of a chain of mbufs. *)
Fixpoint chain_bytes (fuel : nat) (m : option Z) (s : mst) : bytes :=
  match fuel, m with
  | Datatypes.S fuel, Some i => match mbufs s !! i with Some x => mbytes s x ++ chain_bytes fuel (m_next x) s | None => [] end
  | _, _ => []
  end.
Lemma chain_bytes_spec s L fuel : private s L → nexts L → (length L < fuel)%nat → chain_bytes fuel (hd_id L) s = contents s L.
Proof.
  revert fuel. induction L as [|[i x] L IH]; intros fuel Hp Hn Hf; destruct fuel as [|fuel]; cbn [length] in Hf; try lia; [done|].
  apply private_at in Hp as (Hi & _ & _ & _ & _ & Hp). destruct Hn as [Hx Hn]. cbn [chain_bytes hd_id]. rewrite Hi, Hx, IH by (done || lia). by rewrite contents_cons.
Qed.
#[export] Instance log_proto : ProtoOps (list bytes) := {|
  usrreq _ req m _ _ st :=
    Done (0, if req =? PRU_SEND then mk_nst (socks st) (net_mem st) (woken st) (proto st ++ [chain_bytes (turns (net_mem st)) m (net_mem st)]) else st)
|}.
#[export, program] Instance log_laws : SendLaws (list bytes) := {| sent log := log |}.
Next Obligation.
  intros i st so m lm d f Hso Hm [Hp Hn _ Hb _]. apply private_app in Hp as [Hp Hpf]. eexists _, so. split; [done|].
  cbn [Z.eqb proto net_mem socks]. rewrite <- Hm, chain_bytes_spec, Hb by (done || by apply private_turns). repeat (split; [done|]). split; [apply same_refl|]. split; [by intros ?|done].
Qed.

(** The three bytes 4, 5, 6 in two areas, a connected socket with room, and memory for mbufs. *)
Definition out_user : gmap Z Z := {[1000 := 4; 2000 := 5; 2001 := 6]}.
Definition out_io : uio (gmap Z Z) := mk_uio [(1000, 1); (2000, 2)] 0 3 0 out_user.
Definition out_so (p : protosw) : socket :=
  mk_socket 1 0 0 SS_ISCONNECTED (Some 100) p None None None 0 0 0 0 0 0 0 zero_sockbuf (mk_sockbuf 0 8192 0 16384 2048 None 0) 0 0.
Definition out_mem (free : list Z) : mst := mk_mst ∅ ∅ 0 0 (map Some free).
Definition out_net (p : protosw) : nst (list bytes) := mk_nst {[1 := out_so p]} (out_mem (seqZ 1 8)) [] [].

Lemma sosend_delivers_witness : ∃ v io' st' so' ps, sosend 60 1 None (Some out_io) None None 0 (out_net demo_udp) = Done (Sent, 0, v, st') ∧ w_io v = Some io' ∧ uio_resid io' = 0 ∧
    sent (proto st') = sent (proto (out_net demo_udp)) ++ ps ∧ concat ps = [4; 5; 6] ∧
    (if sosendallatonce (out_so demo_udp) then ps = [[4; 5; 6]] else Forall (λ p, Z.of_nat (length p) <= MCLBYTES) ps) ∧
    private (net_mem st') [] ∧ same (net_mem (out_net demo_udp)) (net_mem st') [] ∧ socks st' !! 1 = Some so' ∧ isset SB_LOCK (sb_flags (so_snd so')) = false.
Proof.
  apply (sosend_delivers 60 ltac:(split; [lia|by vm_compute]) (out_net demo_udp) 1 (out_so demo_udp) out_io 0 [4; 5; 6] [(2002, 0)] []).
  - by split.
  - done.
  - repeat constructor; cbn; lia.
  - done.
  - done.
  - by vm_compute.
  - by split; constructor.
  - exists (seqZ 1 8). split; [|done]. split; [by exists []|]. split; [apply NoDup_seqZ|]. by apply Forall_true.
Defined.

(** A packet of 2000 bytes, and a send buffer with room for 2048. *)
Definition big_io : uio (gmap Z Z) := mk_uio [(0, 2000)] 0 2000 0 (list_to_map (zip (seqZ 0 2000) (replicate 2000 7))).
Definition big_so : socket :=
  mk_socket 2 0 0 SS_ISCONNECTED (Some 100) demo_udp None None None 0 0 0 0 0 0 0 zero_sockbuf (mk_sockbuf 0 2048 0 16384 2048 None 0) 0 0.
Definition big_net : nst (list bytes) := mk_nst {[1 := big_so]} (out_mem (seqZ 1 8)) [] [].
(** The first cluster of a packet leaves out [max_hdr] bytes, but the whole of it is counted against the space: with less than [max_hdr] bytes to spare
    a datagram is sent as two. *)
Lemma datagram_split : ('(_, e, _, st) ← sosend 60 1 None (Some big_io) None None 0 big_net; Done (e, map length (proto st))) = Done (0, [1988; 12]%nat).
Proof. by vm_compute. Qed.
