(* ===== verification/Tcp.v ===== *)
(** * TCP: reassembly and the estimate of the round trip ([Kernel/netinet/tcp_input.c], [tcp_output.c], [tcp_timer.c], [tcp_subr.c])

    [tcp_reass] keeps the segments that came too early in a ring that hangs off the control block, sorted by
    sequence number, trims what overlaps and is to give the socket's receive buffer everything that is contiguous;
    but the loop that delivers the ring reads the link that [remque] has cleared ([unlinked_next]).  A segment's header lies in the memory of its first mbuf, in front of the data: [tseg] is what the ring uses of it
    ([REASS_MBUF] is the overlaid pointer to the mbuf); the ring is a list in its order from [seg_next].

    Not modelled: [tcp_input] around the reassembly, [tcp_output] and what a timer that has run out does. *)

From S2P Require Import Prelude Mbuf Sockbuf Socket.

Definition TH_FIN := 1.
Definition TCPS_CLOSED := 0.
Definition TCPS_SYN_RECEIVED := 3.
Definition TCPS_ESTABLISHED := 4.
Definition TF_ACKNOW := 1.
Definition TF_DELACK := 2.
Definition TCPT_REXMT := 0.
Definition TCPT_PERSIST := 1.
Definition TCPT_NTIMERS := 4.
Definition TCP_RTT_SHIFT := 3.
Definition TCP_RTTVAR_SHIFT := 2.
Definition PR_SLOWHZ := 2.
Definition TCPTV_PERSMIN := 5 * PR_SLOWHZ.
Definition TCPTV_PERSMAX := 60 * PR_SLOWHZ.
Definition TCPTV_REXMTMAX := 64 * PR_SLOWHZ.
Definition TCP_MAXRXTSHIFT := 12.
Definition tcp_backoff : list Z := [1; 2; 4; 8; 16; 32; 64; 64; 64; 64; 64; 64; 64].

(** Comparisons modulo 2^32. *)
Definition SEQ_LT (a b : Z) : bool := s32 (u32 (a - b)) <? 0.
Definition SEQ_LEQ (a b : Z) : bool := s32 (u32 (a - b)) <=? 0.
Definition SEQ_GT (a b : Z) : bool := 0 <? s32 (u32 (a - b)).
Definition SEQ_GEQ (a b : Z) : bool := 0 <=? s32 (u32 (a - b)).
Definition TCPS_HAVERCVDSYN (s : Z) : bool := TCPS_SYN_RECEIVED <=? s.

(** What the ring uses of a [tcpiphdr]. *)
Record tseg : Type := mk_tseg { ti_seq : Z; ti_len : Z; ti_flags : Z; ti_mbuf : Z }.

(** The fields of [tcpcb] that this part of TCP uses. *)
Record tcpcb : Type := mk_tcpcb {
  segs : list tseg; t_state : Z; t_timer : list Z; t_rxtshift : Z; t_rxtcur : Z; t_flags : Z;
  snd_una : Z; snd_nxt : Z; snd_up : Z; iss : Z; rcv_nxt : Z; irs : Z; rcv_adv : Z; snd_max : Z;
  t_rtt : Z; t_srtt : Z; t_rttvar : Z; t_rttmin : Z; t_softerror : Z }.
Definition set_segs l t := mk_tcpcb l (t_state t) (t_timer t) (t_rxtshift t) (t_rxtcur t) (t_flags t) (snd_una t) (snd_nxt t) (snd_up t) (iss t) (rcv_nxt t) (irs t) (rcv_adv t) (snd_max t) (t_rtt t) (t_srtt t) (t_rttvar t) (t_rttmin t) (t_softerror t).
Definition set_timers l t := mk_tcpcb (segs t) (t_state t) l (t_rxtshift t) (t_rxtcur t) (t_flags t) (snd_una t) (snd_nxt t) (snd_up t) (iss t) (rcv_nxt t) (irs t) (rcv_adv t) (snd_max t) (t_rtt t) (t_srtt t) (t_rttvar t) (t_rttmin t) (t_softerror t).
Definition set_rxt n c t := mk_tcpcb (segs t) (t_state t) (t_timer t) n c (t_flags t) (snd_una t) (snd_nxt t) (snd_up t) (iss t) (rcv_nxt t) (irs t) (rcv_adv t) (snd_max t) (t_rtt t) (t_srtt t) (t_rttvar t) (t_rttmin t) (t_softerror t).
Definition set_tflags f t := mk_tcpcb (segs t) (t_state t) (t_timer t) (t_rxtshift t) (t_rxtcur t) f (snd_una t) (snd_nxt t) (snd_up t) (iss t) (rcv_nxt t) (irs t) (rcv_adv t) (snd_max t) (t_rtt t) (t_srtt t) (t_rttvar t) (t_rttmin t) (t_softerror t).
Definition set_snd n t := mk_tcpcb (segs t) (t_state t) (t_timer t) (t_rxtshift t) (t_rxtcur t) (t_flags t) n n n (iss t) (rcv_nxt t) (irs t) (rcv_adv t) n (t_rtt t) (t_srtt t) (t_rttvar t) (t_rttmin t) (t_softerror t).
Definition set_rcv_nxt n t := mk_tcpcb (segs t) (t_state t) (t_timer t) (t_rxtshift t) (t_rxtcur t) (t_flags t) (snd_una t) (snd_nxt t) (snd_up t) (iss t) n (irs t) (rcv_adv t) (snd_max t) (t_rtt t) (t_srtt t) (t_rttvar t) (t_rttmin t) (t_softerror t).
Definition set_rcv_adv n t := mk_tcpcb (segs t) (t_state t) (t_timer t) (t_rxtshift t) (t_rxtcur t) (t_flags t) (snd_una t) (snd_nxt t) (snd_up t) (iss t) (rcv_nxt t) (irs t) n (snd_max t) (t_rtt t) (t_srtt t) (t_rttvar t) (t_rttmin t) (t_softerror t).
Definition set_rtt r s v e t := mk_tcpcb (segs t) (t_state t) (t_timer t) (t_rxtshift t) (t_rxtcur t) (t_flags t) (snd_una t) (snd_nxt t) (snd_up t) (iss t) (rcv_nxt t) (irs t) (rcv_adv t) (snd_max t) r s v (t_rttmin t) e.

Definition tcp_rcvseqinit (t : tcpcb) : tcpcb := set_rcv_adv (u32 (irs t + 1)) (set_rcv_nxt (u32 (irs t + 1)) t).
Definition tcp_sendseqinit (t : tcpcb) : tcpcb := set_snd (iss t) t.

(** The counters of [tcpstat] that change here. *)
Record tcpstat : Type := mk_tcpstat {
  tcps_rcvpack : Z; tcps_rcvbyte : Z; tcps_rcvduppack : Z; tcps_rcvdupbyte : Z; tcps_rcvoopack : Z; tcps_rcvoobyte : Z; tcps_rttupdated : Z }.
Definition count_pack n c := mk_tcpstat (u32 (tcps_rcvpack c + 1)) (u32 (tcps_rcvbyte c + n)) (tcps_rcvduppack c) (tcps_rcvdupbyte c) (tcps_rcvoopack c) (tcps_rcvoobyte c) (tcps_rttupdated c).
Definition count_dup n c := mk_tcpstat (tcps_rcvpack c) (tcps_rcvbyte c) (u32 (tcps_rcvduppack c + 1)) (u32 (tcps_rcvdupbyte c + n)) (tcps_rcvoopack c) (tcps_rcvoobyte c) (tcps_rttupdated c).
Definition count_oo n c := mk_tcpstat (tcps_rcvpack c) (tcps_rcvbyte c) (tcps_rcvduppack c) (tcps_rcvdupbyte c) (u32 (tcps_rcvoopack c + 1)) (u32 (tcps_rcvoobyte c + n)) (tcps_rttupdated c).
Definition count_rtt c := mk_tcpstat (tcps_rcvpack c) (tcps_rcvbyte c) (tcps_rcvduppack c) (tcps_rcvdupbyte c) (tcps_rcvoopack c) (tcps_rcvoobyte c) (u32 (tcps_rttupdated c + 1)).

(** ** Reassembly *)

Section reassembly.
Context {P : Type}.
Implicit Types st : nst P.

(** The connection's end of a step: control block, counters, sockets and mbufs. *)
Definition tst : Type := tcpcb * tcpstat * nst P.

(** [tcp_reass] up to the first segment that begins behind [ti]: those before it, and it with the rest. *)
Fixpoint span_seq (seq : Z) (l : list tseg) : list tseg * list tseg :=
  match l with
  | [] => ([], [])
  | q :: l' => if SEQ_GT (ti_seq q) seq then ([], l) else let '(a, b) := span_seq seq l' in (q :: a, b)
  end.
Definition ti_advance (i : Z) (q : tseg) : tseg := mk_tseg (u32 (ti_seq q + i)) (s16 (ti_len q - i)) (ti_flags q) (ti_mbuf q).
Definition set_net (s : mst) (st : nst P) : nst P := mk_nst (socks st) s (woken st) (proto st).
Definition in_net (f : mst → outcome mst) (st : nst P) : outcome (nst P) := s ← f (net_mem st); Done (set_net s st).

(** Segments behind that [ti] covers are removed, the first that it does not cover is trimmed. *)
Fixpoint cover_loop (ti : tseg) (l : list tseg) (s : mst) : outcome (list tseg * mst) :=
  match l with
  | [] => Done ([], s)
  | q :: l' =>
      let i := s32 (u32 (ti_seq ti + ti_len ti - ti_seq q)) in
      if i <=? 0 then Done (l, s)
      else if i <? ti_len q then s ← m_adj (Some (ti_mbuf q)) i s; Done (ti_advance i q :: l', s)
      else s ← freem (Some (ti_mbuf q)) s; cover_loop ti l' s
  end.

(** [ti->ti_next] behind [remque(ti)], which stores NULL there. *)
Definition unlinked_next : option tseg := None.
(** What is contiguous is given to the socket [so]; [q], the first segment of the ring, is known to be.  The loop goes on along the link that
    [remque] has just cleared: NULL is not the end of the ring, and its [ti_seq] is read. *)
Fixpoint deliver (fuel : nat) (so : Z) (q : tseg) (t : tcpcb) (st : nst P) : outcome (Z * tcpcb * nst P) :=
  match fuel with
  | O => Fail Diverge
  | Datatypes.S fuel =>
      let t := set_segs (drop 1 (segs t)) (set_rcv_nxt (u32 (rcv_nxt t + ti_len q)) t) in
      x ← load_so so st;
      st ← (if sohas SS_CANTRCVMORE x then in_net (freem (Some (ti_mbuf q))) st
            else '(b, s) ← sbappend (so_rcv x) (Some (ti_mbuf q)) (net_mem st); upd_so so (with_rcv b) (set_net s st));
      q' ← deref unlinked_next;
      if ti_seq q' =? rcv_nxt t then deliver fuel so q' t st else Done (Z.land (ti_flags q) TH_FIN, t, st)
  end.
Definition present (so : Z) (t : tcpcb) (st : nst P) : outcome (Z * tcpcb * nst P) :=
  if negb (TCPS_HAVERCVDSYN (t_state t)) then Done (0, t, st) else
  match segs t with
  | [] => Done (0, t, st)
  | q :: _ =>
      if negb (ti_seq q =? rcv_nxt t) then Done (0, t, st)
      else if (t_state t =? TCPS_SYN_RECEIVED) && negb (ti_len q =? 0) then Done (0, t, st)
      else '(f, t, st) ← deliver (Datatypes.S (length (segs t))) so q t st; st ← sorwakeup so st; Done (f, t, st)
  end.

(** [ti = None]: the connection has just been established, what came with the SYN is delivered. *)
Definition tcp_reass (so : Z) (ti : option tseg) (w : tst) : outcome (Z * tst) :=
  let '(t, c, st) := w in
  match ti with
  | None => '(f, t, st) ← present so t st; Done (f, (t, c, st))
  | Some ti =>
      let '(pre, post) := span_seq (ti_seq ti) (segs t) in
      let i := match last pre with None => 0 | Some q => s32 (u32 (ti_seq q + ti_len q - ti_seq ti)) end in
      if (0 <? i) && (ti_len ti <=? i) then
        st ← in_net (freem (Some (ti_mbuf ti))) st; Done (0, (t, count_dup (ti_len ti) c, st))
      else
        '(ti, st) ← (if 0 <? i then st ← in_net (m_adj (Some (ti_mbuf ti)) i) st; Done (ti_advance i ti, st) else Done (ti, st));
        let c := count_oo (ti_len ti) c in
        '(post, s) ← cover_loop ti post (net_mem st);
        '(f, t, st) ← present so (set_segs (pre ++ ti :: post) t) (set_net s st);
        Done (f, (t, c, st))
  end.

(** The macro [TCP_REASS]: an ordered segment on an established connection does not touch the ring. *)
Definition TCP_REASS (so : Z) (ti : tseg) (w : tst) : outcome (Z * tst) :=
  let '(t, c, st) := w in
  if (ti_seq ti =? rcv_nxt t) && bool_decide (segs t = []) && (t_state t =? TCPS_ESTABLISHED) then
    let t := set_rcv_nxt (u32 (rcv_nxt t + ti_len ti)) (set_tflags (Z.lor (t_flags t) TF_DELACK) t) in
    x ← load_so so st;
    '(b, s) ← sbappend (so_rcv x) (Some (ti_mbuf ti)) (net_mem st);
    st ← upd_so so (with_rcv b) (set_net s st);
    st ← sorwakeup so st;
    Done (Z.land (ti_flags ti) TH_FIN, (t, count_pack (ti_len ti) c, st))
  else
    '(f, (t, c, st)) ← tcp_reass so (Some ti) w;
    Done (f, (set_tflags (Z.lor (t_flags t) TF_ACKNOW) t, c, st)).
End reassembly.

(** ** Timers *)

Definition TCPT_RANGESET (value tvmin tvmax : Z) : Z :=
  let tv := s16 value in if tv <? tvmin then s16 tvmin else if tvmax <? tv then s16 tvmax else tv.
Definition TCP_REXMTVAL (t : tcpcb) : Z := Z.shiftr (t_srtt t) TCP_RTT_SHIFT + t_rttvar t.

(** A round trip of [rtt] slow ticks has been measured. *)
Definition tcp_xmit_timer (rtt : Z) (t : tcpcb) (c : tcpstat) : tcpcb * tcpstat :=
  let '(srtt, rttvar) :=
    if negb (t_srtt t =? 0) then
      let delta := s16 (rtt - 1 - Z.shiftr (t_srtt t) TCP_RTT_SHIFT) in
      let srtt := s16 (t_srtt t + delta) in
      let srtt := if srtt <=? 0 then 1 else srtt in
      let delta := if delta <? 0 then s16 (- delta) else delta in
      let delta := s16 (delta - Z.shiftr (t_rttvar t) TCP_RTTVAR_SHIFT) in
      let rttvar := s16 (t_rttvar t + delta) in
      (srtt, if rttvar <=? 0 then 1 else rttvar)
    else (s16 (Z.shiftl rtt TCP_RTT_SHIFT), s16 (Z.shiftl rtt (TCP_RTTVAR_SHIFT - 1))) in
  let t := set_rtt 0 srtt rttvar (t_softerror t) t in
  let t := set_rxt 0 (TCPT_RANGESET (TCP_REXMTVAL t) (t_rttmin t) TCPTV_REXMTMAX) t in
  (set_rtt 0 srtt rttvar 0 t, count_rtt c).

Definition tcp_canceltimers (t : tcpcb) : tcpcb := set_timers (replicate (Z.to_nat TCPT_NTIMERS) 0) t.

Definition tcp_setpersist (t : tcpcb) : outcome tcpcb :=
  let v := Z.shiftr (Z.shiftr (t_srtt t) 2 + t_rttvar t) 1 in
  k ← deref (nthZ tcp_backoff (t_rxtshift t));
  let t := set_timers (updZ (t_timer t) TCPT_PERSIST (TCPT_RANGESET (s32 (v * k)) TCPTV_PERSMIN TCPTV_PERSMAX)) t in
  Done (if t_rxtshift t <? TCP_MAXRXTSHIFT then set_rxt (s16 (t_rxtshift t + 1)) (t_rxtcur t) t else t).

(** ** Chains of mbufs *)

(** The same mbufs with other bytes. *)
Definition relen (a a' : Z * mbuf) : Prop :=
  a'.1 = a.1 ∧ m_next a'.2 = m_next a.2 ∧ m_nextpkt a'.2 = m_nextpkt a.2 ∧ m_flags a'.2 = m_flags a.2.

Lemma relen_refl l : Forall2 relen l l.
Proof. induction l; constructor; [by split|done]. Qed.
Lemma relen_hd l l' : Forall2 relen l l' → hd_id l' = hd_id l.
Proof. by destruct 1 as [|[] [] ?? (? & _)]; cbn in *; subst. Qed.
Lemma relen_nexts l l' : Forall2 relen l l' → nexts l → nexts l'.
Proof. induction 1 as [|[i m] [j x] ?? (? & Hx & _) HF IH]; [done|]. cbn in *. intros [Hm ?]. rewrite Hx, (relen_hd _ _ HF). auto. Qed.
Lemma relen_chain l l' : Forall2 relen l l' → packet_chain l → packet_chain l'.
Proof.
  intros HF (Hne & Hn & Hk). split; [by intros ->; inversion HF; subst|]. split; [by eapply relen_nexts|].
  clear Hn Hne. induction HF as [|a a' ?? (_ & _ & Hx & _) HF IH]; [done|]. apply Forall_cons in Hk as [Hk ?]. constructor; [by rewrite Hx|auto].
Qed.
(** An mbuf emptied. *)
Lemma private_empty s i m l : private s ((i, m) :: l) →
  ∃ s', upd i (set_len 0) s = Done s' ∧ private s' ((i, set_len 0 m) :: l) ∧ same s s' l ∧ mbytes s' (set_len 0 m) = [].
Proof.
  intros Hp. destruct (private_at _ _ _ _ Hp) as (Hi & Hok & Hw & _). pose proof Hok as (Hl & _).
  destruct (set_len_bytes s m 0 Hok ltac:(lia)) as [Hok' Hb].
  eexists. destruct (private_upd s i m l (set_len 0) Hp ltac:(by split) Hw Hok') as (E & H1 & H2 & H3).
  split; [exact E|]. split; [done|]. split; [done|]. by rewrite H3.
Qed.

Lemma trim_head_private fuel lm f n s : private s (lm ++ f) → nexts lm → (length lm < fuel)%nat → 0 <= n <= total lm →
  ∃ s' lm', trim_head fuel (hd_id lm) n s = Done (0, s') ∧ private s' (lm' ++ f) ∧ Forall2 relen lm lm' ∧
    contents s' lm' = drop (Z.to_nat n) (contents s lm) ∧ same s s' f ∧ total lm' = total lm - n.
Proof.
  revert lm f n s. induction fuel as [|fuel IH]; intros lm f n s Hp Hn Hf Ht; [lia|]. cbn [trim_head].
  destruct lm as [|[i m] lm]; cbn [hd_id].
  { assert (n = 0) as -> by (cbn in Ht; lia). exists s, []. split; [done|]. split; [done|]. split; [constructor|]. split; [done|]. split; [apply same_refl|done]. }
  destruct Hn as [Hm Hn]. rewrite total_cons in Ht. cbn [app length] in *. destruct (Z.ltb_spec 0 n) as [H0|H0].
  - destruct (private_at _ _ _ _ Hp) as (Hi & Hok & _). pose proof (mbytes_length _ _ Hok) as Hlx. pose proof Hok as (Hx0 & _).
    rewrite (load_spec i s m), bind_done by done. destruct (Z.leb_spec (m_len m) n) as [Hle|Hgt].
    + destruct (private_empty _ _ _ _ Hp) as (s1 & -> & Hp1 & Hs1 & Hb1). rewrite bind_done, Hm. apply same_app in Hs1 as [Hsl Hsf].
      apply (proj2 (private_mid s1 lm i (set_len 0 m) f)) in Hp1.
      destruct (IH lm ((i, set_len 0 m) :: f) (n - m_len m) s1) as (s2 & lm2 & E & Hp2 & HF & Hb & Hs & Ht2); [done|done|lia|lia|].
      apply Forall_cons in Hs as [Hsi Hsf2]. cbn in Hsi. exists s2, ((i, set_len 0 m) :: lm2). split; [done|]. split; [by apply private_mid in Hp2|].
      split; [by constructor|]. split; [|split; [by eapply same_trans|rewrite !total_cons, Ht2; change (m_len (set_len 0 m)) with 0; lia]].
      rewrite !contents_cons, Hsi, Hb1, Hb, (same_contents_of _ _ _ Hsl), drop_app_ge by lia. cbn [app]. f_equal. lia.
    + destruct (private_trim _ _ _ _ n Hp ltac:(lia)) as (s1 & E1 & Hp1 & Hs1 & Hb1). unfold trim_one in E1. rewrite E1, bind_done.
      apply same_app in Hs1 as [Hsl Hsf]. assert (trim_head fuel (Some i) 0 s1 = Done (0, s1)) as -> by (destruct fuel; [lia|done]).
      exists s1, ((i, trim_one n m) :: lm). split; [done|]. split; [done|]. split; [constructor; [done|apply relen_refl]|].
      split; [by rewrite !contents_cons, Hb1, (same_contents_of _ _ _ Hsl), drop_app_le by lia|]. split; [done|]. rewrite !total_cons. cbn. rewrite s32_small by lia. lia.
  - assert (n = 0) as -> by lia. exists s, ((i, m) :: lm). split; [done|]. split; [done|]. split; [apply relen_refl|]. split; [done|]. split; [apply same_refl|lia].
Qed.

(** [m_adj] at the front of a chain that nobody else uses. *)
Lemma m_adj_private lm f n s : private s (lm ++ f) → nexts lm → lm ≠ [] → 0 <= n <= total lm →
  ∃ s' lm', m_adj (hd_id lm) n s = Done s' ∧ private s' (lm' ++ f) ∧ Forall2 relen lm lm' ∧
    contents s' lm' = drop (Z.to_nat n) (contents s lm) ∧ same s s' f ∧ total lm' = total lm - n.
Proof.
  intros Hp Hn Hne Ht. pose proof (private_turns _ _ Hp) as Hf. rewrite length_app in Hf.
  destruct (trim_head_private (Datatypes.S (turns s)) lm f n s) as (s1 & lm1 & E & Hp1 & HF & Hb & Hs & Ht1); [done|done|lia|done|].
  pose proof (relen_hd _ _ HF) as Hh. destruct lm as [|[i m] lm]; [done|]. destruct lm1 as [|[k x] lm1]; [by inversion HF|]. cbn in Hh. injection Hh as ->.
  unfold m_adj. cbn [hd_id] in *. rewrite (proj2 (Z.leb_le 0 n)), E, bind_done by lia. cbn [app] in Hp1.
  destruct (private_at _ _ _ _ Hp1) as (Hi & _). rewrite (load_spec i s1 x), bind_done by done. destruct (has M_PKTHDR x).
  - destruct (private_set _ _ _ _ (set_pkthdr (pkt_len x - (n - 0)) (rcvif x)) Hp1 ltac:(done) ltac:(done) ltac:(done)) as (s2 & -> & Hp2 & Hs2 & Hb2).
    apply same_app in Hs2 as [Hsl Hsf]. exists s2, ((i, set_pkthdr (pkt_len x - (n - 0)) (rcvif x) x) :: lm1).
    split; [done|]. split; [done|]. split; [inversion HF; subst; by constructor|]. split; [|split; [by eapply same_trans|done]].
    by rewrite <- Hb, !contents_cons, Hb2, (same_contents_of _ _ _ Hsl).
  - exists s1, ((i, x) :: lm1). by split.
Qed.

Lemma m_freem_private fuel i m r f s : private s (((i, m) :: r) ++ f) → nexts ((i, m) :: r) → (length r < fuel)%nat →
  ∃ s', m_freem fuel (Some i) s = Done s' ∧ private s' f ∧ same s s' f.
Proof.
  revert i m r s. induction fuel as [|fuel IH]; intros i m r s Hp [Hm Hn] Hf; [lia|]. cbn [m_freem]. cbn [app] in Hp.
  destruct (private_at _ _ _ _ Hp) as (Hi & _). destruct (private_free _ _ _ _ Hp) as (s1 & E & Hp1 & Hs1). apply same_app in Hs1 as [Hsr Hsf].
  unfold load_opt. cbn [deref]. rewrite bind_done, (load_spec i s m), bind_done, E, bind_done, Hm by done. destruct r as [|[k x] r]; cbn [hd_id].
  - by exists s1.
  - destruct (IH k x r s1) as (s2 & E2 & Hp2 & Hs2); [done|done|cbn in Hf; lia|]. exists s2. split; [done|]. split; [done|]. by eapply same_trans.
Qed.
Lemma freem_private lm f s : private s (lm ++ f) → nexts lm → lm ≠ [] → ∃ s', freem (hd_id lm) s = Done s' ∧ private s' f ∧ same s s' f.
Proof.
  intros Hp Hn Hne. pose proof (private_turns _ _ Hp) as Hf. rewrite length_app in Hf. destruct lm as [|[i m] r]; [done|].
  apply (m_freem_private _ i m r); [done|done|cbn in Hf; lia].
Qed.

(** ** Sequence numbers and the stream *)

(** Numbers less than 2^31 apart compare like the positions in the stream they stand for. *)
Lemma seq_diff x y k : - 2 ^ 31 <= x + k - y < 2 ^ 31 → s32 (u32 (u32 x + k - u32 y)) = x + k - y.
Proof.
  intros Hr. rewrite s32_u32. transitivity (s32 (x + k - y)); [|by apply s32_small]. unfold s32, u32. f_equal.
  pose proof (Z.div_mod x (2 ^ 32) ltac:(lia)). pose proof (Z.div_mod y (2 ^ 32) ltac:(lia)).
  replace (x mod 2 ^ 32 + k - y mod 2 ^ 32 + 2 ^ 31) with (x + k - y + 2 ^ 31 + (y / 2 ^ 32 - x / 2 ^ 32) * 2 ^ 32) by lia. apply Z_mod_plus_full.
Qed.
Lemma seq_gt x y : - 2 ^ 31 <= x - y < 2 ^ 31 → SEQ_GT (u32 x) (u32 y) = (y <? x).
Proof.
  intros Hr. unfold SEQ_GT. pose proof (seq_diff x y 0 ltac:(lia)) as E. rewrite !Z.add_0_r in E. rewrite E.
  destruct (Z.ltb_spec 0 (x - y)), (Z.ltb_spec y x); lia.
Qed.
Lemma seq_eq x y : - 2 ^ 31 <= x - y < 2 ^ 31 → (u32 x =? u32 y) = (x =? y).
Proof.
  intros Hr. pose proof (seq_diff x y 0 ltac:(lia)) as E. destruct (Z.eqb_spec (u32 x) (u32 y)) as [Hxy|Hxy], (Z.eqb_spec x y) as [->|]; try done.
  rewrite Hxy, Z.add_0_r, Z.sub_diag in E. change (s32 (u32 0)) with 0 in E. lia.
Qed.

Section stream.
(** The bytes that the peer sends, by their position. *)
Context (D : Z → Z).

Definition stretch (o n : Z) : bytes := map D (seqZ o n).

Lemma stretch_length o n : 0 <= n → Z.of_nat (length (stretch o n)) = n.
Proof. intros. unfold stretch. rewrite length_map, length_seqZ. lia. Qed.
Lemma stretch_app o n k : 0 <= n → 0 <= k → stretch o (n + k) = stretch o n ++ stretch (o + n) k.
Proof. intros. unfold stretch. by rewrite seqZ_app, map_app by lia. Qed.
Lemma stretch_drop o n k : 0 <= k <= n → drop (Z.to_nat k) (stretch o n) = stretch (o + k) (n - k).
Proof.
  intros Hk. replace n with (k + (n - k)) at 1 by lia. rewrite stretch_app by lia. apply drop_app_length'.
  pose proof (stretch_length o k). lia.
Qed.

(** A segment of the ring: its header, where it lies in the stream, its mbufs. *)
Record gseg : Type := mk_gseg { g_seg : tseg; g_at : Z; g_chain : list (Z * mbuf) }.
Definition g_end (g : gseg) : Z := g_at g + ti_len (g_seg g).

Record seg_ok (s : mst) (g : gseg) : Prop := mk_seg_ok {
  so_seq : ti_seq (g_seg g) = u32 (g_at g);
  so_len : ti_len (g_seg g) = total (g_chain g);
  so_small : 0 <= total (g_chain g) < 2 ^ 15;
  so_bytes : contents s (g_chain g) = stretch (g_at g) (total (g_chain g));
  so_chain : packet_chain (g_chain g);
  so_mbuf : hd_id (g_chain g) = Some (ti_mbuf (g_seg g));
}.
Definition chains (G : list gseg) : list (Z * mbuf) := concat (map g_chain G).
Definition covers (G : list gseg) (y : Z) : Prop := Exists (λ g, g_at g <= y < g_end g) G.

(** From [lo] on, one after the other without overlap. *)
Fixpoint laid (lo : Z) (G : list gseg) : Prop :=
  match G with [] => True | g :: G => lo <= g_at g ∧ laid (g_end g) G end.
Definition ends (lo : Z) (G : list gseg) : Z := match last G with Some g => g_end g | None => lo end.
Definition gap (n : Z) (G : list gseg) : Prop := match G with [] => True | g :: _ => n < g_at g end.
#[export] Instance gap_dec n G : Decision (gap n G).
Proof. destruct G; unfold gap; apply _. Defined.
Definition within (hi : Z) (G : list gseg) : Prop := Forall (λ g, g_end g <= hi) G.

Lemma seg_end s g : seg_ok s g → g_at g <= g_end g.
Proof. intros [? Hl ? _ _ _]. unfold g_end. lia. Qed.
Lemma seg_same s s' g : same s s' (g_chain g) → seg_ok s g → seg_ok s' g.
Proof. intros Hs [? ? ? Hb ? ?]. split; try done. by rewrite (same_contents_of _ _ _ Hs). Qed.
Lemma segs_same s s' G : same s s' (chains G) → Forall (seg_ok s) G → Forall (seg_ok s') G.
Proof.
  induction G as [|g G IH]; [by constructor|]. cbn [chains map concat]. rewrite same_app. intros [Hg HG] [Hs ?]%Forall_cons.
  constructor; [by apply (seg_same s)|auto].
Qed.
Lemma chains_app G1 G2 : chains (G1 ++ G2) = chains G1 ++ chains G2.
Proof. unfold chains. by rewrite map_app, concat_app. Qed.
Lemma chains_cons g G : chains (g :: G) = g_chain g ++ chains G.
Proof. done. Qed.
Lemma laid_le lo lo' G : lo' <= lo → laid lo G → laid lo' G.
Proof. destruct G; [done|]. cbn. intros ? [? ?]. split; [lia|done]. Qed.
Lemma laid_ge s lo G : Forall (seg_ok s) G → laid lo G → Forall (λ g, lo <= g_at g) G.
Proof.
  revert lo. induction G as [|g G IH]; intros lo Hs; [constructor|]. apply Forall_cons in Hs as [Hg Hs]. pose proof (seg_end _ _ Hg). cbn. intros [? HG].
  constructor; [done|]. eapply Forall_impl; [by apply IH|]. cbn. lia.
Qed.
Lemma laid_app lo G1 G2 : laid lo (G1 ++ G2) ↔ laid lo G1 ∧ laid (ends lo G1) G2.
Proof.
  revert lo. induction G1 as [|g G1 IH]; intros lo; [cbn; tauto|]. cbn [app laid]. rewrite IH.
  assert (ends lo (g :: G1) = ends (g_end g) G1) as -> by (unfold ends; rewrite last_cons; by destruct (last G1)). tauto.
Qed.
Lemma covers_below s lo G y : Forall (seg_ok s) G → laid lo G → y < lo → ¬ covers G y.
Proof.
  intros Hs Hl Hy Hc. apply Exists_exists in Hc as (g & Hg & Hy1 & _). pose proof (laid_ge _ _ _ Hs Hl) as Hge.
  rewrite Forall_forall in Hge. specialize (Hge g Hg). lia.
Qed.
Lemma covers_app G1 G2 y : covers (G1 ++ G2) y ↔ covers G1 y ∨ covers G2 y.
Proof. apply Exists_app. Qed.
Lemma covers_cons g G y : covers (g :: G) y ↔ g_at g <= y < g_end g ∨ covers G y.
Proof. apply Exists_cons. Qed.

Lemma span_spec s lo G o : Forall (seg_ok s) G → laid lo G → lo <= o <= lo + 2 ^ 30 → within (lo + 2 ^ 30) G →
  ∃ G1 G2, G = G1 ++ G2 ∧ span_seq (u32 o) (map g_seg G) = (map g_seg G1, map g_seg G2) ∧ Forall (λ g, g_at g <= o) G1 ∧ gap o G2.
Proof.
  intros Hs Hl Ho Hw. pose proof (laid_ge _ _ _ Hs Hl) as Hge. clear Hl. induction G as [|g G IH]; [by exists [], []|].
  apply Forall_cons in Hs as [Hg Hs], Hw as [Hgw Hw], Hge as [Hgl Hge]. pose proof (seg_end _ _ Hg). cbn [map span_seq].
  rewrite (so_seq _ _ Hg), seq_gt by lia. destruct (Z.ltb_spec o (g_at g)); [by exists [], (g :: G)|].
  destruct IH as (G1 & G2 & -> & -> & H1 & H2); [done|done|done|]. exists (g :: G1), G2. repeat (split; [done|]). split; [by constructor|done].
Qed.
End stream.

Section reassembled.
Context (D : Z → Z).

(** The first bytes of a segment are dropped. *)
Lemma seg_trim s g f i : seg_ok D s g → private s (g_chain g ++ f) → 0 <= i <= ti_len (g_seg g) →
  ∃ s' g', m_adj (Some (ti_mbuf (g_seg g))) i s = Done s' ∧ g_seg g' = ti_advance i (g_seg g) ∧ g_at g' = g_at g + i ∧ g_end g' = g_end g ∧
    seg_ok D s' g' ∧ private s' (g_chain g' ++ f) ∧ same s s' f.
Proof.
  intros [Hq Hl Hn Hb Hc Hm] Hp Hi. pose proof Hc as (Hne & Hnx & _). rewrite Hl in Hi.
  destruct (m_adj_private (g_chain g) f i s Hp Hnx Hne Hi) as (s' & lm & E & Hp' & HF & Hb' & Hs & Ht).
  exists s', (mk_gseg (ti_advance i (g_seg g)) (g_at g + i) lm). rewrite <- Hm. split; [done|]. split; [done|]. split; [done|].
  assert (Hln : ti_len (ti_advance i (g_seg g)) = total (g_chain g) - i) by (cbn; rewrite s16_small by lia; lia).
  split; [unfold g_end; cbn [g_at g_seg]; lia|]. split; [|done]. split; cbn [g_seg g_at g_chain].
  - cbn. by rewrite Hq, u32_add.
  - lia.
  - lia.
  - rewrite Hb', Hb, stretch_drop, Ht by lia. done.
  - by eapply relen_chain.
  - rewrite (relen_hd _ _ HF). done.
Qed.
Lemma seg_freed s g f : seg_ok D s g → private s (g_chain g ++ f) → ∃ s', freem (Some (ti_mbuf (g_seg g))) s = Done s' ∧ private s' f ∧ same s s' f.
Proof. intros [_ _ _ _ (Hne & Hnx & _) Hm] Hp. rewrite <- Hm. by apply freem_private. Qed.

Lemma cover_spec ti o G s f hi : ti_seq ti = u32 o → 0 <= ti_len ti < 2 ^ 15 → Forall (seg_ok D s) G → laid o G → within hi G → hi <= o + 2 ^ 30 →
  private s (chains G ++ f) →
  ∃ s' G', cover_loop ti (map g_seg G) s = Done (map g_seg G', s') ∧ private s' (chains G' ++ f) ∧ Forall (seg_ok D s') G' ∧
    laid (o + ti_len ti) G' ∧ within hi G' ∧ same s s' f ∧ ∀ y, o + ti_len ti <= y → covers G' y ↔ covers G y.
Proof.
  intros Hseq Hlen. revert s. induction G as [|g G IH]; intros s Hs Hl Hw Hhi Hp.
  { exists s, []. repeat (split; [done|]). split; [apply same_refl|done]. }
  apply Forall_cons in Hs as [Hg Hs], Hw as [Hgw Hw]. destruct Hl as [Hl0 Hl]. pose proof (seg_end _ _ _ Hg) as Hge.
  cbn [map cover_loop]. rewrite chains_cons, <- app_assoc in Hp. rewrite Hseq, (so_seq _ _ _ Hg), seq_diff by lia.
  destruct (Z.leb_spec (o + ti_len ti - g_at g) 0) as [H0|H0].
  { exists s, (g :: G). split; [done|]. rewrite chains_cons, <- app_assoc. split; [done|]. split; [by constructor|]. split; [split; [lia|done]|].
    split; [by constructor|]. split; [apply same_refl|done]. }
  destruct (Z.ltb_spec (o + ti_len ti - g_at g) (ti_len (g_seg g))) as [H1|H1].
  - destruct (seg_trim s g (chains G ++ f) (o + ti_len ti - g_at g) Hg Hp ltac:(lia)) as (s' & g' & E & Eg & Ea & Ee & Hg' & Hp' & Hsm). rewrite E, bind_done.
    apply same_app in Hsm as [HsG Hsf]. exists s', (g' :: G). cbn [map]. rewrite Eg. split; [done|]. rewrite chains_cons, <- app_assoc. split; [done|].
    split; [constructor; [done|by apply (segs_same _ s)]|]. split; [split; [lia|by rewrite Ee]|]. split; [constructor; [by rewrite Ee|done]|]. split; [done|].
    intros y Hy. rewrite !covers_cons, Ee, Ea. naive_solver lia.
  - destruct (seg_freed s g _ Hg Hp) as (s1 & E & Hp1 & Hs1). rewrite E, bind_done. apply same_app in Hs1 as [HsG Hsf].
    destruct (IH s1) as (s2 & G2 & E2 & Hp2 & Hok2 & Hl2 & Hw2 & Hs2 & Hc2); [by apply (segs_same _ s)|by apply (laid_le (g_end g)); [lia|]|done|done|done|].
    exists s2, G2. split; [done|]. split; [done|]. split; [done|]. split; [done|]. split; [done|]. split; [by eapply same_trans|].
    intros y Hy. rewrite Hc2, covers_cons by done. unfold g_end in *. split; [by right|]. intros [?|?]; [lia|done].
Qed.

(** A queue that has other neighbours. *)
Lemma queue_beside s s' b rs l l' : queue s b rs l → private s' (concat rs ++ l') → queue s' b rs l'.
Proof. intros [_ ? ? ? ?] Hp. by split. Qed.

Context {P : Type}.
Implicit Types st : nst P.

(** The connection in between: [n] is the position of the next byte that is expected. *)
Record receiving (so : Z) (t : tcpcb) (st : nst P) (x : socket) (n : Z) (G : list gseg) (rs : list (list (Z * mbuf))) (f : list (Z * mbuf)) : Prop := mk_receiving {
  rc_socket : socks st !! so = Some x;
  rc_segs : segs t = map g_seg G;
  rc_nxt : rcv_nxt t = u32 n;
  rc_ok : Forall (seg_ok D (net_mem st)) G;
  rc_laid : laid n G;
  rc_window : within (n + 2 ^ 30) G;
  rc_queue : queue (net_mem st) (so_rcv x) rs (chains G ++ f);
}.

(** What the socket has got, from position [n] to [n']. *)
Definition took (x : socket) (st st' : nst P) (rs rs' : list (list (Z * mbuf))) (n n' : Z) : Prop :=
  contents (net_mem st') (concat rs') = contents (net_mem st) (concat rs) ++ (if sohas SS_CANTRCVMORE x then [] else stretch D n (n' - n)).

(** One segment goes to the socket. *)
Lemma give_spec so st x rs g f : socks st !! so = Some x → seg_ok D (net_mem st) g → queue (net_mem st) (so_rcv x) rs (g_chain g ++ f) →
  ∃ st' b' rs', (if sohas SS_CANTRCVMORE x then in_net (freem (Some (ti_mbuf (g_seg g)))) st
       else '(b, s) ← sbappend (so_rcv x) (Some (ti_mbuf (g_seg g))) (net_mem st); upd_so so (with_rcv b) (set_net s st)) = Done st' ∧
    socks st' = <[so := with_rcv b' x]> (socks st) ∧ queue (net_mem st') b' rs' f ∧ took x st st' rs rs' (g_at g) (g_end g) ∧
    same (net_mem st) (net_mem st') f ∧ same_marks (so_rcv x) b'.
Proof.
  intros Hx Hg Hq. pose proof Hg as [_ Hl Hn Hb Hc Hm]. unfold took, in_net. destruct (sohas SS_CANTRCVMORE x).
  - pose proof Hq as [Hp _ _ _ _]. rewrite app_assoc in Hp. rewrite (Permutation_app_comm (concat rs)), <- app_assoc in Hp.
    destruct (seg_freed _ g _ Hg Hp) as (s' & -> & Hp' & Hs). rewrite bind_done. apply same_app in Hs as [Hsr Hsf].
    eexists _, (so_rcv x), rs. split; [done|]. split; [cbn; symmetry; apply insert_id; by destruct x|]. split; [by eapply queue_beside|].
    split; [cbn; by rewrite app_nil_r, (same_contents_of _ _ _ Hsr)|done].
  - destruct (sbappend_spec _ _ _ _ _ Hq Hc) as (b' & s' & rs' & E & Hq' & Ha & Hs & Hk). rewrite Hm in E. rewrite E, bind_done.
    rewrite (upd_so_spec so _ _ x) by done. eexists _, b', rs'. split; [done|]. split; [done|]. split; [done|]. split; [|done].
    cbn [net_mem set_net set_socks]. rewrite !contents_abs, Ha, q_append_bytes. cbn [fst]. rewrite Hb. do 2 f_equal. unfold g_end. lia.
Qed.

(** The ring has taken up what is known at the positions [C]; the socket is where it was. *)
Record kept (so : Z) (t : tcpcb) (st : nst P) (x : socket) (n : Z) (C : Z → Prop) (rs : list (list (Z * mbuf))) (f : list (Z * mbuf))
    (t' : tcpcb) (st' : nst P) (G' : list gseg) : Prop := mk_kept {
  kp_receiving : receiving so t' st' x n G' rs f;
  kp_gap : gap n G';
  kp_covers y : covers G' y ↔ C y;
  kp_same : same (net_mem st) (net_mem st') (concat rs ++ f);
  kp_state : t_state t' = t_state t;
}.

Lemma gap_laid n g G : laid n (g :: G) → g_at g ≠ n → gap n (g :: G).
Proof. cbn. lia. Qed.
Lemma within_le hi hi' G : hi <= hi' → within hi G → within hi' G.
Proof. intros Hle Hw. eapply Forall_impl; [exact Hw|]. cbn. lia. Qed.

(** One round of the loop: [g] is the segment that is expected. *)
Lemma give_step so t st x g G rs f : receiving so t st x (g_at g) (g :: G) rs f →
  let t1 := set_segs (map g_seg G) (set_rcv_nxt (u32 (rcv_nxt t + ti_len (g_seg g))) t) in
  ∃ st1 x1 rs1, (if sohas SS_CANTRCVMORE x then in_net (freem (Some (ti_mbuf (g_seg g)))) st
       else '(b, s) ← sbappend (so_rcv x) (Some (ti_mbuf (g_seg g))) (net_mem st); upd_so so (with_rcv b) (set_net s st)) = Done st1 ∧
    receiving so t1 st1 x1 (g_end g) G rs1 f ∧ took x st st1 rs rs1 (g_at g) (g_end g) ∧ same (net_mem st) (net_mem st1) f ∧
    sohas SS_CANTRCVMORE x1 = sohas SS_CANTRCVMORE x.
Proof.
  intros [Hx Hsg Hn [Hg HG]%Forall_cons [_ Hl] [_ Hw]%Forall_cons Hq] t1. rewrite chains_cons, <- app_assoc in Hq. pose proof (seg_end _ _ _ Hg).
  destruct (give_spec so st x rs g _ Hx Hg Hq) as (st1 & b & rs1 & E & Hs1 & Hq1 & Ht & Hs & Hk). apply same_app in Hs as [HsG Hsf].
  exists st1, (with_rcv b x), rs1. split; [done|]. split; [|by split]. split.
  - by rewrite Hs1, lookup_insert_eq.
  - done.
  - cbn. by rewrite Hn, u32_add.
  - by apply (segs_same _ (net_mem st)).
  - done.
  - eapply within_le; [|done]. lia.
  - done.
Qed.

(** The segment that is expected reaches the socket, then the loop goes through NULL. *)
Lemma deliver_faults fuel so t st x g G rs f : receiving so t st x (g_at g) (g :: G) rs f → deliver (Datatypes.S fuel) so (g_seg g) t st = Fail BadPtr.
Proof.
  intros Hr. destruct (give_step _ _ _ _ _ _ _ _ Hr) as (st1 & x1 & rs1 & E & _). cbn [deliver]. rewrite (load_so_spec so st x), bind_done by apply Hr.
  by rewrite E, bind_done.
Qed.

Lemma present_spec so t st x n G rs f : receiving so t st x n G rs f → TCPS_ESTABLISHED <= t_state t →
  present so t st = (if decide (gap n G) then Done (0, t, st) else Fail BadPtr).
Proof.
  intros Hr Hst. unfold present, TCPS_HAVERCVDSYN, TCPS_SYN_RECEIVED, TCPS_ESTABLISHED in *. rewrite (proj2 (Z.leb_le 3 _)) by lia. cbn [negb].
  rewrite (rc_segs _ _ _ _ _ _ _ _ Hr). destruct G as [|g G]; cbn [map]; [by rewrite decide_True|].
  pose proof (rc_ok _ _ _ _ _ _ _ _ Hr) as Hg. apply Forall_inv in Hg. pose proof (rc_window _ _ _ _ _ _ _ _ Hr) as Hw. apply Forall_inv in Hw.
  pose proof (rc_laid _ _ _ _ _ _ _ _ Hr) as [Hl _]. pose proof (seg_end _ _ _ Hg).
  rewrite (so_seq _ _ _ Hg), (rc_nxt _ _ _ _ _ _ _ _ Hr), seq_eq by lia. destruct (Z.eqb_spec (g_at g) n) as [En|En]; cbn [negb].
  - rewrite (proj2 (Z.eqb_neq (t_state t) 3)) by lia. cbn [andb]. rewrite decide_False by (cbn; lia). subst n. by rewrite (deliver_faults _ _ _ _ _ _ _ _ _ Hr).
  - rewrite decide_True; [done|cbn; lia].
Qed.

Lemma ends_ge s n G : Forall (seg_ok D s) G → laid n G → n <= ends n G.
Proof.
  unfold ends. revert n. induction G as [|g G IH]; intros n Hs; [cbn; lia|]. apply Forall_cons in Hs as [Hg Hs]. pose proof (seg_end _ _ _ Hg).
  intros [Hl1 Hl2]. specialize (IH _ Hs Hl2). rewrite last_cons. destruct (last G); lia.
Qed.

(** Where the new segment begins once what the ring has before it is taken off, and what the ring covers then. *)
Lemma ring_covers s s2 n G1 G2 G2' g g' y : Forall (seg_ok D s) (G1 ++ G2) → laid n (G1 ++ G2) → Forall (λ a, g_at a <= g_at g) G1 → gap (g_at g) G2 →
  g_at g' = Z.max (g_at g) (ends n G1) → g_end g' = g_end g → n <= g_at g → g_at g' <= g_end g →
  Forall (seg_ok D s2) G2' → laid (g_end g) G2' → (∀ y, g_end g <= y → covers G2' y ↔ covers G2 y) →
  covers (G1 ++ g' :: G2') y ↔ covers (G1 ++ G2) y ∨ g_at g <= y < g_end g.
Proof.
  intros Hs Hl Hb Hgap Ea Ee Hn Hle H2' Hl2' Hc. apply Forall_app in Hs as [H1 H2]. destruct (proj1 (laid_app D n G1 G2) Hl) as [Hl1 Hl2]. rewrite !covers_app, covers_cons, Ee, Ea.
  assert (Hlo : covers G2 y → Z.max (g_at g) (ends n G1) <= y).
  { intros Hy. destruct (Z.le_gt_cases (Z.max (g_at g) (ends n G1)) y) as [|Hlt]; [done|]. exfalso. revert Hy.
    apply (covers_below D s (Z.max (g_at g) (ends n G1))); [done| |lia]. destruct G2 as [|a G2]; [done|]. cbn in Hgap. destruct Hl2. split; [lia|done]. }
  assert (Hhi : g_at g <= y < Z.max (g_at g) (ends n G1) → covers G1 y).
  { intros Hy. unfold ends in Hy. destruct (last G1) as [a|] eqn:El; [|lia]. apply last_Some in El as (G0 & ->).
    apply Forall_app in Hb as [_ Hb]. apply Forall_inv in Hb. rewrite covers_app. right. apply covers_cons. left. lia. }
  destruct (Z.le_gt_cases (g_end g) y) as [Hy|Hy]; [rewrite (Hc y Hy)|].
  - split; [intros [?|[?|?]]|intros [[?|?]|?]]; try tauto; lia.
  - assert (¬ covers G2' y) by (by apply (covers_below D s2 (g_end g))).
    split; [intros [?|[?|?]]; [by left; left|right; lia|done]|intros [[?|Hy2]|?]; [by left|right; left; specialize (Hlo Hy2); lia|]].
    destruct (Z.le_gt_cases (Z.max (g_at g) (ends n G1)) y); [tauto|]. left. apply Hhi. lia.
Qed.

(** What the segment before has already is taken off. *)
Lemma trim_over st g R i e : seg_ok D (net_mem st) g → private (net_mem st) (g_chain g ++ R) → i = e - g_at g ∨ i <= 0 ∧ e <= g_at g →
  ¬ (0 < i ∧ ti_len (g_seg g) <= i) →
  ∃ s' g', (if 0 <? i then st ← in_net (m_adj (Some (ti_mbuf (g_seg g))) i) st; Done (ti_advance i (g_seg g), st) else Done (g_seg g, st)) =
      Done (g_seg g', set_net s' st) ∧
    g_at g' = Z.max (g_at g) e ∧ g_end g' = g_end g ∧ seg_ok D s' g' ∧ private s' (g_chain g' ++ R) ∧ same (net_mem st) s' R.
Proof.
  intros Hg Hp He Hi. destruct (Z.ltb_spec 0 i) as [H0|H0].
  - destruct (seg_trim _ g R i Hg Hp ltac:(lia)) as (s' & g' & E & Eg & Ea & Ee & Hg' & Hp' & Hs). unfold in_net. rewrite E, !bind_done, <- Eg.
    exists s', g'. split; [done|]. split; [lia|]. by split.
  - exists (net_mem st), g. split; [by destruct st|]. split; [lia|]. repeat (split; [done|]). apply same_refl.
Qed.

(** The ring with the new segment between [G1] and [G2]. *)
Lemma ring_insert_spec so t st x n G1 G2 rs f g i : receiving so t st x n (G1 ++ G2) rs (g_chain g ++ f) → seg_ok D (net_mem st) g →
  n <= g_at g → g_end g <= n + 2 ^ 30 → Forall (λ a, g_at a <= g_at g) G1 → gap (g_at g) G2 →
  i = ends n G1 - g_at g ∨ i <= 0 ∧ ends n G1 <= g_at g → ¬ (0 < i ∧ ti_len (g_seg g) <= i) →
  ∃ s1 s2 g' G2', (if 0 <? i then st ← in_net (m_adj (Some (ti_mbuf (g_seg g))) i) st; Done (ti_advance i (g_seg g), st) else Done (g_seg g, st)) =
      Done (g_seg g', set_net s1 st) ∧
    cover_loop (g_seg g') (map g_seg G2) s1 = Done (map g_seg G2', s2) ∧
    receiving so (set_segs (map g_seg (G1 ++ g' :: G2')) t) (set_net s2 (set_net s1 st)) x n (G1 ++ g' :: G2') rs f ∧
    same (net_mem st) s2 (concat rs ++ f) ∧ (∀ y, covers (G1 ++ g' :: G2') y ↔ covers (G1 ++ G2) y ∨ g_at g <= y < g_end g) ∧
    g_at g' = Z.max (g_at g) (ends n G1).
Proof.
  intros Hr Hg Hn Hw1 Hb Hgap Hi Hni. destruct Hr as [Hx Hsg Hnx Hok Hl Hw Hq]. pose proof (seg_end _ _ _ Hg) as Hge. pose proof Hok as Hok0. pose proof Hl as Hl0.
  apply Forall_app in Hok as [Hok1 Hok2]. apply Forall_app in Hw as [Hwa Hwb]. destruct (proj1 (laid_app D n G1 G2) Hl) as [Hl1 Hl2].
  pose proof (ends_ge _ _ _ Hok1 Hl1) as Hen. pose proof (q_private _ _ _ _ Hq) as Hp. rewrite chains_app in Hp.
  assert (Hp1 : private (net_mem st) (g_chain g ++ chains G2 ++ concat rs ++ chains G1 ++ f)) by (eapply private_perm; [|exact Hp]; solve_Permutation).
  destruct (trim_over st g _ i _ Hg Hp1 Hi Hni) as (s1 & g' & E1 & Ea & Ee & Hg' & Hp1' & Hs1). apply same_app in Hs1 as [Hs1a Hs1b].
  assert (Hlen : g_at g' <= g_end g). { rewrite Ea. destruct Hi as [->|[? ?]]; [|lia]. unfold g_end in *. lia. }
  assert (Hg2 : private s1 (chains G2 ++ g_chain g' ++ concat rs ++ chains G1 ++ f)) by (eapply private_perm; [|exact Hp1']; solve_Permutation).
  destruct (cover_spec (g_seg g') (g_at g') G2 s1 (g_chain g' ++ concat rs ++ chains G1 ++ f) (n + 2 ^ 30)) as (s2 & G2' & E2 & Hp2 & Hok2' & Hl2' & Hw2 & Hs2 & Hc2);
    [apply Hg'|rewrite (so_len _ _ _ Hg'); apply Hg'|by apply (segs_same _ (net_mem st))| |done|lia|done|].
  { rewrite Ea. destruct G2 as [|a G2]; [done|]. cbn in Hgap. destruct Hl2. split; [lia|done]. }
  fold (g_end g') in Hl2', Hc2. rewrite Ee in Hl2', Hc2. apply same_app in Hs2 as [Hs2g Hs2b].
  assert (Hs : same (net_mem st) s2 (concat rs ++ chains G1 ++ f)) by (by eapply same_trans). apply same_app in Hs as [Hsr Hs]. apply same_app in Hs as [HsG Hsf].
  exists s1, s2, g', G2'. split; [done|]. split; [done|]. split; [|split; [by apply same_app|split; [|done]]].
  - split; try done; cbn [segs set_segs net_mem set_net].
    + apply Forall_app. split; [by apply (segs_same _ (net_mem st))|]. constructor; [by apply (seg_same _ s1)|done].
    + apply laid_app; [exact D|]. split; [done|]. split; [lia|by rewrite Ee].
    + apply Forall_app. split; [done|]. constructor; [lia|done].
    + eapply queue_beside; [done|]. eapply private_perm; [|exact Hp2]. rewrite chains_app, chains_cons. solve_Permutation.
  - intros y. by apply (ring_covers (net_mem st) s2 n).
Qed.

(** A segment that adds nothing. *)
Lemma drop_whole so t st x n G rs f g : receiving so t st x n G rs (g_chain g ++ f) → seg_ok D (net_mem st) g → gap n G →
  (∀ y, g_at g <= y < g_end g → covers G y) →
  ∃ st', in_net (freem (Some (ti_mbuf (g_seg g)))) st = Done st' ∧ kept so t st x n (λ y, covers G y ∨ g_at g <= y < g_end g) rs f t st' G.
Proof.
  intros Hr Hg Hgap Hc. destruct Hr as [Hx Hsg Hnx Hok Hl Hw Hq]. pose proof (q_private _ _ _ _ Hq) as Hp.
  assert (Hp1 : private (net_mem st) (g_chain g ++ concat rs ++ chains G ++ f)) by (eapply private_perm; [|exact Hp]; solve_Permutation).
  destruct (seg_freed _ _ _ Hg Hp1) as (s' & E & Hp' & Hs). unfold in_net. rewrite E, bind_done. exists (set_net s' st). split; [done|].
  pose proof Hs as [Hsr HsG]%same_app. apply same_app in HsG as [HsG Hsf]. split; [|done| |by apply same_app|done].
  - split; try done; [by apply (segs_same _ (net_mem st))|by eapply queue_beside].
  - intros y. split; [by left|]. intros [?|?]; [done|]. by apply Hc.
Qed.

(** Only the segment that is expected can close the gap. *)
Lemma gap_insert n G1 g g' G2' : gap n G1 → g_at g' = Z.max (g_at g) (ends n G1) → n <= g_at g → Forall (λ a, g_at a <= g_at g) G1 →
  gap n (G1 ++ g' :: G2') ↔ n < g_at g.
Proof.
  intros Hgap Ea Hn Hb. destruct G1 as [|a G1]; cbn in *; [unfold ends in Ea; cbn in Ea; lia|]. apply Forall_inv in Hb. lia.
Qed.

Lemma tcp_reass_spec so t c st x n G rs f g : receiving so t st x n G rs (g_chain g ++ f) → gap n G → seg_ok D (net_mem st) g →
  n <= g_at g → g_end g <= n + 2 ^ 30 → TCPS_ESTABLISHED <= t_state t →
  if decide (n < g_at g) then ∃ t' c' st' G', tcp_reass so (Some (g_seg g)) (t, c, st) = Done (0, (t', c', st')) ∧
      kept so t st x n (λ y, covers G y ∨ g_at g <= y < g_end g) rs f t' st' G'
  else tcp_reass so (Some (g_seg g)) (t, c, st) = Fail BadPtr.
Proof.
  intros Hr Hgap Hg Hn Hw Hst. cbn [tcp_reass]. pose proof Hr as [Hx Hsg Hnx Hok Hl Hwi Hq]. pose proof (seg_end _ _ _ Hg) as Hge.
  destruct (span_spec D (net_mem st) n G (g_at g)) as (G1 & G2 & -> & E & Hb & Hg2); [done|done|lia|done|].
  rewrite Hsg, (so_seq _ _ _ Hg), E, fmap_last. destruct (proj1 (laid_app D n G1 G2) Hl) as [Hl1 _]. pose proof Hok as Hok'. apply Forall_app in Hok' as [Hok1 _].
  assert (Hgap1 : gap n G1) by (by destruct G1). set (i := match _ with None => 0 | Some q => _ end).
  assert (Hi : i = ends n G1 - g_at g ∨ i <= 0 ∧ ends n G1 <= g_at g).
  { unfold i, ends. destruct (last G1) as [a|] eqn:El; [left|right; cbn; lia]. apply last_Some in El as (G0 & ->). cbn.
    apply Forall_app in Hok1 as [_ Ha]. apply Forall_inv in Ha. apply Forall_app in Hb as [_ Hba]. apply Forall_inv in Hba.
    apply Forall_app in Hwi as [Hwi _]. apply Forall_app in Hwi as [_ Hwi]. apply Forall_inv in Hwi. rewrite (so_seq _ _ _ Ha).
    pose proof (laid_ge _ _ _ _ (proj1 (proj1 (Forall_app _ _ _) Hok)) Hl1) as Hge1. apply Forall_app in Hge1 as [_ Hge1]. apply Forall_inv in Hge1.
    pose proof (seg_end _ _ _ Ha). unfold g_end in *. by rewrite seq_diff by lia. }
  destruct (decide (0 < i ∧ ti_len (g_seg g) <= i)) as [[H0 H1]|Hni].
  - rewrite (proj2 (Z.ltb_lt 0 i) H0), (proj2 (Z.leb_le _ i) H1). cbn [andb]. rewrite decide_True.
    2: { destruct G1 as [|a G1]; [unfold i in H0; cbn in H0; lia|]. cbn in Hgap1. apply Forall_inv in Hb. lia. }
    destruct (drop_whole so t st x n (G1 ++ G2) rs f g Hr Hg Hgap) as (st' & -> & Hp).
    { intros y Hy. destruct Hi as [Hi|[? _]]; [|lia]. unfold ends in Hi. destruct (last G1) as [a|] eqn:El; [|lia]. apply last_Some in El as (G0 & ->).
      apply Forall_app in Hb as [_ Hb]. apply Forall_inv in Hb. rewrite !covers_app. left. right. apply covers_cons. left. unfold g_end in *. lia. }
    rewrite bind_done. by eexists t, _, st', (G1 ++ G2).
  - assert ((0 <? i) && (ti_len (g_seg g) <=? i) = false) as ->.
    { destruct (Z.ltb_spec 0 i), (Z.leb_spec (ti_len (g_seg g)) i); try done. by destruct Hni. }
    destruct (ring_insert_spec so t st x n G1 G2 rs f g i) as (s1 & s2 & g' & G2' & E1 & E2 & Hr' & Hs & Hc & Ea); try done.
    rewrite E1, bind_done. cbn [net_mem set_net]. rewrite E2, bind_done.
    assert (map g_seg G1 ++ g_seg g' :: map g_seg G2' = map g_seg (G1 ++ g' :: G2')) as -> by (by rewrite map_app).
    rewrite (present_spec _ _ _ _ _ _ _ _ Hr' Hst). pose proof (gap_insert n G1 g g' G2' Hgap1 Ea Hn Hb) as Hgi.
    destruct (decide (n < g_at g)) as [Hlt|Hge']; [rewrite decide_True by tauto|by rewrite decide_False by tauto].
    rewrite bind_done. eexists _, _, _, (G1 ++ g' :: G2'). split; [done|]. split; [done|tauto|done|done|done].
Qed.

Lemma kept_tflags so t st x n C rs f t' st' G' k : kept so t st x n C rs f t' st' G' → kept so t st x n C rs f (set_tflags k t') st' G'.
Proof. intros [[? ? ? ? ? ? ?] ? ? ? ?]. by split. Qed.
Lemma queue_wakeup s b rs f : queue s b rs f → queue s (sowakeup_sb b) rs f.
Proof. intros [? ? ? ? ?]. by split. Qed.

(** The ordered segment on an established connection with an empty ring. *)
Lemma fast_path so t c st x rs f g : receiving so t st x (g_at g) [] rs (g_chain g ++ f) → seg_ok D (net_mem st) g → g_end g <= g_at g + 2 ^ 30 →
  t_state t = TCPS_ESTABLISHED → sohas SS_CANTRCVMORE x = false →
  ∃ t' c' st' x' rs', TCP_REASS so (g_seg g) (t, c, st) = Done (Z.land (ti_flags (g_seg g)) TH_FIN, (t', c', st')) ∧
    receiving so t' st' x' (g_end g) [] rs' f ∧ took x st st' rs rs' (g_at g) (g_end g) ∧ same (net_mem st) (net_mem st') f ∧
    t_state t' = t_state t ∧ Z.testbit (t_flags t') 1 = true.
Proof.
  intros [Hx Hsg Hnx Hok Hl Hw Hq] Hg Hwg Hst Hm. unfold TCP_REASS. rewrite (so_seq _ _ _ Hg), Hnx, Hsg, Hst, !Z.eqb_refl, bool_decide_true by done. cbn [andb].
  destruct (give_spec so st x rs g f Hx Hg Hq) as (st1 & b & rs1 & E & Hs1 & Hq1 & Ht & Hs & Hk). rewrite Hm in E.
  rewrite (load_so_spec so st x), bind_done by done. revert E. destruct (sbappend _ _ _) as [[b1 s1]|]; [|done]. rewrite !bind_done. intros E. rewrite E, bind_done.
  assert (Hx1 : socks st1 !! so = Some (with_rcv b x)) by (by rewrite Hs1, lookup_insert_eq).
  rewrite (sorwakeup_spec so st1 (with_rcv b x)) by done. cbv zeta. rewrite bind_done.
  eexists _, _, _, (with_rcv (sowakeup_sb b) (with_rcv b x)), rs1. split; [done|].
  split; [|split; [destruct (isset SB_WAIT _); exact Ht|split; [destruct (isset SB_WAIT _); exact Hs|split; [by rewrite <- Hst|]]]].
  - split; [destruct (isset SB_WAIT _); cbn; by rewrite lookup_insert_eq|done|cbn; by rewrite u32_add|constructor|done|constructor|].
    destruct (isset SB_WAIT _); by apply queue_wakeup.
  - cbn [t_flags set_rcv_nxt set_tflags]. by rewrite Z.lor_spec, orb_true_r.
Qed.

(** C31: What [TCP_REASS] does with a segment whose bytes are those of the peer's stream at its sequence number, which begins at or behind the next expected
    position [n] and ends less than 2^30 behind it, on a connection that is established or later, whose ring holds such segments in order and whose socket
    still takes data; the segment may overlap any of them, and sequence numbers may wrap around.  (1) It leaves a gap: the call returns 0; the ring then
    keeps, in order, without overlap and with the stream's bytes, exactly the positions that the ring or the segment had, no other mbuf
    changes, the socket's buffer is as it was, and an acknowledgement is asked for at once.  (2) It is the next one, the ring is empty, the state is [ESTABLISHED]: the
    buffer has got exactly its bytes, behind those it had, [rcv_nxt] is the number of its end, FIN is reported, and a delayed acknowledgement is asked
    for.  (3) It is the next one in any other case: the loop that delivers the ring reads the link that [remque] has cleared, and the kernel goes through NULL. *)
Theorem TCP_REASS_stream so t c st x n G rs f g (Hr : receiving so t st x n G rs (g_chain g ++ f)) (Hgap : gap n G) (Hg : seg_ok D (net_mem st) g)
    (Hn : n <= g_at g) (Hw : g_end g <= n + 2 ^ 30) (Hst : TCPS_ESTABLISHED <= t_state t) (Hm : sohas SS_CANTRCVMORE x = false) :
  (n < g_at g → ∃ t' c' st' G', TCP_REASS so (g_seg g) (t, c, st) = Done (0, (t', c', st')) ∧
    receiving so t' st' x n G' rs f ∧ gap n G' ∧ (∀ y, covers G' y ↔ covers G y ∨ g_at g <= y < g_end g) ∧
    same (net_mem st) (net_mem st') (concat rs ++ f) ∧ t_state t' = t_state t ∧ Z.testbit (t_flags t') 0 = true) ∧
  (g_at g = n → G = [] → t_state t = TCPS_ESTABLISHED → ∃ t' c' st' x' rs', TCP_REASS so (g_seg g) (t, c, st) = Done (Z.land (ti_flags (g_seg g)) TH_FIN, (t', c', st')) ∧
    receiving so t' st' x' (g_end g) [] rs' f ∧ contents (net_mem st') (concat rs') = contents (net_mem st) (concat rs) ++ stretch D n (g_end g - n) ∧
    same (net_mem st) (net_mem st') f ∧ t_state t' = t_state t ∧ Z.testbit (t_flags t') 1 = true) ∧
  (g_at g = n → G ≠ [] ∨ t_state t ≠ TCPS_ESTABLISHED → TCP_REASS so (g_seg g) (t, c, st) = Fail BadPtr).
Proof.
  pose proof (tcp_reass_spec so t c st x n G rs f g Hr Hgap Hg Hn Hw Hst) as Hreass. pose proof Hr as [Hx Hsg Hnx Hok Hl Hwi Hq]. pose proof (seg_end _ _ _ Hg).
  assert (Hslow : g_at g ≠ n ∨ G ≠ [] ∨ t_state t ≠ TCPS_ESTABLISHED → (ti_seq (g_seg g) =? rcv_nxt t) && bool_decide (segs t = []) && (t_state t =? TCPS_ESTABLISHED) = false).
  { intros Hc. rewrite (so_seq _ _ _ Hg), Hnx, seq_eq, Hsg by lia. destruct (Z.eqb_spec (g_at g) n), (Z.eqb_spec (t_state t) TCPS_ESTABLISHED), G; try done; tauto. }
  split; [|split].
  - intros Hlt. unfold TCP_REASS. rewrite Hslow by lia. rewrite decide_True in Hreass by done. destruct Hreass as (t' & c' & st' & G' & -> & Hk). rewrite bind_done.
    apply (kept_tflags _ _ _ _ _ _ _ _ _ _ _ (Z.lor (t_flags t') TF_ACKNOW)) in Hk as [Hr' Hgap' Hc Hs Hst'].
    eexists _, c', st', G'. repeat (split; [done|]). change (t_flags _) with (Z.lor (t_flags t') TF_ACKNOW). by rewrite Z.lor_spec, orb_true_r.
  - intros <- -> Hest. destruct (fast_path so t c st x rs f g Hr Hg Hw Hest Hm) as (t' & c' & st' & x' & rs' & E & Hr' & Ht & Hrest).
    exists t', c', st', x', rs'. split; [done|]. split; [done|]. unfold took in Ht. by rewrite Hm in Ht.
  - intros Ha Hor. unfold TCP_REASS. rewrite Hslow by tauto. rewrite decide_False in Hreass by lia. by rewrite Hreass.
Qed.
End reassembled.

(** ** Timers, proved *)

Lemma rangeset_clamp v lo hi : 0 <= lo <= hi → hi < 2 ^ 15 → 0 <= v < 2 ^ 15 → TCPT_RANGESET v lo hi = Z.max lo (Z.min v hi).
Proof. intros. unfold TCPT_RANGESET. rewrite !s16_small by lia. destruct (Z.ltb_spec v lo), (Z.ltb_spec hi v); lia. Qed.
Lemma shiftr3 x : Z.shiftr x 3 = x / 8.
Proof. by rewrite Z.shiftr_div_pow2. Qed.
Lemma shiftr2 x : Z.shiftr x 2 = x / 4.
Proof. by rewrite Z.shiftr_div_pow2. Qed.

(** C32: [tcp_xmit_timer] is the estimator of the round trip, for a sample of 1 to [R] slow ticks, [R] at most 4095, and estimates within the scale.  The first
    sample sets the smoothed round trip (kept times 8) to the sample and the deviation (kept times 4) to half of it.  Each later one moves the former an eighth of the
    way to the sample less one, rounding by less than one unit, and the latter a quarter of the way to the distance of that sample from the old estimate, rounding by at most
    one unit.  The two stay in (0, 8R] and (0, 4R], so the shorts do not overflow; the retransmission timer is their sum on the scale of ticks, forced between the
    connection's minimum and [TCPTV_REXMTMAX]; timing and backing off start anew. *)
Theorem tcp_xmit_timer_range R rtt t c (HR : R <= 4095) (Hrtt : 1 <= rtt <= R) (Hs : 0 <= t_srtt t <= 8 * R) (Hv : 0 <= t_rttvar t <= 4 * R)
    (Hm : 0 <= t_rttmin t <= TCPTV_REXMTMAX) :
  let t' := (tcp_xmit_timer rtt t c).1 in
  let d := Z.abs (rtt - 1 - t_srtt t / 8) in
  (if t_srtt t =? 0 then t_srtt t' = 8 * rtt ∧ t_rttvar t' = 2 * rtt
   else 7 * t_srtt t + 8 * (rtt - 1) <= 8 * t_srtt t' < 7 * t_srtt t + 8 * (rtt - 1) + 8 ∧
     3 * t_rttvar t + 4 * d <= 4 * t_rttvar t' <= 3 * t_rttvar t + 4 * d + 4) ∧
  0 < t_srtt t' <= 8 * R ∧ 0 < t_rttvar t' <= 4 * R ∧ t_rxtcur t' = Z.max (t_rttmin t) (Z.min (t_srtt t' / 8 + t_rttvar t') TCPTV_REXMTMAX) ∧
  t_rtt t' = 0 ∧ t_rxtshift t' = 0 ∧ t_softerror t' = 0.
Proof.
  pose proof (Z.div_mod (t_srtt t) 8 ltac:(lia)). pose proof (Z.mod_pos_bound (t_srtt t) 8 ltac:(lia)).
  pose proof (Z.div_mod (t_rttvar t) 4 ltac:(lia)). pose proof (Z.mod_pos_bound (t_rttvar t) 4 ltac:(lia)).
  intros t' d.
  assert (Hest : (if t_srtt t =? 0 then t_srtt t' = 8 * rtt ∧ t_rttvar t' = 2 * rtt
     else 7 * t_srtt t + 8 * (rtt - 1) <= 8 * t_srtt t' < 7 * t_srtt t + 8 * (rtt - 1) + 8 ∧
       3 * t_rttvar t + 4 * d <= 4 * t_rttvar t' <= 3 * t_rttvar t + 4 * d + 4) ∧ 0 < t_srtt t' <= 8 * R ∧ 0 < t_rttvar t' <= 4 * R).
  { subst t' d. unfold tcp_xmit_timer, TCP_RTT_SHIFT, TCP_RTTVAR_SHIFT. rewrite shiftr3, shiftr2. destruct (Z.eqb_spec (t_srtt t) 0) as [E0|E0]; cbn [negb].
    - cbn [fst set_rtt set_rxt t_srtt t_rttvar]. rewrite !Z.shiftl_mul_pow2, !s16_small by lia. lia.
    - rewrite (s16_small (rtt - 1 - _)) by lia. set (e := rtt - 1 - t_srtt t / 8). rewrite (s16_small (t_srtt t + e)), (s16_small (- e)) by lia.
      assert ((if e <? 0 then - e else e) = Z.abs e) as -> by (destruct (Z.ltb_spec e 0); lia).
      rewrite (s16_small (Z.abs e - _)), (s16_small (t_rttvar t + _)) by lia. cbn [fst set_rtt set_rxt t_srtt t_rttvar].
      rewrite (proj2 (Z.leb_gt (t_srtt t + e) 0)) by lia. destruct (Z.leb_spec (t_rttvar t + (Z.abs e - t_rttvar t / 4)) 0); lia. }
  destruct Hest as (He & Hs' & Hv'). split; [done|]. split; [done|]. split; [done|]. split.
  - pose proof (Z.div_mod (t_srtt t') 8 ltac:(lia)). pose proof (Z.mod_pos_bound (t_srtt t') 8 ltac:(lia)). rewrite <- shiftr3, <- rangeset_clamp; [| | |rewrite shiftr3; lia].
    + unfold t', tcp_xmit_timer. by destruct (negb _).
    + done.
    + unfold TCPTV_REXMTMAX, PR_SLOWHZ. lia.
  - unfold t', tcp_xmit_timer. by destruct (negb _).
Qed.

(** ** Witnesses *)

(** A connection at 2^32 - 2: the buffer has the bytes 1, 2, 3, the ring 6 and 7 at number 0; 4, 5, 6 arrive. *)
Definition demo_at : Z := 2 ^ 32 - 2.
Definition demo_data (y : Z) : Z := y - demo_at + 4.
Definition demo_seg (i : Z) (l : bytes) : mbuf :=
  let n := Z.of_nat (length l) in mk_mbuf None None n (InMbuf i 8) MT_DATA M_PKTHDR n 0 None 0 (replicate 8 0 ++ l ++ replicate (Z.to_nat (100 - n)) 0).
Definition demo_store (l : bytes) : mst := mk_mst (<[1 := demo_seg 1 [1; 2; 3]]> (<[2 := demo_seg 2 l]> (<[3 := demo_seg 3 [6; 7]]> ∅))) ∅ 3 0 [].
Definition demo_sock : socket :=
  mk_socket 1 0 0 SS_ISCONNECTED (Some 100) demo_tcp None None None 0 0 0 0 0 0 0 (mk_sockbuf 3 8192 128 16384 1 (Some 1) 0) zero_sockbuf 0 0.
Definition demo_state (l : bytes) : nst unit := mk_nst {[5 := demo_sock]} (demo_store l) [] tt.
Definition demo_old : list (list (Z * mbuf)) := [[(1, demo_seg 1 [1; 2; 3])]].
Definition demo_early : gseg := mk_gseg (mk_tseg 0 2 0 3) (demo_at + 2) [(3, demo_seg 3 [6; 7])].
(** The expected segment, and one behind the ring. *)
Definition demo_now : gseg := mk_gseg (mk_tseg demo_at 3 0 2) demo_at [(2, demo_seg 2 [4; 5; 6])].
Definition demo_late : gseg := mk_gseg (mk_tseg 1 2 0 2) (demo_at + 3) [(2, demo_seg 2 [7; 8])].
Definition demo_tcb (l : list tseg) : tcpcb := mk_tcpcb l TCPS_ESTABLISHED [0; 0; 0; 0] 0 6 0 1 1 1 0 demo_at 0 demo_at 1 0 0 24 2 0.
Definition demo_stat : tcpstat := mk_tcpstat 0 0 0 0 0 0 0.

Lemma demo_private l : l = [4; 5; 6] ∨ l = [7; 8] → private (demo_store l) [(1, demo_seg 1 [1; 2; 3]); (3, demo_seg 3 [6; 7]); (2, demo_seg 2 l)].
Proof.
  intros [-> | ->]; split; try done.
  1,6: by repeat constructor.
  1,5: apply (bool_decide_eq_true_1 _); by vm_compute.
  1,4: unfold mbuf_ok; repeat constructor; vm_compute; congruence.
  1,3: repeat constructor; by eexists 8.
  all: apply (bool_decide_eq_true_1 _); by vm_compute.
Qed.
Lemma demo_early_ok l : l = [4; 5; 6] ∨ l = [7; 8] → seg_ok demo_data (demo_store l) demo_early.
Proof. intros [-> | ->]; split; try done; (split; [done|]; by repeat constructor). Qed.
Lemma demo_now_ok : seg_ok demo_data (demo_store [4; 5; 6]) demo_now.
Proof. split; try done. split; [done|]. by repeat constructor. Qed.
Lemma demo_late_ok : seg_ok demo_data (demo_store [7; 8]) demo_late.
Proof. split; try done. split; [done|]. by repeat constructor. Qed.
Lemma demo_receiving l : l = [4; 5; 6] ∨ l = [7; 8] →
  receiving demo_data 5 (demo_tcb [g_seg demo_early]) (demo_state l) demo_sock demo_at [demo_early] demo_old [(2, demo_seg 2 l)].
Proof.
  intros Hl. split; try done.
  - constructor; [by apply demo_early_ok|done].
  - by constructor.
  - split; try done; [by apply demo_private|by repeat constructor..].
Qed.
Lemma demo_receiving_none : receiving demo_data 5 (demo_tcb []) (demo_state [4; 5; 6]) demo_sock demo_at [] demo_old [(2, demo_seg 2 [4; 5; 6])].
Proof.
  destruct (demo_receiving [4; 5; 6]) as [? ? ? ? ? ? Hq]; [by left|]. split; [done|done|done|constructor|done|constructor|].
  eapply queue_beside; [exact Hq|]. destruct Hq as [Hp _ _ _ _]. apply (private_perm _ _ ([(1, demo_seg 1 [1; 2; 3]); (2, demo_seg 2 [4; 5; 6])] ++ [(3, demo_seg 3 [6; 7])])) in Hp; [|solve_Permutation].
  by apply private_app in Hp as [Hp _].
Qed.

Lemma TCP_REASS_stream_witness :
  (∃ t' c' st' G', TCP_REASS 5 (g_seg demo_late) (demo_tcb [g_seg demo_early], demo_stat, demo_state [7; 8]) = Done (0, (t', c', st')) ∧
    receiving demo_data 5 t' st' demo_sock demo_at G' demo_old [] ∧ gap demo_at G' ∧
    (∀ y, covers G' y ↔ covers [demo_early] y ∨ g_at demo_late <= y < g_end demo_late) ∧
    same (net_mem (demo_state [7; 8])) (net_mem st') (concat demo_old ++ []) ∧ t_state t' = TCPS_ESTABLISHED ∧ Z.testbit (t_flags t') 0 = true) ∧
  (∃ t' c' st' x' rs', TCP_REASS 5 (g_seg demo_now) (demo_tcb [], demo_stat, demo_state [4; 5; 6]) = Done (Z.land (ti_flags (g_seg demo_now)) TH_FIN, (t', c', st')) ∧
    receiving demo_data 5 t' st' x' (g_end demo_now) [] rs' [] ∧
    contents (net_mem st') (concat rs') = contents (net_mem (demo_state [4; 5; 6])) (concat demo_old) ++ stretch demo_data demo_at (g_end demo_now - demo_at) ∧
    same (net_mem (demo_state [4; 5; 6])) (net_mem st') [] ∧ t_state t' = TCPS_ESTABLISHED ∧ Z.testbit (t_flags t') 1 = true) ∧
  TCP_REASS 5 (g_seg demo_now) (demo_tcb [g_seg demo_early], demo_stat, demo_state [4; 5; 6]) = Fail BadPtr.
Proof.
  split; [|split].
  - apply (TCP_REASS_stream demo_data 5 (demo_tcb [g_seg demo_early]) demo_stat (demo_state [7; 8]) demo_sock demo_at [demo_early] demo_old [] demo_late);
      [apply demo_receiving; by right|done|apply demo_late_ok|done..].
  - apply (TCP_REASS_stream demo_data 5 (demo_tcb []) demo_stat (demo_state [4; 5; 6]) demo_sock demo_at [] demo_old [] demo_now);
      [apply demo_receiving_none|done|apply demo_now_ok|done..].
  - apply (TCP_REASS_stream demo_data 5 (demo_tcb [g_seg demo_early]) demo_stat (demo_state [4; 5; 6]) demo_sock demo_at [demo_early] demo_old [] demo_now);
      [apply demo_receiving; by left|done|apply demo_now_ok|done..|by left].
Defined.
Example demo_stream_bytes : stretch demo_data demo_at 3 = [4; 5; 6] ∧ contents (demo_store [4; 5; 6]) (concat demo_old) = [1; 2; 3].
Proof. by vm_compute. Qed.

Lemma tcp_xmit_timer_range_witness : let t' := (tcp_xmit_timer 7 (set_rtt 0 16 24 0 (demo_tcb [])) demo_stat).1 in
  (7 * 16 + 8 * (7 - 1) <= 8 * t_srtt t' < 7 * 16 + 8 * (7 - 1) + 8 ∧ 3 * 24 + 4 * 4 <= 4 * t_rttvar t' <= 3 * 24 + 4 * 4 + 4) ∧
  0 < t_srtt t' <= 8 * 100 ∧ 0 < t_rttvar t' <= 4 * 100 ∧ t_rxtcur t' = Z.max 2 (Z.min (t_srtt t' / 8 + t_rttvar t') TCPTV_REXMTMAX) ∧
  t_rtt t' = 0 ∧ t_rxtshift t' = 0 ∧ t_softerror t' = 0.
Proof. apply (tcp_xmit_timer_range 100 7 (set_rtt 0 16 24 0 (demo_tcb [])) demo_stat); cbn; unfold TCPTV_REXMTMAX, PR_SLOWHZ; lia. Defined.
