(* ===== verification/Pcb.v ===== *)
(** * Protocol control blocks ([Kernel/netinet/in_pcb.c])

    Every socket of TCP, UDP or raw IP has an [inpcb] with its two addresses.  The blocks of a protocol hang in a ring
    from a head, here a list in its order from [inp_next], each with its address in memory; the head's own [inp_lport] is the last
    port that was given out.  Ports and addresses are kept in network byte order.  A name ([nam]) is an mbuf with a [sockaddr_in]: here its
    length and the address, returned since [in_pcbbind] and [in_pcbconnect] write to it.

    What the routing table and the interfaces answer is behind the class [RouteOps]; the sockets are those of [Socket].

    Not modelled: [in_losing], which builds messages of the routing socket. *)

From S2P Require Import Prelude Mbuf Sockbuf Socket.

Definition SO_REUSEADDR := 4.
Definition SO_DONTROUTE := 16.
Definition SO_REUSEPORT := 512.
Definition AF_INET := 2.
Definition EAFNOSUPPORT := 97.
Definition EADDRINUSE := 98.
Definition EADDRNOTAVAIL := 99.
Definition IFF_BROADCAST := 2.
Definition IFF_LOOPBACK := 8.
Definition INADDR_ANY := 0.
Definition INADDR_BROADCAST := 4294967295.
Definition IPPORT_RESERVED := 1024.
Definition IPPORT_USERRESERVED := 5000.
Definition INPLOOKUP_WILDCARD := 1.
Definition PRC_HOSTDEAD := 6.
Definition PRC_REDIRECT_NET := 14.
Definition PRC_REDIRECT_TOSHOST := 17.
Definition PRC_NCMDS := 21.

Definition htons (x : Z) : Z := Z.lor (Z.shiftl (Z.land x 255) 8) (Z.shiftr (Z.land x 65280) 8).
Definition ntohl (x : Z) : Z :=
  Z.lor (Z.lor (Z.lor (u32 (Z.shiftl (Z.land x 255) 24)) (Z.shiftl (Z.land x 65280) 8)) (Z.shiftr (Z.land x 16711680) 8)) (Z.shiftr (Z.land x 4278190080) 24).
Definition IN_MULTICAST (a : Z) : bool := Z.land a 4026531840 =? 3758096384.
Definition PRC_IS_REDIRECT (cmd : Z) : bool := (PRC_REDIRECT_NET <=? cmd) && (cmd <=? PRC_REDIRECT_TOSHOST).
(** EMSGSIZE 90, ENOPROTOOPT 92, ECONNREFUSED 111, EHOSTDOWN 112, EHOSTUNREACH 113. *)
Definition inetctlerrmap : list Z := [0; 0; 0; 0; 0; 90; 112; 113; 113; 113; 111; 111; 90; 113; 0; 0; 0; 0; 0; 0; 92].

Record sockaddr_in : Type := mk_sin { sin_family : Z; sin_port : Z; sin_addr : Z }.
Definition sizeof_sin := 16.
(** The mbuf of a name: [m_len] and the address in it. *)
Definition name : Type := Z * sockaddr_in.

Record inpcb : Type := mk_inpcb {
  inp_faddr : Z; inp_fport : Z; inp_laddr : Z; inp_lport : Z; inp_socket : option Z;
  ro_rt : option Z; ro_dst : Z; inp_options : option Z; inp_moptions : option (Z * option Z) }.
Definition set_foreign a p i := mk_inpcb a p (inp_laddr i) (inp_lport i) (inp_socket i) (ro_rt i) (ro_dst i) (inp_options i) (inp_moptions i).
Definition set_laddr a i := mk_inpcb (inp_faddr i) (inp_fport i) a (inp_lport i) (inp_socket i) (ro_rt i) (ro_dst i) (inp_options i) (inp_moptions i).
Definition set_lport p i := mk_inpcb (inp_faddr i) (inp_fport i) (inp_laddr i) p (inp_socket i) (ro_rt i) (ro_dst i) (inp_options i) (inp_moptions i).
Definition set_route r d i := mk_inpcb (inp_faddr i) (inp_fport i) (inp_laddr i) (inp_lport i) (inp_socket i) r d (inp_options i) (inp_moptions i).

(** ** Looking a connection up *)

(** The body of the loop of [in_pcblookup]: how many wildcards [p] needs, or that it does not fit. *)
Definition wildcards (faddr fport laddr lport flags : Z) (p : inpcb) : option Z :=
  if negb (inp_lport p =? lport) then None else
  a ← (if negb (inp_laddr p =? INADDR_ANY) then
         if laddr =? INADDR_ANY then Some 1 else if negb (inp_laddr p =? laddr) then None else Some 0
       else if negb (laddr =? INADDR_ANY) then Some 1 else Some 0);
  w ← (if negb (inp_faddr p =? INADDR_ANY) then
         if faddr =? INADDR_ANY then Some (a + 1) else if negb (inp_faddr p =? faddr) || negb (inp_fport p =? fport) then None else Some a
       else if negb (faddr =? INADDR_ANY) then Some (a + 1) else Some a);
  if negb (w =? 0) && (Z.land flags INPLOOKUP_WILDCARD =? 0) then None else Some w.
Fixpoint lookup_loop (faddr fport laddr lport flags matchwild : Z) (found : option Z) (l : list (Z * inpcb)) : option Z :=
  match l with
  | [] => found
  | (i, p) :: l =>
      match wildcards faddr fport laddr lport flags p with
      | Some w => if w <? matchwild then if w =? 0 then Some i else lookup_loop faddr fport laddr lport flags w (Some i) l
                  else lookup_loop faddr fport laddr lport flags matchwild found l
      | None => lookup_loop faddr fport laddr lport flags matchwild found l
      end
  end.
Definition in_pcblookup (l : list (Z * inpcb)) (faddr fport_arg laddr lport_arg flags : Z) : option Z :=
  lookup_loop faddr (u16 fport_arg) laddr (u16 lport_arg) flags 3 None l.

(** The loop of [in_pcbbind] that gives out a port: [last] is the head's, [lport] in network byte order. *)
Fixpoint port_loop (fuel : nat) (l : list (Z * inpcb)) (laddr wild last lport : Z) : outcome (Z * Z) :=
  match fuel with
  | O => Fail Diverge
  | S fuel =>
      let next := u16 (last + 1) in
      let lport := if (last <? IPPORT_RESERVED) || (IPPORT_USERRESERVED <? next) then htons next else lport in
      match in_pcblookup l INADDR_ANY 0 laddr lport wild with
      | Some _ => port_loop fuel l laddr wild next lport
      | None => Done (lport, next)
      end
  end.

(** ** Blocks, sockets and routes *)

(** The routing table and the interfaces, addresses of which are [Z]: [rtalloc] of a destination, given the entry the block has;
    [RTFREE]; the fields of entries and of interfaces; the list from [in_ifaddr]; looking an interface up by an address, by the address at its other end, by its net. *)
Class RouteOps (R : Type) := {
  rtalloc : Z → option Z → R → option Z * R;
  rtfree : Z → R → R;
  RTFREE : Z → R → R;
  rt_ifp : Z → R → option Z;
  rt_ifa : Z → R → option Z;
  if_flags : Z → R → Z;
  in_ifaddr : R → list Z;
  ia_ifp : Z → R → Z;
  ia_addr : Z → R → Z;
  ia_broadaddr : Z → R → Z;
  ifa_ifwithaddr : Z → R → option Z;
  ifa_ifwithdstaddr : Z → R → option Z;
  ifa_ifwithnet : Z → R → option Z;
  ip_freemoptions : option Z → R → R;
}.

Record pst (R P : Type) : Type := mk_pst { inps : list (Z * inpcb); head_lport : Z; net : nst P; routes : R }.
Arguments mk_pst {R P} _ _ _ _.
Arguments inps {R P} _.
Arguments head_lport {R P} _.
Arguments net {R P} _.
Arguments routes {R P} _.

Fixpoint find_inp (i : Z) (l : list (Z * inpcb)) : option inpcb :=
  match l with [] => None | (j, p) :: l => if j =? i then Some p else find_inp i l end.
Definition change_inp (i : Z) (f : inpcb → inpcb) (l : list (Z * inpcb)) : list (Z * inpcb) := map (λ a, if a.1 =? i then (a.1, f a.2) else a) l.
(** [inp_next]; [None] is the head. *)
Fixpoint next_inp (i : Z) (l : list (Z * inpcb)) : option Z :=
  match l with [] => None | (j, _) :: l => if j =? i then fst <$> head l else next_inp i l end.

Section pcb.
Context {R P : Type} `{RouteOps R} `{ProtoOps P}.
Implicit Types st : pst R P.

Definition set_inps l st : pst R P := mk_pst l (head_lport st) (net st) (routes st).
Definition set_last n st : pst R P := mk_pst (inps st) n (net st) (routes st).
Definition set_pnet n st : pst R P := mk_pst (inps st) (head_lport st) n (routes st).
Definition set_routes r st : pst R P := mk_pst (inps st) (head_lport st) (net st) r.
Definition load_inp (i : Z) st : outcome inpcb := deref (find_inp i (inps st)).
Definition upd_inp (i : Z) (f : inpcb → inpcb) st : outcome (pst R P) := _ ← load_inp i st; Done (set_inps (change_inp i f (inps st)) st).
Definition with_pcb b x := mk_socket (so_type x) (so_options x) (so_linger x) (so_state x) b (so_proto x) (so_head x) (so_q0 x) (so_q x) (so_q0len x) (so_qlen x) (so_qlimit x) (so_timeo x) (so_error x) (so_pgid x) (so_oobmark x) (so_rcv x) (so_snd x) (rcv_timeo x) (snd_timeo x).
Definition so_of (p : inpcb) st : outcome socket := so ← deref (inp_socket p); load_so so (net st).

(** [a] is what [kmalloc] returns. *)
Definition in_pcballoc (so : Z) (a : option Z) st : outcome (Z * pst R P) :=
  match a with
  | None => Done (- ENOBUFS, st)
  | Some i =>
      let st := set_inps ((i, mk_inpcb 0 0 0 0 (Some so) None 0 None None) :: inps st) st in
      n ← upd_so so (with_pcb (Some i)) (net st);
      Done (0, set_pnet n st)
  end.
Definition in_pcbdetach (i : Z) st : outcome (Z * pst R P) :=
  p ← load_inp i st;
  so ← deref (inp_socket p);
  n ← upd_so so (with_pcb None) (net st);
  n ← sofree so n;
  n ← (match inp_options p with Some m => '(_, s) ← m_free (Some m) (net_mem n); Done (set_mem s n) | None => Done n end);
  let r := match ro_rt p with Some rt => rtfree rt (routes st) | None => routes st end in
  let r := ip_freemoptions (fst <$> inp_moptions p) r in
  Done (0, mk_pst (filter (λ a, a.1 ≠ i) (inps st)) (head_lport st) n r).

(** The flag with which [in_pcbbind] looks for other sockets. *)
Definition bind_wild (so : socket) : Z :=
  if negb (isset (Z.lor SO_REUSEADDR SO_REUSEPORT) (so_options so)) &&
     (negb (isset PR_CONNREQUIRED (pr_flags (so_proto so))) || negb (isset SO_ACCEPTCONN (so_options so))) then INPLOOKUP_WILDCARD else 0.
(** [stale] is what the pointer [sin] of [in_pcbbind] designates before it is set: the function reads through it when there is no name. *)
Definition in_pcbbind (i : Z) (nam : option name) (stale : option Z) st : outcome (Z * option name * pst R P) :=
  p ← load_inp i st;
  so ← so_of p st;
  let reuseport := Z.land (so_options so) SO_REUSEPORT in
  if bool_decide (in_ifaddr (routes st) = []) then Done (- EADDRNOTAVAIL, nam, st) else
  if negb (inp_lport p =? 0) || negb (inp_laddr p =? INADDR_ANY) then Done (- EINVAL, nam, st) else
  let wild := bind_wild so in
  '(error, reuseport, lport, nam) ← (match nam with
    | None => Done (0, reuseport, 0, nam)
    | Some (len, sin) =>
        if negb (len =? sizeof_sin) then Done (- EINVAL, reuseport, 0, nam) else
        if negb (sin_family sin =? AF_INET) then Done (- EAFNOSUPPORT, reuseport, 0, nam) else
        if IN_MULTICAST (ntohl (sin_addr sin)) then
          Done (0, if isset SO_REUSEADDR (so_options so) then Z.lor SO_REUSEADDR SO_REUSEPORT else reuseport, u16 (sin_port sin), nam)
        else if negb (sin_addr sin =? INADDR_ANY) then
          let nam := Some (len, mk_sin (sin_family sin) 0 (sin_addr sin)) in
          Done (if bool_decide (ifa_ifwithaddr (sin_addr sin) (routes st) = None) then - EADDRNOTAVAIL else 0, reuseport, u16 (sin_port sin), nam)
        else Done (0, reuseport, u16 (sin_port sin), nam)
    end);
  if negb (error =? 0) then Done (error, nam, st) else
  addr ← deref (match nam with Some (_, sin) => Some (sin_addr sin) | None => stale end);
  t ← (if negb (lport =? 0) then
         match in_pcblookup (inps st) INADDR_ANY 0 addr lport wild with
         | Some t => p ← load_inp t st; so ← so_of p st; Done (Z.land reuseport (so_options so) =? 0)
         | None => Done false
         end
       else Done false);
  if (t : bool) then Done (- EADDRINUSE, nam, st) else
  st ← upd_inp i (set_laddr addr) st;
  '(lport, last) ← (if lport =? 0 then port_loop (Z.to_nat (2 ^ 16)) (inps st) addr wild (head_lport st) lport else Done (lport, head_lport st));
  st ← upd_inp i (set_lport lport) (set_last last st);
  Done (0, nam, st).

(** The local interface for a destination, of a block without a local address: [inl] an error. *)
Definition local_ia (i : Z) (dst : Z) st : outcome ((Z + Z) * pst R P) :=
  p ← load_inp i st;
  so ← so_of p st;
  let dontroute := isset SO_DONTROUTE (so_options so) in
  let '(rt, r) := match ro_rt p with
                  | Some rt => if negb (ro_dst p =? dst) || dontroute then (None, RTFREE rt (routes st)) else (Some rt, routes st)
                  | None => (None, routes st)
                  end in
  let '(rt, d, r) := if negb dontroute && bool_decide (rt ≫= (λ rt, rt_ifp rt r) = None)
                     then let '(rt, r) := rtalloc dst rt r in (rt, dst, r) else (rt, ro_dst p, r) in
  ia ← (match rt with
        | Some rt => ifp ← deref (rt_ifp rt r); Done (if negb (isset IFF_LOOPBACK (if_flags ifp r)) then rt_ifa rt r else None)
        | None => Done None
        end);
  st ← upd_inp i (set_route rt d) (set_routes r st);
  let first (a b : option Z) := match a with Some _ => a | None => b end in
  match first ia (first (ifa_ifwithdstaddr dst r) (first (ifa_ifwithnet dst r) (head (in_ifaddr r)))) with
  | None => Done (inl (- EADDRNOTAVAIL), st)
  | Some ia =>
      match inp_moptions p with
      | Some (_, Some ifp) =>
          if IN_MULTICAST (ntohl dst) then
            match list_find (λ ia, ia_ifp ia r = ifp) (in_ifaddr r) with
            | Some (_, ia) => Done (inr ia, st)
            | None => Done (inl (- EADDRNOTAVAIL), st)
            end
          else Done (inr ia, st)
      | _ => Done (inr ia, st)
      end
  end.

Definition in_pcbconnect (i : Z) (nam : name) (stale : option Z) st : outcome (Z * name * pst R P) :=
  let '(len, sin) := nam in
  if negb (len =? sizeof_sin) then Done (- EINVAL, nam, st) else
  if negb (sin_family sin =? AF_INET) then Done (- EAFNOSUPPORT, nam, st) else
  if sin_port sin =? 0 then Done (- EADDRNOTAVAIL, nam, st) else
  let r := routes st in
  let addr := match in_ifaddr r with
              | ia :: _ => if sin_addr sin =? INADDR_ANY then ia_addr ia r
                           else if (sin_addr sin =? INADDR_BROADCAST) && isset IFF_BROADCAST (if_flags (ia_ifp ia r) r) then ia_broadaddr ia r
                           else sin_addr sin
              | [] => sin_addr sin
              end in
  let nam := (len, mk_sin (sin_family sin) (sin_port sin) addr) in
  p ← load_inp i st;
  '(e, st) ← (if inp_laddr p =? INADDR_ANY then
                '(x, st) ← local_ia i addr st; Done (match x with inl e => inl e | inr ia => inr (ia_addr ia (routes st)) end, st)
              else Done (inr INADDR_ANY, st));
  match e with
  | inl e => Done (e, nam, st)
  | inr ifaddr =>
      let laddr := if negb (inp_laddr p =? 0) then inp_laddr p else ifaddr in
      match in_pcblookup (inps st) addr (sin_port sin) laddr (inp_lport p) 0 with
      | Some _ => Done (- EADDRINUSE, nam, st)
      | None =>
          st ← (if inp_laddr p =? INADDR_ANY then
                  st ← (if inp_lport p =? 0 then '(_, _, st) ← in_pcbbind i None stale st; Done st else Done st);
                  upd_inp i (set_laddr ifaddr) st
                else Done st);
          st ← upd_inp i (set_foreign addr (sin_port sin)) st;
          Done (0, nam, st)
      end
  end.

Definition in_pcbdisconnect (i : Z) st : outcome (pst R P) :=
  st ← upd_inp i (set_foreign INADDR_ANY 0) st;
  p ← load_inp i st;
  so ← so_of p st;
  if sohas SS_NOFDREF so then '(_, st) ← in_pcbdetach i st; Done st else Done st.

Definition in_setsockaddr (p : inpcb) : name := (sizeof_sin, mk_sin AF_INET (inp_lport p) (inp_laddr p)).
Definition in_setpeeraddr (p : inpcb) : name := (sizeof_sin, mk_sin AF_INET (inp_fport p) (inp_faddr p)).
Definition in_rtchange (i error : Z) st : outcome (pst R P) :=
  p ← load_inp i st;
  match ro_rt p with
  | Some rt => upd_inp i (λ p, set_route None (ro_dst p) p) (set_routes (rtfree rt (routes st)) st)
  | None => Done st
  end.

(** [in_pcbnotify]: the condition under which a block is passed over, and the walk. *)
Definition notify_skip (faddr fport laddr lport : Z) (p : inpcb) : bool :=
  negb (inp_faddr p =? faddr) || bool_decide (inp_socket p = None) || (negb (lport =? 0) && negb (inp_lport p =? lport)) ||
  (negb (laddr =? 0) && negb (inp_laddr p =? laddr)) || (negb (fport =? 0) && negb (inp_fport p =? fport)).
Fixpoint notify_loop (fuel : nat) (faddr fport laddr lport error : Z) (notify : option (Z → Z → pst R P → outcome (pst R P))) (cur : option Z) st : outcome (pst R P) :=
  match fuel, cur with
  | _, None => Done st
  | O, _ => Fail Diverge
  | S fuel, Some i =>
      p ← load_inp i st;
      let next := next_inp i (inps st) in
      st ← (if notify_skip faddr fport laddr lport p then Done st else match notify with Some f => f i error st | None => Done st end);
      notify_loop fuel faddr fport laddr lport error notify next st
  end.
Definition in_pcbnotify (dst : sockaddr_in) (fport_arg laddr lport_arg cmd : Z) (notify : option (Z → Z → pst R P → outcome (pst R P))) st : outcome (pst R P) :=
  if (PRC_NCMDS <? u32 cmd) || negb (sin_family dst =? AF_INET) then Done st else
  if sin_addr dst =? INADDR_ANY then Done st else
  let gone := PRC_IS_REDIRECT cmd || (cmd =? PRC_HOSTDEAD) in
  let fport := if gone then 0 else u16 fport_arg in
  let lport := if gone then 0 else u16 lport_arg in
  let laddr := if gone then 0 else laddr in
  let notify := if gone && negb (cmd =? PRC_HOSTDEAD) then Some in_rtchange else notify in
  error ← deref (nthZ inetctlerrmap cmd);
  notify_loop (Datatypes.S (length (inps st))) (sin_addr dst) fport laddr lport error notify (fst <$> head (inps st)) st.
End pcb.

(** ** Lookups *)

(** [p] fits a lookup with [w] wildcards: the ports agree, and each address where neither side leaves it open. *)
Definition fits (faddr fport laddr lport flags : Z) (p : inpcb) (w : Z) : Prop :=
  inp_lport p = lport ∧ (inp_laddr p = laddr ∨ inp_laddr p = INADDR_ANY ∨ laddr = INADDR_ANY) ∧
  (inp_faddr p = INADDR_ANY ∨ faddr = INADDR_ANY ∨ inp_faddr p = faddr ∧ inp_fport p = fport) ∧
  w = b2z (negb (inp_laddr p =? laddr)) + b2z (negb (inp_faddr p =? faddr)) ∧ (w = 0 ∨ Z.land flags INPLOOKUP_WILDCARD ≠ 0).

Lemma wildcards_spec faddr fport laddr lport flags p w : wildcards faddr fport laddr lport flags p = Some w ↔ fits faddr fport laddr lport flags p w.
Proof.
  unfold wildcards, fits, INADDR_ANY.
  destruct (Z.eqb_spec (inp_lport p) lport) as [El|El]; cbn [negb]; [|split; [done|by intros [? _]]].
  destruct (Z.eqb_spec (inp_laddr p) 0) as [E1|E1], (Z.eqb_spec laddr 0) as [E2|E2], (Z.eqb_spec (inp_laddr p) laddr) as [E3|E3]; cbn [negb b2z]; try lia;
  destruct (Z.eqb_spec (inp_faddr p) 0) as [F1|F1], (Z.eqb_spec faddr 0) as [F2|F2], (Z.eqb_spec (inp_faddr p) faddr) as [F3|F3],
    (Z.eqb_spec (inp_fport p) fport) as [F4|F4], (Z.eqb_spec (Z.land flags INPLOOKUP_WILDCARD) 0) as [F5|F5]; cbn [negb b2z orb andb mbind option_bind]; try lia;
  (split; [intros [= <-]; lia|intros (? & ? & ? & -> & ?); try (exfalso; lia); reflexivity]).
Qed.
Lemma wildcards_range faddr fport laddr lport flags p w : wildcards faddr fport laddr lport flags p = Some w → 0 <= w < 3.
Proof. intros (_ & _ & _ & -> & _)%wildcards_spec. destruct (inp_laddr p =? laddr), (inp_faddr p =? faddr); cbn; lia. Qed.

Section lookup.
Context (faddr fport laddr lport flags : Z).
Notation score := (λ a : Z * inpcb, wildcards faddr fport laddr lport flags a.2).

(** [i] is the first of the best in [l], all better than [m]. *)
Definition best_in (m : Z) (l : list (Z * inpcb)) (i : Z) : Prop :=
  ∃ l1 p l2 w, l = l1 ++ (i, p) :: l2 ∧ wildcards faddr fport laddr lport flags p = Some w ∧ w < m ∧
    (∀ a v, a ∈ l1 → score a = Some v → w < v) ∧ (∀ a v, a ∈ l2 → score a = Some v → w <= v).

Lemma best_worse m l a i : (∀ v, score a = Some v → m <= v) → best_in m l i → best_in m (a :: l) i.
Proof.
  intros Ha (l1 & p & l2 & w & -> & Hp & Hw & H1 & H2). exists (a :: l1), p, l2, w. repeat (split; [done|]). split; [|done].
  intros b v [->|Hb]%elem_of_cons Hv; [specialize (Ha v Hv); lia|by eapply H1].
Qed.

Lemma lookup_loop_spec m found l : m <= 3 →
  lookup_loop faddr fport laddr lport flags m found l = found ∧ (∀ a v, a ∈ l → score a = Some v → m <= v) ∨
  ∃ i, lookup_loop faddr fport laddr lport flags m found l = Some i ∧ best_in m l i.
Proof.
  revert m found. induction l as [|[i p] l IH]; intros m found Hm; [left; split; [done|]; by intros a v ?%elem_of_nil|]. cbn [lookup_loop].
  destruct (wildcards faddr fport laddr lport flags p) as [w|] eqn:Ew.
  - pose proof (wildcards_range _ _ _ _ _ _ _ Ew) as Hw. destruct (Z.ltb_spec w m) as [Hlt|Hge].
    + right. destruct (Z.eqb_spec w 0) as [->|Hw0].
      * exists i. split; [done|]. exists [], p, l, 0. repeat (split; [done|]). split; [by intros a v ?%elem_of_nil|].
        intros a v _ Hv. apply wildcards_range in Hv. lia.
      * destruct (IH w (Some i) ltac:(lia)) as [[E Hl]|(k & E & l1 & q & l2 & u & -> & Hq & Hu & H1 & H2)].
        -- exists i. split; [done|]. exists [], p, l, w. repeat (split; [done|]). split; [by intros a v ?%elem_of_nil|done].
        -- exists k. split; [done|]. exists ((i, p) :: l1), q, l2, u. split; [done|]. split; [done|]. split; [lia|]. split; [|done].
           intros a v [->|Ha]%elem_of_cons Hv; [cbn in Hv; rewrite Ew in Hv; injection Hv as <-; done|by eapply H1].
    + assert (Hp : ∀ v, wildcards faddr fport laddr lport flags p = Some v → m <= v) by (intros v; rewrite Ew; intros [= <-]; done).
      destruct (IH m found Hm) as [[E Hl]|(k & E & Hk)]; [left|right].
      * split; [done|]. intros a v [->|Ha]%elem_of_cons Hv; [by apply Hp|by eapply Hl].
      * exists k. split; [done|]. by apply best_worse.
  - assert (Hp : ∀ v, wildcards faddr fport laddr lport flags p = Some v → m <= v) by (intros v; by rewrite Ew).
    destruct (IH m found Hm) as [[E Hl]|(k & E & Hk)]; [left|right].
    * split; [done|]. intros a v [->|Ha]%elem_of_cons Hv; [by apply Hp|by eapply Hl].
    * exists k. split; [done|]. by apply best_worse.
Qed.
End lookup.

(** C35: [in_pcblookup] finds the best block: [fits] says with how many wildcards a block serves the connection; the result is the first of those
    that need the fewest, however they are ordered, and there is none only if no block fits. *)
Theorem in_pcblookup_best l faddr fport laddr lport flags :
  match in_pcblookup l faddr fport laddr lport flags with
  | Some i => ∃ l1 p l2 w, l = l1 ++ (i, p) :: l2 ∧ fits faddr (u16 fport) laddr (u16 lport) flags p w ∧
                (∀ a v, a ∈ l1 → fits faddr (u16 fport) laddr (u16 lport) flags a.2 v → w < v) ∧
                (∀ a v, a ∈ l2 → fits faddr (u16 fport) laddr (u16 lport) flags a.2 v → w <= v)
  | None => ∀ a v, a ∈ l → ¬ fits faddr (u16 fport) laddr (u16 lport) flags a.2 v
  end.
Proof.
  unfold in_pcblookup. destruct (lookup_loop_spec faddr (u16 fport) laddr (u16 lport) flags 3 None l ltac:(lia)) as [[-> Hl]|(i & -> & l1 & p & l2 & w & -> & Hp & _ & H1 & H2)].
  - intros a v Ha Hf%wildcards_spec. pose proof (wildcards_range _ _ _ _ _ _ _ Hf). specialize (Hl a v Ha Hf). lia.
  - exists l1, p, l2, w. split; [done|]. split; [by apply wildcards_spec|]. split; intros a v Ha Hf%wildcards_spec; eauto.
Qed.

Lemma lookup_none l faddr fport laddr lport flags : in_pcblookup l faddr fport laddr lport flags = None ↔
  ∀ a, a ∈ l → wildcards faddr (u16 fport) laddr (u16 lport) flags a.2 = None.
Proof.
  unfold in_pcblookup. destruct (lookup_loop_spec faddr (u16 fport) laddr (u16 lport) flags 3 None l ltac:(lia)) as [[-> Hl]|(i & -> & l1 & p & l2 & w & -> & Hp & _ & _)].
  - split; [|done]. intros _ a Ha. destruct (wildcards _ _ _ _ _ a.2) as [w|] eqn:E; [|done]. pose proof (wildcards_range _ _ _ _ _ _ _ E). specialize (Hl a w Ha E). lia.
  - split; [done|]. intros Hl. specialize (Hl (i, p) ltac:(set_solver)). cbn in Hl. congruence.
Qed.

(** ** Ports *)

(** The ports that are given out. *)
Definition ephemeral (c : Z) : Prop := 1 <= c <= IPPORT_RESERVED ∨ IPPORT_USERRESERVED < c < 2 ^ 16.

Lemma htons_fine c : 0 < c < 2 ^ 16 → 0 < htons c < 2 ^ 16.
Proof.
  intros Hc. unfold htons. set (a := Z.shiftl _ 8). set (b := Z.shiftr _ 8).
  assert (Ea : a = c mod 2 ^ 8 * 2 ^ 8) by (unfold a; change 255 with (Z.ones 8); by rewrite Z.land_ones, Z.shiftl_mul_pow2 by lia).
  assert (Eb : b = c / 2 ^ 8 mod 2 ^ 8) by (unfold b; rewrite Z.shiftr_land; change (Z.shiftr 65280 8) with (Z.ones 8); by rewrite Z.land_ones, Z.shiftr_div_pow2 by lia).
  pose proof (Z.div_mod c (2 ^ 8) ltac:(lia)). pose proof (Z.mod_pos_bound c (2 ^ 8) ltac:(lia)).
  rewrite (Z.mod_small (c / 2 ^ 8)) in Eb by (split; [apply Z.div_pos; lia|apply Z.div_lt_upper_bound; lia]).
  assert (0 <= b < 2 ^ 8) by (rewrite Eb; split; [apply Z.div_pos; lia|apply Z.div_lt_upper_bound; lia]).
  assert (E : Z.lor a b mod 2 ^ 16 = Z.lor a b).
  { rewrite <- Z.land_ones, Z.land_lor_distr_l, !Z.land_ones by lia. by rewrite !Z.mod_small by lia. }
  pose proof (Z.mod_pos_bound (Z.lor a b) (2 ^ 16) ltac:(lia)). assert (Z.lor a b ≠ 0); [|lia]. intros [? ?]%Z.lor_eq_0_iff. lia.
Qed.
Lemma ephemeral_cond last : 0 <= last < 2 ^ 16 →
  if (last <? IPPORT_RESERVED) || (IPPORT_USERRESERVED <? u16 (last + 1)) then ephemeral (u16 (last + 1)) else ¬ ephemeral (u16 (last + 1)).
Proof.
  intros Hl. unfold ephemeral, IPPORT_RESERVED, IPPORT_USERRESERVED.
  assert (0 <= u16 (last + 1) < 2 ^ 16) by (by apply Z.mod_pos_bound). assert (u16 (last + 1) = last + 1 ∨ last = 2 ^ 16 - 1 ∧ u16 (last + 1) = 0) as Hu.
  { destruct (decide (last = 2 ^ 16 - 1)) as [->|]; [by right|left; apply Z.mod_small; lia]. }
  destruct (Z.ltb_spec last 1024), (Z.ltb_spec 5000 (u16 (last + 1))); cbn [orb]; lia.
Qed.
Lemma u16_turn last k : u16 (u16 (last + 1) + (k - 1)) = u16 (last + k).
Proof. unfold u16. rewrite Zplus_mod_idemp_l. f_equal. lia. Qed.

(** The loop stops at the first port behind [last] that is ephemeral and free, if there is one. *)
Lemma port_loop_spec fuel l laddr wild last lport k0 : 0 <= last < 2 ^ 16 → in_pcblookup l INADDR_ANY 0 laddr lport wild ≠ None →
  1 <= k0 <= Z.of_nat fuel → ephemeral (u16 (last + k0)) → in_pcblookup l INADDR_ANY 0 laddr (htons (u16 (last + k0))) wild = None →
  ∃ k, 1 <= k <= k0 ∧ port_loop fuel l laddr wild last lport = Done (htons (u16 (last + k)), u16 (last + k)) ∧ ephemeral (u16 (last + k)) ∧
    in_pcblookup l INADDR_ANY 0 laddr (htons (u16 (last + k))) wild = None ∧
    ∀ j, 1 <= j < k → ephemeral (u16 (last + j)) → in_pcblookup l INADDR_ANY 0 laddr (htons (u16 (last + j))) wild ≠ None.
Proof.
  revert last lport k0. induction fuel as [|fuel IH]; intros last lport k0 Hl Ht Hk He Hn; [lia|]. cbn [port_loop].
  pose proof (ephemeral_cond last Hl) as Hc. set (lport' := if _ || _ then htons (u16 (last + 1)) else lport).
  assert (Hl' : 0 <= u16 (last + 1) < 2 ^ 16) by (by apply Z.mod_pos_bound).
  destruct (in_pcblookup l INADDR_ANY 0 laddr lport' wild) as [t|] eqn:El.
  - assert (Hfirst : ephemeral (u16 (last + 1)) → in_pcblookup l INADDR_ANY 0 laddr (htons (u16 (last + 1))) wild ≠ None).
    { intros Hp. unfold lport' in El. destruct (_ || _); [by rewrite El|done]. }
    assert (k0 ≠ 1) by (intros ->; by apply Hfirst).
    destruct (IH (u16 (last + 1)) lport' (k0 - 1)) as (k & Hk' & -> & He' & Hn' & Hmin); [done|by rewrite El|lia|by rewrite u16_turn|by rewrite u16_turn|].
    assert (Hturn : ∀ j, u16 (u16 (last + 1) + j) = u16 (last + (j + 1))) by (intros j; pose proof (u16_turn last (j + 1)) as E; by rewrite Z.add_simpl_r in E).
    rewrite !Hturn in *. exists (k + 1). split; [lia|]. repeat (split; [done|]).
    intros j Hj Hej. destruct (decide (j = 1)) as [->|]; [by apply Hfirst|].
    specialize (Hmin (j - 1) ltac:(lia)). rewrite Hturn, Z.sub_add in Hmin. by apply Hmin.
  - unfold lport' in *. destruct (_ || _); [|done]. exists 1. split; [lia|]. repeat (split; [done|]). intros j ?. lia.
Qed.

(** ** Lists of blocks *)

Lemma find_inp_elem i l p : find_inp i l = Some p → (i, p) ∈ l.
Proof. induction l as [|[j q] l IH]; [done|]. cbn. destruct (Z.eqb_spec j i) as [->|]; [intros [= ->]; left|right; auto]. Qed.
Lemma elem_find_inp i l p : NoDup l.*1 → (i, p) ∈ l → find_inp i l = Some p.
Proof.
  induction l as [|[j q] l IH]; [by intros _ ?%elem_of_nil|]. cbn. intros [Hj Hl]%NoDup_cons [[= -> ->]|Hi]%elem_of_cons; [by rewrite Z.eqb_refl|].
  destruct (Z.eqb_spec j i) as [->|]; [|auto]. exfalso. apply Hj, list_elem_of_fmap. by exists (i, p).
Qed.
Lemma change_ids i f l : (change_inp i f l).*1 = l.*1.
Proof. unfold change_inp. rewrite <- list_fmap_compose. apply list_fmap_ext. intros k a _. cbn. by destruct (a.1 =? i). Qed.
Lemma elem_change i f l j q : (j, q) ∈ change_inp i f l → j ≠ i ∧ (j, q) ∈ l ∨ j = i ∧ ∃ p, q = f p ∧ (i, p) ∈ l.
Proof.
  unfold change_inp. rewrite list_elem_of_fmap. intros ([k p] & E & Hk). cbn in E. destruct (Z.eqb_spec k i) as [->|]; injection E as -> ->; [right|by left].
  split; [done|]. by exists p.
Qed.
Lemma find_change i f l p : find_inp i l = Some p → find_inp i (change_inp i f l) = Some (f p).
Proof. induction l as [|[j q] l IH]; [done|]. cbn. destruct (Z.eqb_spec j i) as [->|]; cbn; [intros [= ->]; by rewrite Z.eqb_refl|]. intros. rewrite (proj2 (Z.eqb_neq j i)) by done. auto. Qed.
Lemma change_change i f g l : change_inp i g (change_inp i f l) = change_inp i (λ p, g (f p)) l.
Proof. unfold change_inp. rewrite <- list_fmap_compose. apply list_fmap_ext. intros k a _. cbn. destruct (Z.eqb_spec a.1 i) as [->|]; cbn; [by rewrite Z.eqb_refl|]. by rewrite (proj2 (Z.eqb_neq _ _)). Qed.

Section ports.
Context {R P : Type} `{RouteOps R} `{ProtoOps P}.
Implicit Types st : pst R P.

(** A name without a port, with an address of this machine, a group, or none. *)
Definition asks_port (sin : sockaddr_in) st : Prop :=
  sin_family sin = AF_INET ∧ sin_port sin = 0 ∧
  (IN_MULTICAST (ntohl (sin_addr sin)) = true ∨ sin_addr sin = INADDR_ANY ∨ ifa_ifwithaddr (sin_addr sin) (routes st) ≠ None).
(** A block whose socket exists and which has no address yet. *)
Definition unbound (i : Z) (p : inpcb) (x : socket) st : Prop :=
  find_inp i (inps st) = Some p ∧ so_of p st = Done x ∧ inp_lport p = 0 ∧ inp_laddr p = INADDR_ANY ∧ inp_faddr p = INADDR_ANY.

Lemma load_inp_spec i st p : find_inp i (inps st) = Some p → load_inp i st = Done p.
Proof. unfold load_inp. by intros ->. Qed.
Lemma upd_inp_spec i f st p : find_inp i (inps st) = Some p → upd_inp i f st = Done (set_inps (change_inp i f (inps st)) st).
Proof. intros Hp. unfold upd_inp. by rewrite (load_inp_spec _ _ p Hp), bind_done. Qed.

(** The block itself has port 0 and the address asked for: port 0 is never taken for free. *)
Lemma own_port_taken i p l laddr wild : find_inp i l = Some p → inp_lport p = 0 → inp_faddr p = INADDR_ANY →
  in_pcblookup (change_inp i (set_laddr laddr) l) INADDR_ANY 0 laddr 0 wild ≠ None.
Proof.
  intros Hp Hl Hf Hn. rewrite lookup_none in Hn. pose proof (find_inp_elem _ _ _ (find_change _ (set_laddr laddr) _ _ Hp)) as Hin.
  specialize (Hn _ Hin). cbn [snd] in Hn. assert (wildcards INADDR_ANY (u16 0) laddr (u16 0) wild (set_laddr laddr p) = Some 0); [|congruence].
  apply wildcards_spec. unfold fits. cbn [inp_lport inp_laddr inp_faddr set_laddr]. rewrite Hl, Hf, !Z.eqb_refl. repeat split; auto.
Qed.
(** For another port it does not matter. *)
Lemma own_port_other i p l laddr c wild : NoDup l.*1 → find_inp i l = Some p → inp_lport p = 0 → 0 < c < 2 ^ 16 →
  in_pcblookup (change_inp i (set_laddr laddr) l) INADDR_ANY 0 laddr c wild = None ↔ in_pcblookup l INADDR_ANY 0 laddr c wild = None.
Proof.
  intros Hd Hp Hl Hc. rewrite !lookup_none. assert (Hown : ∀ a, wildcards INADDR_ANY (u16 0) laddr (u16 c) wild (set_laddr a p) = None).
  { intros a. unfold wildcards. cbn [inp_lport set_laddr]. assert (u16 c = c) as -> by (apply Z.mod_small; lia). by rewrite Hl, (proj2 (Z.eqb_neq 0 c)) by lia. }
  assert (Hp0 : set_laddr (inp_laddr p) p = p) by (by destruct p). split; intros Hn [j q] Hj; cbn [snd].
  - destruct (decide (j = i)) as [->|]; [apply (elem_find_inp _ _ _ Hd) in Hj; rewrite Hp in Hj; injection Hj as <-; rewrite <- Hp0; apply Hown|].
    apply (Hn (j, q)). unfold change_inp. apply list_elem_of_fmap. exists (j, q). cbn. by rewrite (proj2 (Z.eqb_neq j i)).
  - apply elem_change in Hj as [[? Hj]|[-> (p' & -> & Hj)]]; [by apply (Hn (j, q))|].
    apply (elem_find_inp _ _ _ Hd) in Hj. rewrite Hp in Hj. injection Hj as <-. apply Hown.
Qed.

(** The checks of [in_pcbbind] for such a name. *)
Lemma name_without_port i p x sin stale st : find_inp i (inps st) = Some p → so_of p st = Done x → inp_lport p = 0 → inp_laddr p = INADDR_ANY →
  in_ifaddr (routes st) ≠ [] → asks_port sin st →
  ∃ nam', in_pcbbind i (Some (sizeof_sin, sin)) stale st =
    (st ← upd_inp i (set_laddr (sin_addr sin)) st;
     '(lport, last) ← (if 0 =? 0 then port_loop (Z.to_nat (2 ^ 16)) (inps st) (sin_addr sin) (bind_wild x) (head_lport st) 0 else Done (0, head_lport st));
     st ← upd_inp i (set_lport lport) (set_last last st);
     Done (0, nam', st)).
Proof.
  intros Hp Hx Hl Ha Hif Hn. unfold in_pcbbind. rewrite (load_inp_spec _ _ p), bind_done, Hx, bind_done, bool_decide_false, Hl, Ha by done. cbn [Z.eqb INADDR_ANY negb orb].
  destruct Hn as (-> & Ep & Hok). rewrite Ep. cbn [Z.eqb sizeof_sin AF_INET negb Pos.eqb].
  destruct (IN_MULTICAST (ntohl (sin_addr sin))); [by eexists; reflexivity|]. destruct Hok as [|Hok]; [done|].
  destruct (Z.eqb_spec (sin_addr sin) INADDR_ANY) as [E0|E0]; cbn [negb]; [by eexists; reflexivity|]. destruct Hok as [|Hok]; [done|].
  rewrite bool_decide_false by done. by eexists; reflexivity.
Qed.

(** C34: The search for a port ends. A socket without an address and a port binds to a name of the right length and family whose port
    is 0 and whose address is of this machine, a group or none, on a machine with an interface. The loop tries the ports that its
    condition lets through, 1 to 1024 and 5001 to 65535 - the reserved ones and the servers', where the comments of in.h have the
    automatic ones between - and takes for used a port that [in_pcblookup] finds a block with: one with that address and no
    foreign one, or, when the socket does not share its address and is not a listening stream socket, one with that address or
    an open one, and any block when the name's address is open. If one of those ports is not used, [in_pcbbind] returns 0, and the
    port it stores is the first one not used behind the last one given, in cyclic order; every one tried before it was used, and
    no other block changes. *)
Theorem in_pcbbind_finds_port i p x sin stale st c0 (Hd : NoDup (inps st).*1) (Hu : unbound i p x st) (Hif : in_ifaddr (routes st) ≠ [])
    (Hn : asks_port sin st) (Hlast : 0 <= head_lport st < 2 ^ 16) (Hc0 : ephemeral c0)
    (Hfree : in_pcblookup (inps st) INADDR_ANY 0 (sin_addr sin) (htons c0) (bind_wild x) = None) :
  let used c := in_pcblookup (inps st) INADDR_ANY 0 (sin_addr sin) (htons c) (bind_wild x) in
  ∃ k nam', let c := u16 (head_lport st + k) in
    in_pcbbind i (Some (sizeof_sin, sin)) stale st =
      Done (0, nam', set_last c (set_inps (change_inp i (λ p, set_lport (htons c) (set_laddr (sin_addr sin) p)) (inps st)) st)) ∧
    1 <= k <= 2 ^ 16 ∧ ephemeral c ∧ htons c ≠ 0 ∧ used c = None ∧
    ∀ j, 1 <= j < k → ephemeral (u16 (head_lport st + j)) → used (u16 (head_lport st + j)) ≠ None.
Proof.
  intros used. unfold used. clear used. set (laddr := sin_addr sin) in *.
  destruct Hu as (Hp & Hx & Hl & Ha & Hf). assert (Heph : ∀ c, ephemeral c → 0 < c < 2 ^ 16) by (unfold ephemeral, IPPORT_RESERVED, IPPORT_USERRESERVED; lia).
  assert (Hother : ∀ c, ephemeral c → in_pcblookup (change_inp i (set_laddr laddr) (inps st)) INADDR_ANY 0 laddr (htons c) (bind_wild x) = None ↔
    in_pcblookup (inps st) INADDR_ANY 0 laddr (htons c) (bind_wild x) = None) by (intros c Hc; apply (own_port_other i p); [done..|by apply htons_fine, Heph]).
  set (k0 := (c0 - head_lport st - 1) mod 2 ^ 16 + 1).
  assert (Hk0b : 1 <= k0 <= 2 ^ 16) by (pose proof (Z.mod_pos_bound (c0 - head_lport st - 1) (2 ^ 16) ltac:(lia)); unfold k0; lia).
  assert (Hk0 : u16 (head_lport st + k0) = c0).
  { unfold k0, u16. rewrite (Z.add_comm _ 1), Z.add_assoc, Zplus_mod_idemp_r. specialize (Heph _ Hc0). rewrite <- (Z.mod_small c0 (2 ^ 16)) at 2 by lia. f_equal. lia. }
  destruct (port_loop_spec (Z.to_nat (2 ^ 16)) (change_inp i (set_laddr laddr) (inps st)) laddr (bind_wild x) (head_lport st) 0 k0) as (k & Hk & E & He & Hfr & Hmin);
    [done|by eapply own_port_taken| |by rewrite Hk0|rewrite Hk0; by apply Hother|].
  { by rewrite Z2Nat.id by lia. }
  assert (Hbind : ∃ nam', in_pcbbind i (Some (sizeof_sin, sin)) stale st = Done (0, nam', set_last (u16 (head_lport st + k)) (set_inps (change_inp i (λ p, set_lport (htons (u16 (head_lport st + k))) (set_laddr laddr p)) (inps st)) st))).
  { destruct (name_without_port i p x sin stale st Hp Hx Hl Ha Hif Hn) as [nam' ->]. fold laddr. exists nam'. rewrite (upd_inp_spec i _ st p), bind_done by done.
    cbn [Z.eqb inps set_inps head_lport]. rewrite E, bind_done. rewrite (upd_inp_spec i _ _ (set_laddr laddr p)) by (by apply find_change). rewrite bind_done.
    cbn [inps set_last set_inps]. by rewrite change_change. }
  destruct Hbind as [nam' Hbind]. exists k, nam'. split; [done|]. split; [lia|]. split; [done|]. split; [apply Z.neq_sym, Z.lt_neq, htons_fine, Heph; done|]. split; [by apply Hother|].
  intros j Hj Hej. rewrite <- Hother by done. by apply Hmin.
Qed.
End ports.

(** ** Who has which port *)

(** Two blocks of a protocol to which the same packet may belong, whatever its sender. *)
Definition overlap (p q : inpcb) : Prop :=
  inp_lport p = inp_lport q ∧ inp_lport p ≠ 0 ∧ (inp_laddr p = INADDR_ANY ∨ inp_laddr q = INADDR_ANY ∨ inp_laddr p = inp_laddr q).
Definition exclusive (l : list (Z * inpcb)) : Prop :=
  NoDup l.*1 ∧ ∀ i p j q, (i, p) ∈ l → (j, q) ∈ l → i ≠ j → ¬ overlap p q.

Lemma exclusive_change i f l : exclusive l → (∀ p j q, (i, p) ∈ l → (j, q) ∈ l → j ≠ i → ¬ overlap (f p) q) → exclusive (change_inp i f l).
Proof.
  intros [Hd Hx] Hf. split; [by rewrite change_ids|].
  assert (Hsym : ∀ a b, ¬ overlap a b → ¬ overlap b a) by (intros a b Hn (E & ? & Ho); apply Hn; split; [done|]; split; [congruence|]; destruct Ho as [?|[?|?]]; auto).
  intros a pa b pb [[Ha Hpa]|[-> (p1 & -> & Hp1)]]%elem_change [[Hb Hpb]|[-> (p2 & -> & Hp2)]]%elem_change Hne.
  - by apply (Hx a pa b pb).
  - by apply Hsym, (Hf p2 a).
  - by apply (Hf p1 b).
  - done.
Qed.
Lemma exclusive_same i f l : exclusive l → (∀ p, inp_lport (f p) = inp_lport p ∧ inp_laddr (f p) = inp_laddr p) → exclusive (change_inp i f l).
Proof.
  intros Hx Hf. apply exclusive_change; [done|]. intros p j q Hp Hq Hne. destruct (Hf p) as [El Ea]. unfold overlap. rewrite El, Ea. by apply (proj2 Hx i p j q).
Qed.
(** A block that is open to all addresses is alone on its port: it may take one. *)
Lemma exclusive_laddr i a l : exclusive l → (∀ p, (i, p) ∈ l → inp_laddr p = INADDR_ANY) → exclusive (change_inp i (set_laddr a) l).
Proof.
  intros Hx Ha. apply exclusive_change; [done|]. intros p j q Hp Hq Hne (El & Hl & _). apply (proj2 Hx i p j q); [done..|]. split; [done|]. split; [done|]. left. by apply Ha.
Qed.
(** A block that is passed over by a lookup with wildcards does not share the port. *)
Lemma passed_over q laddr lport p' : wildcards INADDR_ANY 0 laddr lport INPLOOKUP_WILDCARD q = None → inp_lport p' = lport → inp_laddr p' = laddr → ¬ overlap p' q.
Proof.
  intros Hn Ep Ea (Hl & _ & Ha). subst. set (w := b2z (negb (inp_laddr q =? inp_laddr p')) + b2z (negb (inp_faddr q =? INADDR_ANY))).
  assert (Hw : wildcards INADDR_ANY 0 (inp_laddr p') (inp_lport p') INPLOOKUP_WILDCARD q = Some w); [|congruence].
  apply wildcards_spec. split; [done|]. split; [destruct Ha as [?|[?|?]]; auto|]. split; [by right; left|]. split; [done|]. by right.
Qed.

Lemma u16_small z : 0 <= z < 2 ^ 16 → u16 z = z.
Proof. apply Z.mod_small. Qed.
Lemma port_loop_free fuel l laddr wild last lport c h : port_loop fuel l laddr wild last lport = Done (c, h) → 0 <= lport < 2 ^ 16 →
  in_pcblookup l INADDR_ANY 0 laddr c wild = None ∧ 0 <= c < 2 ^ 16.
Proof.
  revert last lport. induction fuel as [|fuel IH]; intros last lport; [done|]. cbn [port_loop]. set (lport' := if _ || _ then htons _ else lport). intros E Hl.
  assert (Hl' : 0 <= lport' < 2 ^ 16).
  { unfold lport'. destruct (_ || _); [|done]. assert (0 <= u16 (last + 1) < 2 ^ 16) by (by apply Z.mod_pos_bound).
    destruct (decide (u16 (last + 1) = 0)) as [->|]; [done|]. pose proof (htons_fine (u16 (last + 1))). lia. }
  destruct (in_pcblookup l INADDR_ANY 0 laddr lport' wild) eqn:En; [by apply IH in E|]. by injection E as <- <-.
Qed.

Section owners.
Context {R P : Type} `{RouteOps R} `{ProtoOps P}.
Implicit Types st : pst R P.

(** The socket does not share its port: no SO_REUSEADDR or SO_REUSEPORT, and it is not a listening stream. *)
Definition alone (i : Z) st : Prop := ∀ p x, load_inp i st = Done p → so_of p st = Done x → bind_wild x = INPLOOKUP_WILDCARD.

Lemma alone_share x : bind_wild x = INPLOOKUP_WILDCARD → isset SO_REUSEADDR (so_options x) = false ∧ Z.land (so_options x) SO_REUSEPORT = 0.
Proof.
  unfold bind_wild. destruct (isset _ (so_options x)) eqn:E; [done|]. intros _. unfold isset in *. apply negb_false_iff, Z.eqb_eq in E.
  rewrite Z.land_lor_distr_r in E. apply Z.lor_eq_0_iff in E as [-> ->]. done.
Qed.

(** What [in_pcbbind] does to the blocks. *)
Definition bound (i : Z) (nam : option name) (stale : option Z) st (st' : pst R P) : Prop :=
  inps st' = inps st ∨ ∃ laddr lport, inps st' = change_inp i (λ p, set_lport lport (set_laddr laddr p)) (inps st) ∧ (nam = None → stale = Some laddr) ∧
    ∀ j q, (j, q) ∈ inps st → j ≠ i → wildcards INADDR_ANY 0 laddr lport INPLOOKUP_WILDCARD q = None.

Lemma upd_inp_inv i f st st' : upd_inp i f st = Done st' → st' = set_inps (change_inp i f (inps st)) st.
Proof. unfold upd_inp. destruct (load_inp i st); [|done]. rewrite bind_done. by intros [= <-]. Qed.

Lemma in_pcbbind_bound i nam stale st r nam' st' : in_pcbbind i nam stale st = Done (r, nam', st') → alone i st → bound i nam stale st st'.
Proof.
  unfold in_pcbbind. intros E Ha. destruct (load_inp i st) as [p|] eqn:Ep; [|done]. rewrite bind_done in E.
  destruct (so_of p st) as [x|] eqn:Ex; [|done]. rewrite bind_done, (Ha p x Ep Ex) in E. destruct (alone_share x (Ha p x Ep Ex)) as [Hr1 Hr2]. rewrite Hr1, Hr2 in E.
  case_bool_decide; [injection E as _ _ <-; by left|]. destruct (_ || _); [injection E as _ _ <-; by left|].
  match type of E with (?m ≫= _) = _ => destruct m as [[[[error reuseport] lport] nam1]|] eqn:Em; [|done] end. rewrite bind_done in E.
  assert (Hm : reuseport = 0 ∧ 0 <= lport < 2 ^ 16 ∧ (nam = None → nam1 = None)).
  { clear E. destruct nam as [[len sin]|]; [|by injection Em as _ <- <- <-].
    assert (0 <= u16 (sin_port sin) < 2 ^ 16) by (by apply Z.mod_pos_bound).
    destruct (negb _); [by injection Em as _ <- <- _|]. destruct (negb _); [by injection Em as _ <- <- _|].
    destruct (IN_MULTICAST _); [by injection Em as _ <- <- _|]. destruct (negb _); by injection Em as _ <- <- _. }
  destruct Hm as (-> & Hl & Hnam). destruct (negb (error =? 0)); [injection E as _ _ <-; by left|].
  destruct (deref _) as [addr|] eqn:Ed; [|done]. rewrite bind_done in E.
  match type of E with (?m ≫= _) = _ => destruct m as [t|] eqn:Et; [|done] end. rewrite bind_done in E. destruct t; [injection E as _ _ <-; by left|].
  assert (Hfree : lport = 0 ∨ in_pcblookup (inps st) INADDR_ANY 0 addr lport INPLOOKUP_WILDCARD = None).
  { clear E. destruct (Z.eqb_spec lport 0) as [|_]; [by left|right]. cbn [negb] in Et. revert Et. destruct (in_pcblookup _ _ _ _ _ _) as [t|]; [|done].
    destruct (load_inp t st) as [a|]; [|done]. rewrite bind_done. destruct (so_of a st); [by rewrite bind_done|done]. }
  destruct (upd_inp i (set_laddr addr) st) as [st1|] eqn:E1; [|done]. rewrite bind_done in E. apply upd_inp_inv in E1 as ->. cbn [inps set_inps head_lport] in E.
  match type of E with (?m ≫= _) = _ => destruct m as [[c h]|] eqn:Ec; [|done] end. rewrite bind_done in E.
  destruct (upd_inp i (set_lport c) _) as [st2|] eqn:E2; [|done]. rewrite bind_done in E. injection E as _ _ <-. apply upd_inp_inv in E2 as ->.
  cbn [inps set_inps set_last]. rewrite change_change. right. exists addr, c. split; [done|]. split; [intros ->; rewrite (Hnam eq_refl) in Ed; destruct stale; cbn in Ed; [by injection Ed as ->|done]|].
  destruct (Z.eqb_spec lport 0) as [->|Hl0].
  - apply port_loop_free in Ec as [Hn Hc]; [|done]. rewrite lookup_none in Hn. intros j q Hj Hne. rewrite (u16_small c) in Hn by done.
    apply (Hn (j, q)). unfold change_inp. apply list_elem_of_fmap. exists (j, q). cbn. by rewrite (proj2 (Z.eqb_neq j i)).
  - injection Ec as <- <-. destruct Hfree as [|Hn]; [done|]. rewrite lookup_none, (u16_small lport) in Hn by done. intros j q Hj _. by apply (Hn (j, q)).
Qed.

Lemma bound_exclusive i nam stale st st' : exclusive (inps st) → bound i nam stale st st' → exclusive (inps st').
Proof.
  intros Hx [->|(laddr & lport & -> & _ & Hn)]; [done|]. apply exclusive_change; [done|]. intros p j q _ Hq Hne. apply (passed_over q laddr lport); [by apply (Hn j)|done..].
Qed.

(** The choice of an interface changes only the route of the block. *)
Lemma local_ia_inps i dst st e st' : local_ia i dst st = Done (e, st') → ∃ rt d, inps st' = change_inp i (set_route rt d) (inps st) ∧ net st' = net st.
Proof.
  unfold local_ia. intros E. destruct (load_inp i st) as [p|]; [|done]. rewrite bind_done in E. destruct (so_of p st) as [x|]; [|done]. rewrite bind_done in E.
  match type of E with (let '(_, _) := ?m in _) = _ => destruct m as [rt r] end.
  match type of E with (let '(_, _) := ?m in _) = _ => destruct m as [[rt1 d] r1] end.
  match type of E with (?m ≫= _) = _ => destruct m as [ia|]; [|done] end. rewrite bind_done in E.
  destruct (upd_inp _ _ _) as [st1|] eqn:Eu; [|done]. rewrite bind_done in E. apply upd_inp_inv in Eu as ->. exists rt1, d.
  cbv zeta in E. destruct (match ia with Some _ => ia | None => _ end) as [k|]; [|by injection E as _ <-].
  destruct (inp_moptions p) as [[? [ifp|]]|]; [|by injection E as _ <-..].
  destruct (IN_MULTICAST _); [|by injection E as _ <-]. destruct (list_find _ _) as [[? ?]|]; by injection E as _ <-.
Qed.
Lemma alone_change i f st st' : (∀ p, inp_socket (f p) = inp_socket p) → inps st' = change_inp i f (inps st) → net st' = net st → alone i st → alone i st'.
Proof.
  intros Hf Hi Hnet Ha p x Hp Hx. unfold load_inp in Hp. rewrite Hi in Hp. destruct (find_inp i (inps st)) as [p0|] eqn:E.
  - rewrite (find_change _ f _ _ E) in Hp. injection Hp as <-. apply (Ha p0); [unfold load_inp; by rewrite E|]. unfold so_of in *. by rewrite Hf, Hnet in Hx.
  - exfalso. revert Hp. destruct (find_inp i (change_inp i f (inps st))) as [p1|] eqn:E1; [|done]. intros _. apply find_inp_elem in E1.
    apply elem_change in E1 as [[? _]|[_ (p2 & -> & Hp2)]]; [done|]. clear -E Hp2. induction (inps st) as [|[j q] l IH]; [by apply elem_of_nil in Hp2|].
    cbn in E. destruct (Z.eqb_spec j i) as [->|Hne]; [done|]. apply elem_of_cons in Hp2 as [[= -> ->]|]; [done|auto].
Qed.

Lemma in_pcbconnect_exclusive i nam st r nam' st' : exclusive (inps st) → alone i st → in_pcbconnect i nam (Some INADDR_ANY) st = Done (r, nam', st') → exclusive (inps st').
Proof.
  intros Hx Ha. unfold in_pcbconnect. destruct nam as [len sin]. destruct (negb _); [by intros [= _ _ <-]|]. destruct (negb _); [by intros [= _ _ <-]|].
  destruct (sin_port sin =? 0); [by intros [= _ _ <-]|]. cbv zeta. set (addr := match in_ifaddr (routes st) with [] => _ | _ :: _ => _ end). clearbody addr.
  destruct (load_inp i st) as [p|] eqn:Ep; [|done]. rewrite bind_done.
  assert (Hid : ∀ p', (i, p') ∈ inps st → p' = p).
  { intros p' Hp'. apply (elem_find_inp _ _ _ (proj1 Hx)) in Hp'. unfold load_inp in Ep. rewrite Hp' in Ep. by injection Ep. }
  destruct (Z.eqb_spec (inp_laddr p) INADDR_ANY) as [Hany|Hany].
  - destruct (local_ia i addr st) as [[x st1]|] eqn:El; [|done]. rewrite bind_done. apply local_ia_inps in El as (rt & d & Hi & Hn).
    rewrite bind_done.
    assert (Hx1 : exclusive (inps st1)) by (rewrite Hi; by apply exclusive_same).
    assert (Ha1 : alone i st1) by (by eapply alone_change; [|exact Hi|..]).
    assert (Hany1 : ∀ p', (i, p') ∈ inps st1 → inp_laddr p' = INADDR_ANY).
    { intros p' Hp'. rewrite Hi in Hp'. apply elem_change in Hp' as [[? _]|[_ (p0 & -> & Hp0)]]; [done|]. by rewrite (Hid _ Hp0) in *. }
    destruct x as [e|ia]; [by intros [= _ _ <-]|]. destruct (in_pcblookup _ _ _ _ _ _); [by intros [= _ _ <-]|].
    assert (Hbind : ∀ st2, (if inp_lport p =? 0 then '(_, _, st) ← in_pcbbind i None (Some INADDR_ANY) st1; Done st else Done st1) = Done st2 →
      exclusive (inps st2) ∧ ∀ p', (i, p') ∈ inps st2 → inp_laddr p' = INADDR_ANY).
    { intros st2. destruct (inp_lport p =? 0); [|by intros [= <-]]. destruct (in_pcbbind i None _ st1) as [[[? ?] st3]|] eqn:Eb; [|done]. rewrite bind_done. intros [= <-].
      apply in_pcbbind_bound in Eb as Hb; [|done]. split; [by eapply bound_exclusive|]. destruct Hb as [->|(laddr & lport & -> & Hs & _)]; [done|].
      specialize (Hs eq_refl). injection Hs as <-. intros p' [[? _]|[_ (p0 & -> & _)]]%elem_change; done. }
    destruct (if inp_lport p =? 0 then _ else _) as [st2|] eqn:E2; [|done]. specialize (Hbind st2 eq_refl) as [Hx2 Hany2]. rewrite bind_done.
    destruct (upd_inp i (set_laddr _) st2) as [st3|] eqn:E3; [|done]. rewrite bind_done. apply upd_inp_inv in E3 as ->.
    destruct (upd_inp i (set_foreign _ _) _) as [st4|] eqn:E4; [|done]. rewrite bind_done. intros [= _ _ <-]. apply upd_inp_inv in E4 as ->.
    apply exclusive_same; [|done]. by apply exclusive_laddr.
  - rewrite bind_done. destruct (in_pcblookup _ _ _ _ _ _); [by intros [= _ _ <-]|]. rewrite bind_done.
    destruct (upd_inp i (set_foreign _ _) _) as [st4|] eqn:E4; [|done]. rewrite bind_done. intros [= _ _ <-]. apply upd_inp_inv in E4 as ->. by apply exclusive_same.
Qed.

(** What the functions of in_pcb.c do to the blocks; [step_else] is everything that leaves them alone: other sockets, routes, packets.
    The stores to [inp_laddr] that the protocols make themselves (udp_usrreq.c, raw_ip.c and tcp_input.c) are not steps. *)
Inductive pcb_step st : pst R P → Prop :=
| step_alloc so a r st' : (∀ i, a = Some i → i ∉ (inps st).*1) → in_pcballoc so a st = Done (r, st') → pcb_step st st'
| step_detach i r st' : in_pcbdetach i st = Done (r, st') → pcb_step st st'
| step_bind i nam stale r nam' st' : alone i st → in_pcbbind i nam stale st = Done (r, nam', st') → pcb_step st st'
| step_connect i nam r nam' st' : alone i st → in_pcbconnect i nam (Some INADDR_ANY) st = Done (r, nam', st') → pcb_step st st'
| step_disconnect i st' : in_pcbdisconnect i st = Done st' → pcb_step st st'
| step_rtchange i e st' : in_rtchange i e st = Done st' → pcb_step st st'
| step_else st' : inps st' = inps st → pcb_step st st'.

Lemma exclusive_filter i l : exclusive l → exclusive (filter (λ a, a.1 ≠ i) l).
Proof.
  intros [Hd Hx]. split; [|intros a p b q [_ Ha]%list_elem_of_filter [_ Hb]%list_elem_of_filter; by apply Hx].
  clear Hx. induction l as [|[j q] l IH]; [constructor|]. apply NoDup_cons in Hd as [Hj Hd]. rewrite filter_cons. case_decide; [|auto].
  constructor; [|auto]. intros ([k p] & E & [_ Hk]%list_elem_of_filter)%list_elem_of_fmap. apply Hj, list_elem_of_fmap. by exists (k, p).
Qed.
Lemma in_pcbdetach_exclusive i st r st' : exclusive (inps st) → in_pcbdetach i st = Done (r, st') → exclusive (inps st').
Proof.
  intros Hx. unfold in_pcbdetach. destruct (load_inp i st) as [p|]; [|done]. rewrite bind_done. destruct (deref (inp_socket p)) as [so|]; [|done]. rewrite bind_done.
  destruct (upd_so _ _ _) as [n|]; [|done]. rewrite bind_done. destruct (sofree so n) as [n1|]; [|done]. rewrite bind_done.
  match goal with |- context [?m ≫= _] => destruct m as [n2|]; [|done] end. rewrite bind_done. intros [= _ <-]. by apply exclusive_filter.
Qed.

Lemma pcb_step_exclusive st st' : pcb_step st st' → exclusive (inps st) → exclusive (inps st').
Proof.
  intros [so a r st1 Hf E|i r st1 E|i nam stale r nam' st1 Ha E|i nam r nam' st1 Ha E|i st1 E|i e st1 E|st1 E] Hx.
  - unfold in_pcballoc in E. destruct a as [i|]; [|by injection E as _ <-]. destruct (upd_so _ _ _); [|done]. rewrite bind_done in E. injection E as _ <-.
    cbn [inps set_inps set_pnet]. destruct Hx as [Hd Hx]. split; [cbn; constructor; [by apply Hf|done]|].
    assert (Hz : ∀ q, ¬ overlap (mk_inpcb 0 0 0 0 (Some so) None 0 None None) q) by (by intros q (_ & ? & _)).
    assert (Hz' : ∀ q, ¬ overlap q (mk_inpcb 0 0 0 0 (Some so) None 0 None None)) by (by intros q (? & ? & _)).
    intros j p k q [[= -> ->]|Hp]%elem_of_cons [[= -> ->]|Hq]%elem_of_cons Hne; [done|by apply Hz|by apply Hz'|by apply (Hx j p k q)].
  - by eapply in_pcbdetach_exclusive.
  - eapply bound_exclusive; [done|by eapply in_pcbbind_bound].
  - by eapply in_pcbconnect_exclusive.
  - unfold in_pcbdisconnect in E. destruct (upd_inp _ _ _) as [st2|] eqn:Eu; [|done]. rewrite bind_done in E. apply upd_inp_inv in Eu as ->.
    destruct (load_inp i _) as [p|]; [|done]. rewrite bind_done in E. destruct (so_of p _) as [x|]; [|done]. rewrite bind_done in E.
    assert (Hx2 : exclusive (inps (set_inps (change_inp i (set_foreign INADDR_ANY 0) (inps st)) st))) by (by apply exclusive_same).
    destruct (sohas _ x); [|by injection E as <-]. destruct (in_pcbdetach _ _) as [[r st3]|] eqn:Ed; [|done]. rewrite bind_done in E. injection E as <-. by eapply in_pcbdetach_exclusive.
  - unfold in_rtchange in E. destruct (load_inp i st) as [p|]; [|done]. rewrite bind_done in E. destruct (ro_rt p); [|by injection E as <-].
    apply upd_inp_inv in E as ->. by apply exclusive_same.
  - by rewrite E.
Qed.

(** C33: No two sockets own the same traffic.  From the empty table on, whatever blocks are allocated, bound, connected, disconnected and detached in whatever
    order by the functions of in_pcb.c, as long as only sockets bind that do not ask for sharing (and the word that a connect without a name reads is zero), two
    blocks never have the same port with addresses of which one is open or both are equal. *)
Theorem pcb_exclusive st0 st (Hnone : inps st0 = []) (Hs : rtc pcb_step st0 st) i p j q (Hi : (i, p) ∈ inps st) (Hj : (j, q) ∈ inps st) (Hne : i ≠ j) :
  ¬ (inp_lport p = inp_lport q ∧ inp_lport p ≠ 0 ∧ (inp_laddr p = INADDR_ANY ∨ inp_laddr q = INADDR_ANY ∨ inp_laddr p = inp_laddr q)).
Proof.
  assert (Hx : exclusive (inps st)); [|by apply (proj2 Hx i p j q)]. clear -Hnone Hs. assert (Hx0 : exclusive (inps st0)).
  { rewrite Hnone. split; [constructor|]. by intros ???? ?%elem_of_nil. }
  clear Hnone. induction Hs as [|st0 st1 st2 Hs1 _ IH]; [done|]. by apply IH, (pcb_step_exclusive st0).
Qed.
End owners.

(** ** One interface, two sockets of UDP *)

(** The interface 50 has the address 10.0.0.1. *)
Definition demo_addr : Z := 16777226.
#[export] Instance demo_routes : RouteOps unit := {|
  rtalloc _ _ r := (None, r); rtfree _ r := r; RTFREE _ r := r; rt_ifp _ _ := None; rt_ifa _ _ := None; if_flags _ _ := IFF_BROADCAST;
  in_ifaddr _ := [50]; ia_ifp _ _ := 60; ia_addr _ _ := demo_addr; ia_broadaddr _ _ := 4294967050;
  ifa_ifwithaddr a _ := if a =? demo_addr then Some 50 else None; ifa_ifwithdstaddr _ _ := None; ifa_ifwithnet _ _ := None; ip_freemoptions _ r := r |}.
Definition demo_udp_so : socket := mk_socket 2 0 0 0 None (mk_protosw 2 17 3 true false) None None None 0 0 0 0 0 0 0 zero_sockbuf zero_sockbuf 0 0.
Definition demo_start : pst unit unit := mk_pst [] 0 (mk_nst (<[1 := demo_udp_so]> (<[2 := demo_udp_so]> ∅)) (mk_mst ∅ ∅ 0 0 []) [] tt) tt.
Definition after {A} (x : outcome (A * pst unit unit)) : pst unit unit := match x with Done (_, st) => st | Fail _ => demo_start end.
Definition demo_two : pst unit unit := after (in_pcballoc 2 (Some 200) (after (in_pcballoc 1 (Some 100) demo_start))).
(** The first takes port 1 of the interface, as the first port that is given out is 1. *)
Definition demo_bound : pst unit unit := after (in_pcbbind 100 (Some (16, mk_sin AF_INET (htons 1) demo_addr)) None demo_two).
Definition demo_peer : name := (16, mk_sin AF_INET (htons 53) 134744072).
Definition demo_connected (stale : Z) : pst unit unit := after (in_pcbconnect 200 demo_peer (Some stale) demo_bound).

Lemma alone_dec i (st : pst unit unit) :
  match load_inp i st with Done p => match so_of p st with Done x => bind_wild x =? 1 | Fail _ => true end | Fail _ => true end = true → alone i st.
Proof. intros E p x Hp Hx. rewrite Hp, Hx in E. by apply Z.eqb_eq in E. Qed.

Lemma in_pcbbind_finds_port_witness : ∃ k nam', let c := u16 (head_lport demo_bound + k) in
  in_pcbbind 200 (Some (16, mk_sin AF_INET 0 0)) None demo_bound =
    Done (0, nam', set_last c (set_inps (change_inp 200 (λ p, set_lport (htons c) (set_laddr 0 p)) (inps demo_bound)) demo_bound)) ∧
  1 <= k <= 2 ^ 16 ∧ ephemeral c ∧ htons c ≠ 0 ∧ in_pcblookup (inps demo_bound) INADDR_ANY 0 0 (htons c) (bind_wild demo_udp_so) = None ∧
  ∀ j, 1 <= j < k → ephemeral (u16 (head_lport demo_bound + j)) →
    in_pcblookup (inps demo_bound) INADDR_ANY 0 0 (htons (u16 (head_lport demo_bound + j))) (bind_wild demo_udp_so) ≠ None.
Proof.
  apply (in_pcbbind_finds_port 200 (mk_inpcb 0 0 0 0 (Some 2) None 0 None None) (with_pcb (Some 200) demo_udp_so) (mk_sin AF_INET 0 0) None demo_bound 7); try (by vm_compute).
  - apply (bool_decide_eq_true_1 _). by vm_compute.
  - split; [done|]. split; [done|]. by right; left.
  - by left.
Defined.

Lemma pcb_exclusive_witness : ∃ p q, (100, p) ∈ inps (demo_connected 0) ∧ (200, q) ∈ inps (demo_connected 0) ∧
  ¬ (inp_lport p = inp_lport q ∧ inp_lport p ≠ 0 ∧ (inp_laddr p = INADDR_ANY ∨ inp_laddr q = INADDR_ANY ∨ inp_laddr p = inp_laddr q)).
Proof.
  set (p := match find_inp 100 (inps (demo_connected 0)) with Some p => p | None => mk_inpcb 0 0 0 0 None None 0 None None end).
  set (q := match find_inp 200 (inps (demo_connected 0)) with Some p => p | None => mk_inpcb 0 0 0 0 None None 0 None None end).
  assert (Hp : (100, p) ∈ inps (demo_connected 0)) by (vm_compute; right; left).
  assert (Hq : (200, q) ∈ inps (demo_connected 0)) by (vm_compute; left).
  exists p, q. split; [exact Hp|]. split; [exact Hq|]. apply (pcb_exclusive demo_start (demo_connected 0) eq_refl) with 100 200; [|exact Hp|exact Hq|done].
  eapply rtc_l; [apply (step_alloc _ 1 (Some 100) 0 (after (in_pcballoc 1 (Some 100) demo_start))); [by intros i _ ?%elem_of_nil|by vm_compute]|].
  eapply rtc_l; [apply (step_alloc _ 2 (Some 200) 0 demo_two); [intros i [= <-]; vm_compute; by intros [[=]|?%elem_of_nil]%elem_of_cons|by vm_compute]|].
  eapply rtc_l; [apply (step_bind _ 100 (Some (16, mk_sin AF_INET (htons 1) demo_addr)) None 0 (Some (16, mk_sin AF_INET 0 demo_addr)) demo_bound); [by apply alone_dec; vm_compute|by vm_compute]|].
  eapply rtc_l; [apply (step_connect _ 200 demo_peer 0 demo_peer (demo_connected 0)); [by apply alone_dec; vm_compute|by vm_compute]|]. apply rtc_refl.
Defined.

(** With another word there, the connect gets a port of an address that is not its own, and then shares that of the first socket. *)
Lemma stale_name_overlaps : ∃ p q, find_inp 100 (inps (demo_connected 77)) = Some p ∧ find_inp 200 (inps (demo_connected 77)) = Some q ∧ overlap p q.
Proof. do 2 eexists. split; [by vm_compute|]. split; [by vm_compute|]. split; [done|]. split; [done|]. by right; right. Qed.
