(* ===== verification/Fd.v ===== *)
(** * Open files and descriptors ([Kernel/vfs.c], [Kernel/kthread.c])

    A process has a page of 1024 pointers to open files, and an identifier map for the
    descriptors, used through [IdAlloc].  A [file_t] is shared by the descriptors that
    point at it, of one process or of several, and counts them in [f_refcnt]; what closing
    it does is up to the file system behind it, the class [FileOps]. *)

From S2P Require Import Prelude Pid.

Record file_t : Type := mk_file {
  f_ops : Z; f_type : Z; f_flags : Z; f_curr_pos : Z; f_end_pos : Z; f_refcnt : Z; f_vnode : Z }.
Definition set_refcnt (n : Z) (f : file_t) : file_t :=
  mk_file (f_ops f) (f_type f) (f_flags f) (f_curr_pos f) (f_end_pos f) (u32 n) (f_vnode f).
Definition set_flags (n : Z) (f : file_t) : file_t :=
  mk_file (f_ops f) (f_type f) (u32 n) (f_curr_pos f) (f_end_pos f) (f_refcnt f) (f_vnode f).
Definition set_pos (n : Z) (f : file_t) : file_t :=
  mk_file (f_ops f) (f_type f) (f_flags f) (u32 n) (f_end_pos f) (f_refcnt f) (f_vnode f).

(** [file_ops]: the operations behind a file, on a state of their own.  [close] is called
    when no one refers to the file; it returns the file if it does not free it.  The others
    may be missing; a read returns the bytes. *)
Class FileOps (F : Type) := {
  fo_close : file_t → F → outcome (Z * option file_t * F);
  fo_read : file_t → option (Z → F → outcome (Z * list Z * file_t * F));
  fo_write : file_t → option (list Z → F → outcome (Z * file_t * F));
  fo_seek : file_t → option (Z → Z → F → outcome (Z * file_t * F));
}.

Definition FREAD := 1.
Definition FWRITE := 2.
Definition O_ACCMODE := 3.
Definition FD_CLOEXEC := 1.
Definition F_DUPFD := 0.
Definition F_GETFD := 1.
Definition F_SETFD := 2.
Definition F_GETFL := 3.
Definition F_SETFL := 4.
Definition EOPNOTSUPP := 95.

Section fd.
Context {F I : Type} `{FileOps F} `{IdAlloc I}.

(** The open files by address, what the next calls of [kmalloc] return, and the file systems. *)
Record kst : Type := mk_kst { files : gmap Z file_t; heap : list Z; fsys : F }.
Definition with_files (m : gmap Z file_t) (s : kst) : kst := mk_kst m (heap s) (fsys s).

Record kprocess_t : Type := mk_proc {
  p_file : list Z; p_fd_obj : I; open_files : Z; nofile_max : Z }.
Definition with_table (t : list Z) (p : kprocess_t) : kprocess_t := mk_proc t (p_fd_obj p) (open_files p) (nofile_max p).
Definition with_ids (o : I) (p : kprocess_t) : kprocess_t := mk_proc (p_file p) o (open_files p) (nofile_max p).
Definition with_open (n : Z) (p : kprocess_t) : kprocess_t := mk_proc (p_file p) (p_fd_obj p) (s32 n) (nofile_max p).

Definition upd_file (fp : Z) (g : file_t → file_t) (s : kst) : outcome kst :=
  f ← deref (files s !! fp); Done (with_files (<[fp := g f]> (files s)) s).

Definition vfs_alloc_file (s : kst) : Z * kst :=
  match heap s with
  | [] => (0, s)
  | a :: l => (a, mk_kst (<[a := mk_file 0 0 0 0 0 0 0]> (files s)) l (fsys s))
  end.
Definition vfs_free_file (fp : Z) (s : kst) : outcome kst :=
  if fp =? 0 then Done s else _ ← deref (files s !! fp); Done (with_files (delete fp (files s)) s).

Definition vfs_close (fp : Z) (s : kst) : outcome (Z * kst) :=
  s ← upd_file fp (λ f, set_refcnt (f_refcnt f - 1) f) s;
  f ← deref (files s !! fp);
  if f_refcnt f =? 0 then
    '(ret, o, fs) ← fo_close f (fsys s);
    Done (ret, mk_kst (match o with Some f => <[fp := f]> (files s) | None => delete fp (files s) end) (heap s) fs)
  else Done (0, s).

Definition fd_attach (fd : Z) (p : kprocess_t) (fp : Z) : outcome (Z * kprocess_t) :=
  if fd <? 0 then Done (- EINVAL, p) else
  if 1024 <=? fd then Done (- ENFILE, p) else
  old ← deref (nthZ (p_file p) fd);
  if negb (old =? 0) then Done (- EBADF, p) else
  Done (fd, with_table (updZ (p_file p) fd fp) p).

Definition fd_detach (fd : Z) (p : kprocess_t) : outcome (Z * kprocess_t) :=
  if fd <? 0 then Done (- EINVAL, p) else
  old ← deref (nthZ (p_file p) fd);
  if old =? 0 then Done (- EBADF, p) else
  Done (0, with_table (updZ (p_file p) fd 0) p).

(** The error, or the file and its descriptor.  [ret0]: the value of [ret] that is not set. *)
Definition falloc (ret0 : Z) (p : kprocess_t) (s : kst) : outcome ((Z + Z * Z) * kprocess_t * kst) :=
  let '(fp, s) := vfs_alloc_file s in
  if fp =? 0 then Done (inl (- ENOBUFS), p, s) else
  '(fd, ids) ← ia_get (p_fd_obj p);
  let p := with_ids ids p in
  if fd <? 0 then s ← vfs_free_file fp s; Done (inl ret0, p, s) else
  if nofile_max p <? u32 fd then s ← vfs_free_file fp s; Done (inl (- ENFILE), p, s) else
  let undo ret p :=
    ids ← ia_put (p_fd_obj p) fd; s ← vfs_free_file fp s; Done (inl ret, with_ids ids p, s) in
  if 1024 <? open_files p then undo (- EMFILE) p else
  '(ret, p) ← fd_attach fd p fp;
  if ret <? 0 then undo ret p else
  Done (inr (fp, fd), with_open (open_files p + 1) p, s).

Definition ffree (fp fd : Z) (p : kprocess_t) (s : kst) : outcome (Z * kprocess_t * kst) :=
  '(ret, p) ← fd_detach fd p;
  if ret <? 0 then Done (ret, p, s) else
  s ← vfs_free_file fp s;
  let p := with_open (open_files p - 1) p in
  ids ← ia_put (p_fd_obj p) fd;
  Done (0, with_ids ids p, s).

(** The end of [kopen]: a descriptor for the file that was opened. *)
Definition open_fd (fp : Z) (p : kprocess_t) (s : kst) : outcome (Z * kprocess_t * kst) :=
  '(fd, ids) ← ia_get (p_fd_obj p);
  let p := with_ids ids p in
  if 1024 <=? fd then '(_, s) ← vfs_close fp s; Done (- EMFILE, p, s) else
  let p := with_open (open_files p + 1) p in
  '(ret, p) ← fd_attach fd p fp;
  Done (ret, p, s).

Definition kclose (fd : Z) (p : kprocess_t) (s : kst) : outcome (Z * kprocess_t * kst) :=
  fp ← deref (nthZ (p_file p) fd);
  if fp =? 0 then Done (- EBADF, p, s) else
  '(_, s) ← vfs_close fp s;
  let p := with_open (open_files p - 1) p in
  '(ret, p) ← fd_detach fd p;
  if ret <? 0 then Done (- EBADF, p, s) else
  ids ← ia_put (p_fd_obj p) fd;
  Done (0, with_ids ids p, s).

Definition kfcntl (fd cmd arg : Z) (p : kprocess_t) (s : kst) : outcome (Z * kprocess_t * kst) :=
  fp ← deref (nthZ (p_file p) fd);
  if fp =? 0 then Done (- EBADF, p, s) else
  f ← deref (files s !! fp);
  if Z.land (f_flags f) (Z.lor FREAD FWRITE) =? 0 then Done (- EACCES, p, s) else
  if cmd =? F_GETFD then Done (Z.land (f_flags f) FD_CLOEXEC, p, s) else
  if cmd =? F_SETFD then Done (0, p, s) else
  if cmd =? F_GETFL then Done (Z.land (f_flags f) (Z.lnot O_ACCMODE), p, s) else
  if cmd =? F_SETFL then
    s ← upd_file fp (λ f, set_flags (Z.lor (f_flags f) (Z.land arg (Z.lnot O_ACCMODE))) f) s; Done (0, p, s)
  else if cmd =? F_DUPFD then
    '(fd, ids) ← ia_get (p_fd_obj p);
    let p := with_ids ids p in
    if (fd <? 0) || (nofile_max p <? u32 fd) then Done (- EMFILE, p, s) else
    '(_, p) ← fd_attach fd p fp;
    s ← upd_file fp (λ f, set_refcnt (f_refcnt f + 1) f) s;
    Done (fd, p, s)
  else Done (- ENOSYS, p, s).

(** [resv]: [resv_id] of the identifier map. *)
Definition kdup2 (resv : I → Z → outcome I) (oldfd newfd : Z) (p : kprocess_t) (s : kst) : outcome (Z * kprocess_t * kst) :=
  if (1024 <=? oldfd) || (1024 <=? newfd) then Done (- EINVAL, p, s) else
  if nofile_max p <? u32 newfd then Done (- EMFILE, p, s) else
  ofp ← deref (nthZ (p_file p) oldfd);
  nfp ← deref (nthZ (p_file p) newfd);
  if ofp =? 0 then Done (- EBADF, p, s) else
  if ofp =? nfp then Done (newfd, p, s) else
  '(p, s) ←
    (if negb (nfp =? 0) then
       '(_, s) ← vfs_close nfp s;
       '(_, p) ← fd_detach newfd p;
       Done (with_open (open_files p - 1) p, s)
     else Done (p, s));
  '(ret, p) ← fd_attach newfd p ofp;
  if ret <? 0 then Done (ret, p, s) else
  ids ← resv (p_fd_obj p) newfd;
  Done (newfd, with_open (open_files p + 1) (with_ids ids p), s).

(** The descriptors a new process gets in [kcreate_process]. *)
Fixpoint bump_loop (n : nat) (i : Z) (t : list Z) (s : kst) : outcome kst :=
  match n with
  | O => Done s
  | S n =>
      fp ← deref (nthZ t i);
      s ← upd_file fp (λ f, set_refcnt (f_refcnt f + 1) f) s;
      bump_loop n (i + 1) t s
  end.
Definition inherit (dup : I → I → outcome I) (parent proc : kprocess_t) (s : kst) : outcome (kprocess_t * kst) :=
  let n := Z.to_nat (open_files parent) in
  let t := take n (p_file parent) ++ drop n (p_file proc) in
  s ← bump_loop n 0 t s;
  ids ← dup (p_fd_obj proc) (p_fd_obj parent);
  Done (mk_proc t ids (open_files parent) (nofile_max proc), s).

(** What [kclose_proc] does with them. *)
Fixpoint close_loop (n : nat) (i : Z) (t : list Z) (s : kst) : outcome kst :=
  match n with
  | O => Done s
  | S n => fp ← deref (nthZ t i); '(_, s) ← vfs_close fp s; close_loop n (i + 1) t s
  end.
Definition close_files (p : kprocess_t) (s : kst) : outcome kst :=
  close_loop (Z.to_nat (open_files p)) 0 (p_file p) s.

End fd.
Arguments kst : clear implicits.
Arguments kprocess_t : clear implicits.

(** ** Descriptors that refer to a file *)

Definition refs (t : list Z) (q : Z) : Z := Z.of_nat (length (filter (λ x, x = q) t)).

Lemma refs_nonneg t q : 0 <= refs t q.
Proof. unfold refs. lia. Qed.

Lemma refs_cons x t q : refs (x :: t) q = b2z (bool_decide (x = q)) + refs t q.
Proof. unfold refs. rewrite filter_cons. case_decide; [rewrite bool_decide_eq_true_2|rewrite bool_decide_eq_false_2]; cbn; lia || done. Qed.

Lemma refs_app t u q : refs (t ++ u) q = refs t q + refs u q.
Proof. unfold refs. rewrite filter_app, length_app. lia. Qed.

Lemma refs_upd t i a b q : nthZ t i = Some a →
  refs (updZ t i b) q = refs t q - b2z (bool_decide (a = q)) + b2z (bool_decide (b = q)).
Proof.
  intros Hi. pose proof (nthZ_Some _ _ _ Hi) as Hr. unfold nthZ, updZ in *. rewrite !decide_True in * by lia.
  rewrite <- (take_drop_middle _ _ _ Hi) at 2. rewrite insert_take_drop by lia.
  rewrite !refs_app, !refs_cons. lia.
Qed.

Lemma refs_pos t i q : nthZ t i = Some q → 0 < refs t q.
Proof.
  intros Hi. pose proof (refs_upd t i q (q + 1) q Hi) as Hc. pose proof (refs_nonneg (updZ t i (q + 1)) q).
  rewrite bool_decide_eq_true_2, bool_decide_eq_false_2 in Hc by (done || lia). cbn in Hc. lia.
Qed.

Lemma refs_zero t q : (∀ i, nthZ t i ≠ Some q) → refs t q = 0.
Proof.
  intros Hn. unfold refs. destruct (filter (λ x, x = q) t) as [|x l] eqn:Hl; [done|exfalso].
  assert (x ∈ filter (λ x, x = q) t) as Hx by (rewrite Hl; by constructor).
  apply list_elem_of_filter in Hx as [-> Hx]. apply list_elem_of_lookup_1 in Hx as [i Hi].
  apply (Hn (Z.of_nat i)). unfold nthZ. by rewrite decide_True, Nat2Z.id by lia.
Qed.

(** What the file systems promise: closing a file to which no one refers frees it. *)
Class FileLaws (F : Type) `{FileOps F} := {
  close_frees f s : f_refcnt f = 0 → ∃ ret s', fo_close f s = Done (ret, None, s');
}.

Section fd_laws.
Context {F I : Type} `{FileLaws F} `{IdAlloc I}.
Implicit Types (p : kprocess_t I) (s : kst F).

(** The table of a process whose descriptors, and [ext] others, are what the counters refs. *)
Record fd_ok (ext : Z → Z) p s : Prop := {
  fd_ext q : 0 <= ext q;
  fd_len : length (p_file p) = 1024%nat;
  fd_ids : ia_wf (p_fd_obj p) ∧ ia_cap (p_fd_obj p) = 1024;
  fd_free i : i ∈ ia_free (p_fd_obj p) → nthZ (p_file p) i = Some 0;
  fd_live i fp : nthZ (p_file p) i = Some fp → fp ≠ 0 → is_Some (files s !! fp);
  fd_null : files s !! 0 = None;
  fd_count fp f : files s !! fp = Some f → f_refcnt f = refs (p_file p) fp + ext fp ∧ 0 < f_refcnt f < 2 ^ 32 }.

Lemma attach_free ext p s i fp : fd_ok ext p s → i ∈ ia_free (p_fd_obj p) →
  fd_attach i p fp = Done (i, with_table (updZ (p_file p) i fp) p) ∧ 0 <= i < 1024.
Proof.
  intros Hok Hi. destruct (fd_ids _ _ _ Hok) as [Hw Hc]. pose proof (ia_free_range _ _ Hw Hi) as Hr. rewrite Hc in Hr.
  unfold fd_attach. rewrite (proj2 (Z.ltb_ge i 0)), (proj2 (Z.leb_gt 1024 i)), (fd_free _ _ _ Hok i Hi) by lia. done.
Qed.

(** A descriptor more for a file. *)
Lemma take_fd ext p s fp f : fd_ok ext p s → ia_free (p_fd_obj p) ≠ ∅ → files s !! fp = Some f →
  ∃ fd ids, ia_get (p_fd_obj p) = Done (fd, ids) ∧ 0 <= fd < 1024 ∧ fd ∈ ia_free (p_fd_obj p) ∧
    (∀ j, j ∈ ia_free (p_fd_obj p) → fd <= j) ∧ nthZ (p_file p) fd = Some 0 ∧
    (∀ n m e, (∀ q, e q = if decide (q = fp) then ext fp - 1 else ext q) → 0 <= e fp →
      fd_ok e (mk_proc (updZ (p_file p) fd fp) ids n m) s).
Proof.
  intros Hok Hne Hf. destruct (fd_ids _ _ _ Hok) as [Hw Hc].
  destruct (ia_get_law _ Hw Hne) as (fd & ids & Hg & Hw' & Hc' & Hin & Hfr & Hmin). pose proof (fd_free _ _ _ Hok fd Hin) as Hs0.
  pose proof (ia_free_range _ _ Hw Hin) as Hr. rewrite Hc in Hr. exists fd, ids. do 5 (split; [done || lia|]).
  intros n m e He Hnn. split; cbn.
  - intros q. rewrite He. case_decide as Hq; [subst q; rewrite He, decide_True in Hnn by done; lia|apply (fd_ext _ _ _ Hok)].
  - by rewrite updZ_length, (fd_len _ _ _ Hok).
  - split; [done|congruence].
  - intros i. rewrite Hfr. intros Hi. rewrite nthZ_upd_ne by set_solver. apply (fd_free _ _ _ Hok). set_solver.
  - intros i q Hi Hq. destruct (decide (i = fd)) as [->|Hd].
    + rewrite nthZ_upd_eq in Hi by (rewrite (fd_len _ _ _ Hok); lia). injection Hi as <-. eauto.
    + rewrite nthZ_upd_ne in Hi by done. by apply (fd_live _ _ _ Hok i).
  - apply (fd_null _ _ _ Hok).
  - intros q g Hq. destruct (fd_count _ _ _ Hok q g Hq) as [Hrc Hb]. split; [|done].
    rewrite (refs_upd _ _ 0), He by done. rewrite (bool_decide_eq_false_2 (0 = q)).
    + cbn. case_decide as Hd; [subst; rewrite bool_decide_eq_true_2 by done|rewrite bool_decide_eq_false_2 by done]; cbn; lia.
    + intros <-. rewrite (fd_null _ _ _ Hok) in Hq. done.
Qed.

(** [kopen] takes the least free descriptor for the file it opened. *)
Lemma open_fd_spec ext p s fp f : fd_ok ext p s → ia_free (p_fd_obj p) ≠ ∅ → files s !! fp = Some f →
  ∃ fd p', open_fd fp p s = Done (fd, p', s) ∧ fd ∈ ia_free (p_fd_obj p) ∧ (∀ j, j ∈ ia_free (p_fd_obj p) → fd <= j) ∧
    p_file p' = updZ (p_file p) fd fp ∧ open_files p' = s32 (open_files p + 1) ∧
    ∀ e, (∀ q, e q = if decide (q = fp) then ext fp - 1 else ext q) → 0 <= e fp → fd_ok e p' s.
Proof.
  intros Hok Hne Hf. destruct (take_fd ext p s fp f Hok Hne Hf) as (fd & ids & Hg & Hr & Hin & Hmin & Hs0 & Hok').
  unfold open_fd. rewrite Hg, bind_done, (proj2 (Z.leb_gt 1024 fd)) by lia. unfold fd_attach. cbn [p_file with_ids with_open].
  rewrite (proj2 (Z.ltb_ge fd 0)), (proj2 (Z.leb_gt 1024 fd)), Hs0 by lia. cbn.
  do 2 eexists. split; [done|]. split; [done|]. split; [done|]. split; [done|]. split; [done|]. apply Hok'.
Qed.

Lemma vfs_close_spec s fp f : files s !! fp = Some f → 0 < f_refcnt f < 2 ^ 32 →
  ∃ ret s', vfs_close fp s = Done (ret, s') ∧
    files s' = if decide (f_refcnt f = 1) then delete fp (files s) else <[fp := set_refcnt (f_refcnt f - 1) f]> (files s).
Proof.
  intros Hf Hr. unfold vfs_close, upd_file. rewrite Hf. cbn. rewrite lookup_insert_eq. cbn. rewrite u32_small by lia.
  case_decide as Hone.
  - rewrite (proj2 (Z.eqb_eq (f_refcnt f - 1) 0)) by lia.
    destruct (close_frees (set_refcnt (f_refcnt f - 1) f) (fsys s)) as (ret & s' & Hc).
    { cbn. rewrite u32_small; lia. }
    rewrite Hc. cbn. do 2 eexists. split; [done|]. cbn. by rewrite delete_insert_eq.
  - rewrite (proj2 (Z.eqb_neq (f_refcnt f - 1) 0)) by lia. do 2 eexists. done.
Qed.

(** The table without a descriptor. *)
Lemma drop_fd ext p s fd fp f ids n m s' : fd_ok ext p s → nthZ (p_file p) fd = Some fp → fp ≠ 0 → files s !! fp = Some f →
  ia_wf ids → ia_cap ids = ia_cap (p_fd_obj p) → ia_free ids = {[fd]} ∪ ia_free (p_fd_obj p) →
  files s' = (if decide (f_refcnt f = 1) then delete fp (files s) else <[fp := set_refcnt (f_refcnt f - 1) f]> (files s)) →
  fd_ok ext (mk_proc (updZ (p_file p) fd 0) ids n m) s'.
Proof.
  intros Hok Hfd Hfp Hf Hw' Hc' Hfr Hfiles. destruct (fd_count _ _ _ Hok fp f Hf) as [Hrc Hb].
  destruct (fd_ids _ _ _ Hok) as [Hw Hcap]. pose proof (nthZ_Some _ _ _ Hfd) as Hr. rewrite (fd_len _ _ _ Hok) in Hr.
  pose proof (refs_pos _ _ _ Hfd) as Hpos. pose proof (fd_ext _ _ _ Hok fp) as He.
  assert (∀ q, q ≠ 0 → refs (updZ (p_file p) fd 0) q = refs (p_file p) q - b2z (bool_decide (fp = q))) as Hcnt.
  { intros q Hq. rewrite (refs_upd _ _ fp) by done. rewrite (bool_decide_eq_false_2 (0 = q)) by congruence. cbn. lia. }
  split; cbn.
  - apply (fd_ext _ _ _ Hok).
  - by rewrite updZ_length, (fd_len _ _ _ Hok).
  - split; [done|congruence].
  - intros i. rewrite Hfr. destruct (decide (i = fd)) as [->|Hd]; [intros _; apply nthZ_upd_eq; rewrite (fd_len _ _ _ Hok); lia|].
    intros Hi. rewrite nthZ_upd_ne by done. apply (fd_free _ _ _ Hok). set_solver.
  - intros i q Hi Hq. destruct (decide (i = fd)) as [->|Hd].
    { rewrite nthZ_upd_eq in Hi by (rewrite (fd_len _ _ _ Hok); lia). congruence. }
    pose proof Hi as Hi'. rewrite nthZ_upd_ne in Hi' by done. pose proof (fd_live _ _ _ Hok i q Hi' Hq) as Hl. rewrite Hfiles.
    pose proof (refs_pos _ _ _ Hi) as Hp2. rewrite Hcnt in Hp2 by done.
    destruct (decide (q = fp)) as [->|Hqf]; case_decide; [|rewrite lookup_insert_eq; eauto|by rewrite lookup_delete_ne|by rewrite lookup_insert_ne].
    rewrite bool_decide_eq_true_2 in Hp2 by done. cbn in Hp2. lia.
  - rewrite Hfiles. case_decide; [by rewrite lookup_delete_ne; [apply (fd_null _ _ _ Hok)|]|].
    rewrite lookup_insert_ne by done. apply (fd_null _ _ _ Hok).
  - intros q g. rewrite Hfiles. intros Hg.
    assert (q ≠ 0) as Hq0.
    { intros ->. case_decide; [rewrite lookup_delete_ne in Hg by done|rewrite lookup_insert_ne in Hg by done];
      rewrite (fd_null _ _ _ Hok) in Hg; done. }
    rewrite Hcnt by done. destruct (decide (q = fp)) as [->|Hqf].
    + case_decide; [by rewrite lookup_delete_eq in Hg|]. rewrite lookup_insert_eq in Hg. injection Hg as <-.
      rewrite bool_decide_eq_true_2 by done. cbn. rewrite u32_small; lia.
    + rewrite bool_decide_eq_false_2 by congruence. cbn. rewrite Z.sub_0_r. apply (fd_count _ _ _ Hok).
      case_decide; [by rewrite lookup_delete_ne in Hg|by rewrite lookup_insert_ne in Hg].
Qed.

(** [close] gives the descriptor back; the file is closed with the last one. *)
Lemma kclose_spec ext p s fd fp : fd_ok ext p s → nthZ (p_file p) fd = Some fp → fp ≠ 0 →
  ∃ f p' s', files s !! fp = Some f ∧ kclose fd p s = Done (0, p', s') ∧ fd_ok ext p' s' ∧
    p_file p' = updZ (p_file p) fd 0 ∧ ia_free (p_fd_obj p') = {[fd]} ∪ ia_free (p_fd_obj p) ∧
    files s' = if decide (f_refcnt f = 1) then delete fp (files s) else <[fp := set_refcnt (f_refcnt f - 1) f]> (files s).
Proof.
  intros Hok Hfd Hfp. destruct (fd_live _ _ _ Hok fd fp Hfd Hfp) as [f Hf]. destruct (fd_count _ _ _ Hok fp f Hf) as [Hrc Hb].
  destruct (vfs_close_spec s fp f Hf Hb) as (ret & s' & Hc & Hfiles). destruct (fd_ids _ _ _ Hok) as [Hw Hcap].
  pose proof (nthZ_Some _ _ _ Hfd) as Hr. rewrite (fd_len _ _ _ Hok) in Hr.
  destruct (ia_put_law (p_fd_obj p) fd Hw) as (ids & Hp & Hw' & Hc' & Hfr); [lia|].
  exists f, (mk_proc (updZ (p_file p) fd 0) ids (s32 (open_files p - 1)) (nofile_max p)), s'.
  split; [done|]. split; [|split; [|done]].
  - unfold kclose. rewrite Hfd. cbn [deref]. rewrite bind_done, (proj2 (Z.eqb_neq fp 0)), Hc, bind_done by done.
    unfold fd_detach. cbn [p_file with_open]. rewrite (proj2 (Z.ltb_ge fd 0)), Hfd by lia. cbn [deref].
    rewrite bind_done, (proj2 (Z.eqb_neq fp 0)) by done. cbn. by rewrite Hp.
  - by apply (drop_fd ext p s fd fp f).
Qed.

(** A file that is changed in place, its counter with the number of the references. *)
Lemma update_ok ext e p s fp f g : fd_ok ext p s → files s !! fp = Some f → (∀ q, 0 <= e q) →
  (∀ q, q ≠ fp → e q = ext q) → f_refcnt g = refs (p_file p) fp + e fp → 0 < f_refcnt g < 2 ^ 32 →
  fd_ok e p (with_files (<[fp := g]> (files s)) s).
Proof.
  intros Hok Hf Hnn He Hg Hb. assert (fp ≠ 0) as Hfp by (intros ->; rewrite (fd_null _ _ _ Hok) in Hf; done). split; cbn.
  - done.
  - apply (fd_len _ _ _ Hok).
  - apply (fd_ids _ _ _ Hok).
  - apply (fd_free _ _ _ Hok).
  - intros i q Hi Hq. destruct (decide (q = fp)) as [->|]; [rewrite lookup_insert_eq; eauto|].
    rewrite lookup_insert_ne by done. by apply (fd_live _ _ _ Hok i).
  - rewrite lookup_insert_ne by done. apply (fd_null _ _ _ Hok).
  - intros q h. destruct (decide (q = fp)) as [->|Hq]; [rewrite lookup_insert_eq; by intros [= <-]|].
    rewrite lookup_insert_ne, He by done. apply (fd_count _ _ _ Hok).
Qed.

Lemma refs_le t q : refs t q <= Z.of_nat (length t).
Proof. unfold refs. pose proof (length_filter (λ x, x = q) t). lia. Qed.

Lemma fewer_ids ext p s ids : fd_ok ext p s → ia_wf ids → ia_cap ids = ia_cap (p_fd_obj p) →
  ia_free ids ⊆ ia_free (p_fd_obj p) → fd_ok ext (with_ids ids p) s.
Proof.
  intros [] Hw Hc Hs. split; cbn; try done.
  - destruct fd_ids0. split; congruence.
  - intros i Hi. apply fd_free0, Hs, Hi.
Qed.

(** [fcntl(F_DUPFD)]: the least free descriptor refers to the same file, unless the limit is below it;
    the identifier is lost then. *)
Lemma dup_spec ext p s fd fp f arg : fd_ok ext p s → nthZ (p_file p) fd = Some fp → files s !! fp = Some f →
  Z.land (f_flags f) (Z.lor FREAD FWRITE) ≠ 0 → ia_free (p_fd_obj p) ≠ ∅ → f_refcnt f + 1 < 2 ^ 32 →
  let s' := with_files (<[fp := set_refcnt (f_refcnt f + 1) f]> (files s)) s in
  ∃ new ids, ia_get (p_fd_obj p) = Done (new, ids) ∧ new ∈ ia_free (p_fd_obj p) ∧
    (∀ j, j ∈ ia_free (p_fd_obj p) → new <= j) ∧
    let p' := mk_proc (updZ (p_file p) new fp) ids (open_files p) (nofile_max p) in
    kfcntl fd F_DUPFD arg p s = (if nofile_max p <? new then Done (- EMFILE, with_ids ids p, s) else Done (new, p', s')) ∧
    fd_ok ext (with_ids ids p) s ∧ fd_ok ext p' s'.
Proof.
  intros Hok Hfd Hf Hfl Hne Hb s'. assert (fp ≠ 0) as Hfp by (intros ->; rewrite (fd_null _ _ _ Hok) in Hf; done).
  set (e := λ q, if decide (q = fp) then ext fp + 1 else ext q). pose proof (fd_ext _ _ _ Hok) as Hnn.
  destruct (fd_count _ _ _ Hok fp f Hf) as [Hrc Hr].
  assert (fd_ok e p s') as Hok1.
  { apply (update_ok ext e p s fp f); [done|done| | | |].
    - intros q. unfold e. pose proof (Hnn q). pose proof (Hnn fp). case_decide; lia.
    - intros q Hq. unfold e. by rewrite decide_False.
    - unfold e. rewrite decide_True by done. cbn. rewrite u32_small; lia.
    - cbn. rewrite u32_small; lia. }
  destruct (take_fd e p s' fp (set_refcnt (f_refcnt f + 1) f) Hok1 Hne) as (new & ids & Hg & Hnr & Hin & Hmin & Hs0 & Hok');
    [apply lookup_insert_eq|].
  exists new, ids. split; [done|]. split; [done|]. split; [done|]. split; [|split].
  - unfold kfcntl. rewrite Hfd. cbn [deref]. rewrite bind_done, (proj2 (Z.eqb_neq fp 0)), Hf by done. cbn [deref].
    rewrite bind_done, (proj2 (Z.eqb_neq _ _) Hfl). cbn [F_DUPFD F_GETFD F_SETFD F_GETFL F_SETFL Z.eqb].
    rewrite Hg, bind_done, (proj2 (Z.ltb_ge new 0)), u32_small by lia. cbn [orb nofile_max with_ids]. case_match; [done|].
    unfold fd_attach. cbn [p_file with_ids]. rewrite (proj2 (Z.ltb_ge new 0)), (proj2 (Z.leb_gt 1024 new)), Hs0 by lia. cbn.
    unfold upd_file. by rewrite Hf.
  - destruct (fd_ids _ _ _ Hok) as [Hw _]. destruct (ia_get_law _ Hw Hne) as (i & x & Hg' & Hw' & Hc' & _ & Hfr & _).
    rewrite Hg in Hg'. injection Hg' as <- <-. apply fewer_ids; [done..|]. rewrite Hfr. set_solver.
  - apply Hok'; [|specialize (Hnn fp); lia]. intros q. unfold e. rewrite (decide_True _ _ (eq_refl fp)).
    case_decide as Hq; [subst q; lia|done].
Qed.

(** What [kopen], [kclose] and [kfcntl] do to the table; a file that is opened is new and has one reference. The other calls that
    hand out descriptors are left out on purpose, since they break the count: [kdup2] ([dup2_dangles]), and [falloc], through
    which [ksocket] and [kaccept] make the files of sockets ([falloc_leaks]). *)
Inductive fd_step : kprocess_t I * kst F → kprocess_t I * kst F → Prop :=
| step_open fp f p s ret p' s' : fp ≠ 0 → files s !! fp = None → f_refcnt f = 1 → ia_free (p_fd_obj p) ≠ ∅ →
    open_fd fp p (with_files (<[fp := f]> (files s)) s) = Done (ret, p', s') → fd_step (p, s) (p', s')
| step_close fd p s ret p' s' : kclose fd p s = Done (ret, p', s') → fd_step (p, s) (p', s')
| step_fcntl fd cmd arg p s ret p' s' : (cmd = F_DUPFD → ia_free (p_fd_obj p) ≠ ∅) →
    kfcntl fd cmd arg p s = Done (ret, p', s') → fd_step (p, s) (p', s').

Definition no_ext (_ : Z) : Z := 0.

Lemma step_open_ok fp f p s ret p' s' : fp ≠ 0 → files s !! fp = None → f_refcnt f = 1 → ia_free (p_fd_obj p) ≠ ∅ →
  open_fd fp p (with_files (<[fp := f]> (files s)) s) = Done (ret, p', s') → fd_ok no_ext p s → fd_ok no_ext p' s'.
Proof.
  intros Hfp Hn Hone Hne Ho Hok. set (e := λ q, if decide (q = fp) then 1 else 0).
  assert (refs (p_file p) fp = 0) as Hc0.
  { apply refs_zero. intros i Hi. destruct (fd_live _ _ _ Hok i fp Hi Hfp) as [g Hg]. congruence. }
  assert (fd_ok e p (with_files (<[fp := f]> (files s)) s)) as Hok1.
  { split; cbn.
    - intros q. unfold e. case_decide; lia.
    - apply (fd_len _ _ _ Hok).
    - apply (fd_ids _ _ _ Hok).
    - apply (fd_free _ _ _ Hok).
    - intros i q Hi Hq. destruct (decide (q = fp)) as [->|]; [rewrite lookup_insert_eq; eauto|].
      rewrite lookup_insert_ne by done. by apply (fd_live _ _ _ Hok i).
    - rewrite lookup_insert_ne by done. apply (fd_null _ _ _ Hok).
    - intros q g. unfold e. destruct (decide (q = fp)) as [->|Hq]; [rewrite lookup_insert_eq; intros [= <-]; lia|].
      rewrite lookup_insert_ne by done. apply (fd_count _ _ _ Hok). }
  destruct (open_fd_spec e p _ fp f Hok1 Hne) as (fd & p1 & Ho1 & _ & _ & _ & _ & Hok2); [apply lookup_insert_eq|].
  rewrite Ho1 in Ho. injection Ho as <- <- <-. apply Hok2; [|done].
  intros q. unfold no_ext, e. rewrite (decide_True _ _ (eq_refl fp)). by case_decide.
Qed.

Lemma step_close_ok fd p s ret p' s' : kclose fd p s = Done (ret, p', s') → fd_ok no_ext p s → fd_ok no_ext p' s'.
Proof.
  intros Hc Hok. destruct (nthZ (p_file p) fd) as [fp|] eqn:Hfd; [|by unfold kclose in Hc; rewrite Hfd in Hc].
  destruct (decide (fp = 0)) as [->|Hfp].
  - unfold kclose in Hc. rewrite Hfd in Hc. by injection Hc as <- <- <-.
  - destruct (kclose_spec no_ext p s fd fp Hok Hfd Hfp) as (f & p1 & s1 & _ & Hc1 & Hok1 & _).
    rewrite Hc1 in Hc. by injection Hc as <- <- <-.
Qed.

Lemma refcnt_none p s fp f : fd_ok no_ext p s → files s !! fp = Some f → f_refcnt f <= 1024.
Proof.
  intros Hok Hf. destruct (fd_count _ _ _ Hok fp f Hf) as [-> _]. pose proof (refs_le (p_file p) fp) as Hl.
  rewrite (fd_len _ _ _ Hok) in Hl. unfold no_ext. lia.
Qed.

Lemma step_fcntl_ok fd cmd arg p s ret p' s' : (cmd = F_DUPFD → ia_free (p_fd_obj p) ≠ ∅) →
  kfcntl fd cmd arg p s = Done (ret, p', s') → fd_ok no_ext p s → fd_ok no_ext p' s'.
Proof.
  intros Hne Hk Hok. unfold kfcntl in Hk. destruct (nthZ (p_file p) fd) as [fp|] eqn:Hfd; [|done]. cbn [deref] in Hk.
  rewrite bind_done in Hk. destruct (Z.eqb_spec fp 0) as [->|Hfp]; [by injection Hk as <- <- <-|].
  destruct (files s !! fp) as [f|] eqn:Hf; [|done]. cbn [deref] in Hk. rewrite bind_done in Hk.
  destruct (fd_count _ _ _ Hok fp f Hf) as [Hrc Hr]. pose proof (refcnt_none p s fp f Hok Hf) as Hle.
  destruct (Z.eqb_spec (Z.land (f_flags f) (Z.lor FREAD FWRITE)) 0) as [_|Hfl]; [by injection Hk as <- <- <-|].
  destruct (cmd =? F_GETFD); [by injection Hk as <- <- <-|]. destruct (cmd =? F_SETFD); [by injection Hk as <- <- <-|].
  destruct (cmd =? F_GETFL); [by injection Hk as <- <- <-|]. destruct (cmd =? F_SETFL).
  - unfold upd_file in Hk. rewrite Hf in Hk. injection Hk as <- <- <-. by apply (update_ok no_ext no_ext p s fp f).
  - destruct (Z.eqb_spec cmd F_DUPFD) as [->|_]; [|by injection Hk as <- <- <-]. specialize (Hne eq_refl).
    destruct (dup_spec no_ext p s fd fp f arg Hok Hfd Hf Hfl Hne) as (new & ids & _ & _ & _ & Hd & Hok1 & Hok2); [lia|].
    unfold kfcntl in Hd. rewrite Hfd in Hd. cbn [deref] in Hd. rewrite bind_done, (proj2 (Z.eqb_neq fp 0) Hfp), Hf in Hd.
    cbn [deref] in Hd. rewrite bind_done, (proj2 (Z.eqb_neq _ _) Hfl) in Hd. cbn [F_DUPFD F_GETFD F_SETFD F_GETFL F_SETFL Z.eqb] in Hd.
    rewrite Hd in Hk. case_match; by injection Hk as <- <- <-.
Qed.
(** A process without open files. *)
Lemma fresh_ok ids n m s : ia_wf ids → ia_cap ids = 1024 → files s = ∅ → fd_ok no_ext (mk_proc (replicate 1024 0) ids n m) s.
Proof.
  intros Hw Hc Hs. split; cbn [p_file p_fd_obj]; rewrite ?Hs.
  - done.
  - apply length_replicate.
  - done.
  - intros i Hi. apply nthZ_replicate. pose proof (ia_free_range _ _ Hw Hi). lia.
  - intros i fp Hi Hfp. pose proof (nthZ_Some _ _ _ Hi) as Hr. rewrite length_replicate in Hr.
    rewrite nthZ_replicate in Hi by lia. congruence.
  - done.
  - done.
Qed.

(** C38: when a process whose descriptors are counted right opens files, duplicates descriptors with fcntl
    and closes them, in any order and as long as an identifier is left for each that is opened or
    duplicated, each open file counts exactly the descriptors that refer to it, and a descriptor that can be
    handed out refers to nothing; [close] of an open descriptor succeeds, frees the file when it was the last
    one that refers to it and only then, and leaves the other files alone. (dup2, which does not count the
    descriptor it makes, is not among the operations: [dup2_dangles]; nor are the files of sockets, which
    falloc gives no reference: [falloc_leaks].) *)
Theorem fd_refcounts p0 s0 p s : fd_ok no_ext p0 s0 → rtc fd_step (p0, s0) (p, s) →
  (∀ i, i ∈ ia_free (p_fd_obj p) → nthZ (p_file p) i = Some 0) ∧
  (∀ fp f, files s !! fp = Some f → f_refcnt f = refs (p_file p) fp) ∧
  ∀ fd fp, nthZ (p_file p) fd = Some fp → fp ≠ 0 →
    ∃ p' s', kclose fd p s = Done (0, p', s') ∧ fd ∈ ia_free (p_fd_obj p') ∧ p_file p' = updZ (p_file p) fd 0 ∧
      (files s' !! fp = None ↔ refs (p_file p) fp = 1) ∧ ∀ q, q ≠ fp → files s' !! q = files s !! q.
Proof.
  intros Hok0 Hrun.
  assert (fd_ok no_ext p s) as Hok.
  { apply (rtc_inv fd_step (λ x, fd_ok no_ext x.1 x.2) (p0, s0) (p, s)); [|done|done].
    intros a b [fp f q t ret q' t'|fd q t ret q' t'|fd cmd arg q t ret q' t'];
      eauto using step_open_ok, step_close_ok, step_fcntl_ok. }
  split; [apply (fd_free _ _ _ Hok)|]. split.
  { intros fp f Hf. destruct (fd_count _ _ _ Hok fp f Hf) as [-> _]. unfold no_ext. lia. }
  intros fd fp Hfd Hfp. destruct (kclose_spec no_ext p s fd fp Hok Hfd Hfp) as (f & p' & s' & Hf & Hc & _ & Ht & Hfr & Hfs).
  destruct (fd_count _ _ _ Hok fp f Hf) as [Hrc _]. unfold no_ext in Hrc. rewrite Z.add_0_r in Hrc.
  exists p', s'. split; [done|]. split; [rewrite Hfr; set_solver|]. split; [done|]. rewrite <- Hrc, Hfs. split.
  - case_decide; [by rewrite lookup_delete_eq|by rewrite lookup_insert_eq].
  - intros q Hq. case_decide; [by apply lookup_delete_ne|by apply lookup_insert_ne].
Qed.
End fd_laws.

(** ** The descriptors of a child *)

Section inherit.
Context {F I : Type} `{FileLaws F}.
Implicit Types (m : gmap Z file_t) (s : kst F) (k : Z → Z).

(** The files with [k] more references each. *)
Definition bumped k m : gmap Z file_t := map_imap (λ fp f, Some (set_refcnt (f_refcnt f + k fp) f)) m.

Lemma bumped_lookup k m q : bumped k m !! q = (λ f, set_refcnt (f_refcnt f + k q) f) <$> m !! q.
Proof. unfold bumped. rewrite map_lookup_imap. by destruct (m !! q). Qed.

Lemma bumped_ext k k' m : (∀ q, q ∈ dom m → k q = k' q) → bumped k m = bumped k' m.
Proof.
  intros Hk. apply map_eq. intros q. rewrite !bumped_lookup. destruct (m !! q) as [f|] eqn:Hq; [|done]. cbn.
  rewrite Hk; [done|]. by apply elem_of_dom_2 in Hq.
Qed.

Lemma bumped_none m : (∀ q f, m !! q = Some f → 0 < f_refcnt f < 2 ^ 32) → bumped no_ext m = m.
Proof.
  intros Hb. apply map_eq. intros q. rewrite bumped_lookup. destruct (m !! q) as [f|] eqn:Hq; [|done]. cbn.
  unfold set_refcnt, no_ext. rewrite Z.add_0_r, u32_small by (specialize (Hb q f Hq); lia). by destruct f.
Qed.

Definition plus1 k fp (q : Z) : Z := k q + b2z (bool_decide (fp = q)).

Lemma set_refcnt_add n d f : set_refcnt (f_refcnt (set_refcnt n f) + d) (set_refcnt n f) = set_refcnt (n + d) f.
Proof. unfold set_refcnt, u32. cbn. by rewrite Zplus_mod_idemp_l. Qed.

Lemma insert_bumped k k' m fp f : m !! fp = Some f → (∀ q, q ≠ fp → k' q = k q) →
  <[fp := set_refcnt (f_refcnt f + k' fp) f]> (bumped k m) = bumped k' m.
Proof.
  intros Hf Hk. apply map_eq. intros q. destruct (decide (q = fp)) as [->|Hq].
  - by rewrite lookup_insert_eq, bumped_lookup, Hf.
  - rewrite lookup_insert_ne, !bumped_lookup by done. destruct (m !! q); [|done]. cbn. by rewrite Hk.
Qed.

Lemma bump_step k m s fp : is_Some (m !! fp) →
  upd_file fp (λ f, set_refcnt (f_refcnt f + 1) f) (with_files (bumped k m) s) = Done (with_files (bumped (plus1 k fp) m) s).
Proof.
  intros [f Hf]. unfold upd_file. cbn [files with_files]. rewrite bumped_lookup, Hf. cbn [fmap option_fmap option_map deref].
  rewrite bind_done, set_refcnt_add. unfold with_files at 1. cbn [files heap fsys]. do 2 f_equal.
  assert (f_refcnt f + k fp + 1 = f_refcnt f + plus1 k fp fp) as -> by (unfold plus1; rewrite bool_decide_eq_true_2 by done; cbn; lia).
  rewrite (insert_bumped k (plus1 k fp)); [done|done|].
  intros q Hq. unfold plus1. rewrite bool_decide_eq_false_2 by done. cbn. lia.
Qed.

Lemma close_step k m s fp f : m !! fp = Some f → 0 < f_refcnt f → 0 <= k fp → f_refcnt f + k fp + 1 < 2 ^ 32 →
  ∃ ret, vfs_close fp (with_files (bumped (plus1 k fp) m) s) = Done (ret, with_files (bumped k m) s).
Proof.
  intros Hf Hr Hk Hb. assert (plus1 k fp fp = k fp + 1) as Hp by (unfold plus1; by rewrite bool_decide_eq_true_2).
  exists 0. unfold vfs_close, upd_file. cbn [files with_files]. rewrite bumped_lookup, Hf, Hp. cbn [fmap option_fmap option_map deref].
  rewrite bind_done. replace (f_refcnt (set_refcnt (f_refcnt f + (k fp + 1)) f) - 1) with
    (f_refcnt (set_refcnt (f_refcnt f + (k fp + 1)) f) + (-1)) by lia. rewrite set_refcnt_add.
  rewrite bind_done. cbn [files with_files]. rewrite lookup_insert_eq. cbn [deref]. rewrite bind_done.
  replace (f_refcnt f + (k fp + 1) + -1) with (f_refcnt f + k fp) by lia. cbn [f_refcnt set_refcnt].
  rewrite u32_small, (proj2 (Z.eqb_neq _ 0)) by lia. unfold with_files. cbn. do 3 f_equal.
  apply insert_bumped; [done|]. intros q Hq. unfold plus1. rewrite bool_decide_eq_false_2 by done. cbn. lia.
Qed.

Definition seg (i : Z) (n : nat) (t : list Z) : list Z := take n (drop (Z.to_nat i) t).

Lemma seg_cons i n t x : nthZ t i = Some x → seg i (S n) t = x :: seg (i + 1) n t.
Proof.
  intros Hi. pose proof (nthZ_Some _ _ _ Hi). unfold nthZ in Hi. rewrite decide_True in Hi by lia. unfold seg.
  rewrite (drop_S _ _ _ Hi). replace (Z.to_nat (i + 1)) with (S (Z.to_nat i)) by lia. done.
Qed.

Lemma bump_loop_spec n : ∀ i t k m s, 0 <= i → (∀ j, i <= j < i + Z.of_nat n → ∃ fp, nthZ t j = Some fp ∧ is_Some (m !! fp)) →
  bump_loop n i t (with_files (bumped k m) s) = Done (with_files (bumped (λ q, k q + refs (seg i n t) q) m) s).
Proof.
  induction n as [|n IH]; intros i t k m s Hi Ht; cbn [bump_loop].
  - do 2 f_equal. apply bumped_ext. intros q _. change (refs (seg i 0 t) q) with 0. lia.
  - destruct (Ht i) as (fp & Hfp & Hm); [lia|]. rewrite Hfp. cbn [deref]. rewrite bind_done, bump_step, bind_done by done.
    rewrite IH by (lia || intros j Hj; apply Ht; lia). do 2 f_equal. apply bumped_ext. intros q _.
    rewrite (seg_cons i n t fp), refs_cons by done. unfold plus1. lia.
Qed.

Lemma close_loop_spec n : ∀ i t m s, 0 <= i → (∀ j, i <= j < i + Z.of_nat n → ∃ fp, nthZ t j = Some fp ∧ is_Some (m !! fp)) →
  (∀ q f, m !! q = Some f → 0 < f_refcnt f ∧ f_refcnt f + Z.of_nat n < 2 ^ 32) →
  close_loop n i t (with_files (bumped (refs (seg i n t)) m) s) = Done (with_files (bumped no_ext m) s).
Proof.
  induction n as [|n IH]; intros i t m s Hi Ht Hb; cbn [close_loop].
  - done.
  - destruct (Ht i) as (fp & Hfp & f & Hm); [lia|]. rewrite Hfp. cbn [deref]. rewrite bind_done.
    rewrite (bumped_ext _ (plus1 (refs (seg (i + 1) n t)) fp)).
    + destruct (Hb fp f Hm) as [Hr Hb']. pose proof (refs_le (seg (i + 1) n t) fp) as Hl.
      unfold seg in Hl. rewrite length_take in Hl.
      destruct (close_step (refs (seg (i + 1) n t)) m s fp f Hm Hr) as [ret ->]; [apply refs_nonneg|unfold seg; lia|].
      rewrite bind_done. apply IH; [lia|intros j Hj; apply Ht; lia|]. intros q g Hq. specialize (Hb q g Hq). lia.
    + intros q _. rewrite (seg_cons i n t fp), refs_cons by done. unfold plus1. lia.
Qed.

(** A child takes over the descriptors of its parent, and when it ends, every counter of
    every open file is what it was: for a parent whose [open_files] descriptors are the
    first ones, [kcreate_process] copies them all and adds them to the counters, and the loop
    of [kclose_proc] takes exactly these references away again. *)
Theorem inherit_exit (dup : I → I → outcome I) parent proc s ids :
  p_file proc = replicate 1024 0 → length (p_file parent) = 1024%nat → 0 <= open_files parent <= 1024 →
  (∀ j, 0 <= j < open_files parent → ∃ fp, nthZ (p_file parent) j = Some fp ∧ is_Some (files s !! fp)) →
  (∀ j, open_files parent <= j < 1024 → nthZ (p_file parent) j = Some 0) →
  (∀ q f, files s !! q = Some f → 0 < f_refcnt f ∧ f_refcnt f + 1024 < 2 ^ 32) →
  dup (p_fd_obj proc) (p_fd_obj parent) = Done ids →
  ∃ child s', inherit dup parent proc s = Done (child, s') ∧ p_file child = p_file parent ∧ p_fd_obj child = ids ∧
    (∀ q, q ≠ 0 → files s' !! q = (λ f, set_refcnt (f_refcnt f + refs (p_file parent) q) f) <$> files s !! q) ∧
    close_files child s' = Done s.
Proof.
  intros Hp Hl Ho Hlive Hrest Hb Hdup. unfold inherit. set (n := Z.to_nat (open_files parent)).
  assert (take n (p_file parent) ++ drop n (p_file proc) = p_file parent) as ->.
  { rewrite <- (take_drop n (p_file parent)) at 2. f_equal. rewrite Hp. apply list_eq. intros i. rewrite !lookup_drop.
    destruct (decide (n + i < 1024)%nat) as [Hi|Hi].
    - rewrite lookup_replicate_2 by done. specialize (Hrest (Z.of_nat (n + i)) ltac:(lia)).
      unfold nthZ in Hrest. rewrite decide_True, Nat2Z.id in Hrest by lia. by rewrite Hrest.
    - rewrite !lookup_ge_None_2; [done|lia|rewrite length_replicate; lia]. }
  assert (with_files (bumped no_ext (files s)) s = s) as Hs.
  { rewrite bumped_none by (intros q f Hq; specialize (Hb q f Hq); lia). by destruct s. }
  pose proof (bump_loop_spec n 0 (p_file parent) no_ext (files s) s) as Hbump. rewrite Hs in Hbump.
  rewrite Hbump by (lia || intros j Hj; apply Hlive; lia). rewrite bind_done, Hdup, bind_done.
  rewrite (bumped_ext _ (refs (seg 0 n (p_file parent)))) by (intros q _; unfold no_ext; lia).
  do 2 eexists. split; [done|]. split; [done|]. split; [done|]. split.
  - intros q Hq. cbn [files with_files]. rewrite bumped_lookup. destruct (files s !! q); [|done]. cbn. do 3 f_equal.
    rewrite <- (take_drop n (p_file parent)) at 2. rewrite refs_app. change (seg 0 n (p_file parent)) with (take n (p_file parent)).
    rewrite (refs_zero (drop n (p_file parent)) q); [lia|]. intros i Hi. pose proof (nthZ_Some _ _ _ Hi) as Hr.
    unfold nthZ in Hi. rewrite decide_True, lookup_drop in Hi by lia. rewrite length_drop in Hr.
    specialize (Hrest (Z.of_nat (n + Z.to_nat i)) ltac:(lia)).
    unfold nthZ in Hrest. rewrite decide_True, Nat2Z.id in Hrest by lia. congruence.
  - unfold close_files. cbn [open_files p_file]. fold n.
    rewrite (close_loop_spec n 0 (p_file parent) (files s) s); [by rewrite Hs|lia| |].
    + intros j Hj. apply Hlive. lia.
    + intros q f Hq. specialize (Hb q f Hq). lia.
Qed.
End inherit.

(** A file system for examples: closing frees the file, nothing can be read. *)
#[export] Instance null_ops : FileOps unit := {|
  fo_close f s := Done (0, None, s);
  fo_read f := None; fo_write f := None; fo_seek f := None |}.
#[export] Instance null_laws : FileLaws unit.
Proof. split. eauto. Qed.

Definition new_proc : kprocess_t kid_object := mk_proc (replicate 1024 0) (kernel_id_map_init 128) 0 1024.
Definition new_kst : kst unit := mk_kst ∅ [] tt.
Definition some_file : file_t := mk_file 1 0 FREAD 0 0 1 0.

Lemma new_proc_ok : fd_ok no_ext new_proc new_kst.
Proof. apply fresh_ok; [apply kernel_id_map_init_wf; [lia|done]|by vm_compute|done]. Qed.

Lemma fd_refcounts_witness :
  let st := open_fd (I := kid_object) 4096 new_proc (mk_kst {[4096 := some_file]} [] tt) in
  match st with
  | Done (_, p, s) =>
      (∀ i, i ∈ ia_free (p_fd_obj p) → nthZ (p_file p) i = Some 0) ∧
      (∀ fp f, files s !! fp = Some f → f_refcnt f = refs (p_file p) fp) ∧
      ∀ fd fp, nthZ (p_file p) fd = Some fp → fp ≠ 0 →
        ∃ p' s', kclose fd p s = Done (0, p', s') ∧ fd ∈ ia_free (p_fd_obj p') ∧ p_file p' = updZ (p_file p) fd 0 ∧
          (files s' !! fp = None ↔ refs (p_file p) fp = 1) ∧ ∀ q, q ≠ fp → files s' !! q = files s !! q
  | Fail _ => False
  end.
Proof.
  cbv zeta. destruct (open_fd 4096 new_proc _) as [[[fd p] s]|] eqn:Ho; [|by vm_compute in Ho].
  apply (fd_refcounts new_proc new_kst p s new_proc_ok).
  apply rtc_once, (step_open 4096 some_file new_proc new_kst fd p s); [done..| |exact Ho].
  apply (non_empty_inhabited_L 0). apply elem_of_free_ids. by vm_compute.
Defined.

(** A process with two files open. *)
Definition two_files : kst unit := mk_kst {[4096 := some_file; 8192 := some_file]} [] tt.
Definition two_open : outcome (kprocess_t kid_object * kst unit) :=
  '(_, p, s) ← open_fd 4096 new_proc two_files; '(_, p, s) ← open_fd 8192 p s; Done (p, s).

Lemma inherit_exit_witness :
  let parent := mk_proc (4096 :: 8192 :: replicate 1022 0) (mk_kid [2 ^ 32 - 4] 0 4) 2 1024 in
  ∃ child s', inherit (λ _ o, Done o) parent new_proc two_files = Done (child, s') ∧ p_file child = p_file parent ∧
    p_fd_obj child = p_fd_obj parent ∧
    (∀ q, q ≠ 0 → files s' !! q = (λ f, set_refcnt (f_refcnt f + refs (p_file parent) q) f) <$> files two_files !! q) ∧
    close_files child s' = Done two_files.
Proof.
  intros parent. apply (inherit_exit (λ _ o, Done o) parent new_proc two_files (p_fd_obj parent)).
  - done.
  - done.
  - cbn. lia.
  - intros j Hj. cbn in Hj. destruct (decide (j = 0)) as [->|]; [exists 4096; eauto|].
    exists 8192. assert (j = 1) as -> by lia. split; [done|]. by eexists.
  - intros j Hj. cbn in Hj. unfold nthZ. rewrite decide_True by lia. cbn [parent p_file].
    replace (Z.to_nat j) with (Datatypes.S (Datatypes.S (Z.to_nat (j - 2)))) by lia. cbn [lookup list_lookup].
    apply lookup_replicate_2. lia.
  - intros q f Hq. cbn in Hq. apply lookup_insert_Some in Hq as [[_ <-]|[_ Hq]]; [done|].
    by apply lookup_singleton_Some in Hq as [_ <-].
  - done.
Defined.

(** ** What the code does not do *)

(** [dup2] does not count the descriptor: closing the first one frees the file under the second. *)
Lemma dup2_dangles :
  (x ← open_fd 4096 new_proc two_files; let '(_, p, s) := x in
   '(_, p, s) ← kdup2 resv_id 0 5 p s; '(_, p, s) ← kclose 0 p s;
   Done (nthZ (p_file p) 5, files s !! 4096)) = Done (Some 4096, None).
Proof. by vm_compute. Qed.

(** With a hole among the first descriptors a new child, and the end of the process, go through a null pointer. *)
Lemma hole_faults :
  ('(p, s) ← two_open; '(_, p, s) ← kclose 0 p s; inherit (λ _ o, Done o) p new_proc s) = Fail BadPtr ∧
  ('(p, s) ← two_open; '(_, p, s) ← kclose 0 p s; close_files p s) = Fail BadPtr.
Proof. by vm_compute. Qed.

(** [fcntl(F_DUPFD)] does not count the open file: closing both descriptors leaves -1. *)
Lemma dup_uncounted :
  (x ← open_fd 4096 new_proc two_files; let '(_, p, s) := x in
   '(_, p, s) ← kfcntl 0 F_DUPFD 0 p s; '(_, p, s) ← kclose 0 p s; '(_, p, s) ← kclose 1 p s;
   Done (open_files p)) = Done (-1).
Proof. by vm_compute. Qed.

(** [FD_CLOEXEC] and [FREAD] are the same bit: every file open for reading is close-on-exec for F_GETFD. *)
Lemma getfd_reads_fread {F I} `{FileOps F} `{IdAlloc I} fd fp f (p : kprocess_t I) (s : kst F) :
  nthZ (p_file p) fd = Some fp → fp ≠ 0 → files s !! fp = Some f → f_flags f = FREAD →
  kfcntl fd F_GETFD 0 p s = Done (FD_CLOEXEC, p, s).
Proof. intros Hn Hfp Hf Hfl. unfold kfcntl. rewrite Hn. cbn. rewrite (proj2 (Z.eqb_neq fp 0)), Hf by done. cbn. by rewrite Hfl. Qed.

(** A file from [falloc] has no reference: closing it counts down to the largest number, and frees nothing. *)
Lemma falloc_leaks :
  (x ← falloc 0 new_proc (mk_kst ∅ [4096] tt);
   let '(r, p, s) := x in '(_, p, s) ← kclose 0 p s; Done (f_refcnt <$> files s !! 4096)) = Done (Some (2 ^ 32 - 1)).
Proof. by vm_compute. Qed.

(** With all of the 1024 descriptors in use [kopen], whose check is for more than 1024, never returns. *)
Lemma open_full fp (p : kprocess_t kid_object) (s : kst unit) :
  kid_wf (p_fd_obj p) → free_ids (kid_map (p_fd_obj p)) = ∅ → open_fd fp p s = Fail Diverge.
Proof.
  intros Hw He. unfold open_fd. cbn [ia_get kid_alloc]. unfold get_unused_id.
  rewrite get_loop_exhausted; [done| |apply Hw..]. by apply no_free_all_zero.
Qed.
