(* ===== verification/Vfs.v ===== *)
(** * The file system interface ([Kernel/vfs.c])

    Paths, vnodes, mounts, and the system calls on files.  The file systems behind them are
    reached through the tables of operations [file_ops] (the class [FileOps]) and
    [mount_point_operations] (the class [MountOps]).  A path is the list of its bytes without
    the NUL.  Buffers that a call frees before it returns are always found. *)

From S2P Require Import Prelude Pid Paging Fd.

Record vnode_t : Type := mk_vnode {
  v_device : Z; v_mode : Z; v_id : Z; v_size : Z; v_uid : Z; v_gid : Z; v_mp : Z;
  v_atime : Z; v_ctime : Z; v_mtime : Z }.
Definition set_id (i : Z) (v : vnode_t) : vnode_t :=
  mk_vnode (v_device v) (v_mode v) i (v_size v) (v_uid v) (v_gid v) (v_mp v) (v_atime v) (v_ctime v) (v_mtime v).
Definition set_mode (m : Z) (v : vnode_t) : vnode_t :=
  mk_vnode (v_device v) (u32 m) (v_id v) (v_size v) (v_uid v) (v_gid v) (v_mp v) (v_atime v) (v_ctime v) (v_mtime v).
Definition set_times (a m : Z) (v : vnode_t) : vnode_t :=
  mk_vnode (v_device v) (v_mode v) (v_id v) (v_size v) (v_uid v) (v_gid v) (v_mp v) (u32 a) (v_ctime v) (u32 m).

Record mount_t : Type := mk_mount { mp_flags : Z; path_prefix : list Z; mp_vnode : Z }.

(** [mount_point_operations] of the mounted file systems.  [lookup] gives the number of the
    vnode; [open] and [create] give the file and, unless it is the one they were given, its
    vnode.  The last three may be missing. *)
Class MountOps (F : Type) := {
  mo_lookup : vnode_t → list Z → F → outcome (Z * Z * F);
  mo_open : vnode_t → list Z → Z → F → outcome (Z * option (file_t * option vnode_t) * F);
  mo_create : vnode_t → list Z → Z → F → outcome (Z * option (file_t * option vnode_t) * F);
  mo_delete : vnode_t → list Z → F → outcome (Z * F);
  mo_stat : option (vnode_t → list Z → F → outcome (Z * list Z * F));
  mo_statfs : option (vnode_t → F → outcome (Z * list Z * F));
  mo_sync : option (vnode_t → F → outcome (Z * F));
}.

Definition NAME_MAX := 256.
Definition MAX_PREFIX_LEN := 16.
Definition O_RDONLY := 0.
Definition O_WRONLY := 1.
Definition O_RDWR := 2.
Definition O_APPEND := 8.
Definition O_CREAT := 512.
Definition O_LARGEFILE := 32768.
Definition MAX_NON_LFS := 2 ^ 31 - 1.
Definition S_IFMT := 61440.
Definition S_IFSOCK := 49152.
Definition S_IFREG := 32768.
Definition S_IFDIR := 16384.
Definition S_IRUSR := 256.
Definition S_IWUSR := 128.
Definition EISDIR := 21.
Definition EROFS := 30.
Definition S_ISREG (m : Z) : bool := Z.land m S_IFMT =? S_IFREG.
Definition S_ISDIR (m : Z) : bool := Z.land m S_IFMT =? S_IFDIR.
Definition S_ISSOCK (m : Z) : bool := Z.land m S_IFMT =? S_IFSOCK.
Definition has (x m : Z) : bool := negb (Z.land x m =? 0).

(** ** Paths *)

(** [strchr(p, '/')], and the slashes behind it: what is before it, and what follows. *)
Fixpoint skip_slash (p : list Z) : list Z :=
  match p with c :: q => if c =? 47 then skip_slash q else p | [] => [] end.
Fixpoint split_slash (p : list Z) : option (list Z * list Z) :=
  match p with
  | [] => None
  | c :: q => if c =? 47 then Some ([], skip_slash q) else '(a, b) ← split_slash q; Some (c :: a, b)
  end.

Section vfs.
Context {F I : Type} `{FileOps F} `{MountOps F} `{IdAlloc I}.

Record vst : Type := mk_vst {
  ks : kst F; vnodes : gmap Z vnode_t; mounts : gmap Z mount_t; mount_list : list Z;
  pg : pst; cr3 : Z }.
Definition with_ks (k : kst F) (s : vst) : vst := mk_vst k (vnodes s) (mounts s) (mount_list s) (pg s) (cr3 s).
Definition with_vnodes (m : gmap Z vnode_t) (s : vst) : vst := mk_vst (ks s) m (mounts s) (mount_list s) (pg s) (cr3 s).
Definition with_fs (f : F) (s : vst) : vst := with_ks (mk_kst (files (ks s)) (heap (ks s)) f) s.
Definition cur_fs (s : vst) : F := fsys (ks s).

Definition vnode_at (v : Z) (s : vst) : outcome vnode_t := deref (vnodes s !! v).
Definition upd_vnode (v : Z) (g : vnode_t → vnode_t) (s : vst) : outcome vst :=
  x ← vnode_at v s; Done (with_vnodes (<[v := g x]> (vnodes s)) s).
Definition file_at (fp : Z) (s : vst) : outcome file_t := deref (files (ks s) !! fp).
Definition put_file (fp : Z) (f : file_t) (s : vst) : vst := with_ks (with_files (<[fp := f]> (files (ks s))) (ks s)) s.

(** An object from the heap; the callers assert that there is one. *)
Definition kzalloc (s : vst) : outcome (Z * vst) :=
  match heap (ks s) with
  | [] => Fail Panic
  | a :: l => Done (a, with_ks (mk_kst (files (ks s)) l (fsys (ks s))) s)
  end.
Definition vfs_alloc_vnode (x : vnode_t) (s : vst) : outcome (Z * vst) :=
  '(a, s) ← kzalloc s; Done (a, with_vnodes (<[a := x]> (vnodes s)) s).
Definition vfs_free_vnode (v : Z) (s : vst) : outcome vst :=
  if v =? 0 then Done s else _ ← vnode_at v s; Done (with_vnodes (delete v (vnodes s)) s).

Fixpoint find_mount (l : list Z) (prefix : list Z) (s : vst) : outcome Z :=
  match l with
  | [] => Done 0
  | a :: l => mt ← deref (mounts s !! a); if decide (path_prefix mt = prefix) then Done a else find_mount l prefix s
  end.
Definition lookup_mount_point (prefix : list Z) (s : vst) : outcome Z := find_mount (mount_list s) prefix s.
Definition vfs_get_rootv (s : vst) : outcome Z :=
  mp ← lookup_mount_point [47] s;
  if mp =? 0 then Done 0 else mt ← deref (mounts s !! mp); Done (mp_vnode mt).

(** The loop of [vfs_path_lookup]: the current vnode, its parent, and the one vnode that
    all lookups fill in; every round takes the part of the path up to a slash. *)
Fixpoint path_loop (fuel : nat) (p : list Z) (currv pntv nextv : Z) (s : vst) : outcome (option (Z * list Z) * vst) :=
  match fuel with
  | O => Fail Diverge
  | S fuel =>
      match split_slash p with
      | None => Done (Some (currv, p), s)
      | Some (name, rest) =>
          if decide (name = [46]) then path_loop fuel rest currv pntv nextv s else
          if decide (name = [46; 46]) then path_loop fuel rest pntv pntv nextv s else
          if match rest with [] => true | c :: _ => c =? 10 end then Done (Some (currv, name), s) else
          v ← vnode_at currv s;
          '(ret, id, fs) ← mo_lookup v name (cur_fs s);
          let s := with_fs fs s in
          if ret <? 0 then Done (None, s) else
          s ← upd_vnode nextv (set_id id) s;
          path_loop fuel rest nextv currv nextv s
      end
  end.

(** The vnode of the directory and the last component, or NULL; [strncpy] puts a NUL behind the
    [NAME_MAX] bytes of the caller's buffer when the component is as long. *)
Definition vfs_path_lookup (pv : Z) (path : list Z) (s : vst) : outcome (option (Z * list Z) * vst) :=
  x ← vnode_at pv s;
  '(p, currv) ←
    match path with
    | 47 :: q => mt ← deref (mounts s !! v_mp x); Done (skip_slash q, mp_vnode mt)
    | _ => Done (path, pv)
    end;
  '(nextv, s) ← vfs_alloc_vnode (mk_vnode (v_device x) 0 0 0 0 0 (v_mp x) 0 0 0) s;
  '(r, s) ← path_loop (Datatypes.S (length p)) p currv currv nextv s;
  match r with
  | None => s ← vfs_free_vnode nextv s; Done (None, s)
  | Some (currv, p) =>
      n ← vnode_at nextv s;
      s ← (if v_id n =? 0 then vfs_free_vnode nextv s else Done s);
      if NAME_MAX <=? Z.of_nat (length p) then Fail BadPtr else Done (Some (currv, p), s)
  end.

(** ** Opening and closing *)

(** The file that an operation of the file system opened, and its vnode, in the store. *)
Definition install (pv : Z) (o : file_t * option vnode_t) (s : vst) : outcome (Z * vst) :=
  let '(f, ov) := o in
  '(fp, s) ← kzalloc s;
  '(v, s) ← match ov with None => Done (pv, s) | Some x => vfs_alloc_vnode x s end;
  Done (fp, put_file fp (mk_file (f_ops f) (f_type f) (f_flags f) (f_curr_pos f) (f_end_pos f) (f_refcnt f) v) s).

Definition close_file (fp : Z) (s : vst) : outcome (Z * vst) :=
  '(ret, k) ← vfs_close fp (ks s); Done (ret, with_ks k s).

(** [fget] as it is written. *)
Definition fget (fp : Z) (s : vst) : outcome vst :=
  if fp =? 0 then f ← file_at fp s; Done (put_file fp (set_refcnt (f_refcnt f + 1) f) s) else Done s.

(** [file0]: what the variable behind [file] holds before. *)
Definition vfs_open (file0 pv : Z) (path : list Z) (flag : Z) (s : vst) : outcome (Z * Z * vst) :=
  '(r, s) ← vfs_path_lookup pv path s;
  match r with
  | None => Done (- ENOENT, file0, s)
  | Some (vnode, name) =>
      v ← vnode_at vnode s;
      '(ret, o, fs) ← mo_open v name flag (cur_fs s);
      let s := with_fs fs s in
      '(fp, s) ← match o with Some o => install vnode o s | None => Done (file0, s) end;
      let fail ret s := '(_, s) ← close_file fp s; Done (ret, fp, s) in
      if ret <? 0 then fail ret s else
      f ← file_at fp s;
      let acc := Z.land flag O_ACCMODE in
      if (acc =? O_RDWR) && negb (Z.land (f_type f) (Z.lor S_IWUSR S_IRUSR) =? Z.lor S_IWUSR S_IRUSR) then fail (- EPERM) s else
      if (acc =? O_WRONLY) && negb (has (f_type f) S_IWUSR) then fail (- EPERM) s else
      if (acc =? O_RDONLY) && negb (has (f_type f) S_IRUSR) then fail (- EPERM) s else
      let fl := if acc =? O_RDWR then Z.lor FREAD FWRITE else if acc =? O_WRONLY then FWRITE
                else if acc =? O_RDONLY then FREAD else 0 in
      s ← fget fp (put_file fp (set_flags (Z.lor (Z.lor (f_flags f) fl) (Z.land flag (Z.lnot O_ACCMODE))) f) s);
      Done (0, fp, s)
  end.

Definition vfs_create (file0 pv : Z) (path : list Z) (mode : Z) (s : vst) : outcome (Z * Z * vst) :=
  if pv =? 0 then Done (- EINVAL, file0, s) else
  x ← vnode_at pv s;
  if negb (has (v_mode x) S_IWUSR) then Done (- EACCES, file0, s) else
  '(r, s) ← vfs_path_lookup pv path s;
  match r with
  | None => Done (- ENOENT, file0, s)
  | Some (vnode, name) =>
      v ← vnode_at vnode s;
      '(ret, o, fs) ← mo_create v name mode (cur_fs s);
      let s := with_fs fs s in
      '(fp, s) ← match o with Some o => install vnode o s | None => Done (file0, s) end;
      rootv ← vfs_get_rootv s;
      s ← (if vnode =? rootv then Done s else vfs_free_vnode vnode s);
      Done (ret, fp, s)
  end.

Definition vfs_fstat (ops_fstat : option (file_t → F → outcome (Z * list Z * F))) (fp : Z) (s : vst) : outcome (Z * list Z * vst) :=
  f ← file_at fp s;
  match ops_fstat with
  | Some op => '(ret, st, fs) ← op f (cur_fs s); Done (ret, st, with_fs fs s)
  | None => Done (- ENOSYS, [], s)
  end.

(** ** Reading and writing *)

(** The value returned and the bytes in the buffer. *)
Definition vfs_read (fp len : Z) (s : vst) : outcome (Z * list Z * vst) :=
  if fp =? 0 then Done (- EINVAL, [], s) else
  if len =? 0 then Done (0, [], s) else
  f ← file_at fp s;
  if negb (has (f_flags f) FREAD) then Done (- EACCES, [], s) else
  if negb (has (f_type f) S_IRUSR) then Done (- EPERM, [], s) else
  v ← vnode_at (f_vnode f) s;
  if v_size v <? f_curr_pos f then Done (s32 len, replicate (Z.to_nat len) 0, s) else
  match fo_read f with
  | Some op => '(ret, b, f, fs) ← op len (cur_fs s); Done (ret, b, put_file fp f (with_fs fs s))
  | None => Done (- ENOSYS, [], s)
  end.

Definition vfs_write (fp : Z) (b : list Z) (s : vst) : outcome (Z * vst) :=
  if fp =? 0 then Done (- EINVAL, s) else
  match b with
  | [] => Done (0, s)
  | _ =>
      f ← file_at fp s;
      if negb (has (f_flags f) FWRITE) then Done (- EACCES, s) else
      if negb (has (f_type f) S_IWUSR) then Done (- EPERM, s) else
      match fo_write f with
      | Some op => '(ret, f, fs) ← op b (cur_fs s); Done (ret, put_file fp f (with_fs fs s))
      | None => Done (- ENOSYS, s)
      end
  end.

Definition vfs_seek (fp pos whence : Z) (s : vst) : outcome (Z * vst) :=
  f ← file_at fp s;
  if negb (S_ISREG (f_type f)) then Done (- ESPIPE, s) else
  match fo_seek f with
  | Some op => '(ret, f, fs) ← op pos whence (cur_fs s); Done (ret, put_file fp f (with_fs fs s))
  | None => Done (- ENOSYS, s)
  end.

(** ** The system calls

    Of a process: a kernel thread has no descriptors and gets an error from all of them.
    [cr3] and [pg] are the address space of the process. *)

Record vproc : Type := mk_vproc {
  pr : kprocess_t I; p_currdir : Z; p_curr_cwd : Z; p_old_cwd : Z; uid : Z }.
Definition with_pr (x : kprocess_t I) (p : vproc) : vproc := mk_vproc x (p_currdir p) (p_curr_cwd p) (p_old_cwd p) (uid p).

Definition fd_file (fd : Z) (p : vproc) : outcome Z := deref (nthZ (p_file (pr p)) fd).

(** How large the buffer of [kread] is. *)
Fixpoint order_loop (n : nat) (order nr_page : Z) : Z :=
  match n with O => order | S n => if 2 ^ order <? nr_page then order_loop n (order + 1) nr_page else order end.
Definition buf_size (len : Z) : Z :=
  if PAGE_SIZE <? u32 len then PAGE_SIZE * 2 ^ order_loop 21 0 (Z.shiftr (PAGE_ALIGN (u32 len)) 12) else len.

(** The value returned, and the bytes the user gets; of [copy_to_user] and [copy_from_user] the checks are used, the bytes are passed on. *)
Definition kread (fd buf len : Z) (p : vproc) (s : vst) : outcome (Z * list Z * vst) :=
  fp ← fd_file fd p;
  if fp =? 0 then Done (- EBADF, [], s) else
  f ← file_at fp s;
  if negb (has (f_flags f) FREAD) then Done (- EACCES, [], s) else
  '(ret, b, s) ← vfs_read fp (u32 len) s;
  if buf_size len <? Z.of_nat (length b) then Fail BadPtr else
  if ret <? 0 then Done (ret, [], s) else
  '(ret, n) ← to_user_checks buf 1 ret (cr3 s) (pg s);
  Done (ret, take (Z.to_nat n) b, s).

(** [b]: the bytes at [buf]; [junk]: what [kmalloc] left in the buffer. *)
Definition kwrite (junk : Z → list Z) (fd buf : Z) (b : list Z) (len : Z) (p : vproc) (s : vst) : outcome (Z * vst) :=
  fp ← fd_file fd p;
  if fp =? 0 then Done (- EBADF, s) else
  f ← file_at fp s;
  if negb (has (f_flags f) FWRITE) then Done (- EACCES, s) else
  let '(ret, n) := from_user_checks 1 buf len in
  if ret <? 0 then Done (ret, s) else
  vfs_write fp (if n =? 0 then junk len else take (Z.to_nat n) b) s.

(** The vectors: base and length; [nr_seg++] comes before the element is used. *)
Fixpoint iov_check (n : nat) (seg iovcnt : Z) (wr : bool) (iov : list (Z * Z)) (tot : Z) (s : vst) : outcome (option Z) :=
  match n with
  | O => Done (Some tot)
  | S n =>
      '(base, l) ← deref (nthZ iov (seg + 1));
      let len := s32 l in
      if len <? 0 then Done None else
      ret ← (if wr then probe_for_write base (u32 len) (cr3 s) (pg s) else Done (probe_for_read base len));
      if ret <? 0 then Done None else
      let tot := s32 (tot + len) in
      if tot <? 0 then Done None else iov_check n (seg + 1) iovcnt wr iov tot s
  end.
Fixpoint readv_loop (n : nat) (seg fd : Z) (iov : list (Z * Z)) (tot : Z) (out : list (Z * list Z)) (p : vproc) (s : vst)
    : outcome (Z * list (Z * list Z) * vst) :=
  match n with
  | O => Done (tot, out, s)
  | S n =>
      '(base, len) ← deref (nthZ iov (seg + 1));
      '(ret, b, s) ← kread fd base (s32 len) p s;
      if ret <? 0 then Done (ret, out, s) else
      readv_loop n (seg + 1) fd iov (s32 (tot + ret)) (out ++ [(base, b)]) p s
  end.
(** [iov]: the [iovcnt] vectors of the user; [junk]: the rest of the array on the stack. *)
Definition iov_array (junk : list (Z * Z)) (iov : list (Z * Z)) (iovcnt : Z) : list (Z * Z) :=
  if iovcnt <=? 8 then iov ++ drop (length iov) junk else iov.
Definition kreadv (junk : list (Z * Z)) (fd uiov : Z) (iov : list (Z * Z)) (iovcnt : Z) (p : vproc) (s : vst)
    : outcome (Z * list (Z * list Z) * vst) :=
  if (1024 <? iovcnt) || (iovcnt <=? 0) then Done (- EINVAL, [], s) else
  if (from_user_checks 1 uiov (iovcnt * 8)).1 <? 0 then Done (- EFAULT, [], s) else
  let a := iov_array junk iov iovcnt in
  o ← iov_check (Z.to_nat iovcnt) 0 iovcnt true a 0 s;
  match o with
  | None => Done (- EINVAL, [], s)
  | Some tot => if tot =? 0 then Done (0, [], s) else readv_loop (Z.to_nat iovcnt) 0 fd a 0 [] p s
  end.

Fixpoint writev_loop (junk : Z → list Z) (user : Z → list Z) (n : nat) (seg fd : Z) (iov : list (Z * Z)) (tot : Z) (p : vproc) (s : vst)
    : outcome (Z * vst) :=
  match n with
  | O => Done (tot, s)
  | S n =>
      '(base, len) ← deref (nthZ iov (seg + 1));
      '(ret, s) ← kwrite junk fd base (user base) (s32 len) p s;
      if ret <? 0 then Done (ret, s) else writev_loop junk user n (seg + 1) fd iov (s32 (tot + ret)) p s
  end.
(** [user]: the bytes from an address of the user on. *)
Definition kwritev (junk : Z → list Z) (jv : list (Z * Z)) (user : Z → list Z) (fd uiov : Z) (iov : list (Z * Z)) (iovcnt : Z)
    (p : vproc) (s : vst) : outcome (Z * vst) :=
  if (1024 <? iovcnt) || (iovcnt <=? 0) then Done (- EINVAL, s) else
  if (from_user_checks 1 uiov (iovcnt * 8)).1 <? 0 then Done (- EFAULT, s) else
  let a := iov_array jv iov iovcnt in
  o ← iov_check (Z.to_nat iovcnt) 0 iovcnt false a 0 s;
  match o with
  | None => Done (- EINVAL, s)
  | Some tot => if tot =? 0 then Done (0, s) else writev_loop junk user (Z.to_nat iovcnt) 0 fd a 0 p s
  end.

(** [dev_open]: [vfs_open_dev], which asks the driver of a device.  [file0] as above. *)
Definition kopen (dev_open : list Z → Z → vst → outcome (Z * Z * vst)) (file0 : Z) (path : list Z) (flag mode : Z)
    (p : vproc) (s : vst) : outcome (Z * vproc * vst) :=
  if 1024 <? open_files (pr p) then Done (- EMFILE, p, s) else
  if nofile_max (pr p) <? u32 (open_files (pr p)) then Done (- ENFILE, p, s) else
  let finish fp s := '(ret, x, k) ← open_fd fp (pr p) (ks s); Done (ret, with_pr x p, with_ks k s) in
  match path with
  | 47 :: _ =>
      match skip_slash path with
      | 100 :: 101 :: 118 :: _ =>
          '(ret, fp, s) ← dev_open path flag s; if ret <? 0 then Done (ret, p, s) else finish fp s
      | _ =>
          rootv ← vfs_get_rootv s;
          if rootv =? 0 then Done (- ENODEV, p, s) else
          if has flag O_CREAT then
            '(ret, fp, s) ← vfs_create file0 rootv path mode s;
            if ret <? 0 then Done (ret, p, s) else
            f ← file_at fp s;
            finish fp (put_file fp (set_flags (Z.land flag (Z.lnot O_CREAT)) f) s)
          else
            '(ret, fp, s) ← vfs_open file0 rootv path flag s; if ret <? 0 then Done (ret, p, s) else finish fp s
      end
  | _ =>
      cwd ← file_at (p_curr_cwd p) s;
      '(ret, fp, s) ← vfs_open file0 (f_vnode cwd) path flag s; if ret <? 0 then Done (ret, p, s) else finish fp s
  end.

Definition close_fd (fd : Z) (p : vproc) (s : vst) : outcome (Z * vproc * vst) :=
  '(ret, x, k) ← kclose fd (pr p) (ks s); Done (ret, with_pr x p, with_ks k s).

Definition klseek (fd offset whence : Z) (p : vproc) (s : vst) : outcome (Z * vst) :=
  fp ← fd_file fd p; if fp =? 0 then Done (- EBADF, s) else vfs_seek fp offset whence s.

Definition kfstat (ops_fstat : option (file_t → F → outcome (Z * list Z * F))) (fd : Z) (p : vproc) (s : vst) : outcome (Z * list Z * vst) :=
  fp ← fd_file fd p;
  if fp =? 0 then Done (- EBADF, [], s) else
  '(ret, st, s) ← vfs_fstat ops_fstat fp s; if ret <? 0 then Done (ret, [], s) else Done (0, st, s).

Definition kstat (path : list Z) (s : vst) : outcome (Z * list Z * vst) :=
  rootv ← vfs_get_rootv s;
  if rootv =? 0 then Done (- ENODEV, [], s) else
  '(r, s) ← vfs_path_lookup rootv path s;
  match r with
  | None => Done (- ENOENT, [], s)
  | Some (pv, suffix) =>
      v ← vnode_at pv s;
      '(ret, st, s) ←
        match mo_stat with
        | Some op => '(ret, st, fs) ← op v suffix (cur_fs s); Done (if ret <? 0 then ret else 0, st, with_fs fs s)
        | None => Done (- ENOSYS, [], s)
        end;
      s ← (if pv =? rootv then Done s else vfs_free_vnode pv s);
      Done (ret, st, s)
  end.

Definition kunlink (path : list Z) (s : vst) : outcome (Z * vst) :=
  rootv ← vfs_get_rootv s;
  if rootv =? 0 then Done (- ENODEV, s) else
  '(r, s) ← vfs_path_lookup rootv path s;
  match r with
  | None => Done (- ENOENT, s)
  | Some (pv, suffix) =>
      v ← vnode_at pv s;
      '(ret, fs) ← mo_delete v suffix (cur_fs s);
      s ← vfs_free_vnode pv (with_fs fs s);
      Done (if ret <? 0 then ret else 0, s)
  end.

Definition kmkdir (file0 : Z) (path : list Z) (mode : Z) (s : vst) : outcome (Z * vst) :=
  rootv ← vfs_get_rootv s;
  '(ret, fp, s) ← vfs_create file0 rootv path (Z.lor mode S_IFDIR) s;
  if ret <? 0 then Done (ret, s) else close_file fp s.

Definition kchdir (file0 : Z) (path : list Z) (p : vproc) (s : vst) : outcome (Z * vproc * vst) :=
  '(ret, fp, s) ← vfs_open file0 (p_currdir p) path O_RDWR s;
  if ret <? 0 then Done (ret, p, s) else
  f ← file_at fp s;
  if negb (S_ISDIR (f_type f)) then '(_, s) ← close_file fp s; Done (- ENOTDIR, p, s) else
  '(_, s) ← (if p_old_cwd p =? 0 then Done (0, s) else close_file (p_old_cwd p) s);
  Done (0, mk_vproc (pr p) (p_currdir p) fp (p_curr_cwd p) (uid p), s).

Definition kfchdir (fd : Z) (p : vproc) (s : vst) : outcome (Z * vproc * vst) :=
  if (fd <? 0) || (1024 <? fd) then Done (- EBADF, p, s) else
  fp ← fd_file fd p;
  if fp =? 0 then Done (- EBADF, p, s) else
  f ← file_at fp s;
  if negb (S_ISDIR (f_type f)) then Done (- ENOTDIR, p, s) else
  Done (0, mk_vproc (pr p) (f_vnode f) fp (p_old_cwd p) (uid p), s).

(** The entries of a directory, as its bytes. *)
Definition read_dir (fp size : Z) (s : vst) : outcome (Z * list Z * vst) :=
  f ← file_at fp s;
  v ← vnode_at (f_vnode f) s;
  op ← deref (fo_read f);
  '(ret, b, f, fs) ← op (Z.min (u32 size) (v_size v)) (cur_fs s);
  Done (ret, b, put_file fp f (with_fs fs s)).
Definition kgetdents (fd size : Z) (p : vproc) (s : vst) : outcome (Z * list Z * vst) :=
  fp ← fd_file fd p;
  if fp =? 0 then Done (- EBADF, [], s) else
  f ← file_at fp s;
  if negb (S_ISDIR (f_type f)) then Done (- ENOTDIR, [], s) else read_dir fp size s.
Definition kgetdirentries (fd nbytes basep : Z) (p : vproc) (s : vst) : outcome (Z * list Z * vst) :=
  fp ← fd_file fd p;
  if fp =? 0 then Done (- EBADF, [], s) else
  f ← file_at fp s;
  if negb (S_ISDIR (f_type f)) then Done (- ENOTDIR, [], s) else
  read_dir fp nbytes (put_file fp (set_pos basep f) s).

Definition vfs_statfs (pv : Z) (s : vst) : outcome (Z * list Z * vst) :=
  v ← vnode_at pv s;
  match mo_statfs with
  | None => Done (- ENOSYS, [], s)
  | Some op => '(ret, b, fs) ← op v (cur_fs s); Done (ret, b, with_fs fs s)
  end.
Definition kfstatfs (fd : Z) (p : vproc) (s : vst) : outcome (Z * list Z * vst) :=
  if (fd <? 0) || (1024 <? fd) then Done (- EINVAL, [], s) else
  fp ← fd_file fd p;
  if fp =? 0 then Done (- EBADF, [], s) else f ← file_at fp s; vfs_statfs (f_vnode f) s.

Definition vfs_fsync (pv : Z) (s : vst) : outcome (Z * vst) :=
  v ← vnode_at pv s;
  mt ← deref (mounts s !! v_mp v);
  if negb (has (mp_flags mt) FWRITE) then Done (- EROFS, s) else
  match mo_sync with Some op => '(ret, fs) ← op v (cur_fs s); Done (ret, with_fs fs s) | None => Done (- EINVAL, s) end.
Definition kfsync (fd : Z) (p : vproc) (s : vst) : outcome (Z * vst) :=
  if (fd <? 0) || (1024 <? fd) then Done (- EINVAL, s) else
  fp ← fd_file fd p;
  if fp =? 0 then Done (- EBADF, s) else f ← file_at fp s; vfs_fsync (f_vnode f) s.

Definition vfs_ftruncate (pv : Z) (s : vst) : outcome Z :=
  v ← vnode_at pv s; if negb (has (v_mode v) 128) then Done (- EPERM) else Done 0.
Definition kftruncate (fd len : Z) (p : vproc) (s : vst) : outcome Z :=
  if (fd <? 0) || (1024 <? fd) then Done (- EINVAL) else
  fp ← fd_file fd p;
  if fp =? 0 then Done (- EBADF) else
  f ← file_at fp s;
  if negb (has (f_flags f) FWRITE) then Done (- EPERM) else
  if S_ISDIR (f_type f) then Done (- EISDIR) else
  if negb (has (f_type f) S_IWUSR) then Done (- EPERM) else
  if has (f_flags f) O_APPEND then Done (- EPERM) else
  v ← vnode_at (f_vnode f) s;
  if negb (v_uid v =? uid p) && negb (uid p =? 0) then Done (- EACCES) else
  if (MAX_NON_LFS <? u32 len) && negb (has (f_flags f) O_LARGEFILE) then Done (- EINVAL) else
  vfs_ftruncate (f_vnode f) s.

Definition kstatfs dev_open (file0 : Z) (path : list Z) (p : vproc) (s : vst) : outcome (Z * list Z * vproc * vst) :=
  '(fd, p, s) ← kopen dev_open file0 path O_RDONLY 0 p s;
  if fd <? 0 then Done (fd, [], p, s) else
  fp ← fd_file fd p;
  '(ret, b, s) ← (if fp =? 0 then Done (- EBADF, [], s) else
    f ← file_at fp s; '(ret, b, s) ← vfs_statfs (f_vnode f) s; Done (if ret <? 0 then ret else 0, b, s));
  '(_, p, s) ← close_fd fd p s; Done (ret, b, p, s).

(** [now]: the seconds of [xtime]; [tval]: the times, if they are given. *)
Definition kutimes dev_open (file0 now : Z) (path : list Z) (tval : option ((Z * Z) * (Z * Z))) (p : vproc) (s : vst)
    : outcome (Z * vproc * vst) :=
  '(fd, p, s) ← kopen dev_open file0 path O_RDWR 0 p s;
  if fd <? 0 then Done (fd, p, s) else
  fp ← fd_file fd p;
  if fp =? 0 then Done (- EBADF, p, s) else
  f ← file_at fp s;
  v ← vnode_at (f_vnode f) s;
  '(ret, s) ←
    (if negb (v_uid v =? uid p) && negb (uid p =? 0) then Done (- EACCES, s) else
     if negb (has (f_type f) S_IWUSR) then Done (- EPERM, s) else
     s ← upd_vnode (f_vnode f) (λ v, match tval with
       | Some ((a, au), (m, mu)) => set_times (a + Z.quot (Z.quot au 1000) 1000) (m + Z.quot (Z.quot mu 1000) 1000) v
       | None => set_times now now v end) s;
     '(ret, s) ← kfsync fd p s; Done (if ret <? 0 then ret else 0, s));
  '(_, p, s) ← close_fd fd p s; Done (ret, p, s).

Definition kchmod (file0 : Z) (path : list Z) (mode : Z) (p : vproc) (s : vst) : outcome (Z * vst) :=
  pv ← match path with
       | 47 :: _ => vfs_get_rootv s
       | _ => cwd ← file_at (p_curr_cwd p) s; Done (f_vnode cwd)
       end;
  '(ret, fp, s) ← vfs_open file0 pv path O_RDWR s;
  if ret <? 0 then Done (ret, s) else
  f ← file_at fp s;
  s ← upd_vnode (f_vnode f) (set_mode (Z.land mode (Z.lnot S_IFMT))) s;
  '(ret, s) ← vfs_fsync (f_vnode f) s;
  '(_, s) ← close_file fp s; Done (ret, s).

Definition set_type (t : Z) (f : file_t) : file_t :=
  mk_file (f_ops f) (u32 t) (f_flags f) (f_curr_pos f) (f_end_pos f) (f_refcnt f) (f_vnode f).
Definition kfchmod (fd mode : Z) (p : vproc) (s : vst) : outcome (Z * vst) :=
  if (fd <? 0) || (1024 <? fd) then Done (- EINVAL, s) else
  fp ← fd_file fd p;
  if fp =? 0 then Done (- EBADF, s) else
  f ← file_at fp s;
  let f := set_type (Z.lor (f_type f) (Z.land mode (Z.lnot S_IFMT))) f in
  let s := put_file fp f s in
  if S_ISSOCK (f_type f) then Done (0, s) else
  s ← upd_vnode (f_vnode f) (set_mode mode) s;
  vfs_fsync (f_vnode f) s.

End vfs.

(** ** The components of a path *)

Fixpoint tokens (p : list Z) : list (list Z) :=
  match p with
  | [] => [[]]
  | c :: q => if c =? 47 then [] :: tokens q else match tokens q with t :: ts => (c :: t) :: ts | [] => [[c]] end
  end.
Definition names (p : list Z) : list (list Z) := filter (λ t, t ≠ []) (tokens p).
Definition no_lead (p : list Z) : Prop := match p with c :: _ => c ≠ 47 | [] => True end.

Lemma tokens_ne p : tokens p ≠ [].
Proof. destruct p as [|c q]; cbn; [done|]. destruct (c =? 47); [done|]. by destruct (tokens q). Qed.

Lemma skip_slash_tokens p : ∃ k, tokens p = replicate k [] ++ tokens (skip_slash p).
Proof.
  induction p as [|c q [k IH]]; cbn [skip_slash]; [by exists 0%nat|]. destruct (Z.eqb_spec c 47) as [->|Hc]; [|by exists 0%nat].
  exists (Datatypes.S k). cbn [tokens Z.eqb Pos.eqb]. by rewrite IH.
Qed.

Lemma skip_slash_lead p : no_lead (skip_slash p) ∧ (length (skip_slash p) <= length p)%nat.
Proof.
  induction p as [|c q [IH1 IH2]]; cbn [skip_slash]; [done|]. destruct (Z.eqb_spec c 47); [|done]. split; [done|cbn; lia].
Qed.

Lemma names_empties k (l : list (list Z)) : filter (λ t, t ≠ []) (replicate k [] ++ l) = filter (λ t, t ≠ []) l.
Proof. induction k as [|k IH]; [done|]. cbn [replicate app]. rewrite filter_cons, decide_False by (intros Hn; by apply Hn). apply IH. Qed.

Lemma skip_slash_names p : names (skip_slash p) = names p.
Proof. unfold names. destruct (skip_slash_tokens p) as [k ->]. by rewrite names_empties. Qed.

Lemma split_none p : split_slash p = None → tokens p = [p].
Proof.
  induction p as [|c q IH]; [done|]. cbn. destruct (c =? 47); [done|]. destruct (split_slash q) as [[a b]|]; [done|].
  intros _. by rewrite IH.
Qed.

Lemma split_some p : ∀ a b, split_slash p = Some (a, b) →
  (∃ k, tokens p = a :: replicate k [] ++ tokens b) ∧ no_lead b ∧ (length b < length p)%nat ∧ (no_lead p → a ≠ []).
Proof.
  induction p as [|c q IH]; intros a b; [done|]. cbn [split_slash]. destruct (Z.eqb_spec c 47) as [->|Hc].
  - intros [= <- <-]. destruct (skip_slash_lead q) as [H1 H2]. split; [|split; [done|split; [cbn; lia|done]]].
    destruct (skip_slash_tokens q) as [k Hk]. exists k. cbn [tokens Z.eqb Pos.eqb]. by rewrite Hk.
  - destruct (split_slash q) as [[a' b']|] eqn:Hq; [|done]. cbn [mbind option_bind]. intros [= <- <-].
    destruct (IH a' b' eq_refl) as ([k Hk] & H2 & H3 & _). split; [|split; [done|split; [cbn; lia|done]]].
    exists k. cbn [tokens]. rewrite (proj2 (Z.eqb_neq c 47)), Hk by done. done.
Qed.

Lemma split_names p a b : split_slash p = Some (a, b) → no_lead p →
  names p = a :: names b ∧ no_lead b ∧ (length b < length p)%nat ∧ a ≠ [].
Proof.
  intros Hs Hl. destruct (split_some p a b Hs) as ([k Hk] & Hb & Hlen & Ha). split; [|auto].
  unfold names. rewrite Hk, filter_cons, decide_True by auto. by rewrite names_empties.
Qed.

Lemma names_nil p : names p = [] → no_lead p → p = [].
Proof.
  intros Hn Hl. destruct (split_slash p) as [[a b]|] eqn:Hs.
  - destruct (split_names p a b Hs Hl) as [Hn' _]. congruence.
  - destruct p as [|c q]; [done|]. unfold names in Hn. rewrite split_none, filter_cons, decide_True in Hn by done. done.
Qed.

Lemma names_head p : no_lead p → head (names p) ≫= head = head p.
Proof.
  intros Hl. destruct p as [|c q]; [done|]. cbn in Hl. unfold names. cbn [tokens]. rewrite (proj2 (Z.eqb_neq c 47)) by done.
  destruct (tokens q); rewrite filter_cons, decide_True by done; done.
Qed.

Section walk.
Context {F I : Type} `{FileOps F} `{MountOps F} `{IdAlloc I}.
Implicit Types (s : vst (F := F)).

(** The directories that the components of a path lead through: every lookup but that of
    ["."] goes one down; [blank] is the vnode that the number is put into. *)
Fixpoint walk_dirs (cs : list (list Z)) (blank v : vnode_t) (fs : F) : outcome (option vnode_t * F) :=
  match cs with
  | [] => Done (Some v, fs)
  | c :: cs =>
      if decide (c = [46]) then walk_dirs cs blank v fs else
      '(ret, id, fs) ← mo_lookup v c fs;
      if ret <? 0 then Done (None, fs) else walk_dirs cs blank (set_id id blank) fs
  end.

(** A component that [vfs_path_lookup] takes for a name, or is ["."]. The code treats two others apart: [".."], which it recognises but
    takes for the directory that the last lookup overwrote ([dotdot_stays]), and one that begins with a newline, in front of which it
    stops as at the end of the path. *)
Definition plain (c : list Z) : Prop := c ≠ [46; 46] ∧ head c ≠ Some 10.

Definition moved s (nx j : Z) (blank : vnode_t) (fs : F) : vst := with_vnodes (<[nx := set_id j blank]> (vnodes s)) (with_fs fs s).

Lemma moved_twice s nx i j blank fs fs' : moved (moved s nx i blank fs) nx j blank fs' = moved s nx j blank fs'.
Proof. unfold moved, with_vnodes. cbn. by rewrite insert_insert_eq. Qed.

Lemma last_split (c : list Z) cs ini lst : c :: cs = ini ++ [lst] → (cs = [] ∧ ini = [] ∧ lst = c) ∨ ∃ ini', ini = c :: ini' ∧ cs = ini' ++ [lst].
Proof. destruct ini as [|d ini]; cbn; intros [= -> ->]; [left|right]; eauto. Qed.

Lemma with_fs_id s : with_fs (cur_fs s) s = s.
Proof. by destruct s as [[] ? ? ? ? ?]. Qed.

Lemma next_head b ini lst : no_lead b → names b = ini ++ [lst] → Forall plain (ini ++ [lst]) →
  match b with [] => true | c :: _ => c =? 10 end = false.
Proof.
  intros Hb Hn Hp. pose proof (names_head b Hb) as Hh. rewrite Hn in Hh. destruct b as [|c b]; [by destruct ini|].
  apply Z.eqb_neq. intros ->. destruct ini as [|d ini]; cbn in Hh; apply Forall_cons in Hp as [[_ Hp] _]; congruence.
Qed.

(** No file has the number 0. *)
Hypothesis nonzero : ∀ v c fs ret id fs', mo_lookup v c fs = Done (ret, id, fs') → 0 <= ret → id ≠ 0.

(** The loop is the walk through all components but the last; the one vnode that the lookups
    fill in is the one that is returned, unless there were none. *)
Lemma path_loop_walk nx blank fuel : ∀ p ini lst cur pnt j v s, (length p < fuel)%nat → no_lead p → names p = ini ++ [lst] →
  Forall plain (ini ++ [lst]) → lst ≠ [46] → vnodes s !! nx = Some (set_id j blank) → vnodes s !! cur = Some v →
  match walk_dirs ini blank v (cur_fs s) with
  | Done (Some v', fs') => ∃ s' c', path_loop fuel p cur pnt nx s = Done (Some (c', lst), s') ∧ vnodes s' !! c' = Some v' ∧
      ((s' = with_fs fs' s ∧ c' = cur ∧ ini = filter (λ c, c = [46]) ini) ∨
       ∃ id, s' = moved s nx id blank fs' ∧ c' = nx ∧ v' = set_id id blank ∧ id ≠ 0)
  | Done (None, fs') => ∃ s', path_loop fuel p cur pnt nx s = Done (None, s') ∧ is_Some (vnodes s' !! nx) ∧
      with_vnodes (delete nx (vnodes s')) s' = with_vnodes (delete nx (vnodes s)) (with_fs fs' s)
  | Fail e => path_loop fuel p cur pnt nx s = Fail e
  end.
Proof.
  induction fuel as [|fuel IH]; intros p ini lst cur pnt j v s Hlen Hlead Hnames Hpl Hdot Hnx Hcur; [lia|].
  cbn [path_loop]. destruct (split_slash p) as [[a b]|] eqn:Hs.
  2: { assert (p ≠ []) as Hp by (intros ->; by destruct ini). unfold names in Hnames.
    rewrite split_none, filter_cons, decide_True in Hnames by done. destruct ini as [|c ini]; [|by destruct ini].
    injection Hnames as <-. cbn [walk_dirs]. rewrite with_fs_id. exists s, cur. split; [done|]. split; [done|]. by left. }
  destruct (split_names p a b Hs Hlead) as (Hn & Hb & Hlb & Ha). rewrite Hn in Hnames.
  destruct (last_split a (names b) ini lst Hnames) as [(Hnb & -> & ->)|(ini' & -> & Hnb)].
  - apply names_nil in Hnb as ->; [|done]. cbn [app] in Hpl. apply Forall_cons in Hpl as [[Hpp _] _].
    rewrite decide_False, decide_False by done. cbn [walk_dirs]. rewrite with_fs_id. exists s, cur. split; [done|]. split; [done|]. by left.
  - cbn [app] in Hpl. apply Forall_cons in Hpl as [[Hpp _] Hpl]. cbn [walk_dirs]. rewrite (next_head b ini' lst Hb Hnb Hpl).
    rewrite (decide_False (P := a = [46; 46])) by done. case_decide as Hd.
    { specialize (IH b ini' lst cur pnt j v s ltac:(lia) Hb Hnb Hpl Hdot Hnx Hcur).
      destruct (walk_dirs ini' blank v (cur_fs s)) as [[[v'|] fs']|e]; [|done|done].
      destruct IH as (s' & c' & Hr & Hv & Hor). exists s', c'. split; [done|]. split; [done|].
      destruct Hor as [(-> & -> & Hf)|?]; [left|by right]. split; [done|]. split; [done|]. by rewrite filter_cons, decide_True, <- Hf by done. }
    unfold vnode_at. rewrite Hcur. cbn [deref]. rewrite bind_done.
    destruct (mo_lookup v a (cur_fs s)) as [[[ret id] fs1]|e] eqn:Hlk; [|done]. rewrite !bind_done. destruct (Z.ltb_spec ret 0) as [|Hret].
    { exists (with_fs fs1 s). split; [done|]. split; [eauto|done]. }
    unfold upd_vnode, vnode_at. cbn [vnodes with_fs with_ks]. rewrite Hnx. cbn [deref]. rewrite bind_done.
    change (with_vnodes (<[nx := set_id id (set_id j blank)]> (vnodes s)) (with_fs fs1 s)) with (moved s nx id blank fs1).
    specialize (IH b ini' lst nx cur id (set_id id blank) (moved s nx id blank fs1) ltac:(lia) Hb Hnb Hpl Hdot).
    specialize (IH (lookup_insert_eq _ _ _) (lookup_insert_eq _ _ _)). change (cur_fs (moved s nx id blank fs1)) with fs1 in IH.
    destruct (walk_dirs ini' blank (set_id id blank) fs1) as [[[v'|] fs']|e]; [| |done].
    + destruct IH as (s' & c' & Hr & Hv & Hor). exists s', c'. split; [done|]. split; [done|]. right.
      destruct Hor as [(-> & -> & _)|(id' & -> & -> & -> & Hid)].
      * exists id. split; [done|]. split; [done|]. cbn in Hv. rewrite lookup_insert_eq in Hv. injection Hv as Hv. split; [done|].
        by apply (nonzero _ _ _ _ _ _ Hlk).
      * exists id'. by rewrite moved_twice.
    + destruct IH as (s' & Hr & Hsome & He). exists s'. split; [done|]. split; [done|]. rewrite He. unfold moved, with_vnodes. cbn.
      by rewrite delete_insert_eq.
Qed.

Lemma names_slash q : names (47 :: q) = names (skip_slash q).
Proof. rewrite skip_slash_names. unfold names. cbn [tokens Z.eqb Pos.eqb]. rewrite filter_cons, decide_False; [done|]. intros Hn. by apply Hn. Qed.

(** Where a path starts, and what of it is left to walk. *)
Definition path_start (pv : Z) (x : vnode_t) (path : list Z) s : option (list Z * Z) :=
  match path with 47 :: q => mt ← mounts s !! v_mp x; Some (skip_slash q, mp_vnode mt) | _ => Some (path, pv) end.

Lemma path_start_names pv x path s p cur : path_start pv x path s = Some (p, cur) → names p = names path ∧ no_lead p.
Proof.
  unfold path_start. destruct path as [|c q]; [by intros [= <- <-]|].
  destruct (decide (c = 47)) as [->|Hc].
  - destruct (mounts s !! v_mp x); [|done]. cbn [mbind option_bind]. intros [= <- <-]. rewrite names_slash. split; [done|apply skip_slash_lead].
  - intros Hp. assert (Some (c :: q, pv) = Some (p, cur)) as [= <- <-]; [|by split]. rewrite <- Hp. by repeat case_match.
Qed.

Lemma free_vnode_ok a y s : vnodes s !! a = Some y → a ≠ 0 → vfs_free_vnode a s = Done (with_vnodes (delete a (vnodes s)) s).
Proof. intros Hy Ha. unfold vfs_free_vnode, vnode_at. by rewrite (proj2 (Z.eqb_neq a 0)), Hy. Qed.

(** C39: resolving a path none of whose components is [".."] or begins with a newline, and whose last one is
    not ["."] and is shorter than NAME_MAX, with memory for a vnode, is the walk through the directories of
    its components, one lookup for each but the last and none for ["."], from the root of the mount or from
    the given directory: the directory that is returned has the vnode the walk arrives at, and the last
    component is returned with it; if a component is not found no vnode stays behind, and in either case no
    vnode but the new one is changed; where a lookup faults, so does the resolution. (With [".."] the code
    stays where the last lookup led: [dotdot_stays].) *)
Theorem path_lookup_walks pv x path s p cur v ini lst a l :
  vnodes s !! pv = Some x → path_start pv x path s = Some (p, cur) → vnodes s !! cur = Some v →
  heap (ks s) = a :: l → vnodes s !! a = None → a ≠ 0 →
  names path = ini ++ [lst] → Forall plain (ini ++ [lst]) → lst ≠ [46] → Z.of_nat (length lst) < NAME_MAX →
  match walk_dirs ini (mk_vnode (v_device x) 0 0 0 0 0 (v_mp x) 0 0 0) v (cur_fs s) with
  | Done (Some v', fs') => ∃ c s', vfs_path_lookup pv path s = Done (Some (c, lst), s') ∧ vnodes s' !! c = Some v' ∧
      cur_fs s' = fs' ∧ files (ks s') = files (ks s) ∧ ∀ q, q ≠ a → vnodes s' !! q = vnodes s !! q
  | Done (None, fs') => ∃ s', vfs_path_lookup pv path s = Done (None, s') ∧ cur_fs s' = fs' ∧
      files (ks s') = files (ks s) ∧ vnodes s' = vnodes s
  | Fail e => vfs_path_lookup pv path s = Fail e
  end.
Proof.
  intros Hpv Hst Hcur Hheap Ha Ha0 Hn Hpl Hdot Hlen. destruct (path_start_names _ _ _ _ _ _ Hst) as [Hnames Hlead].
  unfold vfs_path_lookup, vnode_at. rewrite Hpv. cbn [deref]. rewrite bind_done.
  assert ((match path with 47 :: q => mt ← deref (mounts s !! v_mp x); Done (skip_slash q, mp_vnode mt) | _ => Done (path, pv) end)
    = Done (p, cur)) as ->.
  { unfold path_start in Hst. repeat case_match; simplify_eq; try done. destruct (mounts s !! v_mp x); [|done]. cbn in *. congruence. }
  rewrite bind_done. set (blank := mk_vnode (v_device x) 0 0 0 0 0 (v_mp x) 0 0 0).
  unfold vfs_alloc_vnode, kzalloc. rewrite Hheap, !bind_done.
  set (s1 := with_vnodes (<[a := blank]> _) _). assert (a ≠ cur) as Hac by congruence.
  pose proof (path_loop_walk a blank (Datatypes.S (length p)) p ini lst cur cur 0 v s1 ltac:(lia) Hlead) as Hw.
  rewrite Hnames in Hw. specialize (Hw Hn Hpl Hdot (lookup_insert_eq _ _ _)). 
  assert (vnodes s1 !! cur = Some v) as Hcur1 by (unfold s1; cbn; by rewrite lookup_insert_ne). specialize (Hw Hcur1).
  change (cur_fs s1) with (cur_fs s) in Hw. destruct (walk_dirs ini blank v (cur_fs s)) as [[[v'|] fs']|e].
  - destruct Hw as (s' & c' & -> & Hv & Hor). rewrite bind_done.
    destruct Hor as [(-> & -> & _)|(id & -> & -> & -> & Hid)].
    + assert (vnodes (with_fs fs' s1) !! a = Some blank) as Hb by apply lookup_insert_eq. rewrite Hb. cbn [deref].
      rewrite bind_done, (proj2 (Z.eqb_eq _ 0)), (free_vnode_ok a blank _ Hb Ha0), bind_done by done.
      rewrite (proj2 (Z.leb_gt NAME_MAX _)) by done. do 2 eexists. split; [done|]. cbn [vnodes with_vnodes with_fs with_ks].
      split; [by rewrite lookup_delete_ne|]. split; [done|]. split; [done|]. intros q Hq. unfold s1. cbn.
      by rewrite lookup_delete_ne, lookup_insert_ne by done.
    + assert (vnodes (moved s1 a id blank fs') !! a = Some (set_id id blank)) as Hb by apply lookup_insert_eq. rewrite Hb.
      cbn [deref]. rewrite bind_done, (proj2 (Z.eqb_neq (v_id (set_id id blank)) 0)), bind_done by done.
      rewrite (proj2 (Z.leb_gt NAME_MAX _)) by done. do 2 eexists. split; [done|]. split; [apply lookup_insert_eq|].
      split; [done|]. split; [done|]. intros q Hq. unfold s1. cbn. by rewrite !lookup_insert_ne by done.
  - destruct Hw as (s' & -> & [y Hy] & He). rewrite bind_done, (free_vnode_ok a y), bind_done by done. rewrite He.
    eexists. split; [done|]. split; [done|]. split; [done|]. unfold s1. cbn. rewrite delete_insert_id; done.
  - by rewrite Hw.
Qed.
End walk.

(** ** Access modes *)

Section access.
Context {F I : Type} `{FileOps F} `{MountOps F} `{IdAlloc I}.
Implicit Types (s : vst (F := F)) (p : vproc (I := I)).

Lemma land_flags fl flag m : Z.land m 3 = m → Z.land (Z.lor (Z.lor 0 fl) (Z.land flag (Z.lnot O_ACCMODE))) m = Z.land fl m.
Proof.
  intros Hm. apply Z.bits_inj'. intros n Hn. rewrite <- Hm, !Z.land_spec, !Z.lor_spec, Z.land_spec, Z.lnot_spec, Z.bits_0 by done.
  unfold O_ACCMODE. destruct (Z.testbit 3 n), (Z.testbit fl n), (Z.testbit m n), (Z.testbit flag n); done.
Qed.

Lemma has_flags fl flag m : 0 < m <= 3 → has (u32 (Z.lor (Z.lor 0 fl) (Z.land flag (Z.lnot O_ACCMODE)))) m = has fl m.
Proof.
  intros Hm. unfold has. do 2 f_equal. rewrite <- (land_flags fl flag m) by (assert (m = 1 ∨ m = 2 ∨ m = 3) as [->|[->| ->]] by lia; done).
  apply Z.bits_inj'. intros n Hn. rewrite !Z.land_spec. destruct (decide (n < 32)).
  - unfold u32. by rewrite Z.mod_pow2_bits_low by lia.
  - rewrite <- (Z.mod_small m (2 ^ 32)) by lia. by rewrite (Z.mod_pow2_bits_high m), !andb_false_r by lia.
Qed.

(** What [vfs_open] promises of the file it opened: read and write as the access mode says,
    each only if the mode bits of the file allow it. *)
Record opened (flag : Z) (f : file_t) : Prop := {
  op_read : has (f_flags f) FREAD = bool_decide (Z.land flag O_ACCMODE = O_RDONLY ∨ Z.land flag O_ACCMODE = O_RDWR);
  op_write : has (f_flags f) FWRITE = bool_decide (Z.land flag O_ACCMODE = O_WRONLY ∨ Z.land flag O_ACCMODE = O_RDWR);
  op_rperm : has (f_flags f) FREAD = true → has (f_type f) S_IRUSR = true;
  op_wperm : has (f_flags f) FWRITE = true → has (f_type f) S_IWUSR = true }.

(** The file systems open a file without flags. *)
Hypothesis open_plain : ∀ v c flag fs ret o fs', mo_open v c flag fs = Done (ret, o, fs') →
  0 <= ret → ∃ f ov, o = Some (f, ov) ∧ f_flags f = 0.

Lemma install_file pv f ov s fp s' : install pv (f, ov) s = Done (fp, s') →
  ∃ g, files (ks s') !! fp = Some g ∧ f_flags g = f_flags f ∧ f_type g = f_type f.
Proof.
  unfold install. intros Hi. run_inv Hi. destruct r as [a s1]. run_inv Hi. destruct r as [v s2]. injection Hi as <- <-.
  eexists. split; [apply lookup_insert_eq|done].
Qed.

(** The end of [vfs_open]: the access mode becomes flags of the file. *)
Definition mode_flags (acc : Z) : Z :=
  if acc =? O_RDWR then Z.lor FREAD FWRITE else if acc =? O_WRONLY then FWRITE else if acc =? O_RDONLY then FREAD else 0.

Lemma opened_flags flag f : f_flags f = 0 →
  (Z.land flag O_ACCMODE = O_RDWR → Z.land (f_type f) (Z.lor S_IWUSR S_IRUSR) = Z.lor S_IWUSR S_IRUSR) →
  (Z.land flag O_ACCMODE = O_WRONLY → has (f_type f) S_IWUSR = true) →
  (Z.land flag O_ACCMODE = O_RDONLY → has (f_type f) S_IRUSR = true) →
  opened flag (set_flags (Z.lor (Z.lor (f_flags f) (mode_flags (Z.land flag O_ACCMODE))) (Z.land flag (Z.lnot O_ACCMODE))) f).
Proof.
  intros Hf Hrw Hw Hr. assert (Z.land flag O_ACCMODE = 0 ∨ Z.land flag O_ACCMODE = 1 ∨ Z.land flag O_ACCMODE = 2 ∨ Z.land flag O_ACCMODE = 3) as Hc.
  { assert (Z.land flag O_ACCMODE = flag mod 4) as -> by (unfold O_ACCMODE; change 3 with (Z.ones 2); by rewrite Z.land_ones).
    pose proof (Z.mod_pos_bound flag 4). lia. }
  assert (Z.land (f_type f) (Z.lor S_IWUSR S_IRUSR) = Z.lor S_IWUSR S_IRUSR → has (f_type f) S_IRUSR = true ∧ has (f_type f) S_IWUSR = true) as Hboth.
  { intros Hl. change (has (f_type f) (2 ^ 8) = true ∧ has (f_type f) (2 ^ 7) = true). unfold has.
    rewrite !land_pow2_testbit by done. change (Z.land (f_type f) 384 = 384) in Hl.
    assert (Z.testbit (Z.land (f_type f) 384) 8 = true ∧ Z.testbit (Z.land (f_type f) 384) 7 = true) as [H8 H7] by (by rewrite Hl).
    rewrite Z.land_spec in H8, H7. apply andb_prop in H8 as [H8 _], H7 as [H7 _]. done. }
  split; unfold set_flags; cbn [f_flags f_type]; rewrite Hf, ?has_flags by (unfold FREAD, FWRITE; lia);
    destruct Hc as [Hc|[Hc|[Hc|Hc]]]; rewrite Hc in *; try done; intros _; auto; by apply Hboth, Hrw.
Qed.

(** C40: a file that [vfs_open] opens can be read from and written to just as the access mode
    of the call says, and never against the permission bits of the file: a process with a
    descriptor for it is refused by [kwrite] when it opened the file read only and by
    [kread] when it opened it write only. *)
Theorem open_access_mode file0 pv path flag s fp s' :
  vfs_open file0 pv path flag s = Done (0, fp, s') → fp ≠ 0 → 
  ∃ f, files (ks s') !! fp = Some f ∧ opened flag f ∧
    ∀ p fd, fd_file fd p = Done fp →
      (Z.land flag O_ACCMODE = O_RDONLY → ∀ junk buf b len, kwrite junk fd buf b len p s' = Done (- EACCES, s')) ∧
      (Z.land flag O_ACCMODE = O_WRONLY → ∀ buf len, kread fd buf len p s' = Done (- EACCES, [], s')).
Proof.
  intros Hop Hfp. unfold vfs_open in Hop. destruct (vfs_path_lookup pv path s) as [[r s1]|]; [|done]. rewrite bind_done in Hop.
  destruct r as [[vnode name]|]; [|done]. destruct (vnode_at vnode s1) as [v|]; [|done]. rewrite bind_done in Hop.
  destruct (mo_open v name flag (cur_fs s1)) as [[[ret o] fs1]|] eqn:Ho; [|done]. rewrite bind_done in Hop.
  destruct (match o with Some o => install vnode o (with_fs fs1 s1) | None => Done (file0, with_fs fs1 s1) end) as [[fp1 s2]|] eqn:Hi; [|done].
  rewrite bind_done in Hop. destruct (Z.ltb_spec ret 0) as [Hneg|Hpos].
  { run_inv Hop. destruct r as [? s3]. injection Hop as Hret _ _. lia. }
  destruct (open_plain _ _ _ _ _ _ _ Ho Hpos) as (f & ov & -> & Hfl). destruct (install_file _ _ _ _ _ _ Hi) as (g & Hg & Hgf & Hgt).
  unfold file_at in Hop at 1. rewrite Hg in Hop. cbn [deref] in Hop. rewrite bind_done in Hop.
  assert (∀ s4, ('(_, s3) ← close_file fp1 s4; Done (- EPERM, fp1, s3)) = Done (0, fp, s') → False) as Hne.
  { intros s4 Hn. run_inv Hn. destruct r as [? s3]. by injection Hn. }
  set (acc := Z.land flag O_ACCMODE) in *.
  destruct ((acc =? O_RDWR) && negb (Z.land (f_type g) (Z.lor S_IWUSR S_IRUSR) =? Z.lor S_IWUSR S_IRUSR)) eqn:Hc1; [by destruct (Hne _ Hop)|].
  destruct ((acc =? O_WRONLY) && negb (has (f_type g) S_IWUSR)) eqn:Hc2; [by destruct (Hne _ Hop)|].
  destruct ((acc =? O_RDONLY) && negb (has (f_type g) S_IRUSR)) eqn:Hc3; [by destruct (Hne _ Hop)|].
  fold (mode_flags acc) in Hop. unfold fget in Hop.
  destruct (Z.eqb_spec fp1 0) as [->|Hfp1]; [run_inv Hop; injection Hop as <- _; done|]. rewrite bind_done in Hop. injection Hop as <- <-.
  exists (set_flags (Z.lor (Z.lor (f_flags g) (mode_flags acc)) (Z.land flag (Z.lnot O_ACCMODE))) g).
  assert (opened flag (set_flags (Z.lor (Z.lor (f_flags g) (mode_flags acc)) (Z.land flag (Z.lnot O_ACCMODE))) g)) as Hopd.
  { apply opened_flags; [congruence|..]; intros Hacc; unfold acc in *; rewrite Hacc in *; cbn [Z.eqb andb] in *.
    - by apply Z.eqb_eq, negb_false_iff.
    - by apply negb_false_iff.
    - by apply negb_false_iff. }
  split; [apply lookup_insert_eq|]. split; [done|]. intros p fd Hfd. split; intros Hacc.
  - intros junk buf b len. unfold kwrite. rewrite Hfd, bind_done, (proj2 (Z.eqb_neq fp1 0)) by done.
    unfold file_at. cbn [ks put_file with_ks files with_files]. rewrite lookup_insert_eq. cbn [deref]. rewrite bind_done.
    rewrite (op_write _ _ Hopd), bool_decide_eq_false_2; [done|]. fold acc. rewrite Hacc. by intros [?|?].
  - intros buf len. unfold kread. rewrite Hfd, bind_done, (proj2 (Z.eqb_neq fp1 0)) by done.
    unfold file_at. cbn [ks put_file with_ks files with_files]. rewrite lookup_insert_eq. cbn [deref]. rewrite bind_done.
    rewrite (op_read _ _ Hopd), bool_decide_eq_false_2; [done|]. fold acc. rewrite Hacc. by intros [?|?].
Qed.
End access.

(** ** An example: directories named ["a"], files named ["b"], all with one contents *)

Definition ABSENT : Z := - ENOENT.
#[export] Instance demo_ops : FileOps (list Z) := {|
  fo_close f s := Done (0, None, s);
  fo_read f := Some (λ len s, let b := take (Z.to_nat len) (drop (Z.to_nat (f_curr_pos f)) s) in
    Done (Z.of_nat (length b), b, set_pos (f_curr_pos f + Z.of_nat (length b)) f, s));
  fo_write f := Some (λ b s, Done (Z.of_nat (length b), f, b));
  fo_seek f := None |}.
#[export] Instance demo_mount : MountOps (list Z) := {|
  mo_lookup v c s := if decide (c = [97]) then Done (0, 10 * v_id v + 1, s) else Done (ABSENT, 0, s);
  mo_open v c flag s :=
    if decide (c = [98]) then
      Done (0, Some (mk_file 1 33152 0 0 (Z.of_nat (length s)) 1 0, Some (mk_vnode 0 33152 5 (Z.of_nat (length s)) 0 0 8192 0 0 0)), s)
    else Done (ABSENT, None, s);
  mo_create v c mode s := Done (0, Some (mk_file 1 33152 0 0 0 1 0, Some (mk_vnode 0 33152 6 0 0 0 8192 0 0 0)), s);
  mo_delete v c s := Done (0, s);
  mo_stat := None; mo_statfs := None; mo_sync := None |}.

Definition demo_root : vnode_t := mk_vnode 0 16877 2 0 0 0 8192 0 0 0.
Definition demo_vst : vst (F := list Z) :=
  mk_vst (mk_kst ∅ [12288; 16384; 20480; 24576] (replicate 100 7)) {[4096 := demo_root]}
    {[8192 := mk_mount 3 [47] 4096]} [8192] one_page 4096.
Definition demo_proc : vproc (I := kid_object) := mk_vproc new_proc 4096 0 0 0.
Definition no_dev (_ : list Z) (_ : Z) (s : vst (F := list Z)) : outcome (Z * Z * vst) := Done (- ENODEV, 0, s).

Lemma demo_nonzero (v : vnode_t) c (fs : list Z) ret id fs' : mo_lookup v c fs = Done (ret, id, fs') → 0 <= ret → id ≠ 0.
Proof. cbn. case_decide; intros [= <- <- <-] Hr; [lia|by unfold ABSENT, ENOENT in Hr]. Qed.

Lemma demo_plain (v : vnode_t) c flag (fs : list Z) ret o fs' : mo_open v c flag fs = Done (ret, o, fs') →
  0 <= ret → ∃ f ov, o = Some (f, ov) ∧ f_flags f = 0.
Proof. cbn. case_decide; intros [= <- <- <-] Hr; [eauto|by unfold ABSENT, ENOENT in Hr]. Qed.

Lemma path_lookup_walks_witness :
  ∃ c s', vfs_path_lookup 4096 [47; 97; 47; 47; 46; 47; 97; 47; 98] demo_vst = Done (Some (c, [98]), s') ∧
    vnodes s' !! c = Some (mk_vnode 0 0 211 0 0 0 8192 0 0 0) ∧
    cur_fs s' = replicate 100 7 ∧ files (ks s') = ∅ ∧ ∀ q, q ≠ 12288 → vnodes s' !! q = vnodes demo_vst !! q.
Proof.
  apply (path_lookup_walks demo_nonzero 4096 demo_root [47; 97; 47; 47; 46; 47; 97; 47; 98] demo_vst
    [97; 47; 47; 46; 47; 97; 47; 98] 4096 demo_root [[97]; [46]; [97]] [98] 12288 [16384; 20480; 24576]);
    try done.
  repeat constructor; done.
Defined.

Lemma open_access_mode_witness :
  match vfs_open 0 4096 [98] O_RDONLY demo_vst with
  | Done (ret, fp, s') => ∃ f, files (ks s') !! fp = Some f ∧ opened O_RDONLY f ∧
      ∀ (p : vproc (I := kid_object)) fd, fd_file fd p = Done fp →
        (Z.land O_RDONLY O_ACCMODE = O_RDONLY → ∀ junk buf b len, kwrite junk fd buf b len p s' = Done (- EACCES, s')) ∧
        (Z.land O_RDONLY O_ACCMODE = O_WRONLY → ∀ buf len, kread fd buf len p s' = Done (- EACCES, [], s'))
  | Fail _ => False
  end.
Proof.
  destruct (vfs_open 0 4096 [98] O_RDONLY demo_vst) as [[[ret fp] s']|] eqn:Ho; [|by vm_compute in Ho].
  assert (ret = 0 ∧ fp ≠ 0) as [-> Hfp] by (vm_compute in Ho; injection Ho as <- <- _; done).
  exact (open_access_mode demo_plain 0 4096 [98] O_RDONLY demo_vst fp s' Ho Hfp).
Defined.

(** A whole session: open, read, seek refused, close; the store has no file afterwards. *)
Lemma session :
  ('(fd, p, s) ← kopen no_dev 0 [47; 97; 47; 98] O_RDONLY 0 demo_proc demo_vst;
   '(n, b, s) ← kread fd 134512640 40 p s;
   '(w, s) ← kwrite (λ _, []) fd 134512640 [1] 1 p s;
   '(c, p, s) ← close_fd fd p s;
   Done (fd, n, length b, w, c, files (ks s))) = Done (0, 40, 40%nat, - EACCES, 0, ∅).
Proof. by vm_compute. Qed.

(** ** What the code does not do *)

(** [..] goes up once at most: the vnode of the parent is the one that the next lookup overwrote. *)
Lemma dotdot_stays :
  ('(r, s) ← vfs_path_lookup 4096 [97; 47; 97; 47; 46; 46; 47; 98] demo_vst;
   match r with Some (c, _) => v ← vnode_at c s; Done (v_id v) | None => Done 0 end) = Done 211.
Proof. by vm_compute. Qed.

(** A failed open closes whatever the caller's variable held. *)
Lemma open_closes_garbage file0 : file0 ≠ 0 → vfs_open file0 4096 [99] O_RDONLY demo_vst = Fail BadPtr.
Proof. intros Hf. unfold vfs_open. by vm_compute (vfs_path_lookup _ _ _). Qed.

(** A file created for writing only cannot be written, but read: its flags are the bits of the access mode. *)
Lemma created_backwards :
  ('(fd, p, s) ← kopen no_dev 0 [47; 98] (O_WRONLY + O_CREAT) 0 demo_proc demo_vst;
   '(w, s) ← kwrite (λ _, []) fd 134512640 [1] 1 p s;
   '(n, b, s) ← kread fd 134512640 40 p s; Done (fd, w, n)) = Done (0, - EACCES, 40).
Proof. by vm_compute. Qed.

(** The path of a file whose name starts with "dev" is taken for that of a device. *)
Lemma dev_prefix flag mode file0 :
  kopen no_dev file0 [47; 100; 101; 118; 101; 108] flag mode demo_proc demo_vst = Done (- ENODEV, demo_proc, demo_vst).
Proof. reflexivity. Qed.

(** [readv] with one vector does not use it, but the word behind it on the stack. *)
Lemma readv_skips_first :
  ('(fd, p, s) ← kopen no_dev 0 [47; 98] O_RDONLY 0 demo_proc demo_vst;
   '(n, out, s) ← kreadv (replicate 8 (134512700, 3)) fd 134512640 [(134512640, 40)] 1 p s; Done (n, out)) =
    Done (3, [(134512700, [7; 7; 7])]).
Proof. by vm_compute. Qed.

(** A negative length: a buffer of one page, for a read of up to 4 gigabytes. *)
Lemma negative_read : buf_size (-1) = 4096 ∧ u32 (-1) = 2 ^ 32 - 1.
Proof. done. Qed.

(** Behind the end of a file there are as many zeros as one asks for. *)
Lemma read_past_end {F} `{FileOps F} fp len (s : vst (F := F)) f v : fp ≠ 0 → 0 < len < 2 ^ 31 → files (ks s) !! fp = Some f →
  has (f_flags f) FREAD = true → has (f_type f) S_IRUSR = true → vnodes s !! f_vnode f = Some v → v_size v < f_curr_pos f →
  vfs_read fp len s = Done (len, replicate (Z.to_nat len) 0, s).
Proof.
  intros Hfp Hl Hf Hr Ht Hv Hp. unfold vfs_read, file_at, vnode_at. rewrite (proj2 (Z.eqb_neq fp 0)), (proj2 (Z.eqb_neq len 0)) by lia.
  rewrite Hf. cbn [deref]. rewrite bind_done, Hr, Ht. cbn [negb]. rewrite Hv. cbn [deref].
  rewrite bind_done, (proj2 (Z.ltb_lt _ _)), s32_small by lia. done.
Qed.

(** Writing from a null pointer writes what the kernel's heap held before. *)
Lemma write_null_leaks :
  ('(fd, p, s) ← kopen no_dev 0 [47; 98] O_RDWR 0 demo_proc demo_vst;
   '(w, s) ← kwrite (λ n, replicate (Z.to_nat n) 99) fd 0 [] 3 p s; Done (w, cur_fs s)) = Done (3, [99; 99; 99]).
Proof. by vm_compute. Qed.

(** Removing a file of the root directory frees the vnode of the root. *)
Lemma unlink_frees_root : ('(ret, s) ← kunlink [47; 98] demo_vst; Done (ret, vnodes s !! 4096)) = Done (0, None).
Proof. by vm_compute. Qed.

(** The checks let the descriptor 1024 through, which is behind the table. *)
Lemma fd_1024 : kfsync 1024 demo_proc demo_vst = Fail BadPtr.
Proof. by vm_compute. Qed.
